(* ===== verification/_CoqProject ===== *)
-Q . S2P
Prelude.v
PyDict.v
Dispatch.v
DispatchRuntime.v
DispatchInv.v
DispatchEvolution.v
DispatchFacts.v
DispatchAdmission.v
DispatchOutbox.v
DispatchExecutor.v
DispatchStranded.v
Json.v
CanonicalJson.v
Domain.v
Grounding.v
GroundingFacts.v
Quality.v
WorkflowRepo.v
WorkflowNodes.v
Workflow.v
WorkflowSteps.v
WorkflowLogic.v
WorkflowHandlers.v
WorkflowUnits.v
WorkflowFacts.v
OutlineFacts.v
WorkflowSafety.v
WorkflowGates.v
Tools.v
InvestigationModels.v
Investigation.v
Selectors.v
Hoare.v
InvestigationInv.v
InvestigationWalk.v
InvestigationFacts.v
InvestigationDemo.v
InvestigationLive.v
InvestigationSafety.v
PyText.v
RepositoryPolicy.v
RepositoryPolicyFacts.v
Evidence.v
EvidenceFacts.v
InvestigationEvidence.v
EvidenceDemo.v
Formatter.v
FormatterFacts.v
Export.v
ExportFacts.v
ExportOnce.v
ExportDemo.v
Ledger.v
LedgerInv.v
LedgerFacts.v
LedgerDemo.v
CodePoints.v
Chunking.v
ChunkingFacts.v
Historical.v
Retrieval.v
RetrievalFacts.v
RetrievalDemo.v
ContextPack.v
ContextPackFacts.v
UnitModels.v
UnitQuality.v
UnitRun.v
PyStrip.v
UnitOutlineFacts.v
UnitRunFacts.v
UnitDemo.v
Draft.v
Knowledge.v
UnitSemantic.v
SemanticFacts.v
KnowledgeFacts.v
WorkerInvestigation.v
InformationNeed.v
ModelExecution.v
