(* ===== verification/Prelude.v ===== *)
(** * PRD Agent: a verification development

    PRD Agent turns a requirement into a product requirements document: a
    workflow asks a model for an outline and for the text of each confirmation
    unit, grounds the claims of that text in evidence read from a repository,
    checks the quality of the document, lets its owner finalize it and exports
    it; a production control store queues and leases the runs that do this work.
    This library models the Python packages under src/src/prd_agent that carry
    that logic, and the parts of the worker under src/agent-python that decide
    what is called, paid for and sent to a model, and proves what makes them
    correct.

    ** Parts, files and sources

    Shared.  [Prelude] has Python outcomes ([result]), the state and exception
    monad [M] (the writes made before a [raise] stay), stable sorting, strings;
    [PyDict] insertion-ordered dictionaries; [PyText] line splitting and
    stripping; [Json] JSON values, exception classes and hashing.py;
    [CanonicalJson] a reader for canonical JSON; [Hoare] triples for [M].

    Production dispatch (production/dispatch.py).  [Dispatch] is the record
    [InMemoryProductionControlStore] with one function per method;
    [DispatchRuntime] the outbox publisher, the reconciler, the executor with
    its heartbeat thread, and [op], the interleaving of whole locked operations.
    [DispatchInv] and [DispatchEvolution] hold the invariant and the evolution
    of runs and messages; [DispatchFacts], [DispatchAdmission],
    [DispatchOutbox], [DispatchExecutor] and [DispatchStranded] the theorems.

    Workflow.  [Domain] models domain/ and policies/; [Grounding] evidence,
    sources and grounding models and grounding/service.py; [Quality] quality/
    and rendering/; [WorkflowRepo] storage/memory.py; [WorkflowNodes]
    workflow/nodes.py and context_builder.py; [Workflow] every command of
    workflow/service.py in the order in which the code consumes identifiers and
    clock readings and writes.  [WorkflowSteps] is an abstract transition system
    of entitled writes, [WorkflowLogic] a program logic for it;
    [WorkflowHandlers] and [WorkflowUnits] prove that every command refines it,
    on the paths that raise as well.  The properties are in [WorkflowFacts],
    [WorkflowSafety], [WorkflowGates], [OutlineFacts], [GroundingFacts] and at
    the end of [Quality].

    Investigation.  [Tools] has tools/models.py and the interface
    [EvidenceService]; [InvestigationModels] investigation/models.py and
    policies.py and storage/memory_investigation.py; [Investigation] the runner
    and application/investigation_service.py; [Selectors]
    investigation/planner.py and the deterministic selector of
    application/default_investigation.py.  [InvestigationWalk] derives a triple
    for the loop body from triples for its primitives; [InvestigationInv],
    [InvestigationFacts], [InvestigationLive] and
    [InvestigationSafety] instantiate it; [InvestigationDemo] has concrete runs.

    Repository evidence.  [RepositoryPolicy] models repository/bindings.py,
    path_policy.py and content_policy.py; [Evidence] the tool registry, the
    normaliser, the fact builder, the conflict detector, the validator,
    storage/memory_evidence.py and application/repository_evidence_service.py,
    and gives the instance of [EvidenceService] that the runner uses;
    [InvestigationEvidence] composes the two.  Facts: [RepositoryPolicyFacts],
    [EvidenceFacts], [EvidenceDemo].

    Export.  [Formatter] models export/formatter.py, [Export]
    export/models.py, store.py and service.py.  Facts: [FormatterFacts],
    [ExportFacts], [ExportOnce], [ExportDemo].

    Historical documents (historical/).  [CodePoints] has strings as code
    points; [Chunking] text.py and chunking.py; [Historical] models.py,
    manifest.py, store.py and the ingestor; [Retrieval] the retriever with its
    lexical scores and reciprocal rank fusion in binary64, the tool handler and
    the evidence adapter.  Facts: [ChunkingFacts], [RetrievalFacts], [RetrievalDemo].

    Run ledger of the worker (agent-python/agent/runtime).  [Ledger] models
    budget.py, idempotency.py, outcomes.py, reconcile.py and ledger.py together
    with the durable store they report to; every message can be lost before or
    after it is applied, and a run is a list of worker lives that stop anywhere.
    [LedgerInv] has the invariant and [ledger_program], the programs a worker
    can write with the ledger; facts: [LedgerFacts],
    [LedgerDemo].

    Context packs (agent-python/agent/context_pack).  [ContextPack] models the
    policy, the estimator, the reductions, the pack, its validator and
    [prepare], which records packs through the ledger.  Facts:
    [ContextPackFacts].

    Reviewable units of the worker (agent-python/agent/unit and quality).
    [UnitModels] has the outlines, scopes, candidates and patches with their
    checks, readers and writers; [UnitQuality] the quality policies; [UnitRun]
    the invariants, the runner, the transport and the runtime, which locks what
    the model answers to the scope.  Facts: [UnitOutlineFacts] (the validator,
    its search for cycles, reading back), [UnitRunFacts] (headings and runs),
    [UnitDemo]; [PyStrip] has [str.strip].

    Drafts, knowledge and grounding of the worker (agent-python/agent/draft,
    confirmation, knowledge, grounding and unit/semantic.py).  [Draft] has the
    drafts and the builder of confirmation units; [Knowledge] the evidence
    module, which turns evidence of a capability into facts, conflicts, unknowns
    and coverage, and its artifact codec; [UnitSemantic] the claims of a unit,
    the grounding policies and the semantic boundary that decides whether a unit
    passes.  Facts: [SemanticFacts], [KnowledgeFacts].

    Investigations of the worker (agent-python/agent/investigation and
    information_need).  [InformationNeed] has the plans, the policy that decides
    whether a task is investigated, their artifacts, the planner around its call
    of the model, and the supplement factory; [WorkerInvestigation] the actions,
    the policies and the runner, whose loop builds knowledge round by round, and
    the request with which the graph resumes it.  The theorems are in the same
    files.

    Model calls of the worker (agent-python/agent/project_memory and
    model_execution).  [ModelExecution] models the recall of project memory, the
    compaction of contexts and [execute], which joins memory, context packs and
    the ledger for one call, and with it the whole planner; its theorems compose
    those of the ledger and of the context packs.

    ** What the theorems show

    Dispatch: admission limits and well-formedness under every interleaving,
    leases exclude and stale grants are fenced, admission refines an abstract
    fair round, outbox claims exclude, an execution that lost its lease writes
    nothing; two behaviours that strand runs.  Workflow: at most one active run
    per task, the task life cycle, idempotent commands, isolation of owners,
    exact conditions for finalizing and for offering a grounded unit, outlines
    whose units depend on earlier units only, the dependent closure is least,
    and the states no command leaves.  Investigation: the loop ends within its
    budget, the store's invariant and monotone records under concurrent clients,
    a run without interference settles, completed actions are executed once, and
    the evidence named in a result was read from the repository at the pinned
    commit.  Evidence: recorded evidence matches the cited lines, executions are
    idempotent, conflicts are exact, validated paths stay inside the prefix.
    Export: one call per idempotency key whatever others do, only confirmed
    documents leave, claims of intents exclude, the parser is total.  Hashing:
    canonical JSON can be read back.  Historical documents: a search returns
    only what the actor may read, documents he may not read have no influence on
    its answer, answers over a corpus version are reproducible, chunks keep the
    text, fusion ranks every candidate once; a filter that always raises and a
    sentence length that cannot be ingested.  Ledger: an operation is performed
    at most once over all workers of a run, a recorded outcome is replayed and
    not recomputed, the budget is never exceeded.  Context packs: what is sent
    fits the window with the reserved answer, mandatory fields are kept and are
    the only reason to fail, a semantic view adds no text, packs read back.
    Units: an outline is accepted exactly when it is well formed, a run stays in
    its frozen scope whatever the model answers, answers are accepted exactly
    for writable scopes; titles that can never be written.  Drafts, knowledge and
    grounding: a unit passes only with current-state claims that verified facts
    support, knowledge built from knowledge stays grounded in valid evidence of
    the run's authorities, coverage is decided by the facts, bundles read back;
    a repeated claim identifier hides a blocking claim, and a fact found again
    for other targets drops the coverage of the earlier ones.  Investigations of
    the worker: the policy routes exactly and never skips a required need, a
    recorded plan is taken again, a supplement stays within its parent, the loop
    ends within its budget, executes no action twice and stops for a reason that
    is true, and a run resumed after progress goes on as the interrupted one; one
    resumed after an idle round forgets a replan.  Model calls: no part of a call
    is started twice over all workers, the model is never asked more than fits its
    window, the attempts stay within the budget, responses read back.

    ** Parameters

    What the sources do not contain is a type class: [Env], [InvestigationEnv],
    [EvidenceEnv] and [ExportEnv] give identifiers, clock readings, the model,
    the providers and what other threads do to a store between two of our
    operations; [Builtins] gives [repr] of containers, [int] of a string,
    Unicode [lower] and SHA-256; [RegexEngine] the standard library's regular
    expressions over the policy's patterns; [RepositoryReader] the repository
    client; [UnicodeDigits] the decimal digits outside ASCII; [TextEngine],
    [HistoricalEnv] and [RetrieverConfig] Unicode normalisation, files and the
    vector ranker; [JsonLoads] and [LedgerEnv] [json.loads] and the faults of
    the messages; [TokenEstimator], [ContextEnv], [FloatEq] and [UpperCase] the
    estimator, [str.upper] and the comparison of floats; [ModelClient],
    [MemoryGateway], [RunContext] and [UnicodeAlnum] the model, the memory
    service, the data of the run and [str.isalnum]; the runner of
    investigations takes a record of callbacks.  Theorems hold for
    every instance; where one is assumed to behave (other clients use the
    store's operations, identifiers are fresh), the assumption is a named class
    or predicate and a witness gives a concrete instance.

    ** Widths and fuel

    Python integers are unbounded: [Z], or [nat] for counters that the code only
    increments.  Instants are microseconds in [Z].  Strings are UTF-8 bytes.
    Loops that are not structural take fuel, with the bound proved sufficient:
    the admission loop (waiting runs + 1), the dependent closure (units + 1),
    the investigation loops (remaining iterations + 1, [run_terminates] and
    [worker_run_ends]), the Markdown parser (lines, [parse_total]), the JSON
    reader (length of the text, [canonical_json_roundtrip]), the parent walk and
    the cycle search of outlines (three levels, units + 1,
    [outline_accepted_exactly]); text scanning functions take the length of the
    text they shorten.

    ** Not modelled

    PostgreSQL stores (SQL text executed by a server; the in-memory stores with
    the same contract are modelled), the HTTP API, CLI and identity, the model
    client and prompts, remote repository clients and the parsers of repository
    tools, offline evaluation, the Feishu gateway, the LangGraph graph and gRPC
    server of the worker, and generated stubs.  Exception messages, logging and
    metrics are left out everywhere.  Of the worker's glue the resume validator,
    which compares a checkpoint with what the backend sends, is left out; so is
    the response mapping of the API. *)
From stdpp Require Import base list sets strings pretty sorting.
From Stdlib Require Import ZArith.

(** ** Results and the exception monad

    Python code either returns a value or raises.  [result E A] is such an
    outcome, and [M S E A] is a computation over a mutable state [S]; the
    state reached before a [raise] is kept, because nothing rolls it back. *)

Inductive result (E A : Type) : Type :=
  | Ok (a : A)
  | Raise (e : E).
Arguments Ok {E A} a.
Arguments Raise {E A} e.

Definition M (S E A : Type) : Type := S -> S * result E A.

#[global] Instance M_ret S E : MRet (M S E) := fun A a st => (st, Ok a).
#[global] Instance M_bind S E : MBind (M S E) := fun A B k m st =>
  match m st with
  | (st', Ok a) => k a st'
  | (st', Raise e) => (st', Raise e)
  end.

Definition raise {S E A : Type} (e : E) : M S E A := fun st => (st, Raise e).
Definition gets {S E A : Type} (f : S -> A) : M S E A := fun st => (st, Ok (f st)).
Definition modify {S E : Type} (f : S -> S) : M S E unit := fun st => (f st, Ok tt).

(** A pure outcome lifted into the monad. *)
Definition liftR {S E A : Type} (r : result E A) : M S E A := fun st => (st, r).

Definition result_bind {E A B : Type} (k : A -> result E B) (r : result E A) : result E B :=
  match r with
  | Ok a => k a
  | Raise e => Raise e
  end.

(** A comprehension whose body can raise: the first exception wins. *)
Fixpoint result_map {E A B : Type} (f : A -> result E B) (l : list A) : result E (list B) :=
  match l with
  | [] => Ok []
  | x :: rest => result_bind (fun y => result_bind (fun ys => Ok (y :: ys)) (result_map f rest)) (f x)
  end.

Definition is_ok {E A : Type} (r : result E A) : bool :=
  match r with Ok _ => true | Raise _ => false end.

(** ** Sorting and selection

    [sorted(xs, key=...)] is stable; [min(xs, key=...)] returns the first
    element with the least key. *)

Section ordering.
Context {A : Type} (leb : A -> A -> bool).

Fixpoint insert_by (x : A) (l : list A) : list A :=
  match l with
  | [] => [x]
  | y :: l' => if leb x y then x :: y :: l' else y :: insert_by x l'
  end.

Definition sort_by (l : list A) : list A := foldr insert_by [] l.

Fixpoint min_by_from (best : A) (l : list A) : A :=
  match l with
  | [] => best
  | y :: l' => min_by_from (if leb best y then best else y) l'
  end.

Definition min_by (l : list A) : option A :=
  match l with
  | [] => None
  | x :: l' => Some (min_by_from x l')
  end.
End ordering.

(** [xs[-n:]] for a positive [n]. *)
Definition last_n {A : Type} (n : nat) (l : list A) : list A :=
  drop (length l - n) l.

(** [tuple(dict.fromkeys(xs))]: the first occurrence of each value. *)
Fixpoint dedup_from {A : Type} `{EqDecision A} (seen l : list A) : list A :=
  match l with
  | [] => []
  | x :: l' =>
      if decide (x ∈ seen) then dedup_from seen l'
      else x :: dedup_from (x :: seen) l'
  end.

Definition dedup {A : Type} `{EqDecision A} (l : list A) : list A := dedup_from [] l.

(** [max((f(x) for x in xs), default=0)] over integers. *)
Definition max_default0 (l : list Z) : Z :=
  match l with
  | [] => 0%Z
  | x :: l' => foldl Z.max x l'
  end.

(** Lexicographic [<=] on pairs, as Python compares tuples. *)
Definition pair_leb {A B : Type} (eqA : A -> A -> bool) (leA : A -> A -> bool)
    (leB : B -> B -> bool) (x y : A * B) : bool :=
  if eqA x.1 y.1 then leB x.2 y.2 else leA x.1 y.1.

(** ** Python strings

    A [str] is its UTF-8 encoding.  Concatenation, equality, order and
    substring search agree with the code-point view on valid UTF-8; slicing
    and [strip] are written out on the encoding. *)

Definition is_continuation (c : Ascii.ascii) : bool :=
  let n := Ascii.nat_of_ascii c in (128 <=? n)%nat && (n <? 192)%nat.

(** [s[:n]]: the first [n] code points. *)
Fixpoint str_take (n : nat) (s : string) : string :=
  match s with
  | EmptyString => EmptyString
  | String c s' =>
      if is_continuation c then String c (str_take n s')
      else match n with
           | 0 => EmptyString
           | S n' => String c (str_take n' s')
           end
  end.

(** [len(s)]: the number of code points. *)
Fixpoint str_len (s : string) : nat :=
  match s with
  | EmptyString => 0
  | String c s' => if is_continuation c then str_len s' else S (str_len s')
  end.

Fixpoint str_drop_bytes (n : nat) (s : string) : string :=
  match n, s with
  | S n', String _ s' => str_drop_bytes n' s'
  | _, _ => s
  end.

(** [marker in s]. *)
Fixpoint str_contains (marker s : string) : bool :=
  String.prefix marker s ||
  match s with
  | EmptyString => false
  | String _ s' => str_contains marker s'
  end.

Definition str_of_codes (l : list nat) : string :=
  foldr (fun n s => String (Ascii.ascii_of_nat n) s) EmptyString l.

(** The code points for which [str.isspace] holds, UTF-8 encoded. *)
Definition whitespace : list string :=
  str_of_codes <$>
    ((fun n => [n]) <$> [9; 10; 11; 12; 13; 28; 29; 30; 31; 32])
    ++ [[194; 133]; [194; 160]; [225; 154; 128]]
    ++ ((fun n => [226; 128; n]) <$> seq 128 11)
    ++ [[226; 128; 168]; [226; 128; 169]; [226; 128; 175]; [226; 129; 159]; [227; 128; 128]].

Definition leading_space (s : string) : option string :=
  match List.filter (fun w => String.prefix w s) whitespace with
  | w :: _ => Some (str_drop_bytes (String.length w) s)
  | [] => None
  end.

Fixpoint lstrip_fuel (fuel : nat) (s : string) : string :=
  match fuel with
  | 0 => s
  | S fuel' =>
      match leading_space s with
      | Some s' => lstrip_fuel fuel' s'
      | None => s
      end
  end.

(** Every removed code point has at least one byte, so the length is enough. *)
Definition lstrip (s : string) : string := lstrip_fuel (String.length s) s.

(** [all(c.isspace() for c in s)]. *)
Definition all_space (s : string) : bool :=
  match lstrip s with EmptyString => true | _ => false end.

Fixpoint rstrip (s : string) : string :=
  match s with
  | EmptyString => EmptyString
  | String c s' =>
      if negb (is_continuation c) && all_space s then EmptyString
      else String c (rstrip s')
  end.

Definition strip (s : string) : string := rstrip (lstrip s).

(** [bool(s)] of a string. *)
Definition truthy (s : string) : bool :=
  match s with EmptyString => false | _ => true end.

(** [x or y] on an optional string. *)
Definition or_else (x : option string) (y : string) : string :=
  match x with
  | Some s => if truthy s then s else y
  | None => y
  end.

Fixpoint str_join (sep : string) (l : list string) : string :=
  match l with
  | [] => EmptyString
  | [s] => s
  | s :: l' => s +:+ sep +:+ str_join sep l'
  end.

Definition ascii_lower (c : Ascii.ascii) : Ascii.ascii :=
  let n := Ascii.nat_of_ascii c in
  if (65 <=? n)%nat && (n <=? 90)%nat then Ascii.ascii_of_nat (n + 32) else c.

(** [str.lower] on the ASCII range. *)
Fixpoint str_lower (s : string) : string :=
  match s with
  | EmptyString => EmptyString
  | String c s' => String (ascii_lower c) (str_lower s')
  end.

(** ** Automation *)

Create HintDb prd.

(** Split every conjunction and existential of the context and simplify. *)
Ltac crush_hyps := destruct_and?; simplify_eq/=.

(** Case analysis on every [match] and [if] of the goal and the context. *)
Ltac crush_cases := repeat (case_match; simplify_eq/=).

Ltac crush := crush_cases; crush_hyps; eauto with prd; try lia; try congruence; try done.

(** ** Generic lemmas *)

Lemma insert_by_perm {A} (leb : A -> A -> bool) x l :
  insert_by leb x l ≡ₚ x :: l.
Proof.
  induction l as [|y l IH]; simpl; [done|].
  destruct (leb x y); [done|]. rewrite IH. apply Permutation_swap.
Qed.

Lemma sort_by_perm {A} (leb : A -> A -> bool) l : sort_by leb l ≡ₚ l.
Proof.
  induction l as [|x l IH]; simpl; [done|].
  rewrite insert_by_perm. by f_equiv.
Qed.

Lemma elem_of_sort_by {A} (leb : A -> A -> bool) l x : x ∈ sort_by leb l <-> x ∈ l.
Proof. by rewrite sort_by_perm. Qed.

Lemma insert_by_sorted {A} (leb : A -> A -> bool) x l :
  (forall a b, leb a b = false -> leb b a = true) ->
  Sorted (fun a b => leb a b = true) l ->
  Sorted (fun a b => leb a b = true) (insert_by leb x l).
Proof.
  intros Htot. induction 1 as [|y l Hl IH Hhd]; simpl; [by repeat constructor|].
  destruct (leb x y) eqn:E; [by repeat constructor|].
  constructor; [done|].
  destruct l as [|z l]; simpl; [constructor; auto|].
  inversion Hhd; subst. destruct (leb x z); constructor; auto.
Qed.

Lemma sort_by_sorted {A} (leb : A -> A -> bool) l :
  (forall a b, leb a b = false -> leb b a = true) ->
  Sorted (fun a b => leb a b = true) (sort_by leb l).
Proof.
  intros Htot. induction l as [|x l IH]; simpl; [constructor|].
  by apply insert_by_sorted.
Qed.

Section min_lemmas.
Context {A : Type} (leb : A -> A -> bool).
Hypothesis leb_total : forall a b, leb a b = false -> leb b a = true.
Hypothesis leb_trans : forall a b c, leb a b = true -> leb b c = true -> leb a c = true.

Lemma leb_refl_total a : leb a a = true.
Proof. destruct (leb a a) eqn:E; [done|]. by rewrite (leb_total _ _ E) in E. Qed.

Lemma min_by_from_elem best l : min_by_from leb best l ∈ best :: l.
Proof.
  revert best. induction l as [|y l IH]; intros best; simpl; [set_solver|].
  specialize (IH (if leb best y then best else y)).
  destruct (leb best y); set_solver.
Qed.

Lemma min_by_from_le best l y :
  y ∈ best :: l -> leb (min_by_from leb best l) y = true.
Proof.
  revert best y. induction l as [|z l IH]; intros best y Hy; simpl.
  - apply list_elem_of_singleton in Hy as ->. apply leb_refl_total.
  - set (b := if leb best z then best else z).
    assert (Hb : leb (min_by_from leb b l) b = true) by (apply IH; set_solver).
    assert (Hbz : leb b best = true /\ leb b z = true).
    { subst b. destruct (leb best z) eqn:E; split; first [done | apply leb_refl_total | by apply leb_total]. }
    destruct Hbz as [Hbb Hbz].
    apply elem_of_cons in Hy as [->|Hy]; [by eapply leb_trans|].
    apply elem_of_cons in Hy as [->|Hy]; [by eapply leb_trans|].
    apply IH. set_solver.
Qed.

Lemma min_by_Some l x :
  min_by leb l = Some x -> x ∈ l /\ forall y, y ∈ l -> leb x y = true.
Proof.
  destruct l as [|z l]; simpl; [done|]. intros [= <-]. split.
  - apply min_by_from_elem.
  - intros y. apply min_by_from_le.
Qed.
End min_lemmas.

Lemma min_by_None {A} (leb : A -> A -> bool) l : min_by leb l = None <-> l = [].
Proof. by destruct l. Qed.

Lemma dedup_from_elem {A} `{EqDecision A} (seen l : list A) x :
  x ∈ dedup_from seen l <-> x ∈ l /\ x ∉ seen.
Proof.
  revert seen. induction l as [|y l IH]; intros seen; simpl; [set_solver|].
  case_decide; [rewrite IH; set_solver|].
  rewrite elem_of_cons, IH.
  destruct (decide (x = y)); set_solver.
Qed.

Lemma dedup_elem {A} `{EqDecision A} (l : list A) x : x ∈ dedup l <-> x ∈ l.
Proof. unfold dedup. rewrite dedup_from_elem. set_solver. Qed.

Lemma dedup_from_NoDup {A} `{EqDecision A} (seen l : list A) : NoDup (dedup_from seen l).
Proof.
  revert seen. induction l as [|y l IH]; intros seen; simpl; [constructor|].
  case_decide; [done|]. constructor; [|done]. rewrite dedup_from_elem. set_solver.
Qed.

Lemma dedup_NoDup {A} `{EqDecision A} (l : list A) : NoDup (dedup l).
Proof. apply dedup_from_NoDup. Qed.

Lemma foldl_max_ge (l : list Z) (a : Z) : (a <= foldl Z.max a l)%Z.
Proof.
  revert a. induction l as [|x l IH]; intros a; simpl; [lia|].
  specialize (IH (Z.max a x)). lia.
Qed.

Lemma foldl_max_elem (l : list Z) (a x : Z) : x ∈ l -> (x <= foldl Z.max a l)%Z.
Proof.
  revert a. induction l as [|y l IH]; intros a Hx; simpl; [set_solver|].
  apply elem_of_cons in Hx as [->|Hx]; [|by apply IH].
  pose proof (foldl_max_ge l (Z.max a y)). lia.
Qed.

Lemma max_default0_ge (l : list Z) x : x ∈ l -> (x <= max_default0 l)%Z.
Proof.
  destruct l as [|y l]; simpl; [set_solver|]. intros Hx.
  apply elem_of_cons in Hx as [->|Hx]; [apply foldl_max_ge|by apply foldl_max_elem].
Qed.

Lemma length_last_n {A} n (l : list A) : length (last_n n l) <= n.
Proof. unfold last_n. rewrite length_drop. lia. Qed.

Lemma result_bind_Ok {E A B} (k : A -> result E B) (r : result E A) y :
  result_bind k r = Ok y <-> exists x, r = Ok x /\ k x = Ok y.
Proof. destruct r; naive_solver. Qed.

Lemma result_map_Ok {E A B} (f : A -> result E B) l ys :
  result_map f l = Ok ys <-> Forall2 (fun x y => f x = Ok y) l ys.
Proof.
  revert ys. induction l as [|x l IH]; intros ys; simpl.
  - split; [intros [= <-]; constructor|by inversion 1].
  - rewrite result_bind_Ok. setoid_rewrite result_bind_Ok. split.
    + intros (y & Hy & ys' & Hys & [= <-]). constructor; [done|by apply IH].
    + inversion 1 as [|? y ? ys' Hy Hys]; subst. exists y. split; [done|].
      exists ys'. split; [by apply IH|done].
Qed.

Lemma result_map_total {E A B} (f : A -> result E B) l :
  (forall x, x ∈ l -> exists y, f x = Ok y) -> exists ys, result_map f l = Ok ys.
Proof.
  induction l as [|x l IH]; intros Hall; [by eexists|].
  destruct (Hall x) as [y Hy]; [set_solver|]. destruct IH as [ys Hys]; [set_solver|].
  exists (y :: ys). simpl. by rewrite Hy, Hys.
Qed.

#[export] Hint Resolve sort_by_perm dedup_NoDup : prd.

(** What a bind returned: its continuation ran, or the first part raised. *)
Lemma M_bind_inv {S E A B} (m : M S E A) (k : A -> M S E B) w w' r :
  (m ≫= k) w = (w', r) -> (exists w1 a, m w = (w1, Ok a) /\ k a w1 = (w', r)) \/ (exists e, m w = (w', Raise e) /\ r = Raise e).
Proof. cbv [mbind M_bind]. destruct (m w) as [w1 [a|e]]; [eauto|]. intros [= <- <-]. eauto. Qed.
