(* ===== verification/PyDict.v ===== *)
(** * Python dictionaries

    A [dict] iterates in insertion order, and assigning to a present key keeps
    its position.  Several components depend on that order ([next(...)] over
    [values()], [sorted(...)[-1]] on ties), so a dictionary is an association
    list with the operations the sources use, not an unordered map. *)
From stdpp Require Import base list sets strings.
From S2P Require Import Prelude.

Record dict (K V : Type) := Dict { items : list (K * V) }.
Arguments Dict {K V} items.
Arguments items {K V} d.

Section dict.
Context {K V : Type} `{EqDecision K}.

Fixpoint assoc_get (k : K) (l : list (K * V)) : option V :=
  match l with
  | [] => None
  | (k', v) :: l' => if decide (k = k') then Some v else assoc_get k l'
  end.

Fixpoint assoc_set (k : K) (v : V) (l : list (K * V)) : list (K * V) :=
  match l with
  | [] => [(k, v)]
  | (k', v') :: l' =>
      if decide (k = k') then (k', v) :: l' else (k', v') :: assoc_set k v l'
  end.

Fixpoint assoc_del (k : K) (l : list (K * V)) : list (K * V) :=
  match l with
  | [] => []
  | (k', v') :: l' =>
      if decide (k = k') then l' else (k', v') :: assoc_del k l'
  end.

#[global] Instance dict_empty : Empty (dict K V) := Dict [].
#[global] Instance dict_lookup : Lookup K V (dict K V) := fun k d => assoc_get k (items d).
#[global] Instance dict_insert : Insert K V (dict K V) := fun k v d => Dict (assoc_set k v (items d)).
#[global] Instance dict_delete : Delete K (dict K V) := fun k d => Dict (assoc_del k (items d)).

Definition keys (d : dict K V) : list K := (items d).*1.
Definition values (d : dict K V) : list V := (items d).*2.

(** [key in d]. *)
Definition has_key (d : dict K V) (k : K) : bool := bool_decide (is_Some (d !! k)).

(** [d.get(k, default)]. *)
Definition get_default (d : dict K V) (k : K) (x : V) : V := default x (d !! k).

(** Keys are pairwise distinct: the representation invariant. *)
Definition dict_ok (d : dict K V) : Prop := NoDup (keys d).

(** [{f(x): x for x in xs}]: on equal keys the last value wins. *)
Definition dict_by (f : V -> K) (l : list V) : dict K V :=
  foldl (fun d x => <[f x := x]> d) ∅ l.

(** [d.update(...)] with such a comprehension. *)
Definition dict_update (f : V -> K) (l : list V) (d : dict K V) : dict K V :=
  foldl (fun d x => <[f x := x]> d) d l.

(** The number of values satisfying a test. *)
Definition dcount (p : V -> bool) (d : dict K V) : nat :=
  length (List.filter p (values d)).
End dict.

#[global] Arguments dict_lookup {K V _} _ _ : simpl never.
#[global] Arguments dict_insert {K V _} _ _ _ : simpl never.
#[global] Arguments dict_delete {K V _} _ _ : simpl never.

Section dict_lemmas.
Context {K V : Type} `{EqDecision K}.
Implicit Types (d : dict K V) (k : K) (v : V) (p : V -> bool).

Lemma dict_lookup_empty k : (∅ : dict K V) !! k = None.
Proof. done. Qed.

Lemma dict_lookup_insert d k k' v :
  <[k:=v]> d !! k' = if decide (k = k') then Some v else d !! k'.
Proof.
  unfold lookup, dict_lookup, insert, dict_insert; simpl.
  induction (items d) as [|[k1 v1] l IH]; simpl.
  - repeat case_decide; naive_solver.
  - repeat (case_decide; simpl); naive_solver.
Qed.

Lemma dict_lookup_insert_eq d k v : <[k:=v]> d !! k = Some v.
Proof. rewrite dict_lookup_insert. by case_decide. Qed.

Lemma dict_lookup_insert_ne d k k' v : k ≠ k' -> <[k:=v]> d !! k' = d !! k'.
Proof. intros. rewrite dict_lookup_insert. by case_decide. Qed.

Lemma dict_insert_is_Some d k k' v :
  is_Some (d !! k') -> is_Some (<[k:=v]> d !! k').
Proof. rewrite dict_lookup_insert. case_decide; eauto. Qed.

Lemma assoc_set_keys k v (l : list (K * V)) :
  (assoc_set k v l).*1 = if decide (k ∈ l.*1) then l.*1 else l.*1 ++ [k].
Proof.
  induction l as [|[k1 v1] l IH]; csimpl; [done|].
  destruct (decide (k = k1)) as [->|Hne]; csimpl; [by rewrite decide_True by set_solver|].
  rewrite IH. repeat case_decide; set_solver.
Qed.

Lemma dict_ok_empty : dict_ok (∅ : dict K V).
Proof. constructor. Qed.

Lemma dict_ok_insert d k v : dict_ok d -> dict_ok (<[k:=v]> d).
Proof.
  unfold dict_ok, keys, insert, dict_insert; simpl. rewrite assoc_set_keys.
  case_decide; [done|]. intros. apply NoDup_app. split; [done|].
  split; [set_solver|apply NoDup_singleton].
Qed.

Lemma assoc_get_elem (l : list (K * V)) k v :
  NoDup l.*1 -> (k, v) ∈ l -> assoc_get k l = Some v.
Proof.
  induction l as [|[k1 v1] l IH]; simpl; [set_solver|].
  intros [Hk1 Hl]%NoDup_cons [[= -> ->]|Hin]%elem_of_cons; [by rewrite decide_True|].
  rewrite decide_False; [auto|]. intros ->. apply Hk1.
  apply (list_elem_of_fmap_2 fst) in Hin. done.
Qed.

Lemma assoc_get_Some_elem (l : list (K * V)) k v :
  assoc_get k l = Some v -> (k, v) ∈ l.
Proof.
  induction l as [|[k1 v1] l IH]; simpl; [done|].
  case_decide; [intros [= ->]; subst; set_solver|]. intros. set_solver.
Qed.

Lemma dict_lookup_items d k v : d !! k = Some v -> (k, v) ∈ items d.
Proof. apply assoc_get_Some_elem. Qed.

Lemma dict_lookup_values d k v : d !! k = Some v -> v ∈ values d.
Proof. intros H%dict_lookup_items. by apply (list_elem_of_fmap_2 snd) in H. Qed.

Lemma dict_values_lookup d v :
  dict_ok d -> v ∈ values d -> exists k, d !! k = Some v.
Proof.
  intros Hok [[k v'] [-> Hin]]%list_elem_of_fmap. exists k.
  by apply assoc_get_elem.
Qed.

Lemma dcount_insert_None d k v p :
  d !! k = None -> dcount p (<[k:=v]> d) = dcount p d + (if p v then 1 else 0).
Proof.
  unfold dcount, values, lookup, dict_lookup, insert, dict_insert; simpl.
  induction (items d) as [|[k1 v1] l IH]; csimpl; [by destruct (p v)|].
  case_decide; [done|]. intros Hl. csimpl.
  destruct (p v1); csimpl; rewrite IH; done.
Qed.

Lemma dcount_insert_Some d k v old p :
  d !! k = Some old ->
  dcount p (<[k:=v]> d) + (if p old then 1 else 0) = dcount p d + (if p v then 1 else 0).
Proof.
  unfold dcount, values, lookup, dict_lookup, insert, dict_insert; simpl.
  induction (items d) as [|[k1 v1] l IH]; csimpl; [done|].
  case_decide.
  - intros [= ->]. csimpl. destruct (p old), (p v); csimpl; lia.
  - intros Hl. specialize (IH Hl). csimpl. destruct (p v1); csimpl; lia.
Qed.

Lemma dcount_pos d k v p : d !! k = Some v -> p v = true -> 0 < dcount p d.
Proof.
  intros Hl Hp. pose proof (dcount_insert_Some d k v v p Hl) as H.
  apply dict_lookup_values in Hl. unfold dcount.
  assert (Hin : v ∈ List.filter p (values d)).
  { apply list_elem_of_In, filter_In. split; [by apply list_elem_of_In|done]. }
  destruct (List.filter p (values d)); simpl; [set_solver|lia].
Qed.

Lemma dict_lookup_delete d k k' :
  dict_ok d -> delete k d !! k' = if decide (k = k') then None else d !! k'.
Proof.
  unfold dict_ok, keys, lookup, dict_lookup, delete, dict_delete; simpl.
  induction (items d) as [|[k1 v1] l IH]; simpl; [by case_decide|].
  intros [Hk1 Hl]%NoDup_cons. specialize (IH Hl).
  assert (Hnone : assoc_get k1 l = None).
  { destruct (assoc_get k1 l) as [v|] eqn:E; [|done].
    apply assoc_get_Some_elem, (list_elem_of_fmap_2 fst) in E. done. }
  repeat (case_decide; simplify_eq/=); done.
Qed.

Lemma dict_ok_delete d k : dict_ok d -> dict_ok (delete k d).
Proof.
  unfold dict_ok, keys, delete, dict_delete; simpl.
  assert (Hsub : forall l : list (K * V), (assoc_del k l).*1 ⊆ l.*1).
  { induction l as [|[k1 v1] l IH]; simpl; [done|]. case_decide; set_solver. }
  induction (items d) as [|[k1 v1] l IH]; simpl; [done|].
  intros [Hk1 Hl]%NoDup_cons. case_decide; [done|]. simpl. constructor; [|auto].
  set_solver.
Qed.

Lemma dict_update_lookup (f : V -> K) l d k v :
  dict_update f l d !! k = Some v -> v ∈ l /\ f v = k \/ d !! k = Some v.
Proof.
  unfold dict_update. revert d. induction l as [|x l IH]; intros d; simpl; [auto|].
  intros [[Hin Hf]|Hd]%IH; [set_solver|].
  rewrite dict_lookup_insert in Hd. case_decide; [|auto]. simplify_eq. set_solver.
Qed.

Lemma dict_by_lookup (f : V -> K) l k v :
  dict_by f l !! k = Some v -> v ∈ l /\ f v = k.
Proof. intros [?|?]%(dict_update_lookup f l ∅); [done|by rewrite dict_lookup_empty in *]. Qed.

Lemma dict_update_is_Some (f : V -> K) l d k :
  is_Some (dict_update f l d !! k) <-> (exists v, v ∈ l /\ f v = k) \/ is_Some (d !! k).
Proof.
  unfold dict_update. revert d. induction l as [|x l IH]; intros d; simpl; [set_solver|].
  rewrite IH, dict_lookup_insert. case_decide; set_solver.
Qed.

Lemma dict_by_is_Some (f : V -> K) l k :
  is_Some (dict_by f l !! k) <-> exists v, v ∈ l /\ f v = k.
Proof.
  unfold dict_by. pose proof (dict_update_is_Some f l ∅ k) as H. unfold dict_update in H.
  rewrite H. split; [intros [?|[? ?]]|]; eauto. by rewrite dict_lookup_empty in *.
Qed.

Lemma dict_update_lookup_last (f : V -> K) l d k :
  dict_update f l d !! k =
  match List.find (fun v => bool_decide (f v = k)) (rev l) with Some v => Some v | None => d !! k end.
Proof.
  unfold dict_update. induction l as [|x l IH] using rev_ind; simpl; [done|].
  rewrite foldl_app, rev_app_distr. simpl. rewrite dict_lookup_insert.
  repeat case_bool_decide; case_decide; try done.
Qed.

(** With distinct keys the comprehension finds every element. *)
Lemma dict_by_NoDup (f : V -> K) l x :
  NoDup (f <$> l) -> x ∈ l -> dict_by f l !! f x = Some x.
Proof.
  intros Hnd Hx. destruct (dict_by f l !! f x) as [v|] eqn:E.
  - apply dict_by_lookup in E as [Hv Hf].
    apply list_elem_of_lookup in Hv as [i Hi]. apply list_elem_of_lookup in Hx as [j Hj].
    assert (i = j) by (eapply (NoDup_lookup (f <$> l)); [done| |]; rewrite list_lookup_fmap;
      [by rewrite Hi; simpl; rewrite Hf|by rewrite Hj]). congruence.
  - exfalso. assert (is_Some (dict_by f l !! f x)) as [? ?]; [|congruence].
    apply dict_by_is_Some. eauto.
Qed.

Lemma dict_ok_update (f : V -> K) l d : dict_ok d -> dict_ok (dict_update f l d).
Proof.
  unfold dict_update. revert d. induction l as [|x l IH]; intros d Hd; simpl; [done|].
  apply IH, dict_ok_insert, Hd.
Qed.
End dict_lemmas.

Lemma dict_by_map {K A B} `{EqDecision K} (f : A -> K) (h : B -> K) (g : A -> B) l k :
  (forall x, h (g x) = f x) -> dict_by h (map g l) !! k = g <$> dict_by f l !! k.
Proof.
  intros Hg. unfold dict_by.
  pose proof (dict_update_lookup_last f l ∅ k) as H1.
  pose proof (dict_update_lookup_last h (map g l) ∅ k) as H2.
  unfold dict_update in *. rewrite H1, H2, <- map_rev. clear H1 H2.
  induction (rev l) as [|x l' IH]; simpl; [done|]. rewrite Hg. by case_bool_decide.
Qed.

#[export] Hint Resolve dict_ok_empty dict_ok_insert dict_ok_delete dict_insert_is_Some : prd.
