(* ===== verification/Dispatch.v ===== *)
(** * The production control store

    [InMemoryProductionControlStore] of src/prd_agent/production/dispatch.py,
    the reference implementation of the production control contract: bounded
    admission of runs, the transactional outbox, worker leases with fencing
    tokens, cancellation, retry and recovery.  Instants and durations are
    microseconds in [Z].  A random identifier is an argument of the operation
    that draws it. *)
From stdpp Require Import base list sets strings pretty.
From Stdlib Require Import ZArith.
From S2P Require Import Prelude PyDict.

Open Scope Z_scope.

(** ** Data model *)

Inductive ProductionRunStatus : Type :=
  | WAITING_CAPACITY
  | WAITING_PROVIDER
  | QUEUED
  | RUNNING
  | WAITING_USER
  | SUCCEEDED
  | FAILED
  | STOPPING
  | STOPPED.

#[global] Instance ProductionRunStatus_eq_dec : EqDecision ProductionRunStatus.
Proof. solve_decision. Defined.

(** [status.value]. *)
Definition status_value (s : ProductionRunStatus) : string :=
  match s with
  | WAITING_CAPACITY => "WAITING_CAPACITY"
  | WAITING_PROVIDER => "WAITING_PROVIDER"
  | QUEUED => "QUEUED"
  | RUNNING => "RUNNING"
  | WAITING_USER => "WAITING_USER"
  | SUCCEEDED => "SUCCEEDED"
  | FAILED => "FAILED"
  | STOPPING => "STOPPING"
  | STOPPED => "STOPPED"
  end.

(** Membership in [TERMINAL_RUN_STATUSES]. *)
Definition terminal (s : ProductionRunStatus) : bool :=
  match s with
  | SUCCEEDED | FAILED | STOPPED => true
  | _ => false
  end.

Record RunCommand := mkRunCommand {
  rc_message_id : string;
  rc_payload_version : Z;
  rc_run_id : string;
  rc_reason : string
}.

Record OutboxMessage := mkOutboxMessage {
  ob_message_id : string;
  ob_aggregate_id : string;
  ob_aggregate_version : Z;
  ob_topic : string;
  ob_payload_version : Z;
  ob_command : RunCommand;
  ob_available_at : Z;
  ob_attempts : Z;
  ob_published_at : option Z;
  ob_lease_owner : option string;
  ob_lease_expires_at : option Z;
  ob_quarantined_at : option Z
}.

Record ProductionRun := mkProductionRun {
  pr_run_id : string;
  pr_task_id : string;
  pr_owner_id : string;
  pr_status : ProductionRunStatus;
  pr_queue_slot_acquired : bool;
  pr_fencing_token : Z;
  pr_lease_owner : option string;
  pr_lease_expires_at : option Z;
  pr_attempt_count : Z;
  pr_cancellation_requested_at : option Z
}.

Record LeaseGrant := mkLeaseGrant {
  lg_run_id : string;
  lg_worker_id : string;
  lg_fencing_token : Z;
  lg_expires_at : Z
}.

Record QueuePolicy := mkQueuePolicy {
  max_global_runnable : Z;
  max_runnable_per_owner : Z
}.

Inductive error : Type :=
  | KeyError (key : string)
  | ValueError (message : string)
  | PermissionError (message : string)
  | LostLeaseError (message : string)
  | StopIteration.

Record store := mkStore {
  runs : dict string ProductionRun;
  outbox : dict string OutboxMessage;
  inbox : list (string * string);
  command_idempotency : dict (string * string) (string * string);
  queue_policy : QueuePolicy;
  created_order : dict string Z;
  next_created_order : Z;
  owner_last_admitted : dict string Z;
  admission_turn : Z
}.

Abbreviation DM := (M store error).

(** [QueuePolicy.__post_init__]. *)
Definition QueuePolicy_new (global per_owner : Z) : result error QueuePolicy :=
  if global <? 1 then Raise (ValueError "max_global_runnable must be positive")
  else if per_owner <? 1 then Raise (ValueError "max_runnable_per_owner must be positive")
  else Ok (mkQueuePolicy global per_owner).

(** [InMemoryProductionControlStore.__init__]. *)
Definition init_store (policy : QueuePolicy) : store :=
  mkStore ∅ ∅ [] ∅ policy ∅ 0 ∅ 0.

Definition set_runs (d : dict string ProductionRun) (st : store) : store :=
  mkStore d (outbox st) (inbox st) (command_idempotency st) (queue_policy st)
    (created_order st) (next_created_order st) (owner_last_admitted st) (admission_turn st).

Definition set_outbox (d : dict string OutboxMessage) (st : store) : store :=
  mkStore (runs st) d (inbox st) (command_idempotency st) (queue_policy st)
    (created_order st) (next_created_order st) (owner_last_admitted st) (admission_turn st).

(** [replace(run, ...)] for the groups of fields the operations replace. *)
Definition run_set_status (r : ProductionRun) (s : ProductionRunStatus) (slot : bool) : ProductionRun :=
  mkProductionRun (pr_run_id r) (pr_task_id r) (pr_owner_id r) s slot (pr_fencing_token r)
    (pr_lease_owner r) (pr_lease_expires_at r) (pr_attempt_count r)
    (pr_cancellation_requested_at r).

Definition run_set_lease (r : ProductionRun) (owner : option string) (expires : option Z) : ProductionRun :=
  mkProductionRun (pr_run_id r) (pr_task_id r) (pr_owner_id r) (pr_status r)
    (pr_queue_slot_acquired r) (pr_fencing_token r) owner expires (pr_attempt_count r)
    (pr_cancellation_requested_at r).

Definition run_set_cancel (r : ProductionRun) (at_ : option Z) : ProductionRun :=
  mkProductionRun (pr_run_id r) (pr_task_id r) (pr_owner_id r) (pr_status r)
    (pr_queue_slot_acquired r) (pr_fencing_token r) (pr_lease_owner r)
    (pr_lease_expires_at r) (pr_attempt_count r) at_.

Definition run_set_token (r : ProductionRun) (token attempts : Z) : ProductionRun :=
  mkProductionRun (pr_run_id r) (pr_task_id r) (pr_owner_id r) (pr_status r)
    (pr_queue_slot_acquired r) token (pr_lease_owner r) (pr_lease_expires_at r) attempts
    (pr_cancellation_requested_at r).

Definition msg_set_lease (m : OutboxMessage) (owner : option string) (expires : option Z) : OutboxMessage :=
  mkOutboxMessage (ob_message_id m) (ob_aggregate_id m) (ob_aggregate_version m) (ob_topic m)
    (ob_payload_version m) (ob_command m) (ob_available_at m) (ob_attempts m)
    (ob_published_at m) owner expires (ob_quarantined_at m).

(** ** Admission *)

(** The test of [_runnable_runs]: a held slot in QUEUED or RUNNING. *)
Definition runnable (r : ProductionRun) : bool :=
  pr_queue_slot_acquired r &&
  match pr_status r with QUEUED | RUNNING => true | _ => false end.

Definition runnable_runs (st : store) : list ProductionRun :=
  List.filter runnable (values (runs st)).

Definition owned_by (owner : string) (r : ProductionRun) : bool :=
  bool_decide (pr_owner_id r = owner).

Definition can_admit (st : store) (owner : string) : bool :=
  (Z.of_nat (length (runnable_runs st)) <? max_global_runnable (queue_policy st)) &&
  (Z.of_nat (length (List.filter (owned_by owner) (runnable_runs st)))
     <? max_runnable_per_owner (queue_policy st)).

Definition outbox_id (uuid : string) : string := "outbox-" +:+ uuid.
#[global] Arguments outbox_id _ : simpl never.

(** [next(value for value in self._outbox.values() if ...)]. *)
Definition first_message_for (st : store) (run_id : string) : option OutboxMessage :=
  match List.filter (fun m => bool_decide (ob_aggregate_id m = run_id)) (values (outbox st)) with
  | m :: _ => Some m
  | [] => None
  end.

Definition new_message (message_id run_id reason : string) (version now : Z) : OutboxMessage :=
  mkOutboxMessage message_id run_id version "agent.run" 1
    (mkRunCommand message_id 1 run_id reason) now 0 None None None None.

Definition create_run_dispatch (run_id task_id owner_id reason : string) (now : Z)
    (uuid : string) : DM OutboxMessage := fun st =>
  match runs st !! run_id with
  | Some _ =>
      match first_message_for st run_id with
      | Some m => (st, Ok m)
      | None => (st, Raise StopIteration)
      end
  | None =>
      let message_id := outbox_id uuid in
      let message := new_message message_id run_id reason 1 now in
      let admitted := can_admit st owner_id in
      let order := next_created_order st + 1 in
      let turn := if admitted then admission_turn st + 1 else admission_turn st in
      let last :=
        if admitted then <[owner_id := turn]> (owner_last_admitted st)
        else owner_last_admitted st in
      let run :=
        mkProductionRun run_id task_id owner_id
          (if admitted then QUEUED else WAITING_CAPACITY) admitted 0 None None 0 None in
      (mkStore (<[run_id := run]> (runs st)) (<[message_id := message]> (outbox st))
         (inbox st) (command_idempotency st) (queue_policy st)
         (<[run_id := order]> (created_order st)) order last turn,
       Ok message)
  end.

Definition get_outbox (message_id : string) : DM OutboxMessage := fun st =>
  match outbox st !! message_id with
  | Some m => (st, Ok m)
  | None => (st, Raise (KeyError message_id))
  end.

Definition get_run (run_id : string) : DM ProductionRun := fun st =>
  match runs st !! run_id with
  | Some r => (st, Ok r)
  | None => (st, Raise (KeyError run_id))
  end.

(** [sorted(..., key=run_id, reverse=True)] keeps equal keys in order. *)
Definition list_runs (task_id owner_id : string) (st : store) : list ProductionRun :=
  List.filter
    (fun r => bool_decide (pr_task_id r = task_id) && bool_decide (pr_owner_id r = owner_id))
    (sort_by (fun a b => String.leb (pr_run_id b) (pr_run_id a)) (values (runs st))).

(** ** The outbox *)

(** The sort key [(available_at, message_id)]. *)
Definition outbox_leb (a b : OutboxMessage) : bool :=
  pair_leb Z.eqb Z.leb String.leb
    (ob_available_at a, ob_message_id a) (ob_available_at b, ob_message_id b).

Definition later_than (deadline : option Z) (now : Z) : bool :=
  match deadline with Some t => now <? t | None => false end.

(** The [continue] condition of [claim_outbox]. *)
Definition claim_skip (m : OutboxMessage) (run : ProductionRun) (now : Z) : bool :=
  bool_decide (is_Some (ob_published_at m))
  || bool_decide (is_Some (ob_quarantined_at m))
  || (now <? ob_available_at m)
  || later_than (ob_lease_expires_at m) now
  || negb (bool_decide (pr_status run = QUEUED)).

Fixpoint claim_loop (publisher : string) (now lease_ttl limit : Z)
    (candidates claimed : list OutboxMessage) (st : store)
    : store * result error (list OutboxMessage) :=
  match candidates with
  | [] => (st, Ok claimed)
  | m :: rest =>
      if limit <=? Z.of_nat (length claimed) then (st, Ok claimed)
      else
        match runs st !! ob_aggregate_id m with
        | None => (st, Raise (KeyError (ob_aggregate_id m)))
        | Some run =>
            if claim_skip m run now then
              claim_loop publisher now lease_ttl limit rest claimed st
            else
              let m' := msg_set_lease m (Some publisher) (Some (now + lease_ttl)) in
              claim_loop publisher now lease_ttl limit rest (claimed ++ [m'])
                (set_outbox (<[ob_message_id m := m']> (outbox st)) st)
        end
  end.

Definition claim_outbox (publisher : string) (now lease_ttl limit : Z) : DM (list OutboxMessage) :=
  fun st =>
    claim_loop publisher now lease_ttl limit
      (sort_by outbox_leb (values (outbox st))) [] st.

Definition mark_outbox_published (message_id publisher : string) (now : Z) : DM bool := fun st =>
  match outbox st !! message_id with
  | None => (st, Raise (KeyError message_id))
  | Some m =>
      if bool_decide (ob_lease_owner m = Some publisher) then
        let m' :=
          mkOutboxMessage (ob_message_id m) (ob_aggregate_id m) (ob_aggregate_version m)
            (ob_topic m) (ob_payload_version m) (ob_command m) (ob_available_at m)
            (ob_attempts m) (Some now) None None (ob_quarantined_at m) in
        (set_outbox (<[message_id := m']> (outbox st)) st, Ok true)
      else (st, Ok false)
  end.

(** [timedelta(seconds=min(2 ** attempts, 300))]. *)
Definition backoff (attempts : Z) : Z := Z.min (2 ^ attempts) 300 * 1000000.

Definition mark_outbox_failed (message_id publisher : string) (now max_attempts : Z) : DM bool :=
  fun st =>
  match outbox st !! message_id with
  | None => (st, Raise (KeyError message_id))
  | Some m =>
      if bool_decide (ob_lease_owner m = Some publisher) then
        let attempts := ob_attempts m + 1 in
        let quarantine := if max_attempts <=? attempts then Some now else None in
        let m' :=
          mkOutboxMessage (ob_message_id m) (ob_aggregate_id m) (ob_aggregate_version m)
            (ob_topic m) (ob_payload_version m) (ob_command m) (now + backoff attempts)
            attempts (ob_published_at m) None None quarantine in
        (set_outbox (<[message_id := m']> (outbox st)) st, Ok true)
      else (st, Ok false)
  end.

(** ** Cancellation, leases and completion *)

Definition request_cancellation (run_id owner_id : string) (now : Z) : DM ProductionRun := fun st =>
  match runs st !! run_id with
  | None => (st, Raise (KeyError run_id))
  | Some run =>
      if negb (owned_by owner_id run) then
        (st, Raise (PermissionError "run does not belong to the requesting owner"))
      else if terminal (pr_status run) then (st, Ok run)
      else
        let at_ := match pr_cancellation_requested_at run with Some t => t | None => now end in
        let run' :=
          run_set_cancel (run_set_status run STOPPING (pr_queue_slot_acquired run)) (Some at_) in
        (set_runs (<[run_id := run']> (runs st)) st, Ok run')
  end.

Definition set_command_idempotency (d : dict (string * string) (string * string)) (st : store) : store :=
  mkStore (runs st) (outbox st) (inbox st) d (queue_policy st)
    (created_order st) (next_created_order st) (owner_last_admitted st) (admission_turn st).

Definition retry_run (run_id owner_id : string) (now : Z) (idempotency_key request_hash : string)
    (run_uuid message_uuid : string) : DM ProductionRun := fun st =>
  match command_idempotency st !! (owner_id, idempotency_key) with
  | Some (replay_hash, replay_run_id) =>
      if bool_decide (replay_hash = request_hash) then get_run replay_run_id st
      else (st, Raise (ValueError "retry idempotency key was used with different input"))
  | None =>
      match runs st !! run_id with
      | None => (st, Raise (KeyError run_id))
      | Some previous =>
          if negb (owned_by owner_id previous) then (st, Raise (KeyError run_id))
          else
            match pr_status previous with
            | FAILED | STOPPED =>
                let new_run_id := "run-" +:+ run_uuid in
                match create_run_dispatch new_run_id (pr_task_id previous) owner_id "RETRY"
                        now message_uuid st with
                | (st1, Raise e) => (st1, Raise e)
                | (st1, Ok _) =>
                    get_run new_run_id
                      (set_command_idempotency
                         (<[(owner_id, idempotency_key) := (request_hash, new_run_id)]>
                            (command_idempotency st1)) st1)
                end
            | _ => (st, Raise (ValueError "only failed or stopped runs can be retried"))
            end
      end
  end.

(** The lease that [acquire_run] must not take over. *)
Definition held_by_other (run : ProductionRun) (worker : string) (now : Z) : bool :=
  match pr_lease_owner run with
  | Some w => negb (bool_decide (w = worker)) && later_than (pr_lease_expires_at run) now
  | None => false
  end.

Definition acquire_run (run_id worker_id : string) (now lease_ttl : Z) : DM (option LeaseGrant) :=
  fun st =>
  match runs st !! run_id with
  | None => (st, Raise (KeyError run_id))
  | Some run =>
      if terminal (pr_status run) then (st, Ok None)
      else
        match pr_status run with
        | WAITING_CAPACITY | WAITING_PROVIDER | WAITING_USER => (st, Ok None)
        | _ =>
            if held_by_other run worker_id now then (st, Ok None)
            else
              let token := pr_fencing_token run + 1 in
              let expires := now + lease_ttl in
              let status :=
                if bool_decide (is_Some (pr_cancellation_requested_at run)) then STOPPING
                else RUNNING in
              let run' :=
                run_set_token
                  (run_set_lease (run_set_status run status (pr_queue_slot_acquired run))
                     (Some worker_id) (Some expires))
                  token (pr_attempt_count run + 1) in
              (set_runs (<[run_id := run']> (runs st)) st,
               Ok (Some (mkLeaseGrant run_id worker_id token expires)))
        end
  end.

(** The fencing check shared by [complete_run] and [heartbeat]. *)
Definition current_lease (run : ProductionRun) (grant : LeaseGrant) : bool :=
  bool_decide (pr_lease_owner run = Some (lg_worker_id grant)) &&
  (pr_fencing_token run =? lg_fencing_token grant).

(** The key of [min] in [_release_and_admit_waiting_locked]. *)
Definition admission_key (st : store) (r : ProductionRun) : option (Z * Z) :=
  order ← created_order st !! pr_run_id r;
  Some (get_default (owner_last_admitted st) (pr_owner_id r) (-1), order).

Definition admission_candidates (st : store) : list ProductionRun :=
  List.filter
    (fun r => bool_decide (pr_status r = WAITING_CAPACITY) && can_admit st (pr_owner_id r))
    (values (runs st)).

Definition key_leb (a b : (Z * Z) * ProductionRun) : bool :=
  pair_leb Z.eqb Z.leb Z.leb a.1 b.1.

Definition keyed (st : store) (r : ProductionRun) : option ((Z * Z) * ProductionRun) :=
  k ← admission_key st r; Some (k, r).

Definition promote (run : ProductionRun) (st : store) : store :=
  mkStore (<[pr_run_id run := run_set_status run QUEUED true]> (runs st)) (outbox st) (inbox st)
    (command_idempotency st) (queue_policy st) (created_order st) (next_created_order st)
    (<[pr_owner_id run := admission_turn st + 1]> (owner_last_admitted st))
    (admission_turn st + 1).

Fixpoint admit_loop (fuel : nat) (promoted : list ProductionRun) (st : store)
    : store * result error (list ProductionRun) :=
  match fuel with
  | O => (st, Ok promoted)
  | S fuel' =>
      if Z.of_nat (length (runnable_runs st)) <? max_global_runnable (queue_policy st) then
        match mapM (keyed st) (admission_candidates st) with
        | None => (st, Raise (KeyError "created_order"))
        | Some candidates =>
            match min_by key_leb candidates with
            | None => (st, Ok promoted)
            | Some (_, run) =>
                admit_loop fuel' (promoted ++ [run_set_status run QUEUED true]) (promote run st)
            end
        end
      else (st, Ok promoted)
  end.

Definition waiting (r : ProductionRun) : bool := bool_decide (pr_status r = WAITING_CAPACITY).

(** Each turn of the loop promotes one waiter, so one more turn than there
    are waiters reaches the exit of the loop. *)
Definition release_and_admit_waiting : DM (list ProductionRun) := fun st =>
  admit_loop (S (dcount waiting (runs st))) [] st.

Definition admit_waiting_runs : DM (list ProductionRun) := release_and_admit_waiting.

Definition complete_run (grant : LeaseGrant) (status : ProductionRunStatus) : DM ProductionRun :=
  fun st =>
  if negb (terminal status) then
    (st, Raise (ValueError "only terminal statuses can complete a run"))
  else
    match runs st !! lg_run_id grant with
    | None => (st, Raise (KeyError (lg_run_id grant)))
    | Some run =>
        if current_lease run grant then
          let run' := run_set_lease (run_set_status run status false) None None in
          match release_and_admit_waiting (set_runs (<[lg_run_id grant := run']> (runs st)) st) with
          | (st1, Ok _) => (st1, Ok run')
          | (st1, Raise e) => (st1, Raise e)
          end
        else (st, Raise (LostLeaseError "worker lease is no longer current"))
    end.

Definition heartbeat (grant : LeaseGrant) (now lease_ttl : Z) : DM LeaseGrant := fun st =>
  match runs st !! lg_run_id grant with
  | None => (st, Raise (KeyError (lg_run_id grant)))
  | Some run =>
      if current_lease run grant && later_than (pr_lease_expires_at run) now then
        let expires := now + lease_ttl in
        (set_runs
           (<[lg_run_id grant := run_set_lease run (pr_lease_owner run) (Some expires)]> (runs st)) st,
         Ok (mkLeaseGrant (lg_run_id grant) (lg_worker_id grant) (lg_fencing_token grant) expires))
      else (st, Raise (LostLeaseError "worker lease is no longer current"))
  end.

Definition has_inbox (consumer message_id : string) (st : store) : bool :=
  bool_decide ((consumer, message_id) ∈ inbox st).

Definition record_inbox (consumer message_id : string) : DM unit := fun st =>
  (if has_inbox consumer message_id st then st
   else mkStore (runs st) (outbox st) ((consumer, message_id) :: inbox st)
          (command_idempotency st) (queue_policy st) (created_order st)
          (next_created_order st) (owner_last_admitted st) (admission_turn st),
   Ok tt).

(** ** Recovery *)

(** The runs [enqueue_recoveries] considers expired. *)
Definition recovery_due (run : ProductionRun) (now grace_period : Z) : bool :=
  match pr_status run with
  | RUNNING | STOPPING =>
      match pr_lease_expires_at run with
      | Some t => t + grace_period <=? now
      | None => false
      end
  | _ => false
  end.

Definition pending_recovery (run_id : string) (m : OutboxMessage) : bool :=
  bool_decide (ob_aggregate_id m = run_id)
  && bool_decide (rc_reason (ob_command m) = "RECOVER")
  && (bool_decide (ob_published_at m = None) || bool_decide (is_Some (ob_quarantined_at m))).

Definition has_recovery (st : store) (run_id : string) : bool :=
  existsb (pending_recovery run_id) (values (outbox st)).

Definition next_aggregate_version (st : store) (run_id : string) : Z :=
  max_default0
    (ob_aggregate_version <$>
       List.filter (fun m => bool_decide (ob_aggregate_id m = run_id)) (values (outbox st))) + 1.

(** [uuid i] is the [i]-th identifier drawn by the call. *)
Fixpoint recover_loop (now grace_period limit : Z) (uuid : nat -> string)
    (candidates : list ProductionRun) (created : list OutboxMessage) (st : store)
    : store * result error (list OutboxMessage) :=
  match candidates with
  | [] => (st, Ok created)
  | run :: rest =>
      if limit <=? Z.of_nat (length created) then (st, Ok created)
      else if negb (recovery_due run now grace_period) || has_recovery st (pr_run_id run) then
        recover_loop now grace_period limit uuid rest created st
      else
        let message_id := outbox_id (uuid (length created)) in
        let m := new_message message_id (pr_run_id run) "RECOVER"
                   (next_aggregate_version st (pr_run_id run)) now in
        recover_loop now grace_period limit uuid rest (created ++ [m])
          (set_outbox (<[message_id := m]> (outbox st)) st)
  end.

Definition enqueue_recoveries (now grace_period limit : Z) (uuid : nat -> string)
    : DM (list OutboxMessage) := fun st =>
  recover_loop now grace_period limit uuid
    (sort_by (fun a b => String.leb (pr_run_id a) (pr_run_id b)) (values (runs st))) [] st.
