(* ===== verification/DispatchRuntime.v ===== *)
(** * Publisher, reconciler and executor

    The classes of src/prd_agent/production/dispatch.py that drive the control
    store: [OutboxPublisher], [RunReconciler], [RunExecutionContext] and
    [RunExecutor].  Every store method runs under the store's lock, so a
    concurrent execution is an interleaving of whole operations: [op] lists
    them, and the executor takes the operations other threads perform between
    two of its own calls. *)
From stdpp Require Import base list sets strings.
From Stdlib Require Import ZArith.
From S2P Require Import Prelude PyDict Dispatch.

Open Scope Z_scope.

(** ** The atomic operations of the store *)

Inductive op : Type :=
  | OpCreate (run_id task_id owner_id reason : string) (now : Z) (uuid : string)
  | OpClaim (publisher : string) (now lease_ttl limit : Z)
  | OpPublished (message_id publisher : string) (now : Z)
  | OpFailed (message_id publisher : string) (now max_attempts : Z)
  | OpCancel (run_id owner_id : string) (now : Z)
  | OpRetry (run_id owner_id : string) (now : Z) (key hash run_uuid message_uuid : string)
  | OpAcquire (run_id worker_id : string) (now lease_ttl : Z)
  | OpComplete (grant : LeaseGrant) (status : ProductionRunStatus)
  | OpAdmit
  | OpHeartbeat (grant : LeaseGrant) (now lease_ttl : Z)
  | OpInbox (consumer message_id : string)
  | OpRecover (now grace_period limit : Z) (uuid : nat -> string).

Definition apply_op (o : op) (st : store) : store :=
  match o with
  | OpCreate r t w reason now u => (create_run_dispatch r t w reason now u st).1
  | OpClaim p now ttl limit => (claim_outbox p now ttl limit st).1
  | OpPublished m p now => (mark_outbox_published m p now st).1
  | OpFailed m p now n => (mark_outbox_failed m p now n st).1
  | OpCancel r w now => (request_cancellation r w now st).1
  | OpRetry r w now k h u1 u2 => (retry_run r w now k h u1 u2 st).1
  | OpAcquire r w now ttl => (acquire_run r w now ttl st).1
  | OpComplete g s => (complete_run g s st).1
  | OpAdmit => (admit_waiting_runs st).1
  | OpHeartbeat g now ttl => (heartbeat g now ttl st).1
  | OpInbox c m => (record_inbox c m st).1
  | OpRecover now grace limit u => (enqueue_recoveries now grace limit u st).1
  end.

Definition run_ops (os : list op) (st : store) : store := foldl (fun s o => apply_op o s) st os.

(** [uuid.uuid4] draws an identifier no message of the store has, and a
    recovery pass draws pairwise distinct ones. *)
Definition op_fresh (o : op) (st : store) : Prop :=
  match o with
  | OpCreate _ _ _ _ _ u => outbox st !! outbox_id u = None
  | OpRetry _ _ _ _ _ _ u => outbox st !! outbox_id u = None
  | OpRecover _ _ _ u =>
      (forall i, outbox st !! outbox_id (u i) = None) /\
      (forall i j, outbox_id (u i) = outbox_id (u j) -> i = j)
  | _ => True
  end.

Inductive step (st : store) : store -> Prop :=
  | step_op (o : op) : op_fresh o st -> step st (apply_op o st).

(** States the store can reach from its constructor under a valid policy. *)
Inductive reachable (policy : QueuePolicy) : store -> Prop :=
  | reachable_init : reachable policy (init_store policy)
  | reachable_step st st' : reachable policy st -> step st st' -> reachable policy st'.

(** ** [OutboxPublisher] *)

Section publisher.
(** The broker is external code: [publish] answers whether it raised. *)
Context {B : Type} (broker_publish : RunCommand -> B -> B * bool).
Context (publisher_id : string) (lease_ttl max_attempts : Z).

Fixpoint publish_loop (now : Z) (messages : list OutboxMessage) (published : Z)
    (b : B) (st : store) : B * store * result error Z :=
  match messages with
  | [] => (b, st, Ok published)
  | m :: rest =>
      match broker_publish (ob_command m) b with
      | (b', false) =>
          match mark_outbox_failed (ob_message_id m) publisher_id now max_attempts st with
          | (st', Ok _) => publish_loop now rest published b' st'
          | (st', Raise e) => (b', st', Raise e)
          end
      | (b', true) =>
          match mark_outbox_published (ob_message_id m) publisher_id now st with
          | (st', Ok true) => publish_loop now rest (published + 1) b' st'
          | (st', Ok false) => publish_loop now rest published b' st'
          | (st', Raise e) => (b', st', Raise e)
          end
      end
  end.

Definition publish_once (now limit : Z) (b : B) (st : store) : B * store * result error Z :=
  match claim_outbox publisher_id now lease_ttl limit st with
  | (st', Ok messages) => publish_loop now messages 0 b st'
  | (st', Raise e) => (b, st', Raise e)
  end.
End publisher.

(** ** [RunReconciler] *)

Definition reconcile (grace_period now limit : Z) (uuid : nat -> string) : DM (list OutboxMessage) :=
  enqueue_recoveries now grace_period limit uuid.

(** ** [RunExecutionContext] *)

Record context := mkContext { ctx_grant : LeaseGrant; ctx_lost_lease : bool }.

Definition ctx_heartbeat (lease_ttl now : Z) (c : context) (st : store)
    : context * store * result error LeaseGrant :=
  if ctx_lost_lease c then (c, st, Raise (LostLeaseError "worker lease is no longer current"))
  else
    match heartbeat (ctx_grant c) now lease_ttl st with
    | (st', Ok g) => (mkContext g false, st', Ok g)
    | (st', Raise (LostLeaseError m)) => (mkContext (ctx_grant c) true, st', Raise (LostLeaseError m))
    | (st', Raise e) => (c, st', Raise e)
    end.

Definition mark_lost (c : context) : context := mkContext (ctx_grant c) true.

Definition cancellation_requested (c : context) : DM bool := fun st =>
  match get_run (lg_run_id (ctx_grant c)) st with
  | (st', Ok run) => (st', Ok (bool_decide (is_Some (pr_cancellation_requested_at run))))
  | (st', Raise e) => (st', Raise e)
  end.

(** ** [RunExecutor] *)

(** What happens while the handler runs: a heartbeat of this context (by the
    heartbeat thread or by the handler), or an operation of another thread. *)
Inductive event : Type :=
  | EvHeartbeat (now : Z)
  | EvOther (o : op).

Definition apply_event (lease_ttl : Z) (cs : context * store) (e : event) : context * store :=
  match e with
  | EvHeartbeat now => (ctx_heartbeat lease_ttl now cs.1 cs.2).1
  | EvOther o => (cs.1, apply_op o cs.2)
  end.

Definition run_events (lease_ttl : Z) (es : list event) (cs : context * store) : context * store :=
  foldl (apply_event lease_ttl) cs es.

(** An execution's environment: the operations of other threads before the
    acquisition, between the acquisition and the cancellation check, during
    the handler, and between the handler and the completion; and whether the
    handler raises. *)
Record environment := mkEnvironment {
  env_before : list op;
  env_acquired : list op;
  env_handler : list event;
  env_raises : bool;
  env_checked : list op
}.

Section executor.
Context (worker_id consumer_name : string) (lease_ttl : Z).

(** [get_run(...).status.value]. *)
Definition status_of (run_id : string) : DM string := fun st =>
  match get_run run_id st with
  | (st', Ok run) => (st', Ok (status_value (pr_status run)))
  | (st', Raise e) => (st', Raise e)
  end.

(** [complete_run], then [record_inbox], then the completed status. *)
Definition finish_run (grant : LeaseGrant) (status : ProductionRunStatus) (message_id : string)
    : DM string := fun st =>
  match complete_run grant status st with
  | (st', Ok run) =>
      ((record_inbox consumer_name message_id st').1, Ok (status_value (pr_status run)))
  | (st', Raise e) => (st', Raise e)
  end.

(** The part of [execute] after the handler returned or raised. *)
Definition execute_outcome (command : RunCommand) (c : context) (raises : bool)
    (checked : list op) : DM string := fun st =>
  if ctx_lost_lease c then status_of (rc_run_id command) st
  else if raises then finish_run (ctx_grant c) FAILED (rc_message_id command) (run_ops checked st)
  else
    match cancellation_requested c st with
    | (st', Raise e) => (st', Raise e)
    | (st', Ok cancelled) =>
        finish_run (ctx_grant c) (if cancelled then STOPPED else SUCCEEDED)
          (rc_message_id command) (run_ops checked st')
    end.

Definition execute (command : RunCommand) (now : Z) (env : environment) : DM string := fun st =>
  if negb (rc_payload_version command =? 1) then
    (st, Raise (ValueError "unsupported run command payload version"))
  else
    match get_run (rc_run_id command) st with
    | (st0, Raise e) => (st0, Raise e)
    | (st0, Ok current) =>
        if terminal (pr_status current) then
          ((record_inbox consumer_name (rc_message_id command) st0).1,
           Ok (status_value (pr_status current)))
        else
          match acquire_run (rc_run_id command) worker_id now lease_ttl
                  (run_ops (env_before env) st0) with
          | (st1, Raise e) => (st1, Raise e)
          | (st1, Ok None) => status_of (rc_run_id command) st1
          | (st1, Ok (Some grant)) =>
              match get_run (rc_run_id command) (run_ops (env_acquired env) st1) with
              | (st2, Raise e) => (st2, Raise e)
              | (st2, Ok acquired) =>
                  if bool_decide (is_Some (pr_cancellation_requested_at acquired)) then
                    finish_run grant STOPPED (rc_message_id command) st2
                  else
                    let '(c, st3) :=
                      run_events lease_ttl (env_handler env) (mkContext grant false, st2) in
                    execute_outcome command c (env_raises env) (env_checked env) st3
              end
          end
    end.
End executor.
