(* ===== verification/DispatchInv.v ===== *)
(** * The invariant of the production control store

    [store_ok] collects what every reachable state of the store satisfies:
    the indexes agree with each other, each run's flags agree with its status,
    and the admission limits hold.  Each operation preserves it, so it holds
    under every interleaving of operations. *)
From stdpp Require Import base list sets strings.
From Stdlib Require Import ZArith.
From S2P Require Import Prelude PyDict Dispatch DispatchRuntime.

Open Scope Z_scope.

(** The slot, lease and cancellation fields each status allows. *)
Definition run_ok (r : ProductionRun) : Prop :=
  0 <= pr_fencing_token r /\
  pr_attempt_count r = pr_fencing_token r /\
  (is_Some (pr_lease_owner r) <-> is_Some (pr_lease_expires_at r)) /\
  match pr_status r with
  | WAITING_CAPACITY =>
      pr_queue_slot_acquired r = false /\ pr_cancellation_requested_at r = None /\
      pr_fencing_token r = 0 /\ pr_lease_owner r = None
  | QUEUED =>
      pr_queue_slot_acquired r = true /\ pr_cancellation_requested_at r = None /\
      pr_fencing_token r = 0 /\ pr_lease_owner r = None
  | RUNNING =>
      pr_queue_slot_acquired r = true /\ pr_cancellation_requested_at r = None /\
      is_Some (pr_lease_owner r)
  | STOPPING => is_Some (pr_cancellation_requested_at r)
  | SUCCEEDED | FAILED | STOPPED =>
      pr_queue_slot_acquired r = false /\ pr_lease_owner r = None
  | WAITING_USER | WAITING_PROVIDER => False
  end.

(** Runnable runs of one owner. *)
Definition runnable_of (owner : string) (r : ProductionRun) : bool :=
  runnable r && owned_by owner r.

(** The two admission limits of [QueuePolicy]. *)
Definition within_limits (st : store) : Prop :=
  Z.of_nat (dcount runnable (runs st)) <= max_global_runnable (queue_policy st) /\
  forall owner,
    Z.of_nat (dcount (runnable_of owner) (runs st)) <= max_runnable_per_owner (queue_policy st).

Record store_ok (st : store) : Prop := mkStoreOk {
  ok_runs : dict_ok (runs st);
  ok_outbox : dict_ok (outbox st);
  ok_run_id : forall k r, runs st !! k = Some r -> pr_run_id r = k /\ run_ok r;
  ok_message_id : forall k m, outbox st !! k = Some m ->
    ob_message_id m = k /\ is_Some (runs st !! ob_aggregate_id m) /\
    rc_run_id (ob_command m) = ob_aggregate_id m /\ 0 <= ob_attempts m;
  ok_dispatched : forall k, is_Some (runs st !! k) ->
    exists i m, outbox st !! i = Some m /\ ob_aggregate_id m = k;
  ok_order : forall k, is_Some (runs st !! k) -> is_Some (created_order st !! k);
  ok_replay : forall i h k, command_idempotency st !! i = Some (h, k) -> is_Some (runs st !! k);
  ok_limits : within_limits st
}.

(** ** Counting *)

Lemma filter_filter_bool {A} (p q : A -> bool) l :
  List.filter p (List.filter q l) = List.filter (fun x => q x && p x) l.
Proof.
  induction l as [|x l IH]; simpl; [done|].
  destruct (q x); simpl; [|done]. destruct (p x); by rewrite IH.
Qed.

Lemma length_runnable_runs st : length (runnable_runs st) = dcount runnable (runs st).
Proof. done. Qed.

Lemma length_runnable_owned st o :
  length (List.filter (owned_by o) (runnable_runs st)) = dcount (runnable_of o) (runs st).
Proof. unfold runnable_runs. by rewrite filter_filter_bool. Qed.

Lemma can_admit_true st o :
  can_admit st o = true <->
  Z.of_nat (dcount runnable (runs st)) < max_global_runnable (queue_policy st) /\
  Z.of_nat (dcount (runnable_of o) (runs st)) < max_runnable_per_owner (queue_policy st).
Proof.
  unfold can_admit. rewrite length_runnable_owned, length_runnable_runs.
  rewrite andb_true_iff, !Z.ltb_lt. done.
Qed.

(** Replacing a run never takes capacity when the new one is not runnable or
    the old one already was. *)
Lemma within_limits_replace st k r r' :
  runs st !! k = Some r -> pr_owner_id r' = pr_owner_id r ->
  (runnable r' = true -> runnable r = true) ->
  within_limits st -> within_limits (set_runs (<[k := r']> (runs st)) st).
Proof.
  intros Hk Ho Hr [Hg Hp]. split; simpl.
  - pose proof (dcount_insert_Some _ k r' r runnable Hk).
    destruct (runnable r'), (runnable r); lia.
  - intros o. specialize (Hp o).
    pose proof (dcount_insert_Some _ k r' r (runnable_of o) Hk) as H.
    unfold runnable_of in *. rewrite (eq_refl : owned_by o r' = bool_decide (pr_owner_id r' = o)) in H.
    rewrite Ho in H. unfold owned_by in *.
    destruct (runnable r'), (runnable r); simpl in *; lia.
Qed.

(** Admitting one run when [can_admit] holds stays within the limits. *)
Lemma within_limits_admit (d : dict string ProductionRun) st k r' :
  within_limits st -> can_admit st (pr_owner_id r') = true ->
  (runs st !! k = None \/ exists r, runs st !! k = Some r /\ runnable r = false) ->
  d = <[k := r']> (runs st) ->
  Z.of_nat (dcount runnable d) <= max_global_runnable (queue_policy st) /\
  forall o, Z.of_nat (dcount (runnable_of o) d) <= max_runnable_per_owner (queue_policy st).
Proof.
  intros [Hg Hp] [Ha1 Ha2]%can_admit_true Hk ->.
  assert (Hcount : forall p, (forall r, runnable r = false -> p r = false) ->
    (dcount p (<[k := r']> (runs st)) <= dcount p (runs st) + (if p r' then 1 else 0))%nat).
  { intros p Hpr. destruct Hk as [Hk|(r & Hk & Hr)].
    - rewrite (dcount_insert_None _ _ _ _ Hk). lia.
    - pose proof (dcount_insert_Some _ k r' r p Hk) as H. rewrite (Hpr _ Hr) in H. lia. }
  split.
  - pose proof (Hcount runnable (fun _ H => H)). destruct (runnable r'); lia.
  - intros o. specialize (Hp o).
    assert (H := Hcount (runnable_of o) ltac:(intros r Hr; unfold runnable_of; by rewrite Hr)).
    destruct (runnable_of o r') eqn:E; [|lia].
    apply andb_true_iff in E as [_ E%bool_decide_eq_true]. subst o. lia.
Qed.

(** ** Preservation by the shapes of update the operations make *)

Lemma store_ok_init policy :
  1 <= max_global_runnable policy -> 1 <= max_runnable_per_owner policy ->
  store_ok (init_store policy).
Proof.
  intros Hg Hp. split; simpl; auto using dict_ok_empty; try done.
  - intros k [r Hr]. done.
  - intros k [r Hr]. done.
  - split; simpl; [|intros o]; change (Z.of_nat _) with 0; lia.
Qed.

(** Replacing a run by one with the same identity, owner and coherent flags. *)
Lemma store_ok_set_run st k r r' :
  store_ok st -> runs st !! k = Some r ->
  pr_run_id r' = pr_run_id r -> pr_owner_id r' = pr_owner_id r -> run_ok r' ->
  (runnable r' = true -> runnable r = true) ->
  store_ok (set_runs (<[k := r']> (runs st)) st).
Proof.
  intros Hok Hk Hid Ho Hr' Hrun. destruct Hok. split; simpl; auto with prd.
  - intros k' x. rewrite dict_lookup_insert. case_decide; [|apply ok_run_id0].
    intros [= <-]. subst. rewrite Hid. split; [|done]. by apply ok_run_id0 in Hk as [-> _].
  - intros i m Hm. apply ok_message_id0 in Hm as (? & ? & ? & ?). auto with prd.
  - intros k' Hs. apply ok_dispatched0. rewrite dict_lookup_insert in Hs.
    case_decide; [subst; by rewrite Hk|done].
  - intros k' Hs. apply ok_order0. rewrite dict_lookup_insert in Hs.
    case_decide; [subst; by rewrite Hk|done].
  - intros i h k' Hi. eauto with prd.
  - by eapply within_limits_replace.
Qed.

(** Replacing a message by one for the same run. *)
Lemma store_ok_set_message st i m m' :
  store_ok st -> outbox st !! i = Some m ->
  ob_message_id m' = ob_message_id m -> ob_aggregate_id m' = ob_aggregate_id m ->
  ob_command m' = ob_command m -> 0 <= ob_attempts m' ->
  store_ok (set_outbox (<[i := m']> (outbox st)) st).
Proof.
  intros Hok Hi Hid Hagg Hcmd Hatt. destruct Hok. split; simpl; auto with prd.
  - intros k x. rewrite dict_lookup_insert. case_decide; [|apply ok_message_id0].
    intros [= <-]. subst. rewrite Hid, Hagg, Hcmd.
    apply ok_message_id0 in Hi as (? & ? & ? & ?). auto.
  - intros k Hk. apply ok_dispatched0 in Hk as (j & x & Hj & Hx).
    destruct (decide (i = j)) as [<-|Hne].
    + exists i, m'. rewrite dict_lookup_insert_eq. split; [done|]. congruence.
    + exists j, x. by rewrite dict_lookup_insert_ne.
Qed.

(** Adding a message with a fresh identifier for an existing run. *)
Lemma store_ok_add_message st i m :
  store_ok st -> outbox st !! i = None -> ob_message_id m = i ->
  is_Some (runs st !! ob_aggregate_id m) -> rc_run_id (ob_command m) = ob_aggregate_id m ->
  0 <= ob_attempts m ->
  store_ok (set_outbox (<[i := m]> (outbox st)) st).
Proof.
  intros Hok Hi Hid Hagg Hcmd Hatt. destruct Hok. split; simpl; auto with prd.
  - intros k x. rewrite dict_lookup_insert. case_decide; [|apply ok_message_id0].
    intros [= <-]. subst. auto.
  - intros k Hk. apply ok_dispatched0 in Hk as (j & x & Hj & Hx).
    exists j, x. rewrite dict_lookup_insert_ne; [done|]. intros ->. congruence.
Qed.

Lemma store_ok_inbox st c m : store_ok st -> store_ok (record_inbox c m st).1.
Proof. unfold record_inbox. case_match; [done|]. intros []. by split. Qed.

(** ** Preservation by every operation *)

Lemma store_ok_create st r t o reason now u :
  store_ok st -> outbox st !! outbox_id u = None ->
  store_ok (create_run_dispatch r t o reason now u st).1.
Proof.
  intros Hok Hfresh. unfold create_run_dispatch.
  destruct (runs st !! r) as [x|] eqn:Hr; [by case_match|].
  set (admitted := can_admit st o). set (run := mkProductionRun _ _ _ _ _ _ _ _ _ _).
  assert (Hrun : run_ok run) by (unfold run_ok; simpl; destruct admitted; naive_solver).
  destruct Hok. split; simpl; auto with prd.
  - intros k x. rewrite dict_lookup_insert. case_decide; [|apply ok_run_id0].
    intros [= <-]. subst. done.
  - intros k m. rewrite dict_lookup_insert. case_decide.
    + intros [= <-]. subst. simpl. rewrite dict_lookup_insert_eq. split_and!; eauto; lia.
    + intros Hm. apply ok_message_id0 in Hm as (? & ? & ? & ?). auto with prd.
  - intros k Hk. destruct (decide (r = k)) as [<-|Hne].
    + exists (outbox_id u). eexists. rewrite dict_lookup_insert_eq. done.
    + rewrite dict_lookup_insert_ne in Hk by done.
      apply ok_dispatched0 in Hk as (j & x & Hj & Hx). exists j, x.
      rewrite dict_lookup_insert_ne; [done|]. intros E; congruence.
  - intros k. rewrite !dict_lookup_insert. case_decide; eauto.
  - intros i h k Hi. eauto with prd.
  - unfold within_limits; simpl. destruct admitted eqn:Ha.
    + by apply (within_limits_admit _ st r run); auto.
    + destruct ok_limits0 as [Hg Hp]. assert (Hf : runnable run = false) by done.
      split; [|intros o'; specialize (Hp o')]; rewrite (dcount_insert_None _ _ _ _ Hr).
      * rewrite Hf. lia.
      * assert (runnable_of o' run = false) as -> by done. lia.
Qed.

Lemma claim_loop_ok p now ttl limit cands claimed st :
  store_ok st ->
  (forall m, m ∈ cands -> outbox st !! ob_message_id m = Some m) ->
  NoDup (ob_message_id <$> cands) ->
  store_ok (claim_loop p now ttl limit cands claimed st).1.
Proof.
  revert claimed st. induction cands as [|m rest IH]; intros claimed st Hok Hin Hnd; simpl; [done|].
  case_match; [done|]. case_match; [|done].
  apply NoDup_cons in Hnd as [Hm Hnd].
  case_match; [apply IH; auto; set_solver|].
  assert (Hmid : outbox st !! ob_message_id m = Some m) by (apply Hin; set_solver).
  apply IH; [|intros m' Hm'; simpl|done].
  - eapply store_ok_set_message; eauto. by apply (ok_message_id _ Hok) in Hmid as (? & ? & ? & ?).
  - rewrite dict_lookup_insert_ne; [apply Hin; set_solver|].
    intros E. apply Hm. rewrite E. by apply list_elem_of_fmap_2.
Qed.

Lemma ok_outbox_values st m : store_ok st -> m ∈ values (outbox st) ->
  outbox st !! ob_message_id m = Some m.
Proof.
  intros Hok Hm. apply dict_values_lookup in Hm as [k Hk]; [|by apply ok_outbox].
  by destruct (ok_message_id _ Hok _ _ Hk) as [-> _].
Qed.

Lemma ok_outbox_ids st : store_ok st -> NoDup (ob_message_id <$> values (outbox st)).
Proof.
  intros Hok. pose proof (ok_outbox _ Hok) as Hd. unfold dict_ok, keys in Hd.
  assert (E : ob_message_id <$> values (outbox st) = (items (outbox st)).*1); [|by rewrite E].
  unfold values. rewrite <- list_fmap_compose. apply list_fmap_ext. intros i [k m] Hi. simpl.
  apply list_elem_of_lookup_2, assoc_get_elem in Hi; [|done].
  by apply (ok_message_id _ Hok) in Hi as [-> _].
Qed.

Lemma store_ok_claim p now ttl limit st : store_ok st -> store_ok (claim_outbox p now ttl limit st).1.
Proof.
  intros Hok. apply claim_loop_ok; [done| |].
  - intros m Hm%elem_of_sort_by. by apply ok_outbox_values.
  - rewrite (sort_by_perm outbox_leb). by apply ok_outbox_ids.
Qed.

Lemma store_ok_published i p now st : store_ok st -> store_ok (mark_outbox_published i p now st).1.
Proof.
  intros Hok. unfold mark_outbox_published. case_match eqn:Hi; [|done]. case_match; [|done]. simpl.
  eapply store_ok_set_message; eauto. by apply (ok_message_id _ Hok) in Hi as (? & ? & ? & ?).
Qed.

Lemma store_ok_failed i p now n st : store_ok st -> store_ok (mark_outbox_failed i p now n st).1.
Proof.
  intros Hok. unfold mark_outbox_failed. case_match eqn:Hi; [|done]. case_match; [|done]. simpl.
  eapply store_ok_set_message; eauto. simpl.
  apply (ok_message_id _ Hok) in Hi as (? & ? & ? & ?). lia.
Qed.

Lemma store_ok_cancel r o now st : store_ok st -> store_ok (request_cancellation r o now st).1.
Proof.
  intros Hok. unfold request_cancellation. case_match eqn:Hr; [|done].
  repeat (case_match; [done|]). simpl.
  destruct (ok_run_id _ Hok _ _ Hr) as [_ (? & ? & ? & ?)].
  eapply store_ok_set_run; eauto; unfold run_ok, runnable; simpl; [by eauto 6|].
  by rewrite andb_false_r.
Qed.

Lemma store_ok_acquire r w now ttl st : store_ok st -> store_ok (acquire_run r w now ttl st).1.
Proof.
  intros Hok. unfold acquire_run. case_match eqn:Hr; [|done]. case_match; [done|].
  destruct (ok_run_id _ Hok _ _ Hr) as [_ (? & ? & ? & Hs)].
  destruct (pr_status p) eqn:Es; try done; (case_match; [done|]); simpl;
    eapply store_ok_set_run; eauto; unfold run_ok, runnable; simpl; rewrite ?Es;
    destruct (pr_cancellation_requested_at p); simpl; destruct_and?; simplify_eq/=;
    rewrite ?andb_false_r, ?andb_true_r;
    first [done | split_and!; first [lia | done | by split; eauto | by eauto]].
Qed.

Lemma store_ok_heartbeat g now ttl st : store_ok st -> store_ok (heartbeat g now ttl st).1.
Proof.
  intros Hok. unfold heartbeat. case_match eqn:Hr; [|done]. case_match eqn:Hc; [|done]. simpl.
  destruct (ok_run_id _ Hok _ _ Hr) as [_ (? & ? & ? & Hs)].
  apply andb_true_iff in Hc as [Hc _]. apply andb_true_iff in Hc as [Hc%bool_decide_eq_true _].
  eapply store_ok_set_run; eauto. unfold run_ok; simpl.
  split_and!; auto. rewrite Hc. split; eauto.
Qed.

(** ** The admission loop *)

Lemma ok_run_values st r : store_ok st -> r ∈ values (runs st) -> runs st !! pr_run_id r = Some r.
Proof.
  intros Hok Hr. apply dict_values_lookup in Hr as [k Hk]; [|by apply ok_runs].
  by destruct (ok_run_id _ Hok _ _ Hk) as [-> _].
Qed.

Lemma elem_of_candidates st r :
  r ∈ admission_candidates st <->
  r ∈ values (runs st) /\ pr_status r = WAITING_CAPACITY /\ can_admit st (pr_owner_id r) = true.
Proof.
  unfold admission_candidates. rewrite list_elem_of_In, filter_In, <- list_elem_of_In.
  rewrite andb_true_iff, bool_decide_eq_true. done.
Qed.

(** Every waiting run has a creation order, so [min] never fails to get a key. *)
Lemma keyed_total st l :
  store_ok st -> (forall r, r ∈ l -> r ∈ values (runs st)) ->
  exists ks, mapM (keyed st) l = Some ks /\ Forall2 (fun r k => keyed st r = Some k) l ks.
Proof.
  intros Hok. induction l as [|r l IH]; intros Hl; [by exists []|].
  destruct IH as (ks & Hks & Hf); [set_solver|].
  assert (Hr : runs st !! pr_run_id r = Some r) by (apply ok_run_values; set_solver).
  destruct (ok_order _ Hok (pr_run_id r)) as [n Hn]; [by eauto|].
  exists ((get_default (owner_last_admitted st) (pr_owner_id r) (-1), n, r) :: ks).
  assert (Hk : keyed st r = Some (get_default (owner_last_admitted st) (pr_owner_id r) (-1), n, r)).
  { unfold keyed, admission_key. simpl. by rewrite Hn. }
  split; [|by constructor]. simpl. by rewrite Hk; simpl; rewrite Hks.
Qed.

Lemma keyed_snd st r k : keyed st r = Some k -> k.2 = r /\ admission_key st r = Some k.1.
Proof. unfold keyed. destruct (admission_key st r); simpl; [|done]. by intros [= <-]. Qed.

Lemma key_leb_total a b : key_leb a b = false -> key_leb b a = true.
Proof.
  unfold key_leb, pair_leb. rewrite (Z.eqb_sym (b.1.1)).
  case_match; intros; apply Z.leb_gt in H0; apply Z.leb_le; lia.
Qed.

Lemma key_leb_trans a b c : key_leb a b = true -> key_leb b c = true -> key_leb a c = true.
Proof.
  unfold key_leb, pair_leb.
  destruct (Z.eqb_spec a.1.1 b.1.1), (Z.eqb_spec b.1.1 c.1.1), (Z.eqb_spec a.1.1 c.1.1);
    rewrite ?Z.leb_le; lia.
Qed.

(** The choice of the loop: the candidate with the least key. *)
Lemma admission_choice st :
  store_ok st ->
  (admission_candidates st = [] /\ mapM (keyed st) (admission_candidates st) = Some []) \/
  (exists ks k run, mapM (keyed st) (admission_candidates st) = Some ks /\
     min_by key_leb ks = Some (k, run) /\ run ∈ admission_candidates st /\
     forall r kr, r ∈ admission_candidates st -> admission_key st r = Some kr ->
       key_leb (k, run) (kr, r) = true).
Proof.
  intros Hok. destruct (keyed_total st (admission_candidates st) Hok) as (ks & Hks & Hf).
  { intros r Hr. by apply elem_of_candidates in Hr as [? _]. }
  destruct (min_by key_leb ks) as [[k run]|] eqn:Hmin; [right|left].
  - exists ks, k, run. split_and!; [done..| |].
    + apply min_by_Some in Hmin as [Hin _]; [|eauto using key_leb_total, key_leb_trans..].
      apply list_elem_of_lookup in Hin as [i Hi].
      destruct (Forall2_lookup_r _ _ _ _ _ Hf Hi) as (r & Hr & Hkr).
      apply keyed_snd in Hkr as [<- _]. by apply list_elem_of_lookup_2 in Hr.
    + intros r kr [i Hi]%list_elem_of_lookup Hkr.
      apply min_by_Some in Hmin as [_ Hle]; [|eauto using key_leb_total, key_leb_trans..].
      destruct (Forall2_lookup_l _ _ _ _ _ Hf Hi) as (y & Hy & Hk).
      apply Hle. unfold keyed in Hk. rewrite Hkr in Hk. simpl in Hk. simplify_eq.
      by apply list_elem_of_lookup_2 in Hy.
  - apply min_by_None in Hmin as ->. inversion Hf; subst. split; [done|]. congruence.
Qed.

Lemma store_ok_promote st run :
  store_ok st -> run ∈ admission_candidates st -> store_ok (promote run st).
Proof.
  intros Hok (Hv & Hs & Ha)%elem_of_candidates.
  pose proof (ok_run_values _ _ Hok Hv) as Hk.
  destruct (ok_run_id _ Hok _ _ Hk) as [_ Hr].
  assert (Hr' : run_ok (run_set_status run QUEUED true)).
  { unfold run_ok in *. rewrite Hs in Hr. simpl. naive_solver. }
  destruct Hok. split; simpl; auto with prd.
  - intros k x. rewrite dict_lookup_insert. case_decide; [|apply ok_run_id0].
    intros [= <-]. subst. done.
  - intros i m Hm. apply ok_message_id0 in Hm as (? & ? & ? & ?). auto with prd.
  - intros k Hs'. apply ok_dispatched0. rewrite dict_lookup_insert in Hs'.
    case_decide; [subst; by rewrite Hk|done].
  - intros k Hs'. apply ok_order0. rewrite dict_lookup_insert in Hs'.
    case_decide; [subst; by rewrite Hk|done].
  - intros i h k Hi. eauto with prd.
  - apply (within_limits_admit _ st (pr_run_id run) (run_set_status run QUEUED true)); auto.
    right. exists run. split; [done|]. unfold runnable. rewrite Hs. apply andb_false_r.
Qed.

(** What one call of the loop establishes, for any fuel. *)
Lemma admit_loop_ok fuel p st :
  store_ok st ->
  store_ok (admit_loop fuel p st).1 /\ is_ok (admit_loop fuel p st).2 = true.
Proof.
  revert p st. induction fuel as [|fuel IH]; intros p st Hok; cbn [admit_loop]; [done|].
  case_match; [|done].
  destruct (admission_choice st Hok) as [[_ ->]|(ks & k & run & -> & -> & Hrun & _)]; [done|].
  apply IH, store_ok_promote; done.
Qed.

Lemma store_ok_admit st : store_ok st -> store_ok (release_and_admit_waiting st).1.
Proof. intros Hok. by apply admit_loop_ok. Qed.

(** A run closed with a terminal status. *)
Definition completed (r : ProductionRun) (s : ProductionRunStatus) : ProductionRun :=
  run_set_lease (run_set_status r s false) None None.

Lemma store_ok_completed st k r s :
  store_ok st -> runs st !! k = Some r -> terminal s = true ->
  store_ok (set_runs (<[k := completed r s]> (runs st)) st).
Proof.
  intros Hok Hr Hs. destruct (ok_run_id _ Hok _ _ Hr) as [_ (? & ? & ? & _)].
  eapply store_ok_set_run; eauto; unfold run_ok, runnable; simpl; [|done].
  split_and!; [done..|split; intros [? ?]; done|]. by destruct s.
Qed.

(** [complete_run] with a current lease, split at the admission loop. *)
Lemma complete_run_current st g s r :
  store_ok st -> runs st !! lg_run_id g = Some r -> terminal s = true -> current_lease r g = true ->
  exists st', complete_run g s st = (st', Ok (completed r s)) /\
    let st1 := set_runs (<[lg_run_id g := completed r s]> (runs st)) st in
    store_ok st1 /\ st' = (release_and_admit_waiting st1).1.
Proof.
  intros Hok Hr Hs Hc. unfold complete_run. rewrite Hs, Hr, Hc. cbn [negb].
  pose proof (store_ok_completed st _ r s Hok Hr Hs) as Hok1.
  fold (completed r s). set (st1 := set_runs _ st) in *.
  destruct (admit_loop_ok (S (dcount waiting (runs st1))) [] st1 Hok1) as [_ Hadm].
  fold (release_and_admit_waiting st1) in Hadm.
  destruct (release_and_admit_waiting st1) as [st2 [l|e]] eqn:E; [|done].
  by exists st2.
Qed.

(** Every other call of [complete_run] raises and changes nothing. *)
Lemma complete_run_refused st g s :
  store_ok st ->
  (terminal s = true /\ exists r, runs st !! lg_run_id g = Some r /\ current_lease r g = true) \/
  exists e, complete_run g s st = (st, Raise e).
Proof.
  intros Hok. unfold complete_run. destruct (terminal s); [|right; by eexists].
  destruct (runs st !! lg_run_id g) as [r|] eqn:Hr; [|right; by eexists].
  destruct (current_lease r g) eqn:Hc; [left; eauto|right; by eexists].
Qed.

Lemma store_ok_complete g s st : store_ok st -> store_ok (complete_run g s st).1.
Proof.
  intros Hok. destruct (complete_run_refused st g s Hok) as [(Hs & r & Hr & Hc)|[e ->]]; [|done].
  destruct (complete_run_current st g s r Hok Hr Hs Hc) as (st' & -> & Hok1 & ->).
  by apply store_ok_admit.
Qed.

Lemma store_ok_set_idempotency st i h k :
  store_ok st -> is_Some (runs st !! k) ->
  store_ok (set_command_idempotency (<[i := (h, k)]> (command_idempotency st)) st).
Proof.
  intros [] Hk. split; simpl; auto. intros j h' k'.
  rewrite dict_lookup_insert. case_decide; [|apply ok_replay0]. by intros [= <- <-].
Qed.

Lemma create_run_dispatch_run r t o reason now u st st' m :
  create_run_dispatch r t o reason now u st = (st', Ok m) -> is_Some (runs st' !! r).
Proof.
  unfold create_run_dispatch. destruct (runs st !! r) eqn:E.
  - case_match; intros [= <- <-]. by rewrite E.
  - intros [= <- <-]. simpl. rewrite dict_lookup_insert_eq. by eauto.
Qed.

Lemma get_run_store r st : (get_run r st).1 = st.
Proof. unfold get_run. by case_match. Qed.

Lemma store_ok_retry r o now key h u1 u2 st :
  store_ok st -> outbox st !! outbox_id u2 = None -> store_ok (retry_run r o now key h u1 u2 st).1.
Proof.
  intros Hok Hfresh. unfold retry_run.
  destruct (command_idempotency st !! (o, key)) as [[h' k]|].
  - case_match; [by rewrite get_run_store|done].
  - case_match; [|done]. case_match; [done|].
    destruct (pr_status p); try done;
      destruct (create_run_dispatch _ _ _ _ _ _ st) as [st1 [m|e]] eqn:Ec;
      pose proof (store_ok_create st ("run-" +:+ u1) (pr_task_id p) o "RETRY" now u2 Hok Hfresh) as H1;
      rewrite Ec in H1; simpl in *; try done;
      rewrite get_run_store; apply store_ok_set_idempotency; eauto using create_run_dispatch_run.
Qed.

Lemma recover_loop_ok now grace limit u cands created st :
  store_ok st -> (forall r, r ∈ cands -> is_Some (runs st !! pr_run_id r)) ->
  (forall i, (length created <= i)%nat -> outbox st !! outbox_id (u i) = None) ->
  (forall i j, outbox_id (u i) = outbox_id (u j) -> i = j) ->
  store_ok (recover_loop now grace limit u cands created st).1.
Proof.
  intros Hok Hin Hfresh Hinj. revert created st Hok Hin Hfresh.
  induction cands as [|r rest IH]; intros created st Hok Hin Hfresh; simpl; [done|].
  case_match; [done|]. case_match; [apply IH; auto; set_solver|].
  apply IH.
  - apply store_ok_add_message; simpl; auto; [|lia]. apply Hin. set_solver.
  - intros r' Hr'. apply Hin. set_solver.
  - intros i Hi. rewrite length_app in Hi. simpl in Hi. cbn [outbox set_outbox].
    rewrite dict_lookup_insert_ne; [apply Hfresh; lia|]. intros E%Hinj. lia.
Qed.

Lemma store_ok_recover now grace limit u st :
  store_ok st -> op_fresh (OpRecover now grace limit u) st ->
  store_ok (enqueue_recoveries now grace limit u st).1.
Proof.
  intros Hok [Hf Hinj]. apply recover_loop_ok; auto.
  intros r Hr%elem_of_sort_by. apply ok_run_values in Hr; eauto.
Qed.

Lemma step_store_ok st st' : store_ok st -> step st st' -> store_ok st'.
Proof.
  intros Hok [[] Hf]; cbn [apply_op op_fresh] in *;
    eauto using store_ok_create, store_ok_claim, store_ok_published, store_ok_failed,
      store_ok_cancel, store_ok_retry, store_ok_acquire, store_ok_complete, store_ok_admit,
      store_ok_heartbeat, store_ok_inbox, store_ok_recover.
Qed.

#[export] Hint Resolve step_store_ok : prd.
