(* ===== verification/DispatchEvolution.v ===== *)
(** * How runs and messages evolve

    What a single operation of the control store may do to a run, to an outbox
    message and to the idempotency table, lifted to sequences of operations.
    The properties of DispatchFacts are instances of these relations. *)
From stdpp Require Import base list sets strings relations.
From Stdlib Require Import ZArith.
From S2P Require Import Prelude PyDict Dispatch DispatchRuntime DispatchInv.

Open Scope Z_scope.

Abbreviation steps := (rtc step).

(** The run has left the queue for good. *)
Definition dequeued (s : ProductionRunStatus) : bool :=
  match s with WAITING_CAPACITY | QUEUED => false | _ => true end.

(** The allowed evolution of one run: its identity is fixed, its fencing
    token never decreases, a lease owner appears only with a new token, a
    cancellation is never forgotten, a run that left the queue never enters
    it again, and a terminal run never changes. *)
Definition evolves (r r' : ProductionRun) : Prop :=
  (pr_run_id r' = pr_run_id r /\ pr_task_id r' = pr_task_id r /\ pr_owner_id r' = pr_owner_id r) /\
  pr_fencing_token r <= pr_fencing_token r' /\
  (pr_fencing_token r' = pr_fencing_token r ->
     pr_lease_owner r' = pr_lease_owner r \/ pr_lease_owner r' = None) /\
  (forall t, pr_cancellation_requested_at r = Some t -> pr_cancellation_requested_at r' = Some t) /\
  (dequeued (pr_status r) = true -> dequeued (pr_status r') = true) /\
  (terminal (pr_status r) = true -> r' = r).

#[global] Instance evolves_refl : Reflexive evolves.
Proof. intros r. unfold evolves. split_and!; auto; lia. Qed.

#[global] Instance evolves_trans : Transitive evolves.
Proof.
  intros a b c ((? & ? & ?) & Hab & Hl & Hc & Hq & Ht) ((? & ? & ?) & Hbc & Hl' & Hc' & Hq' & Ht').
  unfold evolves. split_and!; try congruence; try lia; auto.
  - intros E. destruct Hl' as [->|]; [lia| |by right].
    destruct Hl as [->|]; [lia|by left|by right].
  - intros Ta. rewrite <- (Ht Ta). apply Ht'. by rewrite (Ht Ta).
Qed.

(** Every run of [d] is still there in [d'], evolved. *)
Definition runs_evolve (d d' : dict string ProductionRun) : Prop :=
  forall k r, d !! k = Some r -> exists r', d' !! k = Some r' /\ evolves r r'.

#[global] Instance runs_evolve_refl : Reflexive runs_evolve.
Proof. intros d k r H. exists r. by split. Qed.

#[global] Instance runs_evolve_trans : Transitive runs_evolve.
Proof.
  intros a b c Hab Hbc k r Hr. destruct (Hab k r Hr) as (r1 & H1 & E1).
  destruct (Hbc k r1 H1) as (r2 & H2 & E2). exists r2. split; [done|]. by etrans.
Qed.

Lemma runs_evolve_insert (d : dict string ProductionRun) k r r' :
  d !! k = Some r -> evolves r r' -> runs_evolve d (<[k := r']> d).
Proof.
  intros Hk Hev k' x Hx. rewrite dict_lookup_insert. case_decide; simplify_eq/=; [|by exists x].
  exists r'. by split.
Qed.

Lemma runs_evolve_new (d : dict string ProductionRun) k r' :
  d !! k = None -> runs_evolve d (<[k := r']> d).
Proof.
  intros Hk k' x Hx. exists x. split; [|done]. rewrite dict_lookup_insert_ne; [done|]. congruence.
Qed.

(** ** Frames: the fields each loop leaves alone *)

Lemma claim_loop_frame p now ttl limit cands claimed st :
  exists d, (claim_loop p now ttl limit cands claimed st).1 = set_outbox d st.
Proof.
  revert claimed st. induction cands as [|m rest IH]; intros claimed st; simpl.
  { exists (outbox st). by destruct st. }
  repeat case_match; try (exists (outbox st); by destruct st); [apply IH|].
  edestruct IH as [d ->]. by exists d.
Qed.

Lemma recover_loop_frame now grace limit u cands created st :
  exists d, (recover_loop now grace limit u cands created st).1 = set_outbox d st.
Proof.
  revert created st. induction cands as [|m rest IH]; intros created st; simpl.
  { exists (outbox st). by destruct st. }
  repeat case_match; try (exists (outbox st); by destruct st); [apply IH|].
  edestruct IH as [d ->]. by exists d.
Qed.

Definition set_admission (d : dict string ProductionRun) (last : dict string Z) (turn : Z) (st : store) : store :=
  mkStore d (outbox st) (inbox st) (command_idempotency st) (queue_policy st) (created_order st)
    (next_created_order st) last turn.

Lemma set_admission_self st : exists d last turn, st = set_admission d last turn st.
Proof. exists (runs st), (owner_last_admitted st), (admission_turn st). by destruct st. Qed.

Lemma admit_loop_frame fuel p st :
  exists d last turn, (admit_loop fuel p st).1 = set_admission d last turn st.
Proof.
  revert p st. induction fuel as [|fuel IH]; intros p st; cbn [admit_loop].
  { apply set_admission_self. }
  repeat case_match; try (apply set_admission_self).
  edestruct IH as (d & last & turn & ->). by eexists _, _, _.
Qed.

Lemma complete_run_frame g s st :
  exists d last turn, (complete_run g s st).1 = set_admission d last turn st.
Proof.
  unfold complete_run. case_match; [apply set_admission_self|].
  case_match; [|apply set_admission_self].
  case_match; [|apply set_admission_self]. set (st1 := set_runs _ st).
  destruct (admit_loop_frame (S (dcount waiting (runs st1))) [] st1) as (d & last & turn & H2).
  fold (release_and_admit_waiting st1) in H2.
  destruct (release_and_admit_waiting st1) as [st2 [|]]; cbn [fst] in *; subst st2; by eexists _, _, _.
Qed.

Lemma retry_run_frame r o now key h u1 u2 st :
  (exists e, retry_run r o now key h u1 u2 st = (st, e)) \/
  exists t d, (retry_run r o now key h u1 u2 st).1 =
    set_command_idempotency d (create_run_dispatch ("run-" +:+ u1) t o "RETRY" now u2 st).1 /\
    command_idempotency st !! (o, key) = None /\
    forall i, i <> (o, key) -> d !! i = command_idempotency st !! i.
Proof.
  unfold retry_run. destruct (command_idempotency st !! (o, key)) as [[h' k]|].
  - left. case_match; [|by eexists]. unfold get_run. case_match; by eexists.
  - case_match; [|left; by eexists]. case_match; [left; by eexists|].
    assert (Hc : command_idempotency (create_run_dispatch ("run-" +:+ u1) (pr_task_id p) o "RETRY" now u2 st).1
      = command_idempotency st) by (unfold create_run_dispatch; by repeat case_match).
    destruct (pr_status p); try (left; by eexists); right; exists (pr_task_id p);
      destruct (create_run_dispatch _ _ _ _ _ _ st) as [st1 [m|e]]; cbn [fst] in *; rewrite <- Hc;
      first [exists (command_idempotency st1); split; [by destruct st1|done]
            |rewrite get_run_store; eexists; split; [done|]; split; [done|];
             intros i Hi; by apply dict_lookup_insert_ne].
Qed.

Lemma claim_loop_runs p now ttl limit cands claimed st :
  runs (claim_loop p now ttl limit cands claimed st).1 = runs st.
Proof. by destruct (claim_loop_frame p now ttl limit cands claimed st) as [d ->]. Qed.

Lemma recover_loop_runs now grace limit u cands created st :
  runs (recover_loop now grace limit u cands created st).1 = runs st.
Proof. by destruct (recover_loop_frame now grace limit u cands created st) as [d ->]. Qed.

(** The fields only a creation or a retry may change: every other operation
    changes runs, the outbox, the inbox and the admission counters. *)
Lemma op_frame o st :
  queue_policy (apply_op o st) = queue_policy st /\
  match o with OpInbox _ _ => True | _ => inbox (apply_op o st) = inbox st end.
Proof.
  assert (Hc : forall r t w reason now u s,
    queue_policy (create_run_dispatch r t w reason now u s).1 = queue_policy s /\
    inbox (create_run_dispatch r t w reason now u s).1 = inbox s).
  { intros. unfold create_run_dispatch. by repeat case_match. }
  destruct o; cbn [apply_op].
  - destruct (Hc run_id task_id owner_id reason now uuid st) as [-> ->]. done.
  - by destruct (claim_loop_frame publisher now lease_ttl limit (sort_by outbox_leb (values (outbox st))) [] st)
      as [d H]; unfold claim_outbox; rewrite H.
  - unfold mark_outbox_published. by repeat case_match.
  - unfold mark_outbox_failed. by repeat case_match.
  - unfold request_cancellation. by repeat case_match.
  - destruct (retry_run_frame run_id owner_id now key hash run_uuid message_uuid st) as [[e ->]|(t & d & -> & _)];
      [done|]. destruct (Hc ("run-" +:+ run_uuid) t owner_id "RETRY" now message_uuid st) as [H1 H2].
    by cbn [set_command_idempotency queue_policy inbox].
  - unfold acquire_run. by repeat case_match.
  - by destruct (complete_run_frame grant status st) as (d & last & turn & ->).
  - unfold admit_waiting_runs, release_and_admit_waiting.
    by destruct (admit_loop_frame (S (dcount waiting (runs st))) [] st) as (d & last & turn & ->).
  - unfold heartbeat. by repeat case_match.
  - unfold record_inbox. by case_match.
  - unfold enqueue_recoveries. edestruct recover_loop_frame as [d ->]. done.
Qed.

Lemma promote_evolves st run :
  store_ok st -> run ∈ admission_candidates st -> runs_evolve (runs st) (runs (promote run st)).
Proof.
  intros Hok (Hv & Hs & _)%elem_of_candidates. apply ok_run_values in Hv; [|done].
  eapply runs_evolve_insert; [done|]. unfold evolves. simpl. rewrite Hs. split_and!; auto; try done; lia.
Qed.

Lemma admit_loop_evolves fuel p st :
  store_ok st -> runs_evolve (runs st) (runs (admit_loop fuel p st).1).
Proof.
  revert p st. induction fuel as [|fuel IH]; intros p st Hok; cbn [admit_loop]; [done|].
  case_match; [|done].
  destruct (admission_choice st Hok) as [[_ ->]|(ks & k & run & -> & -> & Hrun & _)]; [done|].
  etrans; [by apply promote_evolves|]. by apply IH, store_ok_promote.
Qed.

Lemma create_evolves r t o reason now u st :
  runs_evolve (runs st) (runs (create_run_dispatch r t o reason now u st).1).
Proof.
  unfold create_run_dispatch. destruct (runs st !! r) eqn:E; [by case_match|].
  by apply runs_evolve_new.
Qed.

Lemma cancel_evolves r o now st : runs_evolve (runs st) (runs (request_cancellation r o now st).1).
Proof.
  unfold request_cancellation. case_match eqn:E; [|done]. repeat (case_match; [done|]).
  eapply runs_evolve_insert; [done|]. unfold evolves. simpl. split_and!; auto; try lia; [by intros t ->|congruence].
Qed.

Lemma acquire_evolves r w now ttl st : runs_evolve (runs st) (runs (acquire_run r w now ttl st).1).
Proof.
  unfold acquire_run. case_match eqn:E; [|done]. case_match eqn:T; [done|].
  destruct (pr_status p) eqn:Es; try done; (case_match; [done|]);
    (eapply runs_evolve_insert; [done|]); unfold evolves; simpl; rewrite Es;
    (split_and!; auto; try done; try lia); by destruct (pr_cancellation_requested_at p).
Qed.

(** A current lease excludes a terminal run. *)
Lemma current_lease_live st r g :
  store_ok st -> runs st !! lg_run_id g = Some r -> current_lease r g = true ->
  terminal (pr_status r) = false /\ pr_lease_owner r = Some (lg_worker_id g).
Proof.
  intros Hok Hr [C%bool_decide_eq_true _]%andb_true_iff. split; [|done].
  destruct (ok_run_id _ Hok _ _ Hr) as [_ (_ & _ & _ & Hs)].
  destruct (pr_status r); try done; destruct Hs; congruence.
Qed.

Lemma heartbeat_evolves g now ttl st :
  store_ok st -> runs_evolve (runs st) (runs (heartbeat g now ttl st).1).
Proof.
  intros Hok. unfold heartbeat. case_match eqn:E; [|done]. case_match eqn:C; [|done].
  apply andb_true_iff in C as [C _].
  destruct (current_lease_live _ _ _ Hok E C) as [T _].
  eapply runs_evolve_insert; [done|]. unfold evolves. simpl. split_and!; auto; [lia|congruence].
Qed.

Lemma complete_evolves g s st :
  store_ok st -> runs_evolve (runs st) (runs (complete_run g s st).1).
Proof.
  intros Hok. destruct (complete_run_refused st g s Hok) as [(Hs & r & Hr & Hc)|[e ->]]; [|done].
  destruct (complete_run_current st g s r Hok Hr Hs Hc) as (st' & -> & Hok1 & ->).
  destruct (current_lease_live _ _ _ Hok Hr Hc) as [T _].
  etrans; [|by apply admit_loop_evolves].
  eapply runs_evolve_insert; [done|]. unfold evolves. simpl.
  split_and!; auto; [lia|by destruct s|congruence].
Qed.

Lemma retry_evolves r o now key h u1 u2 st :
  runs_evolve (runs st) (runs (retry_run r o now key h u1 u2 st).1).
Proof.
  destruct (retry_run_frame r o now key h u1 u2 st) as [[e ->]|(t & d & -> & _)]; [done|].
  apply create_evolves.
Qed.

Lemma step_evolves st st' : store_ok st -> step st st' -> runs_evolve (runs st) (runs st').
Proof.
  intros Hok [[] _]; cbn [apply_op];
    eauto using create_evolves, cancel_evolves, acquire_evolves, heartbeat_evolves,
      complete_evolves, retry_evolves.
  - unfold claim_outbox. by rewrite claim_loop_runs.
  - unfold mark_outbox_published. by repeat case_match.
  - unfold mark_outbox_failed. by repeat case_match.
  - by apply admit_loop_evolves.
  - unfold record_inbox. by case_match.
  - unfold enqueue_recoveries. by rewrite recover_loop_runs.
Qed.

Lemma steps_ok st st' : store_ok st -> steps st st' -> store_ok st'.
Proof. intros Hok. induction 1; eauto with prd. Qed.

Lemma steps_evolve st st' : store_ok st -> steps st st' -> runs_evolve (runs st) (runs st').
Proof.
  intros Hok Hs. revert Hok. induction Hs as [st|st1 st2 st3 H12 _ IH]; intros Hok; [done|].
  etrans; [by eapply step_evolves|]. eauto with prd.
Qed.

(** The policy of a store never changes. *)
Lemma step_policy st st' : step st st' -> queue_policy st' = queue_policy st.
Proof. intros [o _]. by destruct (op_frame o st). Qed.

(** The admission loop leaves every run that is not waiting untouched. *)
Lemma admit_loop_not_waiting fuel p st k r :
  store_ok st -> runs st !! k = Some r -> pr_status r <> WAITING_CAPACITY ->
  runs (admit_loop fuel p st).1 !! k = Some r.
Proof.
  revert p st. induction fuel as [|fuel IH]; intros p st Hok Hk Hs; cbn [admit_loop]; [done|].
  case_match; [|done].
  destruct (admission_choice st Hok) as [[_ ->]|(ks & key & run & -> & -> & Hrun & _)]; [done|].
  apply IH; [by apply store_ok_promote| |done]. cbn [promote runs].
  apply elem_of_candidates in Hrun as (Hv & Hw & _). apply ok_run_values in Hv; [|done].
  rewrite dict_lookup_insert_ne; [done|]. congruence.
Qed.

(** ** Reachable states *)

Lemma reachable_ok g o policy st :
  QueuePolicy_new g o = Ok policy -> reachable policy st ->
  store_ok st /\ queue_policy st = policy.
Proof.
  intros Hp. induction 1 as [|st st' _ [Hok Hq] Hs].
  - split; [|done]. unfold QueuePolicy_new in Hp. repeat case_match; simplify_eq.
    apply Z.ltb_ge in H, H0. apply store_ok_init; simpl; lia.
  - split; [eauto with prd|]. rewrite <- Hq. by apply step_policy.
Qed.

Lemma reachable_steps policy st st' : reachable policy st -> steps st st' -> reachable policy st'.
Proof. intros Hr. induction 1; eauto using reachable_step. Qed.

Fixpoint ops_fresh (os : list op) (st : store) : Prop :=
  match os with
  | [] => True
  | o :: rest => op_fresh o st /\ ops_fresh rest (apply_op o st)
  end.

Lemma steps_run_ops os st : ops_fresh os st -> steps st (run_ops os st).
Proof.
  revert st. induction os as [|o os IH]; intros st Hf; [done|].
  destruct Hf as [Ho Hf]. eapply rtc_l; [by constructor|]. by apply IH.
Qed.

Lemma reachable_run_ops policy os :
  ops_fresh os (init_store policy) -> reachable policy (run_ops os (init_store policy)).
Proof. intros Hf. eapply reachable_steps; [constructor|by apply steps_run_ops]. Qed.
