(* ===== verification/DispatchFacts.v ===== *)
(** * Properties of run admission and leases

    Capacity, fencing, lease exclusivity and admission fairness of the control
    store under every interleaving of its operations. *)
From stdpp Require Import base list sets strings relations.
From Stdlib Require Import ZArith.
From S2P Require Import Prelude PyDict Dispatch DispatchRuntime DispatchInv DispatchEvolution.

Open Scope Z_scope.

(** A small execution used by the witnesses: two runs of one owner under the
    default policy, the first one acquired. *)
Definition demo_policy : QueuePolicy := mkQueuePolicy 30 1.
Definition demo_ops : list op :=
  [OpCreate "run-1" "task-1" "alice" "START_OR_RESUME" 0 "u1";
   OpCreate "run-2" "task-1" "alice" "START_OR_RESUME" 1 "u2";
   OpAcquire "run-1" "worker-a" 10 100].
Definition demo_store : store := run_ops demo_ops (init_store demo_policy).

Lemma demo_reachable : reachable demo_policy demo_store.
Proof. apply reachable_run_ops. vm_compute. repeat split. Qed.

Lemma demo_policy_valid : QueuePolicy_new 30 1 = Ok demo_policy.
Proof. reflexivity. Qed.

(** ** Capacity *)

(** C1: under every interleaving of the store's operations, the number of
    runs that hold a slot in QUEUED or RUNNING never exceeds
    [max_global_runnable], and no owner has more than
    [max_runnable_per_owner] of them. *)
Theorem capacity_bounded g o policy st :
  QueuePolicy_new g o = Ok policy -> reachable policy st ->
  Z.of_nat (length (runnable_runs st)) <= g /\
  forall owner, Z.of_nat (length (List.filter (owned_by owner) (runnable_runs st))) <= o.
Proof.
  intros Hp Hr. destruct (reachable_ok _ _ _ _ Hp Hr) as [Hok Hq].
  destruct (ok_limits _ Hok) as [Hg Ho]. rewrite Hq in Hg, Ho.
  unfold QueuePolicy_new in Hp. repeat case_match; try done.
  injection Hp as <-. simpl in *. split; [done|]. intros owner. by rewrite length_runnable_owned.
Qed.

Lemma capacity_bounded_witness :
  length (runnable_runs demo_store) = 1%nat /\
  Z.of_nat (length (List.filter (owned_by "alice") (runnable_runs demo_store))) <= 1.
Proof.
  split; [reflexivity|].
  apply (capacity_bounded 30 1 demo_policy demo_store demo_policy_valid demo_reachable).
Defined.

(** every reachable state of the store is well formed: runs and messages
    are indexed by their own identifier, every message belongs to a run and
    every run has a message and a creation order, replay entries point to
    existing runs, and each run's slot, lease, token and cancellation fields
    agree with its status. *)
Theorem control_store_well_formed g o policy st :
  QueuePolicy_new g o = Ok policy -> reachable policy st -> store_ok st.
Proof. intros Hp Hr. by destruct (reachable_ok _ _ _ _ Hp Hr). Qed.

Lemma control_store_well_formed_witness : store_ok demo_store.
Proof.
  apply (control_store_well_formed 30 1 demo_policy demo_store demo_policy_valid demo_reachable).
Defined.

(** ** Fencing *)

Lemma acquire_Some k w now ttl st st' g :
  acquire_run k w now ttl st = (st', Ok (Some g)) ->
  exists r, runs st !! k = Some r /\ terminal (pr_status r) = false /\
    g = mkLeaseGrant k w (pr_fencing_token r + 1) (now + ttl) /\
    exists r', runs st' !! k = Some r' /\ pr_fencing_token r' = pr_fencing_token r + 1 /\
      pr_lease_owner r' = Some w /\ pr_lease_expires_at r' = Some (now + ttl) /\
      pr_cancellation_requested_at r' = pr_cancellation_requested_at r.
Proof.
  unfold acquire_run. case_match eqn:Hr; [|done]. case_match eqn:Ht; [done|].
  intros H. exists p.
  destruct (pr_status p); try done; case_match; simplify_eq/=;
    (split_and!; [done..|]); eexists; rewrite dict_lookup_insert_eq; split_and!; done.
Qed.

(** A grant whose token is below the run's can do nothing. *)
Lemma outdated_token_fenced st r g s now ttl :
  runs st !! lg_run_id g = Some r -> lg_fencing_token g < pr_fencing_token r ->
  (terminal s = true ->
     complete_run g s st = (st, Raise (LostLeaseError "worker lease is no longer current"))) /\
  heartbeat g now ttl st = (st, Raise (LostLeaseError "worker lease is no longer current")).
Proof.
  intros Hr Hlt. unfold complete_run, heartbeat. rewrite Hr.
  assert (Hc : current_lease r g = false).
  { unfold current_lease. apply andb_false_iff. right. apply Z.eqb_neq. lia. }
  rewrite Hc. split; [|done]. by intros ->.
Qed.

(** C2: once a run has been acquired again, the earlier grant is fenced for
    ever: whatever operations follow, completing the run or renewing the
    lease with it raises [LostLeaseError] and changes nothing, and the two
    grants carry strictly increasing tokens. *)
Theorem stale_grant_fenced gl ow policy st k w1 n1 t1 st1 g1 st2 w2 n2 t2 st3 g2 st4 s now ttl :
  QueuePolicy_new gl ow = Ok policy -> reachable policy st ->
  acquire_run k w1 n1 t1 st = (st1, Ok (Some g1)) -> steps st1 st2 ->
  acquire_run k w2 n2 t2 st2 = (st3, Ok (Some g2)) -> steps st3 st4 ->
  terminal s = true ->
  lg_fencing_token g1 < lg_fencing_token g2 /\
  complete_run g1 s st4 = (st4, Raise (LostLeaseError "worker lease is no longer current")) /\
  heartbeat g1 now ttl st4 = (st4, Raise (LostLeaseError "worker lease is no longer current")).
Proof.
  intros Hp Hr H1 H12 H3 H34 Hs. destruct (reachable_ok _ _ _ _ Hp Hr) as [Hok _].
  assert (Hok1 : store_ok st1).
  { pose proof (store_ok_acquire k w1 n1 t1 st Hok) as H. by rewrite H1 in H. }
  assert (Hok2 : store_ok st2) by eauto using steps_ok.
  assert (Hok3 : store_ok st3).
  { pose proof (store_ok_acquire k w2 n2 t2 st2 Hok2) as H. by rewrite H3 in H. }
  apply acquire_Some in H1 as (r & _ & _ & -> & r1 & Hr1 & Ht1 & _).
  apply acquire_Some in H3 as (r2 & Hr2 & _ & -> & r3 & Hr3 & Ht3 & _).
  destruct (steps_evolve _ _ Hok1 H12 _ _ Hr1) as (r2' & Hr2' & Hev2). simplify_eq.
  destruct (steps_evolve _ _ Hok3 H34 _ _ Hr3) as (r4 & Hr4 & Hev4).
  destruct Hev2 as (_ & Hle2 & _). destruct Hev4 as (_ & Hle4 & _).
  simpl. split; [lia|].
  destruct (outdated_token_fenced st4 r4
    (mkLeaseGrant k w1 (pr_fencing_token r + 1) (n1 + t1)) s now ttl) as [Hc Hh]; simpl; auto; lia.
Qed.

Lemma stale_grant_fenced_witness :
  let st3 := (acquire_run "run-1" "worker-b" 200 100 demo_store).1 in
  complete_run (mkLeaseGrant "run-1" "worker-a" 1 110) SUCCEEDED st3 =
    (st3, Raise (LostLeaseError "worker lease is no longer current")).
Proof.
  intros st3.
  assert (Hr : reachable demo_policy (run_ops (take 2 demo_ops) (init_store demo_policy))).
  { apply reachable_run_ops. vm_compute. repeat split. }
  apply (stale_grant_fenced 30 1 demo_policy _ "run-1" "worker-a" 10 100
    demo_store (mkLeaseGrant "run-1" "worker-a" 1 110) demo_store "worker-b" 200 100
    st3 (mkLeaseGrant "run-1" "worker-b" 2 300) st3 SUCCEEDED 0 0
    demo_policy_valid Hr eq_refl (rtc_refl _ _) eq_refl (rtc_refl _ _) eq_refl).
Defined.

(** a run in SUCCEEDED, FAILED or STOPPED is final: no sequence of
    operations changes any field of it. *)
Theorem terminal_runs_absorbing g o policy st st' k r :
  QueuePolicy_new g o = Ok policy -> reachable policy st ->
  runs st !! k = Some r -> terminal (pr_status r) = true -> steps st st' ->
  runs st' !! k = Some r.
Proof.
  intros Hp Hr Hk Ht Hs. destruct (reachable_ok _ _ _ _ Hp Hr) as [Hok _].
  destruct (steps_evolve _ _ Hok Hs _ _ Hk) as (r' & Hk' & _ & _ & _ & _ & _ & Hf).
  by rewrite (Hf Ht) in Hk'.
Qed.

Definition demo_grant : LeaseGrant := mkLeaseGrant "run-1" "worker-a" 1 110.
Definition demo_done : list op := demo_ops ++ [OpComplete demo_grant SUCCEEDED].

Lemma terminal_runs_absorbing_witness :
  let st := run_ops demo_done (init_store demo_policy) in
  pr_status <$> runs st !! "run-1" = Some SUCCEEDED /\
  pr_status <$> runs (apply_op (OpCancel "run-1" "alice" 500) st) !! "run-1" = Some SUCCEEDED.
Proof.
  intros st. assert (Hr : reachable demo_policy st).
  { apply reachable_run_ops. vm_compute. repeat split. }
  split; [reflexivity|].
  destruct (runs st !! "run-1") as [r|] eqn:Hk; [|vm_compute in Hk; discriminate].
  rewrite (terminal_runs_absorbing 30 1 demo_policy st _ "run-1" r demo_policy_valid Hr Hk).
  - vm_compute in Hk. simplify_eq. reflexivity.
  - vm_compute in Hk. simplify_eq. reflexivity.
  - apply rtc_once. constructor. exact I.
Defined.

(** ** Lease exclusivity *)

(** Worker [w] holds run [k] until [expires] under token [token]. *)
Definition lease_held (k w : string) (expires token : Z) (st : store) : Prop :=
  exists r, runs st !! k = Some r /\ pr_lease_owner r = Some w /\
    pr_lease_expires_at r = Some expires /\ pr_fencing_token r = token.

(** Operations of others before the lease expires: the holder neither renews
    nor completes, and acquisitions of the run happen before [expires]. *)
Definition undisturbing (k w : string) (expires : Z) (o : op) : Prop :=
  match o with
  | OpAcquire k' w' now _ => k' = k -> w' <> w /\ now < expires
  | OpComplete g _ => lg_run_id g = k -> lg_worker_id g <> w
  | OpHeartbeat g _ _ => lg_run_id g = k -> lg_worker_id g <> w
  | _ => True
  end.

Lemma lease_held_runs k w e t st st' : runs st' = runs st -> lease_held k w e t st -> lease_held k w e t st'.
Proof. unfold lease_held. by intros ->. Qed.

Lemma lease_held_insert k w e t st k' r r' :
  runs st !! k' = Some r -> (k' = k -> pr_lease_owner r' = pr_lease_owner r /\
    pr_lease_expires_at r' = pr_lease_expires_at r /\ pr_fencing_token r' = pr_fencing_token r) ->
  lease_held k w e t st -> lease_held k w e t (set_runs (<[k' := r']> (runs st)) st).
Proof.
  intros Hk' Hsame (x & Hx & ? & ? & ?). unfold lease_held. cbn [set_runs runs].
  destruct (decide (k' = k)) as [->|Hne].
  - destruct (Hsame eq_refl) as (? & ? & ?). simplify_eq.
    exists r'. rewrite dict_lookup_insert_eq. split_and!; congruence.
  - exists x. rewrite dict_lookup_insert_ne; auto.
Qed.

Lemma not_current_lease r g w : pr_lease_owner r = Some w -> lg_worker_id g <> w -> current_lease r g = false.
Proof. intros Ho Hne. unfold current_lease. rewrite Ho, bool_decide_eq_false_2; [done|]. congruence. Qed.

Lemma lease_held_not_waiting k w e t st :
  store_ok st -> lease_held k w e t st ->
  exists r, runs st !! k = Some r /\ pr_status r <> WAITING_CAPACITY.
Proof.
  intros Hok (r & Hr & Ho & _). exists r. split; [done|]. intros Hs.
  destruct (ok_run_id _ Hok _ _ Hr) as [_ (_ & _ & _ & H)]. rewrite Hs in H.
  destruct H as (_ & _ & _ & H). congruence.
Qed.

Lemma lease_held_create k w e t st r tk o reason now u :
  lease_held k w e t st -> lease_held k w e t (create_run_dispatch r tk o reason now u st).1.
Proof.
  intros (x & Hx & ?). unfold create_run_dispatch.
  destruct (runs st !! r) eqn:Er; [case_match; by exists x|].
  exists x. cbn [fst runs]. rewrite dict_lookup_insert_ne; [done|]. congruence.
Qed.

Lemma lease_held_admit k w e t st fuel p :
  store_ok st -> lease_held k w e t st -> lease_held k w e t (admit_loop fuel p st).1.
Proof.
  intros Hok Hl. destruct (lease_held_not_waiting _ _ _ _ _ Hok Hl) as (r & Hr & Hs).
  destruct Hl as (x & Hx & ?). rewrite Hr in Hx. injection Hx as <-.
  exists r. split; [|done]. by apply admit_loop_not_waiting.
Qed.

Lemma lease_held_complete k w e t st g s :
  store_ok st -> (lg_run_id g = k -> lg_worker_id g <> w) ->
  lease_held k w e t st -> lease_held k w e t (complete_run g s st).1.
Proof.
  intros Hok Hg Hl. destruct (complete_run_refused st g s Hok) as [(Hs & r & Hr & Hc)|[x ->]]; [|done].
  destruct (complete_run_current st g s r Hok Hr Hs Hc) as (st' & -> & Hok1 & ->).
  apply lease_held_admit; [done|]. eapply lease_held_insert; eauto. intros Hk.
  destruct Hl as (x & Hx & Ho & _). rewrite Hk in Hr. simplify_eq.
  by rewrite (not_current_lease _ _ w) in Hc by auto.
Qed.

Lemma lease_held_acquire k w e t st k' w' now ttl :
  (k' = k -> w' <> w /\ now < e) ->
  lease_held k w e t st -> lease_held k w e t (acquire_run k' w' now ttl st).1.
Proof.
  intros Hu Hl. unfold acquire_run. case_match eqn:Hr; [|done]. case_match; [done|].
  destruct (decide (k' = k)) as [->|Hne].
  - destruct (Hu eq_refl) as [Hw Hn]. destruct Hl as (x & Hx & Ho & He & Ht).
    rewrite Hr in Hx. injection Hx as <-.
    assert (Hh : held_by_other p w' now = true).
    { unfold held_by_other. rewrite Ho, He. simpl.
      rewrite bool_decide_eq_false_2 by congruence. by apply Z.ltb_lt. }
    rewrite Hh. destruct (pr_status p); by exists p.
  - destruct (pr_status p); try done; (case_match; [done|]);
      (eapply lease_held_insert; eauto; done).
Qed.

Lemma lease_held_op k w e t o st :
  store_ok st -> op_fresh o st -> undisturbing k w e o ->
  lease_held k w e t st -> lease_held k w e t (apply_op o st).
Proof.
  intros Hok Hf Hu Hl. destruct o; cbn [apply_op undisturbing] in *;
    eauto using lease_held_create, lease_held_complete, lease_held_acquire.
  - eapply lease_held_runs; [apply claim_loop_runs|done].
  - unfold mark_outbox_published. by repeat case_match.
  - unfold mark_outbox_failed. by repeat case_match.
  - unfold request_cancellation. case_match eqn:Hr; [|done]. repeat (case_match; [done|]).
    by eapply lease_held_insert.
  - unfold retry_run. destruct (command_idempotency st !! _) as [[h' k']|].
    + case_match; [by rewrite get_run_store|done].
    + case_match; [|done]. case_match; [done|].
      destruct (pr_status p); try done;
        (pose proof (lease_held_create k w e t st ("run-" +:+ run_uuid) (pr_task_id p) owner_id
           "RETRY" now message_uuid Hl) as H1;
         destruct (create_run_dispatch _ _ _ _ _ _ st) as [st1 [m|e']]; simpl in *; [|done];
         by rewrite get_run_store).
  - by apply lease_held_admit.
  - unfold heartbeat. case_match eqn:Hr; [|done]. case_match eqn:Hc; [|done].
    eapply lease_held_insert; eauto. intros Hk. destruct Hl as (x & Hx & Ho & _).
    rewrite Hk in Hr. simplify_eq. apply andb_true_iff in Hc as [Hc _].
    by rewrite (not_current_lease _ _ w) in Hc by auto.
  - unfold record_inbox. by case_match.
  - eapply lease_held_runs; [apply recover_loop_runs|done].
Qed.

Lemma lease_held_ops k w e t os st :
  store_ok st -> ops_fresh os st -> Forall (undisturbing k w e) os ->
  lease_held k w e t st -> store_ok (run_ops os st) /\ lease_held k w e t (run_ops os st).
Proof.
  revert st. induction os as [|o os IH]; intros st Hok Hf Hu Hl; [done|].
  destruct Hf as [Ho Hf]. apply Forall_cons in Hu as [Hu Hus].
  apply IH; auto using lease_held_op. eapply step_store_ok; [done|by constructor].
Qed.

(** C18: a granted lease is exclusive until it expires: whatever other threads
    do before that instant (create, publish, cancel, retry, recover, try to
    acquire, complete with other grants), no other worker acquires the run,
    and the holder can still complete it with its grant. *)
Theorem lease_exclusive gl ow policy st k w now ttl st1 g os :
  QueuePolicy_new gl ow = Ok policy -> reachable policy st ->
  acquire_run k w now ttl st = (st1, Ok (Some g)) ->
  ops_fresh os st1 -> Forall (undisturbing k w (now + ttl)) os ->
  (forall w' n t, w' <> w -> n < now + ttl ->
     acquire_run k w' n t (run_ops os st1) = (run_ops os st1, Ok None)) /\
  (forall s, terminal s = true -> is_ok (complete_run g s (run_ops os st1)).2 = true).
Proof.
  intros Hp Hr Ha Hf Hu. destruct (reachable_ok _ _ _ _ Hp Hr) as [Hok _].
  assert (Hok1 : store_ok st1).
  { pose proof (store_ok_acquire k w now ttl st Hok) as H. by rewrite Ha in H. }
  apply acquire_Some in Ha as (r & _ & _ & -> & r1 & Hr1 & Ht1 & Ho1 & He1 & _).
  destruct (lease_held_ops k w (now + ttl) (pr_fencing_token r + 1) os st1 Hok1 Hf Hu)
    as [Hok2 (x & Hx & Ho & He & Ht)]; [by exists r1|].
  split.
  - intros w' n t Hw Hn. unfold acquire_run. rewrite Hx. case_match; [done|].
    assert (held_by_other x w' n = true) as ->.
    { unfold held_by_other. rewrite Ho, He. simpl.
      rewrite bool_decide_eq_false_2 by congruence. by apply Z.ltb_lt. }
    by destruct (pr_status x).
  - intros s Hs.
    destruct (complete_run_current (run_ops os st1)
      (mkLeaseGrant k w (pr_fencing_token r + 1) (now + ttl)) s x) as (st' & -> & _); auto.
    unfold current_lease. simpl. rewrite Ho, bool_decide_eq_true_2 by done. by apply Z.eqb_eq.
Qed.

Lemma lease_exclusive_witness :
  acquire_run "run-1" "worker-b" 50 100 (apply_op (OpCancel "run-1" "alice" 20) demo_store)
  = (apply_op (OpCancel "run-1" "alice" 20) demo_store, Ok None).
Proof.
  assert (Hr : reachable demo_policy (run_ops (take 2 demo_ops) (init_store demo_policy))).
  { apply reachable_run_ops. vm_compute. repeat split. }
  apply (lease_exclusive 30 1 demo_policy _ "run-1" "worker-a" 10 100 demo_store demo_grant
    [OpCancel "run-1" "alice" 20] demo_policy_valid Hr eq_refl).
  - split; exact I.
  - repeat constructor.
  - discriminate.
  - lia.
Defined.
