(* ===== verification/DispatchAdmission.v ===== *)
(** * Fair, work-conserving admission

    An abstract specification of a round of admissions and the refinement
    theorem for [_release_and_admit_waiting_locked]; idempotent creation and
    retry of runs. *)
From stdpp Require Import base list sets strings relations.
From Stdlib Require Import ZArith.
From S2P Require Import Prelude PyDict Dispatch DispatchRuntime DispatchInv DispatchEvolution.

Open Scope Z_scope.

(** ** The specification of an admission round *)

(** No waiting run can be admitted. *)
Definition saturated (st : store) : Prop :=
  forall k r, runs st !! k = Some r -> pr_status r = WAITING_CAPACITY ->
    can_admit st (pr_owner_id r) = false.

(** [run] is the fair choice: among the admissible waiters, its owner was
    admitted least recently, and it is the oldest one of such an owner. *)
Definition fair_choice (st : store) (run : ProductionRun) : Prop :=
  run ∈ admission_candidates st /\
  exists k, admission_key st run = Some k /\
    forall r kr, r ∈ admission_candidates st -> admission_key st r = Some kr ->
      k.1 < kr.1 \/ (k.1 = kr.1 /\ k.2 <= kr.2).

Inductive admission_round : store -> list ProductionRun -> store -> Prop :=
  | round_done st : saturated st -> admission_round st [] st
  | round_admit st run promoted st' :
      fair_choice st run -> admission_round (promote run st) promoted st' ->
      admission_round st (run_set_status run QUEUED true :: promoted) st'.

(** ** Lemmas *)

Lemma no_candidates_saturated st : store_ok st -> admission_candidates st = [] -> saturated st.
Proof.
  intros Hok Hnil k r Hk Hs. destruct (can_admit st (pr_owner_id r)) eqn:Ha; [|done].
  assert (Hin : r ∈ admission_candidates st); [|rewrite Hnil in Hin; set_solver].
  apply elem_of_candidates. split_and!; auto. by eapply dict_lookup_values.
Qed.

Lemma full_saturated st :
  (Z.of_nat (length (runnable_runs st)) <? max_global_runnable (queue_policy st)) = false ->
  saturated st.
Proof. intros Hf k r _ _. unfold can_admit. by rewrite Hf. Qed.

Lemma key_leb_lex k r k' r' :
  key_leb (k, r) (k', r') = true -> k.1 < k'.1 \/ (k.1 = k'.1 /\ k.2 <= k'.2).
Proof. unfold key_leb, pair_leb. simpl. case_match; rewrite ?Z.eqb_eq, ?Z.eqb_neq, Z.leb_le in *; lia. Qed.

Lemma admission_choice_fair st :
  store_ok st ->
  (admission_candidates st = [] /\ mapM (keyed st) (admission_candidates st) = Some []) \/
  exists ks k run, mapM (keyed st) (admission_candidates st) = Some ks /\
    min_by key_leb ks = Some (k, run) /\ fair_choice st run.
Proof.
  intros Hok. destruct (admission_choice st Hok)
    as [?|(ks & k & run & Hks & Hmin & Hrun & Hle)]; [by left|right].
  exists ks, k, run. split_and!; [done..|]. split; [done|].
  destruct (keyed_total st (admission_candidates st) Hok) as (ks' & Hks' & Hf).
  { intros r Hr. by apply elem_of_candidates in Hr as [? _]. }
  simplify_eq. apply min_by_Some in Hmin as [Hin _]; [|eauto using key_leb_total, key_leb_trans..].
  apply list_elem_of_lookup in Hin as [i Hi].
  destruct (Forall2_lookup_r _ _ _ _ _ Hf Hi) as (r & _ & Hkr).
  apply keyed_snd in Hkr as [Hr Hkey]. simpl in *. subst r. exists k. split; [done|].
  intros r kr Hr Hkr. eapply key_leb_lex, Hle; eauto.
Qed.

(** Promoting a waiter leaves one waiter less. *)
Lemma waiting_promote st run :
  store_ok st -> run ∈ admission_candidates st ->
  dcount waiting (runs st) = S (dcount waiting (runs (promote run st))).
Proof.
  intros Hok (Hv & Hs & _)%elem_of_candidates. apply ok_run_values in Hv; [|done].
  pose proof (dcount_insert_Some _ _ (run_set_status run QUEUED true) _ waiting Hv) as H.
  unfold waiting in H at 2 4. simpl in H. rewrite Hs in H. simpl in H.
  cbn [promote runs]. lia.
Qed.

(** With more fuel than waiters the loop is a round of the specification. *)
Lemma admit_loop_round fuel p st :
  store_ok st -> (dcount waiting (runs st) < fuel)%nat ->
  exists l st', admit_loop fuel p st = (st', Ok (p ++ l)) /\ admission_round st l st'.
Proof.
  revert p st. induction fuel as [|fuel IH]; intros p st Hok Hfuel; [lia|]. cbn [admit_loop].
  case_match eqn:Hfull.
  - destruct (admission_choice_fair st Hok) as [[Hnil ->]|(ks & k & run & -> & -> & Hfair)].
    + exists [], st. rewrite app_nil_r. split; [done|]. constructor. by apply no_candidates_saturated.
    + assert (Hrun : run ∈ admission_candidates st) by apply Hfair.
      pose proof (waiting_promote st run Hok Hrun).
      destruct (IH (p ++ [run_set_status run QUEUED true]) (promote run st)) as (l & st' & Hl & Hround);
        [by apply store_ok_promote|lia|].
      exists (run_set_status run QUEUED true :: l), st'.
      rewrite Hl, <- app_assoc. split; [done|]. by constructor.
  - exists [], st. rewrite app_nil_r. split; [done|]. constructor. by apply full_saturated.
Qed.

Lemma admission_round_saturated st l st' : admission_round st l st' -> saturated st'.
Proof. by induction 1. Qed.


(** Two owners wait behind one slot; the first run is cancelled. *)
Definition round_ops : list op :=
  [OpCreate "run-1" "t" "alice" "START" 0 "u1"; OpCreate "run-2" "t" "alice" "START" 0 "u2";
   OpCreate "run-3" "t" "bob" "START" 0 "u3"; OpCancel "run-1" "alice" 5].
Definition round_policy : QueuePolicy := mkQueuePolicy 1 1.


(** ** Idempotent creation *)

Section first_match.
Context {K V : Type} `{EqDecision K} (p : V -> bool).

Definition first_match (d : dict K V) : option V :=
  match List.filter p (values d) with v :: _ => Some v | [] => None end.

(** Updating a key in place, or appending one, keeps the first match. *)
Lemma first_match_insert (d : dict K V) k v x :
  first_match d = Some x -> (d !! k = None \/ exists old, d !! k = Some old /\ p old = p v) ->
  first_match (<[k := v]> d) = Some x \/
  (d !! k = Some x /\ first_match (<[k := v]> d) = Some v).
Proof.
  unfold first_match, values, lookup, dict_lookup, insert, dict_insert; simpl.
  induction (items d) as [|[k1 v1] l IH]; csimpl; [done|].
  destruct (decide (k = k1)) as [->|Hne]; csimpl.
  - intros Hx [?|(old & [= <-] & Hp)]; [done|]. rewrite <- Hp.
    destruct (p v1); simplify_eq; auto.
  - intros Hx Hk. destruct (p v1); simplify_eq; auto.
Qed.
End first_match.

Lemma first_message_for_match st k :
  first_message_for st k = first_match (fun m => bool_decide (ob_aggregate_id m = k)) (outbox st).
Proof. done. Qed.

(** The identifier of the first message of a run. *)
Definition first_message_id (st : store) (k : string) : option string :=
  ob_message_id <$> first_message_for st k.

Lemma first_message_id_insert st i m k x :
  store_ok st -> first_message_id st k = Some x ->
  (outbox st !! i = None \/ exists old, outbox st !! i = Some old /\
     ob_aggregate_id old = ob_aggregate_id m /\ ob_message_id old = ob_message_id m) ->
  first_message_id (set_outbox (<[i := m]> (outbox st)) st) k = Some x.
Proof.
  unfold first_message_id. rewrite !first_message_for_match. cbn [outbox set_outbox].
  intros Hok (y & Hy & ->)%fmap_Some Hi.
  destruct (first_match_insert (fun m => bool_decide (ob_aggregate_id m = k)) (outbox st) i m y Hy)
    as [->|[Hold ->]]; [|done|].
  - destruct Hi as [?|(old & ? & Ha & _)]; [by left|right].
    exists old. split; [done|]. simpl. by rewrite Ha.
  - destruct Hi as [?|(old & Hi & Ha & Hm)]; [congruence|]. simpl. congruence.
Qed.

Lemma first_message_id_outbox st st' k :
  outbox st' = outbox st -> first_message_id st' k = first_message_id st k.
Proof. unfold first_message_id, first_message_for. by intros ->. Qed.

Lemma claim_loop_first p now ttl limit cands claimed st k x :
  store_ok st -> (forall m, m ∈ cands -> outbox st !! ob_message_id m = Some m) ->
  NoDup (ob_message_id <$> cands) -> first_message_id st k = Some x ->
  first_message_id (claim_loop p now ttl limit cands claimed st).1 k = Some x.
Proof.
  revert claimed st. induction cands as [|m rest IH]; intros claimed st Hok Hin Hnd Hx; simpl; [done|].
  case_match; [done|]. case_match; [|done].
  apply NoDup_cons in Hnd as [Hm Hnd].
  case_match; [apply IH; auto; set_solver|].
  assert (Hmid : outbox st !! ob_message_id m = Some m) by (apply Hin; set_solver).
  apply IH; auto.
  - eapply store_ok_set_message; eauto. by apply (ok_message_id _ Hok) in Hmid as (? & ? & ? & ?).
  - intros m' Hm'. cbn [outbox set_outbox].
    rewrite dict_lookup_insert_ne; [apply Hin; set_solver|].
    intros E. apply Hm. rewrite E. by apply list_elem_of_fmap_2.
  - apply first_message_id_insert; auto. right. by exists m.
Qed.

Lemma recover_loop_first now grace limit u cands created st k x :
  store_ok st -> (forall r, r ∈ cands -> is_Some (runs st !! pr_run_id r)) ->
  (forall i, (length created <= i)%nat -> outbox st !! outbox_id (u i) = None) ->
  (forall i j, outbox_id (u i) = outbox_id (u j) -> i = j) ->
  first_message_id st k = Some x ->
  first_message_id (recover_loop now grace limit u cands created st).1 k = Some x.
Proof.
  intros Hok Hin Hfresh Hinj. revert created st Hok Hin Hfresh.
  induction cands as [|r rest IH]; intros created st Hok Hin Hfresh Hx; simpl; [done|].
  case_match; [done|]. case_match; [apply IH; auto; set_solver|].
  apply IH.
  - apply store_ok_add_message; simpl; auto; [|lia]. apply Hin. set_solver.
  - intros r' Hr'. apply Hin. set_solver.
  - intros i Hi. rewrite length_app in Hi. simpl in Hi. cbn [outbox set_outbox].
    rewrite dict_lookup_insert_ne; [apply Hfresh; lia|]. intros E%Hinj. lia.
  - apply first_message_id_insert; auto.
Qed.

Lemma create_first r t o reason now u st k x :
  store_ok st -> outbox st !! outbox_id u = None -> first_message_id st k = Some x ->
  first_message_id (create_run_dispatch r t o reason now u st).1 k = Some x.
Proof.
  intros Hok Hf Hx. unfold create_run_dispatch. destruct (runs st !! r); [by case_match|].
  rewrite <- (first_message_id_insert st (outbox_id u) (new_message (outbox_id u) r reason 1 now) k x);
    auto.
Qed.

Lemma admit_loop_outbox fuel p st : outbox (admit_loop fuel p st).1 = outbox st.
Proof. by destruct (admit_loop_frame fuel p st) as (d & last & turn & ->). Qed.

Lemma complete_run_outbox g s st : outbox (complete_run g s st).1 = outbox st.
Proof. by destruct (complete_run_frame g s st) as (d & last & turn & ->). Qed.

Lemma step_first_message st st' k x :
  store_ok st -> step st st' -> first_message_id st k = Some x -> first_message_id st' k = Some x.
Proof.
  intros Hok [[] Hf] Hx; cbn [apply_op op_fresh] in *; auto using create_first.
  - apply claim_loop_first; auto.
    + intros m Hm%elem_of_sort_by. by apply ok_outbox_values.
    + rewrite (sort_by_perm outbox_leb). by apply ok_outbox_ids.
  - unfold mark_outbox_published. repeat case_match; try done. apply first_message_id_insert; eauto 6.
  - unfold mark_outbox_failed. case_match; [|done]. case_match; [|done]. apply first_message_id_insert; eauto 6.
  - unfold request_cancellation. by repeat case_match.
  - unfold retry_run. destruct (command_idempotency st !! _) as [[h' k']|].
    + case_match; [by rewrite get_run_store|done].
    + case_match; [|done]. case_match; [done|].
      destruct (pr_status p); try done;
        (pose proof (create_first ("run-" +:+ run_uuid) (pr_task_id p) owner_id "RETRY" now
           message_uuid st k x Hok Hf Hx) as H1;
         destruct (create_run_dispatch _ _ _ _ _ _ st) as [st1 [m|e']]; simpl in *; [|done];
         by rewrite get_run_store).
  - unfold acquire_run. by repeat case_match.
  - by rewrite <- Hx; apply first_message_id_outbox, complete_run_outbox.
  - rewrite <- Hx. apply first_message_id_outbox, admit_loop_outbox.
  - unfold heartbeat. by repeat case_match.
  - unfold record_inbox. by case_match.
  - destruct Hf as [Hf Hinj]. apply recover_loop_first; auto.
    intros r Hr%elem_of_sort_by. apply ok_run_values in Hr; eauto.
Qed.

Lemma steps_first_message st st' k x :
  store_ok st -> steps st st' -> first_message_id st k = Some x -> first_message_id st' k = Some x.
Proof.
  intros Hok Hs. revert Hok. induction Hs; eauto using step_first_message with prd.
Qed.

(** The first message of a run just created. *)
Lemma create_first_message r t o reason now u st :
  store_ok st -> outbox st !! outbox_id u = None -> runs st !! r = None ->
  first_message_id (create_run_dispatch r t o reason now u st).1 r = Some (outbox_id u).
Proof.
  intros Hok Hf Hr. unfold create_run_dispatch. rewrite Hr. cbn [fst].
  unfold first_message_id, first_message_for, values. cbn [outbox].
  assert (Hold : forall m, m ∈ values (outbox st) -> ob_aggregate_id m <> r).
  { intros m Hm <-. apply ok_outbox_values in Hm; [|done].
    apply (ok_message_id _ Hok) in Hm as (_ & [? ?] & _). congruence. }
  revert Hf Hold. unfold values, lookup, dict_lookup, insert, dict_insert. simpl.
  induction (items (outbox st)) as [|[i m] l IH]; csimpl.
  - intros _ _. by rewrite bool_decide_eq_true_2.
  - case_decide; [done|]. intros Hf Hold. csimpl.
    rewrite bool_decide_eq_false_2 by (apply Hold; set_solver). apply IH; set_solver.
Qed.

(** Creating a run is idempotent over time: after a successful creation
    and any further operations, creating the same run again changes nothing
    and answers the same dispatch message. *)
Theorem dispatch_idempotent gl ow policy st r t o reason now u st1 m st2 t' o' reason' now' u' :
  QueuePolicy_new gl ow = Ok policy -> reachable policy st ->
  runs st !! r = None -> outbox st !! outbox_id u = None ->
  create_run_dispatch r t o reason now u st = (st1, Ok m) -> steps st1 st2 ->
  exists m', create_run_dispatch r t' o' reason' now' u' st2 = (st2, Ok m') /\
    ob_message_id m' = ob_message_id m.
Proof.
  intros Hp Hreach Hr Hf Hc Hs. destruct (reachable_ok _ _ _ _ Hp Hreach) as [Hok _].
  pose proof (store_ok_create st r t o reason now u Hok Hf) as Hok1.
  pose proof (create_first_message r t o reason now u st Hok Hf Hr) as Hfst.
  pose proof (create_run_dispatch_run _ _ _ _ _ _ _ _ _ Hc) as [x Hx].
  assert (Hm : ob_message_id m = outbox_id u).
  { unfold create_run_dispatch in Hc. rewrite Hr in Hc. by injection Hc as _ <-. }
  rewrite Hc in Hok1, Hfst. simpl in *.
  destruct (steps_evolve _ _ Hok1 Hs _ _ Hx) as (y & Hy & _).
  pose proof (steps_first_message _ _ _ _ Hok1 Hs Hfst) as (m' & Hm' & Hid)%fmap_Some.
  exists m'. unfold create_run_dispatch. rewrite Hy, Hm'. split; [done|]. congruence.
Qed.

Lemma dispatch_idempotent_witness :
  exists m', create_run_dispatch "run-1" "t" "alice" "START" 9 "zz"
    (create_run_dispatch "run-1" "t" "alice" "START" 0 "u1" (init_store round_policy)).1
  = ((create_run_dispatch "run-1" "t" "alice" "START" 0 "u1" (init_store round_policy)).1, Ok m')
  /\ ob_message_id m' = "outbox-u1".
Proof.
  apply (dispatch_idempotent 1 1 round_policy (init_store round_policy) "run-1" "t" "alice" "START" 0 "u1"
    _ (new_message "outbox-u1" "run-1" "START" 1 0) _ "t" "alice" "START" 9 "zz"
    eq_refl (reachable_init _) eq_refl eq_refl eq_refl (rtc_refl _ _)).
Defined.
