(* ===== verification/DispatchOutbox.v ===== *)
(** * The outbox: delivery, retry and recovery

    Exclusive claims, what [OutboxPublisher.publish_once] does with every
    message it claims for an arbitrary broker, that settled messages never
    change, idempotent retry, and what the reference store does with the
    wake-ups of runs that are not QUEUED. *)
From stdpp Require Import base list sets strings relations.
From Stdlib Require Import ZArith.
From S2P Require Import Prelude.
From S2P Require Import PyDict.
From S2P Require Import Dispatch.
From S2P Require Import DispatchRuntime.
From S2P Require Import DispatchInv.
From S2P Require Import DispatchEvolution.
From S2P Require Import DispatchAdmission.

Open Scope Z_scope.

(** ** What a claim does *)

(** [m] was claimable at [now] in [st]. *)
Definition claimable (st : store) (m : OutboxMessage) (now : Z) : Prop :=
  outbox st !! ob_message_id m = Some m /\
  exists run, runs st !! ob_aggregate_id m = Some run /\ claim_skip m run now = false.

Lemma claim_skip_false m run now :
  claim_skip m run now = false ->
  ob_published_at m = None /\ ob_quarantined_at m = None /\ ob_available_at m <= now /\
  later_than (ob_lease_expires_at m) now = false /\ pr_status run = QUEUED.
Proof.
  unfold claim_skip. destruct (ob_published_at m), (ob_quarantined_at m); simpl; try done.
  intros [[Ha Hl]%orb_false_iff Hq]%orb_false_iff.
  apply negb_false_iff, bool_decide_eq_true in Hq. split_and!; auto. lia.
Qed.

Definition leased (p : string) (expires : Z) (m : OutboxMessage) : OutboxMessage :=
  msg_set_lease m (Some p) (Some expires).

Lemma claim_loop_spec p now ttl limit cands claimed st :
  store_ok st -> (forall m, m ∈ cands -> outbox st !! ob_message_id m = Some m) ->
  NoDup (ob_message_id <$> cands) -> (Z.of_nat (length claimed) <= Z.max 0 limit) ->
  exists taken st',
    claim_loop p now ttl limit cands claimed st = (st', Ok (claimed ++ (leased p (now + ttl) <$> taken))) /\
    Z.of_nat (length claimed + length taken) <= Z.max 0 limit /\
    sublist taken cands /\
    (forall m, m ∈ taken -> claimable st m now /\
       outbox st' !! ob_message_id m = Some (leased p (now + ttl) m)) /\
    (forall i, i ∉ (ob_message_id <$> taken) -> outbox st' !! i = outbox st !! i) /\
    runs st' = runs st.
Proof.
  revert claimed st. induction cands as [|m rest IH]; intros claimed st Hok Hin Hnd Hlen; cbn [claim_loop].
  { exists [], st. rewrite app_nil_r. split_and!; auto; simpl; try lia; set_solver. }
  apply NoDup_cons in Hnd as [Hm Hnd].
  assert (Hmid : outbox st !! ob_message_id m = Some m) by (apply Hin; set_solver).
  destruct (limit <=? Z.of_nat (length claimed)) eqn:Hlim.
  { exists [], st. rewrite app_nil_r. split_and!; auto using sublist_nil_l; simpl; try lia; set_solver. }
  destruct (ok_message_id _ Hok _ _ Hmid) as (_ & [run Hrun] & _ & Hatt). rewrite Hrun.
  destruct (claim_skip m run now) eqn:Hskip.
  - destruct (IH claimed st) as (taken & st' & ? & ? & ? & ? & ? & ?); auto; [set_solver|].
    exists taken, st'. split_and!; auto. by apply sublist_cons.
  - set (st1 := set_outbox _ st). apply Z.leb_gt in Hlim.
    assert (Hother : forall i, i <> ob_message_id m -> outbox st1 !! i = outbox st !! i).
    { intros i Hi. subst st1. cbn [outbox set_outbox]. by rewrite dict_lookup_insert_ne. }
    assert (Hne : forall m', m' ∈ rest -> ob_message_id m' <> ob_message_id m).
    { intros m' Hm' E. apply Hm. rewrite <- E. by apply list_elem_of_fmap_2. }
    destruct (IH (claimed ++ [leased p (now + ttl) m]) st1) as (taken & st' & Heq & Hl & Hsub & Ht & Ho & Hr).
    + eapply store_ok_set_message; eauto.
    + intros m' Hm'. rewrite Hother; [|by apply Hne]. apply Hin. set_solver.
    + done.
    + rewrite length_app. simpl. lia.
    + exists (m :: taken), st'. change (msg_set_lease m (Some p) (Some (now + ttl)))
        with (leased p (now + ttl) m). rewrite Heq, <- app_assoc. rewrite length_app in Hl. simpl in *.
      assert (Hmt : ob_message_id m ∉ (ob_message_id <$> taken)).
      { intros (x & E & Hx)%list_elem_of_fmap. apply (Hne x); [|done].
        by eapply elem_of_sublist. }
      split_and!; [done|lia|by apply sublist_skip| |intros i Hi; rewrite Ho, Hother; set_solver|done].
      intros x [->|Hx]%elem_of_cons.
      * split; [split; eauto|]. rewrite Ho by done. subst st1. cbn [outbox set_outbox].
        apply dict_lookup_insert_eq.
      * destruct (Ht x Hx) as [(Hc1 & run' & Hc2 & Hc3) Hx']. split; [|done].
        assert (x ∈ rest) by (by eapply elem_of_sublist).
        split; [rewrite <- Hother; auto|]. by exists run'.
Qed.

(** [claim_outbox] as a specification of the messages it takes. *)
Lemma claim_outbox_spec p now ttl limit st :
  store_ok st ->
  exists taken st',
    claim_outbox p now ttl limit st = (st', Ok (leased p (now + ttl) <$> taken)) /\
    Z.of_nat (length taken) <= Z.max 0 limit /\
    NoDup (ob_message_id <$> taken) /\
    (forall m, m ∈ taken -> claimable st m now /\
       outbox st' !! ob_message_id m = Some (leased p (now + ttl) m)) /\
    (forall i, i ∉ (ob_message_id <$> taken) -> outbox st' !! i = outbox st !! i) /\
    runs st' = runs st.
Proof.
  intros Hok.
  assert (Hnd : NoDup (ob_message_id <$> sort_by outbox_leb (values (outbox st)))).
  { rewrite (sort_by_perm outbox_leb). by apply ok_outbox_ids. }
  destruct (claim_loop_spec p now ttl limit (sort_by outbox_leb (values (outbox st))) [] st)
    as (taken & st' & Heq & Hlen & Hsub & Ht & Ho & Hr); auto; [|simpl; lia|].
  - intros m Hm%elem_of_sort_by. by apply ok_outbox_values.
  - exists taken, st'. split_and!; auto.
    eapply sublist_NoDup; [exact Hnd|]. by apply fmap_sublist.
Qed.

(** ** Exclusive claims *)

(** Publisher [p] holds message [i] until [expires]. *)
Definition message_held (i p : string) (expires : Z) (st : store) : Prop :=
  exists m, outbox st !! i = Some m /\ ob_lease_owner m = Some p /\
    ob_lease_expires_at m = Some expires.

(** Operations of other publishers before the lease expires. *)
Definition leaves_message (i p : string) (expires : Z) (o : op) : Prop :=
  match o with
  | OpClaim _ now _ _ => now < expires
  | OpPublished i' p' _ | OpFailed i' p' _ _ => i' = i -> p' <> p
  | _ => True
  end.

(** The operations that cannot touch message [i] when its value is [m]. *)
Definition keeps_message (i : string) (m : OutboxMessage) (st : store) (o : op) : Prop :=
  match o with
  | OpClaim _ now _ _ => forall run, runs st !! ob_aggregate_id m = Some run -> claim_skip m run now = true
  | OpPublished i' p' _ | OpFailed i' p' _ _ => i' = i -> ob_lease_owner m <> Some p'
  | _ => True
  end.

Lemma create_keeps_message i m r t o reason now u st :
  outbox st !! outbox_id u = None -> outbox st !! i = Some m ->
  outbox (create_run_dispatch r t o reason now u st).1 !! i = Some m.
Proof.
  intros Hf Hi. unfold create_run_dispatch. destruct (runs st !! r); [by case_match|].
  cbn [fst outbox]. rewrite dict_lookup_insert_ne; [done|]. congruence.
Qed.

Lemma recover_keeps_message i m now grace limit u cands created st :
  (forall n, (length created <= n)%nat -> outbox st !! outbox_id (u n) = None) ->
  (forall n j, outbox_id (u n) = outbox_id (u j) -> n = j) ->
  outbox st !! i = Some m ->
  outbox (recover_loop now grace limit u cands created st).1 !! i = Some m.
Proof.
  intros Hfresh Hinj. revert created st Hfresh.
  induction cands as [|r rest IH]; intros created st Hfresh Hi; simpl; [done|].
  case_match; [done|]. case_match; [by apply IH|]. apply IH; cbn [outbox set_outbox].
  - intros n Hn. rewrite length_app in Hn. simpl in Hn.
    rewrite dict_lookup_insert_ne; [apply Hfresh; lia|]. intros E%Hinj. lia.
  - rewrite dict_lookup_insert_ne; [done|]. intros <-. rewrite Hfresh in Hi; [done|lia].
Qed.

Lemma retry_outbox r o now key h u1 u2 st :
  outbox (retry_run r o now key h u1 u2 st).1 = outbox st \/
  exists t, outbox (retry_run r o now key h u1 u2 st).1 =
    outbox (create_run_dispatch ("run-" +:+ u1) t o "RETRY" now u2 st).1.
Proof.
  unfold retry_run. destruct (command_idempotency st !! _) as [[h' k']|].
  - left. case_match; [by rewrite get_run_store|done].
  - case_match; [|by left]. case_match; [by left|].
    destruct (pr_status p); try (by left); right; exists (pr_task_id p);
      destruct (create_run_dispatch _ _ _ _ _ _ st) as [st1 [m|e']]; simpl; try done;
      by rewrite get_run_store.
Qed.

Lemma op_keeps_message i m o st :
  store_ok st -> op_fresh o st -> keeps_message i m st o ->
  outbox st !! i = Some m -> outbox (apply_op o st) !! i = Some m.
Proof.
  intros Hok Hf Hk Hi. destruct o; cbn [apply_op keeps_message op_fresh] in *;
    auto using create_keeps_message.
  - destruct (claim_outbox_spec publisher now lease_ttl limit st Hok)
      as (taken & st' & -> & _ & _ & Ht & Ho & _).
    cbn [fst]. rewrite Ho; [done|]. intros (x & E & Hx)%list_elem_of_fmap.
    destruct (Ht x Hx) as [(Hx' & run & Hrun & Hs) _]. rewrite <- E, Hi in Hx'. simplify_eq.
    by rewrite Hk in Hs.
  - unfold mark_outbox_published. case_match eqn:Hm; [|done]. case_match eqn:Hb; [|done].
    apply bool_decide_eq_true in Hb. cbn [fst outbox set_outbox].
    rewrite dict_lookup_insert_ne; [done|]. intros ->. simplify_eq. by apply Hk.
  - unfold mark_outbox_failed. case_match eqn:Hm; [|done]. case_match eqn:Hb; [|done].
    apply bool_decide_eq_true in Hb. cbn [fst outbox set_outbox].
    rewrite dict_lookup_insert_ne; [done|]. intros ->. simplify_eq. by apply Hk.
  - unfold request_cancellation. by repeat case_match.
  - destruct (retry_outbox run_id owner_id now key hash run_uuid message_uuid st) as [->|[t ->]];
      auto using create_keeps_message.
  - unfold acquire_run. by repeat case_match.
  - by rewrite complete_run_outbox.
  - unfold admit_waiting_runs, release_and_admit_waiting. by rewrite admit_loop_outbox.
  - unfold heartbeat. by repeat case_match.
  - unfold record_inbox. by case_match.
  - destruct Hf as [Hf Hinj]. by apply recover_keeps_message.
Qed.

Lemma held_skipped m e now run :
  ob_lease_expires_at m = Some e -> now < e -> claim_skip m run now = true.
Proof.
  intros He Hn. unfold claim_skip, later_than. rewrite He.
  assert ((now <? e) = true) as -> by lia. by rewrite !orb_true_r.
Qed.

Lemma message_held_op i p e o st :
  store_ok st -> op_fresh o st -> leaves_message i p e o ->
  message_held i p e st -> message_held i p e (apply_op o st).
Proof.
  intros Hok Hf Hl (m & Hm & Hp & He). exists m. split; [|done]. apply op_keeps_message; auto.
  destruct o; cbn [keeps_message leaves_message] in *; auto.
  - intros run _. by eapply held_skipped.
  - intros E. rewrite Hp. specialize (Hl E). congruence.
  - intros E. rewrite Hp. specialize (Hl E). congruence.
Qed.

Lemma held_not_claimable i p e st m now :
  message_held i p e st -> now < e -> claimable st m now -> ob_message_id m <> i.
Proof.
  intros (x & Hx & _ & He) Hn (Hm & run & _ & Hs) E. rewrite E in Hm. simplify_eq.
  by rewrite (held_skipped _ e) in Hs.
Qed.

Lemma message_held_ops i p e os st :
  store_ok st -> ops_fresh os st -> Forall (leaves_message i p e) os ->
  message_held i p e st -> store_ok (run_ops os st) /\ message_held i p e (run_ops os st).
Proof.
  revert st. induction os as [|o os IH]; intros st Hok Hf Hl Hh; [done|].
  destruct Hf as [Ho Hf]. apply Forall_cons in Hl as [Hl Hls].
  apply IH; auto using message_held_op. eapply step_store_ok; [done|by constructor].
Qed.

(** a claim takes at most [limit] messages, each of them unpublished,
    not quarantined, due, and of a QUEUED run; and until the claim expires,
    whatever other threads do, no later claim returns one of its messages, so
    two publishers never work on the same message. *)
Theorem claim_exclusive gl ow policy st p now ttl limit st1 l os q now' ttl' limit' st2 l' :
  QueuePolicy_new gl ow = Ok policy -> reachable policy st ->
  claim_outbox p now ttl limit st = (st1, Ok l) ->
  ops_fresh os st1 -> Forall (fun o => forall i, leaves_message i p (now + ttl) o) os ->
  now' < now + ttl -> claim_outbox q now' ttl' limit' (run_ops os st1) = (st2, Ok l') ->
  Z.of_nat (length l) <= Z.max 0 limit /\
  (forall m, m ∈ l -> exists m0 run, outbox st !! ob_message_id m = Some m0 /\
     m = leased p (now + ttl) m0 /\ ob_published_at m0 = None /\ ob_quarantined_at m0 = None /\
     ob_available_at m0 <= now /\ runs st !! ob_aggregate_id m0 = Some run /\ pr_status run = QUEUED) /\
  (forall m m', m ∈ l -> m' ∈ l' -> ob_message_id m <> ob_message_id m').
Proof.
  intros Hp Hr Hc Hf Hl Hn Hc'. destruct (reachable_ok _ _ _ _ Hp Hr) as [Hok _].
  pose proof (store_ok_claim p now ttl limit st Hok) as Hok1. rewrite Hc in Hok1. simpl in Hok1.
  destruct (claim_outbox_spec p now ttl limit st Hok) as (taken & st' & Heq & Hlen & _ & Ht & _ & _).
  rewrite Hc in Heq. simplify_eq. rewrite length_fmap. split_and!; [done| |].
  - intros m (m0 & -> & Hm0)%list_elem_of_fmap. destruct (Ht m0 Hm0) as [(H1 & run & H2 & H3) _].
    apply claim_skip_false in H3 as (? & ? & ? & _ & ?). exists m0, run. by split_and!.
  - intros m m' (m0 & -> & Hm0)%list_elem_of_fmap Hm'. simpl.
    destruct (message_held_ops (ob_message_id m0) p (now + ttl) os st' Hok1 Hf) as [Hok2 Hheld].
    { eapply Forall_impl; [exact Hl|]. auto. }
    { eexists. split; [by apply Ht|]. done. }
    destruct (claim_outbox_spec q now' ttl' limit' _ Hok2) as (tk & st3 & Heq & _ & _ & Ht' & _).
    rewrite Hc' in Heq. simplify_eq.
    apply list_elem_of_fmap in Hm' as (m1 & -> & Hm1). simpl. intros E. symmetry in E. revert E.
    eapply held_not_claimable; [exact Hheld|done|by apply Ht'].
Qed.

Definition claim_policy : QueuePolicy := mkQueuePolicy 2 2.
Definition claim_store : store :=
  run_ops [OpCreate "run-1" "t" "alice" "START" 0 "u1"; OpCreate "run-2" "t" "bob" "START" 0 "u2"]
    (init_store claim_policy).

Lemma claim_exclusive_witness :
  let st1 := (claim_outbox "pub-a" 10 30 1 claim_store).1 in
  exists l, claim_outbox "pub-a" 10 30 1 claim_store = (st1, Ok l) /\ length l = 1%nat /\
    forall m m', m ∈ l ->
      m' ∈ [leased "pub-b" 60 (new_message "outbox-u2" "run-2" "START" 1 0)] ->
      ob_message_id m <> ob_message_id m'.
Proof.
  intros st1. assert (Hr : reachable claim_policy claim_store).
  { apply reachable_run_ops. vm_compute. repeat split. }
  eexists. split; [reflexivity|]. split; [reflexivity|].
  eapply (claim_exclusive 2 2 claim_policy claim_store "pub-a" 10 30 1 st1 _ [] "pub-b" 20 40 5 _ _
    eq_refl Hr eq_refl I); [constructor|lia|reflexivity].
Defined.

(** ** Publishing *)

(** The two ways a claimed message is settled by one pass. *)
Definition published_form (now : Z) (m : OutboxMessage) : OutboxMessage :=
  mkOutboxMessage (ob_message_id m) (ob_aggregate_id m) (ob_aggregate_version m) (ob_topic m)
    (ob_payload_version m) (ob_command m) (ob_available_at m) (ob_attempts m) (Some now) None None
    (ob_quarantined_at m).

Definition failed_form (now max_attempts : Z) (m : OutboxMessage) : OutboxMessage :=
  mkOutboxMessage (ob_message_id m) (ob_aggregate_id m) (ob_aggregate_version m) (ob_topic m)
    (ob_payload_version m) (ob_command m) (now + backoff (ob_attempts m + 1)) (ob_attempts m + 1)
    (ob_published_at m) None None
    (if max_attempts <=? ob_attempts m + 1 then Some now else None).

Definition settled_form (now max_attempts : Z) (m : OutboxMessage) (accepted : bool) : OutboxMessage :=
  if accepted then published_form now m else failed_form now max_attempts m.

Lemma backoff_bounds n : 0 <= n -> 1000000 <= backoff n <= 300000000.
Proof.
  intros Hn. unfold backoff. assert (0 < 2 ^ n) by (apply Z.pow_pos_nonneg; lia). lia.
Qed.

Section publish.
Context {B : Type} (broker : RunCommand -> B -> B * bool).
Context (p : string) (ttl max_attempts now : Z).

Lemma publish_loop_spec l n b st :
  (forall m, m ∈ l -> outbox st !! ob_message_id m = Some m /\ ob_lease_owner m = Some p) ->
  NoDup (ob_message_id <$> l) ->
  exists b' st' oks,
    publish_loop broker p max_attempts now l n b st
      = (b', st', Ok (n + Z.of_nat (length (List.filter (fun x => x) oks)))) /\
    Forall2 (fun m ok => outbox st' !! ob_message_id m = Some (settled_form now max_attempts m ok)) l oks /\
    (forall i, i ∉ (ob_message_id <$> l) -> outbox st' !! i = outbox st !! i).
Proof.
  revert n b st. induction l as [|m l IH]; intros n b st Hin Hnd.
  { exists b, st, []. simpl. rewrite Z.add_0_r. by split_and!. }
  apply NoDup_cons in Hnd as [Hm Hnd].
  destruct (Hin m) as [Hmid Hown]; [set_solver|].
  set (upd := fun x : OutboxMessage => set_outbox (<[ob_message_id m := x]> (outbox st)) st).
  assert (Hstep : forall x n' b',
    ob_message_id x = ob_message_id m ->
    exists b'' st' oks, publish_loop broker p max_attempts now l n' b' (upd x)
      = (b'', st', Ok (n' + Z.of_nat (length (List.filter (fun y => y) oks)))) /\
    Forall2 (fun m ok => outbox st' !! ob_message_id m = Some (settled_form now max_attempts m ok)) l oks /\
    outbox st' !! ob_message_id m = Some x /\
    (forall i, i ∉ (ob_message_id <$> m :: l) -> outbox st' !! i = outbox st !! i)).
  { intros x n' b' Hx. destruct (IH n' b' (upd x)) as (b'' & st' & oks & Heq & Hf & Ho); [|done|].
    - intros m' Hm'. cbn [upd outbox set_outbox]. rewrite dict_lookup_insert_ne; [apply Hin; set_solver|].
      intros E. apply Hm. rewrite E. by apply list_elem_of_fmap_2.
    - exists b'', st', oks. split_and!; auto.
      + rewrite Ho by done. cbn [upd outbox set_outbox]. apply dict_lookup_insert_eq.
      + intros i Hi. rewrite Ho by set_solver. cbn [upd outbox set_outbox].
        rewrite dict_lookup_insert_ne; [done|set_solver]. }
  cbn [publish_loop]. destruct (broker (ob_command m) b) as [b' []].
  - unfold mark_outbox_published. rewrite Hmid, bool_decide_eq_true_2 by done.
    destruct (Hstep (published_form now m) (n + 1) b' eq_refl) as (b'' & st' & oks & Heq & Hf & Hx & Ho).
    exists b'', st', (true :: oks). unfold upd, published_form in Heq. rewrite Heq.
    split_and!; [f_equal; f_equal; simpl; lia|by constructor|done].
  - unfold mark_outbox_failed. rewrite Hmid, bool_decide_eq_true_2 by done.
    destruct (Hstep (failed_form now max_attempts m) n b' eq_refl) as (b'' & st' & oks & Heq & Hf & Hx & Ho).
    exists b'', st', (false :: oks). unfold upd, failed_form in Heq. rewrite Heq.
    split_and!; [done|by constructor|done].
Qed.

(** One publishing pass accounts for every message it claims, whatever
    the broker does: at most [limit] messages are claimed, each one ends
    either published now, or with one more attempt, released, and due again
    between 1 and 300 seconds later (quarantined exactly when it has reached
    [max_attempts]); the count returned is the number of messages the broker
    accepted, and every other message is untouched. *)
Theorem publish_once_accounts gl ow policy limit b st :
  QueuePolicy_new gl ow = Ok policy -> reachable policy st ->
  exists taken oks b' st',
    publish_once broker p ttl max_attempts now limit b st
      = (b', st', Ok (Z.of_nat (length (List.filter (fun x => x) oks)))) /\
    Z.of_nat (length taken) <= Z.max 0 limit /\ length oks = length taken /\
    (forall m, m ∈ taken -> claimable st m now /\
       now + 1000000 <= ob_available_at (failed_form now max_attempts m) <= now + 300000000) /\
    Forall2 (fun m ok => outbox st' !! ob_message_id m
      = Some (settled_form now max_attempts (leased p (now + ttl) m) ok)) taken oks /\
    (forall i, i ∉ (ob_message_id <$> taken) -> outbox st' !! i = outbox st !! i).
Proof using Type.
  intros Hp Hr. destruct (reachable_ok _ _ _ _ Hp Hr) as [Hok _].
  destruct (claim_outbox_spec p now ttl limit st Hok) as (taken & st1 & Heq & Hlen & Hnd & Ht & Ho & _).
  assert (Hids : ob_message_id <$> (leased p (now + ttl) <$> taken) = ob_message_id <$> taken).
  { rewrite <- list_fmap_compose. by apply list_fmap_ext. }
  destruct (publish_loop_spec (leased p (now + ttl) <$> taken) 0 b st1) as (b' & st' & oks & Hl & Hf & Ho').
  - intros m (m0 & -> & Hm0)%list_elem_of_fmap. split; [by destruct (Ht m0 Hm0)|done].
  - by rewrite Hids.
  - exists taken, oks, b', st'. unfold publish_once. rewrite Heq, Hl.
    apply Forall2_fmap_l in Hf. split_and!; auto.
    + symmetry. by eapply Forall2_length.
    + intros m Hm. destruct (Ht m Hm) as [Hc _]. split; [done|]. destruct Hc as [Hmid _].
      apply (ok_message_id _ Hok) in Hmid as (_ & _ & _ & ?). simpl.
      pose proof (backoff_bounds (ob_attempts m + 1)). lia.
    + intros i Hi. rewrite Ho' by (by rewrite Hids). by apply Ho.
Qed.
End publish.

Lemma publish_once_accounts_witness :
  exists (oks : list bool) b' st',
    publish_once (fun _ b => (S b, Nat.even b)) "pub" 30 8 10 5 0%nat claim_store
      = (b', st', Ok (Z.of_nat (length (List.filter (fun x => x) oks)))) /\
    Z.of_nat (length oks) <= 5.
Proof.
  assert (Hr : reachable claim_policy claim_store).
  { apply reachable_run_ops. vm_compute. repeat split. }
  destruct (publish_once_accounts (fun _ b => (S b, Nat.even b)) "pub" 30 8 10 2 2 claim_policy 5 0%nat
    claim_store eq_refl Hr) as (taken & oks & b' & st' & H & Hn & Hl & _ & Hf & _).
  exists oks, b', st'. split; [exact H|]. rewrite Hl. exact Hn.
Defined.

(** ** Settled messages *)

(** A message that was published or quarantined and is not leased. *)
Definition settled (m : OutboxMessage) : Prop :=
  ob_lease_owner m = None /\ (is_Some (ob_published_at m) \/ is_Some (ob_quarantined_at m)).

Lemma settled_skipped m run now : settled m -> claim_skip m run now = true.
Proof.
  intros [_ [[t H]|[t H]]]; unfold claim_skip; rewrite H; [by rewrite bool_decide_eq_true_2 by eauto|].
  rewrite (bool_decide_eq_true_2 (is_Some (Some t))) by eauto. by rewrite orb_true_r.
Qed.

Lemma settled_step i m st st' :
  store_ok st -> settled m -> step st st' -> outbox st !! i = Some m -> outbox st' !! i = Some m.
Proof.
  intros Hok Hs [o Hf] Hi. apply op_keeps_message; auto. destruct Hs as [Hl Hs].
  destruct o; cbn [keeps_message]; auto; [|by rewrite Hl..].
  intros run _. by apply settled_skipped.
Qed.

(** A message is delivered at most once: once published or quarantined
    and released, it never changes again under any operations, no publisher
    can mark it published or failed, and no claim returns it. *)
Theorem settled_messages_final gl ow policy st st' i m p now ttl limit n :
  QueuePolicy_new gl ow = Ok policy -> reachable policy st ->
  outbox st !! i = Some m -> settled m -> steps st st' ->
  outbox st' !! i = Some m /\
  mark_outbox_published i p now st' = (st', Ok false) /\
  mark_outbox_failed i p now n st' = (st', Ok false) /\
  forall st2 l, claim_outbox p now ttl limit st' = (st2, Ok l) -> i ∉ (ob_message_id <$> l).
Proof.
  intros Hp Hr Hi Hs Hst. destruct (reachable_ok _ _ _ _ Hp Hr) as [Hok _].
  assert (Hi' : store_ok st' /\ outbox st' !! i = Some m).
  { clear Hr. induction Hst; eauto using settled_step with prd. }
  destruct Hi' as [Hok' Hi']. destruct Hs as [Hl Hs].
  split_and!; [done|unfold mark_outbox_published|unfold mark_outbox_failed|].
  1,2: rewrite Hi', bool_decide_eq_false_2; [done|congruence].
  intros st2 l Hc. destruct (claim_outbox_spec p now ttl limit st' Hok')
    as (taken & st3 & Heq & _ & _ & Ht & _). rewrite Hc in Heq. simplify_eq.
  rewrite <- list_fmap_compose. intros (x & E & Hx)%list_elem_of_fmap. simpl in E.
  destruct (Ht x Hx) as [(Hx' & run & _ & Hsk) _]. rewrite <- E, Hi' in Hx'. simplify_eq.
  rewrite settled_skipped in Hsk; [done|by split].
Qed.

Lemma settled_messages_final_witness :
  let st := run_ops [OpClaim "pub" 1 30 5; OpPublished "outbox-u1" "pub" 2] claim_store in
  mark_outbox_failed "outbox-u1" "pub" 9 8 st = (st, Ok false).
Proof.
  intros st. assert (Hr : reachable claim_policy st).
  { eapply reachable_steps; [apply reachable_run_ops|apply steps_run_ops]; vm_compute; repeat split. }
  destruct (outbox st !! "outbox-u1") as [m|] eqn:Hm; [|vm_compute in Hm; discriminate].
  assert (Hs : settled m) by (vm_compute in Hm; simplify_eq; split; [done|by left; eexists]).
  destruct (settled_messages_final 2 2 claim_policy st st "outbox-u1" m "pub" 9 0 0 8 eq_refl Hr Hm Hs
    (rtc_refl _ _)) as (_ & _ & H & _). exact H.
Defined.

(** ** Retry *)

Lemma create_idempotency r t o reason now u st :
  command_idempotency (create_run_dispatch r t o reason now u st).1 = command_idempotency st.
Proof. unfold create_run_dispatch. by repeat case_match. Qed.

Lemma step_replay st st' i v :
  step st st' -> command_idempotency st !! i = Some v -> command_idempotency st' !! i = Some v.
Proof.
  intros [[] Hf] Hi; cbn [apply_op].
  - by rewrite create_idempotency.
  - unfold claim_outbox. edestruct claim_loop_frame as [d ->]. done.
  - unfold mark_outbox_published. by repeat case_match.
  - unfold mark_outbox_failed. by repeat case_match.
  - unfold request_cancellation. by repeat case_match.
  - destruct (retry_run_frame run_id owner_id now key hash run_uuid message_uuid st) as [[e ->]|(t & d & -> & Hd)];
      [done|]. cbn [set_command_idempotency command_idempotency].
    destruct Hd as [Hnone Hd]. rewrite Hd; [done|congruence].
  - unfold acquire_run. by repeat case_match.
  - by destruct (complete_run_frame grant status st) as (d & last & turn & ->).
  - unfold admit_waiting_runs, release_and_admit_waiting.
    by destruct (admit_loop_frame (S (dcount waiting (runs st))) [] st) as (d & last & turn & ->).
  - unfold heartbeat. by repeat case_match.
  - unfold record_inbox. by case_match.
  - unfold enqueue_recoveries. edestruct recover_loop_frame as [d ->]. done.
Qed.

(** What a first successful retry leaves behind. *)
Lemma retry_run_Ok r o now key h u1 u2 st st1 run :
  command_idempotency st !! (o, key) = None ->
  retry_run r o now key h u1 u2 st = (st1, Ok run) ->
  (exists previous, runs st !! r = Some previous /\ pr_owner_id previous = o /\
     (pr_status previous = FAILED \/ pr_status previous = STOPPED)) /\
  command_idempotency st1 !! (o, key) = Some (h, "run-" +:+ u1) /\
  runs st1 !! ("run-" +:+ u1) = Some run.
Proof.
  intros Hk. unfold retry_run. rewrite Hk. destruct (runs st !! r) as [previous|] eqn:Hr; [|done].
  destruct (owned_by o previous) eqn:Ho; [|done]. apply bool_decide_eq_true in Ho. cbn [negb].
  destruct (pr_status previous) eqn:Hs; try done;
    destruct (create_run_dispatch _ _ _ _ _ _ st) as [st2 [m|e]]; try done;
    unfold get_run; cbn [set_command_idempotency runs]; case_match eqn:Hrun; intros [= <- <-];
    (split_and!; [by eauto 6|apply dict_lookup_insert_eq|exact Hrun]).
Qed.

(** A retry is performed once per idempotency key: it is accepted only
    for the owner's FAILED or STOPPED run, and after any further operations
    repeating the request with the same key and hash answers the same new run
    without touching the store, while another request hash under that key is
    rejected. *)
Theorem retry_idempotent gl ow policy st r o now key h u1 u2 st1 run st2 r' now' h' u1' u2' :
  QueuePolicy_new gl ow = Ok policy -> reachable policy st ->
  outbox st !! outbox_id u2 = None -> command_idempotency st !! (o, key) = None ->
  retry_run r o now key h u1 u2 st = (st1, Ok run) -> steps st1 st2 ->
  (exists previous, runs st !! r = Some previous /\ pr_owner_id previous = o /\
     (pr_status previous = FAILED \/ pr_status previous = STOPPED)) /\
  (exists run', retry_run r' o now' key h u1' u2' st2 = (st2, Ok run') /\ evolves run run') /\
  (h' <> h -> exists msg, retry_run r' o now' key h' u1' u2' st2 = (st2, Raise (ValueError msg))).
Proof.
  intros Hp Hr Hf Hk Hret Hs. destruct (reachable_ok _ _ _ _ Hp Hr) as [Hok _].
  pose proof (store_ok_retry r o now key h u1 u2 st Hok Hf) as Hok1. rewrite Hret in Hok1. simpl in Hok1.
  destruct (retry_run_Ok _ _ _ _ _ _ _ _ _ _ Hk Hret) as (Hprev & Hrep & Hrun).
  split; [done|].
  destruct (steps_evolve _ _ Hok1 Hs _ _ Hrun) as (run' & Hrun' & Hev).
  assert (Hrep2 : command_idempotency st2 !! (o, key) = Some (h, "run-" +:+ u1)).
  { clear - Hok1 Hs Hrep. induction Hs; eauto using step_replay with prd. }
  unfold retry_run. rewrite Hrep2. split.
  - exists run'. rewrite bool_decide_eq_true_2 by done. unfold get_run. by rewrite Hrun'.
  - intros Hne. rewrite bool_decide_eq_false_2 by congruence. by eexists.
Qed.

Definition retry_store : store :=
  run_ops [OpAcquire "run-1" "w" 1 10; OpComplete (mkLeaseGrant "run-1" "w" 1 11) FAILED] claim_store.

Lemma retry_idempotent_witness :
  exists msg,
    retry_run "run-1" "alice" 50 "key" "other" "x" "y"
      (retry_run "run-1" "alice" 20 "key" "hash" "new" "u9" retry_store).1
    = ((retry_run "run-1" "alice" 20 "key" "hash" "new" "u9" retry_store).1, Raise (ValueError msg)).
Proof.
  assert (Hr : reachable claim_policy retry_store).
  { eapply reachable_steps; [apply reachable_run_ops|apply steps_run_ops]; vm_compute; repeat split. }
  destruct (retry_idempotent 2 2 claim_policy retry_store "run-1" "alice" 20 "key" "hash" "new" "u9" _ _ _
    "run-1" 50 "other" "x" "y" eq_refl Hr eq_refl eq_refl eq_refl (rtc_refl _ _)) as (_ & _ & H).
  apply H. discriminate.
Defined.
