(* ===== verification/DispatchExecutor.v ===== *)
(** * Properties of the executor and of recovery

    [RunExecutor.execute] under arbitrary interleavings, and two behaviours of
    the reference store that strand runs. *)
From stdpp Require Import base list sets strings relations.
From Stdlib Require Import ZArith.
From S2P Require Import Prelude PyDict Dispatch DispatchRuntime DispatchInv DispatchEvolution.
From S2P Require Import DispatchAdmission DispatchOutbox.

Open Scope Z_scope.

(** ** The executor preserves the invariant *)

Fixpoint events_fresh (ttl : Z) (es : list event) (cs : context * store) : Prop :=
  match es with
  | [] => True
  | e :: rest =>
      match e with EvOther o => op_fresh o cs.2 | EvHeartbeat _ => True end /\
      events_fresh ttl rest (apply_event ttl cs e)
  end.

Lemma ctx_heartbeat_ok ttl now c st : store_ok st -> store_ok (ctx_heartbeat ttl now c st).1.2.
Proof.
  intros Hok. unfold ctx_heartbeat. case_match; [done|].
  pose proof (store_ok_heartbeat (ctx_grant c) now ttl st Hok) as H0.
  destruct (heartbeat (ctx_grant c) now ttl st) as [st' [g|[]]]; done.
Qed.

Lemma ctx_heartbeat_run_id ttl now c st :
  lg_run_id (ctx_grant (ctx_heartbeat ttl now c st).1.1) = lg_run_id (ctx_grant c) /\
  lg_worker_id (ctx_grant (ctx_heartbeat ttl now c st).1.1) = lg_worker_id (ctx_grant c) /\
  lg_fencing_token (ctx_grant (ctx_heartbeat ttl now c st).1.1) = lg_fencing_token (ctx_grant c).
Proof.
  unfold ctx_heartbeat, heartbeat. case_match; [done|].
  destruct (runs st !! lg_run_id (ctx_grant c)); [|done]. by destruct (_ && _).
Qed.

(** The context keeps its run, worker and token through the handler. *)
Lemma run_events_ok ttl es cs :
  store_ok cs.2 -> events_fresh ttl es cs ->
  store_ok (run_events ttl es cs).2 /\
  lg_run_id (ctx_grant (run_events ttl es cs).1) = lg_run_id (ctx_grant cs.1) /\
  lg_worker_id (ctx_grant (run_events ttl es cs).1) = lg_worker_id (ctx_grant cs.1) /\
  lg_fencing_token (ctx_grant (run_events ttl es cs).1) = lg_fencing_token (ctx_grant cs.1).
Proof.
  revert cs. induction es as [|e es IH]; intros [c st] Hok Hf; [done|]. destruct Hf as [He Hf].
  unfold run_events. cbn [foldl]. fold (run_events ttl es (apply_event ttl (c, st) e)).
  destruct (IH (apply_event ttl (c, st) e)) as (H1 & H2 & H3 & H4); [|done|].
  - destruct e; cbn [apply_event fst snd].
    + by apply ctx_heartbeat_ok.
    + eapply step_store_ok; [done|by constructor].
  - rewrite H2, H3, H4. split; [done|]. destruct e; cbn [apply_event fst snd]; [|done].
    apply ctx_heartbeat_run_id.
Qed.

Lemma run_ops_ok os st : store_ok st -> ops_fresh os st -> store_ok (run_ops os st).
Proof. intros Hok Hf. eapply steps_ok; [done|]. by apply steps_run_ops. Qed.

(** ** Fenced workers *)

Lemma complete_run_fenced g s st r :
  runs st !! lg_run_id g = Some r -> lg_fencing_token g < pr_fencing_token r ->
  (complete_run g s st).1 = st /\ is_ok (complete_run g s st).2 = false.
Proof.
  intros Hr Hlt. unfold complete_run. rewrite Hr.
  assert (current_lease r g = false) as ->.
  { unfold current_lease. apply andb_false_iff. right. apply Z.eqb_neq. lia. }
  by case_match.
Qed.

Lemma finish_run_fenced consumer g s message st r :
  runs st !! lg_run_id g = Some r -> lg_fencing_token g < pr_fencing_token r ->
  (finish_run consumer g s message st).1 = st.
Proof.
  intros Hr Hlt. destruct (complete_run_fenced g s st r Hr Hlt) as [H1 H2]. unfold finish_run.
  by destruct (complete_run g s st) as [st' [|]].
Qed.

(** a worker whose run was acquired again while its handler ran never
    completes it: whatever the handler's outcome and whatever other threads
    do meanwhile, the rest of [execute] leaves the store exactly as the other
    threads left it. *)
Theorem fenced_execution_harmless gl ow policy consumer command c raises checked st r :
  QueuePolicy_new gl ow = Ok policy -> reachable policy st -> ops_fresh checked st ->
  runs st !! rc_run_id command = Some r -> lg_run_id (ctx_grant c) = rc_run_id command ->
  lg_fencing_token (ctx_grant c) < pr_fencing_token r ->
  (execute_outcome consumer command c raises checked st).1 = st \/
  (execute_outcome consumer command c raises checked st).1 = run_ops checked st.
Proof.
  intros Hp Hr Hf Hrun Hid Hlt. destruct (reachable_ok _ _ _ _ Hp Hr) as [Hok _].
  destruct (steps_evolve _ _ Hok (steps_run_ops _ _ Hf) _ _ Hrun) as (r' & Hr' & _ & Hle & _).
  assert (Hfin : forall s, (finish_run consumer (ctx_grant c) s (rc_message_id command) (run_ops checked st)).1
    = run_ops checked st).
  { intros s. apply (finish_run_fenced _ _ _ _ _ r'); [by rewrite Hid|lia]. }
  unfold execute_outcome, status_of, cancellation_requested, get_run. rewrite Hid, Hrun.
  destruct (ctx_lost_lease c); [by left|right]. by destruct raises.
Qed.

(** ** Undisturbed execution *)

(** Completion of the current holder as one equation. *)
Lemma finish_run_current consumer g s message st r :
  store_ok st -> runs st !! lg_run_id g = Some r -> current_lease r g = true -> terminal s = true ->
  exists st', finish_run consumer g s message st = (st', Ok (status_value s)) /\
    runs st' !! lg_run_id g = Some (completed r s) /\ has_inbox consumer message st' = true.
Proof.
  intros Hok Hr Hc Hs. unfold finish_run.
  destruct (complete_run_current st g s r Hok Hr Hs Hc) as (st1 & -> & Hok1 & ->).
  set (st2 := set_runs _ st) in *. eexists. split; [done|].
  assert (Hkeep : runs (release_and_admit_waiting st2).1 !! lg_run_id g = Some (completed r s)).
  { destruct (admit_loop_evolves (S (dcount waiting (runs st2))) [] st2 Hok1 (lg_run_id g) (completed r s))
      as (r' & Hr' & _ & _ & _ & _ & _ & Hf).
    - subst st2. cbn [set_runs runs]. apply dict_lookup_insert_eq.
    - by rewrite (Hf Hs) in Hr'. }
  unfold record_inbox, has_inbox. case_match eqn:Hb; cbn [fst runs]; split; auto.
  apply bool_decide_eq_true_2. cbn [inbox]. set_solver.
Qed.

(** No other thread interferes; the handler returns or raises. *)
Definition quiet (raises : bool) : environment := mkEnvironment [] [] [] raises [].

(** The status an undisturbed execution ends with. *)
Definition expected_status (r : ProductionRun) (raises : bool) : ProductionRunStatus :=
  if bool_decide (is_Some (pr_cancellation_requested_at r)) then STOPPED
  else if raises then FAILED else SUCCEEDED.

(** executing a command for a run that can be acquired, without
    interference, always finishes it: STOPPED when its cancellation was
    requested (the handler is not run), FAILED when the handler raises and
    SUCCEEDED otherwise; the run is closed with its slot and lease released
    and the message is recorded in the inbox. *)
Theorem execute_completes gl ow policy worker consumer ttl command now raises st r :
  QueuePolicy_new gl ow = Ok policy -> reachable policy st ->
  rc_payload_version command = 1 -> runs st !! rc_run_id command = Some r ->
  (pr_status r = QUEUED \/ pr_status r = RUNNING \/ pr_status r = STOPPING) ->
  held_by_other r worker now = false ->
  exists st' r',
    execute worker consumer ttl command now (quiet raises) st
      = (st', Ok (status_value (expected_status r raises))) /\
    runs st' !! rc_run_id command = Some r' /\ pr_status r' = expected_status r raises /\
    pr_queue_slot_acquired r' = false /\ pr_lease_owner r' = None /\
    has_inbox consumer (rc_message_id command) st' = true.
Proof.
  intros Hp Hr Hv Hrun Hs Hh. destruct (reachable_ok _ _ _ _ Hp Hr) as [Hok _].
  set (k := rc_run_id command) in *.
  assert (Ha : exists st1 r1, acquire_run k worker now ttl st
      = (st1, Ok (Some (mkLeaseGrant k worker (pr_fencing_token r + 1) (now + ttl)))) /\
      runs st1 !! k = Some r1 /\
      current_lease r1 (mkLeaseGrant k worker (pr_fencing_token r + 1) (now + ttl)) = true /\
      pr_cancellation_requested_at r1 = pr_cancellation_requested_at r).
  { unfold acquire_run. rewrite Hrun, Hh.
    destruct Hs as [Hs|[Hs|Hs]]; rewrite Hs; cbn [terminal]; do 2 eexists;
      (split; [done|]); cbn [set_runs runs]; (split; [apply dict_lookup_insert_eq|]);
      unfold current_lease; simpl; rewrite bool_decide_eq_true_2, Z.eqb_refl by done; done. }
  destruct Ha as (st1 & r1 & Ha & Hr1 & Hcur & Hcan).
  assert (Hok1 : store_ok st1).
  { pose proof (store_ok_acquire k worker now ttl st Hok) as H. by rewrite Ha in H. }
  set (g := mkLeaseGrant k worker (pr_fencing_token r + 1) (now + ttl)) in *.
  assert (Hfin : forall s, terminal s = true -> exists st' r',
    finish_run consumer g s (rc_message_id command) st1 = (st', Ok (status_value s)) /\
    runs st' !! k = Some r' /\ pr_status r' = s /\ pr_queue_slot_acquired r' = false /\
    pr_lease_owner r' = None /\ has_inbox consumer (rc_message_id command) st' = true).
  { intros s Ht. destruct (finish_run_current consumer g s (rc_message_id command) st1 r1) as (st' & ? & ? & ?); auto.
    exists st', (completed r1 s). by split_and!. }
  assert (Hterm : terminal (pr_status r) = false) by (destruct Hs as [Hs|[Hs|Hs]]; by rewrite Hs).
  unfold execute, get_run, quiet. cbn [env_before env_acquired env_handler env_raises env_checked].
  rewrite Hv, Z.eqb_refl. cbn [negb]. fold k. rewrite Hrun, Hterm.
  unfold run_ops, run_events. cbn [foldl]. rewrite Ha, Hr1, Hcan. unfold expected_status.
  destruct (bool_decide (is_Some (pr_cancellation_requested_at r))) eqn:Hb; [by apply Hfin|].
  unfold execute_outcome, cancellation_requested, get_run, run_ops. cbn [ctx_lost_lease ctx_grant foldl].
  destruct raises; [by apply Hfin|]. cbn [lg_run_id g]. rewrite Hr1, Hcan, Hb. by apply Hfin.
Qed.

Definition exec_policy : QueuePolicy := mkQueuePolicy 30 1.
Definition exec_store : store :=
  run_ops [OpCreate "run-1" "t" "alice" "START" 0 "u1"] (init_store exec_policy).

Lemma exec_reachable : reachable exec_policy exec_store.
Proof. apply reachable_run_ops. vm_compute. repeat split. Qed.

Lemma execute_completes_witness :
  exists st' r',
    execute "w" "agent-worker" 60 (mkRunCommand "outbox-u1" 1 "run-1" "START") 5 (quiet true) exec_store
      = (st', Ok "FAILED") /\ runs st' !! "run-1" = Some r' /\ pr_status r' = FAILED.
Proof.
  destruct (runs exec_store !! "run-1") as [r|] eqn:Hr; [|vm_compute in Hr; discriminate].
  destruct (execute_completes 30 1 exec_policy "w" "agent-worker" 60
    (mkRunCommand "outbox-u1" 1 "run-1" "START") 5 true exec_store r eq_refl exec_reachable eq_refl Hr)
    as (st' & r' & H1 & H2 & H3 & _).
  - left. vm_compute in Hr. simplify_eq. reflexivity.
  - vm_compute in Hr. simplify_eq. reflexivity.
  - exists st', r'. assert (expected_status r true = FAILED) as E.
    { vm_compute in Hr. simplify_eq. reflexivity. }
    rewrite E in *. split; [exact H1|]. split; [exact H2|exact H3].
Defined.

Lemma fenced_execution_harmless_witness :
  let st := run_ops [OpAcquire "run-1" "a" 0 10; OpAcquire "run-1" "b" 20 10] exec_store in
  let out := execute_outcome "agent-worker" (mkRunCommand "outbox-u1" 1 "run-1" "START")
     (mkContext (mkLeaseGrant "run-1" "a" 1 10) false) false [] st in
  out.1 = st \/ out.1 = run_ops [] st.
Proof.
  intros st out. assert (Hr : reachable exec_policy st).
  { eapply reachable_steps; [apply exec_reachable|apply steps_run_ops]; vm_compute; repeat split. }
  destruct (runs st !! "run-1") as [r|] eqn:Hk; [|vm_compute in Hk; discriminate].
  apply (fenced_execution_harmless 30 1 exec_policy "agent-worker"
    (mkRunCommand "outbox-u1" 1 "run-1" "START") (mkContext (mkLeaseGrant "run-1" "a" 1 10) false) false [] st r
    eq_refl Hr I Hk eq_refl).
  vm_compute in Hk. simplify_eq. reflexivity.
Defined.

(** ** The inbox *)

(** Every operation of the environment draws fresh identifiers. *)
Definition env_fresh (worker : string) (ttl : Z) (command : RunCommand) (now : Z) (env : environment)
    (st : store) : Prop :=
  ops_fresh (env_before env) st /\
  let st1 := (acquire_run (rc_run_id command) worker now ttl (run_ops (env_before env) st)).1 in
  ops_fresh (env_acquired env) st1 /\
  forall g, let cs := (mkContext g false, run_ops (env_acquired env) st1) in
    events_fresh ttl (env_handler env) cs /\
    ops_fresh (env_checked env) (run_events ttl (env_handler env) cs).2.

(** No other thread records this message for this consumer. *)
Definition not_recorded (consumer message : string) (o : op) : Prop := o <> OpInbox consumer message.

Definition env_not_recorded (consumer message : string) (env : environment) : Prop :=
  Forall (not_recorded consumer message) (env_before env ++ env_acquired env ++ env_checked env) /\
  Forall (fun e => match e with EvOther o => not_recorded consumer message o | _ => True end) (env_handler env).

Lemma op_not_recorded consumer message o st :
  not_recorded consumer message o -> has_inbox consumer message st = false ->
  has_inbox consumer message (apply_op o st) = false.
Proof.
  intros Hn Hi. destruct (op_frame o st) as [_ Hf]. unfold has_inbox in *.
  destruct o; try (by rewrite Hf). clear Hf. cbn [apply_op]. unfold record_inbox. case_match; [done|].
  cbn [fst inbox]. apply bool_decide_eq_false in Hi. apply bool_decide_eq_false_2.
  rewrite elem_of_cons. intros [[= -> ->]|H1]; [|done]. by apply Hn.
Qed.

Lemma ops_not_recorded consumer message os st :
  Forall (not_recorded consumer message) os -> has_inbox consumer message st = false ->
  has_inbox consumer message (run_ops os st) = false.
Proof.
  revert st. induction os as [|o os IH]; intros st Hn Hi; [done|].
  apply Forall_cons in Hn as [? ?]. apply IH; auto using op_not_recorded.
Qed.

Lemma ctx_heartbeat_inbox ttl now c st : inbox (ctx_heartbeat ttl now c st).1.2 = inbox st.
Proof.
  unfold ctx_heartbeat. case_match; [done|].
  destruct (op_frame (OpHeartbeat (ctx_grant c) now ttl) st) as [_ Hf]. cbn [apply_op] in Hf.
  destruct (heartbeat (ctx_grant c) now ttl st) as [st' [g|[]]]; done.
Qed.

Lemma events_not_recorded ttl consumer message es cs :
  Forall (fun e => match e with EvOther o => not_recorded consumer message o | _ => True end) es ->
  has_inbox consumer message cs.2 = false ->
  has_inbox consumer message (run_events ttl es cs).2 = false.
Proof.
  revert cs. induction es as [|e es IH]; intros [c st] Hn Hi; [done|].
  apply Forall_cons in Hn as [Hn Hns]. apply (IH (apply_event ttl (c, st) e)); [done|].
  destruct e; cbn [apply_event fst snd]; [|by apply op_not_recorded].
  unfold has_inbox. by rewrite ctx_heartbeat_inbox.
Qed.

(** The outcomes of an execution that end with the message in the inbox. *)
Definition closed (run_id consumer message : string) (out : store * result error string) : Prop :=
  has_inbox consumer message out.1 = true ->
  exists r, runs out.1 !! run_id = Some r /\ terminal (pr_status r) = true /\
    out.2 = Ok (status_value (pr_status r)).

Lemma finish_run_closed consumer g s message st :
  store_ok st -> has_inbox consumer message st = false ->
  closed (lg_run_id g) consumer message (finish_run consumer g s message st).
Proof.
  intros Hok Hi. destruct (complete_run_refused st g s Hok) as [(Hs & r & Hr & Hc)|[e He]].
  - destruct (finish_run_current consumer g s message st r Hok Hr Hc Hs) as (st' & -> & Hr' & _).
    intros _. exists (completed r s). by split_and!.
  - unfold finish_run, closed. rewrite He. cbn [fst]. by rewrite Hi.
Qed.

(** A worker acknowledges a message only when the work is done: under
    every interleaving, if an execution leaves its message in the inbox then
    the run is terminal and the execution answered that terminal status. *)
Theorem inbox_only_when_terminal gl ow policy worker consumer ttl command now env st :
  QueuePolicy_new gl ow = Ok policy -> reachable policy st ->
  env_fresh worker ttl command now env st ->
  env_not_recorded consumer (rc_message_id command) env ->
  has_inbox consumer (rc_message_id command) st = false ->
  closed (rc_run_id command) consumer (rc_message_id command)
    (execute worker consumer ttl command now env st).
Proof.
  intros Hp Hr (Hf0 & Hf1 & Hf2) [Hn Hne] Hi. destruct (reachable_ok _ _ _ _ Hp Hr) as [Hok _].
  apply Forall_app in Hn as [Hn0 Hn]. apply Forall_app in Hn as [Hn1 Hn2].
  set (k := rc_run_id command) in *. set (msg := rc_message_id command) in *.
  assert (Hno : forall st' e, has_inbox consumer msg st' = false -> closed k consumer msg (st', e))
    by (intros st' e H H'; cbn [fst] in H'; congruence).
  unfold execute, get_run. case_match; [by apply Hno|]. fold k msg.
  destruct (runs st !! k) as [cur|] eqn:Hcur; [|by apply Hno].
  destruct (terminal (pr_status cur)) eqn:Ht.
  { intros _. exists cur. unfold record_inbox. rewrite Hi. by split_and!. }
  pose proof (run_ops_ok _ _ Hok Hf0) as Hok0.
  pose proof (store_ok_acquire k worker now ttl _ Hok0) as Hok1.
  pose proof (op_not_recorded consumer msg (OpAcquire k worker now ttl) _ ltac:(done)
    (ops_not_recorded _ _ _ _ Hn0 Hi)) as Hi1. cbn [apply_op] in Hi1.
  destruct (acquire_run k worker now ttl (run_ops (env_before env) st)) as [st1 [[g|]|e]] eqn:Ha;
    cbn [fst] in *.
  - assert (Hg : lg_run_id g = k).
    { unfold acquire_run in Ha. repeat case_match; by simplify_eq. }
    pose proof (run_ops_ok _ _ Hok1 Hf1) as Hok2.
    pose proof (ops_not_recorded _ _ _ _ Hn1 Hi1) as Hi2.
    set (st2 := run_ops (env_acquired env) st1) in *.
    destruct (runs st2 !! k) as [acq|]; [|by apply Hno].
    case_match; [rewrite <- Hg; by apply finish_run_closed|].
    destruct (Hf2 g) as [Hf3 Hf4].
    pose proof (run_events_ok ttl (env_handler env) (mkContext g false, st2) Hok2 Hf3) as (Hok3 & Hid & _).
    pose proof (events_not_recorded ttl consumer msg _ (mkContext g false, st2) Hne Hi2) as Hi3.
    destruct (run_events ttl (env_handler env) (mkContext g false, st2)) as [c st3]. cbn [fst snd] in *.
    assert (Hfin : forall s, closed k consumer msg
      (finish_run consumer (ctx_grant c) s msg (run_ops (env_checked env) st3))).
    { intros s. replace k with (lg_run_id (ctx_grant c)) by (rewrite Hid; exact Hg).
      apply finish_run_closed; [by apply run_ops_ok|by apply ops_not_recorded]. }
    unfold execute_outcome, status_of, cancellation_requested, get_run. fold k msg.
    repeat case_match; simplify_eq; auto.
  - unfold status_of, get_run. repeat case_match; simplify_eq; by apply Hno.
  - by apply Hno.
Qed.

Lemma inbox_only_when_terminal_witness :
  let out := execute "w" "agent-worker" 60 (mkRunCommand "outbox-u1" 1 "run-1" "START") 5
    (mkEnvironment [] [] [EvHeartbeat 20; EvOther (OpCancel "run-1" "alice" 30)] false []) exec_store in
  has_inbox "agent-worker" "outbox-u1" out.1 = true /\ out.2 = Ok "STOPPED" /\
  closed "run-1" "agent-worker" "outbox-u1" out.
Proof.
  split; [reflexivity|]. split; [reflexivity|].
  apply (inbox_only_when_terminal 30 1 exec_policy "w" "agent-worker" 60
    (mkRunCommand "outbox-u1" 1 "run-1" "START") 5
    (mkEnvironment [] [] [EvHeartbeat 20; EvOther (OpCancel "run-1" "alice" 30)] false []) exec_store
    eq_refl exec_reachable).
  - repeat split.
  - split; repeat constructor; discriminate.
  - reflexivity.
Defined.
