(* ===== verification/DispatchStranded.v ===== *)
(** * Wake-ups the reference store never delivers

    [claim_outbox] of the in-memory store only returns messages of QUEUED
    runs.  A recovery message concerns a RUNNING or STOPPING run, and a run
    cancelled before its first dispatch is STOPPING, so neither is ever
    claimed.  (The PostgreSQL store exempts messages with reason RECOVER.) *)
From stdpp Require Import base list sets strings relations.
From Stdlib Require Import ZArith.
From S2P Require Import Prelude PyDict Dispatch DispatchRuntime DispatchInv DispatchEvolution.
From S2P Require Import DispatchAdmission DispatchOutbox.

Open Scope Z_scope.

(** ** Messages keep their run *)

Lemma op_aggregate o st i m :
  store_ok st -> op_fresh o st -> outbox st !! i = Some m ->
  exists m', outbox (apply_op o st) !! i = Some m' /\ ob_aggregate_id m' = ob_aggregate_id m.
Proof.
  intros Hok Hf Hi.
  assert (Hkeep : keeps_message i m st o -> exists m',
    outbox (apply_op o st) !! i = Some m' /\ ob_aggregate_id m' = ob_aggregate_id m).
  { intros Hk. exists m. split; [|done]. by apply op_keeps_message. }
  destruct o; try (by apply Hkeep); clear Hkeep; cbn [apply_op].
  - destruct (claim_outbox_spec publisher now lease_ttl limit st Hok)
      as (taken & st' & -> & _ & _ & Ht & Ho & _). cbn [fst].
    destruct (decide (i ∈ (ob_message_id <$> taken))) as [Hin|Hin]; [|exists m; by rewrite Ho].
    apply list_elem_of_fmap in Hin as (x & -> & Hx). destruct (Ht x Hx) as [[Hx1 _] Hx2].
    rewrite Hi in Hx1. injection Hx1 as ->. rewrite Hx2. by eexists.
  - unfold mark_outbox_published. case_match eqn:Hm; [|by exists m]. case_match; [|by exists m].
    cbn [fst outbox set_outbox]. rewrite dict_lookup_insert.
    destruct (decide (message_id = i)) as [->|]; [|by exists m]. simplify_eq. by eexists.
  - unfold mark_outbox_failed. case_match eqn:Hm; [|by exists m]. case_match; [|by exists m].
    cbn [fst outbox set_outbox]. rewrite dict_lookup_insert.
    destruct (decide (message_id = i)) as [->|]; [|by exists m]. simplify_eq. by eexists.
Qed.

Lemma steps_aggregate st st' i m :
  store_ok st -> steps st st' -> outbox st !! i = Some m ->
  exists m', outbox st' !! i = Some m' /\ ob_aggregate_id m' = ob_aggregate_id m.
Proof.
  intros Hok Hs. revert m Hok. induction Hs as [|st1 st2 st3 [o Hf] _ IH]; intros m Hok Hi; [eauto|].
  destruct (op_aggregate o st1 i m Hok Hf Hi) as (m1 & H1 & Ha1).
  destruct (IH m1) as (m2 & H2 & Ha2); [eapply step_store_ok; [done|by constructor]|done|].
  exists m2. split; [done|]. congruence.
Qed.

(** A message whose run has left the queue is never claimed. *)
Lemma dequeued_never_claimed st st' i m r p now ttl limit st2 l :
  store_ok st -> outbox st !! i = Some m -> runs st !! ob_aggregate_id m = Some r ->
  dequeued (pr_status r) = true -> steps st st' ->
  claim_outbox p now ttl limit st' = (st2, Ok l) -> i ∉ (ob_message_id <$> l).
Proof.
  intros Hok Hi Hr Hd Hs Hc. pose proof (steps_ok _ _ Hok Hs) as Hok'.
  destruct (steps_aggregate _ _ _ _ Hok Hs Hi) as (m' & Hi' & Ha).
  destruct (steps_evolve _ _ Hok Hs _ _ Hr) as (r' & Hr' & _ & _ & _ & _ & Hd' & _).
  destruct (claim_outbox_spec p now ttl limit st' Hok') as (taken & st3 & Heq & _ & _ & Ht & _).
  rewrite Hc in Heq. simplify_eq. rewrite <- list_fmap_compose.
  intros (x & E & Hx)%list_elem_of_fmap. simpl in E.
  destruct (Ht x Hx) as [(Hx' & run & Hrun & Hsk) _]. rewrite <- E, Hi' in Hx'. simplify_eq.
  apply claim_skip_false in Hsk as (_ & _ & _ & _ & Hq). rewrite Ha, Hr' in Hrun. simplify_eq.
  specialize (Hd' Hd). by rewrite Hq in Hd'.
Qed.

(** ** Recovery messages *)

Lemma recover_loop_created now grace limit u cands created st st' l :
  (forall n, (length created <= n)%nat -> outbox st !! outbox_id (u n) = None) ->
  (forall n j, outbox_id (u n) = outbox_id (u j) -> n = j) ->
  recover_loop now grace limit u cands created st = (st', Ok l) ->
  (forall m, m ∈ created -> outbox st !! ob_message_id m = Some m) ->
  forall m, m ∈ l -> outbox st' !! ob_message_id m = Some m /\
    (m ∈ created \/ exists r, r ∈ cands /\ recovery_due r now grace = true /\ ob_aggregate_id m = pr_run_id r).
Proof.
  intros Hfresh Hinj. revert created st Hfresh.
  induction cands as [|r rest IH]; intros created st Hfresh Heq Hin m Hm; simpl in Heq; [naive_solver|].
  case_match; [naive_solver|]. case_match eqn:Hdue.
  - destruct (IH created st Hfresh Heq Hin m Hm) as [? [?|(x & ? & ?)]]; [by auto|].
    split; [done|]. right. exists x. set_solver.
  - apply orb_false_iff in Hdue as [Hdue%negb_false_iff _].
    set (m0 := new_message _ _ _ _ _) in *.
    assert (Hnew : outbox st !! ob_message_id m0 = None) by (apply Hfresh; lia).
    destruct (IH (created ++ [m0]) (set_outbox (<[outbox_id (u (length created)) := m0]> (outbox st)) st))
      with (m := m) as [Hm1 Hm2]; auto.
    + intros n Hn. rewrite length_app in Hn. simpl in Hn. cbn [outbox set_outbox].
      rewrite dict_lookup_insert_ne; [apply Hfresh; lia|]. intros E%Hinj. lia.
    + intros x Hx. cbn [outbox set_outbox]. rewrite dict_lookup_insert.
      apply elem_of_app in Hx as [Hx|Hx%list_elem_of_singleton]; [|subst x; by rewrite decide_True].
      apply Hin in Hx. case_decide as E; [|done].
      change (outbox_id (u (length created))) with (ob_message_id m0) in E. rewrite <- E in Hx. congruence.
    + split; [done|]. destruct Hm2 as [[?|Hx%list_elem_of_singleton]%elem_of_app|(x & ? & ?)]; [by left| |].
      * right. exists r. subst m. split_and!; [set_solver|done|done].
      * right. exists x. set_solver.
Qed.

(** The reference store never delivers a recovery wake-up: whatever
    happens after [enqueue_recoveries] created a RECOVER message, no claim of
    any publisher at any later time returns it. *)
Theorem recovery_never_claimed gl ow policy st now grace limit u st1 created m st2 p n ttl lim st3 l :
  QueuePolicy_new gl ow = Ok policy -> reachable policy st ->
  op_fresh (OpRecover now grace limit u) st ->
  enqueue_recoveries now grace limit u st = (st1, Ok created) -> m ∈ created ->
  steps st1 st2 -> claim_outbox p n ttl lim st2 = (st3, Ok l) ->
  ob_message_id m ∉ (ob_message_id <$> l).
Proof.
  intros Hp Hr Hf Hrec Hm Hs Hc. destruct (reachable_ok _ _ _ _ Hp Hr) as [Hok _].
  pose proof (store_ok_recover now grace limit u st Hok Hf) as Hok1. rewrite Hrec in Hok1. simpl in Hok1.
  assert (Hruns : runs st1 = runs st).
  { pose proof (recover_loop_runs now grace limit u
      (sort_by (fun a b => String.leb (pr_run_id a) (pr_run_id b)) (values (runs st))) [] st) as H.
    unfold enqueue_recoveries in Hrec. by rewrite Hrec in H. }
  destruct Hf as [Hf Hinj].
  destruct (recover_loop_created now grace limit u _ [] st st1 created (fun i _ => Hf i) Hinj Hrec)
    with (m := m) as [Hm1 [?|(r & Hr1 & Hdue & Ha)]]; [set_solver|done|set_solver|].
  apply elem_of_sort_by, ok_run_values in Hr1; [|done].
  eapply (dequeued_never_claimed st1 st2 _ m r); eauto.
  - by rewrite Hruns, Ha.
  - unfold recovery_due in Hdue. by destruct (pr_status r).
Qed.

Definition stranded_policy : QueuePolicy := mkQueuePolicy 30 1.
Definition expired_store : store :=
  run_ops [OpCreate "run-1" "t" "alice" "START" 0 "u1"; OpAcquire "run-1" "w" 0 10]
    (init_store stranded_policy).
Definition recovery_uuid (n : nat) : string := "r" +:+ Nat.iter n (fun s => "i" +:+ s) EmptyString.

Lemma recovery_uuid_fresh : op_fresh (OpRecover 100 5 10 recovery_uuid) expired_store.
Proof.
  split; [intros i; vm_compute; by destruct i|]. intros i j H.
  assert (Hlen : forall n, String.length (outbox_id (recovery_uuid n)) = (8 + n)%nat).
  { assert (Hiter : forall n, String.length (Nat.iter n (fun s => "i" +:+ s) EmptyString) = n)
      by (induction n as [|n IH]; simpl; auto).
    intros n. change (8 + String.length (Nat.iter n (fun s => "i" +:+ s) EmptyString) = 8 + n)%nat.
    by rewrite Hiter. }
  apply (f_equal String.length) in H. rewrite !Hlen in H. lia.
Qed.

Lemma recovery_never_claimed_witness :
  let out := enqueue_recoveries 100 5 10 recovery_uuid expired_store in
  exists m, out.2 = Ok [m] /\ rc_reason (ob_command m) = "RECOVER" /\
    ob_message_id m ∉ (ob_message_id <$>
      match (claim_outbox "pub" 200 30 10 out.1).2 with Ok l => l | Raise _ => [] end).
Proof.
  intros out. assert (Hr : reachable stranded_policy expired_store).
  { apply reachable_run_ops. vm_compute. repeat split. }
  eexists. split; [reflexivity|]. split; [reflexivity|].
  eapply (recovery_never_claimed 30 1 stranded_policy expired_store 100 5 10 recovery_uuid out.1 _ _ out.1
    "pub" 200 30 10 _ _ eq_refl Hr recovery_uuid_fresh eq_refl ltac:(by left) (rtc_refl _ _)).
  reflexivity.
Defined.

(** ** Cancellation before the first dispatch *)

(** Run [k] is STOPPING and was never leased. *)
Definition stranded (k : string) (st : store) : Prop :=
  exists r, runs st !! k = Some r /\ pr_status r = STOPPING /\ pr_lease_owner r = None /\
    pr_lease_expires_at r = None.

Lemma stranded_insert k st k' r :
  stranded k st -> k' <> k -> stranded k (set_runs (<[k' := r]> (runs st)) st).
Proof. intros (x & Hx & ?) Hne. exists x. cbn [set_runs runs]. by rewrite dict_lookup_insert_ne. Qed.

Lemma stranded_create k st r t o reason now u :
  stranded k st -> stranded k (create_run_dispatch r t o reason now u st).1.
Proof.
  intros (x & Hx & ?). exists x. split; [|done]. unfold create_run_dispatch.
  destruct (runs st !! r) eqn:E; [by case_match|]. cbn [fst runs].
  rewrite dict_lookup_insert_ne; [done|]. congruence.
Qed.

Lemma stranded_evolve k st st' r :
  runs st !! k = Some r -> stranded k st -> runs st' !! k = Some r -> stranded k st'.
Proof. intros Hr (x & Hx & ?) Hr'. simplify_eq. by exists r. Qed.

(** No worker acquires run [k]: workers only act on delivered commands. *)
Definition no_acquire (k : string) (o : op) : Prop :=
  match o with OpAcquire k' _ _ _ => k' <> k | _ => True end.

Lemma stranded_op k o st :
  store_ok st -> no_acquire k o -> stranded k st -> stranded k (apply_op o st).
Proof.
  intros Hok Hn Hs. assert (Hs0 := Hs). destruct Hs0 as (r & Hr & Hst & Hl & He).
  destruct o; cbn [apply_op no_acquire] in *; auto using stranded_create.
  - exists r. unfold claim_outbox. by rewrite claim_loop_runs.
  - exists r. unfold mark_outbox_published. by repeat case_match.
  - exists r. unfold mark_outbox_failed. by repeat case_match.
  - unfold request_cancellation. case_match eqn:Hx; [|done]. repeat (case_match; [done|]).
    destruct (decide (run_id = k)) as [->|Hne]; [|by apply stranded_insert]. simplify_eq.
    eexists. cbn [fst set_runs runs]. by rewrite dict_lookup_insert_eq.
  - destruct (retry_run_frame run_id owner_id now key hash run_uuid message_uuid st) as [[e ->]|(t & d & -> & _)];
      [done|]. by apply stranded_create.
  - unfold acquire_run. repeat case_match; try done; by apply stranded_insert.
  - destruct (complete_run_refused st grant status Hok) as [(Ht & x & Hx & Hc)|[e ->]]; [|done].
    destruct (complete_run_current st grant status x Hok Hx Ht Hc) as (st' & -> & Hok1 & ->).
    assert (Hne : lg_run_id grant <> k).
    { intros E. rewrite E in Hx. simplify_eq. unfold current_lease in Hc. by rewrite Hl in Hc. }
    exists r. split; [|done]. apply admit_loop_not_waiting; [done| |congruence].
    cbn [set_runs runs]. by rewrite dict_lookup_insert_ne.
  - exists r. split; [|done]. apply admit_loop_not_waiting; auto. congruence.
  - unfold heartbeat. case_match eqn:Hx; [|done]. case_match eqn:Hc; [|done].
    apply stranded_insert; [done|]. intros E. rewrite E in Hx. simplify_eq.
    unfold current_lease in Hc. by rewrite Hl in Hc.
  - exists r. unfold record_inbox. by case_match.
  - exists r. unfold enqueue_recoveries. by rewrite recover_loop_runs.
Qed.

Lemma stranded_ops k os st :
  store_ok st -> ops_fresh os st -> Forall (no_acquire k) os -> stranded k st ->
  store_ok (run_ops os st) /\ stranded k (run_ops os st).
Proof.
  revert st. induction os as [|o os IH]; intros st Hok Hf Hn Hs; [done|].
  destruct Hf as [Ho Hf]. apply Forall_cons in Hn as [Hn Hns].
  apply IH; auto using stranded_op. eapply step_store_ok; [done|by constructor].
Qed.


Definition queued_store : store :=
  run_ops [OpCreate "run-1" "t" "alice" "START" 0 "u1"] (init_store stranded_policy).


(** ** Slots held by STOPPING runs *)

Definition slot_ops : list op :=
  [OpCreate "run-1" "t" "alice" "START" 0 "u1"; OpAcquire "run-1" "w" 1 100;
   OpCancel "run-1" "alice" 2; OpCreate "run-2" "t" "bob" "START" 3 "u2"].

(** A running run that is being cancelled keeps [queue_slot_acquired] but is
    not counted, so more runs than [max_global_runnable] can hold a slot. *)
Theorem stopping_slot_not_counted :
  let st := run_ops slot_ops (init_store (mkQueuePolicy 1 1)) in
  reachable (mkQueuePolicy 1 1) st /\
  dcount (fun r => pr_queue_slot_acquired r && negb (terminal (pr_status r))) (runs st) = 2%nat.
Proof.
  split; [apply reachable_run_ops; vm_compute; repeat split|reflexivity].
Qed.
