(* ===== verification/Json.v ===== *)
(** * Python values, exceptions and hashing

    Structured model output reaches the program as parsed JSON.  This file
    holds those values, the built-in conversions the sources apply to them,
    the exception classes the sources raise or catch, and
    [prd_agent/hashing.py]. *)
From stdpp Require Import base list sets strings pretty.
From Stdlib Require Import ZArith.
From S2P Require Import Prelude PyDict.

(** ** Exceptions

    The built-in classes, the hierarchy of [domain/errors.py], the exceptions
    of the model API, the investigation and the evidence services, and the
    exceptions of injected collaborators.  [EvidenceIdempotencyConflict] is
    the class [IdempotencyConflict] of [repository_evidence_service.py];
    pydantic's [ValidationError] is a [ValueError].  Messages are not modelled. *)
Inductive exc : Type :=
  | KeyError | TypeError | ValueError | AttributeError | OverflowError | IndexError
  | StopIteration | RuntimeError
  | InvalidCommand | InvalidTransition | VersionConflict | ActiveRunConflict
  | IdempotencyConflict | NotFound | ModelOutputError
  | ModelApiError (code : string) (retryable : bool)
  | InvestigationVersionConflict | ToolRegistryError | EvidenceIdempotencyConflict
  | EvidenceValidationError | RepositoryError | BlockedPath
  | External (name : string).

#[global] Instance exc_eq_dec : EqDecision exc.
Proof. solve_decision. Defined.

(** The base class [WorkflowError]. *)
Definition workflow_error (e : exc) : bool :=
  match e with
  | InvalidCommand | InvalidTransition | VersionConflict | ActiveRunConflict
  | IdempotencyConflict | NotFound | ModelOutputError => true
  | _ => false
  end.

(** ** JSON values

    What the sources observe of a float: its text, whether it is zero, and
    [int(f)], which fails on infinities and NaN. *)
Record pyfloat := mkFloat { float_text : string; float_zero : bool; float_trunc : result exc Z }.

Inductive json : Type :=
  | JNull
  | JBool (b : bool)
  | JInt (z : Z)
  | JFloat (f : pyfloat)
  | JStr (s : string)
  | JArr (l : list json)
  | JObj (l : list (string * json)).

(** Built-in conversions whose result on the remaining inputs is left open:
    [str] of a container, [int] of a string, Unicode [lower], and SHA-256. *)
Class Builtins := {
  repr_container : json -> string;
  int_of_str : string -> option Z;
  lower : string -> string;
  sha256_hex : string -> string
}.

(** [isinstance(value, Mapping)], with its items. *)
Definition as_mapping (j : json) : option (list (string * json)) :=
  match j with JObj l => Some l | _ => None end.

(** [value.get(key)] on an object. *)
Definition jget (key : string) (l : list (string * json)) : option json := assoc_get key l.

(** [bool(value)]. *)
Definition jtruthy (j : json) : bool :=
  match j with
  | JNull => false
  | JBool b => b
  | JInt z => negb (Z.eqb z 0)
  | JFloat f => negb (float_zero f)
  | JStr s => truthy s
  | JArr l => match l with [] => false | _ => true end
  | JObj l => match l with [] => false | _ => true end
  end.

(** [str(value)]. *)
Definition py_str `{Builtins} (j : json) : string :=
  match j with
  | JNull => "None"
  | JBool true => "True"
  | JBool false => "False"
  | JInt z => pretty z
  | JFloat f => float_text f
  | JStr s => s
  | JArr _ | JObj _ => repr_container j
  end.

(** [str(value.get(key, default))]. *)
Definition str_get `{Builtins} (key dflt : string) (l : list (string * json)) : string :=
  match jget key l with Some j => py_str j | None => dflt end.

(** [int(value)]. *)
Definition py_int `{Builtins} (j : json) : result exc Z :=
  match j with
  | JInt z => Ok z
  | JBool b => Ok (if b then 1 else 0)%Z
  | JFloat f => float_trunc f
  | JStr s => match int_of_str s with Some z => Ok z | None => Raise ValueError end
  | JNull | JArr _ | JObj _ => Raise TypeError
  end.

(** Iterating a value: the elements of an array, the keys of an object, the
    characters of a string. *)
Fixpoint str_chars (fuel : nat) (s : string) : list string :=
  match fuel, s with
  | S fuel', String _ _ =>
      str_take 1 s :: str_chars fuel' (str_drop_bytes (String.length (str_take 1 s)) s)
  | _, _ => []
  end.

Definition py_iter (j : json) : result exc (list json) :=
  match j with
  | JArr l => Ok l
  | JObj l => Ok (JStr <$> l.*1)
  | JStr s => Ok (JStr <$> str_chars (String.length s) s)
  | _ => Raise TypeError
  end.

(** ** [json.dumps] with [ensure_ascii=False, sort_keys=True]

    Floats are printed by their text; only the separators differ between the
    two uses of the sources. *)
Definition hex_digit (n : nat) : Ascii.ascii :=
  Ascii.ascii_of_nat (if (n <? 10)%nat then 48 + n else 87 + n).

Definition escape_char (c : Ascii.ascii) : string :=
  let n := Ascii.nat_of_ascii c in
  match n with
  | 34 => str_of_codes [92; 34]
  | 92 => str_of_codes [92; 92]
  | 10 => "\n" | 13 => "\r" | 9 => "\t" | 8 => "\b" | 12 => "\f"
  | _ => if (n <? 32)%nat
         then "\u00" +:+ String (hex_digit (n / 16)) (String (hex_digit (n mod 16)) EmptyString)
         else String c EmptyString
  end.

Fixpoint escape (s : string) : string :=
  match s with
  | EmptyString => EmptyString
  | String c s' => escape_char c +:+ escape s'
  end.

Definition quote (s : string) : string :=
  let q := str_of_codes [34] in q +:+ escape s +:+ q.

Fixpoint dumps (item_sep key_sep : string) (j : json) : string :=
  match j with
  | JNull => "null"
  | JBool true => "true"
  | JBool false => "false"
  | JInt z => pretty z
  | JFloat f => float_text f
  | JStr s => quote s
  | JArr l => "[" +:+ str_join item_sep (map (dumps item_sep key_sep) l) +:+ "]"
  | JObj l =>
      let rendered := map (fun kv => (kv.1, dumps item_sep key_sep kv.2)) l in
      let sorted := sort_by (fun a b => String.leb a.1 b.1) rendered in
      "{" +:+ str_join item_sep (map (fun kv => quote kv.1 +:+ key_sep +:+ kv.2) sorted) +:+ "}"
  end.

Definition canonical_json (j : json) : string := dumps "," ":" j.

Definition sha256_json `{Builtins} (j : json) : string :=
  "sha256:" +:+ sha256_hex (canonical_json j).

(** Concrete conversions for evaluating the model on examples: decimal
    integers, ASCII lower case, and the identity in place of the digest, which
    is collision free. *)
Definition digit_value (c : Ascii.ascii) : option Z :=
  let n := Ascii.nat_of_ascii c in
  if (48 <=? n)%nat && (n <=? 57)%nat then Some (Z.of_nat (n - 48)) else None.

Fixpoint parse_digits (acc : Z) (s : string) : option Z :=
  match s with
  | EmptyString => Some acc
  | String c s' => digit_value c ≫= fun d => parse_digits (10 * acc + d) s'
  end.

Definition parse_int (s : string) : option Z :=
  match s with EmptyString => None | _ => parse_digits 0 s end.

Definition example_builtins : Builtins :=
  {| repr_container := dumps ", " ": "; int_of_str := parse_int; lower := str_lower;
     sha256_hex := fun s => s |}.

Example canonical_json_example :
  canonical_json (JObj [("b", JArr [JInt 2; JNull]); ("a", JStr "x")])
  = String.concat (str_of_codes [34]) ["{"; "a"; ":"; "x"; ","; "b"; ":[2,null]}"].
Proof. reflexivity. Qed.
