(* ===== verification/CanonicalJson.v ===== *)
(** * Canonical JSON can be read back

    [prd_agent/hashing.py] hashes [canonical_json] of a value.  A reader for
    compact JSON recovers the value, with the members of its objects in key
    order; so distinct inputs have distinct canonical texts, and two inputs with
    one hash differ only by a collision of SHA-256. *)
From stdpp Require Import base list sets strings pretty sorting.
From Stdlib Require Import Ascii ZArith Lia.
From S2P Require Import Prelude.
From S2P Require Import Json.

(** ** Induction over nested values *)

Section json_ind.
Context (P : json -> Prop).
Context (Hnull : P JNull) (Hbool : forall b, P (JBool b)) (Hint : forall z, P (JInt z)).
Context (Hfloat : forall f, P (JFloat f)) (Hstr : forall s, P (JStr s)).
Context (Harr : forall l, Forall P l -> P (JArr l)).
Context (Hobj : forall l, Forall (fun kv => P kv.2) l -> P (JObj l)).

Fixpoint json_nested_ind (j : json) : P j :=
  match j with
  | JNull => Hnull
  | JBool b => Hbool b
  | JInt z => Hint z
  | JFloat f => Hfloat f
  | JStr s => Hstr s
  | JArr l => Harr l ((fix go l : Forall P l := match l with
      | [] => @List.Forall_nil _ _
      | x :: r => @List.Forall_cons _ _ x r (json_nested_ind x) (go r)
      end) l)
  | JObj l => Hobj l ((fix go l : Forall (fun kv : string * json => P kv.2) l := match l with
      | [] => @List.Forall_nil _ _
      | x :: r => @List.Forall_cons _ _ x r (json_nested_ind x.2) (go r)
      end) l)
  end.
End json_ind.

(** ** The canonical form of a value *)

Definition key_leb {A} (x y : string * A) : bool := String.leb x.1 y.1.

Fixpoint canon (j : json) : json :=
  match j with
  | JArr l => JArr (map canon l)
  | JObj l => JObj (sort_by key_leb (map (fun kv => (kv.1, canon kv.2)) l))
  | _ => j
  end.

(** No floats: their text is a parameter of the value. *)
Fixpoint floatless (j : json) : bool :=
  match j with
  | JFloat _ => false
  | JArr l => forallb floatless l
  | JObj l => forallb (fun kv => floatless kv.2) l
  | _ => true
  end.

(** [dumps] without the sorting of keys. *)
Fixpoint render (j : json) : string :=
  match j with
  | JArr l => "[" +:+ str_join "," (map render l) +:+ "]"
  | JObj l => "{" +:+ str_join "," (map (fun kv => quote kv.1 +:+ ":" +:+ render kv.2) l) +:+ "}"
  | _ => dumps "," ":" j
  end.

Lemma sort_by_map {A B} (f : A -> B) (leA : A -> A -> bool) (leB : B -> B -> bool) l :
  (forall x y, leB (f x) (f y) = leA x y) -> sort_by leB (map f l) = map f (sort_by leA l).
Proof.
  intros Hf. assert (Hins : forall x l', insert_by leB (f x) (map f l') = map f (insert_by leA x l')).
  { intros x l'. induction l' as [|y l' IH]; [done|]. simpl. rewrite Hf, IH. by destruct (leA x y). }
  induction l as [|x l IH]; [done|]. cbn [sort_by foldr map]. fold (sort_by leB (map f l)).
  by rewrite IH, Hins.
Qed.

Lemma canonical_json_render j : canonical_json j = render (canon j).
Proof.
  unfold canonical_json. induction j as [| | | | |l IH|l IH] using json_nested_ind; try done; cbn [dumps canon render].
  - do 3 f_equal. rewrite map_map. by apply map_ext_Forall.
  - do 3 f_equal.
    assert (E : map (fun kv => (kv.1, dumps "," ":" kv.2)) l =
                map (fun kv => (kv.1, render kv.2)) (map (fun kv => (kv.1, canon kv.2)) l)).
    { rewrite map_map. apply map_ext_Forall. eapply Forall_impl; [exact IH|]. intros [k v] Hv. simpl in *. by rewrite Hv. }
    rewrite E, (sort_by_map _ key_leb) by done. by rewrite map_map.
Qed.

Lemma forallb_perm {A} (f : A -> bool) l l' : l ≡ₚ l' -> forallb f l = forallb f l'.
Proof.
  induction 1 as [|x l l' _ IH|x y l|l l' l'' _ IH1 _ IH2]; simpl; [done|by rewrite IH| |congruence].
  by rewrite !andb_assoc, (andb_comm (f y)).
Qed.

Lemma forallb_map_Forall {A B} (f : A -> B) (p : B -> bool) (q : A -> bool) l :
  Forall (fun x => p (f x) = q x) l -> forallb p (map f l) = forallb q l.
Proof. induction 1 as [|x l Hx _ IH]; [done|]. simpl. by rewrite Hx, IH. Qed.

Lemma floatless_canon j : floatless (canon j) = floatless j.
Proof.
  induction j as [| | | | |l IH|l IH] using json_nested_ind; try done; cbn [canon floatless].
  - by apply forallb_map_Forall.
  - rewrite (forallb_perm _ _ _ (sort_by_perm _ _)). by apply forallb_map_Forall.
Qed.

(** ** The reader *)

Definition code_is (n : nat) (c : Ascii.ascii) : bool := Nat.eqb (Ascii.nat_of_ascii c) n.

(** The rest after a given prefix. *)
Fixpoint drop_prefix (p s : string) : option string :=
  match p, s with
  | EmptyString, _ => Some s
  | String c p', String d s' => if Ascii.eqb c d then drop_prefix p' s' else None
  | _, _ => None
  end.

(** Decimal digits. *)
Definition decimal (c : Ascii.ascii) : option N :=
  let n := Ascii.nat_of_ascii c in
  if (48 <=? n)%nat && (n <=? 57)%nat then Some (N.of_nat (n - 48)) else None.

Fixpoint digits (acc : N) (s : string) : N * string :=
  match s with
  | String c s' => match decimal c with Some d => digits (10 * acc + d) s' | None => (acc, s) end
  | EmptyString => (acc, s)
  end.

Definition read_N (s : string) : option (N * string) :=
  match s with
  | String c _ => match decimal c with Some _ => Some (digits 0 s) | None => None end
  | EmptyString => None
  end.

Definition read_int (s : string) : option (Z * string) :=
  match drop_prefix "-" s with
  | Some s' => '(n, r) ← read_N s'; Some (- Z.of_N n, r)%Z
  | None => '(n, r) ← read_N s; Some (Z.of_N n, r)
  end.

(** Hexadecimal digits of [\u00..]. *)
Definition hex_value (c : Ascii.ascii) : nat :=
  let n := Ascii.nat_of_ascii c in if (n <? 58)%nat then n - 48 else n - 87.

(** One character of a string literal, escaped or not. *)
Definition read_char (s : string) : option (Ascii.ascii * string) :=
  match s with
  | EmptyString => None
  | String c r =>
      if code_is 92 c then
        match r with
        | EmptyString => None
        | String e r' =>
            if code_is 110 e then Some (Ascii.ascii_of_nat 10, r')
            else if code_is 114 e then Some (Ascii.ascii_of_nat 13, r')
            else if code_is 116 e then Some (Ascii.ascii_of_nat 9, r')
            else if code_is 98 e then Some (Ascii.ascii_of_nat 8, r')
            else if code_is 102 e then Some (Ascii.ascii_of_nat 12, r')
            else if code_is 117 e then
              match drop_prefix "00" r' with
              | Some (String h (String l r'')) => Some (Ascii.ascii_of_nat (16 * hex_value h + hex_value l), r'')
              | _ => None
              end
            else Some (e, r')
        end
      else Some (c, r)
  end.

(** The rest of a string literal, up to its closing quote. *)
Fixpoint read_string (fuel : nat) (s : string) : option (string * string) :=
  match fuel with
  | 0 => None
  | S fuel' =>
      match s with
      | EmptyString => None
      | String c r =>
          if code_is 34 c then Some (EmptyString, r)
          else '(d, r') ← read_char s; '(t, r'') ← read_string fuel' r'; Some (String d t, r'')
      end
  end.

Definition read_text (s : string) : option (string * string) :=
  s' ← drop_prefix (str_of_codes [34]) s; read_string (S (String.length s')) s'.

Fixpoint read_value (fuel : nat) (s : string) : option (json * string) :=
  match fuel with
  | 0 => None
  | S fuel' =>
      match read_int s with
      | Some (z, r) => Some (JInt z, r)
      | None =>
      match read_text s with
      | Some (t, r) => Some (JStr t, r)
      | None =>
      match drop_prefix "[]" s, drop_prefix "[" s with
      | Some r, _ => Some (JArr [], r)
      | None, Some r => '(l, r') ← read_items fuel' r; Some (JArr l, r')
      | None, None =>
      match drop_prefix "{}" s, drop_prefix "{" s with
      | Some r, _ => Some (JObj [], r)
      | None, Some r => '(l, r') ← read_members fuel' r; Some (JObj l, r')
      | None, None =>
      match drop_prefix "null" s, drop_prefix "true" s, drop_prefix "false" s with
      | Some r, _, _ => Some (JNull, r)
      | None, Some r, _ => Some (JBool true, r)
      | None, None, Some r => Some (JBool false, r)
      | None, None, None => None
      end end end end end
  end
with read_items (fuel : nat) (s : string) : option (list json * string) :=
  match fuel with
  | 0 => None
  | S fuel' =>
      '(v, r) ← read_value fuel' s;
      match drop_prefix "," r, drop_prefix "]" r with
      | Some r', _ => '(l, r'') ← read_items fuel' r'; Some (v :: l, r'')
      | None, Some r' => Some ([v], r')
      | None, None => None
      end
  end
with read_members (fuel : nat) (s : string) : option (list (string * json) * string) :=
  match fuel with
  | 0 => None
  | S fuel' =>
      '(k, r) ← read_text s;
      r1 ← drop_prefix ":" r;
      '(v, r2) ← read_value fuel' r1;
      match drop_prefix "," r2, drop_prefix "}" r2 with
      | Some r', _ => '(l, r'') ← read_members fuel' r'; Some ((k, v) :: l, r'')
      | None, Some r' => Some ([(k, v)], r')
      | None, None => None
      end
  end.

(** The whole text is one value. *)
Definition loads (s : string) : option json :=
  match read_value (S (String.length s)) s with Some (j, EmptyString) => Some j | _ => None end.

Example loads_example :
  loads (canonical_json (JObj [("b", JArr [JInt (-20); JNull; JArr []]); ("a", JStr (str_of_codes [34; 10; 7; 120]))]))
  = Some (JObj [("a", JStr (str_of_codes [34; 10; 7; 120])); ("b", JArr [JInt (-20); JNull; JArr []])]).
Proof. vm_compute. reflexivity. Qed.

(** ** Reading back *)

Lemma app_cons_s c (a b : string) : String c a +:+ b = String c (a +:+ b).
Proof. done. Qed.

Lemma app_assoc_s (a b c : string) : (a +:+ b) +:+ c = a +:+ (b +:+ c).
Proof. induction a as [|x a IH]; [done|]. by rewrite !app_cons_s, IH. Qed.

Lemma app_nil_s (a : string) : a +:+ EmptyString = a.
Proof. induction a as [|x a IH]; [done|]. by rewrite app_cons_s, IH. Qed.

Lemma length_app_s (a b : string) : String.length (a +:+ b) = String.length a + String.length b.
Proof. induction a as [|x a IH]; [done|]. rewrite app_cons_s. simpl. by rewrite IH. Qed.

Lemma drop_prefix_app p s : drop_prefix p (p +:+ s) = Some s.
Proof. induction p as [|c p IH]; [done|]. rewrite app_cons_s. simpl. by rewrite Ascii.eqb_refl. Qed.

(** *** Integers *)

Definition no_digit (s : string) : Prop := forall c s', s = String c s' -> decimal c = None.

Lemma digits_stop n s : no_digit s -> digits n s = (n, s).
Proof. intros Hs. destruct s as [|c s]; [done|]. simpl. by rewrite (Hs c s eq_refl). Qed.

Lemma pretty_N_go_app x s t : pretty_N_go x s +:+ t = pretty_N_go x (s +:+ t).
Proof.
  revert s. induction (N.lt_wf_0 x) as [x _ IH]; intros s.
  assert (x = 0 \/ 0 < x)%N as [->|Hx] by lia; [by rewrite !pretty_N_go_0|].
  rewrite !(pretty_N_go_step x) by done. rewrite IH by (by apply N.div_lt). done.
Qed.

Lemma decimal_pretty x : (x < 10)%N -> decimal (pretty_N_char x) = Some x.
Proof.
  intros Hx. assert (x = 0 \/ x = 1 \/ x = 2 \/ x = 3 \/ x = 4 \/ x = 5 \/ x = 6 \/ x = 7 \/ x = 8 \/ x = 9)%N by lia.
  naive_solver.
Qed.

Lemma digits_pretty_go x s : digits 0 (pretty_N_go x s) = digits x s.
Proof.
  revert s. induction (N.lt_wf_0 x) as [x _ IH]; intros s.
  assert (x = 0 \/ 0 < x)%N as [->|Hx] by lia; [by rewrite pretty_N_go_0|].
  rewrite pretty_N_go_step by done. rewrite IH by (by apply N.div_lt). cbn [digits].
  rewrite decimal_pretty by (by apply N.mod_lt). f_equal. rewrite <- N.div_mod'. done.
Qed.

Lemma read_N_pretty n s : no_digit s -> read_N (pretty n +:+ s) = Some (n, s).
Proof.
  intros Hs. unfold pretty, pretty_N. case_decide as Hn.
  - subst n. change ("0" +:+ s) with (String "0"%char s).
    unfold read_N. change (decimal "0"%char) with (Some 0%N). cbv iota.
    change (digits 0 (String "0"%char s)) with (digits 0 s). by rewrite digits_stop.
  - rewrite pretty_N_go_app. change (EmptyString +:+ s) with s.
    pose proof (digits_pretty_go n s) as Hd. rewrite (digits_stop n s Hs) in Hd.
    destruct (pretty_N_go n s) as [|c r]; [by simplify_eq/=|]. unfold read_N. rewrite <- Hd.
    cbn [digits] in *. destruct (decimal c); [done|]. by simplify_eq.
Qed.

Lemma pretty_no_dash n s : drop_prefix "-" (pretty (n : N) +:+ s) = None.
Proof.
  unfold pretty, pretty_N. case_decide; [done|]. destruct (pretty_N_go n EmptyString +:+ s) as [|c r] eqn:E; [done|].
  cbn [drop_prefix]. destruct (Ascii.eqb_spec "-"%char c) as [<-|]; [|done]. exfalso.
  rewrite pretty_N_go_app in E. change (EmptyString +:+ s) with s in E. revert E. change (String "-"%char r) with ("-" +:+ r).
  generalize s. clear s. revert r. induction (N.lt_wf_0 n) as [n _ IH]; intros r s.
  rewrite pretty_N_go_step by lia. destruct (decide (n `div` 10 = 0)%N) as [E|Hd].
  - rewrite E, pretty_N_go_0. unfold pretty_N_char. by repeat case_match.
  - apply IH; [apply N.div_lt; lia|done].
Qed.

Lemma read_int_pretty z s : no_digit s -> read_int (pretty (z : Z) +:+ s) = Some (z, s).
Proof.
  intros Hs. unfold read_int. destruct z as [|p|p].
  - change (pretty 0%Z) with (pretty 0%N). by rewrite pretty_no_dash, read_N_pretty.
  - change (pretty (Z.pos p)) with (pretty (N.pos p)). by rewrite pretty_no_dash, read_N_pretty.
  - change (pretty (Z.neg p)) with ("-" +:+ pretty (N.pos p)). rewrite app_assoc_s, drop_prefix_app.
    by rewrite read_N_pretty.
Qed.

(** *** Strings *)

Lemma read_char_escape c s : read_char (escape_char c +:+ s) = Some (c, s).
Proof. by destruct c as [[] [] [] [] [] [] [] []]. Qed.

(** An escaped character does not begin with a quote. *)
Lemma escape_char_head c s :
  exists d r, escape_char c +:+ s = String d r /\ code_is 34 d = false.
Proof. destruct c as [[] [] [] [] [] [] [] []]; by do 2 eexists. Qed.

Lemma read_string_escape t s fuel :
  String.length t < fuel -> read_string fuel (escape t +:+ str_of_codes [34] +:+ s) = Some (t, s).
Proof.
  revert fuel. induction t as [|c t IH]; intros fuel Hlen; (destruct fuel as [|fuel]; [simpl in Hlen; lia|]); [done|].
  cbn [escape]. rewrite app_assoc_s. pose proof (read_char_escape c (escape t +:+ str_of_codes [34] +:+ s)) as Hr.
  destruct (escape_char_head c (escape t +:+ str_of_codes [34] +:+ s)) as (d & r & E & Hd).
  rewrite E in *. cbn [read_string]. rewrite Hd, Hr. simpl in Hlen |- *. by rewrite IH by lia.
Qed.

Lemma escape_length t : String.length t <= String.length (escape t).
Proof.
  induction t as [|c t IH]; [done|]. cbn [escape]. rewrite length_app_s. simpl.
  assert (1 <= String.length (escape_char c)) by (destruct c as [[] [] [] [] [] [] [] []]; simpl; lia). lia.
Qed.

Lemma read_text_quote t s : read_text (quote t +:+ s) = Some (t, s).
Proof.
  unfold read_text, quote. rewrite app_assoc_s, drop_prefix_app, app_assoc_s. cbn [mbind option_bind]. apply read_string_escape.
  rewrite length_app_s. pose proof (escape_length t). lia.
Qed.

(** *** Values *)

(** Fuel enough to read a value. *)
Fixpoint weight (j : json) : nat :=
  match j with
  | JArr l => S (foldr (fun v n => S (weight v + n)) 0 l)
  | JObj l => S (foldr (fun kv n => S (weight kv.2 + n)) 0 l)
  | _ => 1
  end.

Definition reads (j : json) : Prop := forall fuel s,
  floatless j = true -> weight j <= fuel -> no_digit s -> read_value fuel (render j +:+ s) = Some (j, s).

Lemma no_digit_cons c s : decimal c = None -> no_digit (String c s).
Proof. intros Hc d s' [= <- _]. done. Qed.

(** Where the next separator or bracket stops a value. *)
Definition items_text (l : list json) (s : string) : string := str_join "," (map render l) +:+ "]" +:+ s.

Lemma read_items_render v l fuel s :
  Forall reads (v :: l) -> forallb floatless (v :: l) = true ->
  foldr (fun v n => S (weight v + n)) 0 (v :: l) <= fuel ->
  read_items fuel (items_text (v :: l) s) = Some (v :: l, s).
Proof.
  revert v fuel. induction l as [|v' l IH]; intros v fuel Hall Hf Hw; inversion_clear Hall as [|?? Hv Hl];
    cbn [forallb foldr] in Hf, Hw; apply andb_true_iff in Hf as [Hfv Hfl]; (destruct fuel as [|fuel]; [lia|]).
  - unfold items_text. cbn [map str_join read_items]. rewrite Hv by (try done; lia || by apply no_digit_cons).
    done.
  - change (items_text (v :: v' :: l) s) with ((render v +:+ "," +:+ str_join "," (map render (v' :: l))) +:+ "]" +:+ s).
    rewrite !app_assoc_s. fold (items_text (v' :: l) s). cbn [read_items].
    rewrite Hv by (try done; lia || by apply no_digit_cons). cbn [mbind option_bind].
    rewrite drop_prefix_app, IH by (done || cbn [foldr]; lia). done.
Qed.

Definition member_text (kv : string * json) : string := quote kv.1 +:+ ":" +:+ render kv.2.

Definition members_text (l : list (string * json)) (s : string) : string :=
  str_join "," (map member_text l) +:+ "}" +:+ s.

Lemma read_members_render kv l fuel s :
  Forall (fun kv => reads kv.2) (kv :: l) -> forallb (fun kv => floatless kv.2) (kv :: l) = true ->
  foldr (fun kv n => S (weight kv.2 + n)) 0 (kv :: l) <= fuel ->
  read_members fuel (members_text (kv :: l) s) = Some (kv :: l, s).
Proof.
  revert kv fuel. induction l as [|kv' l IH]; intros [k v] fuel Hall Hf Hw; inversion_clear Hall as [|?? Hv Hl];
    cbn [forallb foldr snd] in Hf, Hw, Hv; apply andb_true_iff in Hf as [Hfv Hfl]; (destruct fuel as [|fuel]; [lia|]).
  - unfold members_text, member_text. cbn [map str_join read_members fst snd]. rewrite !app_assoc_s, read_text_quote.
    cbn [mbind option_bind]. rewrite drop_prefix_app. cbn [mbind option_bind].
    rewrite Hv by (try done; lia || by apply no_digit_cons). done.
  - change (members_text ((k, v) :: kv' :: l) s) with
      (((quote k +:+ ":" +:+ render v) +:+ "," +:+ str_join "," (map member_text (kv' :: l))) +:+ "}" +:+ s).
    rewrite !app_assoc_s. fold (members_text (kv' :: l) s). cbn [read_members]. rewrite read_text_quote.
    cbn [mbind option_bind]. rewrite drop_prefix_app. cbn [mbind option_bind].
    rewrite Hv by (try done; lia || by apply no_digit_cons). cbn [mbind option_bind].
    rewrite drop_prefix_app, IH by (done || cbn [foldr]; lia). done.
Qed.

(** The text of a value is at least as long as the fuel it needs. *)
Lemma joined_length {A} (f : A -> string) (w : A -> nat) (l : list A) :
  Forall (fun x => w x <= String.length (f x)) l ->
  foldr (fun x n => S (w x + n)) 0 l <= S (String.length (str_join "," (map f l))).
Proof.
  induction 1 as [|x l Hx Hl IH]; [simpl; lia|]. cbn [foldr map]. destruct l as [|y l].
  - cbn. lia.
  - change (str_join "," (f x :: map f (y :: l))) with (f x +:+ "," +:+ str_join "," (map f (y :: l))).
    rewrite !length_app_s. simpl String.length at 2. lia.
Qed.

Lemma weight_length j : floatless j = true -> weight j <= String.length (render j).
Proof.
  induction j as [|[]|z|f|t|l IH|l IH] using json_nested_ind; cbn [floatless weight render]; intros Hf; try (simpl; lia); try done.
  - change (dumps "," ":" (JInt z)) with (pretty z). destruct (pretty z) eqn:E; [|simpl; lia].
    exfalso. pose proof (read_int_pretty z EmptyString) as Hr. rewrite E in Hr. cbv in Hr. discriminate Hr. done.
  - rewrite !length_app_s. simpl String.length at 1 3. 
    assert (Hall : Forall (fun v => weight v <= String.length (render v)) l).
    { apply Forall_forall. intros v Hv. rewrite Forall_forall in IH. apply IH; [done|].
      rewrite forallb_forall in Hf. apply Hf. by apply list_elem_of_In. }
    pose proof (joined_length render weight l Hall). lia.
  - rewrite !length_app_s. simpl String.length at 1 3.
    assert (Hall : Forall (fun kv => weight kv.2 <= String.length (member_text kv)) l).
    { apply Forall_forall. intros kv Hv. rewrite Forall_forall in IH. unfold member_text. rewrite !length_app_s.
      enough (weight kv.2 <= String.length (render kv.2)) by lia. apply IH; [done|].
      rewrite forallb_forall in Hf. apply (Hf kv). by apply list_elem_of_In. }
    pose proof (joined_length member_text (fun kv => weight kv.2) l Hall). unfold member_text in *. lia.
Qed.

Lemma read_array fuel t l s :
  read_items fuel t = Some (l, s) -> read_value (S fuel) ("[" +:+ t) = Some (JArr l, s).
Proof.
  intros Hr. change ("[" +:+ t) with (String "["%char t). destruct t as [|c t].
  { by destruct fuel as [|[|fuel]]. }
  destruct (Ascii.eqb_spec "]"%char c) as [<-|Hc]; [by destruct fuel as [|[|fuel]]|].
  cbn -[read_items Ascii.eqb]. apply Ascii.eqb_neq in Hc. rewrite Hc. cbn -[read_items]. by rewrite Hr.
Qed.

Lemma read_object fuel t l s :
  read_members fuel t = Some (l, s) -> read_value (S fuel) ("{" +:+ t) = Some (JObj l, s).
Proof.
  intros Hr. change ("{" +:+ t) with (String "{"%char t). destruct t as [|c t].
  { by destruct fuel as [|[|fuel]]. }
  destruct (Ascii.eqb_spec "}"%char c) as [<-|Hc]; [by destruct fuel as [|[|fuel]]|].
  cbn -[read_members Ascii.eqb]. apply Ascii.eqb_neq in Hc. rewrite Hc. cbn -[read_members]. by rewrite Hr.
Qed.

Lemma read_render j : reads j.
Proof.
  induction j as [|b|z|f|t|l IH|l IH] using json_nested_ind; intros fuel s Hf Hw Hs;
    cbn [weight] in Hw; (destruct fuel as [|fuel]; [lia|]).
  - done.
  - by destruct b.
  - cbn [read_value]. change (render (JInt z)) with (pretty z). by rewrite read_int_pretty.
  - done.
  - cbn [read_value]. change (render (JStr t)) with (quote t). rewrite read_text_quote. unfold quote. done.
  - destruct l as [|v l]; [done|]. cbn [render]. rewrite !app_assoc_s. fold (items_text (v :: l) s).
    apply read_array, read_items_render; [done|done|lia].
  - destruct l as [|kv l]; [done|]. cbn [render]. rewrite !app_assoc_s.
    change (map (fun kv => quote kv.1 +:+ ":" +:+ render kv.2) (kv :: l)) with (map member_text (kv :: l)).
    fold (members_text (kv :: l) s). apply read_object, read_members_render; [done|done|lia].
Qed.

Lemma read_canonical v :
  floatless v = true -> read_value (S (String.length (canonical_json v))) (canonical_json v) = Some (canon v, EmptyString).
Proof.
  intros Hv. rewrite <- floatless_canon in Hv. rewrite canonical_json_render.
  pose proof (read_render (canon v) (S (String.length (render (canon v)))) EmptyString Hv) as Hr.
  pose proof (weight_length _ Hv). rewrite app_nil_s in Hr. rewrite Hr; [done|lia|done].
Qed.

Lemma canonical_json_injective a b :
  floatless a = true -> floatless b = true -> canonical_json a = canonical_json b -> canon a = canon b.
Proof. intros Ha%read_canonical Hb%read_canonical E. rewrite E in Ha. congruence. Qed.

(** canonical JSON is lossless.  Reading the text that [canonical_json]
    produces gives the value back, with the members of every object in key
    order: strings with quotes, backslashes, control characters and any UTF-8
    bytes, integers of any size and sign, nested arrays and objects.  Two
    float-free values with the same canonical text, the input of every content
    hash and idempotency hash, are therefore equal up to the order of members. *)
Theorem canonical_json_roundtrip (j : json) :
  floatless j = true ->
  loads (canonical_json j) = Some (canon j) /\
  forall j', floatless j' = true -> canonical_json j' = canonical_json j -> canon j' = canon j.
Proof.
  intros Hj. split.
  - unfold loads. by rewrite read_canonical.
  - intros j' Hj' E. by apply canonical_json_injective.
Qed.

Definition demo_value : json :=
  JObj [("b", JArr [JInt (-20); JNull; JArr []]); ("a", JStr (str_of_codes [34; 10; 7; 120]))].

Lemma canonical_json_roundtrip_witness :
  loads (canonical_json demo_value) =
    Some (JObj [("a", JStr (str_of_codes [34; 10; 7; 120])); ("b", JArr [JInt (-20); JNull; JArr []])]).
Proof. exact (proj1 (canonical_json_roundtrip demo_value eq_refl)). Defined.

(** ** Hashes identify inputs, up to collisions of the digest *)
Lemma sha256_json_injective `{Builtins} (a b : json) :
  (forall s t, sha256_hex s = sha256_hex t -> s = t) -> floatless a = true -> floatless b = true ->
  sha256_json a = sha256_json b -> canon a = canon b.
Proof.
  intros Hinj Ha Hb E. assert (Hs : forall s t, "sha256:" +:+ s = "sha256:" +:+ t -> s = t).
  { intros s t Est. pose proof (drop_prefix_app "sha256:" s) as H1. rewrite Est, drop_prefix_app in H1. congruence. }
  by apply canonical_json_injective, Hinj, Hs.
Qed.

(** ** Canonical values are fixed points *)

Lemma insert_by_head {A} (leb : A -> A -> bool) x l : HdRel (fun a b => leb a b = true) x l -> insert_by leb x l = x :: l.
Proof. destruct l as [|y l]; [done|]. intros Hh. inversion_clear Hh as [|? ? Hxy]. simpl. by rewrite Hxy. Qed.

Lemma sort_by_fixed {A} (leb : A -> A -> bool) l : Sorted (fun a b => leb a b = true) l -> sort_by leb l = l.
Proof.
  induction 1 as [|x l _ IH Hh]; [done|]. cbn [sort_by foldr]. fold (sort_by leb l). rewrite IH. by apply insert_by_head.
Qed.

Lemma member_leb_total {A} (x y : string * A) : key_leb x y = false -> key_leb y x = true.
Proof. unfold key_leb. destruct (String.leb_total x.1 y.1) as [->| ->]; [done|done]. Qed.

Lemma canon_idem j : canon (canon j) = canon j.
Proof.
  induction j as [| | | | |l IH|l IH] using json_nested_ind; try done; cbn [canon].
  - f_equal. rewrite map_map. by apply map_ext_Forall.
  - f_equal. set (f := fun kv : string * json => (kv.1, canon kv.2)).
    rewrite <- (sort_by_map f key_leb key_leb) by done.
    assert (E : map f (map f l) = map f l).
    { rewrite map_map. apply map_ext_Forall. eapply Forall_impl; [exact IH|]. intros [k v] Hv. unfold f. simpl in *. by rewrite Hv. }
    rewrite E. apply sort_by_fixed, sort_by_sorted. apply member_leb_total.
Qed.

Lemma canonical_json_canon j : canonical_json (canon j) = canonical_json j.
Proof. by rewrite !canonical_json_render, canon_idem. Qed.
