(* ===== verification/Domain.v ===== *)
(** * The PRD workflow domain

    The enumerations, entities and commands of [prd_agent/domain], and the
    deterministic policies of [prd_agent/policies]. *)
From stdpp Require Import base list sets strings pretty.
From Stdlib Require Import ZArith.
From S2P Require Import Prelude PyDict Json.

Open Scope Z_scope.

(** ** Enumerations ([domain/enums.py]) *)

Module TaskStatus.
Inductive TaskStatus : Type :=
  | DRAFT | CLARIFYING | OUTLINE_REVIEW | GENERATING | FINAL_REVIEW | COMPLETED
  | FAILED | STOPPED | DELETING.
#[global] Instance TaskStatus_eq_dec : EqDecision TaskStatus.
Proof. solve_decision. Defined.
End TaskStatus.
Abbreviation TaskStatus := TaskStatus.TaskStatus.

Module RunStatus.
Inductive RunStatus : Type :=
  | QUEUED | RUNNING | WAITING_USER | SUCCEEDED | FAILED | STOPPED.
#[global] Instance RunStatus_eq_dec : EqDecision RunStatus.
Proof. solve_decision. Defined.
End RunStatus.
Abbreviation RunStatus := RunStatus.RunStatus.

Module OutlineStatus.
Inductive OutlineStatus : Type := DRAFT | PENDING_CONFIRMATION | CONFIRMED | SUPERSEDED.
#[global] Instance OutlineStatus_eq_dec : EqDecision OutlineStatus.
Proof. solve_decision. Defined.
End OutlineStatus.
Abbreviation OutlineStatus := OutlineStatus.OutlineStatus.

Module UnitStatus.
Inductive UnitStatus : Type :=
  | PENDING | PREPARING | INVESTIGATING | GENERATING | PENDING_CONFIRMATION | CONFIRMED
  | REVISION_REQUIRED | HUMAN_INPUT_REQUIRED | SUPERSEDED | FAILED.
#[global] Instance UnitStatus_eq_dec : EqDecision UnitStatus.
Proof. solve_decision. Defined.
End UnitStatus.
Abbreviation UnitStatus := UnitStatus.UnitStatus.

Module SectionStatus.
Inductive SectionStatus : Type :=
  | DRAFT | PENDING_CONFIRMATION | CONFIRMED | INVALIDATED | SUPERSEDED.
#[global] Instance SectionStatus_eq_dec : EqDecision SectionStatus.
Proof. solve_decision. Defined.
End SectionStatus.
Abbreviation SectionStatus := SectionStatus.SectionStatus.

Module DocumentStatus.
Inductive DocumentStatus : Type := CHECKING | FINAL_REVIEW | CONFIRMED | SUPERSEDED.
#[global] Instance DocumentStatus_eq_dec : EqDecision DocumentStatus.
Proof. solve_decision. Defined.
End DocumentStatus.
Abbreviation DocumentStatus := DocumentStatus.DocumentStatus.

Module Complexity.
Inductive Complexity : Type := LOW | MEDIUM | HIGH.
#[global] Instance Complexity_eq_dec : EqDecision Complexity.
Proof. solve_decision. Defined.
End Complexity.
Abbreviation Complexity := Complexity.Complexity.

(** [Complexity(value)]. *)
Definition Complexity_of (value : string) : result exc Complexity :=
  if decide (value = "LOW") then Ok Complexity.LOW
  else if decide (value = "MEDIUM") then Ok Complexity.MEDIUM
  else if decide (value = "HIGH") then Ok Complexity.HIGH
  else Raise ValueError.

(** [status in ACTIVE_RUN_STATUSES]. *)
Definition active (s : RunStatus) : bool :=
  match s with
  | RunStatus.QUEUED | RunStatus.RUNNING | RunStatus.WAITING_USER => true
  | _ => false
  end.

(** ** Entities ([domain/entities.py]) *)

Record Task := mkTask {
  t_task_id : string;
  t_title : option string;
  t_status : TaskStatus;
  t_version : Z;
  t_current_outline_version : option Z;
  t_current_unit_sequence : option Z;
  t_created_at : Z;
  t_updated_at : Z;
  t_owner_id : string
}.

Record RequirementBrief := mkBrief {
  problem : string;
  target_users : list string;
  scenarios : list string;
  goals : list string;
  scope_in : list string;
  scope_out : list string;
  product_rules : list string;
  success_metrics : list string;
  current_state_fact_ids : list string;
  target_decisions : list string;
  authorized_assumptions : list string;
  agent_suggestions : list string;
  open_questions : list string;
  unknown_item_ids : list string;
  source_conflict_ids : list string
}.

Record RequirementBriefVersion := mkBriefVersion {
  bv_task_id : string;
  bv_version : Z;
  bv_brief : RequirementBrief;
  bv_confirmed : bool;
  bv_created_at : Z
}.

Record OutlineNode := mkOutlineNode {
  n_node_id : string;
  n_sequence : Z;
  n_title : string;
  n_purpose : string;
  n_complexity : Complexity;
  n_required_information : list json;
  n_parent_id : option string;
  n_level : Z;
  n_stable_key : option string
}.

(** One entry of [ConfirmationUnit.section_drafts]. *)
Record SectionDraft := mkSectionDraft {
  sd_node_id : option string;
  sd_title : string;
  sd_content : string;
  sd_content_hash : string
}.

Record ConfirmationUnit := mkUnit {
  u_unit_id : string;
  u_outline_id : string;
  u_sequence : Z;
  u_title : string;
  u_status : UnitStatus;
  u_content : option string;
  u_version : Z;
  u_node_ids : list string;
  u_depends_on_unit_ids : list string;
  u_content_hash : option string;
  u_grounding_run_id : option string;
  u_quality_run_id : option string;
  u_section_drafts : list SectionDraft
}.

Record OutlineVersion := mkOutline {
  o_outline_id : string;
  o_task_id : string;
  o_version : Z;
  o_title : string;
  o_status : OutlineStatus;
  o_nodes : list OutlineNode;
  o_confirmation_units : list ConfirmationUnit;
  o_created_at : Z;
  o_confirmed_at : option Z
}.

Record AgentRun := mkRun {
  r_run_id : string;
  r_task_id : string;
  r_thread_id : string;
  r_graph_name : string;
  r_graph_version : string;
  r_status : RunStatus;
  r_input_hash : string;
  r_idempotency_key : string;
  r_started_at : option Z;
  r_ended_at : option Z;
  r_error : option exc
}.

Record TaskMessage := mkTaskMessage {
  tm_message_id : string;
  tm_task_id : string;
  tm_actor_id : string;
  tm_content : string;
  tm_created_at : Z
}.

Record PrdSectionVersion := mkSection {
  s_section_id : string;
  s_unit_id : string;
  s_version : Z;
  s_title : string;
  s_content : string;
  s_created_at : Z;
  s_node_id : option string;
  s_status : SectionStatus;
  s_content_hash : string;
  s_source_run_id : option string;
  s_grounding_run_id : option string;
  s_quality_run_id : option string;
  s_supersedes_section_id : option string;
  s_confirmed_by : option string;
  s_confirmed_at : option Z
}.

Record PrdDocumentVersion := mkDocument {
  d_document_id : string;
  d_task_id : string;
  d_version : Z;
  d_markdown : string;
  d_created_at : Z;
  d_content_hash : string;
  d_status : DocumentStatus;
  d_section_ids : list string;
  d_confirmed_by : option string;
  d_confirmed_at : option Z
}.

Record DomainEvent := mkDomainEvent {
  ev_event_id : string;
  ev_task_id : string;
  ev_sequence : Z;
  ev_event_type : string;
  ev_payload : list (string * json);
  ev_created_at : Z
}.

Record IdempotencyRecord := mkIdempotencyRecord {
  ir_actor_id : string;
  ir_idempotency_key : string;
  ir_input_hash : string;
  ir_task_id : string;
  ir_run_id : string;
  ir_created_at : Z
}.

(** [_strings(value, field_name)]. *)
Definition strings_field `{Builtins} (value : option json) : result exc (list string) :=
  match value with
  | None | Some JNull => Ok []
  | Some (JArr l) =>
      let items := map (fun item => strip (py_str item)) l in
      if existsb (fun s => negb (truthy s)) items then Raise ModelOutputError else Ok items
  | Some _ => Raise ModelOutputError
  end.

Definition RequirementBrief_from_mapping `{Builtins} (value : json) : result exc RequirementBrief :=
  match as_mapping value with
  | None => Raise ModelOutputError
  | Some v =>
      let problem := strip (str_get "problem" EmptyString v) in
      if negb (truthy problem) then Raise ModelOutputError else
      if existsb (fun name => match jget name v with Some j => jtruthy j | None => false end)
           ["current_state_fact_ids"; "unknown_item_ids"; "source_conflict_ids"]
      then Raise ModelOutputError else
      let field name k := result_bind k (strings_field (jget name v)) in
      field "target_users" (fun target_users =>
      field "scenarios" (fun scenarios =>
      field "goals" (fun goals =>
      field "scope_in" (fun scope_in =>
      field "scope_out" (fun scope_out =>
      field "product_rules" (fun product_rules =>
      field "success_metrics" (fun success_metrics =>
      field "current_state_fact_ids" (fun current_state_fact_ids =>
      field "target_decisions" (fun target_decisions =>
      field "authorized_assumptions" (fun authorized_assumptions =>
      field "agent_suggestions" (fun agent_suggestions =>
      field "open_questions" (fun open_questions =>
      field "unknown_item_ids" (fun unknown_item_ids =>
      field "source_conflict_ids" (fun source_conflict_ids =>
      Ok (mkBrief problem target_users scenarios goals scope_in scope_out product_rules
            success_metrics current_state_fact_ids target_decisions authorized_assumptions
            agent_suggestions open_questions unknown_item_ids source_conflict_ids)))))))))))))))
  end.

(** [as_dict]: the fields in declaration order, tuples as lists. *)
Definition RequirementBrief_as_dict (b : RequirementBrief) : json :=
  let arr l := JArr (map JStr l) in
  JObj [("problem", JStr (problem b)); ("target_users", arr (target_users b));
        ("scenarios", arr (scenarios b)); ("goals", arr (goals b));
        ("scope_in", arr (scope_in b)); ("scope_out", arr (scope_out b));
        ("product_rules", arr (product_rules b)); ("success_metrics", arr (success_metrics b));
        ("current_state_fact_ids", arr (current_state_fact_ids b));
        ("target_decisions", arr (target_decisions b));
        ("authorized_assumptions", arr (authorized_assumptions b));
        ("agent_suggestions", arr (agent_suggestions b));
        ("open_questions", arr (open_questions b));
        ("unknown_item_ids", arr (unknown_item_ids b));
        ("source_conflict_ids", arr (source_conflict_ids b))].

Definition nonempty {A} (l : list A) : bool := match l with [] => false | _ => true end.

Definition needs_clarification (b : RequirementBrief) : bool :=
  nonempty (open_questions b) ||
  negb (nonempty (target_users b) && nonempty (scenarios b) && nonempty (goals b) && nonempty (scope_in b)).

(** ** Commands ([domain/commands.py]) *)

Record StartTask := mkStartTask {
  st_message : string; st_idempotency_key : string; st_actor_id : string }.
Record ReplyToTask := mkReplyToTask {
  rt_task_id : string; rt_message : string; rt_expected_task_version : Z;
  rt_idempotency_key : string; rt_actor_id : string }.
Record ConfirmOutline := mkConfirmOutline {
  co_task_id : string; co_outline_version : Z; co_expected_task_version : Z;
  co_idempotency_key : string; co_actor_id : string }.
Record ConfirmUnit := mkConfirmUnit {
  cu_task_id : string; cu_unit_id : string; cu_expected_task_version : Z;
  cu_idempotency_key : string; cu_actor_id : string }.
Record FinalizePrd := mkFinalizePrd {
  fp_task_id : string; fp_document_id : string; fp_content_hash : string;
  fp_expected_task_version : Z; fp_idempotency_key : string; fp_actor_id : string }.
Record ApproveRevisionPlan := mkApproveRevisionPlan {
  ar_task_id : string; ar_document_id : string; ar_issue_ids : list string;
  ar_unit_ids : list string; ar_expected_task_version : Z;
  ar_idempotency_key : string; ar_actor_id : string }.
Record ReopenPrd := mkReopenPrd {
  rp_task_id : string; rp_unit_ids : list string; rp_reason : string;
  rp_expected_task_version : Z; rp_idempotency_key : string; rp_actor_id : string }.

(** ** Policies ([policies/]) *)

(** [TaskTransitionPolicy._allowed]. *)
Definition allowed_transitions (current : TaskStatus) : list TaskStatus :=
  match current with
  | TaskStatus.DRAFT => [TaskStatus.CLARIFYING; TaskStatus.DELETING]
  | TaskStatus.CLARIFYING =>
      [TaskStatus.OUTLINE_REVIEW; TaskStatus.FAILED; TaskStatus.STOPPED; TaskStatus.DELETING]
  | TaskStatus.OUTLINE_REVIEW =>
      [TaskStatus.CLARIFYING; TaskStatus.GENERATING; TaskStatus.DELETING]
  | TaskStatus.GENERATING =>
      [TaskStatus.OUTLINE_REVIEW; TaskStatus.FINAL_REVIEW; TaskStatus.FAILED;
       TaskStatus.STOPPED; TaskStatus.DELETING]
  | TaskStatus.FINAL_REVIEW =>
      [TaskStatus.GENERATING; TaskStatus.COMPLETED; TaskStatus.DELETING]
  | TaskStatus.COMPLETED => [TaskStatus.GENERATING; TaskStatus.DELETING]
  | TaskStatus.FAILED =>
      [TaskStatus.CLARIFYING; TaskStatus.OUTLINE_REVIEW; TaskStatus.GENERATING; TaskStatus.DELETING]
  | TaskStatus.STOPPED =>
      [TaskStatus.CLARIFYING; TaskStatus.OUTLINE_REVIEW; TaskStatus.GENERATING; TaskStatus.DELETING]
  | TaskStatus.DELETING => []
  end.

Definition transition (current target : TaskStatus) (current_version expected_version : Z)
    : result exc TaskStatus :=
  if negb (Z.eqb current_version expected_version) then Raise VersionConflict
  else if decide (target ∈ allowed_transitions current) then Ok target
  else Raise InvalidTransition.

(** [OutlinePolicy.confirm]. *)
Definition outline_policy_confirm (outline : OutlineVersion) (requested_version : Z) : result exc unit :=
  if negb (Z.eqb (o_version outline) requested_version) then Raise InvalidTransition
  else if negb (bool_decide (o_status outline = OutlineStatus.PENDING_CONFIRMATION)) then
    Raise InvalidTransition
  else if negb (nonempty (o_nodes outline)) then Raise InvalidTransition
  else if negb (nonempty (o_confirmation_units outline)) then Raise InvalidTransition
  else if (15 <? length (o_confirmation_units outline))%nat then Raise InvalidTransition
  else Ok tt.

Definition has_unit_id (unit_id : string) (u : ConfirmationUnit) : bool :=
  bool_decide (u_unit_id u = unit_id).

Definition unit_confirmed (u : ConfirmationUnit) : bool :=
  bool_decide (u_status u = UnitStatus.CONFIRMED).

Definition confirmed_ids (outline : OutlineVersion) : list string :=
  u_unit_id <$> List.filter unit_confirmed (o_confirmation_units outline).

(** [UnitPolicy.confirm]. *)
Definition unit_policy_confirm (outline : OutlineVersion) (unit_id : string)
    (current_sequence : option Z) : result exc unit :=
  if negb (bool_decide (o_status outline = OutlineStatus.CONFIRMED)) then Raise InvalidTransition else
  match List.filter (has_unit_id unit_id) (o_confirmation_units outline) with
  | [] => Raise InvalidTransition
  | u :: _ =>
      if negb (bool_decide (Some (u_sequence u) = current_sequence)) then Raise InvalidTransition
      else if existsb (fun item => negb (bool_decide (item ∈ confirmed_ids outline)))
                (u_depends_on_unit_ids u) then Raise InvalidTransition
      else if negb (bool_decide (u_status u = UnitStatus.PENDING_CONFIRMATION))
              || negb (truthy (default EmptyString (u_content u))) then Raise InvalidTransition
      else Ok tt
  end.
