(* ===== verification/Grounding.v ===== *)
(** * Source grounding

    The data of [prd_agent/evidence/models.py], [prd_agent/sources/models.py]
    and [prd_agent/grounding/models.py], and [GroundingService] of
    [prd_agent/grounding/service.py]: the gate that decides whether the claims
    of a generated unit are backed by verified facts. *)
From stdpp Require Import base list sets strings pretty.
From Stdlib Require Import ZArith.
From S2P Require Import Prelude PyDict Json.

Open Scope Z_scope.

(** ** Sources and facts *)

Module SourceKind.
Inductive SourceKind : Type := CODE_REPOSITORY | HISTORICAL_PRD_CORPUS | HISTORICAL_PRD_DOCUMENT.
#[global] Instance SourceKind_eq_dec : EqDecision SourceKind.
Proof. solve_decision. Defined.
End SourceKind.
Abbreviation SourceKind := SourceKind.SourceKind.

Module ExtractionMethod.
Inductive ExtractionMethod : Type :=
  | TREE | SEARCH | SOURCE_READ | OPENAPI_PARSE | DATABASE_SCHEMA_PARSE | RELATED_TEST_SEARCH
  | SYMBOL_SEARCH | REFERENCE_SEARCH | HISTORICAL_RETRIEVAL | EXTERNAL_AGENT_CANDIDATE.
End ExtractionMethod.
Abbreviation ExtractionMethod := ExtractionMethod.ExtractionMethod.

Module FactScope.
Inductive FactScope : Type := CURRENT_STATE | HISTORICAL_CONTEXT | TARGET_DECISION | ASSUMPTION.
#[global] Instance FactScope_eq_dec : EqDecision FactScope.
Proof. solve_decision. Defined.
End FactScope.
Abbreviation FactScope := FactScope.FactScope.

Module FactType.
Inductive FactType : Type := USER_CONFIRMED | CODE_VERIFIED | DOCUMENT_SUPPORTED | INFERRED | UNKNOWN.
#[global] Instance FactType_eq_dec : EqDecision FactType.
Proof. solve_decision. Defined.
End FactType.
Abbreviation FactType := FactType.FactType.

Module VerificationStatus.
Inductive VerificationStatus : Type := SUPPORTED | PARTIALLY_SUPPORTED | UNSUPPORTED | CONFLICTING.
#[global] Instance VerificationStatus_eq_dec : EqDecision VerificationStatus.
Proof. solve_decision. Defined.
End VerificationStatus.
Abbreviation VerificationStatus := VerificationStatus.VerificationStatus.

Record SourceEvidence := mkEvidence {
  e_evidence_id : string;
  e_tool_call_id : string;
  e_source_type : string;
  e_source_kind : SourceKind;
  e_source_id : option string;
  e_source_version : option string;
  e_locator : list (string * json);
  e_access_scope_hash : option string;
  e_repository_id : option string;
  e_resolved_commit_sha : option string;
  e_path : option string;
  e_line_start : option Z;
  e_line_end : option Z;
  e_symbol : option string;
  e_excerpt : string;
  e_content_hash : string;
  e_source_blob_id : option string;
  e_extraction_method : ExtractionMethod;
  e_redaction_applied : bool;
  e_retrieved_at : Z
}.

(** [bool(value)] of an optional string. *)
Definition opt_truthy (s : option string) : bool := truthy (default EmptyString s).

(** [SourceEvidence.validate_source_contract]. *)
Definition validate_source_contract (e : SourceEvidence) : result exc SourceEvidence :=
  if negb (opt_truthy (e_source_id e)) || negb (opt_truthy (e_source_version e)) then Raise ValueError
  else if decide (e_source_kind e = SourceKind.CODE_REPOSITORY) then
    if negb (opt_truthy (e_repository_id e)) || negb (opt_truthy (e_resolved_commit_sha e))
       || negb (opt_truthy (e_path e))
    then Raise ValueError else Ok e
  else match e_locator e with [] => Raise ValueError | _ => Ok e end.

Record DeterministicFact := mkFact {
  f_fact_id : string;
  f_tool_call_id : string;
  f_task_id : option string;
  f_subject : string;
  f_predicate : string;
  f_value_json : json;
  f_fact_scope : FactScope;
  f_fact_type : FactType;
  f_confidence : string;
  f_verification_status : VerificationStatus;
  f_extractor_id : string;
  f_extractor_version : string;
  f_evidence_ids : list string
}.

Record SourceConflict := mkConflict {
  sc_conflict_id : string;
  sc_subject : string;
  sc_description : string;
  sc_fact_ids : list string;
  sc_status : string
}.

Record SourceBinding := mkBinding {
  sb_binding_id : string;
  sb_source_kind : SourceKind;
  sb_source_id : string;
  sb_source_version : string;
  sb_owner_id : string;
  sb_access_scope_hash : string;
  sb_metadata : list (string * string)
}.

(** ** Claims, requests and results *)

Module Verdict.
Inductive GroundingVerdict : Type :=
  | SUPPORTED | PARTIALLY_SUPPORTED | UNSUPPORTED | CONFLICTING | STALE_SOURCE | INVALID_SOURCE.
#[global] Instance GroundingVerdict_eq_dec : EqDecision GroundingVerdict.
Proof. solve_decision. Defined.
End Verdict.
Abbreviation GroundingVerdict := Verdict.GroundingVerdict.

Module ClaimKind.
Inductive ClaimKind : Type :=
  | CURRENT_STATE | HISTORICAL_CONTEXT | TARGET_DECISION | ASSUMPTION | RECOMMENDATION | UNKNOWN | RISK.
#[global] Instance ClaimKind_eq_dec : EqDecision ClaimKind.
Proof. solve_decision. Defined.
End ClaimKind.
Abbreviation ClaimKind := ClaimKind.ClaimKind.

Module ClaimCriticality.
Inductive ClaimCriticality : Type := CRITICAL | MATERIAL | INFORMATIONAL.
#[global] Instance ClaimCriticality_eq_dec : EqDecision ClaimCriticality.
Proof. solve_decision. Defined.
End ClaimCriticality.
Abbreviation ClaimCriticality := ClaimCriticality.ClaimCriticality.

Module GroundingAction.
Inductive GroundingAction : Type :=
  | PASS | RETRY_INVESTIGATION | DELETE_CLAIM | DOWNGRADE_TO_ASSUMPTION | CONVERT_TO_UNKNOWN
  | CONVERT_TO_RISK | HUMAN_CONFIRMATION_REQUIRED.
End GroundingAction.
Abbreviation GroundingAction := GroundingAction.GroundingAction.

Module GroundingStatus.
Inductive GroundingStatus : Type := PASSED | DEGRADED | HUMAN_INPUT_REQUIRED | FAILED.
End GroundingStatus.
Abbreviation GroundingStatus := GroundingStatus.GroundingStatus.

Record PrdClaim := mkClaim {
  c_claim_id : string;
  c_text : string;
  c_kind : ClaimKind;
  c_criticality : ClaimCriticality;
  c_fact_ids : list string;
  c_decision_ids : list string;
  c_assumption_ids : list string
}.

Record GroundingRequest := mkGroundingRequest {
  g_grounding_run_id : string;
  g_task_id : string;
  g_unit_id : string;
  g_repository_id : option string;
  g_resolved_commit_sha : option string;
  g_allowed_source_bindings : list SourceBinding;
  g_content : string;
  g_claims : list PrdClaim;
  g_facts : list DeterministicFact;
  g_evidence : list SourceEvidence;
  g_conflicts : list SourceConflict;
  g_retry_count : Z
}.

Record GroundingSupplement := mkSupplement {
  sup_facts : list DeterministicFact;
  sup_evidence : list SourceEvidence;
  sup_conflicts : list SourceConflict
}.

Record FactGroundingAssessment := mkFactAssessment {
  fa_fact_id : string;
  fa_evidence_ids : list string;
  fa_verdict : GroundingVerdict;
  fa_reason_code : string
}.

Record ClaimGroundingAssessment := mkClaimAssessment {
  ca_claim_id : string;
  ca_kind : ClaimKind;
  ca_verdict : GroundingVerdict;
  ca_valid_fact_ids : list string;
  ca_invalid_fact_ids : list string;
  ca_action : GroundingAction;
  ca_reason_code : string
}.

Record GroundingReference := mkReference {
  ref_claim_ids : list string;
  ref_fact_id : string;
  ref_evidence_id : string;
  ref_source_kind : SourceKind;
  ref_source_id : string;
  ref_source_version : string;
  ref_locator : list (string * json);
  ref_repository_id : option string;
  ref_resolved_commit_sha : option string;
  ref_path : option string;
  ref_line_start : option Z;
  ref_line_end : option Z;
  ref_symbol : option string
}.

Record GroundingResult := mkGroundingResult {
  gr_grounding_run_id : string;
  gr_task_id : string;
  gr_unit_id : string;
  gr_status : GroundingStatus;
  gr_confirmable : bool;
  gr_fact_assessments : list FactGroundingAssessment;
  gr_claim_assessments : list ClaimGroundingAssessment;
  gr_used_fact_ids : list string;
  gr_references : list GroundingReference;
  gr_retry_count : Z;
  gr_issues : list string
}.

(** The pattern [^[0-9a-f]{40}$]. *)
Fixpoint all_lower_hex (s : string) : bool :=
  match s with
  | EmptyString => true
  | String c s' =>
      let n := Ascii.nat_of_ascii c in
      (((48 <=? n)%nat && (n <=? 57)%nat) || ((97 <=? n)%nat && (n <=? 102)%nat)) && all_lower_hex s'
  end.

Definition is_commit_sha (s : string) : bool := (String.length s =? 40)%nat && all_lower_hex s.

(** The field constraints and [validate_source_scope]. *)
Definition GroundingRequest_validate (r : GroundingRequest) : result exc GroundingRequest :=
  if negb (truthy (g_grounding_run_id r)) || negb (truthy (g_task_id r)) || negb (truthy (g_unit_id r))
     || negb (truthy (g_content r))
     || match g_repository_id r with Some s => negb (truthy s) | None => false end
     || match g_resolved_commit_sha r with Some s => negb (is_commit_sha s) | None => false end
     || negb ((0 <=? g_retry_count r) && (g_retry_count r <=? 1))
  then Raise ValueError
  else if negb (Bool.eqb (opt_truthy (g_repository_id r)) (opt_truthy (g_resolved_commit_sha r)))
  then Raise ValueError
  else if negb (opt_truthy (g_repository_id r))
          && match g_allowed_source_bindings r with [] => true | _ => false end
  then Raise ValueError
  else Ok r.

(** ** [GroundingService] *)

Section service.
Context `{Builtins}.

Definition searchable_value (value : json) : string :=
  match value with
  | JStr s => lower (strip s)
  | _ => lower (dumps ", " ": " value)
  end.

Definition locator_is (key expected : string) (e : SourceEvidence) : bool :=
  match jget key (e_locator e) with
  | Some (JStr s) => bool_decide (expected = s)
  | _ => false
  end.

Definition historical (e : SourceEvidence) : bool :=
  bool_decide (e_source_kind e = SourceKind.HISTORICAL_PRD_DOCUMENT).

(** The bindings that can vouch for a piece of evidence. *)
Definition binding_matches (e : SourceEvidence) (b : SourceBinding) : bool :=
  (bool_decide (sb_source_kind b = e_source_kind e)
   || (bool_decide (sb_source_kind b = SourceKind.HISTORICAL_PRD_CORPUS) && historical e))
  && (bool_decide (Some (sb_source_id b) = e_source_id e)
      || (historical e && locator_is "corpus_id" (sb_source_id b) e)).

Definition binding_current (e : SourceEvidence) (b : SourceBinding) : bool :=
  bool_decide (Some (sb_source_version b) = e_source_version e)
  || (historical e && locator_is "corpus_version" (sb_source_version b) e).

(** [_source_verdict]: [None] when the evidence may be used. *)
Definition source_verdict (r : GroundingRequest) (e : SourceEvidence)
    : option (GroundingVerdict * string) :=
  match g_allowed_source_bindings r with
  | _ :: _ =>
      match List.filter (binding_matches e) (g_allowed_source_bindings r) with
      | [] => Some (Verdict.INVALID_SOURCE, "SOURCE_BINDING_MISMATCH")
      | candidates =>
          match List.find (binding_current e) candidates with
          | None => Some (Verdict.STALE_SOURCE, "SOURCE_VERSION_MISMATCH")
          | Some b =>
              if opt_truthy (e_access_scope_hash e)
                 && negb (bool_decide (e_access_scope_hash e = Some (sb_access_scope_hash b)))
              then Some (Verdict.INVALID_SOURCE, "ACCESS_SCOPE_MISMATCH")
              else None
          end
      end
  | [] =>
      if negb (bool_decide (e_source_kind e = SourceKind.CODE_REPOSITORY)) then
        Some (Verdict.INVALID_SOURCE, "SOURCE_KIND_NOT_ALLOWED")
      else if negb (bool_decide (e_repository_id e = g_repository_id r)) then
        Some (Verdict.INVALID_SOURCE, "REPOSITORY_MISMATCH")
      else if negb (bool_decide (e_resolved_commit_sha e = g_resolved_commit_sha r)) then
        Some (Verdict.STALE_SOURCE, "COMMIT_MISMATCH")
      else None
  end.

(** The loop over [fact.evidence_ids]: an early verdict or the linked evidence. *)
Fixpoint link_evidence (r : GroundingRequest) (evidence_by_id : dict string SourceEvidence)
    (ids : list string) (linked : list SourceEvidence)
    : (GroundingVerdict * string) + list SourceEvidence :=
  match ids with
  | [] => inr linked
  | evidence_id :: rest =>
      match evidence_by_id !! evidence_id with
      | None => inl (Verdict.INVALID_SOURCE, "EVIDENCE_NOT_FOUND")
      | Some evidence =>
          match source_verdict r evidence with
          | Some verdict => inl verdict
          | None =>
              if negb (truthy (strip (e_excerpt evidence))) || negb (truthy (e_content_hash evidence))
              then inl (Verdict.INVALID_SOURCE, "EVIDENCE_NOT_REPRODUCIBLE")
              else link_evidence r evidence_by_id rest (linked ++ [evidence])
          end
      end
  end.

Definition assess_fact (r : GroundingRequest) (fact : DeterministicFact)
    (evidence_by_id : dict string SourceEvidence) (conflict_fact_ids : list string)
    : GroundingVerdict * string :=
  if opt_truthy (f_task_id fact) && negb (bool_decide (f_task_id fact = Some (g_task_id r))) then
    (Verdict.INVALID_SOURCE, "FACT_TASK_MISMATCH")
  else if bool_decide (f_fact_id fact ∈ conflict_fact_ids) then
    (Verdict.CONFLICTING, "OPEN_SOURCE_CONFLICT")
  else match f_evidence_ids fact with
  | [] => (Verdict.INVALID_SOURCE, "EVIDENCE_REQUIRED")
  | _ =>
      if bool_decide (f_fact_type fact ∈ [FactType.INFERRED; FactType.UNKNOWN]) then
        (Verdict.UNSUPPORTED, "NON_DETERMINISTIC_FACT")
      else match f_verification_status fact with
      | VerificationStatus.CONFLICTING => (Verdict.CONFLICTING, "FACT_CONFLICTING")
      | VerificationStatus.PARTIALLY_SUPPORTED => (Verdict.PARTIALLY_SUPPORTED, "FACT_PARTIAL")
      | VerificationStatus.UNSUPPORTED => (Verdict.UNSUPPORTED, "FACT_NOT_VERIFIED")
      | VerificationStatus.SUPPORTED =>
          match link_evidence r evidence_by_id (f_evidence_ids fact) [] with
          | inl verdict => verdict
          | inr linked =>
              let value := searchable_value (f_value_json fact) in
              if truthy value
                 && negb (existsb (fun e => str_contains value (lower (e_excerpt e))) linked)
              then (Verdict.UNSUPPORTED, "EVIDENCE_ONLY_RELATED")
              else (Verdict.SUPPORTED, "DIRECT_SUPPORT")
          end
      end
  end.

Definition fact_can_support_claim (fact : option DeterministicFact) (kind : ClaimKind) : bool :=
  match fact, kind with
  | None, _ => false
  | Some f, ClaimKind.CURRENT_STATE =>
      bool_decide (f_fact_type f = FactType.CODE_VERIFIED)
      && bool_decide (f_fact_scope f = FactScope.CURRENT_STATE)
  | Some f, ClaimKind.HISTORICAL_CONTEXT =>
      bool_decide (f_fact_type f = FactType.DOCUMENT_SUPPORTED)
      && bool_decide (f_fact_scope f = FactScope.HISTORICAL_CONTEXT)
  | Some _, _ => false
  end.

(** The facts of a claim that support it. *)
Definition valid_facts (c : PrdClaim) (fact_verdicts : dict string FactGroundingAssessment)
    (facts_by_id : dict string DeterministicFact) : list string :=
  List.filter (fun id =>
    bool_decide (fa_verdict <$> (fact_verdicts !! id) = Some Verdict.SUPPORTED)
    && fact_can_support_claim (facts_by_id !! id) (c_kind c)) (c_fact_ids c).

Definition assess_claim (c : PrdClaim) (fact_verdicts : dict string FactGroundingAssessment)
    (facts_by_id : dict string DeterministicFact) : ClaimGroundingAssessment :=
  let simple (supported : bool) (reason : string) :=
    mkClaimAssessment (c_claim_id c) (c_kind c)
      (if supported then Verdict.SUPPORTED else Verdict.UNSUPPORTED) [] []
      (if supported then GroundingAction.PASS else GroundingAction.HUMAN_CONFIRMATION_REQUIRED) reason in
  match c_kind c with
  | ClaimKind.CURRENT_STATE | ClaimKind.HISTORICAL_CONTEXT =>
      let current := bool_decide (c_kind c = ClaimKind.CURRENT_STATE) in
      match c_fact_ids c with
      | [] =>
          mkClaimAssessment (c_claim_id c) (c_kind c) Verdict.UNSUPPORTED [] []
            GroundingAction.RETRY_INVESTIGATION
            (if current then "CURRENT_STATE_FACT_REQUIRED" else "HISTORICAL_FACT_REQUIRED")
      | _ =>
          let valid := valid_facts c fact_verdicts facts_by_id in
          let invalid := List.filter (fun id => negb (bool_decide (id ∈ valid))) (c_fact_ids c) in
          let supported := (length valid =? length (c_fact_ids c))%nat in
          mkClaimAssessment (c_claim_id c) (c_kind c)
            (if supported then Verdict.SUPPORTED else Verdict.UNSUPPORTED) valid invalid
            (if supported then GroundingAction.PASS else GroundingAction.RETRY_INVESTIGATION)
            (if supported then "FACTS_SUPPORT_CLAIM"
             else if current then "CLAIM_HAS_UNSUPPORTED_FACT"
             else "HISTORICAL_CLAIM_HAS_UNSUPPORTED_FACT")
      end
  | ClaimKind.TARGET_DECISION =>
      let supported := match c_decision_ids c with [] => false | _ => true end in
      simple supported (if supported then "TARGET_DECISION_CONFIRMED" else "DECISION_REQUIRED")
  | ClaimKind.ASSUMPTION =>
      let supported := match c_assumption_ids c with [] => false | _ => true end in
      simple supported (if supported then "ASSUMPTION_AUTHORIZED"
                        else "ASSUMPTION_AUTHORIZATION_REQUIRED")
  | _ => simple true "NON_DETERMINISTIC_CLAIM_LABELED"
  end.

Definition gated (kind : ClaimKind) : bool :=
  match kind with
  | ClaimKind.CURRENT_STATE | ClaimKind.HISTORICAL_CONTEXT | ClaimKind.TARGET_DECISION
  | ClaimKind.ASSUMPTION => true
  | _ => false
  end.

Definition supported_claim (a : ClaimGroundingAssessment) : bool :=
  bool_decide (ca_verdict a = Verdict.SUPPORTED).

(** [claims_by_id[assessment.claim_id]] and a test of the claim found; a
    missing key never happens, every assessment comes from a claim. *)
Definition claim_test (claims_by_id : dict string PrdClaim) (p : PrdClaim -> bool)
    (a : ClaimGroundingAssessment) : bool :=
  match claims_by_id !! ca_claim_id a with Some c => p c | None => false end.

Definition reference_of (claim_ids : list string) (fact_id evidence_id : string) (e : SourceEvidence)
    : result exc GroundingReference :=
  match e_source_id e, e_source_version e with
  | Some source_id, Some source_version =>
      Ok (mkReference claim_ids fact_id evidence_id (e_source_kind e) source_id source_version
            (e_locator e) (e_repository_id e) (e_resolved_commit_sha e) (e_path e)
            (e_line_start e) (e_line_end e) (e_symbol e))
  | _, _ => Raise ValueError
  end.

(** The references of one used fact. *)
Definition fact_references (r : GroundingRequest) (evidence_by_id : dict string SourceEvidence)
    (fact_by_id : dict string DeterministicFact) (fact_id : string)
    : result exc (list GroundingReference) :=
  match fact_by_id !! fact_id with
  | None => Raise KeyError
  | Some fact =>
      let claim_ids := c_claim_id <$>
        List.filter (fun c => bool_decide (fact_id ∈ c_fact_ids c)) (g_claims r) in
      result_map (fun evidence_id =>
        match evidence_by_id !! evidence_id with
        | None => Raise KeyError
        | Some e => reference_of claim_ids fact_id evidence_id e
        end) (f_evidence_ids fact)
  end.

Definition open_conflict_fact_ids (r : GroundingRequest) : list string :=
  flat_map sc_fact_ids (List.filter (fun c => bool_decide (sc_status c = "OPEN")) (g_conflicts r)).

Definition evidence_index (r : GroundingRequest) : dict string SourceEvidence :=
  dict_by e_evidence_id (g_evidence r).
Definition fact_index (r : GroundingRequest) : dict string DeterministicFact :=
  dict_by f_fact_id (g_facts r).

Definition fact_assessments (r : GroundingRequest) : list FactGroundingAssessment :=
  map (fun fact =>
    let (verdict, reason) := assess_fact r fact (evidence_index r) (open_conflict_fact_ids r) in
    mkFactAssessment (f_fact_id fact) (f_evidence_ids fact) verdict reason) (g_facts r).

Definition claim_assessments (r : GroundingRequest) : list ClaimGroundingAssessment :=
  map (fun c => assess_claim c (dict_by fa_fact_id (fact_assessments r)) (fact_index r)) (g_claims r).

Definition blocking (r : GroundingRequest) : bool :=
  existsb (fun a => negb (supported_claim a)
    && claim_test (dict_by c_claim_id (g_claims r)) (fun c => gated (c_kind c)) a) (claim_assessments r).

Definition claim_issues (r : GroundingRequest) : list string :=
  (fun a => ca_claim_id a +:+ ":" +:+ ca_reason_code a) <$>
    List.filter (fun a => negb (supported_claim a)) (claim_assessments r).

Definition used_fact_ids (r : GroundingRequest) : list string :=
  flat_map ca_valid_fact_ids (claim_assessments r).

Definition supported_fact_ids (r : GroundingRequest) : list string :=
  fa_fact_id <$> List.filter (fun a => bool_decide (fa_verdict a = Verdict.SUPPORTED)) (fact_assessments r).

(** One pass of [ground], without the retry. *)
Definition ground_pass (r : GroundingRequest) : result exc GroundingResult :=
  let used := dedup (used_fact_ids r) in
  let referenced := List.filter (fun id => bool_decide (id ∈ supported_fact_ids r)) used in
  result_bind (fun references =>
    Ok (mkGroundingResult (g_grounding_run_id r) (g_task_id r) (g_unit_id r)
      (if blocking r then GroundingStatus.HUMAN_INPUT_REQUIRED
       else match claim_issues r with [] => GroundingStatus.PASSED | _ => GroundingStatus.DEGRADED end)
      (negb (blocking r)) (fact_assessments r) (claim_assessments r) used (concat references)
      (g_retry_count r) (claim_issues r)))
    (result_map (fact_references r (evidence_index r) (fact_index r)) referenced).

(** The claims a retry should find facts for. *)
Definition failed_claim_ids (r : GroundingRequest) : list string :=
  ca_claim_id <$> List.filter (fun a => negb (supported_claim a)
    && claim_test (dict_by c_claim_id (g_claims r)) (fun c =>
         bool_decide (c_kind c = ClaimKind.CURRENT_STATE)
         && negb (bool_decide (c_criticality c = ClaimCriticality.INFORMATIONAL))) a)
    (claim_assessments r).

(** [request.model_copy(update=...)] with the supplement merged by identifier. *)
Definition merge_supplement (r : GroundingRequest) (s : GroundingSupplement) : GroundingRequest :=
  mkGroundingRequest (g_grounding_run_id r) (g_task_id r) (g_unit_id r) (g_repository_id r)
    (g_resolved_commit_sha r) (g_allowed_source_bindings r) (g_content r) (g_claims r)
    (values (dict_update f_fact_id (sup_facts s) (dict_by f_fact_id (g_facts r))))
    (values (dict_update e_evidence_id (sup_evidence s) (dict_by e_evidence_id (g_evidence r))))
    (values (dict_update sc_conflict_id (sup_conflicts s) (dict_by sc_conflict_id (g_conflicts r))))
    1.

(** [ground] with an optional [retry_provider]. *)
Definition ground
    (retry_provider : option (GroundingRequest -> list string -> result exc (option GroundingSupplement)))
    (r : GroundingRequest) : result exc GroundingResult :=
  result_bind (fun res =>
    match retry_provider with
    | Some supplement =>
        if blocking r && Z.eqb (g_retry_count r) 0 then
          match failed_claim_ids r with
          | [] => Ok res
          | failed =>
              result_bind (fun s =>
                match s with
                | None => Ok res
                | Some s => ground_pass (merge_supplement r s)
                end) (supplement r failed)
          end
        else Ok res
    | None => Ok res
    end) (ground_pass r).
End service.
