(* ===== verification/GroundingFacts.v ===== *)
(** * What the grounding gate guarantees

    A declarative account of when a claim is grounded, and the proof that
    [GroundingService] lets a unit through exactly when every gated claim is. *)
From stdpp Require Import base list sets strings pretty.
From Stdlib Require Import ZArith.
From S2P Require Import Prelude PyDict Json Grounding.

Open Scope Z_scope.

Section facts.
Context `{Builtins}.

(** ** Specification *)

(** Evidence that can be cited: found, from an allowed source at the bound
    version, and reproducible. *)
Definition citable (r : GroundingRequest) (id : string) (e : SourceEvidence) : Prop :=
  evidence_index r !! id = Some e /\ source_verdict r e = None /\
  truthy (strip (e_excerpt e)) = true /\ truthy (e_content_hash e) = true.

(** A fact that supports claims: of this task, undisputed, deterministic,
    verified, with citable evidence of which some excerpt shows its value. *)
Definition supported_fact (r : GroundingRequest) (f : DeterministicFact) : Prop :=
  (opt_truthy (f_task_id f) = true -> f_task_id f = Some (g_task_id r)) /\
  (forall c, c ∈ g_conflicts r -> sc_status c = "OPEN" -> f_fact_id f ∉ sc_fact_ids c) /\
  f_evidence_ids f <> [] /\
  f_fact_type f <> FactType.INFERRED /\ f_fact_type f <> FactType.UNKNOWN /\
  f_verification_status f = VerificationStatus.SUPPORTED /\
  exists linked, Forall2 (citable r) (f_evidence_ids f) linked /\
    (searchable_value (f_value_json f) = EmptyString \/
     exists e, e ∈ linked /\ str_contains (searchable_value (f_value_json f)) (lower (e_excerpt e)) = true).

Definition fits (kind : ClaimKind) (f : DeterministicFact) : Prop :=
  match kind with
  | ClaimKind.CURRENT_STATE =>
      f_fact_type f = FactType.CODE_VERIFIED /\ f_fact_scope f = FactScope.CURRENT_STATE
  | ClaimKind.HISTORICAL_CONTEXT =>
      f_fact_type f = FactType.DOCUMENT_SUPPORTED /\ f_fact_scope f = FactScope.HISTORICAL_CONTEXT
  | _ => False
  end.

Definition grounded_claim (r : GroundingRequest) (c : PrdClaim) : Prop :=
  match c_kind c with
  | ClaimKind.CURRENT_STATE | ClaimKind.HISTORICAL_CONTEXT =>
      c_fact_ids c <> [] /\
      forall id, id ∈ c_fact_ids c ->
        exists f, fact_index r !! id = Some f /\ supported_fact r f /\ fits (c_kind c) f
  | ClaimKind.TARGET_DECISION => c_decision_ids c <> []
  | ClaimKind.ASSUMPTION => c_assumption_ids c <> []
  | _ => True
  end.

(** ** Facts *)

Lemma elem_of_open_conflicts r id :
  id ∈ open_conflict_fact_ids r <->
  exists c, c ∈ g_conflicts r /\ sc_status c = "OPEN" /\ id ∈ sc_fact_ids c.
Proof.
  unfold open_conflict_fact_ids. rewrite list_elem_of_In, in_flat_map.
  setoid_rewrite filter_In. setoid_rewrite bool_decide_eq_true.
  setoid_rewrite <- list_elem_of_In. naive_solver.
Qed.

Lemma link_evidence_inr r ids acc linked :
  link_evidence r (evidence_index r) ids acc = inr linked <->
  exists l, linked = acc ++ l /\ Forall2 (citable r) ids l.
Proof.
  revert acc. induction ids as [|id ids IH]; intros acc; simpl.
  - split; [intros [= <-]; exists []; by rewrite app_nil_r|].
    intros (l & -> & Hl). inversion Hl. by rewrite app_nil_r.
  - assert (Hcons : forall e, citable r id e ->
      (exists l, linked = (acc ++ [e]) ++ l /\ Forall2 (citable r) ids l) <->
      (exists l, linked = acc ++ l /\ Forall2 (citable r) (id :: ids) l)).
    { intros e He. split.
      - intros (l & -> & Hl). exists (e :: l). rewrite <- app_assoc. eauto.
      - intros (l & -> & Hl). inversion Hl as [|? e' ? l' He' Hl']; subst.
        destruct He as [He _], He' as [He' _]. simplify_eq. exists l'. by rewrite <- app_assoc. }
    unfold citable in Hcons.
    destruct (evidence_index r !! id) as [e|] eqn:He; [destruct (source_verdict r e) eqn:Hv|].
    2: destruct (negb _ || negb _) eqn:Hrep.
    3: { apply orb_false_iff in Hrep as [?%negb_false_iff ?%negb_false_iff]. rewrite IH.
         by apply Hcons. }
    all: split; [done|]; intros (l & -> & Hl); inversion Hl as [|? e' ? l' (He' & ? & H1 & H2) Hl']; simplify_eq.
    by rewrite H1, H2 in Hrep.
Qed.

Lemma source_verdict_negative r e v : source_verdict r e = Some v -> v.1 <> Verdict.SUPPORTED.
Proof. unfold source_verdict. intros Hv. repeat case_match; by simplify_eq. Qed.

Lemma link_evidence_negative r ids acc v :
  link_evidence r (evidence_index r) ids acc = inl v -> v.1 <> Verdict.SUPPORTED.
Proof.
  revert acc. induction ids as [|id ids IH]; intros acc; simpl; [done|].
  repeat case_match; intros Hv; simplify_eq; eauto using source_verdict_negative.
Qed.

(** The part of [assess_fact] before the evidence is read. *)
Definition admissible_fact (r : GroundingRequest) (f : DeterministicFact) : Prop :=
  (opt_truthy (f_task_id f) = true -> f_task_id f = Some (g_task_id r)) /\
  (f_fact_id f ∉ open_conflict_fact_ids r) /\ f_evidence_ids f <> [] /\
  (f_fact_type f ∉ [FactType.INFERRED; FactType.UNKNOWN]) /\
  f_verification_status f = VerificationStatus.SUPPORTED.

Lemma assess_fact_admissible r f :
  (assess_fact r f (evidence_index r) (open_conflict_fact_ids r)).1 = Verdict.SUPPORTED <->
  admissible_fact r f /\
  exists linked, link_evidence r (evidence_index r) (f_evidence_ids f) [] = inr linked /\
    (searchable_value (f_value_json f) = EmptyString \/
     exists e, e ∈ linked /\ str_contains (searchable_value (f_value_json f)) (lower (e_excerpt e)) = true).
Proof.
  unfold assess_fact, admissible_fact.
  destruct (opt_truthy (f_task_id f) && _) eqn:Ht.
  { split; [done|]. intros [[Htask _] _].
    apply andb_true_iff in Ht as [Ht1 Ht2%negb_true_iff%bool_decide_eq_false]. naive_solver. }
  assert (Htask : opt_truthy (f_task_id f) = true -> f_task_id f = Some (g_task_id r)).
  { intros E. rewrite E in Ht. by apply negb_false_iff, bool_decide_eq_true in Ht. }
  clear Ht. case_bool_decide as Hc; [split; [done|naive_solver]|].
  destruct (f_evidence_ids f) as [|i ids] eqn:Hids; [split; [done|naive_solver]|]. rewrite <- Hids.
  case_bool_decide as Hty; [split; [done|naive_solver]|].
  destruct (f_verification_status f); try (split; [done|naive_solver]).
  destruct (link_evidence r (evidence_index r) (f_evidence_ids f) []) as [v|linked] eqn:Hlink.
  { split; [|naive_solver]. intros Hv. by apply link_evidence_negative in Hlink. }
  destruct (truthy _ && negb _) eqn:Hval; simpl.
  - split; [done|]. apply andb_true_iff in Hval as [Hv1 Hv2%negb_true_iff].
    intros (_ & l & [= <-] & [E|(e & He & Hs)]); [by rewrite E in Hv1|].
    assert (existsb (fun e => str_contains (searchable_value (f_value_json f)) (lower (e_excerpt e))) linked = true)
      by (apply existsb_exists; exists e; by rewrite <- list_elem_of_In). congruence.
  - split; [intros _|done]. split; [split_and!; [done..| |done|done]; congruence|].
    exists linked. split; [done|]. apply andb_false_iff in Hval as [Hv|Hv%negb_false_iff].
    + left. by destruct (searchable_value _).
    + right. apply existsb_exists in Hv as (e & He & Hs). exists e. by rewrite list_elem_of_In.
Qed.

Lemma assess_fact_supported r f :
  (assess_fact r f (evidence_index r) (open_conflict_fact_ids r)).1 = Verdict.SUPPORTED <->
  supported_fact r f.
Proof.
  rewrite assess_fact_admissible. unfold admissible_fact, supported_fact.
  assert (Hconf : f_fact_id f ∉ open_conflict_fact_ids r <->
    forall c, c ∈ g_conflicts r -> sc_status c = "OPEN" -> f_fact_id f ∉ sc_fact_ids c).
  { rewrite elem_of_open_conflicts. naive_solver. }
  rewrite Hconf, not_elem_of_cons, not_elem_of_cons. split.
  - intros ((? & ? & ? & (? & ? & _) & ?) & linked & Hl & ?).
    apply link_evidence_inr in Hl as (l & -> & ?). split_and!; eauto.
  - intros (? & ? & ? & ? & ? & ? & linked & Hl & ?). split; [split_and!; auto; set_solver|].
    exists linked. split; [|done]. apply link_evidence_inr. eauto.
Qed.

(** ** Claims *)

Lemma fact_verdict_lookup r id :
  fa_verdict <$> (dict_by fa_fact_id (fact_assessments r) !! id) =
  (fun f => (assess_fact r f (evidence_index r) (open_conflict_fact_ids r)).1) <$> (fact_index r !! id).
Proof.
  unfold fact_assessments, fact_index.
  rewrite (dict_by_map f_fact_id fa_fact_id) by (intros f; by destruct (assess_fact _ _ _ _)).
  destruct (dict_by f_fact_id (g_facts r) !! id) as [f|]; simpl; [|done].
  by destruct (assess_fact _ _ _ _).
Qed.

Lemma elem_of_valid_facts r c id :
  id ∈ valid_facts c (dict_by fa_fact_id (fact_assessments r)) (fact_index r) <->
  id ∈ c_fact_ids c /\ exists f, fact_index r !! id = Some f /\ supported_fact r f /\ fits (c_kind c) f.
Proof.
  unfold valid_facts. rewrite list_elem_of_In, filter_In, <- list_elem_of_In, andb_true_iff,
    bool_decide_eq_true, fact_verdict_lookup.
  destruct (fact_index r !! id) as [f|]; simpl; [|naive_solver].
  assert (Hfit : fact_can_support_claim (Some f) (c_kind c) = true <-> fits (c_kind c) f).
  { unfold fact_can_support_claim, fits. destruct (c_kind c); try done;
      by rewrite andb_true_iff, !bool_decide_eq_true. }
  rewrite Hfit, (inj_iff Some), assess_fact_supported. naive_solver.
Qed.

Lemma filter_full {A} (p : A -> bool) (l : list A) :
  length (List.filter p l) = length l <-> forall x, x ∈ l -> x ∈ List.filter p l.
Proof.
  induction l as [|x l IH]; simpl; [set_solver|].
  assert (Hle : (length (List.filter p l) <= length l)%nat) by apply filter_length_le.
  destruct (p x) eqn:Hp; simpl.
  - split; [intros [= E] y; rewrite IH in E; set_solver|]. intros Hall. f_equal. apply IH.
    intros y Hy. apply list_elem_of_In, filter_In. rewrite <- list_elem_of_In. split; [done|].
    assert (Hy' : y ∈ x :: List.filter p l) by (apply Hall; set_solver).
    apply elem_of_cons in Hy' as [->|Hy']; [done|]. by apply list_elem_of_In, filter_In in Hy' as [_ ?].
  - split; [lia|]. intros Hall. exfalso. assert (Hx : x ∈ List.filter p l) by (apply Hall; set_solver).
    apply list_elem_of_In, filter_In in Hx as [_ ?]. congruence.
Qed.

Lemma assess_claim_supported r c :
  ca_verdict (assess_claim c (dict_by fa_fact_id (fact_assessments r)) (fact_index r)) = Verdict.SUPPORTED
  <-> grounded_claim r c.
Proof.
  unfold assess_claim, grounded_claim.
  assert (Hfacts : length (valid_facts c (dict_by fa_fact_id (fact_assessments r)) (fact_index r))
      = length (c_fact_ids c) <-> forall id, id ∈ c_fact_ids c ->
        exists f, fact_index r !! id = Some f /\ supported_fact r f /\ fits (c_kind c) f).
  { unfold valid_facts at 1. rewrite filter_full. fold (valid_facts c
      (dict_by fa_fact_id (fact_assessments r)) (fact_index r)).
    setoid_rewrite elem_of_valid_facts. naive_solver. }
  destruct (c_kind c) eqn:Hk; simpl; try done; rewrite ?Hk in Hfacts.
  1,2: destruct (c_fact_ids c) as [|i ids] eqn:Hids; cbn [ca_verdict]; [naive_solver|]; rewrite <- Hids in *;
    rewrite <- Hfacts;
    destruct (Nat.eqb_spec (length (valid_facts c (dict_by fa_fact_id (fact_assessments r)) (fact_index r)))
      (length (c_fact_ids c))) as [E|E]; (split; [intros; split; congruence|intros [_ ?]; congruence]).
  - destruct (c_decision_ids c); naive_solver.
  - destruct (c_assumption_ids c); naive_solver.
Qed.

(** ** The gate *)

Lemma blocking_spec r :
  NoDup (c_claim_id <$> g_claims r) ->
  blocking r = false <-> forall c, c ∈ g_claims r -> grounded_claim r c.
Proof.
  intros Hnd. unfold blocking, claim_assessments.
  rewrite <- not_true_iff_false, existsb_exists. setoid_rewrite in_map_iff.
  assert (Hid : forall c, ca_claim_id (assess_claim c (dict_by fa_fact_id (fact_assessments r))
      (fact_index r)) = c_claim_id c).
  { intros c. unfold assess_claim. by destruct (c_kind c), (c_fact_ids c). }
  unfold supported_claim, claim_test. split.
  - intros Hn c Hc. destruct (gated (c_kind c)) eqn:Hg.
    + apply assess_claim_supported. apply dec_stable. intros Hv. apply Hn. eexists. split.
      * exists c. split; [reflexivity|by apply list_elem_of_In].
      * rewrite bool_decide_eq_false_2 by done. rewrite Hid.
        by rewrite (dict_by_NoDup c_claim_id (g_claims r) c Hnd Hc).
    + unfold grounded_claim. by destruct (c_kind c).
  - intros Hall (a & (c & <- & Hc%list_elem_of_In) & Ha).
    apply Hall, assess_claim_supported in Hc. by rewrite Hc, bool_decide_eq_true_2 in Ha.
Qed.

Lemma ground_pass_inv r res :
  ground_pass r = Ok res ->
  gr_confirmable res = negb (blocking r) /\
  exists refs, gr_references res = concat refs /\
    Forall2 (fun id l => fact_references r (evidence_index r) (fact_index r) id = Ok l)
      (List.filter (fun id => bool_decide (id ∈ supported_fact_ids r)) (dedup (used_fact_ids r))) refs.
Proof.
  unfold ground_pass. intros (refs & Hrefs & [= <-])%result_bind_Ok. simpl. split; [done|].
  exists refs. split; [done|]. by apply result_map_Ok.
Qed.

(** A fact is used only for a claim that cites it and that it supports. *)
Lemma elem_of_used r id :
  id ∈ used_fact_ids r ->
  exists c f, c ∈ g_claims r /\ id ∈ c_fact_ids c /\ fact_index r !! id = Some f /\
    supported_fact r f /\ fits (c_kind c) f.
Proof.
  unfold used_fact_ids, claim_assessments. rewrite list_elem_of_In, in_flat_map.
  setoid_rewrite in_map_iff. intros (a & (c & <- & Hc%list_elem_of_In) & Ha%list_elem_of_In).
  exists c. unfold assess_claim in Ha.
  destruct (c_kind c) eqn:Hk; simpl in Ha; try set_solver.
  all: destruct (c_fact_ids c) eqn:Hids; [set_solver|]; cbn [ca_valid_fact_ids] in Ha;
    rewrite <- Hids; apply elem_of_valid_facts in Ha as (Hin & f & ? & ? & Hfit);
    rewrite Hk in Hfit; exists f; by split_and!.
Qed.

Definition reference_matches (ref : GroundingReference) (e : SourceEvidence) : Prop :=
  ref_source_kind ref = e_source_kind e /\ Some (ref_source_id ref) = e_source_id e /\
  Some (ref_source_version ref) = e_source_version e /\ ref_locator ref = e_locator e /\
  ref_repository_id ref = e_repository_id e /\ ref_resolved_commit_sha ref = e_resolved_commit_sha e /\
  ref_path ref = e_path e /\ ref_line_start ref = e_line_start e /\
  ref_line_end ref = e_line_end e /\ ref_symbol ref = e_symbol e.

Lemma fact_references_spec r id f l ref :
  fact_index r !! id = Some f -> supported_fact r f ->
  fact_references r (evidence_index r) (fact_index r) id = Ok l -> ref ∈ l ->
  ref_fact_id ref = id /\ ref_evidence_id ref ∈ f_evidence_ids f /\
  exists e, citable r (ref_evidence_id ref) e /\ reference_matches ref e.
Proof.
  intros Hf (_ & _ & _ & _ & _ & _ & linked & Hlinked & _). unfold fact_references. rewrite Hf.
  intros Hl%result_map_Ok Hin. apply list_elem_of_lookup in Hin as [i Hi].
  destruct (Forall2_lookup_r _ _ _ _ _ Hl Hi) as (eid & Heid & Href).
  destruct (Forall2_lookup_l _ _ _ _ _ Hlinked Heid) as (e & _ & Hcit). assert (Hcit' := Hcit).
  destruct Hcit' as [He _]. rewrite He in Href. unfold reference_of in Href.
  destruct (e_source_id e) eqn:?, (e_source_version e) eqn:?; try done. injection Href as <-.
  split; [done|]. split; [by apply list_elem_of_lookup_2 in Heid|].
  exists e. split; [done|]. by unfold reference_matches; simpl.
Qed.

Lemma fact_references_total r id f :
  (forall e, e ∈ g_evidence r -> is_ok (validate_source_contract e) = true) ->
  fact_index r !! id = Some f -> supported_fact r f ->
  exists l, fact_references r (evidence_index r) (fact_index r) id = Ok l.
Proof.
  intros Hval Hf (_ & _ & _ & _ & _ & _ & linked & Hlinked & _). unfold fact_references. rewrite Hf.
  apply result_map_total. intros eid Heid. apply list_elem_of_lookup in Heid as [i Hi].
  destruct (Forall2_lookup_l _ _ _ _ _ Hlinked Hi) as (e & _ & He & _). rewrite He.
  apply dict_by_lookup in He as [He _]. specialize (Hval e He).
  unfold validate_source_contract in Hval. unfold reference_of.
  destruct (e_source_id e), (e_source_version e); [eexists; reflexivity|..]; exfalso;
    simpl in Hval; rewrite ?orb_true_r in Hval; done.
Qed.

Lemma ground_pass_total r :
  (forall e, e ∈ g_evidence r -> is_ok (validate_source_contract e) = true) ->
  exists res, ground_pass r = Ok res.
Proof.
  intros Hval. unfold ground_pass.
  destruct (result_map_total (fact_references r (evidence_index r) (fact_index r))
    (List.filter (fun id => bool_decide (id ∈ supported_fact_ids r)) (dedup (used_fact_ids r))))
    as [refs ->]; [|by eexists].
  intros id Hid%list_elem_of_In. apply filter_In in Hid as [Hid _].
  apply list_elem_of_In, dedup_elem, elem_of_used in Hid as (c & f & _ & _ & Hf & Hs & _).
  by eapply fact_references_total.
Qed.

(** The request the deciding pass ran on: the original one, or the one merged
    with the supplement the retry provider returned. *)
Definition decided_on
    (provider : option (GroundingRequest -> list string -> result exc (option GroundingSupplement)))
    (r r' : GroundingRequest) : Prop :=
  r' = r \/ exists supplement s, provider = Some supplement /\ g_retry_count r = 0 /\
    supplement r (failed_claim_ids r) = Ok (Some s) /\ r' = merge_supplement r s.

Lemma ground_decided provider r res :
  ground provider r = Ok res ->
  exists r', decided_on provider r r' /\ ground_pass r' = Ok res /\ g_claims r' = g_claims r.
Proof.
  unfold ground. intros (res0 & Hpass & Hres)%result_bind_Ok.
  assert (Hself : decided_on provider r r) by by left.
  destruct provider as [supplement|]; [|simplify_eq; eauto].
  destruct (blocking r && (g_retry_count r =? 0)) eqn:Hb; [|simplify_eq; eauto].
  destruct (failed_claim_ids r) as [|i ids] eqn:Hf; [simplify_eq; eauto|].
  apply result_bind_Ok in Hres as (o & Hs & Hres). destruct o as [s|]; [|simplify_eq; eauto].
  exists (merge_supplement r s). split; [|done]. right. exists supplement, s.
  apply andb_true_iff in Hb as [_ Hz%Z.eqb_eq]. by rewrite Hf.
Qed.
End facts.

(** C19: the grounding gate is exact: when claim identifiers are distinct, a
    unit is confirmable precisely when every claim is grounded: a current-state
    or historical claim cites at least one fact and every cited fact is
    verified, undisputed, of the right type and scope and shown by citable
    evidence; a target decision cites a decision and an assumption an
    authorization.  A retry only changes the facts it is decided on. *)
Theorem grounding_gate_exact `{Builtins} provider r res :
  NoDup (c_claim_id <$> g_claims r) -> ground provider r = Ok res ->
  exists r', decided_on provider r r' /\
    (gr_confirmable res = true <-> forall c, c ∈ g_claims r -> grounded_claim r' c).
Proof.
  intros Hnd (r' & Hd & Hpass & Hc)%ground_decided. exists r'. split; [done|].
  apply ground_pass_inv in Hpass as [-> _]. rewrite <- Hc. rewrite <- Hc in Hnd.
  rewrite negb_true_iff. by apply blocking_spec.
Qed.

(** grounding never fails on valid evidence, and every reference it
    publishes is auditable: it names a fact that some claim cites and that
    supports it, and a citable piece of that fact's evidence, whose location
    it copies. *)
Theorem grounding_references_citable `{Builtins} r :
  (forall e, e ∈ g_evidence r -> is_ok (validate_source_contract e) = true) ->
  exists res, ground None r = Ok res /\
    forall ref, ref ∈ gr_references res ->
      exists c f e, c ∈ g_claims r /\ ref_fact_id ref ∈ c_fact_ids c /\
        fact_index r !! ref_fact_id ref = Some f /\ supported_fact r f /\ fits (c_kind c) f /\
        ref_evidence_id ref ∈ f_evidence_ids f /\ citable r (ref_evidence_id ref) e /\
        reference_matches ref e.
Proof.
  intros Hval. destruct (ground_pass_total r Hval) as [res Hres]. exists res.
  split; [unfold ground; by rewrite Hres|]. intros ref Hin.
  apply ground_pass_inv in Hres as (_ & refs & Hr & Hrefs). rewrite Hr in Hin.
  apply list_elem_of_In, in_concat in Hin as (l & Hl%list_elem_of_In & Hin%list_elem_of_In).
  apply list_elem_of_lookup in Hl as [i Hi].
  destruct (Forall2_lookup_r _ _ _ _ _ Hrefs Hi) as (id & Hid & Hfr).
  apply list_elem_of_lookup_2, list_elem_of_In, filter_In in Hid as [Hid _].
  apply list_elem_of_In, dedup_elem, elem_of_used in Hid as (c & f & Hc & Hcf & Hf & Hs & Hfit).
  destruct (fact_references_spec r id f l ref Hf Hs Hfr Hin) as (Hid & He & e & Hcit & Hm).
  exists c, f, e. rewrite Hid. by split_and!.
Qed.

(** ** Examples *)

#[local] Existing Instance example_builtins.

Definition sample_commit : string := "0123456789abcdef0123456789abcdef01234567".
Definition sample_evidence : SourceEvidence :=
  mkEvidence "ev-1" "call-1" "CODE" SourceKind.CODE_REPOSITORY (Some "repo") (Some sample_commit) []
    None (Some "repo") (Some sample_commit) (Some "app/login.py") (Some 3) (Some 9) None
    "MAX_ATTEMPTS = 5" "sha256:aa" None ExtractionMethod.SOURCE_READ false 0.
Definition sample_fact : DeterministicFact :=
  mkFact "fact-1" "call-1" (Some "task-1") "login" "limit" (JStr "max_attempts") FactScope.CURRENT_STATE
    FactType.CODE_VERIFIED "HIGH" VerificationStatus.SUPPORTED "x" "1" ["ev-1"].
Definition sample_claim (id : string) (kind : ClaimKind) (facts : list string) : PrdClaim :=
  mkClaim id "text" kind ClaimCriticality.CRITICAL facts [] [].
Definition sample_request (claims : list PrdClaim) : GroundingRequest :=
  mkGroundingRequest "g-1" "task-1" "unit-1" (Some "repo") (Some sample_commit) [] "content" claims
    [sample_fact] [sample_evidence] [] 0.

Lemma grounding_gate_exact_witness :
  exists res, ground None (sample_request [sample_claim "c-1" ClaimKind.CURRENT_STATE ["fact-1"]]) = Ok res /\
    gr_confirmable res = true /\
    exists r', forall c, c ∈ [sample_claim "c-1" ClaimKind.CURRENT_STATE ["fact-1"]] -> grounded_claim r' c.
Proof.
  destruct (ground None (sample_request [sample_claim "c-1" ClaimKind.CURRENT_STATE ["fact-1"]]))
    as [res|e] eqn:Hres; [|by vm_compute in Hres].
  destruct (grounding_gate_exact None
    (sample_request [sample_claim "c-1" ClaimKind.CURRENT_STATE ["fact-1"]]) res
    (NoDup_singleton "c-1") Hres) as (r' & _ & Hiff).
  assert (Hc : gr_confirmable res = true) by (vm_compute in Hres; by injection Hres as <-).
  exists res. split; [done|]. split; [done|]. exists r'. by apply Hiff.
Defined.

Lemma grounding_references_citable_witness :
  exists res, ground None (sample_request [sample_claim "c-1" ClaimKind.CURRENT_STATE ["fact-1"]]) = Ok res /\
    length (gr_references res) = 1%nat.
Proof.
  destruct (grounding_references_citable (sample_request [sample_claim "c-1" ClaimKind.CURRENT_STATE ["fact-1"]]))
    as (res & Hres & _).
  - intros e [->|He]%elem_of_cons; [reflexivity|by apply elem_of_nil in He].
  - exists res. split; [exact Hres|]. vm_compute in Hres. by injection Hres as <-.
Defined.

(** Two claims sharing an identifier: the gate reads the kind of the last one
    for both, so an unsupported current-state claim passes as a risk. *)
Definition shadowed_request : GroundingRequest :=
  sample_request [sample_claim "c-1" ClaimKind.CURRENT_STATE []; sample_claim "c-1" ClaimKind.RISK []].

(** The gate can be bypassed by repeating a claim identifier: there is a
    request on which [ground] reports a confirmable unit although one of its
    current-state claims cites no fact at all. *)
Theorem duplicate_claim_id_bypasses_gate :
  exists r res c, ground None r = Ok res /\ gr_confirmable res = true /\
    c ∈ g_claims r /\ c_kind c = ClaimKind.CURRENT_STATE /\ c_fact_ids c = [] /\ ~ grounded_claim r c.
Proof.
  exists shadowed_request. eexists. exists (sample_claim "c-1" ClaimKind.CURRENT_STATE []).
  split; [reflexivity|]. split_and!; [reflexivity|by left|reflexivity|reflexivity|].
  by intros [? _].
Qed.
