(* ===== verification/Quality.v ===== *)
(** * Document quality and rendering

    [DocumentQualityService] of [prd_agent/quality/service.py] with its models,
    the renderers [prd_agent/rendering/markdown.py] and
    [prd_agent/rendering/evidence_appendix.py], and what quality checks and
    rendering guarantee. *)
From stdpp Require Import base list sets strings pretty.
From Stdlib Require Import ZArith.
From S2P Require Import Prelude.
From S2P Require Import PyDict.
From S2P Require Import Json.
From S2P Require Import Domain.
From S2P Require Import Grounding.

Open Scope Z_scope.

(** ** Quality models *)

Module QualityScope.
Inductive QualityScope : Type := UNIT | DOCUMENT.
End QualityScope.
Abbreviation QualityScope := QualityScope.QualityScope.

Module QualitySeverity.
Inductive QualitySeverity : Type := BLOCKER | ERROR | WARNING | INFO.
End QualitySeverity.
Abbreviation QualitySeverity := QualitySeverity.QualitySeverity.

Module QualityIssueType.
Inductive QualityIssueType : Type :=
  | OUTLINE_COVERAGE | EMPTY_OR_DUPLICATE_CONTENT | TERMINOLOGY_INCONSISTENCY | RULE_CONFLICT
  | STATE_FLOW_GAP | ROLE_PERMISSION_CONFLICT | EXCEPTION_GAP | BOUNDARY_GAP
  | ACCEPTANCE_NOT_EXECUTABLE | ASSUMPTION_NOT_LABELED | OPEN_ITEM_UNRESOLVED | SOURCE_LINK_INCOMPLETE.
End QualityIssueType.
Abbreviation QualityIssueType := QualityIssueType.QualityIssueType.

Definition issue_type_value (t : QualityIssueType) : string :=
  match t with
  | QualityIssueType.OUTLINE_COVERAGE => "OUTLINE_COVERAGE"
  | QualityIssueType.EMPTY_OR_DUPLICATE_CONTENT => "EMPTY_OR_DUPLICATE_CONTENT"
  | QualityIssueType.TERMINOLOGY_INCONSISTENCY => "TERMINOLOGY_INCONSISTENCY"
  | QualityIssueType.RULE_CONFLICT => "RULE_CONFLICT"
  | QualityIssueType.STATE_FLOW_GAP => "STATE_FLOW_GAP"
  | QualityIssueType.ROLE_PERMISSION_CONFLICT => "ROLE_PERMISSION_CONFLICT"
  | QualityIssueType.EXCEPTION_GAP => "EXCEPTION_GAP"
  | QualityIssueType.BOUNDARY_GAP => "BOUNDARY_GAP"
  | QualityIssueType.ACCEPTANCE_NOT_EXECUTABLE => "ACCEPTANCE_NOT_EXECUTABLE"
  | QualityIssueType.ASSUMPTION_NOT_LABELED => "ASSUMPTION_NOT_LABELED"
  | QualityIssueType.OPEN_ITEM_UNRESOLVED => "OPEN_ITEM_UNRESOLVED"
  | QualityIssueType.SOURCE_LINK_INCOMPLETE => "SOURCE_LINK_INCOMPLETE"
  end.

Record QualityIssue := mkIssue {
  i_issue_id : string;
  i_issue_type : QualityIssueType;
  i_severity : QualitySeverity;
  i_affected_node_ids : list string;
  i_affected_unit_ids : list string;
  i_affected_section_ids : list string;
  i_description : string;
  i_suggested_resolution : string
}.

Record QualityResult := mkQualityResult {
  q_quality_run_id : string;
  q_task_id : string;
  q_scope : QualityScope;
  q_scope_id : string;
  q_confirmable : bool;
  q_issues : list QualityIssue
}.

(** ** [DocumentQualityService.check_document] *)

Section quality.
Context `{Builtins}.

Definition issue_id (run_id : string) (t : QualityIssueType) (key : string) : string :=
  "quality-issue-" +:+
    str_take 20 (sha256_hex (run_id +:+ ":" +:+ issue_type_value t +:+ ":" +:+ key)).

Definition blocker (s : QualitySeverity) : bool :=
  match s with QualitySeverity.BLOCKER | QualitySeverity.ERROR => true | _ => false end.

(** [re.search] of an alternation of literal words. *)
Definition matches_any (words : list string) (s : string) : bool :=
  existsb (fun w => str_contains w s) words.

Definition acceptance_executable (content : string) : bool :=
  matches_any ["当"; "如果"; "输入"; "请求"] content
  && matches_any ["应"; "返回"; "拒绝"; "成功"; "失败"; "提示"] content.

Definition section_confirmed (s : PrdSectionVersion) : bool :=
  bool_decide (s_status s = SectionStatus.CONFIRMED).

(** [(node_id,) if node_id else ()]. *)
Definition node_id_tuple (s : PrdSectionVersion) : list string :=
  match s_node_id s with
  | Some id => if truthy id then [id] else []
  | None => []
  end.

Definition missing_nodes (outline : OutlineVersion) (current : list PrdSectionVersion) : list string :=
  List.filter (fun id => negb (bool_decide (id ∈ flat_map node_id_tuple current)))
    (n_node_id <$> o_nodes outline).

Definition coverage_issues (run_id : string) (missing : list string) : list QualityIssue :=
  match missing with
  | [] => []
  | _ =>
      [mkIssue (issue_id run_id QualityIssueType.OUTLINE_COVERAGE (str_join "," missing))
         QualityIssueType.OUTLINE_COVERAGE QualitySeverity.BLOCKER missing [] []
         "已确认大纲存在未完成章节" "补全受影响确认单元并重新确认"]
  end.

Definition section_issue (run_id : string) (t : QualityIssueType) (s : PrdSectionVersion)
    (description resolution : string) : QualityIssue :=
  mkIssue (issue_id run_id t (s_section_id s)) t QualitySeverity.ERROR (node_id_tuple s)
    [s_unit_id s] [s_section_id s] description resolution.

Definition section_issues (run_id : string) (s : PrdSectionVersion) : list QualityIssue :=
  (if negb (truthy (strip (s_content s))) then
     [section_issue run_id QualityIssueType.EMPTY_OR_DUPLICATE_CONTENT s
        "章节内容为空" "重新生成并确认该章节"]
   else [])
  ++ (if str_contains "验收" (s_title s) && negb (acceptance_executable (s_content s)) then
        [section_issue run_id QualityIssueType.ACCEPTANCE_NOT_EXECUTABLE s
           "验收标准缺少可执行条件或预期结果" "补充触发条件、动作和可验证结果"]
      else []).

Definition check_document (quality_run_id task_id document_id : string) (outline : OutlineVersion)
    (sections : list PrdSectionVersion) : QualityResult :=
  let current := List.filter section_confirmed sections in
  let issues := coverage_issues quality_run_id (missing_nodes outline current)
                ++ flat_map (section_issues quality_run_id) current in
  mkQualityResult quality_run_id task_id QualityScope.DOCUMENT document_id
    (negb (existsb (fun i => blocker (i_severity i)) issues)) issues.
End quality.

(** ** [render_markdown] *)

Definition newline : string := str_of_codes [10%nat].
Definition blank_line : string := newline +:+ newline.

(** [_list(items)]. *)
Definition bullet_list (items : list string) : string :=
  match items with
  | [] => "- 待确认"
  | _ => str_join newline (map (fun item => "- " +:+ item) items)
  end.

(** The guard of the loop over the sections. *)
Definition renderable (outline : OutlineVersion) (s : PrdSectionVersion) : bool :=
  match List.find (has_unit_id (s_unit_id s)) (o_confirmation_units outline) with
  | Some u => unit_confirmed u
  | None => false
  end.

Definition section_markdown (single : bool) (s : PrdSectionVersion) : string :=
  let heading := if single then "第一确认单元：" +:+ s_title s else s_title s in
  "## " +:+ heading +:+ blank_line +:+ s_content s +:+ blank_line.

Definition render_markdown (brief : RequirementBrief) (outline : OutlineVersion)
    (sections : list PrdSectionVersion) (evidence_appendix : string) : result exc string :=
  if negb (bool_decide (o_status outline = OutlineStatus.CONFIRMED)) then Raise InvalidTransition
  else if negb (forallb (renderable outline) sections) then Raise InvalidTransition
  else
    let problem := if truthy (problem brief) then problem brief else "待确认" in
    let head :=
      "# " +:+ o_title outline +:+ blank_line
      +:+ "## 需求摘要" +:+ blank_line +:+ problem +:+ blank_line
      +:+ "## 范围边界" +:+ blank_line
      +:+ "### 范围内" +:+ blank_line +:+ bullet_list (scope_in brief) +:+ blank_line
      +:+ "### 范围外" +:+ blank_line +:+ bullet_list (scope_out brief) +:+ blank_line
      +:+ "## 业务规则" +:+ blank_line +:+ bullet_list (product_rules brief) +:+ blank_line in
    let body := foldl (fun body s => body +:+ section_markdown (length sections =? 1)%nat s) head sections in
    let body := body +:+ "## 待确认事项" +:+ blank_line +:+ bullet_list (open_questions brief) +:+ newline in
    Ok (if truthy evidence_appendix then body +:+ newline +:+ evidence_appendix else body).

(** ** [render_evidence_appendix] *)

(** [_locator]: adding to a missing path raises; formatting it prints [None]. *)
Definition locator (r : GroundingReference) : result exc string :=
  match ref_line_start r with
  | Some first =>
      match ref_path r with
      | None => Raise TypeError
      | Some path =>
          let location := path +:+ ":" +:+ pretty first in
          Ok (match ref_line_end r with
              | Some last =>
                  if Z.eqb last first then location else location +:+ "-" +:+ pretty last
              | None => location
              end)
      end
  | None =>
      match ref_symbol r with
      | Some symbol =>
          if truthy symbol then
            match ref_path r with
            | None => Raise TypeError
            | Some path => Ok (path +:+ "#" +:+ symbol)
            end
          else Ok (default "None" (ref_path r))
      | None => Ok (default "None" (ref_path r))
      end
  end.

Definition reference_leb (a b : GroundingReference) : bool :=
  let path r := default EmptyString (ref_path r) in
  let line r := default 0 (ref_line_start r) in
  pair_leb String.eqb String.leb
    (pair_leb Z.eqb Z.leb (pair_leb String.eqb String.leb String.leb))
    (path a, (line a, (ref_fact_id a, ref_evidence_id a)))
    (path b, (line b, (ref_fact_id b, ref_evidence_id b))).

(** Comparing a missing path with a present one raises, and a sort of both
    kinds makes such a comparison. *)
Definition mixed_paths (refs : list GroundingReference) : bool :=
  existsb (fun r => bool_decide (is_Some (ref_path r))) refs
  && existsb (fun r => negb (bool_decide (is_Some (ref_path r)))) refs.

Definition reference_lines (r : GroundingReference) : result exc (list string) :=
  let joined := str_join ", " (ref_claim_ids r) in
  let claims := if truthy joined then joined else "未关联 Claim" in
  result_bind (fun source =>
    match ref_resolved_commit_sha r with
    | None => Raise TypeError
    | Some sha =>
        Ok ["- Claim: " +:+ claims; "  - Fact: " +:+ ref_fact_id r; "  - Source: " +:+ source;
            "  - Commit: " +:+ str_take 12 sha; "  - Verification: SUPPORTED"]
    end) (locator r).

Definition render_evidence_appendix (results : list GroundingResult) : result exc string :=
  let refs := flat_map gr_references results in
  if mixed_paths refs then Raise TypeError else
  match sort_by reference_leb refs with
  | [] => Ok EmptyString
  | sorted =>
      result_bind (fun blocks =>
        Ok (str_join newline (["## 参考依据"; EmptyString] ++ concat blocks) +:+ newline))
        (result_map reference_lines sorted)
  end.

(** ** Quality *)

(** A document fit for confirmation: every outline node is covered by a
    confirmed section, no confirmed section is blank, and acceptance sections
    state a condition and an expected result. *)
Definition fit_for_confirmation (outline : OutlineVersion) (sections : list PrdSectionVersion) : Prop :=
  (forall n, n ∈ o_nodes outline -> n_node_id n <> EmptyString ->
     exists s, s ∈ sections /\ s_status s = SectionStatus.CONFIRMED /\ s_node_id s = Some (n_node_id n)) /\
  (forall s, s ∈ sections -> s_status s = SectionStatus.CONFIRMED ->
     strip (s_content s) <> EmptyString /\
     (str_contains "验收" (s_title s) = true -> acceptance_executable (s_content s) = true)).

Lemma elem_of_covered sections id :
  id ∈ flat_map node_id_tuple (List.filter section_confirmed sections) <->
  id <> EmptyString /\
  exists s, s ∈ sections /\ s_status s = SectionStatus.CONFIRMED /\ s_node_id s = Some id.
Proof.
  rewrite list_elem_of_In, in_flat_map. setoid_rewrite filter_In. setoid_rewrite <- list_elem_of_In.
  unfold section_confirmed, node_id_tuple. split.
  - intros (s & [Hs Hst%bool_decide_eq_true] & Hin).
    destruct (s_node_id s) as [x|] eqn:E; [|set_solver].
    destruct (truthy x) eqn:Ht; [|set_solver]. apply list_elem_of_singleton in Hin as ->.
    split; [by intros ->|]. eauto.
  - intros (Hne & s & Hs & Hst & E). exists s. rewrite E, bool_decide_eq_true.
    split; [done|]. destruct id; [done|]. set_solver.
Qed.

Lemma missing_nodes_nil outline sections :
  Forall (fun n => n_node_id n <> EmptyString) (o_nodes outline) ->
  missing_nodes outline (List.filter section_confirmed sections) = [] <->
  forall n, n ∈ o_nodes outline ->
    exists s, s ∈ sections /\ s_status s = SectionStatus.CONFIRMED /\ s_node_id s = Some (n_node_id n).
Proof.
  intros Hids. rewrite Forall_forall in Hids. unfold missing_nodes. split.
  - intros Hnil n Hn. destruct (decide (n_node_id n ∈ flat_map node_id_tuple
      (List.filter section_confirmed sections))) as [[_ Hin]%elem_of_covered|Hout]; [done|].
    exfalso. assert (Hin : n_node_id n ∈ missing_nodes outline (List.filter section_confirmed sections)).
    { unfold missing_nodes. apply list_elem_of_In, filter_In. rewrite <- list_elem_of_In.
      split; [by apply list_elem_of_fmap_2|]. by rewrite bool_decide_eq_false_2. }
    unfold missing_nodes in Hin. rewrite Hnil in Hin. set_solver.
  - intros Hall. destruct (List.filter _ (n_node_id <$> _)) as [|id l] eqn:E; [done|]. exfalso.
    assert (Hin : id ∈ id :: l) by set_solver. rewrite <- E in Hin.
    apply list_elem_of_In, filter_In in Hin as [Hin Hb%negb_true_iff%bool_decide_eq_false].
    apply list_elem_of_In, list_elem_of_fmap in Hin as (n & -> & Hn).
    apply Hb, elem_of_covered. auto.
Qed.

(** a document is reported confirmable exactly when it is fit: every
    outline node has a confirmed section, and no confirmed section is blank
    or an acceptance section without executable criteria. *)
Theorem quality_confirmable_iff `{Builtins} run_id task_id document_id outline sections :
  Forall (fun n => n_node_id n <> EmptyString) (o_nodes outline) ->
  q_confirmable (check_document run_id task_id document_id outline sections) = true <->
  fit_for_confirmation outline sections.
Proof.
  intros Hids. unfold check_document, fit_for_confirmation. cbn [q_confirmable].
  rewrite existsb_app, negb_orb, andb_true_iff, !negb_true_iff.
  assert (Hcov : existsb (fun i => blocker (i_severity i))
      (coverage_issues run_id (missing_nodes outline (List.filter section_confirmed sections))) = false
    <-> missing_nodes outline (List.filter section_confirmed sections) = [])
    by (by destruct (missing_nodes _ _)).
  rewrite Hcov, missing_nodes_nil by done. rewrite Forall_forall in Hids. f_equiv; [naive_solver|].
  rewrite <- not_true_iff_false, existsb_exists. setoid_rewrite in_flat_map.
  setoid_rewrite filter_In. setoid_rewrite <- list_elem_of_In.
  unfold section_confirmed, section_issues. split.
  - intros Hn s Hs Hst. destruct (decide (strip (s_content s) = EmptyString)) as [E|E].
    + exfalso. apply Hn. eexists. split; [exists s; split; [by rewrite bool_decide_eq_true|];
        rewrite E; by left|done].
    + split; [done|]. intros Hacc. destruct (acceptance_executable (s_content s)) eqn:Ha; [done|].
      exfalso. apply Hn. eexists. split; [exists s; split; [by rewrite bool_decide_eq_true|];
        rewrite Hacc, Ha; apply elem_of_app; right; by left|done].
  - intros Hall (i & (s & [Hs Hst%bool_decide_eq_true] & Hi) & _).
    destruct (Hall s Hs Hst) as [Hblank Hacc].
    destruct (strip (s_content s)); [done|]. cbn [truthy negb app] in Hi.
    destruct (str_contains _ _); [rewrite Hacc in Hi by done|]; by apply elem_of_nil in Hi.
Qed.

(** ** Rendering *)

Lemma prefix_app (a b : string) : String.prefix a (a +:+ b) = true.
Proof. induction a as [|c a IH]; [by destruct b|]. simpl. destruct (Ascii.ascii_dec c c); done. Qed.

Lemma str_contains_refl_app (a b : string) : str_contains a (a +:+ b) = true.
Proof.
  pose proof (prefix_app a b) as Hp. destruct (a +:+ b); simpl in *; by rewrite Hp.
Qed.

Lemma str_contains_app_r (w a b : string) : str_contains w b = true -> str_contains w (a +:+ b) = true.
Proof. intros Hb. induction a as [|c a IH]; [done|]. simpl. by rewrite IH, orb_true_r. Qed.

Lemma prefix_extend (w a b : string) : String.prefix w a = true -> String.prefix w (a +:+ b) = true.
Proof.
  revert a. induction w as [|c w IH]; intros a; [by destruct (a +:+ b)|].
  destruct a as [|d a]; [done|]. simpl. destruct (Ascii.ascii_dec c d); [apply IH|done].
Qed.

Lemma str_contains_app_l (w a b : string) : str_contains w a = true -> str_contains w (a +:+ b) = true.
Proof.
  induction a as [|c a IH].
  - destruct w; [intros _; by destruct b|done].
  - intros Ha. cbn [str_contains] in Ha. apply orb_true_iff in Ha as [Ha|Ha].
    + apply (prefix_extend _ _ b) in Ha. change (String c a +:+ b) with (String c (a +:+ b)) in *.
      cbn [str_contains]. by rewrite Ha.
    + change (String c a +:+ b) with (String c (a +:+ b)). cbn [str_contains].
      by rewrite (IH Ha), orb_true_r.
Qed.

Lemma foldl_sections_contains single sections head w :
  (str_contains w head = true \/ exists s, s ∈ sections /\ str_contains w (section_markdown single s) = true) ->
  str_contains w (foldl (fun body s => body +:+ section_markdown single s) head sections) = true.
Proof.
  revert head. induction sections as [|s l IH]; intros head; simpl; [intros [?|(?&?&?)]; set_solver|].
  intros [Hh|(x & [->|Hx]%elem_of_cons & Hs)]; apply IH.
  - left. by apply str_contains_app_l.
  - left. by apply str_contains_app_r.
  - right. eauto.
Qed.

(** A rendered document is built from confirmed input only, and loses
    nothing: [render_markdown] succeeds exactly when the outline is confirmed
    and the unit of every section is, and the text it returns contains the
    content of each section. *)
Theorem render_only_confirmed brief outline sections appendix :
  (is_ok (render_markdown brief outline sections appendix) = true <->
   o_status outline = OutlineStatus.CONFIRMED /\
   forall s, s ∈ sections -> exists u, List.find (has_unit_id (s_unit_id s)) (o_confirmation_units outline) = Some u /\
     u_status u = UnitStatus.CONFIRMED) /\
  (forall text, render_markdown brief outline sections appendix = Ok text ->
   forall s, s ∈ sections -> str_contains (s_content s) text = true).
Proof.
  unfold render_markdown. split.
  - case_bool_decide as Hst; simpl; [|naive_solver].
    assert (Hr : forallb (renderable outline) sections = true <-> forall s, s ∈ sections ->
      exists u, List.find (has_unit_id (s_unit_id s)) (o_confirmation_units outline) = Some u /\
        u_status u = UnitStatus.CONFIRMED).
    { assert (Hone : forall s, renderable outline s = true <-> exists u,
        List.find (has_unit_id (s_unit_id s)) (o_confirmation_units outline) = Some u /\
        u_status u = UnitStatus.CONFIRMED).
      { intros s. unfold renderable, unit_confirmed. destruct (List.find _ _) as [u|]; [|naive_solver].
        rewrite bool_decide_eq_true. naive_solver. }
      rewrite forallb_forall. setoid_rewrite Hone. by setoid_rewrite <- list_elem_of_In. }
    destruct (forallb (renderable outline) sections); simpl; naive_solver.
  - case_bool_decide as Hst; simpl; [|done]. destruct (forallb _ _); simpl; [|done].
    intros text Htext s Hs.
    assert (Hmd : forall single, str_contains (s_content s) (section_markdown single s) = true).
    { intros single. unfold section_markdown. do 3 apply str_contains_app_r. apply str_contains_refl_app. }
    assert (Hbody : forall head, str_contains (s_content s)
      (foldl (fun body s => body +:+ section_markdown (length sections =? 1)%nat s) head sections) = true)
      by (intros head; apply foldl_sections_contains; eauto).
    case_match; injection Htext as <-; repeat apply str_contains_app_l; apply Hbody.
Qed.

(** ** Examples *)

#[local] Existing Instance example_builtins.

Definition demo_node : OutlineNode :=
  mkOutlineNode "node-1" 1 "验收标准" "p" Complexity.LOW [] None 1 (Some "n1").
Definition demo_unit : ConfirmationUnit :=
  mkUnit "unit-1" "outline-1" 1 "验收标准" UnitStatus.CONFIRMED (Some "c") 2 ["node-1"] [] None None None [].
Definition demo_outline : OutlineVersion :=
  mkOutline "outline-1" "task-1" 1 "PRD" OutlineStatus.CONFIRMED [demo_node] [demo_unit] 0 (Some 1).
Definition demo_section (content : string) : PrdSectionVersion :=
  mkSection "section-1" "unit-1" 1 "验收标准" content 0 (Some "node-1") SectionStatus.CONFIRMED
    "h" None None None None None None.

Lemma quality_confirmable_iff_witness :
  fit_for_confirmation demo_outline [demo_section "当请求超时应返回错误"] /\
  ~ fit_for_confirmation demo_outline [demo_section "尽快完成"].
Proof.
  split.
  - apply (quality_confirmable_iff "q" "t" "d" demo_outline [demo_section "当请求超时应返回错误"]);
      [by repeat constructor|reflexivity].
  - intros Hf. apply (quality_confirmable_iff "q" "t" "d" demo_outline) in Hf; [|by repeat constructor].
    vm_compute in Hf. done.
Defined.
