(* ===== verification/WorkflowRepo.v ===== *)
(** * The workflow repository and the service's surroundings

    [InMemoryWorkflowRepository] of [prd_agent/storage/memory.py], and the
    world a workflow command runs in: the repository, the identifiers and
    clock readings consumed so far, and the model calls made. *)
From stdpp Require Import base list sets strings pretty.
From Stdlib Require Import ZArith.
From S2P Require Import Prelude PyDict Json Domain Grounding Quality.

Open Scope Z_scope.

(** ** State *)

(** The dictionary [_checkpoint] stores. *)
Record Checkpoint := mkCheckpoint {
  cp_task_id : string;
  cp_run_id : string;
  cp_thread_id : string;
  cp_graph_version : string;
  cp_task_version : Z;
  cp_current_node : string
}.

Record repository := mkRepository {
  tasks : dict string Task;
  runs : dict string AgentRun;
  briefs : dict string (list RequirementBriefVersion);
  outlines : dict string (list OutlineVersion);
  sections : dict string (list PrdSectionVersion);
  documents : dict string (list PrdDocumentVersion);
  messages : dict string (list TaskMessage);
  quality_results : dict string (list QualityResult);
  grounding_results : dict string (list GroundingResult);
  idempotency : dict (string * string) IdempotencyRecord;
  events : dict string (list DomainEvent);
  checkpoints : dict string Checkpoint
}.

Definition empty_repository : repository :=
  mkRepository ∅ ∅ ∅ ∅ ∅ ∅ ∅ ∅ ∅ ∅ ∅ ∅.

Definition set_tasks d r := mkRepository d (runs r) (briefs r) (outlines r) (sections r) (documents r)
  (messages r) (quality_results r) (grounding_results r) (idempotency r) (events r) (checkpoints r).
Definition set_runs d r := mkRepository (tasks r) d (briefs r) (outlines r) (sections r) (documents r)
  (messages r) (quality_results r) (grounding_results r) (idempotency r) (events r) (checkpoints r).
Definition set_briefs d r := mkRepository (tasks r) (runs r) d (outlines r) (sections r) (documents r)
  (messages r) (quality_results r) (grounding_results r) (idempotency r) (events r) (checkpoints r).
Definition set_outlines d r := mkRepository (tasks r) (runs r) (briefs r) d (sections r) (documents r)
  (messages r) (quality_results r) (grounding_results r) (idempotency r) (events r) (checkpoints r).
Definition set_sections d r := mkRepository (tasks r) (runs r) (briefs r) (outlines r) d (documents r)
  (messages r) (quality_results r) (grounding_results r) (idempotency r) (events r) (checkpoints r).
Definition set_documents d r := mkRepository (tasks r) (runs r) (briefs r) (outlines r) (sections r) d
  (messages r) (quality_results r) (grounding_results r) (idempotency r) (events r) (checkpoints r).
Definition set_messages d r := mkRepository (tasks r) (runs r) (briefs r) (outlines r) (sections r)
  (documents r) d (quality_results r) (grounding_results r) (idempotency r) (events r) (checkpoints r).
Definition set_quality d r := mkRepository (tasks r) (runs r) (briefs r) (outlines r) (sections r)
  (documents r) (messages r) d (grounding_results r) (idempotency r) (events r) (checkpoints r).
Definition set_grounding d r := mkRepository (tasks r) (runs r) (briefs r) (outlines r) (sections r)
  (documents r) (messages r) (quality_results r) d (idempotency r) (events r) (checkpoints r).
Definition set_idempotency d r := mkRepository (tasks r) (runs r) (briefs r) (outlines r) (sections r)
  (documents r) (messages r) (quality_results r) (grounding_results r) d (events r) (checkpoints r).
Definition set_events d r := mkRepository (tasks r) (runs r) (briefs r) (outlines r) (sections r)
  (documents r) (messages r) (quality_results r) (grounding_results r) (idempotency r) d (checkpoints r).
Definition set_checkpoints d r := mkRepository (tasks r) (runs r) (briefs r) (outlines r) (sections r)
  (documents r) (messages r) (quality_results r) (grounding_results r) (idempotency r) (events r) d.

Record WorkflowSnapshot := mkSnapshot {
  ws_task : Task;
  ws_run : AgentRun;
  ws_briefs : list RequirementBriefVersion;
  ws_outlines : list OutlineVersion;
  ws_sections : list PrdSectionVersion;
  ws_documents : list PrdDocumentVersion;
  ws_messages : list TaskMessage;
  ws_quality_results : list QualityResult;
  ws_grounding_results : list GroundingResult
}.

Definition current_brief (s : WorkflowSnapshot) : option RequirementBriefVersion := last (ws_briefs s).
Definition current_outline (s : WorkflowSnapshot) : option OutlineVersion :=
  last (List.filter (fun o => negb (bool_decide (o_status o = OutlineStatus.SUPERSEDED))) (ws_outlines s)).
Definition current_markdown (s : WorkflowSnapshot) : option string := d_markdown <$> last (ws_documents s).

(** ** Reads *)

(** [d.get(k, [])]. *)
Definition get_list {A} (d : dict string (list A)) (k : string) : list A := get_default d k [].

Definition get_task (task_id : string) (r : repository) : result exc Task :=
  match tasks r !! task_id with Some t => Ok t | None => Raise NotFound end.

(** [started_at or ended_at]. *)
Definition run_time (run : AgentRun) : option Z :=
  match r_started_at run with Some t => Some t | None => r_ended_at run end.

(** [sorted(runs, key=...)[-1]]: comparing a missing time raises. *)
Definition latest_run (task_id : string) (r : repository) : result exc AgentRun :=
  match List.filter (fun run => bool_decide (r_task_id run = task_id)) (values (runs r)) with
  | [] => Raise NotFound
  | [run] => Ok run
  | many =>
      if existsb (fun run => match run_time run with None => true | _ => false end) many
      then Raise TypeError
      else match last (sort_by (fun a b => Z.leb (default 0 (run_time a)) (default 0 (run_time b))) many) with
           | Some run => Ok run
           | None => Raise IndexError
           end
  end.

Definition snapshot (task_id : string) (r : repository) : result exc WorkflowSnapshot :=
  result_bind (fun task => result_bind (fun run =>
    Ok (mkSnapshot task run (get_list (briefs r) task_id) (get_list (outlines r) task_id)
          (get_list (sections r) task_id) (get_list (documents r) task_id)
          (get_list (messages r) task_id) (get_list (quality_results r) task_id)
          (get_list (grounding_results r) task_id)))
    (latest_run task_id r)) (get_task task_id r).

Definition snapshot_for_owner (task_id owner_id : string) (r : repository) : result exc WorkflowSnapshot :=
  result_bind (fun task =>
    if negb (bool_decide (t_owner_id task = owner_id)) then Raise NotFound else snapshot task_id r)
    (get_task task_id r).

(** [values[:limit]]. *)
Definition slice_to {A} (limit : Z) (l : list A) : list A :=
  if limit <? 0 then take (length l - Z.to_nat (- limit)) l else take (Z.to_nat limit) l.

Definition task_key (t : Task) : Z * string := (t_updated_at t, t_task_id t).
Definition task_key_leb : Z * string -> Z * string -> bool := pair_leb Z.eqb Z.leb String.leb.

Definition list_tasks (owner_id : string) (before : option (Z * string)) (limit : Z) (r : repository)
    : list Task :=
  let owned := List.filter (fun t => bool_decide (t_owner_id t = owner_id)) (values (tasks r)) in
  let sorted := sort_by (fun a b => task_key_leb (task_key b) (task_key a)) owned in
  let page :=
    match before with
    | None => sorted
    | Some key => List.filter (fun t => negb (task_key_leb key (task_key t))) sorted
    end in
  slice_to limit page.

Definition list_events (task_id owner_id : string) (after_sequence limit : Z) (r : repository)
    : result exc (list DomainEvent) :=
  result_bind (fun _ =>
    Ok (slice_to limit
      (List.filter (fun e => after_sequence <? ev_sequence e) (get_list (events r) task_id))))
    (snapshot_for_owner task_id owner_id r).

Definition latest_event_sequence (task_id owner_id : string) (r : repository) : result exc Z :=
  result_bind (fun l => Ok (match last l with Some e => ev_sequence e | None => 0 end))
    (list_events task_id owner_id 0 (Z.max (Z.of_nat (length (get_list (events r) task_id))) 1) r).

Definition get_idempotency (actor_id key : string) (r : repository) : option IdempotencyRecord :=
  idempotency r !! (actor_id, key).

Definition get_checkpoint (thread_id : string) (r : repository) : option Checkpoint :=
  checkpoints r !! thread_id.

(** ** Writes *)

Definition save_idempotency (rec : IdempotencyRecord) (r : repository) : repository :=
  set_idempotency (<[(ir_actor_id rec, ir_idempotency_key rec) := rec]> (idempotency r)) r.

Definition create_task_bundle (task : Task) (message : TaskMessage) (brief : RequirementBriefVersion)
    (run : AgentRun) (rec : IdempotencyRecord) (r : repository) : repository :=
  let k := t_task_id task in
  save_idempotency rec
    (mkRepository (<[k := task]> (tasks r)) (<[r_run_id run := run]> (runs r))
      (<[k := [brief]]> (briefs r)) (<[k := []]> (outlines r)) (<[k := []]> (sections r))
      (<[k := []]> (documents r)) (<[k := [message]]> (messages r)) (<[k := []]> (quality_results r))
      (<[k := []]> (grounding_results r)) (idempotency r) (<[k := []]> (events r)) (checkpoints r)).

Definition save_task (task : Task) (r : repository) : repository :=
  set_tasks (<[t_task_id task := task]> (tasks r)) r.

(** Another active run of the same task. *)
Definition active_conflict (run : AgentRun) (r : repository) : bool :=
  existsb (fun item => bool_decide (r_task_id item = r_task_id run)
    && negb (bool_decide (r_run_id item = r_run_id run)) && active (r_status item)) (values (runs r)).

Definition save_run (run : AgentRun) (r : repository) : repository * result exc unit :=
  if active (r_status run) && active_conflict run r then (r, Raise ActiveRunConflict)
  else (set_runs (<[r_run_id run := run]> (runs r)) r, Ok tt).

(** [d.setdefault(k, []).append(v)]. *)
Definition append_to {A} (k : string) (v : A) (d : dict string (list A)) : dict string (list A) :=
  <[k := get_list d k ++ [v]]> d.

(** Replace the first element with the same identifier, or append. *)
Fixpoint replace_or_append {A} (same : A -> bool) (v : A) (l : list A) : list A :=
  match l with
  | [] => [v]
  | x :: rest => if same x then v :: rest else x :: replace_or_append same v rest
  end.

Definition put_in {A} (k : string) (same : A -> bool) (v : A) (d : dict string (list A))
    : dict string (list A) :=
  <[k := replace_or_append same v (get_list d k)]> d.

Definition save_brief (v : RequirementBriefVersion) (r : repository) : repository :=
  set_briefs (append_to (bv_task_id v) v (briefs r)) r.

Definition save_outline (v : OutlineVersion) (r : repository) : repository :=
  set_outlines (put_in (o_task_id v) (fun x => bool_decide (o_outline_id x = o_outline_id v)) v (outlines r)) r.

Definition save_section (task_id : string) (v : PrdSectionVersion) (r : repository) : repository :=
  set_sections (append_to task_id v (sections r)) r.

Definition save_document (v : PrdDocumentVersion) (r : repository) : repository :=
  set_documents (put_in (d_task_id v) (fun x => bool_decide (d_document_id x = d_document_id v)) v (documents r)) r.

Definition save_message (v : TaskMessage) (r : repository) : repository :=
  set_messages (append_to (tm_task_id v) v (messages r)) r.

Definition save_quality_result (task_id : string) (v : QualityResult) (r : repository) : repository :=
  set_quality (put_in task_id (fun x => bool_decide (q_quality_run_id x = q_quality_run_id v)) v
    (quality_results r)) r.

Definition save_grounding_result (task_id : string) (v : GroundingResult) (r : repository) : repository :=
  set_grounding (put_in task_id (fun x => bool_decide (gr_grounding_run_id x = gr_grounding_run_id v)) v
    (grounding_results r)) r.

Definition save_event (v : DomainEvent) (r : repository) : repository :=
  set_events (append_to (ev_task_id v) v (events r)) r.

Definition append_event (event_id task_id event_type : string) (payload : list (string * json))
    (created_at : Z) (r : repository) : repository :=
  save_event (mkDomainEvent event_id task_id (Z.of_nat (length (get_list (events r) task_id)) + 1)
    event_type payload created_at) r.

Definition save_checkpoint (thread_id : string) (v : Checkpoint) (r : repository) : repository :=
  set_checkpoints (<[thread_id := v]> (checkpoints r)) r.
