(* ===== verification/WorkflowNodes.v ===== *)
(** * Model calls and their validation

    [prd_agent/workflow/nodes.py] and [prd_agent/workflow/context_builder.py]:
    what is sent to the model, the single repair attempt, and the validators
    every model output goes through. *)
From stdpp Require Import base list sets strings pretty.
From Stdlib Require Import ZArith.
From S2P Require Import Prelude PyDict Json Domain Grounding Quality WorkflowRepo.

Open Scope Z_scope.

(** ** The world of a command *)

(** One entry of the confirmed context of a unit. *)
Record ContextEntry := mkContextEntry {
  ce_section_id : string;
  ce_unit_id : string;
  ce_node_id : option string;
  ce_version : Z;
  ce_title : string;
  ce_content : string;
  ce_content_hash : string
}.

(** What a unit context provider returns: the keys the service reads, and
    the rest of the mapping, which only the model sees. *)
Record InvestigationContext := mkInvestigationContext {
  ic_repository_id : option string;
  ic_resolved_commit_sha : option string;
  ic_facts : list DeterministicFact;
  ic_evidence : list SourceEvidence;
  ic_conflicts : list SourceConflict;
  ic_other : list (string * json)
}.

(** The payload mappings of the three operations, as records of their keys. *)
Record NodePayload := mkNodePayload {
  np_node_id : string; np_node_key : option string; np_sequence : Z; np_title : string; np_purpose : string }.

Inductive payload : Type :=
  | ExtractPayload (user_message : string) (previous_brief : option json)
  | OutlinePayload (requirement_brief : json)
  | UnitPayload (requirement_brief : json) (outline_title : string) (outline_version : Z)
      (nodes : list NodePayload) (unit_sequence : Z) (unit_title : string)
      (confirmed_context : list ContextEntry) (investigation_context : option InvestigationContext).

Record model_call := mkCall { mc_operation : string; mc_payload : payload; mc_repair : bool }.

Record world := mkWorld {
  w_repo : repository;
  w_uuids : nat;
  w_ticks : nat;
  w_calls : list model_call
}.

(** Everything outside the service: random identifiers, the clock, the
    language model (which may depend on every earlier call), and the optional
    collaborators the constructor receives. *)
Class Env := {
  uuid4_hex : nat -> string;
  utc_now : nat -> Z;
  complete : list model_call -> model_call -> result exc json;
  unit_context_provider : option (Task -> AgentRun -> OutlineVersion -> ConfirmationUnit ->
    RequirementBrief -> result exc (option InvestigationContext));
  grounding_service : option (GroundingRequest -> result exc GroundingResult);
  quality_service : option (string -> string -> string -> OutlineVersion ->
    list PrdSectionVersion -> QualityResult)
}.

Definition WM (A : Type) : Type := M world exc A.

(** [_id(prefix)]. *)
Definition new_id `{Env} (prefix : string) : WM string := fun w =>
  (mkWorld (w_repo w) (S (w_uuids w)) (w_ticks w) (w_calls w),
   Ok (prefix +:+ "-" +:+ uuid4_hex (w_uuids w))).

(** [datetime.now(timezone.utc)]. *)
Definition now `{Env} : WM Z := fun w =>
  (mkWorld (w_repo w) (w_uuids w) (S (w_ticks w)) (w_calls w), Ok (utc_now (w_ticks w))).

Definition repo_do (f : repository -> repository) : WM unit := fun w =>
  (mkWorld (f (w_repo w)) (w_uuids w) (w_ticks w) (w_calls w), Ok tt).

Definition repo_get {A} (f : repository -> result exc A) : WM A := fun w => (w, f (w_repo w)).

Definition repo_try {A} (f : repository -> repository * result exc A) : WM A := fun w =>
  let (r, a) := f (w_repo w) in (mkWorld r (w_uuids w) (w_ticks w) (w_calls w), a).

Definition call_model `{Env} (c : model_call) : WM json := fun w =>
  (mkWorld (w_repo w) (w_uuids w) (w_ticks w) (w_calls w ++ [c]), complete (w_calls w) c).

(** ** [invoke_validated] *)

(** The exceptions that trigger the repair. *)
Definition repairable (e : exc) : bool :=
  match e with KeyError | TypeError | ValueError | ModelOutputError => true | _ => false end.

Definition invoke_validated `{Env} {A} (operation : string) (p : payload)
    (validator : json -> result exc A) : WM A :=
  first ← call_model (mkCall operation p false);
  match validator first with
  | Ok a => mret a
  | Raise e =>
      if repairable e then
        second ← call_model (mkCall operation p true);
        match validator second with
        | Ok a => mret a
        | Raise e' => if repairable e' then raise ModelOutputError else raise e'
        end
      else raise e
  end.

Section nodes.
Context `{Builtins}.

Definition extract_requirement_brief `{Env} (message : string) (previous : option RequirementBrief)
    : WM RequirementBrief :=
  invoke_validated "extract_requirement_brief"
    (ExtractPayload message (RequirementBrief_as_dict <$> previous)) RequirementBrief_from_mapping.

(** ** [validate_outline] *)

(** A normalized node: the raw mapping with [key], [parent_key] and [level] set. *)
Record NodeDraft := mkNodeDraft {
  nd_raw : list (string * json);
  nd_key : string;
  nd_parent_key : option string;
  nd_level : Z
}.

(** A normalized unit; the remaining keys of the mapping are never read. *)
Record UnitDraft := mkUnitDraft {
  ud_key : string;
  ud_title : string;
  ud_node_keys : list string;
  ud_depends_on_unit_keys : list string
}.

Record OutlineDraft := mkOutlineDraft {
  od_title : string;
  od_nodes : list NodeDraft;
  od_units : list UnitDraft
}.

(** [str(value.get("key") or default).strip()]. *)
Definition key_of (v : list (string * json)) (dflt : string) : string :=
  strip (match jget "key" v with
         | Some j => if jtruthy j then py_str j else dflt
         | None => dflt
         end).

Definition parent_key_of (v : list (string * json)) : option string :=
  match jget "parent_key" v with
  | None | Some JNull => None
  | Some j => Some (strip (py_str j))
  end.

(** A parent key that is set and not empty. *)
Definition real_parent (v : list (string * json)) : option string :=
  match parent_key_of v with
  | Some p => if truthy p then Some p else None
  | None => None
  end.

Definition level_of_key (nodes : list NodeDraft) (key : string) : option Z :=
  nd_level <$> List.find (fun n => bool_decide (nd_key n = key)) nodes.

(** One iteration of the loop over the nodes. *)
Definition validate_node (index : Z) (done : list NodeDraft) (value : json) : result exc NodeDraft :=
  match as_mapping value with
  | None => Raise ModelOutputError
  | Some v =>
      if existsb (fun name => negb (truthy (strip (str_get name EmptyString v))))
           ["title"; "purpose"; "complexity"] then Raise ModelOutputError else
      let key := key_of v ("node-" +:+ pretty index) in
      if negb (truthy key) || bool_decide (key ∈ (nd_key <$> done)) then Raise ModelOutputError else
      let known := match real_parent v with
                   | Some p => bool_decide (p ∈ (nd_key <$> done))
                   | None => true
                   end in
      if negb known then Raise ModelOutputError else
      let inferred := match real_parent v with
                      | Some p => default 0 (level_of_key done p) + 1
                      | None => 1
                      end in
      result_bind (fun level =>
        if negb (Z.eqb level inferred) || (level <? 1) || (3 <? level) then Raise ModelOutputError
        else Ok (mkNodeDraft v key (parent_key_of v) level))
        (match jget "level" v with Some j => py_int j | None => Ok inferred end)
  end.

Fixpoint validate_nodes (index : Z) (done : list NodeDraft) (values : list json)
    : result exc (list NodeDraft) :=
  match values with
  | [] => Ok done
  | value :: rest =>
      result_bind (fun n => validate_nodes (index + 1) (done ++ [n]) rest) (validate_node index done value)
  end.

(** The units used when the model gives none: one per node, in a chain. *)
Definition default_units (nodes : list NodeDraft) : list json :=
  imap (fun i n =>
    let index := Z.of_nat i + 1 in
    JObj [("key", JStr ("unit-" +:+ pretty index));
          ("title", default JNull (jget "title" (nd_raw n)));
          ("node_keys", JArr [JStr (nd_key n)]);
          ("depends_on_unit_keys",
             JArr (if Z.eqb index 1 then [] else [JStr ("unit-" +:+ pretty (index - 1))]))]) nodes.

(** [tuple(str(item) for item in unit.get(key, ()))]. *)
Definition str_tuple (key : string) (v : list (string * json)) : result exc (list string) :=
  match jget key v with
  | None => Ok []
  | Some j => result_bind (fun l => Ok (map py_str l)) (py_iter j)
  end.

Definition validate_unit (index : Z) (node_keys : list string) (done : list UnitDraft) (value : json)
    : result exc UnitDraft :=
  match as_mapping value with
  | None => Raise ModelOutputError
  | Some v =>
      let key := key_of v ("unit-" +:+ pretty index) in
      let title := strip (str_get "title" EmptyString v) in
      result_bind (fun mapped => result_bind (fun dependencies =>
        if negb (truthy key) || bool_decide (key ∈ (ud_key <$> done)) || negb (truthy title)
           || negb (nonempty mapped) then Raise ModelOutputError
        else if existsb (fun k => negb (bool_decide (k ∈ node_keys))) mapped then Raise ModelOutputError
        else if existsb (fun k => negb (bool_decide (k ∈ (ud_key <$> done)))) dependencies then
          Raise ModelOutputError
        else Ok (mkUnitDraft key title mapped dependencies))
        (str_tuple "depends_on_unit_keys" v)) (str_tuple "node_keys" v)
  end.

Fixpoint validate_units (index : Z) (node_keys : list string) (done : list UnitDraft)
    (values : list json) : result exc (list UnitDraft) :=
  match values with
  | [] => Ok done
  | value :: rest =>
      result_bind (fun u => validate_units (index + 1) node_keys (done ++ [u]) rest)
        (validate_unit index node_keys done value)
  end.

Definition validate_outline (value : json) : result exc OutlineDraft :=
  match as_mapping value with
  | None => Raise AttributeError
  | Some v =>
      let title := strip (str_get "title" EmptyString v) in
      match jget "nodes" v with
      | Some (JArr raw_nodes) =>
          if negb (truthy title) || negb (nonempty raw_nodes) then Raise ModelOutputError else
          result_bind (fun nodes =>
            let node_keys := nd_key <$> nodes in
            match (match jget "units" v with None | Some JNull => JArr (default_units nodes) | Some j => j end) with
            | JArr raw_units =>
                if negb (nonempty raw_units) || (15 <? length raw_units)%nat then Raise ModelOutputError else
                result_bind (fun units =>
                  let covered := flat_map ud_node_keys units in
                  if bool_decide (sort_by String.leb covered = sort_by String.leb node_keys)
                     && (length covered =? length node_keys)%nat
                  then Ok (mkOutlineDraft title nodes units)
                  else Raise ModelOutputError) (validate_units 1 node_keys [] raw_units)
            | _ => Raise ModelOutputError
            end) (validate_nodes 1 [] raw_nodes)
      | _ => Raise ModelOutputError
      end
  end.
End nodes.

(** ** [PrdClaim.model_validate] *)

Definition ClaimKind_of (s : string) : option ClaimKind :=
  if decide (s = "CURRENT_STATE") then Some ClaimKind.CURRENT_STATE
  else if decide (s = "HISTORICAL_CONTEXT") then Some ClaimKind.HISTORICAL_CONTEXT
  else if decide (s = "TARGET_DECISION") then Some ClaimKind.TARGET_DECISION
  else if decide (s = "ASSUMPTION") then Some ClaimKind.ASSUMPTION
  else if decide (s = "RECOMMENDATION") then Some ClaimKind.RECOMMENDATION
  else if decide (s = "UNKNOWN") then Some ClaimKind.UNKNOWN
  else if decide (s = "RISK") then Some ClaimKind.RISK
  else None.

Definition ClaimCriticality_of (s : string) : option ClaimCriticality :=
  if decide (s = "CRITICAL") then Some ClaimCriticality.CRITICAL
  else if decide (s = "MATERIAL") then Some ClaimCriticality.MATERIAL
  else if decide (s = "INFORMATIONAL") then Some ClaimCriticality.INFORMATIONAL
  else None.

Definition json_str (j : json) : option string := match j with JStr s => Some s | _ => None end.

(** A required, non-empty string field. *)
Definition nonempty_str_field (key : string) (v : list (string * json)) : option string :=
  match jget key v with
  | Some (JStr s) => if truthy s then Some s else None
  | _ => None
  end.

(** A [tuple[str, ...]] field with default [()]. *)
Definition str_list_field (key : string) (v : list (string * json)) : option (list string) :=
  match jget key v with
  | None => Some []
  | Some (JArr l) => mapM json_str l
  | Some _ => None
  end.

Definition claim_fields : list string :=
  ["claim_id"; "text"; "kind"; "criticality"; "fact_ids"; "decision_ids"; "assumption_ids"].

(** Field types, minimum lengths and [extra="forbid"]; pydantic's
    [ValidationError] is a [ValueError]. *)
Definition PrdClaim_validate (item : json) : result exc PrdClaim :=
  match as_mapping item with
  | None => Raise ValueError
  | Some v =>
      let parsed :=
        claim_id ← nonempty_str_field "claim_id" v;
        text ← nonempty_str_field "text" v;
        kind ← (s ← jget "kind" v ≫= json_str; ClaimKind_of s);
        criticality ← match jget "criticality" v with
                      | None => Some ClaimCriticality.MATERIAL
                      | Some j => json_str j ≫= ClaimCriticality_of
                      end;
        fact_ids ← str_list_field "fact_ids" v;
        decision_ids ← str_list_field "decision_ids" v;
        assumption_ids ← str_list_field "assumption_ids" v;
        Some (mkClaim claim_id text kind criticality fact_ids decision_ids assumption_ids) in
      match parsed with
      | Some claim =>
          if forallb (fun k => bool_decide (k ∈ claim_fields)) v.*1 then Ok claim else Raise ValueError
      | None => Raise ValueError
      end
  end.

(** ** [validate_unit_draft] *)

Record SectionPart := mkSectionPart { sp_node_key : string; sp_title : string; sp_content : string }.

Record UnitContent := mkUnitContent {
  uc_content : string;
  uc_claims : list PrdClaim;
  uc_sections : list SectionPart
}.

Section drafts.
Context `{Builtins}.

Definition validate_unit_content (v : list (string * json)) : result exc string :=
  let content := strip (str_get "content" EmptyString v) in
  if truthy content then Ok content else Raise ModelOutputError.

Definition validate_section (item : json) : result exc SectionPart :=
  match as_mapping item with
  | None => Raise ModelOutputError
  | Some v =>
      let node_key := strip (str_get "node_key" EmptyString v) in
      let title := strip (str_get "title" EmptyString v) in
      let content := strip (str_get "content" EmptyString v) in
      if negb (truthy node_key) || negb (truthy title) || negb (truthy content)
      then Raise ModelOutputError else Ok (mkSectionPart node_key title content)
  end.

Definition joined_content (parts : list SectionPart) : string :=
  str_join blank_line (map (fun p => "### " +:+ sp_title p +:+ blank_line +:+ sp_content p) parts).

Definition validate_unit_draft (value : json) : result exc UnitContent :=
  match as_mapping value with
  | None => Raise AttributeError
  | Some v =>
      match default (JArr []) (jget "sections" v) with
      | JArr raw_sections =>
          result_bind (fun parts =>
            result_bind (fun content =>
              match default (JArr []) (jget "claims" v) with
              | JArr raw_claims =>
                  match result_map PrdClaim_validate raw_claims with
                  | Ok claims => Ok (mkUnitContent content claims parts)
                  | Raise _ => Raise ModelOutputError
                  end
              | _ => Raise ModelOutputError
              end)
              (if nonempty parts then Ok (joined_content parts) else validate_unit_content v))
            (result_map validate_section raw_sections)
      | _ => Raise ModelOutputError
      end
  end.

Definition same_set (a b : list string) : bool :=
  forallb (fun x => bool_decide (x ∈ b)) a && forallb (fun x => bool_decide (x ∈ a)) b.

Definition validate_unit_draft_for_nodes (expected_node_keys : list string) (value : json)
    : result exc UnitContent :=
  result_bind (fun draft =>
    match uc_sections draft with
    | [] => if (1 <? length expected_node_keys)%nat then Raise ModelOutputError else Ok draft
    | parts =>
        let provided := sp_node_key <$> parts in
        if negb (length provided =? length (dedup provided))%nat || negb (same_set provided expected_node_keys)
        then Raise ModelOutputError else Ok draft
    end) (validate_unit_draft value).
End drafts.

(** ** [build_confirmed_context] *)

(** [section.node_id or section.unit_id]. *)
Definition section_key (s : PrdSectionVersion) : string := or_else (s_node_id s) (s_unit_id s).

(** Keep the section with the greatest version per key, the first on ties. *)
Definition keep_latest (latest : dict string PrdSectionVersion) (s : PrdSectionVersion)
    : dict string PrdSectionVersion :=
  match latest !! section_key s with
  | None => <[section_key s := s]> latest
  | Some current => if s_version current <? s_version s then <[section_key s := s]> latest else latest
  end.

Definition context_leb (a b : PrdSectionVersion) : bool :=
  let key s := (s_unit_id s, (default EmptyString (s_node_id s), s_version s)) in
  pair_leb String.eqb String.leb (pair_leb String.eqb String.leb Z.leb) (key a) (key b).

Definition in_context (u : ConfirmationUnit) (s : PrdSectionVersion) : bool :=
  bool_decide (s_unit_id s ∈ u_depends_on_unit_ids u) && bool_decide (s_status s = SectionStatus.CONFIRMED).

Definition context_entry (max_content_chars : nat) (s : PrdSectionVersion) : ContextEntry :=
  mkContextEntry (s_section_id s) (s_unit_id s) (s_node_id s) (s_version s) (s_title s)
    (str_take max_content_chars (s_content s)) (s_content_hash s).

Definition build_confirmed_context (u : ConfirmationUnit) (sections : list PrdSectionVersion)
    (max_content_chars : nat) : list ContextEntry :=
  let latest := foldl keep_latest ∅ (List.filter (in_context u) sections) in
  map (context_entry max_content_chars) (sort_by context_leb (values latest)).
