(* ===== verification/Workflow.v ===== *)
(** * The workflow service

    [WorkflowService] of [prd_agent/workflow/service.py]: every public command
    as a computation over the world, in the order in which the code consumes
    identifiers and clock readings and writes to the repository.  A raised
    exception keeps the writes made before it. *)
From stdpp Require Import base list sets strings pretty.
From Stdlib Require Import ZArith.
From S2P Require Import Prelude PyDict Json Domain Grounding Quality.
From S2P Require Import WorkflowRepo WorkflowNodes.

Open Scope Z_scope.

(** ** Field assignments *)

Definition task_set_status (s : TaskStatus) (t : Task) : Task :=
  mkTask (t_task_id t) (t_title t) s (t_version t) (t_current_outline_version t)
    (t_current_unit_sequence t) (t_created_at t) (t_updated_at t) (t_owner_id t).
(** [task.version += 1; task.updated_at = at]. *)
Definition task_bump (at_ : Z) (t : Task) : Task :=
  mkTask (t_task_id t) (t_title t) (t_status t) (t_version t + 1) (t_current_outline_version t)
    (t_current_unit_sequence t) (t_created_at t) at_ (t_owner_id t).
Definition task_set_outline (v : Z) (t : Task) : Task :=
  mkTask (t_task_id t) (t_title t) (t_status t) (t_version t) (Some v)
    (t_current_unit_sequence t) (t_created_at t) (t_updated_at t) (t_owner_id t).
Definition task_set_sequence (v : Z) (t : Task) : Task :=
  mkTask (t_task_id t) (t_title t) (t_status t) (t_version t) (t_current_outline_version t)
    (Some v) (t_created_at t) (t_updated_at t) (t_owner_id t).

Definition run_set_status (s : RunStatus) (r : AgentRun) : AgentRun :=
  mkRun (r_run_id r) (r_task_id r) (r_thread_id r) (r_graph_name r) (r_graph_version r) s
    (r_input_hash r) (r_idempotency_key r) (r_started_at r) (r_ended_at r) (r_error r).
Definition run_set_ended (at_ : Z) (r : AgentRun) : AgentRun :=
  mkRun (r_run_id r) (r_task_id r) (r_thread_id r) (r_graph_name r) (r_graph_version r) (r_status r)
    (r_input_hash r) (r_idempotency_key r) (r_started_at r) (Some at_) (r_error r).
Definition run_set_error (e : exc) (r : AgentRun) : AgentRun :=
  mkRun (r_run_id r) (r_task_id r) (r_thread_id r) (r_graph_name r) (r_graph_version r) (r_status r)
    (r_input_hash r) (r_idempotency_key r) (r_started_at r) (r_ended_at r) (Some e).

Definition unit_set_status (s : UnitStatus) (u : ConfirmationUnit) : ConfirmationUnit :=
  mkUnit (u_unit_id u) (u_outline_id u) (u_sequence u) (u_title u) s (u_content u) (u_version u)
    (u_node_ids u) (u_depends_on_unit_ids u) (u_content_hash u) (u_grounding_run_id u)
    (u_quality_run_id u) (u_section_drafts u).
Definition unit_bump (u : ConfirmationUnit) : ConfirmationUnit :=
  mkUnit (u_unit_id u) (u_outline_id u) (u_sequence u) (u_title u) (u_status u) (u_content u)
    (u_version u + 1) (u_node_ids u) (u_depends_on_unit_ids u) (u_content_hash u)
    (u_grounding_run_id u) (u_quality_run_id u) (u_section_drafts u).
Definition unit_set_content (c h : option string) (u : ConfirmationUnit) : ConfirmationUnit :=
  mkUnit (u_unit_id u) (u_outline_id u) (u_sequence u) (u_title u) (u_status u) c (u_version u)
    (u_node_ids u) (u_depends_on_unit_ids u) h (u_grounding_run_id u)
    (u_quality_run_id u) (u_section_drafts u).
Definition unit_set_drafts (d : list SectionDraft) (u : ConfirmationUnit) : ConfirmationUnit :=
  mkUnit (u_unit_id u) (u_outline_id u) (u_sequence u) (u_title u) (u_status u) (u_content u)
    (u_version u) (u_node_ids u) (u_depends_on_unit_ids u) (u_content_hash u)
    (u_grounding_run_id u) (u_quality_run_id u) d.
Definition unit_set_grounding (g : string) (u : ConfirmationUnit) : ConfirmationUnit :=
  mkUnit (u_unit_id u) (u_outline_id u) (u_sequence u) (u_title u) (u_status u) (u_content u)
    (u_version u) (u_node_ids u) (u_depends_on_unit_ids u) (u_content_hash u)
    (Some g) (u_quality_run_id u) (u_section_drafts u).

Definition outline_set_units (us : list ConfirmationUnit) (o : OutlineVersion) : OutlineVersion :=
  mkOutline (o_outline_id o) (o_task_id o) (o_version o) (o_title o) (o_status o) (o_nodes o) us
    (o_created_at o) (o_confirmed_at o).
Definition outline_set_status (s : OutlineStatus) (confirmed_at : option Z) (o : OutlineVersion)
    : OutlineVersion :=
  mkOutline (o_outline_id o) (o_task_id o) (o_version o) (o_title o) s (o_nodes o)
    (o_confirmation_units o) (o_created_at o) confirmed_at.

(** [tuple(unit if item.unit_id == unit.unit_id else item for item in units)]. *)
Definition rebuild_units (u : ConfirmationUnit) (us : list ConfirmationUnit) : list ConfirmationUnit :=
  map (fun item => if decide (u_unit_id item = u_unit_id u) then u else item) us.

(** ** Pure helpers of the service *)

Section service.
Context `{Builtins}.

Definition content_hash (value : string) : string := "sha256:" +:+ sha256_hex value.

Definition contains_unlisted_current_state_claim (value : string) : bool :=
  let lowered := lower value in
  existsb (fun marker => str_contains marker lowered)
    ["当前系统"; "现有系统"; "目前系统"; "已经实现"; "当前支持"; "currently"; "existing system"].

(** [_current_sections]: the newest section per node in outline order, or
    per unit when no section belongs to a node. *)
Definition current_sections (outline : OutlineVersion) (all : list PrdSectionVersion)
    : list PrdSectionVersion :=
  let latest := foldl keep_latest ∅ all in
  let by_node := omap (fun n => latest !! n_node_id n)
    (sort_by (fun a b => Z.leb (n_sequence a) (n_sequence b)) (o_nodes outline)) in
  match by_node with
  | _ :: _ => by_node
  | [] => omap (fun u => latest !! u_unit_id u)
      (sort_by (fun a b => Z.leb (u_sequence a) (u_sequence b)) (o_confirmation_units outline))
  end.

(** One round of the [while changed] loop; additions are seen by later units. *)
Definition closure_step (acc : list string * bool) (u : ConfirmationUnit) : list string * bool :=
  let (closure, changed) := acc in
  if bool_decide (u_unit_id u ∈ closure) then acc
  else if existsb (fun d => bool_decide (d ∈ closure)) (u_depends_on_unit_ids u)
  then (u_unit_id u :: closure, true)
  else acc.

Fixpoint closure_loop (fuel : nat) (units : list ConfirmationUnit) (closure : list string) : list string :=
  match fuel with
  | 0%nat => closure
  | S fuel' =>
      let (closure', changed) := foldl closure_step (closure, false) units in
      if changed then closure_loop fuel' units closure' else closure'
  end.

(** Every round but the last adds a unit, so one more round than units is enough. *)
Definition dependent_unit_closure (outline : OutlineVersion) (selected_ids : list string) : list string :=
  closure_loop (S (length (o_confirmation_units outline))) (o_confirmation_units outline) selected_ids.

(** ** Shared steps *)

Context `{Env}.

Definition get_repo : WM repository := fun w => (w, Ok (w_repo w)).

Definition emit_event (task_id event_type : string) (payload : list (string * json)) : WM unit :=
  event_id ← new_id "event";
  created_at ← now;
  repo_do (append_event event_id task_id event_type payload created_at).

Definition checkpoint (task : Task) (run : AgentRun) (current_node : string) : WM unit :=
  repo_do (save_checkpoint (r_thread_id run)
    (mkCheckpoint (t_task_id task) (r_run_id run) (r_thread_id run) (r_graph_version run)
       (t_version task) current_node)).

Definition owned_task (task_id actor_id : string) : WM Task :=
  task ← repo_get (get_task task_id);
  if bool_decide (t_owner_id task = actor_id) then mret task else raise NotFound.

Definition owned_snapshot (task_id actor_id : string) : WM WorkflowSnapshot :=
  repo_get (snapshot_for_owner task_id actor_id).

Definition show (task_id actor_id : string) : WM WorkflowSnapshot := owned_snapshot task_id actor_id.

(** The replay check every command starts with. *)
Definition with_replay (actor_id key input_hash : string) (k : WM WorkflowSnapshot) : WM WorkflowSnapshot :=
  r ← get_repo;
  match get_idempotency actor_id key r with
  | Some replay =>
      if negb (bool_decide (ir_input_hash replay = input_hash)) then raise IdempotencyConflict
      else owned_snapshot (ir_task_id replay) actor_id
  | None => k
  end.

Definition new_task (task_id title owner_id : string) : WM Task :=
  created_at ← now;
  updated_at ← now;
  mret (mkTask task_id (Some title) TaskStatus.DRAFT 1 None None created_at updated_at owner_id).

Definition new_message (task_id actor_id content : string) : WM TaskMessage :=
  message_id ← new_id "message";
  created_at ← now;
  mret (mkTaskMessage message_id task_id actor_id content created_at).

Definition new_brief_version (task_id : string) (version : Z) (brief : RequirementBrief) (confirmed : bool)
    : WM RequirementBriefVersion :=
  created_at ← now;
  mret (mkBriefVersion task_id version brief confirmed created_at).

Definition new_record (actor_id key input_hash task_id run_id : string) : WM IdempotencyRecord :=
  created_at ← now;
  mret (mkIdempotencyRecord actor_id key input_hash task_id run_id created_at).

Definition make_run (run_id task_id thread_id : string) (status : RunStatus) (input_hash key : string)
    (started_at ended_at : option Z) (error : option exc) : AgentRun :=
  mkRun run_id task_id thread_id "prd_workflow" "m0.step6.v1" status input_hash key
    started_at ended_at error.

(** The run a follow-up command starts: RUNNING, from now. *)
Definition new_run (task_id thread_id input_hash key : string) : WM AgentRun :=
  run_id ← new_id "run";
  started_at ← now;
  mret (make_run run_id task_id thread_id RunStatus.RUNNING input_hash key (Some started_at) None None).

(** [task.status = policy.transition(...)], then [version += 1; updated_at = ...]. *)
Definition move_task (task : Task) (target : TaskStatus) (expected_version : Z) (updated_at : WM Z)
    : WM Task :=
  status ← liftR (transition (t_status task) target (t_version task) expected_version);
  at_ ← updated_at;
  mret (task_bump at_ (task_set_status status task)).

(** The previous run ends successfully. *)
Definition finish_old_run (old_run : AgentRun) : WM unit :=
  ended_at ← now;
  repo_try (save_run (run_set_ended ended_at (run_set_status RunStatus.SUCCEEDED old_run))).

(** ** [_generate_outline] *)

(** The fold over the draft's nodes: [node_ids_by_key] and the nodes so far. *)
Fixpoint build_nodes (sequence : Z) (ids : dict string string) (built : list OutlineNode)
    (drafts : list NodeDraft) : WM (dict string string * list OutlineNode) :=
  match drafts with
  | [] => mret (ids, built)
  | d :: rest =>
      node_id ← new_id "node";
      let ids := <[nd_key d := node_id]> ids in
      title ← liftR (match jget "title" (nd_raw d) with Some j => Ok (py_str j) | None => Raise KeyError end);
      purpose ← liftR (match jget "purpose" (nd_raw d) with Some j => Ok (py_str j) | None => Raise KeyError end);
      complexity ← liftR (match jget "complexity" (nd_raw d) with
                          | Some j => Complexity_of (py_str j) | None => Raise KeyError end);
      required_information ← liftR (match jget "required_information" (nd_raw d) with
                                    | Some j => py_iter j | None => Ok [] end);
      parent_id ← liftR (match nd_parent_key d with
                         | Some p =>
                             if truthy p then match ids !! p with Some i => Ok (Some i) | None => Raise KeyError end
                             else Ok None
                         | None => Ok None
                         end);
      build_nodes (sequence + 1) ids
        (built ++ [mkOutlineNode node_id sequence title purpose complexity required_information
                     parent_id (nd_level d) (Some (nd_key d))]) rest
  end.

Fixpoint unit_ids_by_key (ids : dict string string) (drafts : list UnitDraft) : WM (dict string string) :=
  match drafts with
  | [] => mret ids
  | d :: rest =>
      unit_id ← new_id "unit";
      unit_ids_by_key (<[ud_key d := unit_id]> ids) rest
  end.

(** [d[key]]. *)
Definition must_get (d : dict string string) (key : string) : result exc string :=
  match d !! key with Some v => Ok v | None => Raise KeyError end.

Definition build_unit (outline_id : string) (node_ids unit_ids : dict string string)
    (sequence : Z) (d : UnitDraft) : result exc ConfirmationUnit :=
  result_bind (fun unit_id => result_bind (fun nodes => result_bind (fun dependencies =>
    Ok (mkUnit unit_id outline_id sequence (ud_title d) UnitStatus.PENDING None 1 nodes dependencies
          None None None []))
    (result_map (must_get unit_ids) (ud_depends_on_unit_keys d)))
    (result_map (must_get node_ids) (ud_node_keys d)))
    (must_get unit_ids (ud_key d)).

Definition build_units (outline_id : string) (node_ids unit_ids : dict string string)
    (drafts : list UnitDraft) : result exc (list ConfirmationUnit) :=
  result_map (fun p => build_unit outline_id node_ids unit_ids (Z.of_nat p.1 + 1) p.2)
    (imap (fun i d => (i, d)) drafts).

Definition generate_outline (task : Task) (run : AgentRun) (brief : RequirementBrief)
    : WM WorkflowSnapshot :=
  draft ← invoke_validated "generate_outline" (OutlinePayload (RequirementBrief_as_dict brief)) validate_outline;
  outline_id ← new_id "outline";
  prior ← repo_get (snapshot (t_task_id task));
  let outline_version := max_default0 (o_version <$> ws_outlines prior) + 1 in
  built ← build_nodes 1 ∅ [] (od_nodes draft);
  unit_ids ← unit_ids_by_key ∅ (od_units draft);
  units ← liftR (build_units outline_id built.1 unit_ids (od_units draft));
  created_at ← now;
  let outline := mkOutline outline_id (t_task_id task) outline_version (od_title draft)
                   OutlineStatus.PENDING_CONFIRMATION built.2 units created_at None in
  task ← move_task task TaskStatus.OUTLINE_REVIEW (t_version task) now;
  let task := task_set_outline outline_version task in
  let run := run_set_status RunStatus.WAITING_USER run in
  repo_do (save_outline outline);;
  repo_do (save_task task);;
  repo_try (save_run run);;
  emit_event (t_task_id task) "OutlineGenerated" [("outline_version", JInt outline_version)];;
  checkpoint task run "WAIT_OUTLINE_CONFIRMATION";;
  repo_get (snapshot (t_task_id task)).

(** Clarification is still needed: wait for the user. *)
Definition request_clarification (task : Task) (run : AgentRun) (brief : RequirementBrief)
    : WM WorkflowSnapshot :=
  let run := run_set_status RunStatus.WAITING_USER run in
  repo_try (save_run run);;
  emit_event (t_task_id task) "ClarificationRequested"
    [("question_count", JInt (Z.of_nat (length (open_questions brief))))];;
  checkpoint task run "WAIT_USER_CLARIFICATION";;
  repo_get (snapshot (t_task_id task)).

Definition clarify_or_outline (task : Task) (run : AgentRun) (brief : RequirementBrief)
    : WM WorkflowSnapshot :=
  if needs_clarification brief then request_clarification task run brief
  else generate_outline task run brief.

(** ** [start_task] *)

(** [RequirementBrief(problem=message, open_questions=(...,))]. *)
Definition failed_brief (message : string) : RequirementBrief :=
  mkBrief message [] [] [] [] [] [] [] [] [] [] [] ["需求结构化失败，需要用户重试或补充信息"] [] [].

(** The handler of a failed extraction: the task is recorded as FAILED. *)
Definition record_failed_start (command : StartTask) (message input_hash task_id run_id thread_id : string)
    (at_ : Z) (e : exc) : WM unit :=
  task ← new_task task_id (str_take 120 message) (st_actor_id command);
  task ← move_task task TaskStatus.CLARIFYING (t_version task) (mret (t_updated_at task));
  task ← move_task task TaskStatus.FAILED (t_version task) (mret at_);
  let run := make_run run_id task_id thread_id RunStatus.FAILED input_hash (st_idempotency_key command)
               (Some at_) (Some at_) (Some e) in
  m ← new_message task_id (st_actor_id command) message;
  b ← new_brief_version task_id 1 (failed_brief message) false;
  rec ← new_record (st_actor_id command) (st_idempotency_key command) input_hash task_id run_id;
  repo_do (create_task_bundle task m b run rec);;
  emit_event task_id "RunFailed" [("node", JStr "EXTRACT_REQUIREMENT_BRIEF")];;
  checkpoint task run "EXTRACT_REQUIREMENT_BRIEF_FAILED".

(** [try: m except ModelOutputError: handler; raise]. *)
Definition on_model_error {A} (handler : exc -> WM unit) (m : WM A) : WM A := fun w =>
  match m w with
  | (w', Raise ModelOutputError) => (handler ModelOutputError;; raise ModelOutputError) w'
  | out => out
  end.

Definition record_started (command : StartTask) (message input_hash task_id run_id thread_id : string)
    (at_ : Z) (brief : RequirementBrief) : WM (Task * AgentRun) :=
  task ← new_task task_id (str_take 120 (problem brief)) (st_actor_id command);
  task ← move_task task TaskStatus.CLARIFYING (t_version task) (mret at_);
  let run := make_run run_id task_id thread_id RunStatus.RUNNING input_hash (st_idempotency_key command)
               (Some at_) None None in
  m ← new_message task_id (st_actor_id command) message;
  b ← new_brief_version task_id 1 brief true;
  rec ← new_record (st_actor_id command) (st_idempotency_key command) input_hash task_id run_id;
  repo_do (create_task_bundle task m b run rec);;
  emit_event task_id "TaskStarted" [("run_id", JStr run_id)];;
  mret (task, run).

Definition start_hash (message : string) : string :=
  sha256_json (JObj [("command", JStr "StartTask"); ("message", JStr message)]).

Definition start_task_locked (command : StartTask) : WM WorkflowSnapshot :=
  let message := strip (st_message command) in
  if negb (truthy message) then raise InvalidCommand else
  if negb (truthy (strip (st_idempotency_key command))) then raise InvalidCommand else
  let input_hash := start_hash message in
  with_replay (st_actor_id command) (st_idempotency_key command) input_hash (
    task_id ← new_id "task";
    run_id ← new_id "run";
    thread_id ← new_id "thread";
    at_ ← now;
    brief ← on_model_error (record_failed_start command message input_hash task_id run_id thread_id at_)
              (extract_requirement_brief message None);
    started ← record_started command message input_hash task_id run_id thread_id at_ brief;
    clarify_or_outline started.1 started.2 brief).

(** The per-key lock makes the body atomic. *)
Definition start_task (command : StartTask) : WM WorkflowSnapshot :=
  if negb (truthy (strip (st_idempotency_key command))) then raise InvalidCommand
  else start_task_locked command.

(** ** [reply_to_task] *)

Definition reply_hash (command : ReplyToTask) (message : string) : string :=
  sha256_json (JObj [("command", JStr "ReplyToTask"); ("task_id", JStr (rt_task_id command));
    ("message", JStr message); ("expected_task_version", JInt (rt_expected_task_version command))]).

(** A reply during outline review withdraws the outline. *)
Definition withdraw_outline (command : ReplyToTask) (task : Task) (previous : WorkflowSnapshot) : WM Task :=
  if decide (t_status task = TaskStatus.OUTLINE_REVIEW) then
    task ← move_task task TaskStatus.CLARIFYING (rt_expected_task_version command) now;
    match current_outline previous with
    | Some o => repo_do (save_outline (outline_set_status OutlineStatus.SUPERSEDED (o_confirmed_at o) o))
    | None => mret tt
    end;;
    repo_do (save_task task);;
    mret task
  else mret task.

Definition current_brief_of (s : WorkflowSnapshot) : WM RequirementBrief :=
  match current_brief s with Some b => mret (bv_brief b) | None => raise AttributeError end.

Definition reply_to_task (command : ReplyToTask) : WM WorkflowSnapshot :=
  let message := strip (rt_message command) in
  if negb (truthy message) then raise InvalidCommand else
  let input_hash := reply_hash command message in
  with_replay (rt_actor_id command) (rt_idempotency_key command) input_hash (
    task ← owned_task (rt_task_id command) (rt_actor_id command);
    if negb (Z.eqb (t_version task) (rt_expected_task_version command)) then raise VersionConflict else
    if negb (bool_decide (t_status task ∈ [TaskStatus.CLARIFYING; TaskStatus.OUTLINE_REVIEW]))
    then raise InvalidTransition else
    previous ← repo_get (snapshot (t_task_id task));
    previous_brief ← current_brief_of previous;
    brief ← extract_requirement_brief message (Some previous_brief);
    task ← withdraw_outline command task previous;
    finish_old_run (ws_run previous);;
    run ← new_run (t_task_id task) (r_thread_id (ws_run previous)) input_hash (rt_idempotency_key command);
    repo_try (save_run run);;
    m ← new_message (t_task_id task) (rt_actor_id command) message;
    repo_do (save_message m);;
    b ← new_brief_version (t_task_id task) (Z.of_nat (length (ws_briefs previous)) + 1) brief true;
    repo_do (save_brief b);;
    rec ← new_record (rt_actor_id command) (rt_idempotency_key command) input_hash (t_task_id task) (r_run_id run);
    repo_do (save_idempotency rec);;
    clarify_or_outline task run brief).

(** ** [_generate_unit]

    The objects the handler mutates.  [l_unit] is the element [l_index] of the
    outline's units: an assignment to one of its fields shows in both. *)
Record locals := mkLocals {
  l_task : Task;
  l_run : AgentRun;
  l_outline : OutlineVersion;
  l_index : nat;
  l_unit : ConfirmationUnit
}.

Definition LM (A : Type) : Type := M (world * locals) exc A.

Definition lift {A} (m : WM A) : LM A := fun s =>
  let (w, a) := m s.1 in ((w, s.2), a).
Definition local_vars : LM locals := fun s => (s, Ok s.2).
Definition assign (f : locals -> locals) : LM unit := fun s => ((s.1, f s.2), Ok tt).

Definition on_task (f : Task -> Task) (l : locals) : locals :=
  mkLocals (f (l_task l)) (l_run l) (l_outline l) (l_index l) (l_unit l).
Definition on_run (f : AgentRun -> AgentRun) (l : locals) : locals :=
  mkLocals (l_task l) (f (l_run l)) (l_outline l) (l_index l) (l_unit l).
Definition on_unit (f : ConfirmationUnit -> ConfirmationUnit) (l : locals) : locals :=
  let u := f (l_unit l) in
  mkLocals (l_task l) (l_run l)
    (outline_set_units (<[l_index l := u]> (o_confirmation_units (l_outline l))) (l_outline l))
    (l_index l) u.
(** [outline.confirmation_units = tuple(unit if same id else item ...)]. *)
Definition rebuild (l : locals) : locals :=
  mkLocals (l_task l) (l_run l)
    (outline_set_units (rebuild_units (l_unit l) (o_confirmation_units (l_outline l))) (l_outline l))
    (l_index l) (l_unit l).

Definition save_locals_outline : LM unit :=
  l ← local_vars; lift (repo_do (save_outline (l_outline l))).
Definition save_locals_task : LM unit := l ← local_vars; lift (repo_do (save_task (l_task l))).
Definition save_locals_run : LM unit := l ← local_vars; lift (repo_try (save_run (l_run l))).

(** The failure path, shared by the two handlers. *)
Definition fail_unit (e : exc) : LM unit :=
  assign (on_unit (unit_set_status UnitStatus.FAILED));;
  assign rebuild;;
  l ← local_vars;
  status ← liftR (transition (t_status (l_task l)) TaskStatus.FAILED (t_version (l_task l)) (t_version (l_task l)));
  at_ ← lift now;
  assign (on_task (fun t => task_bump at_ (task_set_status status t)));;
  assign (on_run (fun r => run_set_error e (run_set_status RunStatus.FAILED r)));;
  ended_at ← lift now;
  assign (on_run (run_set_ended ended_at));;
  save_locals_outline;;
  save_locals_task;;
  save_locals_run;;
  l ← local_vars;
  lift (emit_event (t_task_id (l_task l)) "RunFailed" [("node", JStr "GENERATE_FIRST_UNIT")]);;
  lift (checkpoint (l_task l) (l_run l) "GENERATE_FIRST_UNIT_FAILED").

(** The nodes of the outline the unit writes. *)
Definition unit_nodes (outline : OutlineVersion) (u : ConfirmationUnit) : list OutlineNode :=
  List.filter (fun n => negb (nonempty (u_node_ids u)) || bool_decide (n_node_id n ∈ u_node_ids u))
    (o_nodes outline).

Definition node_key (n : OutlineNode) : string := or_else (n_stable_key n) (n_node_id n).

Definition nodes_by_key (outline : OutlineVersion) (u : ConfirmationUnit) : dict string OutlineNode :=
  dict_by node_key (unit_nodes outline u).

Definition node_payload (n : OutlineNode) : NodePayload :=
  mkNodePayload (n_node_id n) (n_stable_key n) (n_sequence n) (n_title n) (n_purpose n).

Definition unit_payload (brief : RequirementBrief) (outline : OutlineVersion) (u : ConfirmationUnit)
    (all : list PrdSectionVersion) (context : option InvestigationContext) : payload :=
  UnitPayload (RequirementBrief_as_dict brief) (o_title outline) (o_version outline)
    (map node_payload (unit_nodes outline u)) (u_sequence u) (u_title u)
    (build_confirmed_context u all 4000) context.

(** [try: ... except ModelOutputError: <failure path>; raise]. *)
Definition on_draft_error {A} (m : LM A) : LM A := fun s =>
  match m s with
  | (s', Raise ModelOutputError) => (fail_unit ModelOutputError;; raise ModelOutputError) s'
  | out => out
  end.

Definition draft_of_part (nodes : dict string OutlineNode) (p : SectionPart) : result exc SectionDraft :=
  match nodes !! sp_node_key p with
  | None => Raise KeyError
  | Some n => Ok (mkSectionDraft (Some (n_node_id n)) (n_title n) (sp_content p) (content_hash (sp_content p)))
  end.

(** The section drafts a unit keeps; [None] leaves the old ones. *)
Definition unit_section_drafts (nodes : dict string OutlineNode) (u : ConfirmationUnit) (draft : UnitContent)
    : result exc (option (list SectionDraft)) :=
  match uc_sections draft with
  | [] =>
      Ok (match values nodes with
          | [n] => Some [mkSectionDraft (Some (n_node_id n)) (u_title u) (uc_content draft)
                           (content_hash (uc_content draft))]
          | _ => None
          end)
  | parts => result_bind (fun l => Ok (Some l)) (result_map (draft_of_part nodes) parts)
  end.

(** Claims, with an inventory claim when the text speaks of the current system
    and lists none. *)
Definition unit_claims (draft : UnitContent) : list PrdClaim :=
  match grounding_service, uc_claims draft with
  | Some _, [] =>
      if contains_unlisted_current_state_claim (uc_content draft) then
        [mkClaim ("claim-inventory-" +:+ str_take 16 (str_drop_bytes 7 (content_hash (uc_content draft))))
           (uc_content draft) ClaimKind.CURRENT_STATE ClaimCriticality.CRITICAL [] [] []]
      else []
  | _, claims => claims
  end.

Definition zero_sha : string := "0000000000000000000000000000000000000000".

Definition grounding_request (run_id task_id unit_id : string) (context : option InvestigationContext)
    (draft : UnitContent) : GroundingRequest :=
  let get {A} (f : InvestigationContext -> A) (d : A) := match context with Some c => f c | None => d end in
  mkGroundingRequest run_id task_id unit_id
    (Some (default "local" (get ic_repository_id None)))
    (Some (default zero_sha (get ic_resolved_commit_sha None))) []
    (uc_content draft) (unit_claims draft) (get ic_facts []) (get ic_evidence []) (get ic_conflicts []) 0.

(** The grounding step; [true] when the unit may go to confirmation. *)
Definition ground_unit (context : option InvestigationContext) (draft : UnitContent) : LM (option GroundingResult) :=
  match grounding_service with
  | None => mret None
  | Some service =>
      l ← local_vars;
      run_id ← lift (new_id "grounding");
      request ← liftR (GroundingRequest_validate
        (grounding_request run_id (t_task_id (l_task l)) (u_unit_id (l_unit l)) context draft));
      res ← liftR (service request);
      lift (repo_do (save_grounding_result (t_task_id (l_task l)) res));;
      assign (on_unit (unit_set_grounding (gr_grounding_run_id res)));;
      mret (Some res)
  end.

(** The tail shared by a blocked and a generated unit. *)
Definition park_unit (event_type : string) (payload : list (string * json)) (node : string) : LM WorkflowSnapshot :=
  assign (on_unit unit_bump);;
  assign rebuild;;
  assign (on_run (run_set_status RunStatus.WAITING_USER));;
  save_locals_outline;;
  save_locals_run;;
  l ← local_vars;
  lift (emit_event (t_task_id (l_task l)) event_type payload);;
  lift (checkpoint (l_task l) (l_run l) node);;
  lift (repo_get (snapshot (t_task_id (l_task l)))).

Definition block_unit (res : GroundingResult) : LM WorkflowSnapshot :=
  assign (on_unit (fun u => unit_set_status UnitStatus.HUMAN_INPUT_REQUIRED
    (unit_set_drafts [] (unit_set_content None None u))));;
  l ← local_vars;
  park_unit "UnitGroundingBlocked"
    [("unit_id", JStr (u_unit_id (l_unit l))); ("issues", JInt (Z.of_nat (length (gr_issues res))))]
    "WAIT_GROUNDING_INPUT".

Definition present_unit (content : string) : LM WorkflowSnapshot :=
  assign (on_unit (fun u => unit_set_status UnitStatus.PENDING_CONFIRMATION
    (unit_set_content (Some content) (Some (content_hash content)) u)));;
  l ← local_vars;
  park_unit "UnitGenerated" [("unit_id", JStr (u_unit_id (l_unit l)))] "WAIT_UNIT_CONFIRMATION".

Definition generate_unit_inner (brief : RequirementBrief) : LM WorkflowSnapshot :=
  l ← local_vars;
  context ← liftR (match unit_context_provider with
                   | None => Ok None
                   | Some provider => provider (l_task l) (l_run l) (l_outline l) (l_unit l) brief
                   end);
  let nodes := nodes_by_key (l_outline l) (l_unit l) in
  draft ← on_draft_error (
    s ← lift (repo_get (snapshot (t_task_id (l_task l))));
    lift (invoke_validated "generate_confirmation_unit"
            (unit_payload brief (l_outline l) (l_unit l) (ws_sections s) context)
            (validate_unit_draft_for_nodes (keys nodes))));
  drafts ← liftR (unit_section_drafts nodes (l_unit l) draft);
  match drafts with
  | Some ds => assign (on_unit (unit_set_drafts ds))
  | None => mret tt
  end;;
  grounding ← ground_unit context draft;
  match grounding with
  | Some res => if gr_confirmable res then present_unit (uc_content draft) else block_unit res
  | None => present_unit (uc_content draft)
  end.

(** [_generate_unit]: any exception that has not been recorded yet fails the unit. *)
Definition generate_unit (brief : RequirementBrief) (l : locals) : WM WorkflowSnapshot := fun w =>
  match generate_unit_inner brief (w, l) with
  | ((w', l'), Ok s) => (w', Ok s)
  | ((w', l'), Raise e) =>
      if negb (bool_decide (r_status (l_run l') = RunStatus.FAILED)) then
        match fail_unit e (w', l') with
        | ((w2, _), Ok _) => (w2, Raise e)
        | ((w2, _), Raise e2) => (w2, Raise e2)
        end
      else (w', Raise e)
  end.

(** ** [confirm_outline] *)

(** The snapshot of a task at the version the command expects. *)
Definition expect_version (task_id actor_id : string) (expected : Z) : WM WorkflowSnapshot :=
  s ← owned_snapshot task_id actor_id;
  if negb (Z.eqb (t_version (ws_task s)) expected) then raise VersionConflict else mret s.

(** [task.status != status or not snapshot.current_outline]. *)
Definition expect_outline (status : TaskStatus) (s : WorkflowSnapshot) : WM OutlineVersion :=
  match current_outline s with
  | Some o => if decide (t_status (ws_task s) = status) then mret o else raise InvalidTransition
  | None => raise InvalidTransition
  end.

Definition confirm_outline_hash (command : ConfirmOutline) : string :=
  sha256_json (JObj [("command", JStr "ConfirmOutline"); ("task_id", JStr (co_task_id command));
    ("outline_version", JInt (co_outline_version command));
    ("expected_task_version", JInt (co_expected_task_version command))]).

Definition confirm_outline (command : ConfirmOutline) : WM WorkflowSnapshot :=
  let input_hash := confirm_outline_hash command in
  with_replay (co_actor_id command) (co_idempotency_key command) input_hash (
    s ← expect_version (co_task_id command) (co_actor_id command) (co_expected_task_version command);
    outline ← expect_outline TaskStatus.OUTLINE_REVIEW s;
    liftR (outline_policy_confirm outline (co_outline_version command));;
    let task := ws_task s in
    finish_old_run (ws_run s);;
    run ← new_run (t_task_id task) (r_thread_id (ws_run s)) input_hash (co_idempotency_key command);
    repo_try (save_run run);;
    rec ← new_record (co_actor_id command) (co_idempotency_key command) input_hash (t_task_id task) (r_run_id run);
    repo_do (save_idempotency rec);;
    confirmed_at ← now;
    u ← match o_confirmation_units outline with u :: _ => mret u | [] => raise IndexError end;
    let u := unit_set_status UnitStatus.GENERATING u in
    let outline := outline_set_units (<[0%nat := u]> (o_confirmation_units outline))
                     (outline_set_status OutlineStatus.CONFIRMED (Some confirmed_at) outline) in
    task ← move_task task TaskStatus.GENERATING (co_expected_task_version command) now;
    let task := task_set_sequence 1 task in
    repo_do (save_outline outline);;
    repo_do (save_task task);;
    emit_event (t_task_id task) "OutlineConfirmed" [("outline_version", JInt (o_version outline))];;
    brief ← current_brief_of s;
    generate_unit brief (mkLocals task run outline 0 u)).

(** ** [confirm_unit] *)

Definition confirm_unit_hash (command : ConfirmUnit) : string :=
  sha256_json (JObj [("command", JStr "ConfirmUnit"); ("task_id", JStr (cu_task_id command));
    ("unit_id", JStr (cu_unit_id command));
    ("expected_task_version", JInt (cu_expected_task_version command))]).

(** [unit.section_drafts or (<the whole unit>,)]. *)
Definition confirmation_drafts (u : ConfirmationUnit) : list SectionDraft :=
  match u_section_drafts u with
  | [] =>
      let content := default EmptyString (u_content u) in
      [mkSectionDraft (head (u_node_ids u)) (u_title u) content (or_else (u_content_hash u) (content_hash content))]
  | drafts => drafts
  end.

Definition next_section_version (all : list PrdSectionVersion) (node_id : option string) : Z :=
  max_default0 (s_version <$> List.filter (fun s => bool_decide (s_node_id s = node_id)) all) + 1.

Fixpoint confirm_sections (all : list PrdSectionVersion) (unit_id run_id actor_id : string)
    (drafts : list SectionDraft) : WM (list PrdSectionVersion) :=
  match drafts with
  | [] => mret []
  | d :: rest =>
      section_id ← new_id "section";
      confirmed_at ← now;
      created_at ← now;
      others ← confirm_sections all unit_id run_id actor_id rest;
      mret (mkSection section_id unit_id (next_section_version all (sd_node_id d)) (sd_title d) (sd_content d)
              created_at (sd_node_id d) SectionStatus.CONFIRMED (sd_content_hash d) (Some run_id) None None None
              (Some actor_id) (Some confirmed_at) :: others)
  end.

Definition awaiting_generation (after : Z) (u : ConfirmationUnit) : bool :=
  (after <? u_sequence u) && bool_decide (u_status u ∈ [UnitStatus.PENDING; UnitStatus.REVISION_REQUIRED]).

(** [sorted(next_units, key=sequence)[0]], with its position. *)
Definition next_unit (after : Z) (us : list ConfirmationUnit) : option (nat * ConfirmationUnit) :=
  min_by (fun a b => Z.leb (u_sequence a.2) (u_sequence b.2))
    (List.filter (fun p => awaiting_generation after p.2) (imap (fun i u => (i, u)) us)).

(** The first unit with the identifier, with its position. *)
Definition find_unit (unit_id : string) (us : list ConfirmationUnit) : option (nat * ConfirmationUnit) :=
  List.find (fun p => has_unit_id unit_id p.2) (imap (fun i u => (i, u)) us).

Definition continue_with_unit (task : Task) (run : AgentRun) (outline : OutlineVersion) (index : nat)
    (u : ConfirmationUnit) (s : WorkflowSnapshot) : WM WorkflowSnapshot :=
  let u := unit_set_status UnitStatus.GENERATING u in
  let outline := outline_set_units (rebuild_units u (<[index := u]> (o_confirmation_units outline))) outline in
  at_ ← now;
  let task := task_bump at_ (task_set_sequence (u_sequence u) task) in
  repo_do (save_outline outline);;
  repo_do (save_task task);;
  brief ← current_brief_of s;
  generate_unit brief (mkLocals task run outline index u).

Definition check_quality (task : Task) (document : PrdDocumentVersion) (outline : OutlineVersion)
    (current : list PrdSectionVersion) : WM unit :=
  match quality_service with
  | None => mret tt
  | Some check =>
      quality_run_id ← new_id "quality";
      let quality := check quality_run_id (t_task_id task) (d_document_id document) outline current in
      repo_do (save_quality_result (t_task_id task) quality);;
      emit_event (t_task_id task) "DocumentQualityChecked"
        [("document_id", JStr (d_document_id document)); ("confirmable", JBool (q_confirmable quality));
         ("issue_count", JInt (Z.of_nat (length (q_issues quality))))]
  end.

(** The last unit is confirmed: render the document and move to final review. *)
Definition render_document (task : Task) (run : AgentRun) (outline : OutlineVersion) (expected_version : Z)
    (new_sections : list PrdSectionVersion) (s : WorkflowSnapshot) : WM WorkflowSnapshot :=
  task ← move_task task TaskStatus.FINAL_REVIEW expected_version now;
  repo_do (save_task task);;
  let current := current_sections outline (ws_sections s ++ new_sections) in
  brief ← current_brief_of s;
  appendix ← liftR (render_evidence_appendix (ws_grounding_results s));
  markdown ← liftR (render_markdown brief outline current appendix);
  document_id ← new_id "document";
  created_at ← now;
  let document := mkDocument document_id (t_task_id task) (Z.of_nat (length (ws_documents s)) + 1) markdown
                    created_at (content_hash markdown) DocumentStatus.FINAL_REVIEW (s_section_id <$> current)
                    None None in
  repo_do (save_document document);;
  check_quality task document outline current;;
  emit_event (t_task_id task) "PrdRendered" [("document_version", JInt (Z.of_nat (length (ws_documents s)) + 1))];;
  ended_at ← now;
  let run := run_set_ended ended_at (run_set_status RunStatus.SUCCEEDED run) in
  repo_try (save_run run);;
  checkpoint task run "FINAL_REVIEW";;
  repo_get (snapshot (t_task_id task)).

(** After the policy accepted the unit. *)
Definition confirm_unit_accepted (command : ConfirmUnit) (input_hash : string) (s : WorkflowSnapshot)
    (outline : OutlineVersion) : WM WorkflowSnapshot :=
  let task := ws_task s in
  finish_old_run (ws_run s);;
  run ← new_run (t_task_id task) (r_thread_id (ws_run s)) input_hash (cu_idempotency_key command);
  repo_try (save_run run);;
  rec ← new_record (cu_actor_id command) (cu_idempotency_key command) input_hash (t_task_id task) (r_run_id run);
  repo_do (save_idempotency rec);;
  found ← match find_unit (cu_unit_id command) (o_confirmation_units outline) with
          | Some p => mret p | None => raise StopIteration end;
  let u := unit_bump (unit_set_status UnitStatus.CONFIRMED found.2) in
  let outline := outline_set_units (rebuild_units u (<[found.1 := u]> (o_confirmation_units outline))) outline in
  new_sections ← confirm_sections (ws_sections s) (u_unit_id u) (r_run_id run) (cu_actor_id command)
                   (confirmation_drafts u);
  repo_do (save_outline outline);;
  repo_do (fun r => foldl (fun r x => save_section (t_task_id task) x r) r new_sections);;
  emit_event (t_task_id task) "UnitConfirmed" [("unit_id", JStr (u_unit_id u))];;
  match next_unit (u_sequence u) (o_confirmation_units outline) with
  | Some (index, v) => continue_with_unit task run outline index v s
  | None => render_document task run outline (cu_expected_task_version command) new_sections s
  end.

Definition confirm_unit (command : ConfirmUnit) : WM WorkflowSnapshot :=
  let input_hash := confirm_unit_hash command in
  with_replay (cu_actor_id command) (cu_idempotency_key command) input_hash (
    s ← expect_version (cu_task_id command) (cu_actor_id command) (cu_expected_task_version command);
    outline ← expect_outline TaskStatus.GENERATING s;
    liftR (unit_policy_confirm outline (cu_unit_id command) (t_current_unit_sequence (ws_task s)));;
    confirm_unit_accepted command input_hash s outline).

(** ** Revision: [approve_revision_plan] and [reopen_prd] *)

Definition strs (l : list string) : json := JArr (map JStr l).

Definition approve_hash (command : ApproveRevisionPlan) : string :=
  sha256_json (JObj [("command", JStr "ApproveRevisionPlan"); ("task_id", JStr (ar_task_id command));
    ("document_id", JStr (ar_document_id command)); ("issue_ids", strs (ar_issue_ids command));
    ("unit_ids", strs (ar_unit_ids command));
    ("expected_task_version", JInt (ar_expected_task_version command))]).

(** [item not in known for some item]. *)
Definition some_unknown (items known : list string) : bool :=
  existsb (fun i => negb (bool_decide (i ∈ known))) items.

Definition relevant_quality (s : WorkflowSnapshot) (document_id : string) : list QualityResult :=
  List.filter (fun q => bool_decide (q_scope_id q = document_id)) (ws_quality_results s).

Definition issue_index (q : QualityResult) : dict string QualityIssue := dict_by i_issue_id (q_issues q).

(** The units affected by the approved issues. *)
Definition allowed_units (issues : dict string QualityIssue) (issue_ids : list string) : list string :=
  flat_map (fun id => match issues !! id with Some i => i_affected_unit_ids i | None => [] end) issue_ids.

(** The checks of a revision plan against the document and its quality result. *)
Definition check_revision (command : ApproveRevisionPlan) (s : WorkflowSnapshot) : result exc unit :=
  match last (ws_documents s) with
  | None => Raise VersionConflict
  | Some d =>
      if negb (bool_decide (d_document_id d = ar_document_id command)) then Raise VersionConflict else
      match last (relevant_quality s (ar_document_id command)) with
      | None => Raise InvalidTransition
      | Some q =>
          let issues := issue_index q in
          if negb (nonempty (ar_issue_ids command)) || some_unknown (ar_issue_ids command) (keys issues)
          then Raise InvalidTransition
          else if negb (nonempty (ar_unit_ids command))
                  || some_unknown (ar_unit_ids command) (allowed_units issues (ar_issue_ids command))
          then Raise InvalidTransition
          else Ok tt
      end
  end.

(** Mark the units to reopen REVISION_REQUIRED. *)
Definition mark_revision (reopen_ids : list string) (us : list ConfirmationUnit) : list ConfirmationUnit :=
  map (fun u => if decide (u_unit_id u ∈ reopen_ids)
                then unit_set_status UnitStatus.REVISION_REQUIRED u else u) us.

Definition selected_units (reopen_ids : list string) (us : list ConfirmationUnit)
    : list (nat * ConfirmationUnit) :=
  List.filter (fun p => bool_decide (u_unit_id p.2 ∈ reopen_ids)) (imap (fun i u => (i, u)) us).

(** The first selected unit in sequence order. *)
Definition revision_target (reopen_ids : list string) (us : list ConfirmationUnit)
    : option (nat * ConfirmationUnit) :=
  min_by (fun a b => Z.leb (u_sequence a.2) (u_sequence b.2)) (selected_units reopen_ids us).

Definition sorted_ids (selected : list (nat * ConfirmationUnit)) : list string :=
  (fun p => u_unit_id p.2) <$> sort_by (fun a b => Z.leb (u_sequence a.2) (u_sequence b.2)) selected.

(** Reopen the selected units and generate the first of them again. *)
Definition reopen_units (s : WorkflowSnapshot) (outline : OutlineVersion) (reopen_ids : list string)
    (empty_error : exc) (actor_id key input_hash : string) (expected_version : Z)
    (event_type : string) (payload : json -> list (string * json)) : WM WorkflowSnapshot :=
  let us := mark_revision reopen_ids (o_confirmation_units outline) in
  target ← match revision_target reopen_ids us with Some p => mret p | None => raise empty_error end;
  let u := unit_set_status UnitStatus.GENERATING target.2 in
  let outline := outline_set_units (<[target.1 := u]> us) outline in
  task ← move_task (ws_task s) TaskStatus.GENERATING expected_version now;
  let task := task_set_sequence (u_sequence u) task in
  run ← new_run (t_task_id task) (r_thread_id (ws_run s)) input_hash key;
  repo_try (save_run run);;
  repo_do (save_outline outline);;
  repo_do (save_task task);;
  rec ← new_record actor_id key input_hash (t_task_id task) (r_run_id run);
  repo_do (save_idempotency rec);;
  emit_event (t_task_id task) event_type (payload (strs (sorted_ids (selected_units reopen_ids us))));;
  brief ← current_brief_of s;
  generate_unit brief (mkLocals task run outline target.1 u).

Definition approve_revision_plan (command : ApproveRevisionPlan) : WM WorkflowSnapshot :=
  let input_hash := approve_hash command in
  with_replay (ar_actor_id command) (ar_idempotency_key command) input_hash (
    s ← expect_version (ar_task_id command) (ar_actor_id command) (ar_expected_task_version command);
    outline ← expect_outline TaskStatus.FINAL_REVIEW s;
    liftR (check_revision command s);;
    let reopen_ids := dependent_unit_closure outline (ar_unit_ids command) in
    if some_unknown (ar_unit_ids command)
         ((fun p => u_unit_id p.2) <$> selected_units reopen_ids (o_confirmation_units outline))
    then raise InvalidTransition else
    reopen_units s outline reopen_ids IndexError (ar_actor_id command) (ar_idempotency_key command) input_hash
      (ar_expected_task_version command) "RevisionPlanApproved"
      (fun ids => [("document_id", JStr (ar_document_id command)); ("unit_ids", ids)])).

Definition reopen_hash (command : ReopenPrd) (reason : string) : string :=
  sha256_json (JObj [("command", JStr "ReopenPrd"); ("task_id", JStr (rp_task_id command));
    ("unit_ids", strs (rp_unit_ids command)); ("reason", JStr reason);
    ("expected_task_version", JInt (rp_expected_task_version command))]).

Definition reopen_prd (command : ReopenPrd) : WM WorkflowSnapshot :=
  let reason := strip (rp_reason command) in
  if negb (truthy reason) then raise InvalidCommand else
  let input_hash := reopen_hash command reason in
  with_replay (rp_actor_id command) (rp_idempotency_key command) input_hash (
    s ← expect_version (rp_task_id command) (rp_actor_id command) (rp_expected_task_version command);
    outline ← expect_outline TaskStatus.COMPLETED s;
    if negb (nonempty (rp_unit_ids command))
       || some_unknown (rp_unit_ids command) (u_unit_id <$> o_confirmation_units outline)
    then raise InvalidTransition else
    reopen_units s outline (dependent_unit_closure outline (rp_unit_ids command)) ValueError
      (rp_actor_id command) (rp_idempotency_key command) input_hash (rp_expected_task_version command)
      "PrdReopened" (fun ids => [("unit_ids", ids); ("reason", JStr reason)])).

(** ** [finalize_prd] *)

Definition finalize_hash (command : FinalizePrd) : string :=
  sha256_json (JObj [("command", JStr "FinalizePrd"); ("task_id", JStr (fp_task_id command));
    ("document_id", JStr (fp_document_id command)); ("content_hash", JStr (fp_content_hash command));
    ("expected_task_version", JInt (fp_expected_task_version command))]).

(** The guards of [finalize_prd], giving the document to confirm. *)
Definition check_finalize (command : FinalizePrd) (s : WorkflowSnapshot) : result exc PrdDocumentVersion :=
  match last (ws_documents s) with
  | None => Raise InvalidTransition
  | Some d =>
      if negb (bool_decide (t_status (ws_task s) = TaskStatus.FINAL_REVIEW)) then Raise InvalidTransition else
      if negb (bool_decide (d_document_id d = fp_document_id command))
         || negb (bool_decide (d_content_hash d = fp_content_hash command)) then Raise VersionConflict else
      match current_outline s with
      | None => Raise AttributeError
      | Some o =>
          if existsb (fun u => negb (unit_confirmed u)) (o_confirmation_units o) then Raise InvalidTransition else
          match last (relevant_quality s (d_document_id d)) with
          | Some q => if q_confirmable q then Ok d else Raise InvalidTransition
          | None => Ok d
          end
      end
  end.

Definition confirm_document (d : PrdDocumentVersion) (actor_id : string) (at_ : Z) : PrdDocumentVersion :=
  mkDocument (d_document_id d) (d_task_id d) (d_version d) (d_markdown d) (d_created_at d) (d_content_hash d)
    DocumentStatus.CONFIRMED (d_section_ids d) (Some actor_id) (Some at_).

Definition finalize_prd (command : FinalizePrd) : WM WorkflowSnapshot :=
  let input_hash := finalize_hash command in
  with_replay (fp_actor_id command) (fp_idempotency_key command) input_hash (
    s ← expect_version (fp_task_id command) (fp_actor_id command) (fp_expected_task_version command);
    d ← liftR (check_finalize command s);
    let task := ws_task s in
    run_id ← new_id "run";
    started_at ← now;
    ended_at ← now;
    let run := make_run run_id (t_task_id task) (r_thread_id (ws_run s)) RunStatus.SUCCEEDED input_hash
                 (fp_idempotency_key command) (Some started_at) (Some ended_at) None in
    confirmed_at ← now;
    let d := confirm_document d (fp_actor_id command) confirmed_at in
    task ← move_task task TaskStatus.COMPLETED (fp_expected_task_version command) now;
    repo_try (save_run run);;
    repo_do (save_document d);;
    repo_do (save_task task);;
    rec ← new_record (fp_actor_id command) (fp_idempotency_key command) input_hash (t_task_id task) run_id;
    repo_do (save_idempotency rec);;
    emit_event (t_task_id task) "PrdFinalized" [("document_id", JStr (d_document_id d))];;
    checkpoint task run "COMPLETED";;
    repo_get (snapshot (t_task_id task))).

(** ** Commands and executions *)

Inductive command : Type :=
  | CStart (c : StartTask)
  | CReply (c : ReplyToTask)
  | CConfirmOutline (c : ConfirmOutline)
  | CConfirmUnit (c : ConfirmUnit)
  | CApprove (c : ApproveRevisionPlan)
  | CReopen (c : ReopenPrd)
  | CFinalize (c : FinalizePrd).

Definition handle (c : command) : WM WorkflowSnapshot :=
  match c with
  | CStart c => start_task c
  | CReply c => reply_to_task c
  | CConfirmOutline c => confirm_outline c
  | CConfirmUnit c => confirm_unit c
  | CApprove c => approve_revision_plan c
  | CReopen c => reopen_prd c
  | CFinalize c => finalize_prd c
  end.

Definition initial_world : world := mkWorld empty_repository 0 0 [].

(** The world after a sequence of commands, whatever they raised. *)
Definition run_commands (cs : list command) (w : world) : world :=
  foldl (fun w c => (handle c w).1) w cs.
End service.
