(* ===== verification/WorkflowSteps.v ===== *)
(** * The workflow as a transition system

    An abstract account of what a command of one actor on one task may do to
    the repository: [wstep actor task] lists the elementary writes with the conditions
    they respect.  The invariant of the repository is preserved by every such
    write; [WorkflowHandlers] shows that the commands of the service are
    sequences of them. *)
From stdpp Require Import base list sets strings pretty relations.
From Stdlib Require Import ZArith.
From S2P Require Import Prelude PyDict Json Domain Grounding Quality.
From S2P Require Import WorkflowRepo WorkflowNodes Workflow.

Open Scope Z_scope.

Section steps.
Context `{Env}.

Definition with_repo (r : repository) (w : world) : world := mkWorld r (w_uuids w) (w_ticks w) (w_calls w).

(** The identifier was produced by one of the first [n] calls of [uuid4]. *)
Definition issued (prefix : string) (n : nat) (id : string) : Prop :=
  exists i, (i < n)%nat /\ id = prefix +:+ "-" +:+ uuid4_hex i.

Definition owned_by (a k : string) (r : repository) : Prop :=
  exists t, tasks r !! k = Some t /\ t_owner_id t = a.

Definition run_of (k id : string) (r : repository) : Prop :=
  exists run, runs r !! id = Some run /\ r_task_id run = k.

(** One saved change of a task: same identity, the version advances by one,
    and the status follows the transition table. *)
Definition task_evolves (t t' : Task) : Prop :=
  t_task_id t' = t_task_id t /\ t_owner_id t' = t_owner_id t /\ t_created_at t' = t_created_at t /\
  t_version t' = t_version t + 1 /\
  (t_status t' = t_status t \/ t_status t' ∈ allowed_transitions (t_status t)).

(** ** Invariant *)

Record repo_inv (n : nat) (r : repository) : Prop := {
  inv_tasks_ok : dict_ok (tasks r);
  inv_runs_ok : dict_ok (runs r);
  inv_task : forall k t, tasks r !! k = Some t -> t_task_id t = k /\ issued "task" n k;
  inv_run : forall k run, runs r !! k = Some run ->
    r_run_id run = k /\ issued "run" n k /\ is_Some (tasks r !! r_task_id run) /\ is_Some (r_started_at run);
  inv_active : forall k1 k2 r1 r2, runs r !! k1 = Some r1 -> runs r !! k2 = Some r2 ->
    r_task_id r1 = r_task_id r2 -> active (r_status r1) = true -> active (r_status r2) = true -> k1 = k2;
  inv_has_run : forall k t, tasks r !! k = Some t -> exists id, run_of k id r;
  inv_idem : forall a key rec, idempotency r !! (a, key) = Some rec -> owned_by a (ir_task_id rec) r;
  inv_outlines : forall k l o, outlines r !! k = Some l -> o ∈ l -> o_task_id o = k;
  inv_documents : forall k l d, documents r !! k = Some l -> d ∈ l -> d_task_id d = k;
  inv_events : forall k l i e, events r !! k = Some l -> l !! i = Some e ->
    ev_sequence e = Z.of_nat i + 1 /\ ev_task_id e = k
}.

Definition Inv (w : world) : Prop := repo_inv (w_uuids w) (w_repo w).

(** ** Elementary writes of actor [a] on task [j] *)

Inductive write (a j : string) (n : nat) (r : repository) : repository -> Prop :=
  | write_create task message brief run rec :
      t_task_id task = j ->
      tasks r !! t_task_id task = None -> issued "task" n (t_task_id task) ->
      runs r !! r_run_id run = None -> issued "run" n (r_run_id run) ->
      r_task_id run = t_task_id task -> is_Some (r_started_at run) -> t_owner_id task = a ->
      idempotency r !! (ir_actor_id rec, ir_idempotency_key rec) = None ->
      ir_actor_id rec = a -> ir_task_id rec = t_task_id task ->
      write a j n r (create_task_bundle task message brief run rec r)
  | write_task t t' :
      t_task_id t' = j ->
      tasks r !! t_task_id t' = Some t -> t_owner_id t = a -> task_evolves t t' ->
      write a j n r (save_task t' r)
  | write_run run :
      r_task_id run = j -> owned_by a j r -> is_Some (r_started_at run) -> issued "run" n (r_run_id run) ->
      (forall old, runs r !! r_run_id run = Some old -> r_task_id old = r_task_id run) ->
      active (r_status run) && active_conflict run r = false ->
      write a j n r (set_runs (<[r_run_id run := run]> (runs r)) r)
  | write_idempotency rec :
      ir_actor_id rec = a -> ir_task_id rec = j -> owned_by a j r ->
      idempotency r !! (ir_actor_id rec, ir_idempotency_key rec) = None ->
      write a j n r (save_idempotency rec r)
  | write_outline o : o_task_id o = j -> owned_by a j r -> write a j n r (save_outline o r)
  | write_document d : d_task_id d = j -> owned_by a j r -> write a j n r (save_document d r)
  | write_section s : owned_by a j r -> write a j n r (save_section j s r)
  | write_message m : tm_task_id m = j -> owned_by a j r -> write a j n r (save_message m r)
  | write_brief b : bv_task_id b = j -> owned_by a j r -> write a j n r (save_brief b r)
  | write_quality q : owned_by a j r -> write a j n r (save_quality_result j q r)
  | write_grounding g : owned_by a j r -> write a j n r (save_grounding_result j g r)
  | write_event id ty p at_ : owned_by a j r -> write a j n r (append_event id j ty p at_ r)
  | write_checkpoint th c : write a j n r (save_checkpoint th c r).

(** A step of a command: identifiers, clock readings and model calls are
    consumed, or one write is made. *)
Inductive wstep (a j : string) (w : world) : world -> Prop :=
  | step_consume w' : w_repo w' = w_repo w -> (w_uuids w <= w_uuids w')%nat -> wstep a j w w'
  | step_write r' : write a j (w_uuids w) (w_repo w) r' -> wstep a j w (with_repo r' w).

Definition wsteps (a j : string) : world -> world -> Prop := rtc (wstep a j).

Lemma issued_mono prefix n m id : issued prefix n id -> (n <= m)%nat -> issued prefix m id.
Proof. intros (i & ? & ->) ?. exists i. split; [lia|done]. Qed.

Lemma repo_inv_mono n m r : repo_inv n r -> (n <= m)%nat -> repo_inv m r.
Proof.
  intros [] Hle. split; try done.
  - intros k t Ht. destruct (inv_task0 k t Ht). eauto using issued_mono.
  - intros k run Hr. destruct (inv_run0 k run Hr) as (? & ? & ?). eauto using issued_mono.
Qed.

(** ** Facts that no write undoes *)

Lemma write_owned a j b n r r' k : write a j n r r' -> owned_by b k r -> owned_by b k r'.
Proof.
  intros Hw (t & Ht & Ho). destruct Hw; try (by exists t).
  - exists t. split; [|done]. cbn. rewrite dict_lookup_insert_ne; [done|]. congruence.
  - destruct (decide (t_task_id t' = k)) as [<-|Hne].
    + simplify_eq. exists t'. cbn. rewrite dict_lookup_insert_eq. split; [done|].
      match goal with Hev : task_evolves _ _ |- _ => by destruct Hev as (_ & -> & _) end.
    + exists t. cbn. by rewrite dict_lookup_insert_ne.
Qed.

Lemma write_run_of a j n r r' k id : write a j n r r' -> run_of k id r -> run_of k id r'.
Proof.
  intros Hw (run & Hr & Hk). destruct Hw; try (by exists run).
  - exists run. split; [|done]. cbn. rewrite dict_lookup_insert_ne; [done|]. congruence.
  - destruct (decide (r_run_id run0 = id)) as [<-|Hne].
    + exists run0. cbn. rewrite dict_lookup_insert_eq. split; [done|]. rewrite <- Hk. symmetry. auto.
    + exists run. cbn. by rewrite dict_lookup_insert_ne.
Qed.

(** Idempotency records are written once. *)
Lemma write_idempotency_kept a j n r r' p rec :
  write a j n r r' -> idempotency r !! p = Some rec -> idempotency r' !! p = Some rec.
Proof.
  intros Hw Hp. destruct Hw; try done; cbn; rewrite dict_lookup_insert_ne; try done; congruence.
Qed.

Lemma get_list_lookup {A} (d : dict string (list A)) k l x :
  d !! k = Some l -> x ∈ l -> x ∈ get_list d k.
Proof. intros Hl Hx. unfold get_list, get_default. by rewrite Hl. Qed.

Lemma elem_of_replace_or_append {A} (same : A -> bool) v l x :
  x ∈ replace_or_append same v l -> x = v \/ x ∈ l.
Proof.
  induction l as [|y l IH]; simpl; [set_solver|]. destruct (same y); set_solver.
Qed.

Lemma get_list_elem {A} (d : dict string (list A)) k x :
  x ∈ get_list d k -> exists l, d !! k = Some l /\ x ∈ l.
Proof. unfold get_list, get_default. destruct (d !! k); simpl; [eauto|set_solver]. Qed.

(** ** The invariant is preserved *)

Lemma active_conflict_false run r k old :
  dict_ok (runs r) -> active_conflict run r = false -> runs r !! k = Some old -> r_run_id old = k ->
  r_task_id old = r_task_id run -> k <> r_run_id run -> active (r_status old) = false.
Proof.
  intros Hok Hc Hk Hid Ht Hne. destruct (active (r_status old)) eqn:Ha; [|done]. exfalso.
  assert (active_conflict run r = true); [|congruence]. apply existsb_exists. exists old.
  split; [by apply list_elem_of_In, (dict_lookup_values _ k)|].
  rewrite Ha, (bool_decide_eq_true_2 _ Ht), bool_decide_eq_false_2; [done|by rewrite Hid].
Qed.

Lemma inv_write_create a n r task message brief run rec :
  repo_inv n r -> tasks r !! t_task_id task = None -> issued "task" n (t_task_id task) ->
  runs r !! r_run_id run = None -> issued "run" n (r_run_id run) ->
  r_task_id run = t_task_id task -> is_Some (r_started_at run) -> t_owner_id task = a ->
  ir_actor_id rec = a -> ir_task_id rec = t_task_id task ->
  repo_inv n (create_task_bundle task message brief run rec r).
Proof.
  intros [] Hnew Htid Hrun Hrid Hrt Hst Ho Hra Hrk.
  assert (Hno : forall k old, runs r !! k = Some old -> r_task_id old <> t_task_id task).
  { intros k old Hk E. destruct (inv_run0 k old Hk) as (_ & _ & [? ?] & _). congruence. }
  split; cbn [create_task_bundle save_idempotency set_idempotency tasks runs idempotency outlines documents events].
  - by apply dict_ok_insert.
  - by apply dict_ok_insert.
  - intros k t. rewrite dict_lookup_insert. case_decide; [|auto]. intros; simplify_eq; auto.
  - intros k x. rewrite dict_lookup_insert. case_decide.
    + intros [= <-]. subst k. split_and!; auto. rewrite Hrt. rewrite dict_lookup_insert_eq. eauto.
    + intros Hx. destruct (inv_run0 k x Hx) as (? & ? & ? & ?). split_and!; auto.
      by apply dict_insert_is_Some.
  - intros k1 k2 r1 r2. rewrite !dict_lookup_insert. do 2 case_decide; [by subst| | |apply inv_active0].
    + intros [= <-] Hx2 E. exfalso. apply (Hno _ _ Hx2). by rewrite <- E.
    + intros Hx1 [= <-] E. exfalso. apply (Hno _ _ Hx1). by rewrite E.
  - intros k t. rewrite dict_lookup_insert. case_decide.
    + intros _. exists (r_run_id run), run. cbn. rewrite dict_lookup_insert_eq. split; [done|congruence].
    + intros Ht. destruct (inv_has_run0 k t Ht) as (id & x & Hx & E). exists id, x. split; [|done].
      cbn. rewrite dict_lookup_insert_ne; [done|]. congruence.
  - intros b key x. rewrite dict_lookup_insert. unfold owned_by. case_decide.
    + intros [= <-]. exists task. cbn. rewrite Hrk, dict_lookup_insert_eq. split; [done|].
      congruence.
    + intros Hx. destruct (inv_idem0 b key x Hx) as (t & Ht & ?). exists t. split; [|done].
      cbn. rewrite dict_lookup_insert_ne; [done|]. congruence.
  - intros k l o. rewrite dict_lookup_insert. case_decide; [|eauto]. intros [= <-]. set_solver.
  - intros k l o. rewrite dict_lookup_insert. case_decide; [|eauto]. intros [= <-]. set_solver.
  - intros k l i e. rewrite dict_lookup_insert. case_decide; [|eauto]. by intros [= <-].
Qed.

Lemma inv_write_task n r t t' :
  repo_inv n r -> tasks r !! t_task_id t' = Some t -> task_evolves t t' -> repo_inv n (save_task t' r).
Proof.
  intros [] Ht (Hid & Ho & _). split; cbn [save_task set_tasks tasks runs idempotency outlines documents events]; try done.
  - by apply dict_ok_insert.
  - intros k x. rewrite dict_lookup_insert. case_decide; [|auto]. intros [= <-]. subst k.
    split; [done|]. eapply inv_task0, Ht.
  - intros k x Hx. destruct (inv_run0 k x Hx) as (? & ? & ? & ?). split_and!; auto.
    by apply dict_insert_is_Some.
  - intros k x. rewrite dict_lookup_insert. case_decide; [|apply inv_has_run0].
    intros _. subst k. by eapply inv_has_run0.
  - intros b key x Hx. destruct (inv_idem0 b key x Hx) as (y & Hy & E). unfold owned_by. cbn.
    rewrite dict_lookup_insert. case_decide; [|eauto]. exists t'. split; [done|]. congruence.
Qed.

Lemma inv_write_run a n r run :
  repo_inv n r -> owned_by a (r_task_id run) r -> is_Some (r_started_at run) -> issued "run" n (r_run_id run) ->
  (forall old, runs r !! r_run_id run = Some old -> r_task_id old = r_task_id run) ->
  active (r_status run) && active_conflict run r = false ->
  repo_inv n (set_runs (<[r_run_id run := run]> (runs r)) r).
Proof.
  intros [] (t & Ht & _) Hst Hid Hold Hc.
  assert (Hquiet : forall k old, active (r_status run) = true -> runs r !! k = Some old ->
    r_task_id old = r_task_id run -> active (r_status old) = true -> k = r_run_id run).
  { intros k old Ha Hk E Ho. destruct (decide (k = r_run_id run)); [done|]. rewrite Ha in Hc.
    destruct (inv_run0 k old Hk) as [? _].
    exfalso. rewrite (active_conflict_false run r k old) in Ho; done. }
  split; cbn [set_runs tasks runs idempotency outlines documents events]; try done.
  - by apply dict_ok_insert.
  - intros k x. rewrite dict_lookup_insert. case_decide; [|auto]. intros [= <-]. subst k.
    split_and!; eauto.
  - intros k1 k2 r1 r2. rewrite !dict_lookup_insert. do 2 case_decide.
    + congruence.
    + intros [= <-] Hx2 E Ha1 Ha2. symmetry. subst k1. eapply Hquiet; eauto.
    + intros Hx1 [= <-] E Ha1 Ha2. subst k2. eapply Hquiet; eauto.
    + apply inv_active0.
  - intros k x Hx. destruct (inv_has_run0 k x Hx) as (id & old & Ho & E). exists id. unfold run_of. cbn.
    rewrite dict_lookup_insert. case_decide; [|eauto]. subst id. exists run. split; [done|].
    rewrite <- E. symmetry. auto.
Qed.

Lemma put_in_elem {A} (P : string -> A -> Prop) k same v (d : dict string (list A)) :
  (forall k l x, d !! k = Some l -> x ∈ l -> P k x) -> P k v ->
  forall k' l x, put_in k same v d !! k' = Some l -> x ∈ l -> P k' x.
Proof.
  intros Hd Hv k' l x. unfold put_in. rewrite dict_lookup_insert. case_decide; [|eauto].
  intros [= <-] Hx. subst k'. apply elem_of_replace_or_append in Hx as [->|Hx]; [done|].
  apply get_list_elem in Hx as (l & ? & ?). eauto.
Qed.

Lemma write_inv a j n r r' : repo_inv n r -> write a j n r r' -> repo_inv n r'.
Proof.
  intros Hinv Hw. destruct Hw; try match goal with E : r_task_id _ = j |- _ => subst j end;
    eauto using inv_write_create, inv_write_task, inv_write_run.
  all: destruct Hinv; split; cbn; try done.
  - intros b key x. rewrite dict_lookup_insert. case_decide; [|apply inv_idem0].
    intros [= <-]. by simplify_eq.
  - apply (put_in_elem (fun k o => o_task_id o = k)); [apply inv_outlines0|done].
  - apply (put_in_elem (fun k d => d_task_id d = k)); [apply inv_documents0|done].
  - intros k' l i e. unfold append_to. rewrite dict_lookup_insert. case_decide; [|apply inv_events0].
    subst k'. intros [= <-]. cbn [ev_task_id].
    rewrite lookup_app_Some. intros [Hl|[Hle Hl]].
    + unfold get_list, get_default in Hl. destruct (events r !! j) as [old|] eqn:E; [|done]. eauto.
    + apply list_lookup_singleton_Some in Hl as [Hi <-]. cbn. split; [|done]. do 2 f_equal. lia.
Qed.

Lemma wstep_inv a j w w' : Inv w -> wstep a j w w' -> Inv w'.
Proof.
  intros Hinv [w1 Hr Hle|r' Hw]; unfold Inv.
  - rewrite Hr. by eapply repo_inv_mono.
  - by eapply write_inv.
Qed.

Lemma wsteps_inv a j w w' : Inv w -> wsteps a j w w' -> Inv w'.
Proof. intros Hinv. induction 1; eauto using wstep_inv. Qed.

Lemma wsteps_owned a j b w w' k : wsteps a j w w' -> owned_by b k (w_repo w) -> owned_by b k (w_repo w').
Proof.
  induction 1 as [|w1 w2 w3 [w2' Hr _|r' Hw] _ IH]; [done| |]; intros Ho; apply IH.
  - by rewrite Hr.
  - by eapply write_owned.
Qed.

Lemma wsteps_run_of a j w w' k id : wsteps a j w w' -> run_of k id (w_repo w) -> run_of k id (w_repo w').
Proof.
  induction 1 as [|w1 w2 w3 [w2' Hr _|r' Hw] _ IH]; [done| |]; intros Ho; apply IH.
  - by rewrite Hr.
  - by eapply write_run_of.
Qed.

Lemma wsteps_idempotency a j w w' p rec :
  wsteps a j w w' -> idempotency (w_repo w) !! p = Some rec -> idempotency (w_repo w') !! p = Some rec.
Proof.
  induction 1 as [|w1 w2 w3 [w2' Hr _|r' Hw] _ IH]; [done| |]; intros Ho; apply IH.
  - by rewrite Hr.
  - by eapply write_idempotency_kept.
Qed.

Lemma inv_initial : Inv initial_world.
Proof. split; try done; by constructor. Qed.
End steps.
