(* ===== verification/WorkflowLogic.v ===== *)
(** * Reasoning about workflow commands

    A small program logic for the world monad: [runs_as a j P m Q] says that,
    from a world satisfying the invariant and [P], the computation [m] only
    makes writes on task [j] that the actor [a] is entitled to, and establishes [Q] when it
    returns.  The context [ctx] is what a handler knows about the task it
    works on. *)
From stdpp Require Import base list sets strings pretty relations.
From Stdlib Require Import ZArith.
From S2P Require Import Prelude PyDict Json Domain Grounding Quality.
From S2P Require Import WorkflowRepo WorkflowNodes Workflow WorkflowSteps.

Open Scope Z_scope.

Create HintDb workflow.

(** Identifiers produced by [uuid4] do not repeat. *)
Class UniqueIds `{Env} : Prop := uuid4_inj : forall i j, uuid4_hex i = uuid4_hex j -> i = j.

Section logic.
Context `{Builtins} `{UniqueIds}.

Definition runs_as (a j : string) {A} (P : world -> Prop) (m : WM A) (Q : A -> world -> Prop) : Prop :=
  forall w, Inv w -> P w -> wsteps a j w (m w).1 /\ forall x, (m w).2 = Ok x -> Q x (m w).1.

Lemma runs_bind a j {A B} P (m : WM A) Q (k : A -> WM B) R :
  runs_as a j P m Q -> (forall x, runs_as a j (Q x) (k x) R) -> runs_as a j P (x ← m; k x) R.
Proof.
  intros Hm Hk w Hinv HP. destruct (Hm w Hinv HP) as [Hs HQ].
  unfold mbind, M_bind. destruct (m w) as [w1 [x|e]]; simpl in *; [|done].
  destruct (Hk x w1) as [Hs2 HR]; [by eapply wsteps_inv|by apply HQ|].
  split; [by etransitivity|done].
Qed.

Lemma runs_ret a j {A} (P : world -> Prop) (x : A) (Q : A -> world -> Prop) :
  (forall w, P w -> Q x w) -> runs_as a j P (mret x) Q.
Proof. intros HQ w _ HP. split; [apply rtc_refl|]. intros y [= <-]. by apply HQ. Qed.

Lemma runs_raise a j {A} P e (Q : A -> world -> Prop) : runs_as a j P (raise e) Q.
Proof. intros w _ _. split; [apply rtc_refl|done]. Qed.

Lemma runs_weaken a j {A} (P P' : world -> Prop) (m : WM A) (Q Q' : A -> world -> Prop) :
  runs_as a j P m Q -> (forall w, P' w -> P w) -> (forall x w, Q x w -> Q' x w) -> runs_as a j P' m Q'.
Proof. intros Hm HP HQ w Hinv Hw. destruct (Hm w Hinv (HP w Hw)) as [? HQ1]. split; [done|]. eauto. Qed.

Lemma runs_liftR a j {A} (P : world -> Prop) (r : result exc A) (Q : A -> world -> Prop) :
  (forall x w, r = Ok x -> P w -> Q x w) -> runs_as a j P (liftR r) Q.
Proof. intros HQ w _ HP. split; [apply rtc_refl|]. intros x E. eauto. Qed.

Lemma runs_get a j {A} (P : world -> Prop) (f : repository -> result exc A) (Q : A -> world -> Prop) :
  (forall x w, Inv w -> P w -> f (w_repo w) = Ok x -> Q x w) -> runs_as a j P (repo_get f) Q.
Proof. intros HQ w Hinv HP. split; [apply rtc_refl|]. intros x E. by apply HQ. Qed.

(** ** The context of a handler *)

(** Task [k] of actor [a] is stored as [t], the idempotency key, if any, is
    unused, and the runs in [ids] belong to the task. *)
Definition ctx (a k : string) (t : Task) (key : option string) (ids : list string) (w : world) : Prop :=
  tasks (w_repo w) !! k = Some t /\ t_task_id t = k /\ t_owner_id t = a /\
  (forall s, key = Some s -> idempotency (w_repo w) !! (a, s) = None) /\
  (forall id, id ∈ ids -> run_of k id (w_repo w)).

Lemma ctx_owned a k t key ids w : ctx a k t key ids w -> owned_by a k (w_repo w).
Proof. intros (? & _ & ? & _). by exists t. Qed.

(** Steps that leave tasks and idempotency records alone keep the context. *)
Lemma ctx_frame a k t key ids w w' :
  wsteps a k w w' -> tasks (w_repo w') = tasks (w_repo w) ->
  idempotency (w_repo w') = idempotency (w_repo w) -> ctx a k t key ids w -> ctx a k t key ids w'.
Proof.
  intros Hs Ht Hi (? & ? & ? & ? & Hr). unfold ctx. rewrite Ht, Hi. split_and!; auto.
  intros id Hid. eapply wsteps_run_of; eauto.
Qed.

Lemma step_to a j w r' : write a j (w_uuids w) (w_repo w) r' -> wsteps a j w (with_repo r' w).
Proof. intros Hw. apply rtc_once. by constructor. Qed.

Lemma runs_new_id a k t key ids prefix :
  runs_as a k (ctx a k t key ids) (new_id prefix) (fun _ => ctx a k t key ids).
Proof.
  intros w Hinv Hc. unfold new_id; cbn [fst snd].
  assert (Hs : wsteps a k w (mkWorld (w_repo w) (S (w_uuids w)) (w_ticks w) (w_calls w)))
    by (apply rtc_once; constructor; [done|simpl; lia]).
  split; [done|]. intros _ _. by eapply ctx_frame.
Qed.

Lemma runs_now a k t key ids : runs_as a k (ctx a k t key ids) now (fun _ => ctx a k t key ids).
Proof.
  intros w Hinv Hc. unfold now; cbn [fst snd].
  assert (Hs : wsteps a k w (mkWorld (w_repo w) (w_uuids w) (S (w_ticks w)) (w_calls w)))
    by (apply rtc_once; constructor; [done|simpl; lia]).
  split; [done|]. intros _ _. by eapply ctx_frame.
Qed.

Lemma runs_call a k t key ids c : runs_as a k (ctx a k t key ids) (call_model c) (fun _ => ctx a k t key ids).
Proof.
  intros w Hinv Hc. unfold call_model; cbn [fst snd].
  assert (Hs : wsteps a k w (mkWorld (w_repo w) (w_uuids w) (w_ticks w) (w_calls w ++ [c])))
    by (apply rtc_once; constructor; [done|simpl; lia]).
  split; [done|]. intros _ _. by eapply ctx_frame.
Qed.

Lemma runs_invoke a k t key ids {A} op p (v : json -> result exc A) :
  runs_as a k (ctx a k t key ids) (invoke_validated op p v) (fun _ => ctx a k t key ids).
Proof.
  unfold invoke_validated. eapply runs_bind; [apply runs_call|]. intros j.
  destruct (v j) as [x|e]; [by apply runs_ret|]. destruct (repairable e); [|apply runs_raise].
  eapply runs_bind; [apply runs_call|]. intros j2.
  destruct (v j2) as [x|e2]; [by apply runs_ret|]. destruct (repairable e2); apply runs_raise.
Qed.

(** A write that touches neither tasks nor idempotency records. *)
Lemma runs_write a k t key ids (f : repository -> repository) :
  (forall n r, owned_by a k r -> write a k n r (f r)) ->
  (forall r, tasks (f r) = tasks r) -> (forall r, idempotency (f r) = idempotency r) ->
  runs_as a k (ctx a k t key ids) (repo_do f) (fun _ => ctx a k t key ids).
Proof.
  intros Hw Ht Hi w Hinv Hc. unfold repo_do; cbn [fst snd].
  assert (Hs : wsteps a k w (with_repo (f (w_repo w)) w)) by (apply step_to, Hw; by eapply ctx_owned).
  split; [done|]. intros _ _. eapply ctx_frame; [exact Hs|apply Ht|apply Hi|done].
Qed.

Lemma runs_save_outline a k t key ids o :
  o_task_id o = k -> runs_as a k (ctx a k t key ids) (repo_do (save_outline o)) (fun _ => ctx a k t key ids).
Proof. intros <-. apply runs_write; [|done..]. intros. by constructor. Qed.

Lemma runs_save_document a k t key ids d :
  d_task_id d = k -> runs_as a k (ctx a k t key ids) (repo_do (save_document d)) (fun _ => ctx a k t key ids).
Proof. intros <-. apply runs_write; [|done..]. intros. by constructor. Qed.

Lemma runs_save_message a k t key ids m :
  tm_task_id m = k -> runs_as a k (ctx a k t key ids) (repo_do (save_message m)) (fun _ => ctx a k t key ids).
Proof. intros <-. apply runs_write; [|done..]. intros. by constructor. Qed.

Lemma runs_save_brief a k t key ids b :
  bv_task_id b = k -> runs_as a k (ctx a k t key ids) (repo_do (save_brief b)) (fun _ => ctx a k t key ids).
Proof. intros <-. apply runs_write; [|done..]. intros. by constructor. Qed.

Lemma runs_save_section a k t key ids s :
  runs_as a k (ctx a k t key ids) (repo_do (save_section k s)) (fun _ => ctx a k t key ids).
Proof. apply runs_write; [|done..]. intros. by constructor. Qed.

Lemma runs_save_quality a k t key ids q :
  runs_as a k (ctx a k t key ids) (repo_do (save_quality_result k q)) (fun _ => ctx a k t key ids).
Proof. apply runs_write; [|done..]. intros. by constructor. Qed.

Lemma runs_save_grounding a k t key ids g :
  runs_as a k (ctx a k t key ids) (repo_do (save_grounding_result k g)) (fun _ => ctx a k t key ids).
Proof. apply runs_write; [|done..]. intros. by constructor. Qed.

Lemma runs_event a k t key ids k' ty p :
  k' = k -> runs_as a k (ctx a k t key ids) (emit_event k' ty p) (fun _ => ctx a k t key ids).
Proof.
  intros ->. eapply runs_bind; [apply runs_new_id|]. intros id. eapply runs_bind; [apply runs_now|].
  intros at_. apply runs_write; [|done..]. intros. by constructor.
Qed.

Lemma runs_checkpoint a k t key ids task run node :
  runs_as a k (ctx a k t key ids) (checkpoint task run node) (fun _ => ctx a k t key ids).
Proof. apply runs_write; [|done..]. intros. constructor. Qed.

Lemma runs_save_task a k t t' key ids :
  t_task_id t' = k -> task_evolves t t' ->
  runs_as a k (ctx a k t key ids) (repo_do (save_task t')) (fun _ => ctx a k t' key ids).
Proof.
  intros Hid Hev w Hinv Hc. destruct Hc as (Ht & Htid & Ho & Hk & Hr). unfold repo_do; cbn [fst snd].
  assert (Hs : wsteps a k w (with_repo (save_task t' (w_repo w)) w)).
  { apply step_to. eapply write_task; [done|by rewrite Hid|done|done]. }
  split; [done|]. intros _ _. split_and!; cbn.
  - by rewrite <- Hid, dict_lookup_insert_eq.
  - done.
  - destruct Hev as (_ & -> & _). done.
  - done.
  - intros id Hid'. exact (wsteps_run_of _ _ _ _ _ _ Hs (Hr id Hid')).
Qed.

Lemma runs_save_idempotency a k t key ids rec :
  ir_actor_id rec = a -> ir_idempotency_key rec = key -> ir_task_id rec = k ->
  runs_as a k (ctx a k t (Some key) ids) (repo_do (save_idempotency rec)) (fun _ => ctx a k t None ids).
Proof.
  intros <- <- <- w Hinv Hc. assert (Hc' := Hc). destruct Hc' as (Ht & Htid & Ho & Hk & Hr).
  unfold repo_do; cbn [fst snd].
  assert (Hs : wsteps (ir_actor_id rec) (ir_task_id rec) w (with_repo (save_idempotency rec (w_repo w)) w)).
  { apply step_to. apply write_idempotency; [done|done|by eapply ctx_owned|by apply Hk]. }
  split; [done|]. intros _ _. split_and!; [done..|].
  intros id Hid. exact (wsteps_run_of _ _ _ _ _ _ Hs (Hr id Hid)).
Qed.

Lemma runs_save_run a k t key ids run :
  r_task_id run = k -> is_Some (r_started_at run) -> r_run_id run ∈ ids ->
  runs_as a k (ctx a k t key ids) (repo_try (save_run run)) (fun _ => ctx a k t key ids).
Proof.
  intros Hk Hst Hin w Hinv Hc. unfold repo_try, save_run.
  destruct (active (r_status run) && active_conflict run (w_repo w)) eqn:Hconf; cbn [fst snd].
  { destruct w; split; [apply rtc_refl|done]. }
  assert (Hof : run_of k (r_run_id run) (w_repo w)) by (destruct Hc as (_ & _ & _ & _ & Hr); auto).
  destruct Hof as (old & Hold & Hok).
  assert (Hs : wsteps a k w (with_repo (set_runs (<[r_run_id run := run]> (runs (w_repo w))) (w_repo w)) w)).
  { apply step_to, write_run; [done|by eapply ctx_owned|done| |congruence|done].
    by destruct (inv_run _ _ Hinv _ _ Hold) as (_ & ? & _). }
  split; [done|]. intros _ _. by eapply ctx_frame.
Qed.

(** Starting a run: its identifier is new, so it displaces nothing. *)
Definition started_run (k : string) (run : AgentRun) : Prop :=
  r_task_id run = k /\ is_Some (r_started_at run) /\ r_status run = RunStatus.RUNNING.

Lemma issued_fresh prefix n : ~ issued prefix n (prefix +:+ "-" +:+ uuid4_hex n).
Proof.
  intros (i & Hi & E). enough (n = i) by lia. apply uuid4_inj.
  induction prefix as [|c s IH]; simpl in E; [by injection E|]. apply IH. by injection E.
Qed.

Lemma runs_start_run a k t key ids k' thread h idk {B} (cont : AgentRun -> WM B) R :
  k' = k ->
  (forall run, started_run k run -> runs_as a k (ctx a k t key (r_run_id run :: ids)) (cont run) R) ->
  runs_as a k (ctx a k t key ids)
    (run ← new_run k' thread h idk; repo_try (save_run run);; cont run) R.
Proof.
  intros -> Hcont w Hinv Hc. unfold new_run, new_id, now, mbind, M_bind, mret, M_ret, repo_try, save_run.
  cbn [fst snd w_repo w_uuids w_ticks w_calls].
  set (id := "run" +:+ "-" +:+ uuid4_hex (w_uuids w)).
  set (run := make_run id k thread RunStatus.RUNNING h idk (Some (utc_now (w_ticks w))) None None).
  set (w1 := mkWorld (w_repo w) (S (w_uuids w)) (S (w_ticks w)) (w_calls w)).
  assert (Hw1 : wsteps a k w w1) by (apply rtc_once; constructor; [done|simpl; lia]).
  destruct (active (r_status run) && active_conflict run (w_repo w)) eqn:Hconf; cbn [fst snd].
  { split; [done|]. done. }
  assert (Hfresh : runs (w_repo w) !! id = None).
  { destruct (runs (w_repo w) !! id) eqn:E; [|done].
    destruct (inv_run _ _ Hinv _ _ E) as (_ & Hi & _). by apply issued_fresh in Hi. }
  set (w2 := with_repo (set_runs (<[id := run]> (runs (w_repo w))) (w_repo w)) w1).
  assert (Hw2 : wsteps a k w1 w2).
  { apply step_to.
    apply (write_run a k (S (w_uuids w)) (w_repo w) run);
      [done|by eapply ctx_owned|by eexists| |simpl; congruence|done].
    exists (w_uuids w). split; [simpl; lia|done]. }
  assert (Hs2 : wsteps a k w w2) by (by etransitivity).
  destruct (Hcont run) with (w := w2) as [Hs3 HR].
  - by repeat split.
  - by eapply wsteps_inv.
  - apply (ctx_frame a k t key ids w w2) in Hc; [|done..].
    destruct Hc as (? & ? & ? & ? & Hr). split_and!; auto.
    intros x [->|Hx]%elem_of_cons; [|auto]. exists run. cbn. by rewrite dict_lookup_insert_eq.
  - split; [by etransitivity|done].
Qed.

Lemma runs_pure a j {A} (phi : Prop) (P : world -> Prop) (m : WM A) Q :
  (phi -> runs_as a j P m Q) -> runs_as a j (fun w => P w /\ phi) m Q.
Proof. intros Hm w Hinv [HP Hphi]. by apply Hm. Qed.

Lemma runs_post a j {A} P (m : WM A) Q : runs_as a j P m Q -> runs_as a j P m (fun _ _ => True).
Proof. intros Hm. by eapply runs_weaken. Qed.

Lemma runs_if a j {A} (b : bool) P (m1 m2 : WM A) Q :
  (b = true -> runs_as a j P m1 Q) -> (b = false -> runs_as a j P m2 Q) -> runs_as a j P (if b then m1 else m2) Q.
Proof. destruct b; auto. Qed.

(** A transition followed by the version bump. *)
Lemma runs_move a k t key ids target expected upd {B} (cont : Task -> WM B) R :
  runs_as a k (ctx a k t key ids) upd (fun _ => ctx a k t key ids) ->
  (forall t', task_evolves t t' -> t_status t' = target -> runs_as a k (ctx a k t key ids) (cont t') R) ->
  runs_as a k (ctx a k t key ids) (t' ← move_task t target expected upd; cont t') R.
Proof.
  intros Hupd Hcont. eapply (runs_bind _ _ _ _ (fun t' w => ctx a k t key ids w /\
    (task_evolves t t' /\ t_status t' = target))).
  - unfold move_task. eapply (runs_bind _ _ _ _ (fun s w => ctx a k t key ids w /\
      (s = target /\ s ∈ allowed_transitions (t_status t)))).
    + apply runs_liftR. intros s w. unfold transition. repeat case_match; intros [= <-] ?. auto.
    + intros s. apply runs_pure. intros [-> Hs]. eapply runs_bind; [exact Hupd|]. intros at_.
      apply runs_ret. intros w Hw. split; [done|]. split; [|done].
      split_and!; try done. by right.
  - intros t'. apply runs_pure. intros [? ?]. auto.
Qed.

Lemma evolves_set_outline t t' v : task_evolves t t' -> task_evolves t (task_set_outline v t').
Proof. done. Qed.
Lemma evolves_set_sequence t t' v : task_evolves t t' -> task_evolves t (task_set_sequence v t').
Proof. done. Qed.
Lemma evolves_bump t at_ v : task_evolves t (task_bump at_ (task_set_sequence v t)).
Proof. split_and!; try done. by left. Qed.
Lemma evolves_id t t' k : t_task_id t = k -> task_evolves t t' -> t_task_id t' = k.
Proof. by intros <- [-> _]. Qed.

Lemma runs_finish_old a k t key ids run :
  r_task_id run = k -> is_Some (r_started_at run) -> r_run_id run ∈ ids ->
  runs_as a k (ctx a k t key ids) (finish_old_run run) (fun _ => ctx a k t key ids).
Proof.
  intros. eapply runs_bind; [apply runs_now|]. intros at_. by apply runs_save_run.
Qed.

Lemma runs_new_message a k t key ids k' actor content {B} (cont : TaskMessage -> WM B) R :
  (forall m, tm_task_id m = k' -> runs_as a k (ctx a k t key ids) (cont m) R) ->
  runs_as a k (ctx a k t key ids) (m ← new_message k' actor content; cont m) R.
Proof.
  intros Hc. eapply (runs_bind _ _ _ _ (fun m w => ctx a k t key ids w /\ tm_task_id m = k')).
  - eapply runs_bind; [apply runs_new_id|]. intros id. eapply runs_bind; [apply runs_now|].
    intros at_. by apply runs_ret.
  - intros m. apply runs_pure. auto.
Qed.

Lemma runs_new_brief a k t key ids k' v b c {B} (cont : RequirementBriefVersion -> WM B) R :
  (forall m, bv_task_id m = k' -> runs_as a k (ctx a k t key ids) (cont m) R) ->
  runs_as a k (ctx a k t key ids) (m ← new_brief_version k' v b c; cont m) R.
Proof.
  intros Hc. eapply (runs_bind _ _ _ _ (fun m w => ctx a k t key ids w /\ bv_task_id m = k')).
  - eapply runs_bind; [apply runs_now|]. intros at_. by apply runs_ret.
  - intros m. apply runs_pure. auto.
Qed.

(** The snapshot shows task [k]. *)
Definition of_task (k : string) (s : WorkflowSnapshot) : Prop := t_task_id (ws_task s) = k.

(** The key was used for this input and task. *)
Definition key_used (a key h k : string) (w : world) : Prop :=
  exists rec, idempotency (w_repo w) !! (a, key) = Some rec /\ ir_input_hash rec = h /\ ir_task_id rec = k.

Lemma key_used_stable a b j key h k w w' : wsteps b j w w' -> key_used a key h k w -> key_used a key h k w'.
Proof. intros Hs (rec & Hrec & ?). exists rec. split; [by eapply wsteps_idempotency|done]. Qed.

(** Recording the command's idempotency key. *)
Lemma runs_record a k t key ids actor idk h k' rid (cont : WM WorkflowSnapshot) :
  actor = a -> idk = key -> k' = k ->
  runs_as a k (ctx a k t None ids) cont (fun x _ => of_task k x) ->
  runs_as a k (ctx a k t (Some key) ids)
    (rec ← new_record actor idk h k' rid; repo_do (save_idempotency rec);; cont)
    (fun x w => key_used a key h (t_task_id (ws_task x)) w).
Proof.
  intros -> -> -> Hc.
  eapply (runs_bind _ _ _ _ (fun rec w => ctx a k t (Some key) ids w /\
    (ir_actor_id rec = a /\ ir_idempotency_key rec = key /\ ir_task_id rec = k /\ ir_input_hash rec = h))).
  - eapply runs_bind; [apply runs_now|]. intros at_. by apply runs_ret.
  - intros rec. apply runs_pure. intros (Ha & Hk & Ht & Hh).
    eapply (runs_bind _ _ _ _ (fun _ w => ctx a k t None ids w /\ key_used a key h k w)).
    + intros w Hinv Hw. destruct (runs_save_idempotency a k t key ids rec Ha Hk Ht w Hinv Hw) as [Hs Hp].
      split; [done|]. intros x Hx. split; [by eapply Hp|]. exists rec. split; [|done]. cbn.
      by rewrite <- Ha, <- Hk, dict_lookup_insert_eq.
    + intros _u w Hinv [Hw Hu]. destruct (Hc w Hinv Hw) as [Hs Hp]. split; [done|].
      intros x Hx. rewrite (Hp x Hx). by eapply key_used_stable.
Qed.
End logic.

#[export] Hint Resolve runs_new_id runs_now runs_call runs_invoke runs_save_section runs_save_quality
  runs_save_grounding runs_event runs_checkpoint runs_raise : workflow.
