(* ===== verification/WorkflowHandlers.v ===== *)
(** * The commands refine the transition system

    Every command of the workflow service, on every path including the ones
    that raise, is a sequence of writes that its actor is entitled to. *)
From stdpp Require Import base list sets strings pretty relations.
From Stdlib Require Import ZArith.
From S2P Require Import Prelude PyDict Json Domain Grounding Quality.
From S2P Require Import WorkflowRepo WorkflowNodes Workflow WorkflowSteps WorkflowLogic.

Open Scope Z_scope.

(** Chain the steps whose specification is in the hint database. *)
Ltac wf_step := eapply runs_bind; [solve [eauto with workflow]|intros ?; cbv beta].

Section handlers.
Context `{Builtins} `{UniqueIds}.

(** ** Snapshots *)

Definition snap_ok (k : string) (s : WorkflowSnapshot) : Prop :=
  r_task_id (ws_run s) = k /\ is_Some (r_started_at (ws_run s)) /\
  (forall o, o ∈ ws_outlines s -> o_task_id o = k) /\
  (forall d, d ∈ ws_documents s -> d_task_id d = k) /\ t_task_id (ws_task s) = k.

Lemma latest_run_spec n r k run :
  repo_inv n r -> latest_run k r = Ok run ->
  runs r !! r_run_id run = Some run /\ r_task_id run = k /\ is_Some (r_started_at run).
Proof.
  intros Hinv Hl.
  assert (Hin : run ∈ List.filter (fun x => bool_decide (r_task_id x = k)) (values (runs r))).
  { unfold latest_run in Hl. destruct (List.filter _ _) as [|x [|y l]] eqn:E; [done| |].
    - injection Hl as ->. set_solver.
    - repeat case_match; try done. injection Hl as ->.
      match goal with Hx : last _ = Some _ |- _ => apply last_Some in Hx as [l' Hx] end.
      eapply elem_of_sort_by. rewrite H3. set_solver. }
  apply list_elem_of_In, filter_In in Hin as [Hin Hk%bool_decide_eq_true].
  apply list_elem_of_In, dict_values_lookup in Hin as [id Hid]; [|apply Hinv].
  destruct (inv_run _ _ Hinv _ _ Hid) as (Hrid & _ & _ & ?). by rewrite Hrid.
Qed.

Lemma snapshot_spec n r k s :
  repo_inv n r -> snapshot k r = Ok s ->
  tasks r !! k = Some (ws_task s) /\ run_of k (r_run_id (ws_run s)) r /\ snap_ok k s.
Proof.
  intros Hinv Hs. unfold snapshot in Hs.
  apply result_bind_Ok in Hs as (t & Ht & Hs). apply result_bind_Ok in Hs as (run & Hr & [= <-]).
  unfold get_task in Ht. destruct (tasks r !! k) eqn:Htask; [|done]. injection Ht as ->. cbn.
  destruct (latest_run_spec n r k run Hinv Hr) as (? & ? & ?).
  split; [done|]. split; [by exists run|]. split_and!; try done; cbn.
  - intros o (l & Hl & Ho)%get_list_elem. by eapply inv_outlines.
  - intros o (l & Hl & Ho)%get_list_elem. by eapply inv_documents.
  - by destruct (inv_task _ _ Hinv k t).
Qed.

Lemma current_outline_elem s o : current_outline s = Some o -> o ∈ ws_outlines s.
Proof.
  unfold current_outline. intros [l Hl]%last_Some.
  assert (Ho : o ∈ l ++ [o]) by set_solver. rewrite <- Hl in Ho.
  by apply list_elem_of_In, filter_In in Ho as [?%list_elem_of_In _].
Qed.

(** The precondition of a command that passed the replay check. *)
Definition free_key (a key : string) (w : world) : Prop := idempotency (w_repo w) !! (a, key) = None.

Lemma snapshot_for_owner_task n r k a s :
  repo_inv n r -> snapshot_for_owner k a r = Ok s -> snapshot k r = Ok s /\ of_task k s.
Proof.
  intros Hinv Hs. unfold snapshot_for_owner in Hs. apply result_bind_Ok in Hs as (t & _ & Hs).
  case_match; [done|]. split; [done|]. destruct (snapshot_spec _ _ _ _ Hinv Hs) as (_ & _ & Hok). apply Hok.
Qed.

Lemma runs_replay a j key h (m : WM WorkflowSnapshot) :
  runs_as a j (free_key a key) m (fun x w => key_used a key h (t_task_id (ws_task x)) w) ->
  runs_as a j (fun _ => True) (with_replay a key h m) (fun x w => key_used a key h (t_task_id (ws_task x)) w).
Proof.
  intros Hm w Hinv _. unfold with_replay, get_repo, mbind, M_bind, get_idempotency.
  destruct (idempotency (w_repo w) !! (a, key)) as [rec|] eqn:E.
  - case_bool_decide as Hh; cbn; (split; [apply rtc_refl|]); [|done].
    intros x Hx. exists rec. split; [done|]. split; [done|].
    by destruct (snapshot_for_owner_task _ _ _ _ _ Hinv Hx) as [_ ->].
  - by apply (Hm w Hinv).
Qed.

Lemma runs_expect a key k expected {B} (cont : WorkflowSnapshot -> WM B) R :
  (forall s, snap_ok k s -> t_version (ws_task s) = expected ->
     runs_as a k (ctx a k (ws_task s) (Some key) [r_run_id (ws_run s)]) (cont s) R) ->
  runs_as a k (free_key a key) (s ← expect_version k a expected; cont s) R.
Proof.
  intros Hcont. eapply (runs_bind _ _ _ _ (fun s w => ctx a k (ws_task s) (Some key) [r_run_id (ws_run s)] w /\
    (snap_ok k s /\ t_version (ws_task s) = expected))).
  2: { intros s. apply runs_pure. intros [? ?]. auto. }
  unfold expect_version. eapply (runs_bind _ _ _ _ (fun s w =>
    ctx a k (ws_task s) (Some key) [r_run_id (ws_run s)] w /\ snap_ok k s)).
  - apply runs_get. intros s w Hinv Hfree Hs. unfold snapshot_for_owner in Hs.
    apply result_bind_Ok in Hs as (t & Ht & Hs). case_bool_decide as Ho; [|done]. simpl in Hs.
    destruct (snapshot_spec _ _ _ _ Hinv Hs) as (Htask & Hrun & Hok). split; [|done].
    unfold get_task in Ht. rewrite Htask in Ht. injection Ht as <-.
    destruct (inv_task _ _ Hinv _ _ Htask) as [Hid _]. split_and!; try done.
    + by intros ? [= <-].
    + by intros id ->%list_elem_of_singleton.
  - intros s. apply runs_pure. intros Hok. apply runs_if; [intros _; apply runs_raise|].
    intros E%negb_false_iff%Z.eqb_eq. apply runs_ret. auto.
Qed.

Lemma runs_expect_outline a j P status s {B} (cont : OutlineVersion -> WM B) R :
  (forall o, o ∈ ws_outlines s -> t_status (ws_task s) = status -> runs_as a j P (cont o) R) ->
  runs_as a j P (o ← expect_outline status s; cont o) R.
Proof.
  intros Hcont. eapply (runs_bind _ _ _ _ (fun o w => P w /\ (o ∈ ws_outlines s /\ t_status (ws_task s) = status))).
  - unfold expect_outline. destruct (current_outline s) as [o|] eqn:E; [|apply runs_raise].
    case_decide; [|apply runs_raise]. apply runs_ret. split; [done|]. split; [|done].
    by apply current_outline_elem.
  - intros o. apply runs_pure. intros [? ?]. auto.
Qed.

(** ** Outline generation *)

Lemma runs_build_nodes a k t key ids seq m built drafts :
  runs_as a k (ctx a k t key ids) (build_nodes seq m built drafts) (fun _ => ctx a k t key ids).
Proof.
  revert seq m built. induction drafts as [|d rest IH]; intros seq m built; [by apply runs_ret|].
  cbn [build_nodes]. wf_step.
  do 5 (eapply runs_bind; [apply (runs_liftR _ _ _ _ (fun _ => ctx a k t key ids)); auto|intros ?; cbv beta]).
  apply IH.
Qed.

Lemma runs_unit_ids a k t key ids m drafts :
  runs_as a k (ctx a k t key ids) (unit_ids_by_key m drafts) (fun _ => ctx a k t key ids).
Proof.
  revert m. induction drafts as [|d rest IH]; intros m; [by apply runs_ret|].
  cbn [unit_ids_by_key]. wf_step. apply IH.
Qed.

Lemma runs_snapshot a j P k : runs_as a j P (repo_get (snapshot k)) (fun _ => P).
Proof. by apply runs_get. Qed.

Lemma runs_result a j P k k' : k' = k -> runs_as a j P (repo_get (snapshot k')) (fun x _ => of_task k x).
Proof.
  intros ->. apply runs_get. intros s w Hinv _ Hs.
  destruct (snapshot_spec _ _ _ _ Hinv Hs) as (_ & _ & Hok). apply Hok.
Qed.

(** A run the handler may save. *)
Definition my_run (k : string) (ids : list string) (run : AgentRun) : Prop :=
  r_task_id run = k /\ is_Some (r_started_at run) /\ r_run_id run ∈ ids.

Lemma runs_save_my_run a k t key ids run s :
  my_run k ids run ->
  runs_as a k (ctx a k t key ids) (repo_try (save_run (run_set_status s run))) (fun _ => ctx a k t key ids).
Proof. intros (? & ? & ?). by apply runs_save_run. Qed.

Lemma runs_generate_outline a k t ids run brief :
  t_task_id t = k -> my_run k ids run ->
  runs_as a k (ctx a k t None ids) (generate_outline t run brief) (fun x _ => of_task k x).
Proof.
  intros Hk Hrun. unfold generate_outline. wf_step. wf_step.
  eapply runs_bind; [apply runs_snapshot|intros prior; cbv beta].
  eapply runs_bind; [apply runs_build_nodes|intros built; cbv beta].
  eapply runs_bind; [apply runs_unit_ids|intros uids; cbv beta].
  eapply runs_bind; [apply (runs_liftR _ _ _ _ (fun _ => ctx a k t None ids)); auto|intros units; cbv beta].
  wf_step. apply runs_move; [apply runs_now|]. intros t' Hev Hst.
  assert (Hk' : t_task_id t' = k) by (by eapply evolves_id).
  eapply runs_bind; [by apply runs_save_outline|intros ?; cbv beta].
  eapply runs_bind; [apply runs_save_task; [done|by apply evolves_set_outline]|intros ?; cbv beta].
  eapply runs_bind; [by apply runs_save_my_run|intros ?; cbv beta].
  eapply runs_bind; [by apply runs_event|intros ?; cbv beta]. wf_step.
  by apply runs_result.
Qed.

Lemma runs_clarify_or_outline a k t ids run brief :
  t_task_id t = k -> my_run k ids run ->
  runs_as a k (ctx a k t None ids) (clarify_or_outline t run brief) (fun x _ => of_task k x).
Proof.
  intros Hk Hrun. unfold clarify_or_outline. apply runs_if; intros _; [|by apply runs_generate_outline].
  unfold request_clarification. eapply runs_bind; [by apply runs_save_my_run|intros ?; cbv beta].
  eapply runs_bind; [by apply runs_event|intros ?; cbv beta]. wf_step. by apply runs_result.
Qed.

(** ** Starting a task *)

(** Computations that only consume identifiers, time and model calls. *)
Definition consumes {A} (m : WM A) (phi : A -> Prop) : Prop :=
  forall w, w_repo (m w).1 = w_repo w /\ (w_uuids w <= w_uuids (m w).1)%nat /\
    forall x, (m w).2 = Ok x -> phi x.

Lemma consumes_bind {A B} (m : WM A) phi (k : A -> WM B) psi :
  consumes m phi -> (forall x, phi x -> consumes (k x) psi) -> consumes (x ← m; k x) psi.
Proof.
  intros Hm Hk w. destruct (Hm w) as (Hr & Hu & Hp). unfold mbind, M_bind.
  destruct (m w) as [w1 [x|e]]; simpl in *; [|by split_and!].
  destruct (Hk x (Hp x eq_refl) w1) as (Hr2 & Hu2 & Hp2). rewrite Hr2, Hr. split_and!; [done|lia|done].
Qed.

Lemma consumes_ret {A} (x : A) (phi : A -> Prop) : phi x -> consumes (mret x) phi.
Proof. intros Hx w. split_and!; [done..|]. by intros y [= <-]. Qed.
Lemma consumes_raise {A} e (phi : A -> Prop) : consumes (raise e) phi.
Proof. by intros w. Qed.
Lemma consumes_now : consumes now (fun _ => True).
Proof. by intros w. Qed.
Lemma consumes_new_id p : consumes (new_id p) (fun _ => True).
Proof. intros w. simpl. split_and!; [done|lia|done]. Qed.
Lemma consumes_call c : consumes (call_model c) (fun _ => True).
Proof. by intros w. Qed.

Lemma consumes_invoke {A} op p (v : json -> result exc A) : consumes (invoke_validated op p v) (fun _ => True).
Proof.
  unfold invoke_validated. eapply consumes_bind; [apply consumes_call|]. intros j _.
  destruct (v j) as [x|e]; [by apply consumes_ret|]. destruct (repairable e); [|apply consumes_raise].
  eapply consumes_bind; [apply consumes_call|]. intros j2 _.
  destruct (v j2) as [x|e2]; [by apply consumes_ret|]. destruct (repairable e2); apply consumes_raise.
Qed.

Lemma consumes_new_task tid title owner :
  consumes (new_task tid title owner) (fun t => t_task_id t = tid /\ t_owner_id t = owner).
Proof.
  eapply consumes_bind; [apply consumes_now|]. intros c _. eapply consumes_bind; [apply consumes_now|].
  intros u _. by apply consumes_ret.
Qed.

Lemma consumes_move t target v upd :
  consumes upd (fun _ => True) ->
  consumes (move_task t target v upd) (fun t' => t_task_id t' = t_task_id t /\ t_owner_id t' = t_owner_id t).
Proof.
  intros Hu. eapply (consumes_bind _ (fun _ => True)); [by intros w|]. intros s _.
  eapply consumes_bind; [exact Hu|]. intros at_ _. by apply consumes_ret.
Qed.

Lemma consumes_message tid actor c : consumes (new_message tid actor c) (fun _ => True).
Proof.
  eapply consumes_bind; [apply consumes_new_id|]. intros i _. eapply consumes_bind; [apply consumes_now|].
  intros u _. by apply consumes_ret.
Qed.

Lemma consumes_brief tid v b c : consumes (new_brief_version tid v b c) (fun _ => True).
Proof. eapply consumes_bind; [apply consumes_now|]. intros u _. by apply consumes_ret. Qed.

Lemma consumes_record a key h tid rid :
  consumes (new_record a key h tid rid)
    (fun rec => ir_actor_id rec = a /\ ir_idempotency_key rec = key /\ ir_task_id rec = tid /\
       ir_input_hash rec = h).
Proof. eapply consumes_bind; [apply consumes_now|]. intros u _. by apply consumes_ret. Qed.

(** The identifiers of the new task and run are issued and unused. *)
Definition fresh_start (a key tid rid : string) (w : world) : Prop :=
  idempotency (w_repo w) !! (a, key) = None /\
  tasks (w_repo w) !! tid = None /\ issued "task" (w_uuids w) tid /\
  runs (w_repo w) !! rid = None /\ issued "run" (w_uuids w) rid.

Lemma runs_consumes a key tid rid {A B} (m : WM A) phi (cont : A -> WM B) R :
  consumes m phi ->
  (forall x, phi x -> runs_as a tid (fresh_start a key tid rid) (cont x) R) ->
  runs_as a tid (fresh_start a key tid rid) (x ← m; cont x) R.
Proof.
  intros Hm Hcont. eapply (runs_bind _ _ _ _ (fun x w => fresh_start a key tid rid w /\ phi x)).
  - intros w Hinv (? & ? & ? & ? & ?). destruct (Hm w) as (Hr & Hu & Hp).
    split; [by apply rtc_once; constructor|]. intros x Hx. split; [|auto].
    unfold fresh_start. rewrite Hr. split_and!; eauto using issued_mono.
  - intros x. apply runs_pure. auto.
Qed.

(** A computation that works on a task that does not exist yet. *)
Definition creates (a : string) {A} (P : world -> Prop) (m : WM A) (Q : A -> world -> Prop) : Prop :=
  forall w, Inv w -> P w ->
    exists k, tasks (w_repo w) !! k = None /\ wsteps a k w (m w).1 /\
      forall x, (m w).2 = Ok x -> Q x (m w).1.

Lemma fresh_task_id w : Inv w -> tasks (w_repo w) !! ("task" +:+ "-" +:+ uuid4_hex (w_uuids w)) = None.
Proof.
  intros Hinv. destruct (tasks (w_repo w) !! _) eqn:E; [|done].
  destruct (inv_task _ _ Hinv _ _ E) as [_ Hi]. by apply issued_fresh in Hi.
Qed.

Lemma creates_idle a {A} (P : world -> Prop) (m : WM A) (Q : A -> world -> Prop) :
  (forall w, Inv w -> P w -> (m w).1 = w /\ forall x, (m w).2 = Ok x -> Q x w) -> creates a P m Q.
Proof.
  intros Hm w Hinv HP. destruct (Hm w Hinv HP) as [Hw Hx]. eexists. split; [by apply fresh_task_id|].
  rewrite Hw. split; [apply rtc_refl|done].
Qed.

Lemma creates_replay a key h (m : WM WorkflowSnapshot) :
  creates a (free_key a key) m (fun x w => key_used a key h (t_task_id (ws_task x)) w) ->
  creates a (fun _ => True) (with_replay a key h m) (fun x w => key_used a key h (t_task_id (ws_task x)) w).
Proof.
  intros Hm w Hinv _. destruct (idempotency (w_repo w) !! (a, key)) as [rec|] eqn:E.
  - refine (creates_idle a (fun w => idempotency (w_repo w) !! (a, key) = Some rec) (with_replay a key h m)
      (fun x w => key_used a key h (t_task_id (ws_task x)) w) _ w Hinv E).
    clear w Hinv E. intros w Hinv E. unfold with_replay, get_repo, mbind, M_bind, get_idempotency. rewrite E.
    case_bool_decide as Hh; cbn; (split; [done|]); [|done].
    intros x Hx. exists rec. split; [done|]. split; [done|].
    by destruct (snapshot_for_owner_task _ _ _ _ _ Hinv Hx) as [_ ->].
  - destruct (Hm w Hinv E) as (k & Hk & Hs). exists k. split; [done|].
    unfold with_replay, get_repo, mbind, M_bind, get_idempotency. by rewrite E.
Qed.

Lemma runs_new_ids a key {B} (cont : string -> string -> WM B) R :
  (forall tid rid, runs_as a tid (fresh_start a key tid rid) (cont tid rid) R) ->
  creates a (free_key a key) (tid ← new_id "task"; rid ← new_id "run"; cont tid rid) R.
Proof.
  intros Hcont w Hinv Hfree. unfold mbind, M_bind, new_id. cbn [w_repo w_uuids w_ticks w_calls].
  set (tid := "task" +:+ "-" +:+ uuid4_hex (w_uuids w)).
  set (rid := "run" +:+ "-" +:+ uuid4_hex (S (w_uuids w))).
  set (w1 := mkWorld (w_repo w) (S (S (w_uuids w))) (w_ticks w) (w_calls w)).
  assert (Hw1 : wsteps a tid w w1) by (apply rtc_once; constructor; [done|simpl; lia]).
  assert (Hnew : tasks (w_repo w) !! tid = None) by (by apply fresh_task_id).
  exists tid. split; [done|]. destruct (Hcont tid rid w1) as [Hs HR].
  - by eapply wsteps_inv.
  - split_and!; [done|done|exists (w_uuids w); split; [simpl; lia|done]| |
      exists (S (w_uuids w)); split; [simpl; lia|done]].
    destruct (runs (w_repo w1) !! rid) eqn:E; [|done].
    destruct (inv_run _ _ Hinv _ _ E) as (_ & Hi & _).
    apply (issued_mono _ _ (S (w_uuids w))) in Hi; [by apply issued_fresh in Hi|lia].
  - split; [by etransitivity|done].
Qed.

Lemma runs_with_key a j b key h k {A} P (m : WM A) Q :
  runs_as a j P m Q ->
  runs_as a j (fun w => P w /\ key_used b key h k w) m (fun x w => Q x w /\ key_used b key h k w).
Proof.
  intros Hm w Hinv [HP Hu]. destruct (Hm w Hinv HP) as [Hs HQ]. split; [done|].
  intros x Hx. split; [auto|]. by eapply key_used_stable.
Qed.

(** Creating the task bundle. *)
Lemma runs_create a key tid rid h task m b run rec {B} (cont : WM B) R :
  t_task_id task = tid -> t_owner_id task = a -> r_run_id run = rid -> r_task_id run = tid ->
  is_Some (r_started_at run) ->
  ir_actor_id rec = a -> ir_idempotency_key rec = key -> ir_task_id rec = tid -> ir_input_hash rec = h ->
  runs_as a tid (fun w => ctx a tid task None [rid] w /\ key_used a key h tid w) cont R ->
  runs_as a tid (fresh_start a key tid rid) (repo_do (create_task_bundle task m b run rec);; cont) R.
Proof.
  intros Ht Ho Hr Hrt Hst Ha Hk Hrk Hh Hcont.
  eapply (runs_bind _ _ _ _ (fun _ w => ctx a tid task None [rid] w /\ key_used a key h tid w)); [|by intros _].
  intros w Hinv (Hfree & Hnt & Hit & Hnr & Hir). unfold repo_do; cbn [fst snd].
  assert (Hs : wsteps a tid w (with_repo (create_task_bundle task m b run rec (w_repo w)) w)).
  { apply step_to, write_create; congruence. }
  split; [done|]. intros _ _. split; [split_and!; try done; cbn|].
  - by rewrite Ht, dict_lookup_insert_eq.
  - intros id ->%list_elem_of_singleton. exists run. cbn. by rewrite Hr, dict_lookup_insert_eq.
  - exists rec. split; [|done]. cbn. by rewrite Ha, Hk, dict_lookup_insert_eq.
Qed.

Lemma runs_record_started a c message h tid rid thread at_ brief {B} (cont : Task * AgentRun -> WM B) R :
  st_actor_id c = a ->
  (forall t run, t_task_id t = tid -> my_run tid [rid] run ->
     runs_as a tid (fun w => ctx a tid t None [rid] w /\ key_used a (st_idempotency_key c) h tid w) (cont (t, run)) R) ->
  runs_as a tid (fresh_start a (st_idempotency_key c) tid rid)
    (x ← record_started c message h tid rid thread at_ brief; cont x) R.
Proof.
  intros <- Hcont.
  eapply (runs_bind _ _ _ _ (fun x w => (ctx (st_actor_id c) tid x.1 None [rid] w /\
    key_used (st_actor_id c) (st_idempotency_key c) h tid w) /\ (t_task_id x.1 = tid /\ my_run tid [rid] x.2))).
  2: { intros [t run]. apply runs_pure. intros [? ?]. auto. }
  unfold record_started. eapply runs_consumes; [apply consumes_new_task|]. intros t [Ht Ho].
  eapply runs_consumes; [apply consumes_move; by apply consumes_ret|]. intros t' [Ht' Ho'].
  eapply runs_consumes; [apply consumes_message|]. intros m _.
  eapply runs_consumes; [apply consumes_brief|]. intros b _.
  eapply runs_consumes; [apply consumes_record|]. intros rec (Ha & Hk & Hrk & Hh).
  apply (runs_create _ _ _ _ h); try done; [congruence|congruence|].
  eapply runs_bind; [by apply runs_with_key, runs_event|]. intros ?. cbv beta. apply runs_ret. intros w Hw.
  split; [done|]. cbn. split; [congruence|]. split_and!; [done|by eexists|set_solver].
Qed.

Lemma runs_record_failed a c message h tid rid thread at_ e :
  st_actor_id c = a ->
  runs_as a tid (fresh_start a (st_idempotency_key c) tid rid)
    (record_failed_start c message h tid rid thread at_ e) (fun _ _ => True).
Proof.
  intros <-. unfold record_failed_start. eapply runs_consumes; [apply consumes_new_task|]. intros t [Ht Ho].
  eapply runs_consumes; [apply consumes_move; by apply consumes_ret|]. intros t1 [Ht1 Ho1].
  eapply runs_consumes; [apply consumes_move; by apply consumes_ret|]. intros t2 [Ht2 Ho2].
  eapply runs_consumes; [apply consumes_message|]. intros m _.
  eapply runs_consumes; [apply consumes_brief|]. intros b _.
  eapply runs_consumes; [apply consumes_record|]. intros rec (Ha & Hk & Hrk & Hh).
  apply (runs_create _ _ _ _ h); try done; [congruence|congruence|].
  eapply runs_bind; [by apply runs_with_key, runs_event|]. intros ?. cbv beta.
  eapply runs_post, runs_with_key, runs_checkpoint.
Qed.

Lemma runs_on_model_error a key tid rid {A} (handler : exc -> WM unit) (m : WM A) :
  consumes m (fun _ => True) ->
  (forall e, runs_as a tid (fresh_start a key tid rid) (handler e) (fun _ _ => True)) ->
  runs_as a tid (fresh_start a key tid rid) (on_model_error handler m) (fun _ => fresh_start a key tid rid).
Proof.
  intros Hm Hh w Hinv Hf. unfold on_model_error.
  assert (Hstep : wsteps a tid w (m w).1 /\ fresh_start a key tid rid (m w).1).
  { destruct (Hm w) as (Hr & Hu & _). split; [by apply rtc_once; constructor|].
    destruct Hf as (? & ? & ? & ? & ?). unfold fresh_start. rewrite Hr.
    split_and!; eauto using issued_mono. }
  destruct (m w) as [w1 [x|e]]; simpl in *; destruct Hstep as [Hs Hf1]; [done|].
  destruct e; try done. unfold mbind, M_bind.
  destruct (Hh ModelOutputError w1 (wsteps_inv _ _ _ _ Hinv Hs) Hf1) as [Hs2 _].
  destruct (handler ModelOutputError w1) as [w2 [u|e]]; simpl in *; (split; [by etransitivity|done]).
Qed.

(** A new task: the writes concern an identifier that was not in use. *)
Lemma start_task_runs c :
  creates (st_actor_id c) (fun _ => True) (start_task c)
    (fun x w => key_used (st_actor_id c) (st_idempotency_key c) (start_hash (strip (st_message c)))
       (t_task_id (ws_task x)) w).
Proof.
  unfold start_task, start_task_locked.
  destruct (truthy (strip (st_idempotency_key c))); cbn [negb]; [|by apply creates_idle].
  destruct (truthy (strip (st_message c))); cbn [negb]; [|by apply creates_idle].
  apply creates_replay, runs_new_ids. intros tid rid.
  eapply runs_consumes; [apply consumes_new_id|]. intros thread _.
  eapply runs_consumes; [apply consumes_now|]. intros at_ _.
  eapply runs_bind.
  { apply runs_on_model_error; [apply consumes_invoke|]. intros e. by apply runs_record_failed. }
  intros brief. cbv beta. apply runs_record_started; [done|]. intros t run Ht Hrun. cbn [fst snd].
  eapply runs_weaken; [eapply runs_with_key, (runs_clarify_or_outline _ tid); done|intros w Hw; exact Hw|].
  intros x w [-> ?]. done.
Qed.

(** ** Replying *)

Lemma runs_brief_of a j P s {B} (cont : RequirementBrief -> WM B) R :
  (forall b, runs_as a j P (cont b) R) -> runs_as a j P (b ← current_brief_of s; cont b) R.
Proof.
  intros Hc. eapply (runs_bind _ _ _ _ (fun _ => P)); [|done].
  unfold current_brief_of. case_match; [by apply runs_ret|apply runs_raise].
Qed.

Lemma runs_owned_task a key k {B} (cont : Task -> WM B) R :
  (forall t, runs_as a k (ctx a k t (Some key) []) (cont t) R) ->
  runs_as a k (free_key a key) (t ← owned_task k a; cont t) R.
Proof.
  intros Hc. eapply (runs_bind _ _ _ _ (fun t => ctx a k t (Some key) [])); [|done].
  unfold owned_task. eapply (runs_bind _ _ _ _ (fun t w => free_key a key w /\ Inv w /\ tasks (w_repo w) !! k = Some t)).
  - apply runs_get. intros t w Hinv Hf Ht. unfold get_task in Ht. case_match; [|done]. by simplify_eq.
  - intros t. case_bool_decide as Ho; [|apply runs_raise]. apply runs_ret. intros w (Hf & Hinv & Ht).
    destruct (inv_task _ _ Hinv _ _ Ht) as [Hid _]. split_and!; try done; [by intros ? [= <-]|set_solver].
Qed.

Lemma ctx_add a k t key ids id w :
  ctx a k t key ids w -> run_of k id (w_repo w) -> ctx a k t key (id :: ids) w.
Proof. intros (? & ? & ? & ? & ?) ?. split_and!; auto. intros x [->|?]%elem_of_cons; auto. Qed.

Lemma runs_withdraw a k t key ids c s {B} (cont : Task -> WM B) R :
  t_task_id t = k -> snap_ok k s ->
  (forall t', t_task_id t' = k -> runs_as a k (ctx a k t' key ids) (cont t') R) ->
  runs_as a k (ctx a k t key ids) (t' ← withdraw_outline c t s; cont t') R.
Proof.
  intros Hk Hs Hcont. eapply (runs_bind _ _ _ _ (fun t' w => ctx a k t' key ids w /\ t_task_id t' = k));
    [|intros t'; apply runs_pure; auto].
  unfold withdraw_outline. case_decide; [|by apply runs_ret].
  apply runs_move; [apply runs_now|]. intros t' Hev _.
  assert (Hk' : t_task_id t' = k) by (by eapply evolves_id).
  eapply (runs_bind _ _ _ _ (fun _ => ctx a k t key ids)).
  { destruct (current_outline s) as [o|] eqn:E; [|by apply runs_ret]. apply runs_save_outline.
    apply current_outline_elem in E. destruct Hs as (_ & _ & Ho & _). exact (Ho o E). }
  intros _. eapply runs_bind; [by apply runs_save_task|]. intros ?. cbv beta. by apply runs_ret.
Qed.

Lemma reply_to_task_runs c :
  runs_as (rt_actor_id c) (rt_task_id c) (fun _ => True) (reply_to_task c)
    (fun x w => key_used (rt_actor_id c) (rt_idempotency_key c) (reply_hash c (strip (rt_message c)))
       (t_task_id (ws_task x)) w).
Proof.
  unfold reply_to_task. apply runs_if; [intros _; apply runs_raise|intros _].
  apply runs_replay. apply runs_owned_task. intros t.
  do 2 (apply runs_if; [intros _; apply runs_raise|intros _]).
  set (k := rt_task_id c). set (a := rt_actor_id c).
  eapply (runs_bind _ _ _ _ (fun s w => ctx a k t (Some (rt_idempotency_key c)) [r_run_id (ws_run s)] w /\
    (snap_ok k s /\ t_task_id t = k))).
  { apply runs_get. intros s w Hinv Hc Hs. assert (Hid : t_task_id t = k) by apply Hc.
    rewrite Hid in Hs. destruct (snapshot_spec _ _ _ _ Hinv Hs) as (_ & Hr & Hok).
    split; [by apply ctx_add|done]. }
  intros s. apply runs_pure. intros [Hok Hk]. apply runs_brief_of. intros pb.
  wf_step. apply runs_withdraw; [done|done|]. intros t' Hk'.
  destruct Hok as (Hrt & Hst & _).
  eapply runs_bind; [apply runs_finish_old; [done|done|set_solver]|]. intros ?. cbv beta.
  apply runs_start_run; [done|]. intros run (Hr1 & Hr2 & Hr3).
  apply runs_new_message. intros m Hm. eapply runs_bind; [apply runs_save_message; congruence|]. intros ?.
  cbv beta. apply runs_new_brief. intros b Hb.
  eapply runs_bind; [apply runs_save_brief; congruence|]. intros ?. cbv beta.
  apply runs_record; [done..|]. apply runs_clarify_or_outline; [done|].
  split_and!; [done|done|set_solver].
Qed.
End handlers.
