(* ===== verification/WorkflowUnits.v ===== *)
(** * Unit generation and the remaining commands refine the transition system *)
From stdpp Require Import base list sets strings pretty relations.
From Stdlib Require Import ZArith.
From S2P Require Import Prelude PyDict Json Domain Grounding Quality.
From S2P Require Import WorkflowRepo WorkflowNodes Workflow WorkflowSteps WorkflowLogic.
From S2P Require Import WorkflowHandlers.

Open Scope Z_scope.

Section units.
Context `{Builtins} `{UniqueIds}.

(** ** Computations that leave tasks and idempotency records alone

    Whatever their outcome, so that exception handlers can rely on it. *)
Definition quiet (a k : string) (ids : list string) {A} (m : WM A) : Prop :=
  forall w, Inv w -> owned_by a k (w_repo w) -> (forall id, id ∈ ids -> run_of k id (w_repo w)) ->
    wsteps a k w (m w).1 /\ tasks (w_repo (m w).1) = tasks (w_repo w) /\
    idempotency (w_repo (m w).1) = idempotency (w_repo w).

Lemma quiet_bind a k ids {A B} (m : WM A) (f : A -> WM B) :
  quiet a k ids m -> (forall x, quiet a k ids (f x)) -> quiet a k ids (x ← m; f x).
Proof.
  intros Hm Hf w Hinv Ho Hr. destruct (Hm w Hinv Ho Hr) as (Hs & Ht & Hi). unfold mbind, M_bind.
  destruct (m w) as [w1 [x|e]]; simpl in *; [|done].
  destruct (Hf x w1) as (Hs2 & Ht2 & Hi2).
  - by eapply wsteps_inv.
  - by eapply wsteps_owned.
  - intros id Hid. eapply wsteps_run_of; eauto.
  - rewrite Ht2, Hi2. split_and!; [by etransitivity|done|done].
Qed.

Lemma quiet_consumes a k ids {A} (m : WM A) phi : consumes m phi -> quiet a k ids m.
Proof. intros Hm w Hinv _ _. destruct (Hm w) as (Hr & Hu & _). rewrite Hr. split_and!; [|done..]. by apply rtc_once; constructor. Qed.

Lemma quiet_get a k ids {A} (f : repository -> result exc A) : quiet a k ids (repo_get f).
Proof. intros w _ _ _. split_and!; [apply rtc_refl|done..]. Qed.

Lemma quiet_write a k ids (f : repository -> repository) :
  (forall n r, owned_by a k r -> write a k n r (f r)) ->
  (forall r, tasks (f r) = tasks r) -> (forall r, idempotency (f r) = idempotency r) ->
  quiet a k ids (repo_do f).
Proof.
  intros Hw Ht Hi w Hinv Ho _. unfold repo_do; cbn. split_and!; [|apply Ht|apply Hi].
  by apply (step_to a k w (f (w_repo w))), Hw.
Qed.

Lemma quiet_event a k ids k' ty p : k' = k -> quiet a k ids (emit_event k' ty p).
Proof.
  intros ->. unfold emit_event.
  apply quiet_bind; [eapply quiet_consumes, consumes_new_id|intros id].
  apply quiet_bind; [eapply quiet_consumes, consumes_now|intros at_].
  apply quiet_write; [|done..]. intros. by constructor.
Qed.

Lemma quiet_checkpoint a k ids t run node : quiet a k ids (checkpoint t run node).
Proof. apply quiet_write; [|done..]. intros. constructor. Qed.

Lemma quiet_save_run a k ids run : my_run k ids run -> quiet a k ids (repo_try (save_run run)).
Proof.
  intros (Hk & Hst & Hid) w Hinv Ho Hr. unfold repo_try, save_run.
  destruct (active (r_status run) && active_conflict run (w_repo w)) eqn:Hconf; cbn [fst snd w_repo].
  { destruct w; cbn. split_and!; [apply rtc_refl|done..]. }
  destruct (Hr _ Hid) as (old & Hold & Hok). split_and!; [|done..].
  apply (step_to a k w), write_run; [done|done|done| |congruence|done].
  by destruct (inv_run _ _ Hinv _ _ Hold) as (_ & ? & _).
Qed.

(** ** Handlers with local variables *)

Definition lruns (a k : string) {A} (P : world -> locals -> Prop) (m : LM A)
    (Q : A -> world -> locals -> Prop) (X : world -> locals -> Prop) : Prop :=
  forall w l, Inv w -> P w l ->
    wsteps a k w (m (w, l)).1.1 /\
    match (m (w, l)).2 with
    | Ok x => Q x (m (w, l)).1.1 (m (w, l)).1.2
    | Raise _ => X (m (w, l)).1.1 (m (w, l)).1.2
    end.

Lemma lruns_bind a k {A B} P (m : LM A) Q (f : A -> LM B) R X :
  lruns a k P m Q X -> (forall x, lruns a k (Q x) (f x) R X) -> lruns a k P (x ← m; f x) R X.
Proof.
  intros Hm Hf w l Hinv HP. destruct (Hm w l Hinv HP) as [Hs HQ]. unfold mbind, M_bind.
  destruct (m (w, l)) as [[w1 l1] [x|e]]; simpl in *; [|done].
  destruct (Hf x w1 l1) as [Hs2 HR]; [by eapply wsteps_inv|done|]. split; [by etransitivity|done].
Qed.

(** What the locals and the stored state have in common while a unit is
    being generated. *)
Definition lok (a k : string) (w : world) (l : locals) : Prop :=
  ctx a k (l_task l) None [r_run_id (l_run l)] w /\ t_status (l_task l) = TaskStatus.GENERATING /\
  r_task_id (l_run l) = k /\ is_Some (r_started_at (l_run l)) /\ o_task_id (l_outline l) = k /\
  r_status (l_run l) <> RunStatus.FAILED.

(** After an exception: nothing recorded yet, or the failure is recorded. *)
Definition lraised (a k : string) (w : world) (l : locals) : Prop :=
  lok a k w l \/ r_status (l_run l) = RunStatus.FAILED.

Lemma lruns_lift a k {A} (m : WM A) :
  (forall ids, quiet a k ids m) -> lruns a k (lok a k) (lift m) (fun _ => lok a k) (lraised a k).
Proof.
  intros Hm w l Hinv Hl. assert (Hl' := Hl). destruct Hl' as (Hc & Hrest).
  assert (Hr : forall id, id ∈ [r_run_id (l_run l)] -> run_of k id (w_repo w)) by apply Hc.
  destruct (Hm [r_run_id (l_run l)] w Hinv (ctx_owned _ _ _ _ _ _ Hc) Hr) as (Hs & Ht & Hi).
  assert (Hc2 : ctx a k (l_task l) None [r_run_id (l_run l)] (m w).1) by (by eapply ctx_frame).
  unfold lift; cbn [fst snd]. destruct (m w) as [w1 [x|e]]; simpl in *; (split; [done|]);
    [|left]; by split.
Qed.

Lemma lruns_assign a k (f : locals -> locals) :
  (forall w l, lok a k w l -> lok a k w (f l)) ->
  lruns a k (lok a k) (assign f) (fun _ => lok a k) (lraised a k).
Proof. intros Hf w l Hinv Hl. split; [apply rtc_refl|]. by apply Hf. Qed.

Lemma lruns_vars a k P X : lruns a k P local_vars (fun x w l => P w l /\ x = l) X.
Proof. intros w l Hinv Hl. split; [apply rtc_refl|]. done. Qed.

(** Reading the locals: the continuation may rely on what [lok] says of them. *)
Lemma lruns_read a k {B} (f : locals -> LM B) R X :
  (forall l0, t_task_id (l_task l0) = k -> o_task_id (l_outline l0) = k ->
     lruns a k (fun w l => lok a k w l /\ l0 = l) (f l0) R X) ->
  lruns a k (lok a k) (x ← local_vars; f x) R X.
Proof.
  intros Hf. eapply lruns_bind; [apply lruns_vars|]. intros l0 w l Hinv [Hl ->]. apply Hf; [|apply Hl|done|done].
  destruct Hl as ((_ & Hk & _) & _). done.
Qed.

Lemma lruns_drop a k {B} (m : LM B) R X (phi : world -> locals -> Prop) :
  lruns a k (lok a k) m R X -> lruns a k (fun w l => lok a k w l /\ phi w l) m R X.
Proof. intros Hm w l Hinv [Hl _]. by apply Hm. Qed.

Lemma lruns_liftR a k {A} (r : result exc A) :
  lruns a k (lok a k) (liftR r) (fun _ => lok a k) (lraised a k).
Proof. intros w l Hinv Hl. split; [apply rtc_refl|]. destruct r; [done|by left]. Qed.

Lemma lruns_ret a k {A} (x : A) : lruns a k (lok a k) (mret x) (fun _ => lok a k) (lraised a k).
Proof. intros w l Hinv Hl. split; [apply rtc_refl|done]. Qed.

Lemma lok_on_unit a k f w l : lok a k w l -> lok a k w (on_unit f l).
Proof. intros (? & ? & ? & ? & ? & ?). by split_and!. Qed.

Lemma lok_rebuild a k w l : lok a k w l -> lok a k w (rebuild l).
Proof. intros (? & ? & ? & ? & ? & ?). by split_and!. Qed.

Lemma lok_waiting a k w l : lok a k w l -> lok a k w (on_run (run_set_status RunStatus.WAITING_USER) l).
Proof. intros (? & ? & ? & ? & ? & ?). by split_and!. Qed.

Lemma lruns_save_outline a k : lruns a k (lok a k) save_locals_outline (fun _ => lok a k) (lraised a k).
Proof.
  apply lruns_read. intros l0 _ Ho. apply lruns_drop, lruns_lift. intros ids.
  apply quiet_write; [|done..]. intros n r Hr. by constructor.
Qed.

Lemma lruns_save_run a k : lruns a k (lok a k) save_locals_run (fun _ => lok a k) (lraised a k).
Proof.
  intros w l Hinv Hl. assert (Hl' := Hl). destruct Hl' as (Hc & Hst & Hrt & Hsa & Hout & Hnf).
  assert (Hr : forall id, id ∈ [r_run_id (l_run l)] -> run_of k id (w_repo w)) by apply Hc.
  assert (Hmy : my_run k [r_run_id (l_run l)] (l_run l)) by (split_and!; [done|done|set_solver]).
  destruct (quiet_save_run a k _ _ Hmy w Hinv (ctx_owned _ _ _ _ _ _ Hc) Hr) as (Hs & Ht & Hi).
  assert (Hc2 := ctx_frame _ _ _ _ _ _ _ Hs Ht Hi Hc).
  unfold save_locals_run, lift, local_vars, mbind, M_bind; cbn [fst snd].
  destruct (repo_try (save_run (l_run l)) w) as [w1 [x|e]]; simpl in *; (split; [done|]);
    [|left]; by split_and!.
Qed.

(** ** The failure path *)

Definition recorded (w : world) (l : locals) : Prop := r_status (l_run l) = RunStatus.FAILED.

Lemma transition_failed v : transition TaskStatus.GENERATING TaskStatus.FAILED v v = Ok TaskStatus.FAILED.
Proof. unfold transition. by rewrite Z.eqb_refl. Qed.

(** The failure path without the local variables. *)
Definition fail_program (e : exc) (l : locals) : WM unit :=
  at_ ← now;
  ended_at ← now;
  let o := l_outline (rebuild (on_unit (unit_set_status UnitStatus.FAILED) l)) in
  let t := task_bump at_ (task_set_status TaskStatus.FAILED (l_task l)) in
  let r := run_set_ended ended_at (run_set_error e (run_set_status RunStatus.FAILED (l_run l))) in
  repo_do (save_outline o);;
  repo_do (save_task t);;
  repo_try (save_run r);;
  emit_event (t_task_id t) "RunFailed" [("node", JStr "GENERATE_FIRST_UNIT")];;
  checkpoint t r "GENERATE_FIRST_UNIT_FAILED".

Lemma fail_unit_program e w l :
  t_status (l_task l) = TaskStatus.GENERATING ->
  (fail_unit e (w, l)).1.1 = (fail_program e l w).1 /\ (fail_unit e (w, l)).2 = Ok tt /\
  recorded (fail_unit e (w, l)).1.1 (fail_unit e (w, l)).1.2.
Proof.
  intros Hst. destruct l as [t run o i u]. cbn in Hst.
  unfold fail_unit, assign, liftR, mbind, M_bind. cbn [fst snd local_vars on_unit rebuild l_task].
  rewrite Hst, transition_failed. by split_and!.
Qed.

Lemma fail_program_runs a k e l :
  t_status (l_task l) = TaskStatus.GENERATING -> r_task_id (l_run l) = k ->
  is_Some (r_started_at (l_run l)) -> o_task_id (l_outline l) = k -> t_task_id (l_task l) = k ->
  runs_as a k (ctx a k (l_task l) None [r_run_id (l_run l)]) (fail_program e l) (fun _ _ => True).
Proof.
  intros Hst Hrt Hsa Ho Hk. unfold fail_program. wf_step. wf_step. cbv zeta.
  eapply runs_bind; [by apply runs_save_outline|]. intros ?. cbv beta.
  eapply runs_bind; [apply runs_save_task; [done|]|].
  { split_and!; try done. right. cbn [t_status task_bump task_set_status]. rewrite Hst. simpl. set_solver. }
  intros ?. cbv beta. eapply runs_bind; [apply runs_save_run; [done|done|set_solver]|]. intros ?. cbv beta.
  eapply runs_bind; [by apply runs_event|]. intros ?. cbv beta. eapply runs_post, runs_checkpoint.
Qed.

Lemma fail_unit_runs a k e :
  lruns a k (lok a k) (fail_unit e) (fun _ => recorded) (fun _ _ => True).
Proof.
  intros w l Hinv Hl. destruct Hl as (Hc & Hst & Hrt & Hsa & Ho & _).
  assert (Hk : t_task_id (l_task l) = k) by apply Hc.
  destruct (fail_unit_program e w l Hst) as (Hw & Hres & Hrec). rewrite Hw, Hres. split; [|by rewrite <- Hw].
  by apply (fail_program_runs a k e l Hst Hrt Hsa Ho Hk).
Qed.

Lemma on_draft_error_runs a k {A} (m : LM A) :
  lruns a k (lok a k) m (fun _ => lok a k) (lok a k) ->
  lruns a k (lok a k) (on_draft_error m) (fun _ => lok a k) (lraised a k).
Proof.
  intros Hm w l Hinv Hl. destruct (Hm w l Hinv Hl) as [Hs Hout]. unfold on_draft_error.
  destruct (m (w, l)) as [[w1 l1] [x|e]]; simpl in *; [done|].
  destruct e; try (split; [done|by left]). unfold mbind, M_bind.
  destruct (fail_unit_runs a k ModelOutputError w1 l1 (wsteps_inv _ _ _ _ Hinv Hs) Hout) as [Hs2 Hr].
  assert (Hst : t_status (l_task l1) = TaskStatus.GENERATING) by apply Hout.
  destruct (fail_unit_program ModelOutputError w1 l1 Hst) as (_ & Hres & Hrec).
  destruct (fail_unit ModelOutputError (w1, l1)) as [[w2 l2] [u|e]]; simpl in *; [|done].
  split; [by etransitivity|by right].
Qed.

(** ** Generating a unit *)

Lemma lruns_result a k k' :
  k' = k -> lruns a k (lok a k) (lift (repo_get (snapshot k'))) (fun x _ _ => of_task k x) (lraised a k).
Proof.
  intros -> w l Hinv Hl. unfold lift, repo_get; cbn. split; [apply rtc_refl|].
  destruct (snapshot k (w_repo w)) as [s|e] eqn:Hs; [|by left].
  by destruct (snapshot_spec _ _ _ _ Hinv Hs) as (_ & _ & Hok); apply Hok.
Qed.

Lemma park_unit_runs a k ty p node :
  lruns a k (lok a k) (park_unit ty p node) (fun x _ _ => of_task k x) (lraised a k).
Proof.
  unfold park_unit. eapply lruns_bind; [apply lruns_assign, lok_on_unit|]. intros ?. cbv beta.
  eapply lruns_bind; [apply lruns_assign, lok_rebuild|]. intros ?. cbv beta.
  eapply lruns_bind; [apply lruns_assign, lok_waiting|]. intros ?. cbv beta.
  eapply lruns_bind; [apply lruns_save_outline|]. intros ?. cbv beta.
  eapply lruns_bind; [apply lruns_save_run|]. intros ?. cbv beta.
  apply lruns_read. intros l0 Hk _. apply lruns_drop.
  eapply lruns_bind; [apply lruns_lift; intros; by apply quiet_event|]. intros ?. cbv beta.
  eapply lruns_bind; [apply lruns_lift; intros; apply quiet_checkpoint|]. intros ?. cbv beta.
  by apply lruns_result.
Qed.

Lemma ground_unit_runs a k context draft :
  lruns a k (lok a k) (ground_unit context draft) (fun _ => lok a k) (lraised a k).
Proof.
  unfold ground_unit. destruct grounding_service as [service|]; [|apply lruns_ret].
  apply lruns_read. intros l0 Hk _. apply lruns_drop.
  eapply lruns_bind; [apply lruns_lift; intros; eapply quiet_consumes, consumes_new_id|]. intros rid. cbv beta.
  eapply lruns_bind; [apply lruns_liftR|]. intros req. cbv beta. eapply lruns_bind; [apply lruns_liftR|]. intros res. cbv beta.
  eapply lruns_bind.
  { apply lruns_lift. intros ids. apply quiet_write; [|done..]. intros n r Hr. rewrite Hk. by constructor. }
  intros ?. cbv beta. eapply lruns_bind; [apply lruns_assign, lok_on_unit|]. intros ?. cbv beta. apply lruns_ret.
Qed.

Lemma present_unit_runs a k content :
  lruns a k (lok a k) (present_unit content) (fun x _ _ => of_task k x) (lraised a k).
Proof.
  unfold present_unit. eapply lruns_bind; [apply lruns_assign, lok_on_unit|]. intros ?. cbv beta.
  apply lruns_read. intros l0 _ _. apply lruns_drop, park_unit_runs.
Qed.

Lemma block_unit_runs a k res :
  lruns a k (lok a k) (block_unit res) (fun x _ _ => of_task k x) (lraised a k).
Proof.
  unfold block_unit. eapply lruns_bind; [apply lruns_assign, lok_on_unit|]. intros ?. cbv beta.
  apply lruns_read. intros l0 _ _. apply lruns_drop, park_unit_runs.
Qed.

Lemma draft_runs a k brief l0 context (nodes : dict string OutlineNode) :
  lruns a k (lok a k)
    (s ← lift (repo_get (snapshot (t_task_id (l_task l0))));
     lift (invoke_validated "generate_confirmation_unit"
             (unit_payload brief (l_outline l0) (l_unit l0) (ws_sections s) context)
             (validate_unit_draft_for_nodes (keys nodes)))) (fun _ => lok a k) (lok a k).
Proof.
  assert (Hq : forall A (m : WM A), (forall ids, quiet a k ids m) ->
    lruns a k (lok a k) (lift m) (fun _ => lok a k) (lok a k)).
  { intros A m Hm w l Hinv Hl. destruct (lruns_lift a k m Hm w l Hinv Hl) as [Hs Hout].
    split; [done|]. unfold lift in *; cbn [fst snd] in *. destruct (m w) as [w1 [x|e]]; simpl in *; [done|].
    destruct Hout as [?|Hf]; [done|]. by destruct Hl as (_ & _ & _ & _ & _ & []). }
  eapply lruns_bind; [apply Hq; intros; apply quiet_get|]. intros s. cbv beta.
  apply Hq. intros. eapply quiet_consumes, consumes_invoke.
Qed.

Lemma generate_unit_inner_runs a k brief :
  lruns a k (lok a k) (generate_unit_inner brief) (fun x _ _ => of_task k x) (lraised a k).
Proof.
  unfold generate_unit_inner. apply lruns_read. intros l0 _ _. apply lruns_drop.
  eapply lruns_bind; [apply lruns_liftR|]. intros context. cbv beta zeta.
  eapply lruns_bind; [apply on_draft_error_runs, draft_runs|]. intros draft. cbv beta.
  eapply lruns_bind; [apply lruns_liftR|]. intros drafts. cbv beta.
  eapply (lruns_bind _ _ _ _ (fun _ => lok a k)).
  { destruct drafts; [apply lruns_assign, lok_on_unit|apply lruns_ret]. }
  intros ?. cbv beta. eapply lruns_bind; [apply ground_unit_runs|]. intros g. cbv beta.
  destruct g as [res|]; [destruct (gr_confirmable res)|];
    auto using present_unit_runs, block_unit_runs.
Qed.

Lemma generate_unit_runs a k brief l :
  t_status (l_task l) = TaskStatus.GENERATING -> started_run k (l_run l) -> o_task_id (l_outline l) = k ->
  runs_as a k (ctx a k (l_task l) None [r_run_id (l_run l)]) (generate_unit brief l) (fun x _ => of_task k x).
Proof.
  intros Hst (Hrt & Hsa & Hrs) Ho w Hinv Hc.
  assert (Hl : lok a k w l) by (split_and!; [done..|by rewrite Hrs]).
  destruct (generate_unit_inner_runs a k brief w l Hinv Hl) as [Hs Hout]. unfold generate_unit.
  destruct (generate_unit_inner brief (w, l)) as [[w1 l1] [x|e]]; simpl in *;
    [split; [done|by intros ? [= <-]]|].
  case_bool_decide as Hf; simpl; [done|].
  destruct Hout as [Hok|?]; [|done].
  destruct (fail_unit_runs a k e w1 l1 (wsteps_inv _ _ _ _ Hinv Hs) Hok) as [Hs2 _].
  destruct (fail_unit e (w1, l1)) as [[w2 l2] [u|e2]]; simpl in *; (split; [by etransitivity|done]).
Qed.

(** ** The remaining commands *)

Lemma runs_keep_R a j P {A} (r : result exc A) : runs_as a j P (liftR r) (fun _ => P).
Proof. by apply runs_liftR. Qed.

Lemma ctx_weaken_ids a k t key ids ids' w : ids' ⊆ ids -> ctx a k t key ids w -> ctx a k t key ids' w.
Proof. intros Hsub (? & ? & ? & ? & ?). split_and!; auto. Qed.

Lemma runs_generate_unit a k t ids brief l :
  l_task l = t -> t_status t = TaskStatus.GENERATING -> started_run k (l_run l) ->
  r_run_id (l_run l) ∈ ids -> o_task_id (l_outline l) = k ->
  runs_as a k (ctx a k t None ids) (generate_unit brief l) (fun x _ => of_task k x).
Proof.
  intros <- Hst Hrun Hin Ho. eapply runs_weaken; [by apply (generate_unit_runs a k)| |done].
  intros w. apply ctx_weaken_ids. set_solver.
Qed.

Lemma confirm_outline_runs c :
  runs_as (co_actor_id c) (co_task_id c) (fun _ => True) (confirm_outline c)
    (fun x w => key_used (co_actor_id c) (co_idempotency_key c) (confirm_outline_hash c) (t_task_id (ws_task x)) w).
Proof.
  unfold confirm_outline. apply runs_replay. apply runs_expect. intros s Hs Hv.
  assert (Hs' := Hs). destruct Hs' as (Hrt & Hsa & Hout & _ & Hk).
  apply runs_expect_outline. intros o Ho Hst.
  eapply runs_bind; [apply runs_keep_R|]. intros ?. cbv beta.
  eapply runs_bind; [apply runs_finish_old; [done|done|set_solver]|]. intros ?. cbv beta.
  apply runs_start_run; [done|]. intros run Hrun.
  apply runs_record; [done..|]. wf_step.
  eapply (runs_bind _ _ _ _ (fun _ => ctx (co_actor_id c) (co_task_id c) (ws_task s) None _)).
  { destruct (o_confirmation_units o); [apply runs_raise|by apply runs_ret]. }
  intros u. cbv zeta. apply runs_move; [apply runs_now|]. intros t' Hev Ht'.
  assert (Hk' : t_task_id t' = co_task_id c) by (by eapply evolves_id).
  eapply runs_bind; [apply runs_save_outline; exact (Hout o Ho)|]. intros ?. cbv beta.
  eapply runs_bind; [apply runs_save_task; [done|by apply evolves_set_sequence]|]. intros ?. cbv beta.
  eapply runs_bind; [by apply runs_event|]. intros ?. cbv beta.
  apply runs_brief_of. intros b. apply runs_generate_unit; [done|done|done|set_solver|exact (Hout o Ho)].
Qed.

Lemma runs_confirm_sections a k t key ids all u r actor drafts :
  runs_as a k (ctx a k t key ids) (confirm_sections all u r actor drafts) (fun _ => ctx a k t key ids).
Proof.
  induction drafts as [|d rest IH]; [by apply runs_ret|]. cbn [confirm_sections].
  wf_step. wf_step. wf_step. eapply runs_bind; [exact IH|]. intros l. cbv beta. by apply runs_ret.
Qed.

Lemma runs_save_sections a k t key ids k' l :
  k' = k ->
  runs_as a k (ctx a k t key ids) (repo_do (fun r => foldl (fun r x => save_section k' x r) r l))
    (fun _ => ctx a k t key ids).
Proof.
  intros ->. induction l as [|s l IH].
  - intros w Hinv Hc. unfold repo_do. cbn. destruct w. split; [apply rtc_refl|done].
  - intros w Hinv Hc. destruct (runs_save_section a k t key ids s w Hinv Hc) as [Hs1 Hc1].
    specialize (Hc1 tt eq_refl). destruct (IH _ (wsteps_inv _ _ _ _ Hinv Hs1) Hc1) as [Hs2 Hc2].
    split; [by etransitivity|exact Hc2].
Qed.

Lemma continue_with_unit_runs a k t ids run o i u s :
  t_task_id t = k -> t_status t = TaskStatus.GENERATING -> started_run k run -> r_run_id run ∈ ids ->
  o_task_id o = k ->
  runs_as a k (ctx a k t None ids) (continue_with_unit t run o i u s) (fun x _ => of_task k x).
Proof.
  intros Hk Hst Hrun Hin Ho. unfold continue_with_unit. cbv zeta. wf_step.
  eapply runs_bind; [by apply runs_save_outline|]. intros ?. cbv beta.
  eapply runs_bind; [apply runs_save_task; [done|apply evolves_bump]|]. intros ?. cbv beta.
  apply runs_brief_of. intros b. by apply runs_generate_unit.
Qed.

Lemma runs_check_quality a k t key ids task d o current :
  t_task_id task = k ->
  runs_as a k (ctx a k t key ids) (check_quality task d o current) (fun _ => ctx a k t key ids).
Proof.
  intros <-. unfold check_quality. destruct quality_service; [|by apply runs_ret].
  wf_step. cbv zeta. eapply runs_bind; [apply runs_save_quality|]. intros ?. cbv beta. by apply runs_event.
Qed.

Lemma render_document_runs a k t ids run o v new s :
  t_task_id t = k -> my_run k ids run ->
  runs_as a k (ctx a k t None ids) (render_document t run o v new s) (fun x _ => of_task k x).
Proof.
  intros Hk (Hr1 & Hr2 & Hr3). unfold render_document. apply runs_move; [apply runs_now|]. intros t' Hev _.
  assert (Hk' : t_task_id t' = k) by (by eapply evolves_id).
  eapply runs_bind; [by apply runs_save_task|]. intros ?. cbv beta zeta.
  apply runs_brief_of. intros b. do 2 (eapply runs_bind; [apply runs_keep_R|intros ?; cbv beta]).
  wf_step. wf_step. eapply runs_bind; [by apply runs_save_document|]. intros ?. cbv beta.
  eapply runs_bind; [by apply runs_check_quality|]. intros ?. cbv beta.
  eapply runs_bind; [by apply runs_event|]. intros ?. cbv beta. wf_step.
  eapply runs_bind; [by apply runs_save_run|]. intros ?. cbv beta. wf_step. by apply runs_result.
Qed.

Lemma confirm_unit_runs c :
  runs_as (cu_actor_id c) (cu_task_id c) (fun _ => True) (confirm_unit c)
    (fun x w => key_used (cu_actor_id c) (cu_idempotency_key c) (confirm_unit_hash c) (t_task_id (ws_task x)) w).
Proof.
  unfold confirm_unit. apply runs_replay. apply runs_expect. intros s Hs Hv.
  destruct Hs as (Hrt & Hsa & Hout & _ & Hk). apply runs_expect_outline. intros o Ho Hst.
  eapply runs_bind; [apply runs_keep_R|]. intros ?. cbv beta. unfold confirm_unit_accepted. cbv zeta.
  eapply runs_bind; [apply runs_finish_old; [done|done|set_solver]|]. intros ?. cbv beta.
  apply runs_start_run; [done|]. intros run Hrun. apply runs_record; [done..|].
  eapply (runs_bind _ _ _ _ (fun _ => ctx (cu_actor_id c) (cu_task_id c) (ws_task s) None _)).
  { destruct (find_unit _ _); [by apply runs_ret|apply runs_raise]. }
  intros found. cbv zeta. eapply runs_bind; [apply runs_confirm_sections|]. intros new. cbv beta.
  eapply runs_bind; [apply runs_save_outline; exact (Hout o Ho)|]. intros ?. cbv beta.
  eapply runs_bind; [by apply runs_save_sections|]. intros ?. cbv beta.
  eapply runs_bind; [by apply runs_event|]. intros ?. cbv beta.
  destruct (next_unit _ _) as [[i v]|].
  - apply continue_with_unit_runs; [done|done|done|set_solver|exact (Hout o Ho)].
  - destruct Hrun as (? & ? & _). apply render_document_runs; [done|]. split_and!; [done|done|set_solver].
Qed.

Lemma reopen_units_runs a key s o reopen_ids e h v ty p :
  snap_ok (t_task_id (ws_task s)) s -> o ∈ ws_outlines s ->
  runs_as a (t_task_id (ws_task s)) (ctx a (t_task_id (ws_task s)) (ws_task s) (Some key) [r_run_id (ws_run s)])
    (reopen_units s o reopen_ids e a key h v ty p)
    (fun x w => key_used a key h (t_task_id (ws_task x)) w).
Proof.
  intros (Hrt & Hsa & Hout & _) Ho. unfold reopen_units. cbv zeta.
  eapply (runs_bind _ _ _ _ (fun _ => ctx a (t_task_id (ws_task s)) (ws_task s) (Some key) [r_run_id (ws_run s)])).
  { destruct (revision_target _ _); [by apply runs_ret|apply runs_raise]. }
  intros target. apply runs_move; [apply runs_now|]. intros t' Hev Ht'.
  assert (Hk' : t_task_id t' = t_task_id (ws_task s)) by (by eapply evolves_id).
  apply runs_start_run; [done|]. intros run Hrun.
  eapply runs_bind; [apply runs_save_outline; exact (Hout o Ho)|]. intros ?. cbv beta.
  eapply runs_bind; [apply runs_save_task; [done|by apply evolves_set_sequence]|]. intros ?. cbv beta.
  apply runs_record; [done..|]. eapply runs_bind; [by apply runs_event|]. intros ?. cbv beta.
  apply runs_brief_of. intros b. apply runs_generate_unit; [done|done|done|set_solver|exact (Hout o Ho)].
Qed.

Lemma approve_revision_plan_runs c :
  runs_as (ar_actor_id c) (ar_task_id c) (fun _ => True) (approve_revision_plan c)
    (fun x w => key_used (ar_actor_id c) (ar_idempotency_key c) (approve_hash c) (t_task_id (ws_task x)) w).
Proof.
  unfold approve_revision_plan. apply runs_replay. apply runs_expect. intros s Hs Hv.
  apply runs_expect_outline. intros o Ho Hst.
  eapply runs_bind; [apply runs_keep_R|]. intros ?. cbv beta zeta.
  apply runs_if; [intros _; apply runs_raise|intros _].
  assert (Hk : t_task_id (ws_task s) = ar_task_id c) by apply Hs. rewrite <- Hk in *. by apply reopen_units_runs.
Qed.

Lemma reopen_prd_runs c :
  runs_as (rp_actor_id c) (rp_task_id c) (fun _ => True) (reopen_prd c)
    (fun x w => key_used (rp_actor_id c) (rp_idempotency_key c) (reopen_hash c (strip (rp_reason c))) (t_task_id (ws_task x)) w).
Proof.
  unfold reopen_prd. apply runs_if; [intros _; apply runs_raise|intros _].
  apply runs_replay. apply runs_expect. intros s Hs Hv.
  apply runs_expect_outline. intros o Ho Hst. apply runs_if; [intros _; apply runs_raise|intros _].
  assert (Hk : t_task_id (ws_task s) = rp_task_id c) by apply Hs. rewrite <- Hk in *. by apply reopen_units_runs.
Qed.

(** [finalize_prd] keeps the new run's identifier for a while before saving it. *)
Definition ctx_new_run (a k : string) (t : Task) (key : option string) (ids : list string) (id : string)
    (w : world) : Prop :=
  ctx a k t key ids w /\ runs (w_repo w) !! id = None /\ issued "run" (w_uuids w) id.

Lemma runs_new_run_id a k t key ids {B} (cont : string -> WM B) R :
  (forall id, runs_as a k (ctx_new_run a k t key ids id) (cont id) R) ->
  runs_as a k (ctx a k t key ids) (id ← new_id "run"; cont id) R.
Proof.
  intros Hc. eapply (runs_bind _ _ _ _ (fun id => ctx_new_run a k t key ids id)); [|done].
  intros w Hinv Hw. destruct (runs_new_id a k t key ids "run" w Hinv Hw) as [Hs Hpost].
  split; [done|]. intros id [= <-]. split; [by eapply Hpost|]. split.
  - cbn [new_id fst w_repo].
    destruct (runs (w_repo w) !! ("run" +:+ "-" +:+ uuid4_hex (w_uuids w))) eqn:E; [|done].
    destruct (inv_run _ _ Hinv _ _ E) as (_ & Hi & _). by apply issued_fresh in Hi.
  - exists (w_uuids w). split; [simpl; lia|done].
Qed.

Lemma runs_new_run_consumes a k t key ids id {A B} (m : WM A) phi (cont : A -> WM B) R :
  consumes m phi -> (forall x, phi x -> runs_as a k (ctx_new_run a k t key ids id) (cont x) R) ->
  runs_as a k (ctx_new_run a k t key ids id) (x ← m; cont x) R.
Proof.
  intros Hm Hc. eapply (runs_bind _ _ _ _ (fun x w => ctx_new_run a k t key ids id w /\ phi x)).
  2: { intros x. apply runs_pure. auto. }
  intros w Hinv (Hw & Hr & Hi). destruct (Hm w) as (Hrepo & Hu & Hp).
  assert (Hs : wsteps a k w (m w).1) by (by apply rtc_once; constructor).
  split; [done|]. intros x Hx. split; [|auto]. unfold ctx_new_run. rewrite Hrepo. split_and!; [|done|].
  - eapply ctx_frame; [exact Hs|by rewrite Hrepo..|done].
  - by eapply issued_mono.
Qed.

Lemma consumes_move_evolves t target v upd :
  consumes upd (fun _ => True) -> consumes (move_task t target v upd) (task_evolves t).
Proof.
  intros Hu. eapply (consumes_bind _ (fun s => s ∈ allowed_transitions (t_status t))).
  - intros w. split_and!; [done..|]. unfold liftR, transition. cbn. intros x. repeat case_match; intros [= <-].
    done.
  - intros s Hs. eapply consumes_bind; [exact Hu|]. intros at_ _. apply consumes_ret.
    split_and!; try done. by right.
Qed.

Lemma runs_save_new_run a k t key ids id run :
  r_run_id run = id -> r_task_id run = k -> is_Some (r_started_at run) ->
  runs_as a k (ctx_new_run a k t key ids id) (repo_try (save_run run)) (fun _ => ctx a k t key ids).
Proof.
  intros <- Hk Hst w Hinv (Hc & Hn & Hi). unfold repo_try, save_run.
  destruct (active (r_status run) && active_conflict run (w_repo w)) eqn:Hconf; cbn [fst snd].
  { destruct w; split; [apply rtc_refl|done]. }
  assert (Hs : wsteps a k w (with_repo (set_runs (<[r_run_id run := run]> (runs (w_repo w))) (w_repo w)) w)).
  { apply step_to, write_run; [done|by eapply ctx_owned|done|done|congruence|done]. }
  split; [done|]. intros _ _. by eapply ctx_frame.
Qed.

Lemma check_finalize_document c s d : check_finalize c s = Ok d -> d ∈ ws_documents s.
Proof.
  unfold check_finalize. destruct (last (ws_documents s)) as [d0|] eqn:E; [|done].
  intros Hd. assert (d0 = d) as -> by (repeat case_match; by simplify_eq).
  apply last_Some in E as [l ->]. set_solver.
Qed.

Lemma finalize_prd_runs c :
  runs_as (fp_actor_id c) (fp_task_id c) (fun _ => True) (finalize_prd c)
    (fun x w => key_used (fp_actor_id c) (fp_idempotency_key c) (finalize_hash c) (t_task_id (ws_task x)) w).
Proof.
  unfold finalize_prd. apply runs_replay. apply runs_expect. intros s Hs Hv.
  destruct Hs as (Hrt & Hsa & _ & Hdoc & Hk).
  eapply (runs_bind _ _ _ _ (fun d w => ctx (fp_actor_id c) (fp_task_id c) (ws_task s)
    (Some (fp_idempotency_key c)) [r_run_id (ws_run s)] w /\ d ∈ ws_documents s)).
  { apply runs_liftR. intros d w Hd Hw. split; [done|]. by eapply check_finalize_document. }
  intros d. apply runs_pure. intros Hd. cbv zeta. apply runs_new_run_id. intros id.
  do 3 (eapply runs_new_run_consumes; [apply consumes_now|intros ? _]).
  eapply runs_new_run_consumes; [apply consumes_move_evolves, consumes_now|]. intros t' Hev.
  assert (Hk' : t_task_id t' = fp_task_id c) by (by eapply evolves_id).
  eapply runs_bind; [by apply (runs_save_new_run _ _ _ _ _ id)|]. intros ?. cbv beta.
  eapply runs_bind; [apply runs_save_document; exact (Hdoc d Hd)|]. intros ?. cbv beta.
  eapply runs_bind; [by apply runs_save_task|]. intros ?. cbv beta.
  apply runs_record; [done..|]. eapply runs_bind; [by apply runs_event|]. intros ?. cbv beta.
  wf_step. by apply runs_result.
Qed.

(** The actor of a command. *)
Definition actor_of (c : command) : string :=
  match c with
  | CStart c => st_actor_id c | CReply c => rt_actor_id c | CConfirmOutline c => co_actor_id c
  | CConfirmUnit c => cu_actor_id c | CApprove c => ar_actor_id c | CReopen c => rp_actor_id c
  | CFinalize c => fp_actor_id c
  end.

(** The task a command works on: the one it names, or a new one. *)
Definition concerns (c : command) (w : world) (k : string) : Prop :=
  match c with
  | CStart _ => tasks (w_repo w) !! k = None
  | CReply c => k = rt_task_id c | CConfirmOutline c => k = co_task_id c
  | CConfirmUnit c => k = cu_task_id c | CApprove c => k = ar_task_id c
  | CReopen c => k = rp_task_id c | CFinalize c => k = fp_task_id c
  end.

Lemma handle_runs c w : Inv w -> exists k, concerns c w k /\ wsteps (actor_of c) k w (handle c w).1.
Proof.
  intros Hinv. destruct c as [c|c|c|c|c|c|c]; cbn [handle actor_of concerns].
  1: { destruct (start_task_runs c w Hinv I) as (k & ? & ? & _). by exists k. }
  all: eexists; split; [reflexivity|].
  - by apply reply_to_task_runs.
  - by apply confirm_outline_runs.
  - by apply confirm_unit_runs.
  - by apply approve_revision_plan_runs.
  - by apply reopen_prd_runs.
  - by apply finalize_prd_runs.
Qed.

Lemma handle_inv c w : Inv w -> Inv (handle c w).1.
Proof. intros Hinv. destruct (handle_runs c w Hinv) as (k & _ & Hs). by eapply wsteps_inv. Qed.

Lemma run_commands_inv cs w : Inv w -> Inv (run_commands cs w).
Proof.
  unfold run_commands. revert w. induction cs as [|c cs IH]; intros w Hinv; [done|].
  by apply IH, handle_inv.
Qed.
End units.
