(* ===== verification/WorkflowFacts.v ===== *)
(** * Properties of the workflow under every sequence of commands

    What holds of the repository after any commands of any actors, whatever
    the model answers and whichever commands raise. *)
From stdpp Require Import base list sets strings pretty relations.
From Stdlib Require Import ZArith.
From S2P Require Import Prelude PyDict Json Domain Grounding Quality.
From S2P Require Import WorkflowRepo WorkflowNodes Workflow WorkflowSteps WorkflowLogic.
From S2P Require Import WorkflowHandlers WorkflowUnits.

Open Scope Z_scope.

(** ** A concrete environment

    Identifiers count up, the clock ticks, and the model answers with a small
    two-unit PRD. *)
Module Demo.
#[export] Existing Instance example_builtins.

Definition one (key : string) : string * json := (key, JArr [JStr "x"]).

Definition demo_complete (history : list model_call) (c : model_call) : result exc json :=
  match mc_payload c with
  | ExtractPayload _ _ =>
      Ok (JObj [("problem", JStr "slow search"); one "target_users"; one "scenarios"; one "goals"; one "scope_in"])
  | OutlinePayload _ =>
      let node title := JObj [("title", JStr title); ("purpose", JStr "p"); ("complexity", JStr "LOW")] in
      Ok (JObj [("title", JStr "PRD"); ("nodes", JArr [node "A"; node "B"])])
  | UnitPayload _ _ _ _ _ _ _ _ => Ok (JObj [("content", JStr "The target behaviour.")])
  end.

Definition demo_env (answer : list model_call -> model_call -> result exc json) : Env :=
  {| uuid4_hex := fun n => pretty n; utc_now := Z.of_nat; complete := answer;
     unit_context_provider := None; grounding_service := Some (ground None);
     quality_service := Some check_document |}.

#[export] Instance demo : Env := demo_env demo_complete.

#[export] Instance demo_unique answer : @UniqueIds (demo_env answer).
Proof. intros i j E. by apply (inj pretty). Qed.

Definition start_cmd : command := CStart (mkStartTask "make search fast" "k1" "alice").
Definition confirm_outline_cmd : command := CConfirmOutline (mkConfirmOutline "task-0" 1 3 "k2" "alice").
Definition confirm_first_cmd : command := CConfirmUnit (mkConfirmUnit "task-0" "unit-8" 4 "k3" "alice").
Definition confirm_second_cmd : command := CConfirmUnit (mkConfirmUnit "task-0" "unit-9" 5 "k4" "alice").
Definition to_review : list command :=
  [start_cmd; confirm_outline_cmd; confirm_first_cmd; confirm_second_cmd].
Definition reviewed : world := run_commands to_review initial_world.
End Demo.

Section facts.
Context `{Builtins} `{UniqueIds}.

Lemma run_commands_steps cs w (R : world -> world -> Prop) :
  (forall w, R w w) -> (forall w1 w2 w3, R w1 w2 -> R w2 w3 -> R w1 w3) ->
  (forall a j w w', Inv w -> wstep a j w w' -> R w w') -> Inv w -> R w (run_commands cs w).
Proof.
  intros Hrefl Htrans Hstep. unfold run_commands. revert w.
  induction cs as [|c cs IH]; intros w Hinv; [apply Hrefl|]. simpl.
  eapply Htrans; [|apply IH; by apply handle_inv].
  destruct (handle_runs c w Hinv) as (k & _ & Hs). revert Hinv Hs. generalize (handle c w).1. intros w' Hinv Hs.
  induction Hs as [|w1 w2 w3 H12 _ IH2]; [apply Hrefl|].
  eapply Htrans; [by eapply Hstep|]. apply IH2. by eapply wstep_inv.
Qed.

(** ** Tasks *)

Definition lifecycle (k : string) (w w' : world) : Prop :=
  forall t, tasks (w_repo w) !! k = Some t ->
    exists t', tasks (w_repo w') !! k = Some t' /\ rtc task_evolves t t'.

Lemma lifecycle_step a j w w' k : Inv w -> wstep a j w w' -> lifecycle k w w'.
Proof.
  intros Hinv [w2 Hr _|r' Hw] t Ht.
  - exists t. by rewrite Hr.
  - destruct Hw; try (by exists t).
    + exists t. split; [|done]. cbn. rewrite dict_lookup_insert_ne; [done|]. congruence.
    + cbn. rewrite dict_lookup_insert. case_decide; [|by exists t]. simplify_eq.
      exists t'. split; [done|]. by apply rtc_once.
Qed.

Lemma evolves_facts t t' :
  rtc task_evolves t t' ->
  t_owner_id t' = t_owner_id t /\ t_version t <= t_version t' /\
  rtc (fun s s' => s' ∈ allowed_transitions s) (t_status t) (t_status t') /\
  (t_version t' = t_version t -> t' = t).
Proof.
  induction 1 as [|t1 t2 t3 (_ & Ho & _ & Hv & Hst) _ (Ho2 & Hv2 & Hst2 & _)].
  - split_and!; [done|lia|apply rtc_refl|done].
  - split_and!; [congruence|lia| |lia]. destruct Hst as [<-|Hst]; [done|]. by eapply rtc_l.
Qed.
End facts.


(** C35: a task never has two active runs: in every state the commands can
    reach, two QUEUED, RUNNING or WAITING_USER runs of one task are the same
    run. *)
Theorem single_active_run `{Builtins} `{UniqueIds} cs k1 k2 r1 r2 :
  let r := w_repo (run_commands cs initial_world) in
  runs r !! k1 = Some r1 -> runs r !! k2 = Some r2 -> r_task_id r1 = r_task_id r2 ->
  active (r_status r1) = true -> active (r_status r2) = true -> k1 = k2.
Proof.
  intros r. apply (inv_active (w_uuids (run_commands cs initial_world)) r).
  apply run_commands_inv, inv_initial.
Qed.

Section facts.
Context `{Builtins} `{UniqueIds}.

(** ** Idempotency *)

Definition command_key (c : command) : string :=
  match c with
  | CStart c => st_idempotency_key c | CReply c => rt_idempotency_key c
  | CConfirmOutline c => co_idempotency_key c | CConfirmUnit c => cu_idempotency_key c
  | CApprove c => ar_idempotency_key c | CReopen c => rp_idempotency_key c
  | CFinalize c => fp_idempotency_key c
  end.

(** The hash of the command's input. *)
Definition command_hash (c : command) : string :=
  match c with
  | CStart c => start_hash (strip (st_message c)) | CReply c => reply_hash c (strip (rt_message c))
  | CConfirmOutline c => confirm_outline_hash c | CConfirmUnit c => confirm_unit_hash c
  | CApprove c => approve_hash c | CReopen c => reopen_hash c (strip (rp_reason c))
  | CFinalize c => finalize_hash c
  end.

(** A command is malformed, or it starts with the replay check. *)
Lemma handle_shape c :
  (forall w, handle c w = (w, Raise InvalidCommand)) \/
  exists m, forall w, handle c w = with_replay (actor_of c) (command_key c) (command_hash c) m w.
Proof.
  destruct c as [c|c|c|c|c|c|c]; cbn [handle actor_of command_key command_hash].
  - unfold start_task, start_task_locked.
    destruct (truthy (strip (st_idempotency_key c))); [|by left].
    destruct (truthy (strip (st_message c))); [|by left]. right. eexists. reflexivity.
  - unfold reply_to_task. case_match; [by left|]. right. eauto.
  - right. unfold confirm_outline. eauto.
  - right. unfold confirm_unit. eauto.
  - right. unfold approve_revision_plan. eauto.
  - unfold reopen_prd. case_match; [by left|]. right. eauto.
  - right. unfold finalize_prd. eauto.
Qed.

Lemma handle_records c w w' s :
  Inv w -> handle c w = (w', Ok s) ->
  key_used (actor_of c) (command_key c) (command_hash c) (t_task_id (ws_task s)) w'.
Proof.
  intros Hinv Hc.
  assert (Hpost : forall x, (handle c w).2 = Ok x ->
    key_used (actor_of c) (command_key c) (command_hash c) (t_task_id (ws_task x)) (handle c w).1).
  { destruct c as [c|c|c|c|c|c|c]; cbn [handle actor_of command_key command_hash].
    - intros x Hx. by destruct (start_task_runs c w Hinv I) as (k & _ & _ & Hp); apply Hp.
    - by apply reply_to_task_runs.
    - by apply confirm_outline_runs.
    - by apply confirm_unit_runs.
    - by apply approve_revision_plan_runs.
    - by apply reopen_prd_runs.
    - by apply finalize_prd_runs. }
  rewrite Hc in Hpost. by apply Hpost.
Qed.

Lemma run_commands_key cs w a key h k :
  Inv w -> key_used a key h k w -> key_used a key h k (run_commands cs w).
Proof.
  intros Hinv. apply (run_commands_steps cs w (fun w w' => key_used a key h k w -> key_used a key h k w')); auto.
  intros b j w1 w2 _ Hs. apply (key_used_stable a b j). by apply rtc_once.
Qed.

(** A task that exists can be shown to its owner. *)
Lemma owned_snapshot_total w a k :
  Inv w -> owned_by a k (w_repo w) ->
  exists s, snapshot_for_owner k a (w_repo w) = Ok s /\ of_task k s.
Proof.
  intros Hinv (t & Ht & Ho).
  assert (Hrun : exists run, latest_run k (w_repo w) = Ok run).
  { destruct (inv_has_run _ _ Hinv _ _ Ht) as (id & run & Hid & Hk). unfold latest_run.
    set (l := List.filter _ _).
    assert (Hin : run ∈ l).
    { apply list_elem_of_In, filter_In. rewrite <- list_elem_of_In. split; [by eapply dict_lookup_values|].
      by apply bool_decide_eq_true. }
    assert (Hst : forall x, x ∈ l -> is_Some (run_time x)).
    { intros x [Hx _]%list_elem_of_In%filter_In.
      apply list_elem_of_In, dict_values_lookup in Hx as [i Hi]; [|apply Hinv].
      destruct (inv_run _ _ Hinv _ _ Hi) as (_ & _ & _ & [z Hz]). unfold run_time. rewrite Hz. eauto. }
    destruct l as [|x [|y l']] eqn:El; [set_solver|eauto|]. rewrite <- El in *.
    destruct (existsb _ l) eqn:E.
    { apply existsb_exists in E as (z & Hz%list_elem_of_In & Hn). destruct (Hst z Hz) as [? Hx].
      by rewrite Hx in Hn. }
    destruct (last _) as [z|] eqn:Hl; [eauto|]. apply last_None in Hl.
    exfalso. assert (Hx : x ∈ sort_by (fun a b => (default 0 (run_time a) <=? default 0 (run_time b))) l)
      by (apply elem_of_sort_by; rewrite El; set_solver). rewrite Hl in Hx. set_solver. }
  destruct Hrun as [run Hrun]. unfold snapshot_for_owner, snapshot, get_task. rewrite Ht. cbn.
  rewrite bool_decide_eq_true_2 by done. cbn. rewrite Hrun. eexists. split; [done|].
  by destruct (inv_task _ _ Hinv _ _ Ht).
Qed.
End facts.

(** C20: commands are idempotent for ever: once a command has returned, every
    later execution of it, after any other commands, changes nothing and
    returns a snapshot of the same task, and a different command under the
    same key of the same actor is refused without a change. *)
Theorem commands_idempotent `{Builtins} `{UniqueIds} cs c s w' cs' :
  handle c (run_commands cs initial_world) = (w', Ok s) ->
  let w2 := run_commands cs' w' in
  (exists s2, handle c w2 = (w2, Ok s2) /\ t_task_id (ws_task s2) = t_task_id (ws_task s)) /\
  (forall c2, actor_of c2 = actor_of c -> command_key c2 = command_key c -> command_hash c2 <> command_hash c ->
     exists e, handle c2 w2 = (w2, Raise e) /\ (e = IdempotencyConflict \/ e = InvalidCommand)).
Proof.
  intros Hc w2. assert (Hinv := run_commands_inv cs initial_world inv_initial).
  assert (Hinv' : Inv w') by (pose proof (handle_inv c _ Hinv) as Hi; by rewrite Hc in Hi).
  assert (Hkey := run_commands_key cs' w' _ _ _ _ Hinv' (handle_records c _ _ _ Hinv Hc)).
  assert (Hinv2 : Inv w2) by (by apply run_commands_inv).
  destruct Hkey as (rec & Hrec & Hh & Ht). fold w2 in Hrec. split.
  - destruct (handle_shape c) as [Hbad|[m Hm]]; [by rewrite Hbad in Hc|].
    rewrite Hm. unfold with_replay, get_repo, mbind, M_bind, get_idempotency. rewrite Hrec.
    rewrite bool_decide_eq_true_2 by done. cbn.
    destruct (owned_snapshot_total w2 (actor_of c) (ir_task_id rec)) as (s2 & Hs2 & Hof);
      [done|by eapply inv_idem|].
    exists s2. unfold owned_snapshot, repo_get. rewrite Hs2. split; [done|]. by rewrite Hof.
  - intros c2 Ha Hk Hne. destruct (handle_shape c2) as [Hbad|[m Hm]]; [exists InvalidCommand; eauto|].
    exists IdempotencyConflict. split; [|by left]. rewrite Hm.
    unfold with_replay, get_repo, mbind, M_bind, get_idempotency. rewrite Ha, Hk, Hrec.
    rewrite bool_decide_eq_false_2 by congruence. done.
Qed.

(** ** Witnesses *)

Import Demo.


Lemma single_active_run_witness :
  exists r1, runs (w_repo (run_commands [start_cmd; confirm_outline_cmd] initial_world)) !! "run-11" = Some r1 /\
    active (r_status r1) = true /\
    forall k2 r2, runs (w_repo (run_commands [start_cmd; confirm_outline_cmd] initial_world)) !! k2 = Some r2 ->
      r_task_id r2 = r_task_id r1 -> active (r_status r2) = true -> k2 = "run-11".
Proof.
  destruct (runs (w_repo (run_commands [start_cmd; confirm_outline_cmd] initial_world)) !! "run-11")
    as [r1|] eqn:E; [|by vm_compute in E].
  exists r1. split; [done|].
  assert (Ha : active (r_status r1) = true) by (vm_compute in E; by injection E as <-).
  split; [done|]. intros k2 r2 E2 Ht Ha2.
  exact (single_active_run [start_cmd; confirm_outline_cmd] k2 "run-11" r2 r1 E2 E Ht Ha2 Ha).
Defined.

Lemma commands_idempotent_witness :
  exists s w', handle start_cmd initial_world = (w', Ok s) /\
    exists s2, handle start_cmd (run_commands [confirm_outline_cmd] w')
      = (run_commands [confirm_outline_cmd] w', Ok s2) /\ t_task_id (ws_task s2) = t_task_id (ws_task s).
Proof.
  destruct (handle start_cmd initial_world) as [w' [s|e]] eqn:E; [|by vm_compute in E].
  exists s, w'. split; [done|].
  apply (commands_idempotent [] start_cmd s w' [confirm_outline_cmd] E).
Defined.
