(* ===== verification/OutlineFacts.v ===== *)
(** * The validators of model output, and the outline a task receives

    The outline drafts that reach the service are well formed, a model call is
    repaired at most once, the confirmed context of a unit holds only the
    newest confirmed sections of its direct dependencies, and the closure of
    the units to reopen is the least set closed under dependents.
    [_generate_outline] turns a validated draft into an outline whose units
    partition its nodes and depend on earlier units only. *)
From stdpp Require Import base list sets strings pretty.
From Stdlib Require Import ZArith.
From S2P Require Import Prelude.
From S2P Require Import PyDict.
From S2P Require Import Json.
From S2P Require Import Domain.
From S2P Require Import Grounding.
From S2P Require Import Quality.
From S2P Require Import WorkflowRepo.
From S2P Require Import WorkflowNodes.
From S2P Require Import Workflow.
From S2P Require Import WorkflowSteps.
From S2P Require Import WorkflowLogic.
From S2P Require Import WorkflowHandlers.
From S2P Require Import WorkflowUnits.
From S2P Require Import WorkflowFacts.

Open Scope Z_scope.

Section outlines.
Context `{Builtins}.

(** ** Nodes *)

(** A node among the nodes before it: a root is on level 1, a child one level
    below a parent that precedes it. *)
Definition node_ok (before : list NodeDraft) (n : NodeDraft) : Prop :=
  truthy (nd_key n) = true /\ ~ (nd_key n ∈ (nd_key <$> before)) /\ 1 <= nd_level n <= 3 /\
  match nd_parent_key n with
  | Some p =>
      if truthy p then exists m, m ∈ before /\ nd_key m = p /\ nd_level n = nd_level m + 1
      else nd_level n = 1
  | None => nd_level n = 1
  end.

Lemma level_of_key_elem nodes key :
  key ∈ (nd_key <$> nodes) -> exists m, m ∈ nodes /\ nd_key m = key /\ level_of_key nodes key = Some (nd_level m).
Proof.
  intros (m & -> & Hm)%list_elem_of_fmap. unfold level_of_key.
  destruct (List.find _ nodes) as [x|] eqn:E.
  - apply find_some in E as [Hx Hk%bool_decide_eq_true]. exists x. by rewrite list_elem_of_In.
  - apply list_elem_of_In in Hm. eapply find_none in E; [|done]. by rewrite bool_decide_eq_true_2 in E.
Qed.

Lemma validate_node_ok index before value n : validate_node index before value = Ok n -> node_ok before n.
Proof.
  unfold validate_node. destruct (as_mapping value) as [v|]; [|done].
  case_match; [done|]. set (key := key_of v _).
  destruct (negb (truthy key) || _) eqn:Hkey; [done|].
  apply orb_false_iff in Hkey as [Hk%negb_false_iff Hfresh%bool_decide_eq_false].
  destruct (negb _) eqn:Hknown; [done|]. apply negb_false_iff in Hknown.
  intros (level & _ & Hl)%result_bind_Ok. case_match eqn:E; [done|]. injection Hl as <-.
  apply orb_false_iff in E as [[E1%negb_false_iff%Z.eqb_eq E2%Z.ltb_ge]%orb_false_iff E3%Z.ltb_ge].
  split_and!; cbn; try done. unfold real_parent in *.
  destruct (parent_key_of v) as [p|]; [|done]. destruct (truthy p); [|done].
  apply bool_decide_eq_true in Hknown. destruct (level_of_key_elem _ _ Hknown) as (m & ? & ? & Hm).
  exists m. rewrite Hm in E1. by cbn in E1.
Qed.

(** Every element stands in [P] to the elements before it. *)
Definition each_after {A} (P : list A -> A -> Prop) (l : list A) : Prop :=
  forall i x, l !! i = Some x -> P (take i l) x.

Lemma each_after_snoc {A} (P : list A -> A -> Prop) l x : each_after P l -> P l x -> each_after P (l ++ [x]).
Proof.
  intros Hl Hx i y Hi. apply lookup_app_Some in Hi as [Hi|[Hge Hi]].
  - pose proof (lookup_lt_Some _ _ _ Hi). rewrite take_app_le by lia. auto.
  - apply list_lookup_singleton_Some in Hi as [Hz ->].
    rewrite take_app_ge by lia. replace (i - length l)%nat with 0%nat by lia. by rewrite app_nil_r.
Qed.

Lemma each_after_NoDup {A} (f : A -> string) P l :
  (forall before x, P before x -> ~ (f x ∈ (f <$> before))) -> each_after P l -> NoDup (f <$> l).
Proof.
  intros Hf Hl. apply NoDup_alt. intros i j k Hi Hj.
  rewrite list_lookup_fmap in Hi, Hj. apply fmap_Some in Hi as (x & Hx & ->).
  apply fmap_Some in Hj as (y & Hy & Hxy).
  assert (Hlt : forall a b p q, l !! a = Some p -> l !! b = Some q -> f p = f q -> ~ (a < b)%nat).
  { intros a b p q Ha Hb E Hab. apply (Hf _ _ (Hl b q Hb)). rewrite <- E.
    apply list_elem_of_fmap. exists p. split; [done|]. apply list_elem_of_lookup. exists a.
    by rewrite lookup_take_lt. }
  pose proof (Hlt i j x y Hx Hy Hxy). pose proof (Hlt j i y x Hy Hx (eq_sym Hxy)). lia.
Qed.

Lemma validate_nodes_ok index before values nodes :
  each_after node_ok before -> validate_nodes index before values = Ok nodes -> each_after node_ok nodes.
Proof.
  revert index before. induction values as [|v rest IH]; intros index before Hb; cbn; [by intros [= <-]|].
  intros (n & Hn & Hrest)%result_bind_Ok. eapply IH; [|exact Hrest].
  apply each_after_snoc; [done|]. by eapply validate_node_ok.
Qed.

(** ** Units *)

Definition unit_ok (node_keys : list string) (before : list UnitDraft) (u : UnitDraft) : Prop :=
  truthy (ud_key u) = true /\ ~ (ud_key u ∈ (ud_key <$> before)) /\ truthy (ud_title u) = true /\
  ud_node_keys u <> [] /\ (forall k, k ∈ ud_node_keys u -> k ∈ node_keys) /\
  (forall k, k ∈ ud_depends_on_unit_keys u -> k ∈ (ud_key <$> before)).

Lemma all_known (known l : list string) :
  existsb (fun k => negb (bool_decide (k ∈ known))) l = false -> forall k, k ∈ l -> k ∈ known.
Proof.
  intros E k Hk. destruct (decide (k ∈ known)) as [|Hn]; [done|].
  assert (existsb (fun k => negb (bool_decide (k ∈ known))) l = true) as E2; [|congruence].
  apply existsb_exists. exists k. rewrite <- list_elem_of_In. split; [done|]. by rewrite bool_decide_eq_false_2.
Qed.

Lemma validate_unit_ok index node_keys before value u :
  validate_unit index node_keys before value = Ok u -> unit_ok node_keys before u.
Proof.
  unfold validate_unit. destruct (as_mapping value) as [v|]; [|done].
  intros (mapped & _ & (deps & _ & Hu)%result_bind_Ok)%result_bind_Ok.
  destruct (_ || _ || _ || _) eqn:E; [done|].
  destruct (existsb _ mapped) eqn:Em; [done|]. destruct (existsb _ deps) eqn:Ed; [done|]. injection Hu as <-.
  apply orb_false_iff in E as [[[E1%negb_false_iff E2%bool_decide_eq_false]%orb_false_iff
    E3%negb_false_iff]%orb_false_iff E4%negb_false_iff].
  split_and!; cbn; try done; [|by apply all_known..]. by destruct mapped.
Qed.

Lemma validate_units_ok index node_keys before values units :
  each_after (unit_ok node_keys) before -> validate_units index node_keys before values = Ok units ->
  each_after (unit_ok node_keys) units /\ length units = (length before + length values)%nat.
Proof.
  revert index before. induction values as [|v rest IH]; intros index before Hb; cbn.
  { intros [= <-]. split; [done|lia]. }
  intros (u & Hu & Hrest)%result_bind_Ok.
  destruct (IH (index + 1) (before ++ [u])) as [? Hlen]; [|done|].
  - apply each_after_snoc; [done|]. by eapply validate_unit_ok.
  - split; [done|]. rewrite Hlen, length_app. cbn. lia.
Qed.

(** ** Outlines *)

Record outline_ok (d : OutlineDraft) : Prop := {
  ok_title : truthy (od_title d) = true;
  ok_nodes : each_after node_ok (od_nodes d);
  ok_node_keys : NoDup (nd_key <$> od_nodes d);
  ok_units : each_after (unit_ok (nd_key <$> od_nodes d)) (od_units d);
  ok_unit_keys : NoDup (ud_key <$> od_units d);
  ok_unit_count : (1 <= length (od_units d) <= 15)%nat;
  ok_cover : flat_map ud_node_keys (od_units d) ≡ₚ (nd_key <$> od_nodes d)
}.

Lemma sorted_same_perm (a b : list string) : sort_by String.leb a = sort_by String.leb b -> a ≡ₚ b.
Proof. intros E. by rewrite <- (sort_by_perm String.leb a), E, sort_by_perm. Qed.

Lemma validate_outline_ok value d : validate_outline value = Ok d -> outline_ok d.
Proof.
  unfold validate_outline. destruct (as_mapping value) as [v|]; [|done].
  destruct (jget "nodes" v) as [j|]; [|done]. destruct j as [| | | | |raw_nodes|]; try done.
  case_match eqn:Et; [done|]. apply orb_false_iff in Et as [Et%negb_false_iff _].
  intros (nodes & Hnodes & Hd)%result_bind_Ok.
  apply validate_nodes_ok in Hnodes; [|by intros i x Hi].
  match type of Hd with match ?x with _ => _ end = _ => destruct x as [| | | | |raw_units|] end; try done.
  case_match eqn:Eu; [done|]. apply orb_false_iff in Eu as [Eu%negb_false_iff Ec%Nat.ltb_ge].
  apply result_bind_Ok in Hd as (units & Hunits & Hd). case_match eqn:Ecov; [|done]. injection Hd as <-.
  apply validate_units_ok in Hunits as [Hunits Hlen]; [|by intros i x Hi].
  apply andb_true_iff in Ecov as [Ecov%bool_decide_eq_true _].
  assert (Hne : raw_units <> []) by (by destruct raw_units).
  split; cbn; try done.
  - eapply each_after_NoDup; [|exact Hnodes]. by intros before n (_ & ? & _).
  - eapply each_after_NoDup; [|exact Hunits]. by intros before u (_ & ? & _).
  - rewrite Hlen. destruct raw_units; [done|]. cbn in *. lia.
  - by apply sorted_same_perm.
Qed.
End outlines.

(** ** The closure of units to reopen *)

(** A set of unit identifiers that contains the dependents of its members. *)
Definition closed_under (units : list ConfirmationUnit) (P : string -> Prop) : Prop :=
  forall u d, u ∈ units -> d ∈ u_depends_on_unit_ids u -> P d -> P (u_unit_id u).

Lemma step_depends (closure deps : list string) :
  existsb (fun d => bool_decide (d ∈ closure)) deps = true <-> exists d, d ∈ deps /\ d ∈ closure.
Proof.
  rewrite existsb_exists. split; intros (d & Hd & Hc); exists d; rewrite list_elem_of_In in *;
    rewrite bool_decide_eq_true, ?list_elem_of_In in *; done.
Qed.

(** One round: it only adds dependents, and an unchanged round found none. *)
Lemma closure_round us c b c' b' :
  foldl closure_step (c, b) us = (c', b') ->
  c ⊆ c' /\ (b' = false -> b = false /\ c' = c /\ closed_under us (fun i => i ∈ c)) /\
  (b = false -> b' = true -> exists u, u ∈ us /\ ~ (u_unit_id u ∈ c) /\ u_unit_id u ∈ c') /\
  (forall P, closed_under us P -> (forall i, i ∈ c -> P i) -> forall i, i ∈ c' -> P i).
Proof.
  revert c b. induction us as [|u us IH]; intros c b Hf; cbn [foldl] in Hf.
  { injection Hf as <- <-. split_and!; try done; [|by intros ->]. intros ->. split_and!; try done. by intros ? ? ?%elem_of_nil. }
  assert (Htail : forall P, closed_under (u :: us) P -> closed_under us P)
    by (intros P HP v d Hv; apply HP; set_solver).
  unfold closure_step at 2 in Hf. case_bool_decide as Hin.
  - apply IH in Hf as (Hsub & Hfalse & Htrue & Hleast). split_and!; auto.
    + intros Hb'. destruct (Hfalse Hb') as (? & ? & Hcl). split_and!; try done.
      intros v d [->|Hv]%elem_of_cons Hd Hdc; [done|by eapply Hcl].
    + intros Hb Hb'. destruct (Htrue Hb Hb') as (v & Hv & ? & ?). exists v. set_solver.
    + intros P HP. by apply Hleast, Htail.
  - destruct (existsb _ _) eqn:Ed.
    + apply step_depends in Ed as (d & Hd & Hdc).
      apply IH in Hf as (Hsub & Hfalse & Htrue & Hleast). split_and!.
      * set_solver.
      * intros Hb'. by destruct (Hfalse Hb') as [? _].
      * intros _ _. exists u. set_solver.
      * intros P HP Hc. apply Hleast; [auto|].
        intros i [->|Hi]%elem_of_cons; [|auto]. apply (HP u d); [set_solver|done|auto].
    + apply IH in Hf as (Hsub & Hfalse & Htrue & Hleast). split_and!; auto.
      * intros Hb'. destruct (Hfalse Hb') as (? & ? & Hcl). split_and!; try done.
        intros v d [->|Hv]%elem_of_cons Hd Hdc; [|by eapply Hcl].
        assert (existsb (fun d => bool_decide (d ∈ c)) (u_depends_on_unit_ids u) = true); [|congruence].
        apply step_depends. eauto.
      * intros Hb Hb'. destruct (Htrue Hb Hb') as (v & Hv & ? & ?). exists v. set_solver.
      * intros P HP. by apply Hleast, Htail.
Qed.

(** The units not yet in the closure. *)
Definition missing (units : list ConfirmationUnit) (c : list string) : list ConfirmationUnit :=
  filter (fun u => ~ (u_unit_id u ∈ c)) units.

Lemma missing_shrinks units c c' u :
  c ⊆ c' -> u ∈ units -> ~ (u_unit_id u ∈ c) -> u_unit_id u ∈ c' ->
  (length (missing units c') < length (missing units c))%nat.
Proof.
  intros Hsub Hu Hn Hy. unfold missing. induction units as [|v us IH]; [set_solver|].
  assert (Hle : (length (filter (fun u => ~ (u_unit_id u ∈ c')) us)
                 <= length (filter (fun u => ~ (u_unit_id u ∈ c)) us))%nat).
  { clear -Hsub. induction us as [|x us IH]; [done|]. rewrite !filter_cons.
    repeat case_decide; cbn; try lia. set_solver. }
  rewrite !filter_cons. apply elem_of_cons in Hu as [->|Hu].
  - repeat case_decide; cbn; try lia; done.
  - specialize (IH Hu). repeat case_decide; cbn; try lia. set_solver.
Qed.

Lemma closure_loop_spec fuel units c :
  (length (missing units c) < fuel)%nat ->
  c ⊆ closure_loop fuel units c /\ closed_under units (fun i => i ∈ closure_loop fuel units c) /\
  (forall P, closed_under units P -> (forall i, i ∈ c -> P i) -> forall i, i ∈ closure_loop fuel units c -> P i).
Proof.
  revert c. induction fuel as [|fuel IH]; intros c Hfuel; [lia|]. cbn [closure_loop].
  destruct (foldl closure_step (c, false) units) as [c' b'] eqn:E.
  destruct (closure_round _ _ _ _ _ E) as (Hsub & Hfalse & Htrue & Hleast). destruct b'.
  - destruct (Htrue eq_refl eq_refl) as (u & Hu & Hn & Hy).
    pose proof (missing_shrinks units c c' u Hsub Hu Hn Hy).
    destruct (IH c') as (Hs & Hc & Hl); [lia|]. split_and!; [set_solver|done|].
    intros P HP Hi. apply Hl; [done|]. by apply Hleast.
  - destruct (Hfalse eq_refl) as (_ & -> & Hcl). by split_and!.
Qed.

(** reopening units reopens exactly what depends on them: the closure the
    service computes contains the selected units, contains every unit that
    depends on a member, and is contained in every set with these two
    properties; the loop always reaches it. *)
Theorem dependent_closure_least (outline : OutlineVersion) (selected : list string) :
  let closure := dependent_unit_closure outline selected in
  selected ⊆ closure /\ closed_under (o_confirmation_units outline) (fun i => i ∈ closure) /\
  (forall P : string -> Prop, closed_under (o_confirmation_units outline) P ->
     (forall i, i ∈ selected -> P i) -> forall i, i ∈ closure -> P i).
Proof.
  apply closure_loop_spec. unfold missing.
  pose proof (length_filter (fun u => ~ (u_unit_id u ∈ selected)) (o_confirmation_units outline)). lia.
Qed.

(** ** The newest section per node *)

(** [s] has the greatest version of its key in [l], and is the first such. *)
Definition newest_of (l : list PrdSectionVersion) (s : PrdSectionVersion) : Prop :=
  exists before after, l = before ++ s :: after /\
    (forall x, x ∈ before -> section_key x = section_key s -> s_version x < s_version s) /\
    (forall x, x ∈ after -> section_key x = section_key s -> s_version x <= s_version s).

Lemma newest_of_snoc l x s :
  newest_of (l ++ [x]) s <->
  (s = x /\ forall y, y ∈ l -> section_key y = section_key x -> s_version y < s_version x) \/
  (newest_of l s /\ (section_key x = section_key s -> s_version x <= s_version s)).
Proof.
  split.
  - intros (b & a & E & Hb & Ha). destruct a as [|z a _] using rev_ind.
    + apply app_inj_tail in E as [-> ->]. left. eauto.
    + rewrite app_comm_cons, app_assoc in E. apply app_inj_tail in E as [-> ->].
      right. split; [|apply Ha; set_solver]. exists b, a. split_and!; try done. set_solver.
  - intros [[-> Hl]|[(b & a & -> & Hb & Ha) Hx]].
    + exists l, []. split_and!; try done. by intros y ?%elem_of_nil.
    + exists b, (a ++ [x]). rewrite <- app_assoc. split_and!; try done. set_solver.
Qed.

Lemma newest_of_elem l s : newest_of l s -> s ∈ l.
Proof. intros (b & a & -> & _). set_solver. Qed.

Lemma newest_of_max l s x : newest_of l s -> x ∈ l -> section_key x = section_key s -> s_version x <= s_version s.
Proof.
  intros (b & a & -> & Hb & Ha) Hx Hk. apply elem_of_app in Hx as [Hx|[->|Hx]%elem_of_cons].
  - specialize (Hb x Hx Hk). lia.
  - lia.
  - auto.
Qed.

Lemma latest_None l k : foldl keep_latest ∅ l !! k = None <-> forall s, s ∈ l -> section_key s <> k.
Proof.
  induction l as [|x l IH] using rev_ind; [split; [by intros _ s ?%elem_of_nil|done]|].
  rewrite foldl_app. cbn. unfold keep_latest at 1. set (D := foldl keep_latest ∅ l) in *.
  destruct (D !! section_key x) as [c|] eqn:E; [case_match|]; rewrite ?dict_lookup_insert; try case_decide;
    setoid_rewrite elem_of_app; setoid_rewrite list_elem_of_singleton; split; try done.
  all: try (intros Hall; exfalso; by eapply Hall; [right|]).
  all: try (intros Hn s [Hs| ->]; [by apply IH|congruence]).
  all: intros Hall; apply IH; auto.
Qed.

Lemma latest_lookup l k s : foldl keep_latest ∅ l !! k = Some s <-> section_key s = k /\ newest_of l s.
Proof.
  revert s. induction l as [|x l IH] using rev_ind; intros s.
  { split; [done|]. by intros [_ ?%newest_of_elem%elem_of_nil]. }
  rewrite newest_of_snoc, foldl_app. cbn. unfold keep_latest at 1. pose proof (latest_None l) as Hnone.
  set (D := foldl keep_latest ∅ l) in *. destruct (decide (section_key x = k)) as [<-|Hne].
  - destruct (D !! section_key x) as [c|] eqn:E; [destruct (Z.ltb_spec (s_version c) (s_version x)) as [Hlt|Hge]|].
    + rewrite dict_lookup_insert_eq. destruct (proj1 (IH c) eq_refl) as [Hk Hc]. split.
      * intros [= <-]. split; [done|]. left. split; [done|]. intros y Hy Hyk.
        assert (s_version y <= s_version c) by (eapply newest_of_max; [done..|congruence]). lia.
      * intros [Hs [[-> _]|[Hn Hle]]]; [done|]. specialize (Hle (eq_sym Hs)).
        assert (s_version s <= s_version c); [|lia].
        eapply newest_of_max; [done|by apply newest_of_elem|congruence].
    + rewrite E. destruct (proj1 (IH c) eq_refl) as [Hk Hc]. split.
      * intros [= <-]. split; [done|]. right. auto.
      * intros [Hs [[-> Hl]|[Hn _]]]; [|by apply IH].
        specialize (Hl c (newest_of_elem _ _ Hc) Hk). lia.
    + rewrite dict_lookup_insert_eq. pose proof (proj1 (Hnone _) E) as Hno. split.
      * intros [= <-]. split; [done|]. left. split; [done|]. intros y Hy Hyk. by destruct (Hno y).
      * intros [Hs [[-> _]|[Hn _]]]; [done|]. by destruct (Hno s (newest_of_elem _ _ Hn)).
  - assert (Hsame : match D !! section_key x with
                    | Some current => if s_version current <? s_version x then <[section_key x:=x]> D else D
                    | None => <[section_key x:=x]> D end !! k = D !! k)
      by (repeat case_match; by rewrite ?dict_lookup_insert_ne).
    rewrite Hsame, IH. split.
    + intros [Hk Hn]. split; [done|]. right. split; [done|]. congruence.
    + intros [Hk [[-> _]|[Hn _]]]; [done|]. done.
Qed.

Lemma latest_ok l : dict_ok (foldl keep_latest ∅ l).
Proof.
  induction l as [|x l IH] using rev_ind; [apply dict_ok_empty|]. rewrite foldl_app. cbn. unfold keep_latest at 1.
  repeat case_match; try apply dict_ok_insert; done.
Qed.

(** The context a unit is written from is exactly the confirmed work it
    depends on: one entry per node, for the newest confirmed section of each
    node of the units it directly depends on, with the content cut to the
    limit, and nothing else. *)
Theorem confirmed_context_exact (u : ConfirmationUnit) sections limit e :
  e ∈ build_confirmed_context u sections limit <->
  exists s, e = context_entry limit s /\
    s_unit_id s ∈ u_depends_on_unit_ids u /\ s_status s = SectionStatus.CONFIRMED /\
    newest_of (List.filter (in_context u) sections) s.
Proof.
  unfold build_confirmed_context. rewrite list_elem_of_fmap. split.
  - intros (s & -> & Hs). rewrite elem_of_sort_by in Hs.
    apply dict_values_lookup in Hs as [k [_ Hn]%latest_lookup]; [|apply latest_ok].
    exists s. split; [done|]. pose proof (newest_of_elem _ _ Hn) as Hin.
    apply list_elem_of_In, filter_In in Hin as [_ [Hd%bool_decide_eq_true Hc%bool_decide_eq_true]%andb_true_iff].
    done.
  - intros (s & -> & _ & _ & Hn). exists s. split; [done|]. rewrite elem_of_sort_by.
    eapply dict_lookup_values. by apply (latest_lookup _ (section_key s)).
Qed.

(** Inversion of a successful bind. *)
Lemma bind_Ok {A B} (m : WM A) (k : A -> WM B) w w' b :
  (x ← m; k x) w = (w', Ok b) -> exists x w1, m w = (w1, Ok x) /\ k x w1 = (w', Ok b).
Proof. unfold mbind, M_bind. destruct (m w) as [w1 [x|e]]; [eauto|done]. Qed.

Section build.
Context `{Builtins} `{Env}.

(** The [i]-th identifier issued after [w], with a prefix. *)
Definition id_at (prefix : string) (n : nat) : string := prefix +:+ "-" +:+ uuid4_hex n.
Definition ids_from (prefix : string) (start len : nat) : list string := id_at prefix <$> seq start len.

(** [drafts] and the nodes built from them. *)
Definition node_of (ids : dict string string) (d : NodeDraft) (n : OutlineNode) : Prop :=
  ids !! nd_key d = Some (n_node_id n) /\ n_stable_key n = Some (nd_key d) /\ n_level n = nd_level d.

Lemma build_nodes_spec seq0 ids built drafts w w' ids' nodes :
  NoDup (nd_key <$> drafts) -> build_nodes seq0 ids built drafts w = (w', Ok (ids', nodes)) ->
  exists new, nodes = built ++ new /\ Forall2 (node_of ids') drafts new /\
    (forall k, ~ (k ∈ (nd_key <$> drafts)) -> ids' !! k = ids !! k) /\
    n_node_id <$> new = ids_from "node" (w_uuids w) (length drafts) /\
    (forall i n, new !! i = Some n -> n_sequence n = seq0 + Z.of_nat i) /\
    w_uuids w' = (w_uuids w + length drafts)%nat /\ w_repo w' = w_repo w.
Proof.
  revert seq0 ids built w. induction drafts as [|d rest IH]; intros seq0 ids built w Hnd Hb.
  { injection Hb as <- <- <-. exists []. cbn. rewrite app_nil_r, Nat.add_0_r. by split_and!. }
  cbn [build_nodes] in Hb. apply NoDup_cons in Hnd as [Hd Hnd].
  apply bind_Ok in Hb as (? & ? & Hx & Hb). injection Hx as <- <-.
  do 5 (apply bind_Ok in Hb as (? & ? & Hx & Hb); injection Hx as <- _).
  apply IH in Hb as (new & -> & Hnew & Hother & Hids & Hseq & Hu & Hr); [|done]. cbn in Hids, Hu, Hr.
  eexists (_ :: new). rewrite <- app_assoc. split; [done|]. split_and!.
  - constructor; [|exact Hnew]. split_and!; try done. cbn. rewrite Hother by done. apply dict_lookup_insert_eq.
  - intros k Hk. rewrite fmap_cons, not_elem_of_cons in Hk. destruct Hk as [Hne Hk].
    rewrite Hother by done. by apply dict_lookup_insert_ne.
  - cbn. f_equal. exact Hids.
  - intros [|i] n Hn; cbn in Hn; [injection Hn as <-; cbn; lia|]. apply Hseq in Hn. lia.
  - cbn. lia.
  - done.
Qed.

Lemma unit_ids_spec ids drafts w w' ids' :
  NoDup (ud_key <$> drafts) -> unit_ids_by_key ids drafts w = (w', Ok ids') ->
  (forall i d, drafts !! i = Some d -> ids' !! ud_key d = Some (id_at "unit" (w_uuids w + i))) /\
  (forall k, ~ (k ∈ (ud_key <$> drafts)) -> ids' !! k = ids !! k) /\
  w_uuids w' = (w_uuids w + length drafts)%nat /\ w_repo w' = w_repo w.
Proof.
  revert ids w. induction drafts as [|d rest IH]; intros ids w Hnd Hb.
  { injection Hb as <- <-. cbn. rewrite Nat.add_0_r. by split_and!. }
  cbn [unit_ids_by_key] in Hb. apply NoDup_cons in Hnd as [Hd Hnd].
  apply bind_Ok in Hb as (? & ? & Hx & Hb). injection Hx as <- <-.
  apply IH in Hb as (Hat & Hother & Hu & Hr); [|done]. cbn in Hat, Hu, Hr. split_and!.
  - intros [|i] x Hx; cbn in Hx.
    + injection Hx as <-. rewrite Hother by done. rewrite dict_lookup_insert_eq. by rewrite Nat.add_0_r.
    + rewrite (Hat i x Hx). do 2 f_equal. lia.
  - intros k Hk. rewrite fmap_cons, not_elem_of_cons in Hk. destruct Hk as [Hne Hk].
    rewrite Hother by done. by apply dict_lookup_insert_ne.
  - cbn. lia.
  - done.
Qed.

(** ** Well-formed outlines *)

(** Units partition the nodes and only depend on earlier units. *)
Record outline_wf (o : OutlineVersion) : Prop := {
  wf_node_ids : NoDup (n_node_id <$> o_nodes o);
  wf_unit_ids : NoDup (u_unit_id <$> o_confirmation_units o);
  wf_partition : flat_map u_node_ids (o_confirmation_units o) ≡ₚ (n_node_id <$> o_nodes o);
  wf_count : (1 <= length (o_confirmation_units o) <= 15)%nat;
  wf_node : forall i n, o_nodes o !! i = Some n -> n_sequence n = Z.of_nat i + 1 /\ 1 <= n_level n <= 3;
  wf_unit : forall i u, o_confirmation_units o !! i = Some u ->
    u_sequence u = Z.of_nat i + 1 /\ u_status u = UnitStatus.PENDING /\ u_outline_id u = o_outline_id o /\
    u_node_ids u <> [] /\
    forall d, d ∈ u_depends_on_unit_ids u -> d ∈ (u_unit_id <$> take i (o_confirmation_units o))
}.

(** What [build_unit] made of a unit draft. *)
Definition unit_of (outline_id : string) (node_ids unit_ids : dict string string) (i : nat)
    (d : UnitDraft) (u : ConfirmationUnit) : Prop :=
  unit_ids !! ud_key d = Some (u_unit_id u) /\ u_sequence u = Z.of_nat i + 1 /\
  u_status u = UnitStatus.PENDING /\ u_outline_id u = outline_id /\
  Forall2 (fun k v => node_ids !! k = Some v) (ud_node_keys d) (u_node_ids u) /\
  Forall2 (fun k v => unit_ids !! k = Some v) (ud_depends_on_unit_keys d) (u_depends_on_unit_ids u).

Lemma must_get_Ok d k v : must_get d k = Ok v <-> d !! k = Some v.
Proof. unfold must_get. destruct (d !! k); naive_solver. Qed.

Lemma must_get_map d l vs : result_map (must_get d) l = Ok vs -> Forall2 (fun k v => d !! k = Some v) l vs.
Proof. intros Hl%result_map_Ok. eapply Forall2_impl; [exact Hl|]. intros k v. apply must_get_Ok. Qed.

Lemma build_units_spec outline_id node_ids unit_ids drafts units :
  build_units outline_id node_ids unit_ids drafts = Ok units ->
  length units = length drafts /\
  forall i u, units !! i = Some u ->
    exists d, drafts !! i = Some d /\ unit_of outline_id node_ids unit_ids i d u.
Proof.
  unfold build_units. intros Hb%result_map_Ok. split.
  { apply Forall2_length in Hb. by rewrite length_imap in Hb. }
  intros i u Hu. eapply Forall2_lookup_r in Hb as ([i' d] & Hd & Hbuild); [|exact Hu].
  rewrite list_lookup_imap in Hd. apply fmap_Some in Hd as (x & Hd & [= -> ->]). exists x. split; [done|].
  unfold build_unit in Hbuild. cbn in Hbuild.
  apply result_bind_Ok in Hbuild as (uid & Huid%must_get_Ok & Hbuild).
  apply result_bind_Ok in Hbuild as (nodes & Hnodes%must_get_map & Hbuild).
  apply result_bind_Ok in Hbuild as (deps & Hdeps%must_get_map & [= <-]). by split_and!.
Qed.

Lemma id_at_inj `{!UniqueIds} prefix i j : id_at prefix i = id_at prefix j -> i = j.
Proof.
  intros E. apply uuid4_inj. unfold id_at in E.
  induction prefix as [|c s IH]; simpl in E; [by injection E|]. apply IH. by injection E.
Qed.

Lemma ids_from_NoDup `{!UniqueIds} prefix start len : NoDup (ids_from prefix start len).
Proof. apply (NoDup_fmap_2_strong); [|apply NoDup_ListNoDup, seq_NoDup]. intros x y _ _. apply id_at_inj. Qed.

Lemma looked_up (d : dict string string) l vs :
  Forall2 (fun k v => d !! k = Some v) l vs -> vs = (fun k => default EmptyString (d !! k)) <$> l.
Proof. induction 1 as [|k v l vs Hk _ IH]; [done|]. cbn. by rewrite Hk, IH. Qed.

Lemma build_cover outline_id node_ids unit_ids drafts units nodes (ndrafts : list NodeDraft) :
  build_units outline_id node_ids unit_ids drafts = Ok units ->
  Forall2 (node_of node_ids) ndrafts nodes ->
  flat_map ud_node_keys drafts ≡ₚ (nd_key <$> ndrafts) ->
  flat_map u_node_ids units ≡ₚ (n_node_id <$> nodes).
Proof.
  intros [Hlen Hb]%build_units_spec Hnodes Hcov.
  assert (Hn : n_node_id <$> nodes = (fun k => default EmptyString (node_ids !! k)) <$> (nd_key <$> ndrafts)).
  { clear Hcov Hb. induction Hnodes as [|d n ds ns (Hd & _) _ IH]; [done|]. cbn. by rewrite Hd, IH. }
  rewrite Hn, <- Hcov. clear Hn Hcov Hnodes.
  assert (Hf : Forall2 (fun d u => u_node_ids u = (fun k => default EmptyString (node_ids !! k)) <$> ud_node_keys d)
    drafts units).
  { apply Forall2_same_length_lookup_2; [done|]. intros i d u Hd Hu.
    destruct (Hb i u Hu) as (d' & Hd' & _ & _ & _ & _ & Hk & _). simplify_eq. by apply looked_up. }
  clear Hb Hlen. induction Hf as [|d u ds us Hd _ IH]; [done|].
  cbn [flat_map]. by rewrite fmap_app, Hd, IH.
Qed.

(** The units built from a validated draft. *)
Lemma built_outline_wf `{!UniqueIds} draft oid tid v at_ w w1 w2 built uids units :
  outline_ok draft ->
  build_nodes 1 ∅ [] (od_nodes draft) w = (w1, Ok built) ->
  unit_ids_by_key ∅ (od_units draft) w1 = (w2, Ok uids) ->
  build_units oid built.1 uids (od_units draft) = Ok units ->
  outline_wf (mkOutline oid tid v (od_title draft) OutlineStatus.PENDING_CONFIRMATION built.2 units at_ None).
Proof.
  destruct built as [nids nodes]. intros Hok Hn Hu Hb.
  apply build_nodes_spec in Hn as (new & Hnew & Hof & _ & Hids & Hseq & _); [|apply Hok]. cbn in Hnew. subst new.
  apply unit_ids_spec in Hu as (Hat & _); [|apply Hok].
  assert (Hspec := build_units_spec _ _ _ _ _ Hb). destruct Hspec as [Hlen Hspec].
  assert (Huids : forall i u, units !! i = Some u -> u_unit_id u = id_at "unit" (w_uuids w1 + i)).
  { intros i u Hi. destruct (Hspec i u Hi) as (d & Hd & Hid & _). rewrite (Hat i d Hd) in Hid. congruence. }
  split; cbn.
  - rewrite Hids. apply ids_from_NoDup.
  - apply NoDup_alt. intros i j x Hi Hj. rewrite list_lookup_fmap in Hi, Hj.
    apply fmap_Some in Hi as (u & Hi & ->). apply fmap_Some in Hj as (u' & Hj & E).
    rewrite (Huids i u Hi), (Huids j u' Hj) in E. apply id_at_inj in E. lia.
  - eapply build_cover; [exact Hb|exact Hof|apply Hok].
  - rewrite Hlen. apply Hok.
  - intros i n Hi. split; [rewrite (Hseq i n Hi); lia|].
    destruct (Forall2_lookup_r _ _ _ _ _ Hof Hi) as (d & Hd & _ & _ & ->).
    by destruct (ok_nodes _ Hok i d Hd) as (_ & _ & ? & _).
  - intros i u Hi. destruct (Hspec i u Hi) as (d & Hd & Hid & Hs & Hst & Ho & Hnk & Hdk).
    destruct (ok_units _ Hok i d Hd) as (_ & _ & _ & Hne & _ & Hdeps).
    split_and!; try done.
    { intros E. rewrite E in Hnk. by inversion Hnk. }
    intros x Hx. apply list_elem_of_lookup in Hx as [j Hj].
    destruct (Forall2_lookup_r _ _ _ _ _ Hdk Hj) as (k & Hk & Hkx).
    destruct (list_elem_of_fmap_1 _ _ _ (Hdeps k (list_elem_of_lookup_2 _ _ _ Hk))) as (d' & -> & Hd').
    apply list_elem_of_lookup in Hd' as [i' Hi'].
    assert (Hlt : (i' < i)%nat) by (apply lookup_lt_Some in Hi'; rewrite length_take in Hi'; lia).
    rewrite lookup_take_lt in Hi' by lia. rewrite (Hat i' d' Hi') in Hkx. injection Hkx as <-.
    destruct (lookup_lt_is_Some_2 units i') as [u' Hu']; [rewrite Hlen; by eapply lookup_lt_Some|].
    apply list_elem_of_fmap. exists u'. split; [by rewrite (Huids i' u' Hu')|].
    apply list_elem_of_lookup. exists i'. by rewrite lookup_take_lt.
Qed.
End build.

Section generated.
Context `{Builtins} `{UniqueIds}.

Lemma invoke_validated_Ok {A} op p (v : json -> result exc A) w w' a :
  invoke_validated op p v w = (w', Ok a) -> (exists j, v j = Ok a) /\ w_repo w' = w_repo w.
Proof.
  unfold invoke_validated. intros (j1 & w1 & Hc & Hr)%bind_Ok. injection Hc as <- _. cbn in Hr.
  destruct (v j1) as [x|e] eqn:E1; [injection Hr as <- <-; split; [eauto|done]|].
  destruct (repairable e); [|done]. apply bind_Ok in Hr as (j2 & w2 & Hc & Hr). injection Hc as <- _. cbn in Hr.
  destruct (v j2) as [x|e2] eqn:E2; [injection Hr as <- <-; split; [eauto|done]|].
  by destruct (repairable e2).
Qed.

Lemma save_run_Ok run w w' :
  repo_try (save_run run) w = (w', Ok tt) -> w' = with_repo (set_runs (<[r_run_id run := run]> (runs (w_repo w))) (w_repo w)) w.
Proof. unfold repo_try, save_run. destruct (active _ && _); [done|]. by intros [= <-]. Qed.

Lemma elem_of_put_in {A} k (same : A -> bool) v d : v ∈ get_list (put_in k same v d) k.
Proof.
  unfold put_in, get_list at 1, get_default. rewrite dict_lookup_insert_eq. cbn.
  generalize (get_list d k). intros l. induction l as [|x l IH]; cbn; [set_solver|]. case_match; set_solver.
Qed.

(** the outline put up for review is well formed whatever the model
    answered: its node and unit identifiers are distinct, its 1 to 15 units
    partition its nodes, units and nodes are numbered in order, nodes are at
    most three levels deep, and a unit depends on earlier units only; it gets
    the next outline version, and the task waits for its confirmation. *)
Theorem outline_generated_wf t run brief w w' s :
  generate_outline t run brief w = (w', Ok s) ->
  exists o, o ∈ ws_outlines s /\ outline_wf o /\ o_status o = OutlineStatus.PENDING_CONFIRMATION /\
    o_version o = max_default0 (o_version <$> get_list (outlines (w_repo w)) (t_task_id t)) + 1 /\
    t_status (ws_task s) = TaskStatus.OUTLINE_REVIEW /\
    t_current_outline_version (ws_task s) = Some (o_version o) /\ t_version (ws_task s) = t_version t + 1.
Proof.
  unfold generate_outline. intros (draft & w1 & Hdraft & Hg)%bind_Ok.
  apply invoke_validated_Ok in Hdraft as [[j Hj%validate_outline_ok] Hr1].
  apply bind_Ok in Hg as (oid & w2 & Hoid & Hg). injection Hoid as <- _.
  apply bind_Ok in Hg as (prior & w3 & Hprior & Hg). injection Hprior as <- Hprior. cbn in Hprior.
  apply bind_Ok in Hg as (built & w4 & Hbuilt & Hg).
  apply bind_Ok in Hg as (uids & w5 & Huids & Hg).
  apply bind_Ok in Hg as (units & w6 & Hunits & Hg). injection Hunits as <- Hunits.
  apply bind_Ok in Hg as (at_ & w7 & Hat & Hg). injection Hat as <- <-.
  apply bind_Ok in Hg as (task & w8 & Hmove & Hg).
  apply bind_Ok in Hmove as (st & w9 & Hst & Hmove). injection Hst as <- Hst.
  apply bind_Ok in Hmove as (at2 & w10 & Hat2 & Hmove). injection Hat2 as <- <-. injection Hmove as <- <-.
  assert (Hst' : st = TaskStatus.OUTLINE_REVIEW) by (unfold transition in Hst; repeat case_match; congruence).
  assert (Hvs : ws_outlines prior = get_list (outlines (w_repo w)) (t_task_id t)).
  { unfold snapshot in Hprior. apply result_bind_Ok in Hprior as (? & _ & Hp).
    apply result_bind_Ok in Hp as (? & _ & [= <-]). cbn. by rewrite Hr1. }
  do 2 (apply bind_Ok in Hg as ([] & ? & Hx & Hg); injection Hx as <-).
  apply bind_Ok in Hg as ([] & ? & Hx & Hg). apply save_run_Ok in Hx as ->.
  apply bind_Ok in Hg as ([] & ? & Hx & Hg).
  apply bind_Ok in Hx as (? & ? & Hx1 & Hx). injection Hx1 as <- <-.
  apply bind_Ok in Hx as (? & ? & Hx1 & Hx). injection Hx1 as <- <-. injection Hx as <-.
  apply bind_Ok in Hg as ([] & ? & Hx & Hg). injection Hx as <-. injection Hg as <- Hs.
  unfold snapshot, get_task in Hs. cbn in Hs. rewrite dict_lookup_insert_eq in Hs. cbn in Hs.
  apply result_bind_Ok in Hs as (lrun & _ & [= <-]). cbn. eexists. split; [apply elem_of_put_in|].
  split; [by eapply built_outline_wf|]. cbn. rewrite Hvs. by split_and!.
Qed.
End generated.

(** ** Witness *)

Import Demo.

(** A task in clarification with its brief. *)
Definition draft_task : Task := mkTask "task-0" None TaskStatus.CLARIFYING 2 None None 0 0 "alice".
Definition draft_run : AgentRun :=
  make_run "run-1" "task-0" "thread-2" RunStatus.RUNNING "h" "k1" (Some 0) None None.
Definition draft_brief : RequirementBrief := failed_brief "make search fast".
Definition draft_world : world :=
  mkWorld (create_task_bundle draft_task (mkTaskMessage "m" "task-0" "alice" "make search fast" 0)
    (mkBriefVersion "task-0" 1 draft_brief true 0) draft_run
    (mkIdempotencyRecord "alice" "k1" "h" "task-0" "run-1" 0) empty_repository) 5 5 [].

Lemma outline_generated_wf_witness :
  exists w' s o, generate_outline draft_task draft_run draft_brief draft_world = (w', Ok s) /\
    o ∈ ws_outlines s /\ outline_wf o /\ o_version o = 1.
Proof.
  destruct (generate_outline draft_task draft_run draft_brief draft_world) as [w' [s|e]] eqn:E.
  - destruct (outline_generated_wf draft_task draft_run draft_brief draft_world w' s E)
      as (o & Ho & Hwf & _ & Hv & _).
    exists w', s, o. split; [reflexivity|]. split; [exact Ho|]. split; [exact Hwf|].
    rewrite Hv. vm_compute. reflexivity.
  - exfalso. apply (f_equal (fun x => is_ok (snd x))) in E. vm_compute in E. discriminate E.
Defined.
