(* ===== verification/WorkflowSafety.v ===== *)
(** * Isolation, audit trail and the gates of the workflow

    Commands of other actors leave a task alone, the audit trail only grows, and
    what [_generate_unit] leaves behind: a unit is only offered for confirmation
    together with the grounding result that admitted its text. *)
From stdpp Require Import base list sets strings pretty relations.
From Stdlib Require Import ZArith.
From S2P Require Import Prelude.
From S2P Require Import PyDict.
From S2P Require Import Json.
From S2P Require Import Domain.
From S2P Require Import Grounding.
From S2P Require Import Quality.
From S2P Require Import WorkflowRepo.
From S2P Require Import WorkflowNodes.
From S2P Require Import Workflow.
From S2P Require Import WorkflowSteps.
From S2P Require Import WorkflowLogic.
From S2P Require Import WorkflowHandlers.
From S2P Require Import WorkflowUnits.
From S2P Require Import WorkflowFacts.
From S2P Require Import OutlineFacts.

Open Scope Z_scope.

Section safety.
Context `{Builtins} `{UniqueIds}.

(** ** Owners *)

(** Everything the repository holds about task [k] is the same. *)
Definition same_task_data (k : string) (r r' : repository) : Prop :=
  tasks r' !! k = tasks r !! k /\ briefs r' !! k = briefs r !! k /\ outlines r' !! k = outlines r !! k /\
  sections r' !! k = sections r !! k /\ documents r' !! k = documents r !! k /\
  messages r' !! k = messages r !! k /\ quality_results r' !! k = quality_results r !! k /\
  grounding_results r' !! k = grounding_results r !! k /\ events r' !! k = events r !! k /\
  forall id run, r_task_id run = k -> runs r' !! id = Some run <-> runs r !! id = Some run.

#[global] Instance same_task_data_preorder k : PreOrder (same_task_data k).
Proof.
  split.
  - intros r. by split_and!.
  - intros r1 r2 r3 (?&?&?&?&?&?&?&?&?&Ha) (?&?&?&?&?&?&?&?&?&Hb).
    split_and!; try (by etransitivity). intros id run Hk. by rewrite (Hb id run Hk), (Ha id run Hk).
Qed.

(** A write of another actor does not touch the task. *)
Lemma write_other a j b n r r' k :
  owned_by b k r -> a <> b -> write a j n r r' -> same_task_data k r r'.
Proof.
  intros (t & Ht & Ho) Hab Hw.
  assert (Hne : forall k', owned_by a k' r -> k' <> k).
  { intros k' (t' & Ht' & Ho') ->. congruence. }
  unfold append_to, put_in in *.
  destruct Hw; try subst j; split_and!; try done; cbn; unfold append_to, put_in;
    rewrite ?dict_lookup_insert_ne by (first [by apply Hne|congruence]); try done.
  - intros id x Hx. rewrite dict_lookup_insert. case_decide; [|done]. subst id. split; [|congruence].
    intros [= <-]. congruence.
  - intros id x Hx. rewrite dict_lookup_insert. case_decide; [|done]. subst id.
    assert (Hk : r_task_id run <> k) by (by apply Hne). split; [congruence|].
    intros Hold. exfalso. apply Hk. rewrite <- Hx. symmetry. eauto.
Qed.

Lemma wsteps_other a j b w w' k :
  Inv w -> owned_by b k (w_repo w) -> a <> b -> wsteps a j w w' -> same_task_data k (w_repo w) (w_repo w').
Proof.
  intros Hinv Ho Hab Hs. revert Hinv Ho. induction Hs as [|w1 w2 w3 H12 _ IH]; intros Hinv Ho; [done|].
  transitivity (w_repo w2); [|apply IH; [by eapply wstep_inv|]].
  - destruct H12 as [w2 Hr _|r' Hw]; [by rewrite Hr|]. by eapply write_other.
  - eapply wsteps_owned; [by apply rtc_once|done].
Qed.

Lemma run_commands_other cs w k b :
  Inv w -> owned_by b k (w_repo w) -> Forall (fun c => actor_of c <> b) cs ->
  same_task_data k (w_repo w) (w_repo (run_commands cs w)).
Proof.
  unfold run_commands. revert w. induction cs as [|c cs IH]; intros w Hinv Ho Hall; [done|]. simpl.
  apply Forall_cons in Hall as [Hc Hall]. destruct (handle_runs c w Hinv) as (j & _ & Hs).
  transitivity (w_repo (handle c w).1); [by eapply wsteps_other|].
  apply IH; [by apply handle_inv|by eapply wsteps_owned|done].
Qed.

(** ** Append-only history *)

(** What is recorded about task [k] is never rewritten. *)
Definition history_kept (k : string) (r r' : repository) : Prop :=
  is_Some (tasks r !! k) ->
  get_list (events r) k `prefix_of` get_list (events r') k /\
  get_list (sections r) k `prefix_of` get_list (sections r') k /\
  get_list (messages r) k `prefix_of` get_list (messages r') k /\
  get_list (briefs r) k `prefix_of` get_list (briefs r') k.

Lemma append_to_prefix {A} k k' (v : A) d : get_list d k `prefix_of` get_list (append_to k' v d) k.
Proof.
  unfold append_to, get_list, get_default. rewrite dict_lookup_insert. case_decide; [|done].
  subst. by eexists.
Qed.

Lemma get_list_insert_ne {A} k k' (l : list A) d : k' <> k -> get_list (<[k' := l]> d) k = get_list d k.
Proof. intros Hne. unfold get_list, get_default. by rewrite dict_lookup_insert_ne. Qed.

Lemma write_history a j n r r' k : write a j n r r' -> history_kept k r r'.
Proof.
  intros Hw [t Ht]. destruct Hw; cbn; try (by split_and!); try (split_and!; try done; apply append_to_prefix).
  assert (Hne : t_task_id task <> k) by congruence. by rewrite !get_list_insert_ne.
Qed.

Lemma step_history a j w w' k : wstep a j w w' -> history_kept k (w_repo w) (w_repo w').
Proof. intros [w2 Hr _|r' Hw]; [rewrite Hr; by intros _|]. by eapply write_history. Qed.
End safety.

(** C32: users are isolated from each other: commands of other actors leave
    everything recorded about a task untouched (the task, its runs, briefs,
    outlines, sections, documents, messages, results and events), and a
    command only ever returns a task that its own actor owns. *)
Theorem owner_isolation `{Builtins} `{UniqueIds} cs cs' k t :
  let w := run_commands cs initial_world in
  tasks (w_repo w) !! k = Some t ->
  Forall (fun c => actor_of c <> t_owner_id t) cs' ->
  same_task_data k (w_repo w) (w_repo (run_commands cs' w)) /\
  (forall c w2 s, handle c w = (w2, Ok s) -> owned_by (actor_of c) (t_task_id (ws_task s)) (w_repo w2)).
Proof.
  intros w Ht Hall. assert (Hinv : Inv w) by (apply run_commands_inv, inv_initial). split.
  - apply (run_commands_other cs' w k (t_owner_id t)); [done|by exists t|done].
  - intros c w2 s Hc. destruct (handle_records c w w2 s Hinv Hc) as (rec & Hrec & _ & <-).
    assert (Hinv2 := handle_inv c w Hinv). rewrite Hc in Hinv2. by eapply inv_idem.
Qed.

(** The history of a task is append-only: whatever commands follow, its
    events, confirmed sections, messages and briefs so far stay in place, and
    its events are numbered consecutively from 1. *)
Theorem history_append_only `{Builtins} `{UniqueIds} cs cs' k t :
  let w := run_commands cs initial_world in
  let r := w_repo w in
  let r' := w_repo (run_commands cs' w) in
  tasks r !! k = Some t ->
  (get_list (events r) k `prefix_of` get_list (events r') k /\
   get_list (sections r) k `prefix_of` get_list (sections r') k /\
   get_list (messages r) k `prefix_of` get_list (messages r') k /\
   get_list (briefs r) k `prefix_of` get_list (briefs r') k) /\
  (forall i e, get_list (events r') k !! i = Some e -> ev_sequence e = Z.of_nat i + 1).
Proof.
  intros w r r' Ht. assert (Hinv : Inv w) by (apply run_commands_inv, inv_initial). split.
  - enough (Hall : is_Some (tasks r !! k) -> is_Some (tasks r' !! k) /\ history_kept k r r')
      by (destruct Hall as [_ Hh]; [by eexists|]; apply Hh; by eexists).
    apply (run_commands_steps cs' w (fun x y => is_Some (tasks (w_repo x) !! k) ->
      is_Some (tasks (w_repo y) !! k) /\ history_kept k (w_repo x) (w_repo y))); [..|done].
    + intros x Hx. split; [done|]. by intros _.
    + intros x y z Hxy Hyz Hx. destruct (Hxy Hx) as [Hy Hxy']. destruct (Hyz Hy) as [Hz Hyz'].
      split; [done|]. intros _. destruct (Hxy' Hx) as (?&?&?&?), (Hyz' Hy) as (?&?&?&?).
      split_and!; by etransitivity.
    + intros a j x y _ Hs [t0 Hx]. split; [|by eapply step_history].
      assert (Hown : owned_by (t_owner_id t0) k (w_repo y))
        by (eapply wsteps_owned; [by apply rtc_once|by exists t0]).
      destruct Hown as (t1 & Ht1 & _). by eexists.
  - intros i e He. assert (Hinv' : Inv (run_commands cs' w)) by (by apply run_commands_inv).
    unfold get_list, get_default in He.
    destruct (events r' !! k) as [l|] eqn:El; [|done]. by destruct (inv_events _ _ Hinv' k l i e El He).
Qed.

(** ** Witnesses *)

Import Demo.

Lemma owner_isolation_witness :
  same_task_data "task-0" (w_repo (run_commands [start_cmd] initial_world))
    (w_repo (run_commands [CStart (mkStartTask "hello" "k" "bob");
       CConfirmOutline (mkConfirmOutline "task-0" 1 3 "k2" "bob")] (run_commands [start_cmd] initial_world))).
Proof.
  destruct (tasks (w_repo (run_commands [start_cmd] initial_world)) !! "task-0") as [t|] eqn:Ht;
    [|by vm_compute in Ht].
  apply (owner_isolation [start_cmd] _ "task-0" t Ht).
  assert (Ho : t_owner_id t = "alice") by (vm_compute in Ht; by injection Ht as <-).
  rewrite Ho. by repeat constructor.
Defined.

Lemma history_append_only_witness :
  let w := run_commands [start_cmd] initial_world in
  let w' := run_commands [confirm_outline_cmd; confirm_first_cmd; confirm_second_cmd] w in
  get_list (sections (w_repo w)) "task-0" `prefix_of` get_list (sections (w_repo w')) "task-0" /\
  length (get_list (sections (w_repo w')) "task-0") = 2%nat.
Proof.
  intros w w'.
  destruct (tasks (w_repo (run_commands [start_cmd] initial_world)) !! "task-0") as [t|] eqn:Ht;
    [|by vm_compute in Ht].
  split; [|vm_compute; reflexivity].
  pose proof (history_append_only [start_cmd] [confirm_outline_cmd; confirm_first_cmd; confirm_second_cmd]
    "task-0" t Ht) as [(_ & Hp & _) _]. exact Hp.
Defined.

Lemma lbind_Ok {A B} (m : LM A) (k : A -> LM B) s s' b :
  (x ← m; k x) s = (s', Ok b) -> exists x s1, m s = (s1, Ok x) /\ k x s1 = (s', Ok b).
Proof. unfold mbind, M_bind. destruct (m s) as [s1 [x|e]]; [eauto|done]. Qed.

Lemma lift_Ok {A} (m : WM A) w l s' a :
  lift m (w, l) = (s', Ok a) -> exists w', m w = (w', Ok a) /\ s' = (w', l).
Proof. unfold lift. cbn. destruct (m w) as [w' r]. intros [= <- ->]. eauto. Qed.

Section unit_facts.
Context `{Builtins} `{UniqueIds}.

(** The unit is the element of the outline that [l_index] points to. *)
Definition aligned (l : locals) : Prop :=
  o_task_id (l_outline l) = t_task_id (l_task l) /\
  (l_index l < length (o_confirmation_units (l_outline l)))%nat.

Lemma aligned_on_unit f l : aligned l -> aligned (on_unit f l).
Proof. intros [Hk Hi]. split; [done|]. cbn. by rewrite length_insert. Qed.

Lemma rebuild_elem l f : aligned l -> l_unit (on_unit f l) ∈ o_confirmation_units (l_outline (rebuild (on_unit f l))).
Proof.
  intros [_ Hi]. cbn. unfold rebuild_units. apply list_elem_of_fmap. exists (f (l_unit l)).
  rewrite decide_True by done. split; [done|]. apply list_elem_of_lookup. exists (l_index l).
  by apply list_lookup_insert_eq.
Qed.

(** The outcome of parking: the bumped unit is in the stored outline. *)
Lemma park_unit_spec ty p node w l s' s :
  aligned l -> park_unit ty p node (w, l) = (s', Ok s) ->
  ws_grounding_results s = get_list (grounding_results (w_repo w)) (t_task_id (l_task l)) /\
  exists o, o ∈ ws_outlines s /\ o_outline_id o = o_outline_id (l_outline l) /\
    unit_bump (l_unit l) ∈ o_confirmation_units o.
Proof.
  intros Hal. unfold park_unit.
  do 3 (intros (? & ? & Hx & Hp)%lbind_Ok; injection Hx as <-; revert Hp).
  intros ([] & s1 & Hx & Hp)%lbind_Ok.
  apply lbind_Ok in Hx as (? & ? & Hl & Hx). injection Hl as <- <-.
  apply lift_Ok in Hx as (w1 & Hx & ->). injection Hx as <-.
  apply lbind_Ok in Hp as ([] & s2 & Hx & Hp).
  apply lbind_Ok in Hx as (? & ? & Hl & Hx). injection Hl as <- <-.
  apply lift_Ok in Hx as (w2 & Hx & ->). apply save_run_Ok in Hx as ->.
  apply lbind_Ok in Hp as (? & ? & Hl & Hp). injection Hl as <- <-.
  apply lbind_Ok in Hp as ([] & s3 & Hx & Hp). apply lift_Ok in Hx as (w3 & Hx & ->).
  apply bind_Ok in Hx as (? & ? & Hx1 & Hx). injection Hx1 as <- <-.
  apply bind_Ok in Hx as (? & ? & Hx1 & Hx). injection Hx1 as <- <-. injection Hx as <-.
  apply lbind_Ok in Hp as ([] & s4 & Hx & Hp). apply lift_Ok in Hx as (w4 & Hx & ->). injection Hx as <-.
  apply lift_Ok in Hp as (w5 & Hp & ->). injection Hp as <- Hs.
  unfold snapshot in Hs. apply result_bind_Ok in Hs as (t & _ & Hs). apply result_bind_Ok in Hs as (run & _ & [= <-]).
  split; [done|]. cbn. assert (Hin := rebuild_elem l unit_bump Hal). destruct Hal as [Hk _]. rewrite <- Hk.
  eexists. split; [apply elem_of_put_in|]. split; [done|exact Hin].
Qed.

Lemma on_draft_error_Ok {A} (m : LM A) s s' a : on_draft_error m s = (s', Ok a) -> m s = (s', Ok a).
Proof.
  unfold on_draft_error. destruct (m s) as [s1 [x|e]]; [done|]. destruct e; try done.
  unfold mbind, M_bind. by destruct (fail_unit ModelOutputError s1) as [s2 [x|e]].
Qed.

Lemma validated_request r r' : GroundingRequest_validate r = Ok r' -> r' = r.
Proof. unfold GroundingRequest_validate. repeat case_match; congruence. Qed.

Lemma ground_unit_spec svc context draft w l s' r :
  grounding_service = Some svc -> ground_unit context draft (w, l) = (s', Ok r) ->
  exists g req w1, r = Some g /\ svc req = Ok g /\ g_content req = uc_content draft /\
    g_claims req = unit_claims draft /\ g_unit_id req = u_unit_id (l_unit l) /\
    s' = (w1, on_unit (unit_set_grounding (gr_grounding_run_id g)) l) /\
    g ∈ get_list (grounding_results (w_repo w1)) (t_task_id (l_task l)).
Proof.
  intros Hsvc. unfold ground_unit. rewrite Hsvc. intros (? & ? & Hl & Hg)%lbind_Ok. injection Hl as <- <-.
  apply lbind_Ok in Hg as (rid & ? & Hx & Hg). apply lift_Ok in Hx as (w1 & Hx & ->). injection Hx as <- _.
  apply lbind_Ok in Hg as (req & ? & Hx & Hg). injection Hx as <- Hreq%validated_request.
  apply lbind_Ok in Hg as (g & ? & Hx & Hg). injection Hx as <- Hres.
  apply lbind_Ok in Hg as ([] & ? & Hx & Hg). apply lift_Ok in Hx as (w2 & Hx & ->). injection Hx as <-.
  apply lbind_Ok in Hg as ([] & ? & Hx & Hg). injection Hx as <-. injection Hg as <- <-.
  eexists g, req, _. rewrite Hreq in *. split_and!; try done. cbn. apply elem_of_put_in.
Qed.

(** What follows grounding. *)
Definition settle_unit (draft : UnitContent) (grounding : option GroundingResult) : LM WorkflowSnapshot :=
  match grounding with
  | Some res => if gr_confirmable res then present_unit (uc_content draft) else block_unit res
  | None => present_unit (uc_content draft)
  end.

Lemma generate_unit_Ok brief w l w' s :
  aligned l -> generate_unit brief l w = (w', Ok s) ->
  exists context draft w3 l3 s', aligned l3 /\ u_unit_id (l_unit l3) = u_unit_id (l_unit l) /\
    t_task_id (l_task l3) = t_task_id (l_task l) /\
    (r ← ground_unit context draft; settle_unit draft r) (w3, l3) = (s', Ok s).
Proof.
  intros Hal Hgen. unfold generate_unit in Hgen.
  destruct (generate_unit_inner brief (w, l)) as [[w1 l1] [s1|e]] eqn:E.
  2: { case_match; [|done]. by destruct (fail_unit e (w1, l1)) as [[w2 l2] [x|e2]]. }
  injection Hgen as -> ->. unfold generate_unit_inner in E.
  apply lbind_Ok in E as (? & ? & Hl & E). injection Hl as <- <-.
  apply lbind_Ok in E as (context & ? & Hx & E). injection Hx as <- _.
  apply lbind_Ok in E as (draft & s2 & Hx & E). apply on_draft_error_Ok in Hx.
  apply lbind_Ok in Hx as (? & ? & Hx1 & Hx). apply lift_Ok in Hx1 as (w2 & _ & ->).
  apply lift_Ok in Hx as (w3 & _ & ->).
  apply lbind_Ok in E as (drafts & ? & Hx & E). injection Hx as <- _.
  apply lbind_Ok in E as ([] & s3 & Hx & E). exists context, draft, w3.
  destruct drafts as [ds|]; injection Hx as <-; eexists _, _; split_and!; try exact E; try done.
  by apply aligned_on_unit.
Qed.

(** The unit as it is stored: either outcome. *)
Lemma settle_unit_spec draft g w l s' s :
  aligned l -> settle_unit draft (Some g) (w, l) = (s', Ok s) ->
  ws_grounding_results s = get_list (grounding_results (w_repo w)) (t_task_id (l_task l)) /\
  exists o u, o ∈ ws_outlines s /\ u ∈ o_confirmation_units o /\ u_unit_id u = u_unit_id (l_unit l) /\
    u_grounding_run_id u = u_grounding_run_id (l_unit l) /\
    (if gr_confirmable g
     then u_status u = UnitStatus.PENDING_CONFIRMATION /\ u_content u = Some (uc_content draft) /\
          u_content_hash u = Some (content_hash (uc_content draft))
     else u_status u = UnitStatus.HUMAN_INPUT_REQUIRED /\ u_content u = None /\ u_section_drafts u = []).
Proof.
  intros Hal. unfold settle_unit, present_unit, block_unit.
  destruct (gr_confirmable g); intros (? & ? & Hx & E)%lbind_Ok; injection Hx as <-;
    apply lbind_Ok in E as (? & ? & Hx & E); injection Hx as <- <-;
    (apply park_unit_spec in E as (Hgr & o & Ho & _ & Hu); [|by apply aligned_on_unit]);
    (split; [exact Hgr|]); exists o; eexists; (split; [exact Ho|]); (split; [exact Hu|]); done.
Qed.
End unit_facts.


(** ** Witness *)

Import Demo.

Definition demo_unit : ConfirmationUnit :=
  mkUnit "unit-8" "outline-5" 1 "A" UnitStatus.GENERATING None 1 ["node-6"] [] None None None [].
Definition demo_locals : locals :=
  mkLocals (mkTask "task-0" None TaskStatus.GENERATING 4 (Some 1) (Some 1) 0 0 "alice") draft_run
    (mkOutline "outline-5" "task-0" 1 "PRD" OutlineStatus.CONFIRMED [] [demo_unit] 0 None) 0 demo_unit.

