(* ===== verification/WorkflowGates.v ===== *)
(** * The gates of the workflow

    When a PRD can be finalized, and the states no command leaves. *)
From stdpp Require Import base list sets strings pretty relations.
From Stdlib Require Import ZArith.
From S2P Require Import Prelude PyDict Json Domain Grounding Quality.
From S2P Require Import WorkflowRepo WorkflowNodes Workflow WorkflowSteps WorkflowLogic.
From S2P Require Import WorkflowHandlers WorkflowUnits WorkflowFacts WorkflowSafety.
From S2P Require Import OutlineFacts.

Open Scope Z_scope.

Section gates.
Context `{Builtins} `{UniqueIds}.

(** ** Commands on other tasks *)

Lemma write_other_task a j n r r' k :
  repo_inv n r -> k <> j -> is_Some (tasks r !! k) -> write a j n r r' -> same_task_data k r r'.
Proof.
  intros Hinv Hne [t Ht] Hw. unfold append_to, put_in in *.
  destruct Hw; subst; split_and!; try done; cbn; unfold append_to, put_in;
    rewrite ?dict_lookup_insert_ne by congruence; try done.
  - intros id x Hx. rewrite dict_lookup_insert. case_decide; [|done]. subst id. split; [|congruence].
    intros [= <-]. congruence.
  - intros id x Hx. rewrite dict_lookup_insert. case_decide; [|done]. subst id. split; [congruence|].
    intros Hold. exfalso. apply Hne. rewrite <- Hx. eauto.
Qed.

Lemma wsteps_other_task a j w w' k :
  Inv w -> k <> j -> is_Some (tasks (w_repo w) !! k) -> wsteps a j w w' -> same_task_data k (w_repo w) (w_repo w').
Proof.
  intros Hinv Hne Hk Hs. revert Hinv Hk. induction Hs as [|w1 w2 w3 H12 _ IH]; intros Hinv Hk; [done|].
  assert (H12' : same_task_data k (w_repo w1) (w_repo w2)).
  { destruct H12 as [w2 Hr _|r' Hw]; [by rewrite Hr|]. by eapply write_other_task. }
  etransitivity; [exact H12'|]. apply IH; [by eapply wstep_inv|]. destruct H12' as [-> _]. done.
Qed.

(** ** Tasks that no command can move *)

(** The outline a snapshot of task [k] shows. *)
Definition outline_of (k : string) (r : repository) : option OutlineVersion :=
  last (List.filter (fun o => negb (bool_decide (o_status o = OutlineStatus.SUPERSEDED))) (get_list (outlines r) k)).

(** The task failed, or the unit it works on is not waiting for confirmation. *)
Definition dead_end (k : string) (r : repository) : Prop :=
  exists t, tasks r !! k = Some t /\
    (t_status t = TaskStatus.FAILED \/
     t_status t = TaskStatus.GENERATING /\
     forall o u, outline_of k r = Some o -> u ∈ o_confirmation_units o ->
       Some (u_sequence u) = t_current_unit_sequence t -> u_status u <> UnitStatus.PENDING_CONFIRMATION).

Lemma dead_end_same k r r' : same_task_data k r r' -> dead_end k r -> dead_end k r'.
Proof.
  intros (Ht & _ & Ho & _) (t & Htask & Hd). exists t. rewrite Ht. split; [done|].
  unfold outline_of, get_list, get_default in *. by rewrite Ho.
Qed.

(** The computation leaves the repository alone. *)
Definition idle {A} (m : WM A) (w : world) : Prop := w_repo (m w).1 = w_repo w.

Lemma idle_replay a key h m w : idle m w -> idle (with_replay a key h m) w.
Proof.
  intros Hm. unfold idle, with_replay, get_repo, mbind, M_bind.
  destruct (get_idempotency a key (w_repo w)); [|exact Hm]. by case_match.
Qed.

Lemma idle_get {A B} (f : repository -> result exc A) (k : A -> WM B) w :
  (forall x, f (w_repo w) = Ok x -> idle (k x) w) -> idle (x ← repo_get f; k x) w.
Proof.
  intros Hk. unfold idle, repo_get, mbind, M_bind. destruct (f (w_repo w)) eqn:E; [by apply Hk|done].
Qed.

Lemma idle_liftR {A B} (r : result exc A) (k : A -> WM B) w :
  (forall x, r = Ok x -> idle (k x) w) -> idle (x ← liftR r; k x) w.
Proof. intros Hk. unfold idle, liftR, mbind, M_bind. destruct r; [by apply Hk|done]. Qed.

Lemma idle_expect {B} k a v (cont : WorkflowSnapshot -> WM B) w :
  (forall s t, snapshot k (w_repo w) = Ok s -> tasks (w_repo w) !! k = Some t -> ws_task s = t ->
     current_outline s = outline_of k (w_repo w) -> idle (cont s) w) ->
  idle (s ← expect_version k a v; cont s) w.
Proof.
  intros Hc. unfold idle, expect_version, owned_snapshot, repo_get, mbind, M_bind.
  destruct (snapshot_for_owner k a (w_repo w)) as [s|] eqn:E; [|done].
  destruct (negb _); [done|]. unfold snapshot_for_owner in E. apply result_bind_Ok in E as (t & Ht & E).
  case_match; [done|]. pose proof E as Es. unfold snapshot in Es.
  apply result_bind_Ok in Es as (t' & Ht' & Es). apply result_bind_Ok in Es as (run & _ & [= <-]).
  unfold get_task in Ht'. destruct (tasks (w_repo w) !! k) eqn:Etask; [|done]. injection Ht' as ->.
  by eapply Hc.
Qed.

Lemma idle_outline {B} st s (cont : OutlineVersion -> WM B) w :
  (forall o, current_outline s = Some o -> t_status (ws_task s) = st -> idle (cont o) w) ->
  idle (o ← expect_outline st s; cont o) w.
Proof.
  intros Hc. unfold idle, expect_outline, mbind, M_bind. destruct (current_outline s) as [o|] eqn:E; [|done].
  case_decide; [by apply Hc|done].
Qed.

Lemma dead_end_idle c w k :
  dead_end k (w_repo w) -> (forall j, concerns c w j -> j = k) -> (forall st, c <> CStart st) -> idle (handle c) w.
Proof.
  intros (t & Ht & Hd) Hk Hns. destruct c as [c|c|c|c|c|c|c]; cbn [handle concerns] in *;
    try specialize (Hk _ eq_refl); try subst k.
  - by destruct (Hns c).
  - unfold reply_to_task. case_match; [done|]. apply idle_replay. unfold idle, owned_task, repo_get.
    unfold get_task. unfold mbind, M_bind. rewrite Ht. destruct (bool_decide (t_owner_id t = _)); [|done]. cbn.
    case_match; [done|]. rewrite bool_decide_eq_false_2; [done|].
    destruct Hd as [E|[E _]]; rewrite E; set_solver.
  - apply idle_replay, idle_expect. intros s t' _ Ht' Es _. apply idle_outline. intros o _ Hst.
    destruct Hd as [E|[E _]]; congruence.
  - apply idle_replay, idle_expect. intros s t' _ Ht' Es Eo. apply idle_outline. intros o Ho Hst.
    destruct Hd as [E|[E Hd]]; [congruence|]. apply idle_liftR. intros x Hp. exfalso.
    unfold unit_policy_confirm in Hp. case_match; [done|].
    destruct (List.filter _ _) as [|u l] eqn:Ef; [done|].
    assert (Hu : u ∈ o_confirmation_units o).
    { apply list_elem_of_In. eapply (proj1 (filter_In (has_unit_id (cu_unit_id c)) _ _)). rewrite Ef. by left. }
    repeat (case_match; [done|]). simplify_eq.
    repeat match goal with
    | Hb : negb _ || negb _ = false |- _ => apply orb_false_iff in Hb as [Hb _]
    | Hb : negb (bool_decide _) = false |- _ => apply negb_false_iff, bool_decide_eq_true in Hb
    end.
    eapply (Hd o u); try done; congruence.
  - apply idle_replay, idle_expect. intros s t' _ Ht' Es _. apply idle_outline. intros o _ Hst.
    destruct Hd as [E|[E _]]; congruence.
  - unfold reopen_prd. case_match; [done|]. apply idle_replay, idle_expect. intros s t' _ Ht' Es _.
    apply idle_outline. intros o _ Hst. destruct Hd as [E|[E _]]; congruence.
  - apply idle_replay, idle_expect. intros s t' _ Ht' Es _. apply idle_liftR. intros d Hc.
    unfold check_finalize in Hc. destruct (last (ws_documents s)); [|done].
    rewrite bool_decide_eq_false_2 in Hc; [done|]. destruct Hd as [E|[E _]]; congruence.
Qed.

Lemma dead_end_handle c w k :
  Inv w -> dead_end k (w_repo w) -> same_task_data k (w_repo w) (w_repo (handle c w).1).
Proof.
  intros Hinv Hd. destruct (handle_runs c w Hinv) as (j & Hj & Hs).
  destruct (decide (j = k)) as [->|Hne].
  - destruct Hd as (t & Ht & Hd').
    assert (Hns : forall st, c <> CStart st) by (intros st ->; cbn in Hj; congruence).
    assert (Hid : idle (handle c) w).
    { apply (dead_end_idle c w k); [by exists t| |done].
      intros j Hj'. by destruct c; cbn in *; congruence. }
    rewrite Hid. done.
  - eapply wsteps_other_task; [done|done| |done]. destruct Hd as (t & ? & _). by eexists.
Qed.

Lemma dead_end_commands cs w k :
  Inv w -> dead_end k (w_repo w) -> same_task_data k (w_repo w) (w_repo (run_commands cs w)).
Proof.
  unfold run_commands. revert w. induction cs as [|c cs IH]; intros w Hinv Hd; [done|]. simpl.
  pose proof (dead_end_handle c w k Hinv Hd) as Hs. etransitivity; [exact Hs|].
  apply IH; [by apply handle_inv|by eapply dead_end_same].
Qed.

(** ** Finalizing *)

(** The document may be confirmed: the command names the newest document by
    identifier and content, every unit is confirmed, and the newest quality
    result of the document, if any, has no blocking issue. *)
Definition may_finalize (c : FinalizePrd) (s : WorkflowSnapshot) (d : PrdDocumentVersion) : Prop :=
  last (ws_documents s) = Some d /\ t_status (ws_task s) = TaskStatus.FINAL_REVIEW /\
  d_document_id d = fp_document_id c /\ d_content_hash d = fp_content_hash c /\
  (exists o, current_outline s = Some o /\
     forall u, u ∈ o_confirmation_units o -> u_status u = UnitStatus.CONFIRMED) /\
  (forall q, last (relevant_quality s (d_document_id d)) = Some q -> q_confirmable q = true).

Lemma all_confirmed us :
  existsb (fun u => negb (unit_confirmed u)) us = false <-> forall u, u ∈ us -> u_status u = UnitStatus.CONFIRMED.
Proof.
  split.
  - intros E u Hu. destruct (decide (u_status u = UnitStatus.CONFIRMED)) as [|Hn]; [done|].
    assert (existsb (fun u => negb (unit_confirmed u)) us = true); [|congruence].
    apply existsb_exists. exists u. rewrite <- list_elem_of_In. split; [done|].
    unfold unit_confirmed. by rewrite bool_decide_eq_false_2.
  - intros Hall. destruct (existsb _ us) eqn:E; [|done]. apply existsb_exists in E as (u & Hu%list_elem_of_In & Hn).
    unfold unit_confirmed in Hn. by rewrite bool_decide_eq_true_2 in Hn by auto.
Qed.

Lemma check_finalize_iff c s d : check_finalize c s = Ok d <-> may_finalize c s d.
Proof.
  unfold check_finalize, may_finalize. split.
  - destruct (last (ws_documents s)) as [d0|]; [|done].
    case_bool_decide as Hst; [|done]. case_bool_decide as Hid; [|done]. case_bool_decide as Hh; [|done]. cbn.
    destruct (current_outline s) as [o|]; [|done]. destruct (existsb _ _) eqn:Ea; [done|].
    rewrite all_confirmed in Ea.
    destruct (last (relevant_quality s _)) as [q|] eqn:Eq; [destruct (q_confirmable q) eqn:Ec; [|done]|];
      intros [= <-]; split_and!; eauto; rewrite Eq; by intros ? [= <-].
  - intros (-> & Hst & Hid & Hh & (o & -> & Ha%all_confirmed) & Hq). cbv zeta.
    rewrite !bool_decide_eq_true_2 by done. cbn. rewrite Ha.
    destruct (last (relevant_quality s _)) as [q|]; [by rewrite Hq|done].
Qed.

(** The world after a confirmed finalization. *)
Lemma finalize_run c w s d :
  free_key (fp_actor_id c) (fp_idempotency_key c) w ->
  snapshot_for_owner (fp_task_id c) (fp_actor_id c) (w_repo w) = Ok s ->
  t_version (ws_task s) = fp_expected_task_version c -> may_finalize c s d ->
  exists w', finalize_prd c w = (w', snapshot (t_task_id (ws_task s)) (w_repo w')) /\
    (exists at_, tasks (w_repo w') !! t_task_id (ws_task s)
       = Some (task_bump at_ (task_set_status TaskStatus.COMPLETED (ws_task s)))) /\
    (exists at_, documents (w_repo w')
       = documents (save_document (confirm_document d (fp_actor_id c) at_) (w_repo w))) /\
    sections (w_repo w') = sections (w_repo w) /\ outlines (w_repo w') = outlines (w_repo w).
Proof.
  intros Hfree Hs Hv Hf. pose proof (proj2 (check_finalize_iff c s d) Hf) as Hc.
  destruct Hf as (_ & Hst & _).
  unfold finalize_prd, with_replay, get_repo, get_idempotency, mbind at 1, M_bind at 1. rewrite Hfree.
  unfold expect_version, owned_snapshot, repo_get, liftR, new_id, now, repo_do, repo_try, save_run, emit_event,
    checkpoint, new_record, move_task, mbind, M_bind, mret, M_ret, liftR, transition. rewrite Hs. cbn.
  rewrite Hv, Z.eqb_refl. cbn. rewrite Hc. cbn. rewrite Hst. cbn.
  rewrite Hv, Z.eqb_refl, decide_True by set_solver. cbn.
  match goal with |- exists w', (?w1, _) = _ /\ _ => exists w1 end.
  split; [reflexivity|]. cbn. rewrite dict_lookup_insert_eq. split_and!; try done; by eexists.
Qed.

(** Without the conditions nothing is written. *)
Lemma finalize_refused c w :
  free_key (fp_actor_id c) (fp_idempotency_key c) w ->
  (forall s d, snapshot_for_owner (fp_task_id c) (fp_actor_id c) (w_repo w) = Ok s ->
     t_version (ws_task s) = fp_expected_task_version c -> ~ may_finalize c s d) ->
  exists e, finalize_prd c w = (w, Raise e).
Proof.
  intros Hfree Hno. unfold finalize_prd, with_replay, get_repo, get_idempotency, mbind at 1, M_bind at 1.
  rewrite Hfree. unfold expect_version, owned_snapshot, repo_get, mbind, M_bind, liftR.
  destruct (snapshot_for_owner _ _ _) as [s|e]; [|eauto].
  destruct (Z.eqb_spec (t_version (ws_task s)) (fp_expected_task_version c)) as [Hv|]; cbn; [|eauto].
  destruct (check_finalize c s) as [d|e] eqn:E; [|eauto].
  apply check_finalize_iff in E. by destruct (Hno s d).
Qed.
End gates.

(** C3: the final gate: on an unused key, [finalize_prd] either writes nothing
    and raises, or the command named the newest document by its identifier
    and content hash, at the current version of a task in final review that
    its actor owns, with every unit of the outline confirmed and no blocking
    quality issue; and whenever this holds it does succeed: the task is
    COMPLETED with its version advanced by one, and that document, with the
    same text, is CONFIRMED. *)
Theorem finalize_gate `{Builtins} `{UniqueIds} cs c :
  let w := run_commands cs initial_world in
  get_idempotency (fp_actor_id c) (fp_idempotency_key c) (w_repo w) = None ->
  (exists e, finalize_prd c w = (w, Raise e) /\
     forall s d, snapshot_for_owner (fp_task_id c) (fp_actor_id c) (w_repo w) = Ok s ->
       t_version (ws_task s) = fp_expected_task_version c -> ~ may_finalize c s d) \/
  (exists s d w' s' d', finalize_prd c w = (w', Ok s') /\
     snapshot_for_owner (fp_task_id c) (fp_actor_id c) (w_repo w) = Ok s /\
     t_version (ws_task s) = fp_expected_task_version c /\ may_finalize c s d /\
     t_status (ws_task s') = TaskStatus.COMPLETED /\ t_version (ws_task s') = fp_expected_task_version c + 1 /\
     d' ∈ ws_documents s' /\ d_document_id d' = fp_document_id c /\ d_markdown d' = d_markdown d /\
     d_status d' = DocumentStatus.CONFIRMED /\ ws_sections s' = ws_sections s).
Proof.
  intros w Hfree. assert (Hinv : Inv w) by (apply run_commands_inv, inv_initial).
  assert (Hdec : (exists s d, snapshot_for_owner (fp_task_id c) (fp_actor_id c) (w_repo w) = Ok s /\
      t_version (ws_task s) = fp_expected_task_version c /\ may_finalize c s d) \/
    forall s d, snapshot_for_owner (fp_task_id c) (fp_actor_id c) (w_repo w) = Ok s ->
      t_version (ws_task s) = fp_expected_task_version c -> ~ may_finalize c s d).
  { destruct (snapshot_for_owner _ _ _) as [s|e]; [|by right].
    destruct (decide (t_version (ws_task s) = fp_expected_task_version c)) as [Hv|]; [|right; congruence].
    destruct (check_finalize c s) as [d|] eqn:E; [left; exists s, d; by rewrite <- check_finalize_iff|].
    right. intros s' d [= <-] _ Hd%check_finalize_iff. congruence. }
  destruct Hdec as [(s & d & Hs & Hv & Hf)|Hno]; [right|left].
  2: { destruct (finalize_refused c w Hfree Hno) as [e He]. eauto. }
  destruct (finalize_run c w s d Hfree Hs Hv Hf) as (w' & Hw' & (at1 & Ht) & (at2 & Hd) & Hsec & Hout).
  assert (Hinv' : Inv w') by (pose proof (handle_inv (CFinalize c) w Hinv) as Hi; cbn in Hi; by rewrite Hw' in Hi).
  destruct (snapshot_for_owner_task _ _ _ _ _ Hinv Hs) as [Hsnap Hof]. unfold of_task in Hof. rewrite Hof in *.
  destruct (snapshot_spec _ _ _ _ Hinv Hsnap) as (_ & _ & Hok).
  destruct (owned_snapshot_total w' (t_owner_id (ws_task s)) (fp_task_id c)) as (s' & Hs' & _);
    [done|by eexists|].
  apply (snapshot_for_owner_task _ _ _ _ _ Hinv') in Hs' as [Hs' _].
  exists s, d, w', s', (confirm_document d (fp_actor_id c) at2). rewrite Hs' in Hw'.
  assert (Hdk : d_task_id d = fp_task_id c).
  { destruct Hok as (_ & _ & _ & Hdoc & _). apply Hdoc. destruct Hf as (Hl & _).
    apply last_Some in Hl as [l ->]. set_solver. }
  unfold snapshot, get_task in Hs'. rewrite Ht in Hs'. cbn in Hs'.
  apply result_bind_Ok in Hs' as (run & _ & [= <-]). split_and!; try done.
  - cbn. by rewrite Hv.
  - cbn. rewrite Hd. cbn. rewrite <- Hdk. apply elem_of_put_in.
  - by destruct Hf as (_ & _ & ? & _).
  - cbn. rewrite Hsec. unfold snapshot in Hsnap. apply result_bind_Ok in Hsnap as (? & _ & Hsnap).
    by apply result_bind_Ok in Hsnap as (? & _ & [= <-]).
Qed.

(** dead ends: a task that failed, or whose current unit is not waiting
    for confirmation (as after a blocked grounding), is never changed again,
    whatever commands follow. *)
Theorem dead_ends_are_final `{Builtins} `{UniqueIds} cs cs' k :
  let w := run_commands cs initial_world in
  dead_end k (w_repo w) -> same_task_data k (w_repo w) (w_repo (run_commands cs' w)).
Proof. intros w. apply dead_end_commands, run_commands_inv, inv_initial. Qed.

(** ** Witnesses *)

Import Demo.

(** Finalize the document of the demonstration. *)
Definition final_cmd : FinalizePrd :=
  mkFinalizePrd "task-0" "document-23"
    (match get_list (documents (w_repo reviewed)) "task-0" with d :: _ => d_content_hash d | [] => EmptyString end)
    6 "k5" "alice".

Lemma finalize_gate_witness :
  exists w' s', finalize_prd final_cmd reviewed = (w', Ok s') /\ t_status (ws_task s') = TaskStatus.COMPLETED.
Proof.
  assert (Hfree : get_idempotency (fp_actor_id final_cmd) (fp_idempotency_key final_cmd)
    (w_repo (run_commands to_review initial_world)) = None) by (vm_compute; reflexivity).
  destruct (finalize_gate to_review final_cmd Hfree)
    as [(e & He & _)|(s & d & w' & s' & d' & Hw & _ & _ & _ & Hst & _)].
  - exfalso. apply (f_equal (fun x => is_ok (snd x))) in He. vm_compute in He. discriminate He.
  - exists w', s'. split; [exact Hw|exact Hst].
Defined.

(** A model whose units speak of the current system without listing a claim. *)
Definition vague_complete (history : list model_call) (c : model_call) : result exc json :=
  match mc_payload c with
  | UnitPayload _ _ _ _ _ _ _ _ => Ok (JObj [("content", JStr "It currently works.")])
  | _ => demo_complete history c
  end.

#[local] Instance vague : Env := demo_env vague_complete.

Lemma dead_ends_are_final_witness :
  option_map t_status (tasks (w_repo (run_commands [start_cmd; confirm_outline_cmd] initial_world)) !! "task-0")
    = Some TaskStatus.GENERATING /\
  same_task_data "task-0" (w_repo (run_commands [start_cmd; confirm_outline_cmd] initial_world))
    (w_repo (run_commands
      [CReply (mkReplyToTask "task-0" "it is documented in the wiki" 4 "k5" "alice"); confirm_first_cmd]
      (run_commands [start_cmd; confirm_outline_cmd] initial_world))).
Proof.
  split; [vm_compute; reflexivity|].
  refine (dead_ends_are_final [start_cmd; confirm_outline_cmd]
    [CReply (mkReplyToTask "task-0" "it is documented in the wiki" 4 "k5" "alice"); confirm_first_cmd] "task-0" _).
  destruct (tasks (w_repo (run_commands [start_cmd; confirm_outline_cmd] initial_world)) !! "task-0")
    as [t|] eqn:Ht; [|vm_compute in Ht; discriminate Ht].
  exists t. split; [exact Ht|]. right.
  assert (Ht' : t_status t = TaskStatus.GENERATING /\ t_current_unit_sequence t = Some 1)
    by (vm_compute in Ht; injection Ht as <-; split; reflexivity).
  destruct Ht' as [Hst Hseq]. split; [exact Hst|]. intros o u Ho Hu Hs. rewrite Hseq in Hs.
  assert (Hall : forallb (fun u => negb (bool_decide (Some (u_sequence u) = Some 1))
      || negb (bool_decide (u_status u = UnitStatus.PENDING_CONFIRMATION))) (o_confirmation_units o) = true)
    by (vm_compute in Ho; injection Ho as <-; vm_compute; reflexivity).
  rewrite forallb_forall in Hall. apply list_elem_of_In in Hu. specialize (Hall u Hu).
  rewrite bool_decide_eq_true_2 in Hall by exact Hs. intros Hp.
  rewrite bool_decide_eq_true_2 in Hall by exact Hp. discriminate Hall.
Defined.
