(* ===== verification/Tools.v ===== *)
(** * Tool actions, tool results and evidence bundles

    The data that the investigation runner exchanges with the repository
    evidence service: [tools/models.py], the signature of an action
    ([tools/registry.py]), the unknowns and bundles of [evidence/models.py] and
    the call records of [application/repository_evidence_service.py].  The
    class [EvidenceService] is the part of the service that the runner uses;
    [Evidence] implements it. *)
From stdpp Require Import base list sets strings pretty.
From Stdlib Require Import ZArith.
From S2P Require Import Prelude PyDict Json Grounding.

(** ** [tools/models.py] *)

Module ToolStatus.
Inductive ToolStatus : Type := SUCCEEDED | PARTIAL | EMPTY | FAILED | BLOCKED.
#[global] Instance ToolStatus_eq_dec : EqDecision ToolStatus.
Proof. solve_decision. Defined.
Definition value (s : ToolStatus) : string :=
  match s with
  | SUCCEEDED => "SUCCEEDED" | PARTIAL => "PARTIAL" | EMPTY => "EMPTY"
  | FAILED => "FAILED" | BLOCKED => "BLOCKED"
  end.
End ToolStatus.
Abbreviation ToolStatus := ToolStatus.ToolStatus.

Record ToolAction := mkToolAction {
  ta_tool_id : string;
  ta_tool_schema_version : string;
  ta_repository_id : string;
  ta_resolved_commit_sha : string;
  ta_arguments : list (string * json);
  ta_purpose : string
}.

Definition lower_hex (c : Ascii.ascii) : bool :=
  let n := Ascii.nat_of_ascii c in
  ((48 <=? n) && (n <=? 57) || (97 <=? n) && (n <=? 102))%nat.

(** The pattern [^[0-9a-f]{40}$]. *)
Definition commit_sha (s : string) : bool :=
  Nat.eqb (String.length s) 40 && forallb lower_hex (String.list_ascii_of_string s).

(** The constructor with its field constraints. *)
Definition tool_action (tool_id version repository_id sha : string)
    (arguments : list (string * json)) (purpose : string) : result exc ToolAction :=
  if truthy tool_id && truthy version && truthy repository_id && commit_sha sha
     && truthy purpose && (str_len purpose <=? 500)%nat
  then Ok (mkToolAction tool_id version repository_id sha arguments purpose)
  else Raise ValueError.

Record ToolResultItem := mkToolResultItem {
  ti_kind : string;
  ti_path : string;
  ti_line_start : option Z;
  ti_line_end : option Z;
  ti_column : option Z;
  ti_excerpt : option string;
  ti_blob_id : option string;
  ti_metadata : list (string * json)
}.

Record TruncationInfo := mkTruncation { tr_reason : string; tr_limit : Z; tr_returned : Z }.

Record ToolResult := mkToolResult {
  tr_status : ToolStatus;
  tr_items : list ToolResultItem;
  tr_truncation : option TruncationInfo;
  tr_public_summary : string;
  tr_error_code : option string;
  tr_duration_ms : Z
}.

(** ** [action_signature] *)
Definition action_signature `{Builtins} (a : ToolAction) : string :=
  sha256_json (JObj
    [("tool_id", JStr (ta_tool_id a));
     ("tool_schema_version", JStr (ta_tool_schema_version a));
     ("repository_id", JStr (ta_repository_id a));
     ("resolved_commit_sha", JStr (ta_resolved_commit_sha a));
     ("arguments", JObj (ta_arguments a))]).

(** ** Unknowns and bundles of [evidence/models.py] *)

Module UnknownReason.
Inductive UnknownReason : Type :=
  EMPTY_RESULT | PARTIAL_RESULT | PARSE_UNSUPPORTED | ACCESS_BLOCKED | TOOL_FAILED.
#[global] Instance UnknownReason_eq_dec : EqDecision UnknownReason.
Proof. solve_decision. Defined.
End UnknownReason.
Abbreviation UnknownReason := UnknownReason.UnknownReason.

Record UnknownItem := mkUnknown {
  ui_unknown_id : string;
  ui_tool_call_id : string;
  ui_task_id : option string;
  ui_statement : string;
  ui_reason : UnknownReason;
  ui_severity : string;
  ui_resolution_type : string
}.

Record RepositoryEvidenceBundle := mkBundle {
  b_tool_call_id : string;
  b_evidence : list SourceEvidence;
  b_facts : list DeterministicFact;
  b_unknowns : list UnknownItem;
  b_conflicts : list SourceConflict
}.

(** ** Call records of the evidence service *)

Module ToolCallStatus.
Inductive ToolCallStatus : Type := RUNNING | SUCCEEDED | PARTIAL | EMPTY | FAILED | BLOCKED.
#[global] Instance ToolCallStatus_eq_dec : EqDecision ToolCallStatus.
Proof. solve_decision. Defined.
End ToolCallStatus.
Abbreviation ToolCallStatus := ToolCallStatus.ToolCallStatus.

(** [ToolCallStatus(result.status.value)]. *)
Definition call_status (s : ToolStatus) : ToolCallStatus :=
  match s with
  | ToolStatus.SUCCEEDED => ToolCallStatus.SUCCEEDED
  | ToolStatus.PARTIAL => ToolCallStatus.PARTIAL
  | ToolStatus.EMPTY => ToolCallStatus.EMPTY
  | ToolStatus.FAILED => ToolCallStatus.FAILED
  | ToolStatus.BLOCKED => ToolCallStatus.BLOCKED
  end.

Record ToolCallRecord := mkToolCall {
  tc_tool_call_id : string;
  tc_actor_id : string;
  tc_task_id : option string;
  tc_run_id : option string;
  tc_unit_id : option string;
  tc_investigation_id : option string;
  tc_attempt : Z;
  tc_retry_of_tool_call_id : option string;
  tc_repository_id : string;
  tc_resolved_commit_sha : string;
  tc_tool_id : string;
  tc_tool_schema_version : string;
  tc_policy_version : string;
  tc_purpose : string;
  tc_arguments : list (string * json);
  tc_action_signature : string;
  tc_idempotency_key : string;
  tc_status : ToolCallStatus;
  tc_public_summary : string;
  tc_error_code : option string;
  tc_started_at : Z;
  tc_ended_at : option Z
}.

Record RepositoryToolExecution := mkExecution {
  x_tool_call : ToolCallRecord;
  x_tool_result : ToolResult;
  x_bundle : RepositoryEvidenceBundle
}.

(** The keyword arguments of [execute]. *)
Record CallScope := mkCallScope {
  cs_task_id : option string;
  cs_run_id : option string;
  cs_unit_id : option string;
  cs_investigation_id : option string;
  cs_attempt : Z;
  cs_retry_of_tool_call_id : option string
}.

(** ** What the runner uses of the evidence service *)
Class EvidenceService := {
  ev_state : Type;
  registry_validate : ToolAction -> result exc unit;
  registry_describe : list json;
  get_replay : string -> string -> ev_state -> option (string * RepositoryToolExecution);
  get_execution : string -> ev_state -> result exc RepositoryToolExecution;
  execute : ToolAction -> string -> string -> CallScope -> M ev_state exc RepositoryToolExecution
}.
