(* ===== verification/InvestigationModels.v ===== *)
(** * Investigations: data, policies and store

    [investigation/models.py], [investigation/policies.py] and
    [storage/memory_investigation.py].  Fields constrained to be non-negative
    and only ever incremented are [nat]; the token counters are [Z], since a
    model may report any integer. *)
From stdpp Require Import base list gmap sets strings pretty.
From Stdlib Require Import ZArith.
From S2P Require Import Prelude PyDict Json Grounding Tools.

(** ** [investigation/models.py] *)

Module Requiredness.
Inductive Requiredness : Type := NONE | OPTIONAL | REQUIRED.
#[global] Instance Requiredness_eq_dec : EqDecision Requiredness.
Proof. solve_decision. Defined.
Definition value (r : Requiredness) : string :=
  match r with NONE => "NONE" | OPTIONAL => "OPTIONAL" | REQUIRED => "REQUIRED" end.
End Requiredness.
Abbreviation Requiredness := Requiredness.Requiredness.

Module NeedStatus.
Inductive NeedStatus : Type := PLANNED | SKIPPED | INVESTIGATING | SATISFIED | UNSATISFIED.
#[global] Instance NeedStatus_eq_dec : EqDecision NeedStatus.
Proof. solve_decision. Defined.
End NeedStatus.
Abbreviation NeedStatus := NeedStatus.NeedStatus.

Module CoverageStatus.
Inductive CoverageStatus : Type := NOT_REQUIRED | MISSING | PARTIAL | COVERED | CONFLICTING.
#[global] Instance CoverageStatus_eq_dec : EqDecision CoverageStatus.
Proof. solve_decision. Defined.
Definition value (s : CoverageStatus) : string :=
  match s with
  | NOT_REQUIRED => "NOT_REQUIRED" | MISSING => "MISSING" | PARTIAL => "PARTIAL"
  | COVERED => "COVERED" | CONFLICTING => "CONFLICTING"
  end.
End CoverageStatus.
Abbreviation CoverageStatus := CoverageStatus.CoverageStatus.

Module InvestigationStatus.
Inductive InvestigationStatus : Type :=
  | PLANNED | RUNNING | COMPLETE | PARTIAL | EMPTY | FAILED | CANCELLED | HUMAN_INPUT_REQUIRED.
#[global] Instance InvestigationStatus_eq_dec : EqDecision InvestigationStatus.
Proof. solve_decision. Defined.
Definition value (s : InvestigationStatus) : string :=
  match s with
  | PLANNED => "PLANNED" | RUNNING => "RUNNING" | COMPLETE => "COMPLETE" | PARTIAL => "PARTIAL"
  | EMPTY => "EMPTY" | FAILED => "FAILED" | CANCELLED => "CANCELLED"
  | HUMAN_INPUT_REQUIRED => "HUMAN_INPUT_REQUIRED"
  end.
End InvestigationStatus.
Abbreviation InvestigationStatus := InvestigationStatus.InvestigationStatus.

Module StopReason.
Inductive StopReason : Type :=
  | COVERAGE_COMPLETE | NO_PROGRESS | MAX_ITERATIONS_REACHED | TOOL_BUDGET_EXHAUSTED
  | TOKEN_BUDGET_EXHAUSTED | PERMISSION_DENIED | HUMAN_INPUT_REQUIRED | USER_STOPPED
  | UNRECOVERABLE_ERROR.
#[global] Instance StopReason_eq_dec : EqDecision StopReason.
Proof. solve_decision. Defined.
Definition value (r : StopReason) : string :=
  match r with
  | COVERAGE_COMPLETE => "COVERAGE_COMPLETE" | NO_PROGRESS => "NO_PROGRESS"
  | MAX_ITERATIONS_REACHED => "MAX_ITERATIONS_REACHED"
  | TOOL_BUDGET_EXHAUSTED => "TOOL_BUDGET_EXHAUSTED"
  | TOKEN_BUDGET_EXHAUSTED => "TOKEN_BUDGET_EXHAUSTED"
  | PERMISSION_DENIED => "PERMISSION_DENIED" | HUMAN_INPUT_REQUIRED => "HUMAN_INPUT_REQUIRED"
  | USER_STOPPED => "USER_STOPPED" | UNRECOVERABLE_ERROR => "UNRECOVERABLE_ERROR"
  end.
End StopReason.
Abbreviation StopReason := StopReason.StopReason.

Record InformationNeed := mkNeed {
  n_information_need_id : string;
  n_question : string;
  n_requiredness : Requiredness;
  n_source_types : list string;
  n_required_coverage : list string;
  n_trigger_stage : string;
  n_fallback : string;
  n_status : NeedStatus;
  n_planner_version : string;
  n_context_hash : string;
  n_task_id : option string;
  n_run_id : option string;
  n_unit_id : option string;
  n_created_at : Z
}.

(** Field constraints and [validate_required_coverage]. *)
Definition validate_need (n : InformationNeed) : result exc InformationNeed :=
  if negb (truthy (n_information_need_id n) && truthy (n_question n)
           && (str_len (n_question n) <=? 1000)%nat && truthy (n_trigger_stage n)
           && truthy (n_fallback n) && truthy (n_planner_version n) && truthy (n_context_hash n))
  then Raise ValueError
  else if bool_decide (n_requiredness n = Requiredness.NONE) && negb (bool_decide (n_required_coverage n = []))
  then Raise ValueError
  else if bool_decide (n_requiredness n = Requiredness.REQUIRED) && bool_decide (n_required_coverage n = [])
  then Raise ValueError
  else if negb (bool_decide (n_requiredness n = Requiredness.NONE)) && bool_decide (n_source_types n = [])
  then Raise ValueError
  else Ok n.

Definition need_with_status (s : NeedStatus) (n : InformationNeed) : InformationNeed :=
  mkNeed (n_information_need_id n) (n_question n) (n_requiredness n) (n_source_types n)
    (n_required_coverage n) (n_trigger_stage n) (n_fallback n) s (n_planner_version n)
    (n_context_hash n) (n_task_id n) (n_run_id n) (n_unit_id n) (n_created_at n).

Record CoverageItem := mkCoverage {
  ci_key : string;
  ci_description : string;
  ci_status : CoverageStatus;
  ci_evidence_ids : list string;
  ci_fact_ids : list string;
  ci_unknown_ids : list string;
  ci_conflict_ids : list string;
  ci_updated_at_iteration : option nat
}.

Record InvestigationBudget := mkBudget {
  max_iterations : nat;
  max_tool_calls : nat;
  max_replans : nat;
  no_progress_limit : nat;
  same_action_limit : nat;
  token_budget : Z
}.

(** The defaults, and the ranges the fields are validated against. *)
Definition default_budget : InvestigationBudget := mkBudget 5 12 1 2 1 12000.

Definition budget_ok (b : InvestigationBudget) : bool :=
  ((1 <=? max_iterations b) && (max_iterations b <=? 50)
   && (1 <=? max_tool_calls b) && (max_tool_calls b <=? 100)
   && (max_replans b <=? 5)
   && (1 <=? no_progress_limit b) && (no_progress_limit b <=? 10)
   && (same_action_limit b =? 1))%nat
  && (1 <=? token_budget b)%Z.

Record Investigation := mkInvestigation {
  i_investigation_id : string;
  i_information_need_id : string;
  i_repository_id : string;
  i_resolved_commit_sha : string;
  i_status : InvestigationStatus;
  i_coverage : dict string CoverageItem;
  i_budget : InvestigationBudget;
  i_iteration_count : nat;
  i_tool_call_count : nat;
  i_replan_count : nat;
  i_no_progress_rounds : nat;
  i_token_usage : Z;
  i_completed_action_signatures : gset string;
  i_evidence_ids : list string;
  i_fact_ids : list string;
  i_unknown_ids : list string;
  i_conflict_ids : list string;
  i_stop_reason : option StopReason;
  i_policy_version : string;
  i_version : nat;
  i_task_id : option string;
  i_run_id : option string;
  i_unit_id : option string;
  i_created_at : Z;
  i_updated_at : Z
}.

Record ProposedAction := mkProposal {
  pa_tool_id : string;
  pa_tool_schema_version : string;
  pa_arguments : list (string * json);
  pa_purpose : string;
  pa_target_coverage : list string
}.

Record InvestigationStep := mkStep {
  st_step_id : string;
  st_investigation_id : string;
  st_sequence : nat;
  st_iteration : nat;
  st_step_type : string;
  st_status : string;
  st_public_summary : string;
  st_input_hash : string;
  st_output : list (string * json);
  st_created_at : Z
}.

Record InvestigationResult := mkInvestigationResult {
  ir_investigation_id : string;
  ir_status : InvestigationStatus;
  ir_stop_reason : StopReason;
  ir_coverage : dict string CoverageItem;
  ir_evidence_ids : list string;
  ir_fact_ids : list string;
  ir_unknown_ids : list string;
  ir_conflict_ids : list string;
  ir_public_summary : string;
  ir_risk_summary : list string
}.

(** ** [investigation/policies.py] *)

Definition COVERAGE_DESCRIPTIONS : dict string string := Dict
  [("repository_structure", "相关模块和候选路径已定位");
   ("api_contract", "接口字段、类型、必填、枚举或格式已确认");
   ("validation_logic", "输入或业务校验位置已确认");
   ("storage_schema", "存储字段、类型、空值、默认值和约束已确认");
   ("downstream_usage", "下游读取或引用情况已确认");
   ("tests", "当前行为和边界测试已确认");
   ("historical_rule_found", "相关历史规则已召回");
   ("source_version_identified", "历史文档和 Corpus 版本已固定");
   ("staleness_assessed", "历史资料时效性已评估");
   ("code_conflict_checked", "历史资料与当前代码事实的冲突已检查");
   ("decision_conflict_checked", "历史资料与当前目标决策的冲突已检查")].

Definition COVERAGE_TEMPLATES : dict string (list string) := Dict
  [("FIELD_OR_FORMAT_CHANGE", ["api_contract"; "validation_logic"; "storage_schema"; "tests"]);
   ("STATE_OR_RULE_CHANGE", ["validation_logic"; "downstream_usage"; "tests"]);
   ("PERMISSION_CHANGE", ["validation_logic"; "downstream_usage"; "tests"]);
   ("CODE_LOCATION_ONLY", ["repository_structure"]);
   ("HISTORICAL_PRD_CONTEXT",
    ["historical_rule_found"; "source_version_identified"; "staleness_assessed";
     "code_conflict_checked"; "decision_conflict_checked"])].

Definition required_markers : list string :=
  ["字段"; "接口"; "状态"; "权限"; "校验"; "存储"; "当前实现"; "现有逻辑"; "历史 PRD";
   "历史方案"; "沿用历史"].

Definition RequirednessPolicy_decide (suggested : Requiredness) (context : string) : Requiredness :=
  if existsb (fun marker => str_contains marker context) required_markers
  then Requiredness.REQUIRED else suggested.

Definition CoverageTemplatePolicy_build (ks : list string) : dict string CoverageItem :=
  dict_by ci_key ((fun key => mkCoverage key (get_default COVERAGE_DESCRIPTIONS key key)
                     CoverageStatus.MISSING [] [] [] [] None) <$> dedup ks).

Definition CoverageTemplatePolicy_for_kind (need_kind : string) : dict string CoverageItem :=
  CoverageTemplatePolicy_build (get_default COVERAGE_TEMPLATES need_kind []).

(** [_merge]: the concatenation, first occurrences only. *)
Definition merge_ids (left right : list string) : list string := dedup (left ++ right).

Definition covered_tools : dict string (list string) := Dict
  [("repo_tree", ["repository_structure"]);
   ("parse_openapi", ["api_contract"]);
   ("parse_database_schema", ["storage_schema"]);
   ("find_related_tests", ["tests"]);
   ("read_file", ["repository_structure"; "validation_logic"; "downstream_usage"; "tests"]);
   ("find_symbol", ["repository_structure"; "validation_logic"]);
   ("find_references", ["downstream_usage"])].

Definition evidence_ids_of (x : RepositoryToolExecution) : list string := e_evidence_id <$> b_evidence (x_bundle x).
Definition fact_ids_of (x : RepositoryToolExecution) : list string := f_fact_id <$> b_facts (x_bundle x).
Definition unknown_ids_of (x : RepositoryToolExecution) : list string := ui_unknown_id <$> b_unknowns (x_bundle x).
Definition conflict_ids_of (x : RepositoryToolExecution) : list string := sc_conflict_id <$> b_conflicts (x_bundle x).

(** The status given to one targeted key by [CoveragePolicy.update]. *)
Definition covered_status (key : string) (current : CoverageStatus) (p : ProposedAction)
    (x : RepositoryToolExecution) : CoverageStatus :=
  if negb (bool_decide (conflict_ids_of x = [])) then CoverageStatus.CONFLICTING
  else if bool_decide (tr_status (x_tool_result x) = ToolStatus.PARTIAL)
          && negb (bool_decide (evidence_ids_of x = [])) then CoverageStatus.PARTIAL
  else if bool_decide (tr_status (x_tool_result x) = ToolStatus.SUCCEEDED)
          && negb (bool_decide (evidence_ids_of x = [])) then
    if bool_decide (key ∈ get_default covered_tools (pa_tool_id p) [])
    then CoverageStatus.COVERED else CoverageStatus.PARTIAL
  else current.

Definition update_key (iteration : nat) (p : ProposedAction) (x : RepositoryToolExecution)
    (coverage : dict string CoverageItem) (key : string) : dict string CoverageItem :=
  match coverage !! key with
  | None => coverage
  | Some current =>
      if decide (ci_status current = CoverageStatus.NOT_REQUIRED) then coverage
      else <[key := mkCoverage (ci_key current) (ci_description current)
                      (covered_status key (ci_status current) p x)
                      (merge_ids (ci_evidence_ids current) (evidence_ids_of x))
                      (merge_ids (ci_fact_ids current) (fact_ids_of x))
                      (merge_ids (ci_unknown_ids current) (unknown_ids_of x))
                      (merge_ids (ci_conflict_ids current) (conflict_ids_of x))
                      (Some iteration)]> coverage
  end.

Definition CoveragePolicy_update (i : Investigation) (p : ProposedAction)
    (x : RepositoryToolExecution) : dict string CoverageItem :=
  foldl (update_key (i_iteration_count i) p x) (i_coverage i) (pa_target_coverage p).

Definition settled (s : CoverageStatus) : bool :=
  match s with CoverageStatus.COVERED | CoverageStatus.NOT_REQUIRED => true | _ => false end.

Definition CoveragePolicy_complete (coverage : dict string CoverageItem) : bool :=
  forallb (fun item => settled (ci_status item)) (values coverage).

(** The first key with the given status, and the first such key over the
    priority order of the statuses. *)
Definition first_with (coverage : dict string CoverageItem) (s : CoverageStatus) : option string :=
  fst <$> List.find (fun kv => bool_decide (ci_status kv.2 = s)) (items coverage).

Fixpoint first_some {A B} (f : A -> option B) (l : list A) : option B :=
  match l with
  | [] => None
  | x :: l' => match f x with Some y => Some y | None => first_some f l' end
  end.

Definition CoveragePolicy_next_gap (coverage : dict string CoverageItem) : option string :=
  first_some (first_with coverage)
    [CoverageStatus.CONFLICTING; CoverageStatus.MISSING; CoverageStatus.PARTIAL].

Definition pre_action_stop (i : Investigation) : option StopReason :=
  if (token_budget (i_budget i) <=? i_token_usage i)%Z then Some StopReason.TOKEN_BUDGET_EXHAUSTED
  else if (max_tool_calls (i_budget i) <=? i_tool_call_count i)%nat
  then Some StopReason.TOOL_BUDGET_EXHAUSTED
  else if (max_iterations (i_budget i) <=? i_iteration_count i)%nat
  then Some StopReason.MAX_ITERATIONS_REACHED
  else None.

Definition terminal_status (i : Investigation) (reason : StopReason) : InvestigationStatus :=
  match reason with
  | StopReason.COVERAGE_COMPLETE => InvestigationStatus.COMPLETE
  | StopReason.USER_STOPPED => InvestigationStatus.CANCELLED
  | StopReason.PERMISSION_DENIED | StopReason.HUMAN_INPUT_REQUIRED =>
      InvestigationStatus.HUMAN_INPUT_REQUIRED
  | StopReason.UNRECOVERABLE_ERROR => InvestigationStatus.FAILED
  | _ => if negb (bool_decide (i_evidence_ids i = [])) || negb (bool_decide (i_fact_ids i = []))
         then InvestigationStatus.PARTIAL else InvestigationStatus.EMPTY
  end.

Definition progress_fingerprint (i : Investigation) : gset string :=
  list_to_set (
    ((fun item => "e:" +:+ item) <$> i_evidence_ids i)
    ++ ((fun item => "f:" +:+ item) <$> i_fact_ids i)
    ++ ((fun item => "u:" +:+ item) <$> i_unknown_ids i)
    ++ ((fun item => "c:" +:+ item) <$> i_conflict_ids i)
    ++ ((fun kv => "coverage:" +:+ kv.1 +:+ ":" +:+ CoverageStatus.value (ci_status kv.2))
        <$> items (i_coverage i))).

(** ** [storage/memory_investigation.py]

    [deepcopy] isolates what is stored from what callers hold; values of the
    model are immutable, so it is the identity. *)
Record istore := mkIStore {
  is_needs : dict string InformationNeed;
  is_investigations : dict string Investigation;
  is_steps : dict string (list InvestigationStep)
}.

Definition save_need (n : InformationNeed) (s : istore) : istore :=
  mkIStore (<[n_information_need_id n := n]> (is_needs s)) (is_investigations s) (is_steps s).

Definition get_need (id : string) (s : istore) : result exc InformationNeed :=
  match is_needs s !! id with Some n => Ok n | None => Raise KeyError end.

Definition active_status (st : InvestigationStatus) : bool :=
  match st with InvestigationStatus.PLANNED | InvestigationStatus.RUNNING => true | _ => false end.

Definition put_investigation (i : Investigation) (s : istore) : istore :=
  mkIStore (is_needs s) (<[i_investigation_id i := i]> (is_investigations s)) (is_steps s).

Definition create_investigation (i : Investigation) (s : istore) : result exc istore :=
  if has_key (is_investigations s) (i_investigation_id i) then Raise InvestigationVersionConflict
  else if existsb (fun existing =>
            bool_decide (i_information_need_id existing = i_information_need_id i)
            && active_status (i_status existing)) (values (is_investigations s))
  then Raise InvestigationVersionConflict
  else Ok (put_investigation i s).

Definition get_investigation (id : string) (s : istore) : result exc Investigation :=
  match is_investigations s !! id with Some i => Ok i | None => Raise KeyError end.

Definition save_investigation (i : Investigation) (expected_version : nat) (s : istore) : result exc istore :=
  match is_investigations s !! i_investigation_id i with
  | None => Raise KeyError
  | Some current =>
      if decide (i_version current = expected_version) then Ok (put_investigation i s)
      else Raise InvestigationVersionConflict
  end.

Definition steps (id : string) (s : istore) : list InvestigationStep := get_default (is_steps s) id [].

(** The empty list [setdefault] leaves behind when the sequence is taken
    cannot be observed, but it is kept. *)
Definition append_step (st : InvestigationStep) (s : istore) : istore * result exc unit :=
  let existing := steps (st_investigation_id st) s in
  let put l := mkIStore (is_needs s) (is_investigations s) (<[st_investigation_id st := l]> (is_steps s)) in
  if existsb (fun item => Nat.eqb (st_sequence item) (st_sequence st)) existing
  then (put existing, Raise InvestigationVersionConflict)
  else (put (existing ++ [st]), Ok tt).

Definition investigations_for_task (task_id : string) (s : istore) : list Investigation :=
  List.filter (fun i => bool_decide (i_task_id i = Some task_id)) (values (is_investigations s)).
