(* ===== verification/Investigation.v ===== *)
(** * The investigation runner

    [investigation/runner.py], the action selectors of
    [investigation/planner.py] and [application/investigation_service.py].
    The runner repeatedly asks a selector for a tool action, has the evidence
    service execute it and records what was covered, within a budget.  It keeps
    the investigation in a local variable and writes it back to the store with
    a compare-and-set on its version, so the model carries both: the store,
    which other clients may change while a call to the selector or to the
    evidence service is in progress, and the local value. *)
From stdpp Require Import base list gmap sets strings pretty.
From Stdlib Require Import ZArith.
From S2P Require Import Prelude PyDict Json Grounding Tools InvestigationModels.

(** ** Collaborators *)

(** [StructuredModelResult] of [workflow/model.py]. *)
Record StructuredModelResult := mkModelResult {
  mr_model_id : string;
  mr_prompt_version : string;
  mr_structured_output : json;
  mr_raw_output_hash : string;
  mr_token_usage : list (string * json);
  mr_finish_reason : string
}.

(** The protocol [ActionSelector] with the attributes the runner reads; a
    selector without [last_model_result] has [None] there. *)
Class ActionSelector := {
  sel_state : Type;
  select : json -> bool -> M sel_state exc ProposedAction;
  last_token_usage : sel_state -> Z;
  reset_token_usage : sel_state -> sel_state;
  last_model_result : sel_state -> option StructuredModelResult
}.

(** Identifiers, the clock, and what other clients of the store do during the
    [n]-th external call. *)
Class InvestigationEnv := {
  inv_uuid4_hex : nat -> string;
  inv_utc_now : nat -> Z;
  other_clients : nat -> istore -> istore
}.

Section runner.
Context `{Builtins} `{EvidenceService} `{ActionSelector} `{InvestigationEnv}.

Record iworld := mkIWorld {
  iw_store : istore;
  iw_evidence : ev_state;
  iw_selector : sel_state;
  iw_uuids : nat;
  iw_ticks : nat;
  iw_calls : nat
}.

Definition IM (A : Type) : Type := M iworld exc A.

Definition with_store (s : istore) (w : iworld) : iworld :=
  mkIWorld s (iw_evidence w) (iw_selector w) (iw_uuids w) (iw_ticks w) (iw_calls w).

Definition store_get {A} (f : istore -> A) : IM A := fun w => (w, Ok (f (iw_store w))).

Definition store_read {A} (f : istore -> result exc A) : IM A := fun w => (w, f (iw_store w)).

Definition store_write (f : istore -> istore) : IM unit := fun w => (with_store (f (iw_store w)) w, Ok tt).

(** A write that raises without an effect. *)
Definition store_try (f : istore -> result exc istore) : IM unit := fun w =>
  match f (iw_store w) with
  | Ok s => (with_store s w, Ok tt)
  | Raise e => (w, Raise e)
  end.

Definition store_do (f : istore -> istore * result exc unit) : IM unit := fun w =>
  let (s, r) := f (iw_store w) in (with_store s w, r).

Definition inv_id (prefix : string) : IM string := fun w =>
  (mkIWorld (iw_store w) (iw_evidence w) (iw_selector w) (S (iw_uuids w)) (iw_ticks w) (iw_calls w),
   Ok (prefix +:+ "-" +:+ inv_uuid4_hex (iw_uuids w))).

Definition inv_now : IM Z := fun w =>
  (mkIWorld (iw_store w) (iw_evidence w) (iw_selector w) (iw_uuids w) (S (iw_ticks w)) (iw_calls w),
   Ok (inv_utc_now (iw_ticks w))).

(** A call to the selector, during which other clients use the store. *)
Definition call_selector {A} (m : M sel_state exc A) : IM A := fun w =>
  let (s, r) := m (iw_selector w) in
  (mkIWorld (other_clients (iw_calls w) (iw_store w)) (iw_evidence w) s (iw_uuids w) (iw_ticks w)
     (S (iw_calls w)), r).

(** A call to the evidence service. *)
Definition call_evidence {A} (m : M ev_state exc A) : IM A := fun w =>
  let (s, r) := m (iw_evidence w) in
  (mkIWorld (other_clients (iw_calls w) (iw_store w)) s (iw_selector w) (iw_uuids w) (iw_ticks w)
     (S (iw_calls w)), r).

(** ** Field updates *)

Definition set_status (st : InvestigationStatus) (i : Investigation) : Investigation :=
  mkInvestigation (i_investigation_id i) (i_information_need_id i) (i_repository_id i)
    (i_resolved_commit_sha i) st (i_coverage i) (i_budget i) (i_iteration_count i)
    (i_tool_call_count i) (i_replan_count i) (i_no_progress_rounds i) (i_token_usage i)
    (i_completed_action_signatures i) (i_evidence_ids i) (i_fact_ids i) (i_unknown_ids i)
    (i_conflict_ids i) (i_stop_reason i) (i_policy_version i) (i_version i) (i_task_id i)
    (i_run_id i) (i_unit_id i) (i_created_at i) (i_updated_at i).

Definition set_stop_reason (r : StopReason) (i : Investigation) : Investigation :=
  mkInvestigation (i_investigation_id i) (i_information_need_id i) (i_repository_id i)
    (i_resolved_commit_sha i) (i_status i) (i_coverage i) (i_budget i) (i_iteration_count i)
    (i_tool_call_count i) (i_replan_count i) (i_no_progress_rounds i) (i_token_usage i)
    (i_completed_action_signatures i) (i_evidence_ids i) (i_fact_ids i) (i_unknown_ids i)
    (i_conflict_ids i) (Some r) (i_policy_version i) (i_version i) (i_task_id i)
    (i_run_id i) (i_unit_id i) (i_created_at i) (i_updated_at i).

(** Replace the five counters. *)
Definition set_counters (iterations calls replans rounds : nat) (tokens : Z) (i : Investigation) : Investigation :=
  mkInvestigation (i_investigation_id i) (i_information_need_id i) (i_repository_id i)
    (i_resolved_commit_sha i) (i_status i) (i_coverage i) (i_budget i) iterations calls replans
    rounds tokens (i_completed_action_signatures i) (i_evidence_ids i) (i_fact_ids i)
    (i_unknown_ids i) (i_conflict_ids i) (i_stop_reason i) (i_policy_version i) (i_version i)
    (i_task_id i) (i_run_id i) (i_unit_id i) (i_created_at i) (i_updated_at i).

Definition bump_iteration (i : Investigation) : Investigation :=
  set_counters (S (i_iteration_count i)) (i_tool_call_count i) (i_replan_count i)
    (i_no_progress_rounds i) (i_token_usage i) i.
Definition bump_tool_calls (i : Investigation) : Investigation :=
  set_counters (i_iteration_count i) (S (i_tool_call_count i)) (i_replan_count i)
    (i_no_progress_rounds i) (i_token_usage i) i.
Definition bump_replans (i : Investigation) : Investigation :=
  set_counters (i_iteration_count i) (i_tool_call_count i) (S (i_replan_count i))
    (i_no_progress_rounds i) (i_token_usage i) i.
Definition set_rounds (n : nat) (i : Investigation) : Investigation :=
  set_counters (i_iteration_count i) (i_tool_call_count i) (i_replan_count i) n (i_token_usage i) i.
Definition add_tokens (n : Z) (i : Investigation) : Investigation :=
  set_counters (i_iteration_count i) (i_tool_call_count i) (i_replan_count i)
    (i_no_progress_rounds i) (i_token_usage i + n) i.

(** [_execution_updates]. *)
Definition execution_updates (p : ProposedAction) (x : RepositoryToolExecution) (signature : string)
    (i : Investigation) : Investigation :=
  mkInvestigation (i_investigation_id i) (i_information_need_id i) (i_repository_id i)
    (i_resolved_commit_sha i) (i_status i) (CoveragePolicy_update i p x) (i_budget i)
    (i_iteration_count i) (i_tool_call_count i) (i_replan_count i) (i_no_progress_rounds i)
    (i_token_usage i)
    (match tr_status (x_tool_result x) with
     | ToolStatus.SUCCEEDED | ToolStatus.PARTIAL | ToolStatus.EMPTY =>
         i_completed_action_signatures i ∪ {[ signature ]}
     | _ => i_completed_action_signatures i
     end)
    (merge_ids (i_evidence_ids i) (evidence_ids_of x)) (merge_ids (i_fact_ids i) (fact_ids_of x))
    (merge_ids (i_unknown_ids i) (unknown_ids_of x)) (merge_ids (i_conflict_ids i) (conflict_ids_of x))
    (i_stop_reason i) (i_policy_version i) (i_version i) (i_task_id i) (i_run_id i) (i_unit_id i)
    (i_created_at i) (i_updated_at i).

Definition stamp (version : nat) (now : Z) (i : Investigation) : Investigation :=
  mkInvestigation (i_investigation_id i) (i_information_need_id i) (i_repository_id i)
    (i_resolved_commit_sha i) (i_status i) (i_coverage i) (i_budget i) (i_iteration_count i)
    (i_tool_call_count i) (i_replan_count i) (i_no_progress_rounds i) (i_token_usage i)
    (i_completed_action_signatures i) (i_evidence_ids i) (i_fact_ids i) (i_unknown_ids i)
    (i_conflict_ids i) (i_stop_reason i) (i_policy_version i) version (i_task_id i)
    (i_run_id i) (i_unit_id i) (i_created_at i) now.

(** ** The helpers of the runner *)

(** [_save(investigation, **updates)], the updates given as a function. *)
Definition save (f : Investigation -> Investigation) (i : Investigation) : IM Investigation :=
  now ← inv_now;
  let updated := stamp (S (i_version i)) now (f i) in
  store_try (save_investigation updated (i_version i));;
  mret updated.

(** [_step]. *)
Definition step (step_type status summary : string) (output : list (string * json)) (i : Investigation)
    : IM unit :=
  existing ← store_get (steps (i_investigation_id i));
  id ← inv_id "investigation-step";
  now ← inv_now;
  store_do (append_step (mkStep id (i_investigation_id i) (S (length existing)) (i_iteration_count i)
    step_type status summary (sha256_json (JObj output)) output now)).

(** [_finish]. *)
Definition finish (reason : StopReason) (i : Investigation) : IM Investigation :=
  let status := terminal_status i reason in
  finished ← save (fun i => set_stop_reason reason (set_status status i)) i;
  step "FINALIZE" "SUCCEEDED" ("调查结束：" +:+ StopReason.value reason)
    [("status", JStr (InvestigationStatus.value status)); ("stop_reason", JStr (StopReason.value reason))]
    finished;;
  mret finished.

(** [_record_no_progress]. *)
Definition record_no_progress (i : Investigation) : IM Investigation :=
  save (fun i => set_rounds (S (i_no_progress_rounds i)) i) i.

Definition jopt (s : option string) : json := match s with Some x => JStr x | None => JNull end.
Definition jstrs (l : list string) : json := JArr (JStr <$> l).

(** One entry of [_prior_tool_results]; [None] is [continue]. *)
Definition prior_tool_result (ev : ev_state) (st : InvestigationStep) : result exc (option json) :=
  if negb (bool_decide (st_step_type st = "EXECUTE_TOOL")) then Ok None
  else match jget "tool_call_id" (st_output st) with
  | Some (JStr id) =>
      if negb (truthy id) then Ok None
      else match get_execution id ev with
      | Raise (KeyError | TypeError | ValueError) => Ok None
      | Raise e => Raise e
      | Ok x => Ok (Some (JObj
          [("iteration", JInt (Z.of_nat (st_iteration st)));
           ("tool_id", JStr (tc_tool_id (x_tool_call x)));
           ("status", JStr (ToolStatus.value (tr_status (x_tool_result x))));
           ("public_summary", JStr (tr_public_summary (x_tool_result x)));
           ("evidence_ids", jstrs (evidence_ids_of x));
           ("fact_ids", jstrs (fact_ids_of x));
           ("unknown_ids", jstrs (unknown_ids_of x));
           ("conflict_ids", jstrs (conflict_ids_of x))]))
      end
  | _ => Ok None
  end.

Definition prior_tool_results (ev : ev_state) (prior : list InvestigationStep) : result exc (list json) :=
  result_bind (fun l => Ok (last_n 5 (omap (fun x => x) l))) (result_map (prior_tool_result ev) prior).

Definition prior_public_step (st : InvestigationStep) : json :=
  JObj [("iteration", JInt (Z.of_nat (st_iteration st))); ("step_type", JStr (st_step_type st));
        ("status", JStr (st_status st)); ("summary", JStr (st_public_summary st))].

Definition coverage_statuses (coverage : dict string CoverageItem) : json :=
  JObj ((fun kv => (kv.1, JStr (CoverageStatus.value (ci_status kv.2)))) <$> items coverage).

Definition remaining (budget used : nat) : json := JInt (Z.of_nat budget - Z.of_nat used).

(** [_selector_payload]. *)
Definition selector_payload (gap : option string) (i : Investigation) : IM json :=
  need ← store_read (get_need (i_information_need_id i));
  prior ← store_get (steps (i_investigation_id i));
  ev ← gets iw_evidence;
  results ← liftR (prior_tool_results ev prior);
  mret (JObj
    [("investigation_id", JStr (i_investigation_id i));
     ("information_need_id", JStr (i_information_need_id i));
     ("question", JStr (n_question need));
     ("requiredness", JStr (Requiredness.value (n_requiredness need)));
     ("repository_id", JStr (i_repository_id i));
     ("resolved_commit_sha", JStr (i_resolved_commit_sha i));
     ("gap", jopt gap);
     ("coverage", coverage_statuses (i_coverage i));
     ("completed_action_signatures",
      jstrs (sort_by String.leb (elements (i_completed_action_signatures i))));
     ("available_tools", JArr registry_describe);
     ("prior_public_steps", JArr (prior_public_step <$> last_n 10 prior));
     ("prior_tool_results", JArr results);
     ("remaining_budget", JObj
       [("iterations", remaining (max_iterations (i_budget i)) (i_iteration_count i));
        ("tool_calls", remaining (max_tool_calls (i_budget i)) (i_tool_call_count i));
        ("replans", remaining (max_replans (i_budget i)) (i_replan_count i));
        ("tokens", JInt (token_budget (i_budget i) - i_token_usage i))])]).

(** [_result]. *)
Definition result_of (i : Investigation) : InvestigationResult :=
  let reason := default StopReason.UNRECOVERABLE_ERROR (i_stop_reason i) in
  mkInvestigationResult (i_investigation_id i) (i_status i) reason (i_coverage i) (i_evidence_ids i)
    (i_fact_ids i) (i_unknown_ids i) (i_conflict_ids i)
    ("调查以 " +:+ InvestigationStatus.value (i_status i) +:+ " 结束：" +:+ StopReason.value reason)
    ((fun kv => kv.1 +:+ ": " +:+ CoverageStatus.value (ci_status kv.2)) <$>
       List.filter (fun kv => negb (settled (ci_status kv.2))) (items (i_coverage i))).

(** ** The loop, over the store and the local variable [investigation] *)

Definition LM (A : Type) : Type := M (iworld * Investigation) exc A.

Definition local : LM Investigation := gets snd.

(** [investigation = m(investigation)]: an exception leaves the variable. *)
Definition assign (m : Investigation -> IM Investigation) : LM unit := fun st =>
  match m st.2 st.1 with
  | (w, Ok i) => ((w, i), Ok tt)
  | (w, Raise e) => ((w, st.2), Raise e)
  end.

(** A call that reads the variable. *)
Definition on {A} (m : Investigation -> IM A) : LM A := fun st =>
  let (w, r) := m st.2 st.1 in ((w, st.2), r).

(** [try: m except ...]: the outcome as a value. *)
Definition attempt {A} (m : LM A) : LM (result exc A) := fun st => let (st', r) := m st in (st', Ok r).

Definition when (b : bool) (m : LM unit) : LM unit := if b then m else mret tt.

Definition model_output (m : StructuredModelResult) : list (string * json) :=
  [("model_id", JStr (mr_model_id m)); ("prompt_version", JStr (mr_prompt_version m));
   ("raw_output_hash", JStr (mr_raw_output_hash m)); ("token_usage", JObj (mr_token_usage m));
   ("finish_reason", JStr (mr_finish_reason m))].

(** Charge the tokens the selector reports and reset its counter. *)
Definition charge_tokens : LM unit :=
  tokens ← on (fun _ => gets (fun w => last_token_usage (iw_selector w)));
  when (negb (Z.eqb tokens 0))
    (assign (save (add_tokens tokens));;
     on (fun _ => modify (fun w => mkIWorld (iw_store w) (iw_evidence w)
       (reset_token_usage (iw_selector w)) (iw_uuids w) (iw_ticks w) (iw_calls w)))).

Definition tokens_exhausted (i : Investigation) : bool := (token_budget (i_budget i) <=? i_token_usage i)%Z.
Definition stalled (i : Investigation) : bool :=
  (no_progress_limit (i_budget i) <=? i_no_progress_rounds i)%nat.

(** Whether a proposal targets an open coverage item. *)
Definition targets_gap (p : ProposedAction) (i : Investigation) : bool :=
  existsb (fun key => match i_coverage i !! key with
                      | Some item => negb (settled (ci_status item))
                      | None => false
                      end) (pa_target_coverage p).

(** The body of the first [try]; [None] is its [continue]. *)
Definition choose_action (payload : json) (replan : bool) : LM (option (ProposedAction * ToolAction)) :=
  p ← on (fun _ => call_selector (select payload replan));
  answer ← on (fun _ => gets (fun w => last_model_result (iw_selector w)));
  match answer with
  | Some m => on (step "CALL_MODEL" "SUCCEEDED" "模型已返回结构化调查动作" (model_output m))
  | None => mret tt
  end;;
  charge_tokens;;
  i ← local;
  if tokens_exhausted i then
    assign (finish StopReason.TOKEN_BUDGET_EXHAUSTED);; mret None
  else if negb (targets_gap p i) then raise ValueError
  else
    action ← liftR (tool_action (pa_tool_id p) (pa_tool_schema_version p) (i_repository_id i)
      (i_resolved_commit_sha i) (pa_arguments p) (pa_purpose p));
    liftR (registry_validate action);;
    mret (Some (p, action)).

(** [if no_progress_rounds >= no_progress_limit: finish]. *)
Definition stop_if_stalled : LM unit :=
  i ← local; when (stalled i) (assign (finish StopReason.NO_PROGRESS)).

(** [except ModelApiError]. *)
Definition model_api_failed (code : string) (retryable : bool) : LM unit :=
  on (step "CALL_MODEL" "FAILED" "模型服务未能返回调查动作"
        [("error_code", JStr code); ("retryable", JBool retryable)]);;
  assign (finish StopReason.UNRECOVERABLE_ERROR);;
  raise (ModelApiError code retryable).

(** [except Exception] around the selection. *)
Definition selection_failed : LM unit :=
  charge_tokens;;
  on (step "VALIDATE_ACTION" "FAILED" "调查动作未通过结构或工具策略校验" []);;
  assign record_no_progress;;
  i ← local;
  if tokens_exhausted i then assign (finish StopReason.TOKEN_BUDGET_EXHAUSTED)
  else stop_if_stalled.

Definition idempotency_key_of (i : Investigation) (signature : string) : string :=
  "investigation:" +:+ i_investigation_id i +:+ ":" +:+ "action:" +:+ signature +:+ ":attempt:1".

Definition execute_action (actor_id : string) (action : ToolAction) (key : string) (i : Investigation)
    : IM RepositoryToolExecution :=
  call_evidence (execute action actor_id key
    (mkCallScope (i_task_id i) (i_run_id i) (i_unit_id i) (Some (i_investigation_id i)) 1 None)).

(** What follows a successful [execute]. *)
Definition record_execution (p : ProposedAction) (x : RepositoryToolExecution) (signature : string)
    (before : gset string) : LM unit :=
  assign (save (execution_updates p x signature));;
  i ← local;
  let has_progress := negb (bool_decide (progress_fingerprint i ∖ before = ∅)) in
  assign (save (fun i => set_rounds (if has_progress then 0 else S (i_no_progress_rounds i)) i));;
  on (step "EXECUTE_TOOL" (ToolStatus.value (tr_status (x_tool_result x)))
        (tr_public_summary (x_tool_result x))
        [("tool_call_id", JStr (tc_tool_call_id (x_tool_call x))); ("has_progress", JBool has_progress)]);;
  i ← local;
  if CoveragePolicy_complete (i_coverage i) then assign (finish StopReason.COVERAGE_COMPLETE)
  else stop_if_stalled.

(** From the signature of the action to the end of the loop body. *)
Definition perform (actor_id : string) (p : ProposedAction) (action : ToolAction) : LM unit :=
  let signature := action_signature action in
  i ← local;
  if decide (signature ∈ i_completed_action_signatures i) then
    on (step "VALIDATE_ACTION" "BLOCKED" "重复调查动作已被拒绝" [("action_signature", JStr signature)]);;
    assign record_no_progress;;
    stop_if_stalled
  else
    on (step "SELECT_NEXT_ACTION" "SUCCEEDED" (pa_purpose p)
          [("tool_id", JStr (pa_tool_id p)); ("target_coverage", jstrs (pa_target_coverage p));
           ("action_signature", JStr signature)]);;
    let key := idempotency_key_of i signature in
    replay ← on (fun _ => gets (fun w => get_replay actor_id key (iw_evidence w)));
    when (bool_decide (replay = None)) (assign (save bump_tool_calls));;
    outcome ← attempt (on (execute_action actor_id action key));
    match outcome with
    | Ok x => record_execution p x signature (progress_fingerprint i)
    | Raise _ =>
        on (step "EXECUTE_TOOL" "FAILED" "调查工具调用未能安全完成" []);;
        assign record_no_progress;;
        stop_if_stalled
    end.

(** One pass through the loop body after the stop tests. *)
Definition iteration (actor_id : string) : LM unit :=
  i ← local;
  let gap := CoveragePolicy_next_gap (i_coverage i) in
  assign (save bump_iteration);;
  on (step "ASSESS_GAPS" "SUCCEEDED" ("当前优先调查缺口：" +:+ or_else gap "无") [("gap", jopt gap)]);;
  i ← local;
  let replan := (0 <? i_no_progress_rounds i)%nat && (i_replan_count i <? max_replans (i_budget i))%nat in
  when replan (assign (save bump_replans);; on (step "REPLAN" "SUCCEEDED" "已执行一次调查重规划" []));;
  payload ← on (selector_payload gap);
  chosen ← attempt (choose_action payload replan);
  match chosen with
  | Raise (ModelApiError code retryable) => model_api_failed code retryable
  | Raise _ => selection_failed
  | Ok None => mret tt
  | Ok (Some (p, action)) => perform actor_id p action
  end.

(** The [while] loop; [false] means that the fuel ran out. *)
Fixpoint loop (fuel : nat) (actor_id : string) : LM bool :=
  i ← local;
  if decide (i_status i = InvestigationStatus.RUNNING) then
    match fuel with
    | O => mret false
    | S fuel' =>
        if CoveragePolicy_complete (i_coverage i) then
          assign (finish StopReason.COVERAGE_COMPLETE);; mret true
        else match pre_action_stop i with
        | Some reason => assign (finish reason);; mret true
        | None => iteration actor_id;; loop fuel' actor_id
        end
    end
  else mret true.

Definition loop_fuel (i : Investigation) : nat :=
  S (max_iterations (i_budget i) - i_iteration_count i).

(** The loop as a call, and [_result] of what the variable holds after it. *)
Definition run_loop (actor_id : string) (i : Investigation) : IM (option InvestigationResult) := fun w =>
  match loop (loop_fuel i) actor_id (w, i) with
  | ((w', i'), Ok true) => (w', Ok (Some (result_of i')))
  | ((w', _), Ok false) => (w', Ok None)
  | ((w', _), Raise e) => (w', Raise e)
  end.

Definition run (investigation_id actor_id : string) : IM (option InvestigationResult) :=
  i ← store_read (get_investigation investigation_id);
  match i_status i with
  | InvestigationStatus.PLANNED =>
      i ← save (set_status InvestigationStatus.RUNNING) i;
      step "START" "SUCCEEDED" "调查已开始" [] i;;
      run_loop actor_id i
  | InvestigationStatus.RUNNING => run_loop actor_id i
  | _ => mret (Some (result_of i))
  end.

Definition cancel (investigation_id : string) : IM InvestigationResult :=
  i ← store_read (get_investigation investigation_id);
  i ← (if active_status (i_status i) then finish StopReason.USER_STOPPED i else mret i);
  mret (result_of i).

(** ** [application/investigation_service.py] *)

(** The fields of [Investigation] that its constructor validates. *)
Definition investigation_ok (i : Investigation) : bool :=
  truthy (i_investigation_id i) && truthy (i_information_need_id i) && truthy (i_repository_id i)
  && commit_sha (i_resolved_commit_sha i).

(** [create]; a budget is validated where it is constructed. *)
Definition create (need : InformationNeed) (repository_id resolved_commit_sha : string)
    (budget : option InvestigationBudget) : IM (option Investigation) :=
  store_write (save_need need);;
  if decide (n_requiredness need = Requiredness.NONE) then
    store_write (save_need (need_with_status NeedStatus.SKIPPED need));;
    mret None
  else if decide (n_required_coverage need = []) then raise ValueError
  else
    id ← inv_id "investigation";
    created ← inv_now;
    updated ← inv_now;
    let i := mkInvestigation id (n_information_need_id need) repository_id resolved_commit_sha
      InvestigationStatus.PLANNED (CoverageTemplatePolicy_build (n_required_coverage need))
      (default default_budget budget) 0 0 0 0 0 ∅ [] [] [] [] None
      ("investigation.v1+" +:+ str_take 12 (str_drop_bytes 7 (sha256_json (jstrs (n_required_coverage need)))))
      1 (n_task_id need) (n_run_id need) (n_unit_id need) created updated in
    if negb (investigation_ok i) then raise ValueError
    else
      store_try (create_investigation i);;
      store_write (save_need (need_with_status NeedStatus.INVESTIGATING need));;
      mret (Some i).

(** [InvestigationApplicationService.run]. *)
Definition service_run (investigation_id actor_id : string) : IM (option InvestigationResult) :=
  outcome ← run investigation_id actor_id;
  match outcome with
  | None => mret None
  | Some r =>
      i ← store_read (get_investigation investigation_id);
      need ← store_read (get_need (i_information_need_id i));
      store_write (save_need (need_with_status
        (if decide (ir_status r = InvestigationStatus.COMPLETE) then NeedStatus.SATISFIED
         else NeedStatus.UNSATISFIED) need));;
      mret (Some r)
  end.

Definition context (investigation_id : string) : IM json :=
  i ← store_read (get_investigation investigation_id);
  mret (JObj
    [("investigation_id", JStr (i_investigation_id i));
     ("status", JStr (InvestigationStatus.value (i_status i)));
     ("stop_reason", jopt (StopReason.value <$> i_stop_reason i));
     ("coverage", coverage_statuses (i_coverage i));
     ("fact_ids", jstrs (i_fact_ids i)); ("unknown_ids", jstrs (i_unknown_ids i));
     ("conflict_ids", jstrs (i_conflict_ids i)); ("evidence_ids", jstrs (i_evidence_ids i))]).
End runner.
