(* ===== verification/Selectors.v ===== *)
(** * Action selectors and the information-need planner

    [investigation/planner.py] and the deterministic selector of
    [application/default_investigation.py].  The remote model is a parameter:
    its answer to a call may depend on the calls made before. *)
From stdpp Require Import base list gmap sets strings pretty.
From Stdlib Require Import ZArith.
From S2P Require Import Prelude PyDict Json Grounding Tools InvestigationModels Investigation.
From S2P Require Import Domain Quality WorkflowRepo WorkflowNodes.

(** ** Structured proposals *)

Definition has_only (allowed : list string) (l : list (string * json)) : bool :=
  forallb (fun kv => bool_decide (kv.1 ∈ allowed)) l.

(** A [str] field with bounds on its length. *)
Definition str_field (key : string) (limit : option nat) (l : list (string * json)) : result exc string :=
  match jget key l with
  | Some (JStr s) =>
      if truthy s && match limit with Some n => (str_len s <=? n)%nat | None => true end
      then Ok s else Raise ValueError
  | _ => Raise ValueError
  end.

(** A [tuple[str, ...]] field that defaults to the empty tuple. *)
Definition strs_field (key : string) (l : list (string * json)) : result exc (list string) :=
  match jget key l with
  | None => Ok []
  | Some (JArr vs) => result_map (fun v => match v with JStr s => Ok s | _ => Raise ValueError end) vs
  | Some _ => Raise ValueError
  end.

(** [ProposedAction.model_validate]. *)
Definition validate_proposal (j : json) : result exc ProposedAction :=
  match j with
  | JObj l =>
      if negb (has_only ["tool_id"; "tool_schema_version"; "arguments"; "purpose"; "target_coverage"] l)
      then Raise ValueError
      else
        result_bind (fun tool_id =>
        result_bind (fun version =>
        result_bind (fun arguments =>
        result_bind (fun purpose =>
        result_bind (fun targets => Ok (mkProposal tool_id version arguments purpose targets))
          (strs_field "target_coverage" l))
          (str_field "purpose" (Some 500%nat) l))
          (match jget "arguments" l with Some (JObj a) => Ok a | _ => Raise ValueError end))
          (match jget "tool_schema_version" l with
           | None => Ok "1" | Some _ => str_field "tool_schema_version" None l end))
          (str_field "tool_id" None l)
  | _ => Raise ValueError
  end.

(** ** [ModelActionSelector] *)

Record selector_call := mkSelectorCall { sc_operation : string; sc_payload : json; sc_repair : bool }.

Class SelectorModel :=
  selector_complete : list selector_call -> selector_call -> result exc StructuredModelResult.

Record model_selector := mkModelSelector {
  ms_calls : list selector_call;
  ms_last_token_usage : Z;
  ms_last_model_result : option StructuredModelResult
}.

Section model_selector.
Context `{Builtins} `{SelectorModel}.

(** [usage.get("total_tokens") or usage.get("total") or sum(...)], as an
    [int]; [bool] is a subclass of [int]. *)
Definition usage_sum (usage : list (string * json)) : Z :=
  foldr (fun kv acc => match kv.2 with
                       | JInt z => z + acc
                       | JBool b => (if b then 1 else 0) + acc
                       | _ => acc
                       end) 0 usage.

Definition usage_total (usage : list (string * json)) : result exc Z :=
  let truthy_at key := match jget key usage with Some v => if jtruthy v then Some v else None | None => None end in
  match truthy_at "total_tokens", truthy_at "total" with
  | Some v, _ => py_int v
  | None, Some v => py_int v
  | None, None => Ok (usage_sum usage)
  end.

(** One pass of the loop: the call, the accounting, the validation. *)
Definition select_once (operation : string) (payload : json) (should_repair : bool)
    : M model_selector exc (result exc ProposedAction) := fun s =>
  let call := mkSelectorCall operation payload should_repair in
  let called := ms_calls s ++ [call] in
  match selector_complete (ms_calls s) call with
  | Raise e => (mkModelSelector called (ms_last_token_usage s) (ms_last_model_result s), Raise e)
  | Ok r =>
      match usage_total (mr_token_usage r) with
      | Raise e => (mkModelSelector called (ms_last_token_usage s) (Some r), Raise e)
      | Ok n => (mkModelSelector called (ms_last_token_usage s + n) (Some r),
                 Ok (validate_proposal (mr_structured_output r)))
      end
  end.

Definition model_select (payload : json) (repair replan : bool) : M model_selector exc ProposedAction :=
  let operation := if replan then "replan_investigation_action" else "select_investigation_action" in
  first ← select_once operation payload repair;
  match first with
  | Ok p => mret p
  | Raise (TypeError | ValueError) =>
      second ← select_once operation payload true;
      match second with
      | Ok p => mret p
      | Raise (TypeError | ValueError) => raise ValueError
      | Raise e => raise e
      end
  | Raise e => raise e
  end.

Definition ModelActionSelector : ActionSelector := {|
  sel_state := model_selector;
  select := fun payload replan => model_select payload false replan;
  last_token_usage := ms_last_token_usage;
  reset_token_usage := fun s => mkModelSelector (ms_calls s) 0 (ms_last_model_result s);
  last_model_result := ms_last_model_result
|}.
End model_selector.

(** ** [ScriptedActionSelector] *)

Record scripted_selector := mkScripted {
  ss_actions : list ProposedAction;
  ss_index : nat;
  ss_last_token_usage : Z
}.

Definition scripted_init (actions : list ProposedAction) : result exc scripted_selector :=
  match actions with [] => Raise ValueError | _ => Ok (mkScripted actions 0 0) end.

Definition scripted_select : M scripted_selector exc ProposedAction := fun s =>
  let index := Nat.min (ss_index s) (length (ss_actions s) - 1) in
  (mkScripted (ss_actions s) (S (ss_index s)) (ss_last_token_usage s),
   match ss_actions s !! index with Some p => Ok p | None => Raise IndexError end).

Definition ScriptedActionSelector : ActionSelector := {|
  sel_state := scripted_selector;
  select := fun _ _ => scripted_select;
  last_token_usage := ss_last_token_usage;
  reset_token_usage := fun s => mkScripted (ss_actions s) (ss_index s) 0;
  last_model_result := fun _ => None
|}.

(** ** [RepositoryStructureSelector] *)

(** [payload.get("gap") or "repository_structure"]; the payload holds a key of
    the coverage or [None]. *)
Definition structure_select (payload : json) : ProposedAction :=
  let gap := match payload with
             | JObj l => match jget "gap" l with Some (JStr s) => or_else (Some s) "repository_structure"
                         | _ => "repository_structure" end
             | _ => "repository_structure"
             end in
  mkProposal "repo_tree" "1" [("prefix", JStr EmptyString); ("max_depth", JInt 5)]
    "定位与当前 PRD 单元相关的仓库结构" [gap].

(** [last_token_usage] is a class attribute that the runner never has a reason
    to assign, since it is zero. *)
Definition RepositoryStructureSelector : ActionSelector := {|
  sel_state := Z;
  select := fun payload _ => fun s => (s, Ok (structure_select payload));
  last_token_usage := fun s => s;
  reset_token_usage := fun _ => 0;
  last_model_result := fun _ => None
|}.

(** ** [InformationNeedPlanner] *)

Record PlannedNeedDraft := mkDraft {
  pd_question : string;
  pd_suggested_requiredness : Requiredness;
  pd_need_kind : string;
  pd_source_types : list string;
  pd_suggested_coverage : list string;
  pd_fallback : string;
  pd_public_reason : string
}.

Definition Requiredness_of (s : string) : result exc Requiredness :=
  if decide (s = "NONE") then Ok Requiredness.NONE
  else if decide (s = "OPTIONAL") then Ok Requiredness.OPTIONAL
  else if decide (s = "REQUIRED") then Ok Requiredness.REQUIRED
  else Raise ValueError.

Definition validate_draft (j : json) : result exc PlannedNeedDraft :=
  match j with
  | JObj l =>
      if negb (has_only ["question"; "suggested_requiredness"; "need_kind"; "source_types";
                         "suggested_coverage"; "fallback"; "public_reason"] l)
      then Raise ValueError
      else
        result_bind (fun question =>
        result_bind (fun requiredness =>
        result_bind (fun kind =>
        result_bind (fun sources =>
        result_bind (fun coverage =>
        result_bind (fun fallback =>
        result_bind (fun reason => Ok (mkDraft question requiredness kind sources coverage fallback reason))
          (str_field "public_reason" None l))
          (str_field "fallback" None l))
          (strs_field "suggested_coverage" l))
          (strs_field "source_types" l))
          (str_field "need_kind" None l))
          (result_bind Requiredness_of (str_field "suggested_requiredness" None l)))
          (str_field "question" (Some 1000%nat) l)
  | _ => Raise ValueError
  end.

(** What [plan] makes of a validated draft. *)
Definition need_of_draft `{Builtins} (draft : PlannedNeedDraft) (context : list (string * json))
    (id trigger_stage : string) (task_id run_id unit_id : option string) (created_at : Z)
    : result exc InformationNeed :=
  let context_text := sha256_json (JObj context) +:+ " " +:+ str_join " " ((fun kv => py_str kv.2) <$> context) in
  let requiredness := RequirednessPolicy_decide (pd_suggested_requiredness draft) context_text in
  let suggested := dedup (pd_suggested_coverage draft) in
  let none := bool_decide (requiredness = Requiredness.NONE) in
  let coverage := if none then []
    else match suggested with [] => get_default COVERAGE_TEMPLATES (pd_need_kind draft) [] | _ => suggested end in
  let sources := if none then []
    else match pd_source_types draft with [] => ["CODE"] | l => l end in
  validate_need (mkNeed id (pd_question draft) requiredness sources coverage trigger_stage
    (pd_fallback draft) NeedStatus.PLANNED "information-need.v1" (sha256_json (JObj context))
    task_id run_id unit_id created_at).

(** The planner's model, by the number of external calls made so far. *)
Class PlannerModel := planner_complete : nat -> json -> bool -> result exc json.

Section planner.
Context `{Builtins} `{EvidenceService} `{ActionSelector} `{InvestigationEnv} `{PlannerModel}.

Definition call_planner (context : list (string * json)) (repair : bool) : IM json := fun w =>
  (mkIWorld (other_clients (iw_calls w) (iw_store w)) (iw_evidence w) (iw_selector w) (iw_uuids w)
     (iw_ticks w) (S (iw_calls w)),
   planner_complete (iw_calls w) (JObj context) repair).

(** [invoke_validated(self.model, "plan_information_need", ...)]. *)
Definition plan_draft (context : list (string * json)) : IM PlannedNeedDraft :=
  first ← call_planner context false;
  match validate_draft first with
  | Ok d => mret d
  | Raise e =>
      if repairable e then
        second ← call_planner context true;
        match validate_draft second with
        | Ok d => mret d
        | Raise e' => if repairable e' then raise ModelOutputError else raise e'
        end
      else raise e
  end.

(** [InvestigationApplicationService.plan_need] with a configured planner. *)
Definition plan_need (context : list (string * json)) (trigger_stage : string)
    (task_id run_id unit_id : option string) : IM InformationNeed :=
  draft ← plan_draft context;
  id ← inv_id "need";
  created ← inv_now;
  need ← liftR (need_of_draft draft context id trigger_stage task_id run_id unit_id created);
  store_write (save_need need);;
  mret need.
End planner.
