(* ===== verification/Hoare.v ===== *)
(** * Hoare triples for the state and exception monad

    [hoare P m Q X]: from a state satisfying [P], the computation [m] either
    returns [a] in a state satisfying [Q a] or raises [e] in a state satisfying
    [X e].  The components that keep a local variable across exceptions are
    verified with these rules. *)
From stdpp Require Import base list strings.
From S2P Require Import Prelude.

Section hoare.
Context {S E : Type}.
Implicit Types (A B : Type).

Definition hoare {A} (P : S -> Prop) (m : M S E A) (Q : A -> S -> Prop) (X : E -> S -> Prop) : Prop :=
  forall s, P s -> match m s with (s', Ok a) => Q a s' | (s', Raise e) => X e s' end.

Lemma hoare_bind {A B} P (m : M S E A) R (k : A -> M S E B) Q X :
  hoare P m R X -> (forall a, hoare (R a) (k a) Q X) -> hoare P (x ← m; k x) Q X.
Proof.
  intros Hm Hk s Hs. specialize (Hm s Hs). unfold mbind, M_bind.
  destruct (m s) as [s1 [a|e]]; [by apply Hk|done].
Qed.

Lemma hoare_ret {A} (P : S -> Prop) (a : A) (Q : A -> S -> Prop) X :
  (forall s, P s -> Q a s) -> hoare P (mret a) Q X.
Proof. intros HQ s Hs. by apply HQ. Qed.

Lemma hoare_raise {A} (P : S -> Prop) e (Q : A -> S -> Prop) (X : E -> S -> Prop) :
  (forall s, P s -> X e s) -> hoare P (raise e) Q X.
Proof. intros HX s Hs. by apply HX. Qed.

Lemma hoare_gets {A} (P : S -> Prop) (f : S -> A) (Q : A -> S -> Prop) X :
  (forall s, P s -> Q (f s) s) -> hoare P (gets f) Q X.
Proof. intros HQ s Hs. by apply HQ. Qed.

Lemma hoare_liftR {A} (P : S -> Prop) (r : result E A) (Q : A -> S -> Prop) (X : E -> S -> Prop) :
  (forall a s, r = Ok a -> P s -> Q a s) -> (forall e s, r = Raise e -> P s -> X e s) ->
  hoare P (liftR r) Q X.
Proof. intros HQ HX s Hs. unfold liftR. destruct r; [by apply HQ|by apply HX]. Qed.

Lemma hoare_weaken {A} (P P' : S -> Prop) (m : M S E A) (Q Q' : A -> S -> Prop) (X X' : E -> S -> Prop) :
  hoare P m Q X -> (forall s, P' s -> P s) -> (forall a s, Q a s -> Q' a s) ->
  (forall e s, X e s -> X' e s) -> hoare P' m Q' X'.
Proof.
  intros Hm HP HQ HX s Hs. specialize (Hm s (HP s Hs)).
  destruct (m s) as [s1 [a|e]]; auto.
Qed.

Lemma hoare_pre {A} (P P' : S -> Prop) (m : M S E A) Q X :
  hoare P m Q X -> (forall s, P' s -> P s) -> hoare P' m Q X.
Proof. intros Hm HP. eapply hoare_weaken; eauto. Qed.

(** A pure fact of the precondition can be used by the proof. *)
Lemma hoare_pure {A} (phi : Prop) (P : S -> Prop) (m : M S E A) Q X :
  (forall s, P s -> phi) -> (phi -> hoare P m Q X) -> hoare P m Q X.
Proof. intros Hphi Hm s Hs. apply Hm; eauto. Qed.

Lemma hoare_exists {A B} (P : B -> S -> Prop) (m : M S E A) Q X :
  (forall b, hoare (P b) m Q X) -> hoare (fun s => exists b, P b s) m Q X.
Proof. intros Hm s [b Hb]. by apply (Hm b). Qed.
End hoare.

Lemma hoare_and {S E A} (P P' : S -> Prop) (m : M S E A) Q Q' X X' :
  hoare P m Q X -> hoare P' m Q' X' ->
  hoare (fun s => P s /\ P' s) m (fun a s => Q a s /\ Q' a s) (fun e s => X e s /\ X' e s).
Proof.
  intros H1 H2 s [Hs Hs']. specialize (H1 s Hs). specialize (H2 s Hs').
  by destruct (m s) as [s1 [a|e]].
Qed.
