(* ===== verification/InvestigationInv.v ===== *)
(** * The invariant of the investigation store

    What every investigation record satisfies, how records may evolve, and
    that the runner's primitives keep both, whatever cooperating clients do
    to the store during external calls. *)
From stdpp Require Import base list gmap sets strings pretty.
From Stdlib Require Import ZArith.
From S2P Require Import Prelude PyDict Json Grounding Tools InvestigationModels Investigation.
From S2P Require Import Hoare.

(** ** Records *)

(** The counters stay within the budget. *)
Definition within_budget (i : Investigation) : Prop :=
  (i_iteration_count i <= max_iterations (i_budget i) /\
   i_tool_call_count i <= max_tool_calls (i_budget i) /\
   i_replan_count i <= max_replans (i_budget i))%nat.

(** An active record has no stop reason; the status of any other record is the
    one its stop reason calls for, and COVERAGE_COMPLETE is truthful. *)
Definition status_ok (i : Investigation) : Prop :=
  if active_status (i_status i) then i_stop_reason i = None
  else exists r, i_stop_reason i = Some r /\ i_status i = terminal_status i r /\
       (r = StopReason.COVERAGE_COMPLETE -> CoveragePolicy_complete (i_coverage i) = true).

Definition record_ok (i : Investigation) : Prop := within_budget i /\ status_ok i.

(** What a write keeps: identity and budget; counters, completed signatures
    and collected identifiers only grow; the coverage keeps its keys. *)
Record grows (i j : Investigation) : Prop := {
  g_id : i_investigation_id j = i_investigation_id i;
  g_need : i_information_need_id j = i_information_need_id i;
  g_repository : i_repository_id j = i_repository_id i;
  g_commit : i_resolved_commit_sha j = i_resolved_commit_sha i;
  g_budget : i_budget j = i_budget i;
  g_iterations : (i_iteration_count i <= i_iteration_count j)%nat;
  g_calls : (i_tool_call_count i <= i_tool_call_count j)%nat;
  g_replans : (i_replan_count i <= i_replan_count j)%nat;
  g_signatures : i_completed_action_signatures i ⊆ i_completed_action_signatures j;
  g_evidence : i_evidence_ids i ⊆ i_evidence_ids j;
  g_facts : i_fact_ids i ⊆ i_fact_ids j;
  g_keys : keys (i_coverage j) = keys (i_coverage i)
}.

#[global] Instance grows_preorder : PreOrder grows.
Proof.
  split; [intros i; by split|].
  intros i j k [] []. split; (congruence || lia || set_solver).
Qed.

(** A stored record only changes while it is active, and its version grows. *)
Definition record_evolves (i j : Investigation) : Prop :=
  j = i \/ active_status (i_status i) = true /\ (i_version i < i_version j)%nat /\ grows i j.

#[global] Instance record_evolves_preorder : PreOrder record_evolves.
Proof.
  split; [by left|]. intros i j k [->|(Ha & Hv & Hg)] [->|(Ha' & Hv' & Hg')];
    [by left|by right|by right|right]. split_and!; [done|lia|by etransitivity].
Qed.

(** ** Stores *)

Record evolves (s s' : istore) : Prop := {
  ev_records : forall id i, is_investigations s !! id = Some i ->
    exists j, is_investigations s' !! id = Some j /\ record_evolves i j;
  ev_steps : forall id, steps id s `prefix_of` steps id s'
}.

#[global] Instance evolves_preorder : PreOrder evolves.
Proof.
  split; [split; [intros id i Hi; exists i; split; [done|by left]|done]|].
  intros s1 s2 s3 [Hr1 Hs1] [Hr2 Hs2]. split.
  - intros id i Hi. destruct (Hr1 id i Hi) as (j & Hj & Hij).
    destruct (Hr2 id j Hj) as (k & Hk & Hjk). exists k. split; [done|by etransitivity].
  - intros id. etransitivity; [apply Hs1|apply Hs2].
Qed.

Record store_inv (s : istore) : Prop := {
  si_dict : dict_ok (is_investigations s);
  si_record : forall id i, is_investigations s !! id = Some i ->
    i_investigation_id i = id /\ record_ok i;
  si_active : forall id1 id2 i1 i2, is_investigations s !! id1 = Some i1 ->
    is_investigations s !! id2 = Some i2 ->
    active_status (i_status i1) = true -> active_status (i_status i2) = true ->
    i_information_need_id i1 = i_information_need_id i2 -> id1 = id2;
  si_steps : forall id, st_sequence <$> steps id s = seq 1 (length (steps id s))
}.

(** A local copy is never ahead of the store and agrees with it when the
    versions agree. *)
Definition linked (i : Investigation) (s : istore) : Prop :=
  exists c, is_investigations s !! i_investigation_id i = Some c /\
    (i_version i <= i_version c)%nat /\ (i_version c = i_version i -> c = i).

Lemma linked_evolves i s s' : evolves s s' -> linked i s -> linked i s'.
Proof.
  intros [Hr _] (c & Hc & Hv & Heq). destruct (Hr _ _ Hc) as (j & Hj & [->|(_ & Hlt & _)]).
  - by exists c.
  - exists j. split_and!; [done|lia|lia].
Qed.

Lemma linked_stored id i s : store_inv s -> is_investigations s !! id = Some i -> linked i s.
Proof. intros Hs Hi. exists i. by rewrite (proj1 (si_record _ Hs _ _ Hi)). Qed.

(** ** Writing a record *)

Lemma put_evolves c i s :
  is_investigations s !! i_investigation_id i = Some c -> record_evolves c i ->
  evolves s (put_investigation i s).
Proof.
  intros Hc Hci. split; [|done]. intros id j Hj. unfold put_investigation; cbn [is_investigations].
  destruct (decide (i_investigation_id i = id)) as [<-|Hne].
  - exists i. rewrite dict_lookup_insert_eq. simplify_eq. done.
  - exists j. rewrite dict_lookup_insert_ne by done. split; [done|reflexivity].
Qed.

Lemma put_inv i s :
  store_inv s -> record_ok i ->
  (active_status (i_status i) = true -> forall id j, is_investigations s !! id = Some j ->
     active_status (i_status j) = true -> i_information_need_id j = i_information_need_id i ->
     id = i_investigation_id i) ->
  store_inv (put_investigation i s).
Proof.
  intros [Hd Hr Ha Hs] Hi Hact. unfold put_investigation. split; cbn [is_investigations is_steps].
  - by apply dict_ok_insert.
  - intros id j. rewrite dict_lookup_insert. case_decide; [|apply Hr]. intros [= <-]. by subst.
  - intros id1 id2 i1 i2. rewrite !dict_lookup_insert.
    repeat case_decide; intros; simplify_eq; eauto using eq_sym.
  - done.
Qed.

(** The write of a current record: the need of an active record stays its own. *)
Lemma put_current c i s :
  store_inv s -> is_investigations s !! i_investigation_id i = Some c ->
  active_status (i_status c) = true -> i_information_need_id i = i_information_need_id c ->
  record_ok i -> store_inv (put_investigation i s).
Proof.
  intros Hs Hc Hact Hneed Hok. apply put_inv; [done..|]. intros _ id j Hj Haj Hn.
  eapply (si_active _ Hs id); [exact Hj|exact Hc|done..|congruence].
Qed.

(** Writing needs does not touch the records. *)
Lemma save_need_inv n s : store_inv s -> store_inv (save_need n s).
Proof. by intros []. Qed.

Lemma save_need_evolves n s : evolves s (save_need n s).
Proof. split; [|done]. intros id i Hi. exists i. split; [done|by left]. Qed.

(** ** Appending a step *)

Definition put_steps (id : string) (l : list InvestigationStep) (s : istore) : istore :=
  mkIStore (is_needs s) (is_investigations s) (<[id := l]> (is_steps s)).

Lemma steps_put_steps id id' l s :
  steps id' (put_steps id l s) = if decide (id = id') then l else steps id' s.
Proof.
  unfold steps, get_default, put_steps; cbn [is_steps]. rewrite dict_lookup_insert. by case_decide.
Qed.

Lemma put_steps_inv id l s :
  store_inv s -> st_sequence <$> l = seq 1 (length l) -> store_inv (put_steps id l s).
Proof.
  intros [Hd Hr Ha Hs] Hl. split; [done..|]. intros id'. rewrite steps_put_steps. by case_decide.
Qed.

Lemma put_steps_evolves id l s : steps id s `prefix_of` l -> evolves s (put_steps id l s).
Proof.
  intros Hl. split; [intros id' i Hi; exists i; split; [done|by left]|].
  intros id'. rewrite steps_put_steps. case_decide; by subst.
Qed.

(** The next sequence number is free, so the append succeeds. *)
Lemma append_next st s :
  store_inv s -> st_sequence st = S (length (steps (st_investigation_id st) s)) ->
  append_step st s =
    (put_steps (st_investigation_id st) (steps (st_investigation_id st) s ++ [st]) s, Ok tt).
Proof.
  intros Hs Hseq. unfold append_step. destruct (existsb _ _) eqn:E; [exfalso|done].
  apply existsb_exists in E as (item & Hin & Heq%Nat.eqb_eq). apply list_elem_of_In in Hin.
  assert (Hmem : st_sequence item ∈ seq 1 (length (steps (st_investigation_id st) s))).
  { rewrite <- (si_steps _ Hs). by apply list_elem_of_fmap_2. }
  apply elem_of_seq in Hmem. lia.
Qed.

Lemma append_inv st s :
  store_inv s -> st_sequence st = S (length (steps (st_investigation_id st) s)) ->
  store_inv (append_step st s).1.
Proof.
  intros Hs Hseq. rewrite append_next by done. apply put_steps_inv; [done|].
  rewrite fmap_app, (si_steps _ Hs), length_app, seq_app; simpl. by rewrite Hseq.
Qed.

Lemma append_evolves st s :
  store_inv s -> st_sequence st = S (length (steps (st_investigation_id st) s)) ->
  evolves s (append_step st s).1.
Proof.
  intros Hs Hseq. rewrite append_next by done. apply put_steps_evolves. by apply prefix_app_r.
Qed.
