(* ===== verification/InvestigationWalk.v ===== *)
(** * A proof rule for one pass of the investigation loop

    The runner's loop body is built from a few primitives: versioned writes,
    step records, calls to the selector and to the evidence service, and
    [finish].  The section below derives a triple for the body from triples
    for the primitives; the facts about the runner instantiate it with
    different assertions. *)
From stdpp Require Import base list gmap sets strings pretty.
From Stdlib Require Import ZArith.
From S2P Require Import Prelude PyDict Json Grounding Tools InvestigationModels Investigation.
From S2P Require Import Hoare.

Section lifting.
Context `{Builtins} `{EvidenceService} `{ActionSelector} `{InvestigationEnv}.
Implicit Types (P : iworld * Investigation -> Prop).

Lemma hoare_local P : hoare P local (fun i st => P st /\ i = st.2) (fun _ _ => False).
Proof. by intros st Hst. Qed.

(** Bind on the local variable with its value in the context. *)
Lemma hoare_local_bind {A} P (k : Investigation -> LM A) Q X :
  (forall i, hoare (fun st => P st /\ st.2 = i) (k i) Q X) -> hoare P (i ← local; k i) Q X.
Proof. intros Hk st Hst. by apply (Hk st.2). Qed.

Lemma hoare_on_gets {A} P (f : iworld -> A) X :
  hoare P (on (fun _ => gets f)) (fun _ => P) X.
Proof. by intros [w i] Hst. Qed.

Lemma hoare_attempt {A} P (m : LM A) Q X X' :
  hoare P m Q X ->
  hoare P (attempt m) (fun r st => match r with Ok a => Q a st | Raise e => X e st end) X'.
Proof.
  intros Hm st Hst. specialize (Hm st Hst). unfold attempt.
  by destruct (m st) as [st' [a|e]].
Qed.

Lemma hoare_when P b (m : LM unit) Q X :
  (b = true -> hoare P m Q X) -> (b = false -> forall st, P st -> Q tt st) ->
  hoare P (when b m) Q X.
Proof. destruct b; intros Ht Hf; [by apply Ht|]. apply hoare_ret. auto. Qed.

Lemma hoare_disj {A} P1 P2 (m : LM A) Q X :
  hoare P1 m Q X -> hoare P2 m Q X -> hoare (fun st => P1 st \/ P2 st) m Q X.
Proof. intros H1' H2' st [Hst|Hst]; [by apply H1'|by apply H2']. Qed.
End lifting.

Section walk.
Context `{Builtins} `{EvidenceService} `{ActionSelector} `{InvestigationEnv}.

Let state : Type := (iworld * Investigation)%type.

(** [R true] and [R false] are the assertions before and after the tool call
    is counted, [D] the one after the tool ran, [F] the one after [finish],
    [C] after a failed write inside a [try], [O] after any failed write. *)
Context (start : state -> Prop) (R : bool -> state -> Prop).
Context (D : string -> RepositoryToolExecution -> state -> Prop) (F C O : state -> Prop).

Record walk_rules : Prop := {
  w_room : forall st, R true st -> R false st;
  w_caught : forall st, C st -> R false st;
  w_outer : forall st, C st -> O st;
  w_begin : hoare start (assign (save bump_iteration)) (fun _ => R true) (fun _ => O);
  w_step : forall b ty st su out, hoare (R b) (on (step ty st su out)) (fun _ => R b) (fun _ => C);
  w_replan : hoare (fun st => R true st /\ (i_replan_count st.2 < max_replans (i_budget st.2))%nat)
    (assign (save bump_replans)) (fun _ => R true) (fun _ => C);
  w_payload : forall gap, hoare (R true) (on (selector_payload gap)) (fun _ => R true) (fun _ => O);
  w_select : forall p replan, hoare (R true) (on (fun _ => call_selector (select p replan)))
    (fun _ => R true) (fun _ => R true);
  w_tokens : forall b n, hoare (R b) (assign (save (add_tokens n))) (fun _ => R b) (fun _ => C);
  w_reset : forall b, hoare (R b) (on (fun _ => modify (fun w => mkIWorld (iw_store w) (iw_evidence w)
    (reset_token_usage (iw_selector w)) (iw_uuids w) (iw_ticks w) (iw_calls w)))) (fun _ => R b) (fun _ => C);
  w_rounds : forall g, hoare (R false) (assign (save (fun i => set_rounds (g i) i))) (fun _ => R false) (fun _ => C);
  w_count : hoare (R true) (assign (save bump_tool_calls)) (fun _ => R false) (fun _ => C);
  w_execute : forall actor action key,
    hoare (fun st => R false st /\ action_signature action ∉ i_completed_action_signatures st.2)
      (on (execute_action actor action key)) (fun x => D (action_signature action) x) (fun _ => R false);
  w_updates : forall p x signature,
    hoare (D signature x) (assign (save (execution_updates p x signature))) (fun _ => R false) (fun _ => O);
  w_finish : forall r,
    hoare (fun st => R false st /\ (r = StopReason.COVERAGE_COMPLETE -> CoveragePolicy_complete (i_coverage st.2) = true))
      (assign (finish r)) (fun _ => F) (fun _ => C)
}.

Hypothesis rules : walk_rules.

(** Rules with the weaker exceptional assertion [O]. *)
Lemma outer {A} P (m : LM A) Q : hoare P m Q (fun _ => C) -> hoare P m Q (fun _ => O).
Proof. intros Hm. eapply hoare_weaken; [exact Hm|done..|]. intros ?. apply (w_outer rules). Qed.

(** A failed write that is caught is a running state again. *)
Lemma caught {A} P (m : LM A) Q : hoare P m Q (fun _ => C) -> hoare P m Q (fun _ => R false).
Proof. intros Hm. eapply hoare_weaken; [exact Hm|done..|]. intros ?. apply (w_caught rules). Qed.

Lemma charge_tokens_rule b : hoare (R b) charge_tokens (fun _ => R b) (fun _ => C).
Proof.
  unfold charge_tokens. eapply hoare_bind.
  - apply hoare_on_gets.
  - intros tokens. apply hoare_when; [intros _|auto].
    eapply hoare_bind; [apply (w_tokens rules)|intros ?; apply (w_reset rules)].
Qed.

Lemma finish_rule r :
  r <> StopReason.COVERAGE_COMPLETE -> hoare (R false) (assign (finish r)) (fun _ => F) (fun _ => C).
Proof. intros Hr. eapply hoare_pre; [apply (w_finish rules)|]. done. Qed.

Definition settled_or_running (st : state) : Prop := R false st \/ F st.

Lemma stop_if_stalled_rule : hoare (R false) stop_if_stalled (fun _ => settled_or_running) (fun _ => C).
Proof.
  unfold stop_if_stalled. apply hoare_local_bind. intros i. apply hoare_when; intros _.
  - eapply hoare_weaken; [by apply (finish_rule StopReason.NO_PROGRESS)| | |done];
      [by intros ? []|by right].
  - intros st [Hst _]. by left.
Qed.

(** The choice: an action, a finished investigation, or an exception from a
    running state. *)
Lemma choose_action_rule payload replan :
  hoare (R true) (choose_action payload replan)
    (fun r st => match r with Some _ => R true st | None => F st end) (fun _ => R false).
Proof.
  unfold choose_action.
  eapply hoare_bind; [eapply hoare_weaken; [apply (w_select rules)|done..|]; intros ?; apply (w_room rules)|].
  intros p. eapply hoare_bind; [apply hoare_on_gets|]. intros answer.
  eapply (hoare_bind _ _ (fun _ => R true)).
  { destruct answer; [apply caught, (w_step rules)|apply hoare_ret; auto]. }
  intros ?. eapply hoare_bind; [apply caught, charge_tokens_rule|]. intros ?.
  apply hoare_local_bind. intros i. destruct (tokens_exhausted i).
  - eapply (hoare_bind _ _ (fun _ => F)); [|intros ?; apply hoare_ret; auto].
    eapply hoare_pre; [by apply caught, finish_rule|]. intros st [Hst _]. by apply (w_room rules).
  - destruct (targets_gap p i); simpl.
    + eapply hoare_bind; [apply (hoare_liftR _ _ (fun _ => R true)); [naive_solver|]|];
        [intros ? ? _ [Hst _]; by apply (w_room rules)|]. intros action.
      eapply hoare_bind; [apply (hoare_liftR _ _ (fun _ => R true)); [naive_solver|]|];
        [intros ? ? _ Hst; by apply (w_room rules)|]. intros ?. apply hoare_ret; auto.
    + apply hoare_raise. intros st [Hst _]. by apply (w_room rules).
Qed.

Lemma no_progress_rule : hoare (R false) (assign record_no_progress) (fun _ => R false) (fun _ => C).
Proof. apply (w_rounds rules (fun i => S (i_no_progress_rounds i))). Qed.

Lemma selection_failed_rule : hoare (R false) selection_failed (fun _ => settled_or_running) (fun _ => C).
Proof.
  unfold selection_failed. eapply hoare_bind; [apply charge_tokens_rule|]. intros ?.
  eapply hoare_bind; [apply (w_step rules)|]. intros ?. eapply hoare_bind; [apply no_progress_rule|].
  intros ?. apply hoare_local_bind. intros i. destruct (tokens_exhausted i).
  - eapply hoare_weaken; [by apply (finish_rule StopReason.TOKEN_BUDGET_EXHAUSTED)| | |done];
      [by intros ? []|by right].
  - eapply hoare_pre; [apply stop_if_stalled_rule|]. by intros st [].
Qed.

Lemma model_api_failed_rule code retryable :
  hoare (R false) (model_api_failed code retryable) (fun _ _ => False)
    (fun e st => O st \/ e = ModelApiError code retryable /\ F st).
Proof.
  unfold model_api_failed. eapply hoare_bind.
  { eapply hoare_weaken; [apply (w_step rules)|done..|]. intros ? ? ?. left. by apply (w_outer rules). }
  intros ?. eapply hoare_bind.
  { eapply hoare_weaken; [by apply (finish_rule StopReason.UNRECOVERABLE_ERROR)|done..|].
    intros ? ? ?. left. by apply (w_outer rules). }
  intros ?. apply hoare_raise. auto.
Qed.

Lemma record_execution_rule p x signature before :
  hoare (D signature x) (record_execution p x signature before) (fun _ => settled_or_running) (fun _ => O).
Proof.
  unfold record_execution. eapply hoare_bind; [apply (w_updates rules)|]. intros ?.
  apply hoare_local_bind. intros i. cbv zeta.
  generalize (negb (bool_decide (progress_fingerprint i ∖ before = ∅))). intros has_progress.
  eapply hoare_bind.
  { eapply hoare_pre; [apply outer, (w_rounds rules (fun i => if has_progress then 0%nat else S (i_no_progress_rounds i)))|].
    by intros st []. }
  intros ?. eapply hoare_bind; [apply outer, (w_step rules)|]. intros ?.
  apply hoare_local_bind. intros i'. destruct (CoveragePolicy_complete _) eqn:E.
  - eapply hoare_weaken; [apply outer, (w_finish rules)| | |done]; [|by right].
    intros st [Hst <-]. split; [done|by intros _].
  - eapply hoare_pre; [apply outer, stop_if_stalled_rule|]. by intros st [].
Qed.

(** [on] cannot change the variable, and a save changes what its update says. *)
Lemma on_frame {A} P (m : Investigation -> IM A) Q X i :
  hoare P (on m) Q X -> hoare (fun st => P st /\ st.2 = i) (on m) (fun a st => Q a st /\ st.2 = i) X.
Proof.
  intros Hm [w j] [Hst <-]. specialize (Hm (w, j) Hst). unfold on in *. cbn [fst snd] in *.
  by destruct (m j w) as [w' [a|e]].
Qed.

Lemma save_frame P f Q X i :
  hoare P (assign (save f)) Q X ->
  hoare (fun st => P st /\ st.2 = i) (assign (save f))
    (fun a st => Q a st /\ exists t, st.2 = stamp (S (i_version i)) t (f i)) X.
Proof.
  intros Hm [w j] [Hst <-]. specialize (Hm (w, j) Hst). revert Hm.
  unfold assign, save, store_try, inv_now, mbind, M_bind, mret, M_ret. cbn [fst snd].
  destruct (save_investigation _ _ _); cbn [fst snd]; eauto.
Qed.

Lemma perform_rule actor p action :
  hoare (R true) (perform actor p action) (fun _ => settled_or_running) (fun _ => O).
Proof.
  unfold perform. cbv zeta. apply hoare_local_bind. intros i. case_decide as Hin.
  - eapply hoare_bind; [eapply hoare_pre; [apply outer, (w_step rules false)|]; intros ? [? _]; by apply (w_room rules)|].
    intros ?. eapply hoare_bind; [apply outer, no_progress_rule|]. intros ?. apply outer, stop_if_stalled_rule.
  - eapply hoare_bind; [apply outer, on_frame, (w_step rules)|]. intros ?.
    eapply hoare_bind; [apply hoare_on_gets|]. intros replay.
    eapply (hoare_bind _ _ (fun _ st => R false st /\ action_signature action ∉ i_completed_action_signatures st.2)).
    { apply hoare_when; intros _.
      - eapply hoare_weaken; [exact (outer _ _ _ (save_frame _ _ _ _ i (w_count rules)))|auto| |auto].
        intros ? st (Hst & t & ->). by split.
      - intros st [Hst <-]. split; [by apply (w_room rules)|done]. }
    intros ?. eapply hoare_bind; [apply hoare_attempt, (w_execute rules)|]. intros [x|e].
    + apply record_execution_rule.
    + eapply hoare_bind; [apply outer, (w_step rules)|]. intros ?.
      eapply hoare_bind; [apply outer, no_progress_rule|]. intros ?. apply outer, stop_if_stalled_rule.
Qed.

(** Exceptions that leave the body: a failed write or read, or the model API
    error after the investigation was finished. *)
Definition escaped (e : exc) (st : state) : Prop :=
  O st \/ (exists code retryable, e = ModelApiError code retryable) /\ F st.

Lemma escape {A} P (m : LM A) Q : hoare P m Q (fun _ => O) -> hoare P m Q escaped.
Proof. intros Hm. eapply hoare_weaken; [exact Hm|done..|]. by left. Qed.

Lemma iteration_rule actor : hoare start (iteration actor) (fun _ => settled_or_running) escaped.
Proof.
  unfold iteration. apply hoare_local_bind. intros i. cbv zeta.
  eapply hoare_bind; [eapply hoare_pre; [apply escape, (w_begin rules)|]; by intros ? []|]. intros ?.
  eapply hoare_bind; [apply escape, outer, (w_step rules)|]. intros ?.
  apply hoare_local_bind. intros j.
  eapply (hoare_bind _ _ (fun _ => R true)).
  { apply hoare_when; [intros [_ Hlt%Nat.ltb_lt]%andb_true_iff|by intros _ st []].
    eapply hoare_bind; [|intros ?; apply escape, outer, (w_step rules)].
    eapply hoare_pre; [apply escape, outer, (w_replan rules)|]. intros st [Hst <-]. by split. }
  intros ?. eapply hoare_bind; [apply escape, (w_payload rules)|]. intros payload.
  eapply hoare_bind; [apply hoare_attempt, choose_action_rule|].
  assert (Hsel : hoare (R false) selection_failed (fun _ => settled_or_running) escaped)
    by apply escape, outer, selection_failed_rule.
  intros [[[p action]|]|e].
  - apply escape, perform_rule.
  - apply hoare_ret. by right.
  - destruct e; try exact Hsel.
    eapply hoare_weaken; [apply model_api_failed_rule|done| |]; [done|].
    intros e st [?|[-> ?]]; [by left|right]; eauto.
Qed.

(** *** The loop *)

Hypothesis start_ok : forall st, R false st -> pre_action_stop st.2 = None -> start st.
Hypothesis run_status : forall st, R false st -> i_status st.2 <> InvestigationStatus.RUNNING -> F st.
Hypothesis end_status : forall st, F st -> i_status st.2 = InvestigationStatus.RUNNING -> R false st.

Lemma pre_action_stop_reason i r : pre_action_stop i = Some r -> r <> StopReason.COVERAGE_COMPLETE.
Proof. unfold pre_action_stop. intros. by repeat case_match; simplify_eq. Qed.

(** [break] after [finish]. *)
Lemma finish_break r i :
  (r = StopReason.COVERAGE_COMPLETE -> CoveragePolicy_complete (i_coverage i) = true) ->
  hoare (fun st => R false st /\ st.2 = i) (assign (finish r);; mret true)
    (fun (b : bool) st => if b then F st else True) escaped.
Proof.
  intros Hr. eapply (hoare_bind _ _ (fun _ => F)); [|intros ?; by apply hoare_ret].
  eapply hoare_pre; [apply escape, outer, (w_finish rules)|]. intros st [Hst ->]. by split.
Qed.

Lemma loop_walk fuel actor :
  hoare settled_or_running (loop fuel actor) (fun b st => if b then F st else True) escaped.
Proof.
  induction fuel as [|fuel IH]; cbn [loop]; apply hoare_local_bind; intros i; case_decide as Hi.
  2,4: apply hoare_ret; intros st [[Hst|Hst] <-]; [by apply run_status|done].
  { by apply hoare_ret. }
  assert (Hrun : forall st, settled_or_running st /\ st.2 = i -> R false st /\ st.2 = i).
  { intros st [[?|Hf] <-]; [done|]. split; [by apply end_status|done]. }
  eapply hoare_pre; [|exact Hrun].
  destruct (CoveragePolicy_complete (i_coverage i)) eqn:Hc; [by apply finish_break|].
  destruct (pre_action_stop i) as [r|] eqn:Hpre.
  { apply finish_break. intros ->. by apply pre_action_stop_reason in Hpre. }
  eapply hoare_bind; [|intros ?; exact IH]. eapply hoare_pre; [apply iteration_rule|].
  intros st [Hst <-]. by apply start_ok.
Qed.
End walk.
