(* ===== verification/InvestigationFacts.v ===== *)
(** * Facts about the investigation runner

    The loop ends, the store's invariant holds after every operation whatever
    cooperating clients do meanwhile, records evolve monotonically, a run
    without interference settles the investigation, and no completed action is
    executed again. *)
From stdpp Require Import base list gmap sets strings pretty.
From Stdlib Require Import ZArith.
From S2P Require Import Prelude PyDict Json Grounding Tools InvestigationModels Investigation.
From S2P Require Import Hoare.
From S2P Require Import InvestigationInv InvestigationWalk Selectors.

(** ** The local variable alone *)

Section tracking.
Context `{Builtins} `{EvidenceService} `{ActionSelector} `{InvestigationEnv}.
Implicit Types (P Q : Investigation -> Prop).

Lemma track_on {A} P (m : Investigation -> IM A) :
  hoare (fun st => P st.2) (on m) (fun _ st => P st.2) (fun _ st => P st.2).
Proof. intros [w i] Hi. unfold on; cbn [fst snd]. by destruct (m i w) as [w' [a|e]]. Qed.

Lemma track_save P Q f :
  (forall i t, P i -> Q (stamp (S (i_version i)) t (f i))) ->
  hoare (fun st => P st.2) (assign (save f)) (fun _ st => Q st.2) (fun _ st => P st.2).
Proof.
  intros Hf [w i] Hi. unfold assign, save, store_try, inv_now, mbind, M_bind, mret, M_ret.
  cbn [fst snd]. destruct (save_investigation _ _ _); cbn [fst snd]; auto.
Qed.

Lemma track_finish P Q r :
  (forall i t, P i -> Q (stamp (S (i_version i)) t (set_stop_reason r (set_status (terminal_status i r) i)))) ->
  hoare (fun st => P st.2) (assign (finish r)) (fun _ st => Q st.2) (fun _ st => P st.2).
Proof.
  intros Hf [w i] Hi. unfold assign, finish, save, store_try, inv_now, mbind, M_bind, mret, M_ret.
  cbn [fst snd]. destruct (save_investigation _ _ _); cbn [fst snd]; [|done].
  destruct (step _ _ _ _ _ _) as [w2 [[]|e]]; cbn [fst snd]; auto.
Qed.

(** One more iteration than before, under the same budget. *)
Definition advanced (i0 i : Investigation) : Prop :=
  i_budget i = i_budget i0 /\ (i_iteration_count i0 < i_iteration_count i)%nat.

Lemma track_rules i0 :
  walk_rules (fun st => st.2 = i0) (fun _ st => advanced i0 st.2) (fun _ _ st => advanced i0 st.2)
    (fun st => advanced i0 st.2) (fun st => advanced i0 st.2) (fun _ => True).
Proof.
  split; try done.
  - eapply hoare_weaken; [apply (track_save (fun i => i = i0) (advanced i0))|auto..].
    intros i t ->. unfold advanced; simpl. split; [done|lia].
  - intros. apply track_on.
  - eapply hoare_pre; [by apply track_save|]. by intros st [].
  - intros. eapply hoare_weaken; [apply (track_on (advanced i0))|auto..].
  - intros. apply track_on.
  - intros. by apply track_save.
  - intros. apply track_on.
  - intros. by apply track_save.
  - by apply track_save.
  - intros. eapply hoare_pre; [apply (track_on (advanced i0))|]. by intros st [].
  - intros. eapply hoare_weaken; [by apply (track_save (advanced i0) (advanced i0))|auto..].
  - intros. eapply hoare_pre; [by apply track_finish|]. by intros st [].
Qed.

Lemma iteration_advances actor w i w' i' :
  iteration actor (w, i) = ((w', i'), Ok tt) -> advanced i i'.
Proof.
  intros E. pose proof (iteration_rule _ _ _ _ _ _ (track_rules i) actor (w, i) eq_refl) as Hi.
  rewrite E in Hi. by destruct Hi.
Qed.

Lemma loop_enough_fuel fuel actor w i :
  (max_iterations (i_budget i) - i_iteration_count i < fuel)%nat ->
  (loop fuel actor (w, i)).2 <> Ok false.
Proof.
  revert w i. induction fuel as [|fuel IH]; intros w i Hlt; [lia|].
  cbn [loop]. unfold local, gets. unfold mbind at 1, M_bind at 1. cbn [fst snd].
  case_decide; [|done]. destruct (CoveragePolicy_complete _).
  { unfold mbind, M_bind. by destruct (assign _ _) as [? [[]|]]. }
  destruct (pre_action_stop i) as [r|] eqn:Hpre.
  { unfold mbind, M_bind. by destruct (assign _ _) as [? [[]|]]. }
  unfold mbind, M_bind. destruct (iteration actor (w, i)) as [[w' i'] [[]|e]] eqn:E; [|done].
  apply iteration_advances in E as [Hb Hc]. apply IH. rewrite Hb.
  unfold pre_action_stop in Hpre. repeat case_match; simplify_eq.
  repeat match goal with Hx : (_ <=? _)%nat = false |- _ => apply Nat.leb_gt in Hx end. lia.
Qed.
End tracking.

(** C16: the investigation loop always ends: whatever the selector, the evidence
    service and other clients of the store do, [run] returns a result or
    raises; the fuel of the model, one more than the remaining iterations,
    is never exhausted. *)
Theorem run_terminates `{Builtins} `{EvidenceService} `{ActionSelector} `{InvestigationEnv}
    (investigation_id actor_id : string) (w : iworld) :
  (run investigation_id actor_id w).2 <> Ok None.
Proof.
  assert (Hloop : forall i w', (run_loop actor_id i w').2 <> Ok None).
  { intros i w'. unfold run_loop.
    pose proof (loop_enough_fuel (loop_fuel i) actor_id w' i) as Hf.
    destruct (loop _ _ _) as [[? ?] [[]|]]; cbn [snd] in *; try done.
    exfalso. apply Hf; [unfold loop_fuel; lia|done]. }
  unfold run. unfold mbind at 1, M_bind at 1. destruct (store_read _ w) as [w1 [i|e]]; [|done].
  destruct (i_status i); try done.
  unfold mbind at 1, M_bind at 1. destruct (save _ i w1) as [w2 [i2|e]]; [|done].
  unfold mbind at 1, M_bind at 1. destruct (step _ _ _ _ i2 w2) as [w3 [[]|e]]; [|done]. apply Hloop.
Qed.

(** ** The store under cooperating clients *)

(** Other clients keep the invariant and only let records evolve.  The
    operations below do so themselves, so any of them may run concurrently. *)
Class Cooperative `{InvestigationEnv} : Prop := cooperate : forall n s, store_inv s ->
  store_inv (other_clients n s) /\ evolves s (other_clients n s).

Lemma keys_update_key n p x coverage key :
  keys (update_key n p x coverage key) = keys coverage.
Proof.
  unfold update_key. destruct (coverage !! key) as [c|] eqn:E; [|done]. case_decide; [done|].
  unfold keys, insert, dict_insert; cbn [items]. rewrite assoc_set_keys. rewrite decide_True; [done|].
  apply dict_lookup_items in E. by apply (list_elem_of_fmap_2 fst) in E.
Qed.

Lemma keys_CoveragePolicy_update i p x : keys (CoveragePolicy_update i p x) = keys (i_coverage i).
Proof.
  unfold CoveragePolicy_update. generalize (i_coverage i). induction (pa_target_coverage p) as [|k l IH];
    intros c; simpl; [done|]. by rewrite IH, keys_update_key.
Qed.

Lemma merge_ids_l l r : l ⊆ merge_ids l r.
Proof. intros x Hx. unfold merge_ids. apply dedup_elem. set_solver. Qed.

Lemma terminal_not_active i r : active_status (terminal_status i r) = false.
Proof. destruct r; simpl; try done; by destruct (_ || _). Qed.

Lemma grows_execution_updates p x signature i : grows i (execution_updates p x signature i).
Proof.
  split; simpl; auto using keys_CoveragePolicy_update, merge_ids_l.
  destruct (tr_status _); set_solver.
Qed.

Lemma grows_set_counters i a b c d t :
  (i_iteration_count i <= a)%nat -> (i_tool_call_count i <= b)%nat -> (i_replan_count i <= c)%nat ->
  grows i (set_counters a b c d t i).
Proof. intros. by split. Qed.

Lemma grows_stop i st r : grows i (set_stop_reason r (set_status st i)).
Proof. by split. Qed.

#[export] Hint Resolve grows_execution_updates grows_set_counters grows_stop terminal_not_active : prd.

Section invariant.
Context `{Builtins} `{EvidenceService} `{ActionSelector} `{InvestigationEnv} `{!Cooperative}.
Variable s0 : istore.

Definition good (w : iworld) : Prop := store_inv (iw_store w) /\ evolves s0 (iw_store w).

Lemma good_linked w s i :
  store_inv s -> evolves (iw_store w) s -> good w -> linked i (iw_store w) ->
  good (with_store s w) /\ linked i s.
Proof.
  intros Hs He [_ H0'] Hl. split; [split; [done|by etransitivity]|by eapply linked_evolves].
Qed.

(** A versioned write from an active copy either stores the new record or
    raises and changes nothing. *)
Lemma save_rule f i :
  active_status (i_status i) = true -> grows i (f i) -> record_ok (f i) ->
  hoare (fun w => good w /\ linked i (iw_store w)) (save f i)
    (fun j w => good w /\ linked j (iw_store w) /\ exists t, j = stamp (S (i_version i)) t (f i))
    (fun _ w => good w /\ linked i (iw_store w)).
Proof.
  intros Ha Hg Hok w [[Hs He] (c & Hc & Hv & Heq)].
  unfold save, inv_now, store_try, save_investigation, mbind, M_bind, mret, M_ret. cbn [iw_store].
  set (j := stamp _ _ _). assert (Hid : i_investigation_id j = i_investigation_id i) by apply Hg.
  rewrite Hid, Hc. case_decide as Hver; [|split; [done|by exists c]].
  specialize (Heq Hver). subst c.
  assert (Hj : record_evolves i j) by (right; split_and!; [done|simpl; lia|by destruct Hg]).
  split_and!; [split| |by eexists].
  - eapply put_current; [done|by rewrite Hid|done|apply Hg|exact Hok].
  - etransitivity; [exact He|]. eapply put_evolves; [by rewrite Hid|done].
  - exists j. cbn [iw_store with_store put_investigation is_investigations].
    by rewrite dict_lookup_insert_eq.
Qed.

Lemma step_rule ty st su out j (P : istore -> Prop) :
  (forall s s', evolves s s' -> P s -> P s') ->
  hoare (fun w => good w /\ P (iw_store w)) (step ty st su out j)
    (fun _ w => good w /\ P (iw_store w)) (fun _ _ => False).
Proof.
  intros Hmono w [[Hs He] HP]. unfold step, store_get, inv_id, inv_now, store_do, mbind, M_bind. cbn [iw_store].
  set (x := mkStep _ _ _ _ _ _ _ _ _ _).
  assert (Hseq : st_sequence x = S (length (steps (st_investigation_id x) (iw_store w)))) by done.
  pose proof (append_inv _ _ Hs Hseq) as Hi. pose proof (append_evolves _ _ Hs Hseq) as Hev.
  rewrite (append_next x (iw_store w)) in * by done. cbn [fst with_store iw_store] in *.
  split; [split; [done|by etransitivity]|by eapply Hmono].
Qed.

Lemma step_linked ty st su out j i :
  hoare (fun w => good w /\ linked i (iw_store w)) (step ty st su out j)
    (fun _ w => good w /\ linked i (iw_store w)) (fun _ _ => False).
Proof. apply step_rule. intros. by eapply linked_evolves. Qed.

Lemma record_ok_stop r i :
  active_status (i_status i) = true -> record_ok i ->
  (r = StopReason.COVERAGE_COMPLETE -> CoveragePolicy_complete (i_coverage i) = true) ->
  record_ok (set_stop_reason r (set_status (terminal_status i r) i)).
Proof.
  intros Ha [Hb _] Hr. split; [done|]. unfold status_ok; simpl. rewrite terminal_not_active.
  exists r. split_and!; [done| |done]. by destruct r.
Qed.

Lemma finish_ok r i :
  active_status (i_status i) = true -> record_ok i ->
  (r = StopReason.COVERAGE_COMPLETE -> CoveragePolicy_complete (i_coverage i) = true) ->
  hoare (fun w => good w /\ linked i (iw_store w)) (finish r i)
    (fun j w => good w /\ linked j (iw_store w) /\ record_ok j /\ active_status (i_status j) = false)
    (fun _ w => good w /\ linked i (iw_store w)).
Proof.
  intros Ha Hok Hr. unfold finish. eapply hoare_bind.
  { apply save_rule; auto using record_ok_stop, grows_stop. }
  intros j. cbv beta.
  eapply (hoare_pure (exists t, j = stamp (S (i_version i)) t
    (set_stop_reason r (set_status (terminal_status i r) i)))); [by intros w (_ & _ & ?)|].
  intros [t Hj]. eapply (hoare_bind _ _ (fun _ w => good w /\ linked j (iw_store w))).
  { eapply hoare_weaken; [apply (step_linked _ _ _ _ j j)| |done|done]. by intros w (? & ? & _). }
  intros ?. apply hoare_ret. intros w [Hg Hl]. split_and!; [done|done| |].
  - rewrite Hj. by apply (record_ok_stop r i).
  - rewrite Hj. simpl. apply terminal_not_active.
Qed.

(** *** The assertions of the loop *)

Definition room (i : Investigation) : Prop := (i_tool_call_count i < max_tool_calls (i_budget i))%nat.

Definition consistent (st : iworld * Investigation) : Prop :=
  good st.1 /\ linked st.2 (iw_store st.1) /\ record_ok st.2.

Definition running (b : bool) (st : iworld * Investigation) : Prop :=
  consistent st /\ i_status st.2 = InvestigationStatus.RUNNING /\ (b = true -> room st.2).

Definition starting (st : iworld * Investigation) : Prop :=
  running true st /\ (i_iteration_count st.2 < max_iterations (i_budget st.2))%nat.

Definition finished (st : iworld * Investigation) : Prop :=
  consistent st /\ active_status (i_status st.2) = false.

Lemma running_weaken b st : running b st -> running false st.
Proof. by intros (? & ? & _). Qed.

(** The updates of the loop keep a running record well formed. *)
Lemma record_ok_running i j :
  i_status j = InvestigationStatus.RUNNING -> i_stop_reason j = i_stop_reason i ->
  i_status i = InvestigationStatus.RUNNING -> record_ok i -> within_budget j -> record_ok j.
Proof.
  intros Hj Hr Hi [_ Hs] Hb. split; [done|]. unfold status_ok in *. rewrite Hj. rewrite Hi in Hs.
  simpl in *. congruence.
Qed.

Lemma assign_save_rule b b' (K : Investigation -> Prop) f :
  (forall i, within_budget i -> (b = true -> room i) -> K i ->
     within_budget (f i) /\ grows i (f i) /\ i_status (f i) = i_status i /\
     i_stop_reason (f i) = i_stop_reason i /\ (b' = true -> room (f i))) ->
  hoare (fun st => running b st /\ K st.2) (assign (save f)) (fun _ => running b') (fun _ => running false).
Proof.
  intros Hf [w i] [[(Hg & Hl & Hok) [Hr Hroom]] HK]. cbn [fst snd] in *.
  destruct (Hf i) as (Hb & Hgr & Hst & Hre & Hro); [by destruct Hok|done|done|].
  assert (Hok' : record_ok (f i)) by (eapply record_ok_running; eauto; congruence).
  pose proof (save_rule f i ltac:(by rewrite Hr) Hgr Hok' w (conj Hg Hl)) as Hs.
  unfold assign; cbn [fst snd]. destruct (save f i w) as [w' [j|e]].
  - destruct Hs as (Hg' & Hl' & t & ->). split_and!; [split_and!|..]; try done; simpl; try congruence.
  - by destruct Hs.
Qed.

Lemma assign_save_same b f :
  (forall i, within_budget i -> within_budget (f i) /\ grows i (f i) /\ i_status (f i) = i_status i /\
     i_stop_reason (f i) = i_stop_reason i /\ (room i -> room (f i))) ->
  hoare (running b) (assign (save f)) (fun _ => running b) (fun _ => running false).
Proof.
  intros Hf. eapply hoare_pre; [apply (assign_save_rule b b (fun _ => True))|done].
  intros i Hi Hroom _. destruct (Hf i Hi) as (? & ? & ? & ? & ?). split_and!; auto.
Qed.

(** Calls and records leave the local variable, so they keep the assertions. *)
Lemma on_rule {A} b (m : Investigation -> IM A) :
  (forall i, hoare (fun w => good w /\ linked i (iw_store w)) (m i)
     (fun _ w => good w /\ linked i (iw_store w)) (fun _ w => good w /\ linked i (iw_store w))) ->
  hoare (running b) (on m) (fun _ => running b) (fun _ => running b).
Proof.
  intros Hm [w i] [(Hg & Hl & Hok) Hr]. specialize (Hm i w (conj Hg Hl)). unfold on; cbn [fst snd] in *.
  destruct (m i w) as [w' [a|e]]; destruct Hm; by split.
Qed.

(** During an external call the store evolves. *)
Lemma external_rule {A} i (m : IM A) :
  (forall w, exists n, iw_store (m w).1 = other_clients n (iw_store w)) ->
  hoare (fun w => good w /\ linked i (iw_store w)) m
    (fun _ w => good w /\ linked i (iw_store w)) (fun _ w => good w /\ linked i (iw_store w)).
Proof.
  intros Hm w [[Hs He] Hl]. destruct (Hm w) as [n Hn].
  destruct (cooperate n (iw_store w) Hs) as [Hs' He'].
  assert (Hgoal : good (m w).1 /\ linked i (iw_store (m w).1)).
  { unfold good. rewrite Hn. split; [split; [done|by etransitivity]|by eapply linked_evolves]. }
  by destruct (m w) as [w' [a|e]].
Qed.

(** Computations that only read. *)
Lemma readonly_rule {A} i (m : IM A) :
  (forall w, iw_store (m w).1 = iw_store w) ->
  hoare (fun w => good w /\ linked i (iw_store w)) m
    (fun _ w => good w /\ linked i (iw_store w)) (fun _ w => good w /\ linked i (iw_store w)).
Proof.
  intros Hm w Hw. unfold good in *. rewrite <- (Hm w) in Hw. by destruct (m w) as [w' [a|e]].
Qed.

Lemma selector_payload_store gap i w : iw_store (selector_payload gap i w).1 = iw_store w.
Proof.
  unfold selector_payload, store_read, store_get, gets, liftR, mbind, M_bind, mret, M_ret.
  destruct (get_need _ _); [|done]. cbn [fst snd]. by destruct (prior_tool_results _ _).
Qed.

Lemma assign_finish_rule r :
  hoare (fun st => running false st /\
           (r = StopReason.COVERAGE_COMPLETE -> CoveragePolicy_complete (i_coverage st.2) = true))
    (assign (finish r)) (fun _ => finished) (fun _ => running false).
Proof.
  intros [w i] [[(Hg & Hl & Hok) [Hr Hroom]] Hc]. cbn [fst snd] in *.
  pose proof (finish_ok r i ltac:(by rewrite Hr) Hok Hc w (conj Hg Hl)) as Hf.
  unfold assign; cbn [fst snd]. destruct (finish r i w) as [w' [j|e]].
  - destruct Hf as (? & ? & ? & ?). done.
  - by destruct Hf.
Qed.

Lemma cooperative_rules :
  walk_rules starting running (fun _ _ => running false) finished (running false) (running false).
Proof.
  split; try done.
  - apply running_weaken.
  - eapply hoare_pre; [apply (assign_save_rule true true
      (fun i => i_iteration_count i < max_iterations (i_budget i))%nat)|done].
    unfold within_budget, room. intros i (? & ? & ?) Hroom Hlt. specialize (Hroom eq_refl).
    split_and!; simpl; first [done|lia|apply grows_set_counters; lia].
  - intros. eapply hoare_weaken; [apply (on_rule b)|auto..|]; [|intros ?; apply running_weaken].
    intros i. eapply hoare_weaken; [apply (step_linked _ _ _ _ i i)|auto|auto|intros ? ? []].
  - eapply hoare_pre; [apply (assign_save_rule true true
      (fun i => i_replan_count i < max_replans (i_budget i))%nat)|done].
    unfold within_budget, room. intros i (? & ? & ?) Hroom Hlt. specialize (Hroom eq_refl).
    split_and!; simpl; first [done|lia|apply grows_set_counters; lia].
  - intros. eapply hoare_weaken; [apply (on_rule true)|auto..|]; [|intros ?; apply running_weaken].
    intros i. apply readonly_rule, selector_payload_store.
  - intros. apply on_rule. intros i. apply external_rule. intros w. exists (iw_calls w).
    unfold call_selector. by destruct (select _ _ _).
  - intros. apply assign_save_same. intros i ?. by split_and!.
  - intros. eapply hoare_weaken; [apply (on_rule b)|auto..|]; [|intros ?; apply running_weaken].
    intros i. by apply readonly_rule.
  - intros. apply assign_save_same. intros i ?. by split_and!.
  - eapply hoare_pre; [apply (assign_save_rule true false (fun _ => True))|done].
    unfold within_budget, room. intros i (? & ? & ?) Hroom _. specialize (Hroom eq_refl).
    split_and!; simpl; first [done|lia|apply grows_set_counters; lia].
  - intros. eapply hoare_pre; [apply (on_rule false)|by intros ? []]. intros i. apply external_rule.
    intros w. exists (iw_calls w). unfold execute_action, call_evidence. by destruct (execute _ _ _ _ _).
  - intros. apply assign_save_same. intros i ?. split_and!; try done. apply grows_execution_updates.
  - apply assign_finish_rule.
Qed.

Lemma escaped_good e st : escaped finished (running false) e st -> good st.1.
Proof. intros [((? & _) & _)|[_ ((? & _) & _)]]; done. Qed.

Lemma pre_action_stop_None i :
  pre_action_stop i = None -> room i /\ (i_iteration_count i < max_iterations (i_budget i))%nat.
Proof.
  unfold pre_action_stop, room. intros. repeat case_match; simplify_eq.
  repeat match goal with Hx : (_ <=? _)%nat = false |- _ => apply Nat.leb_gt in Hx end. lia.
Qed.

Lemma starting_ok st : running false st -> pre_action_stop st.2 = None -> starting st.
Proof. intros (? & ? & _) [? ?]%pre_action_stop_None. split; [by split|done]. Qed.

Lemma finished_not_running st : finished st -> i_status st.2 <> InvestigationStatus.RUNNING.
Proof. intros [_ Hf] Hr. by rewrite Hr in Hf. Qed.

Lemma loop_rule fuel actor :
  hoare (fun st => running false st \/ finished st) (loop fuel actor)
    (fun b st => if b then finished st else True) (fun _ st => good st.1).
Proof.
  eapply hoare_weaken; [apply (loop_walk _ _ _ _ _ _ cooperative_rules)|auto|auto|exact escaped_good];
    [apply starting_ok|by intros st (_ & ? & _)|by intros st ?%finished_not_running].
Qed.

(** ** The operations *)

(** A result describes a well-formed record that is no longer active. *)
Definition final_result (r : InvestigationResult) : Prop :=
  exists i, r = result_of i /\ record_ok i /\ active_status (i_status i) = false.

Lemma run_loop_rule actor i :
  i_status i = InvestigationStatus.RUNNING -> record_ok i ->
  hoare (fun w => good w /\ linked i (iw_store w)) (run_loop actor i)
    (fun r w => good w /\ forall x, r = Some x -> final_result x) (fun _ w => good w).
Proof.
  intros Hr Hok w [Hg Hl]. unfold run_loop.
  assert (Hst : running false (w, i) \/ finished (w, i)) by (left; by split).
  pose proof (loop_rule (loop_fuel i) actor (w, i) Hst) as Hloop.
  destruct (loop _ _ _) as [[w' i'] [[]|e]] eqn:E; cbn [fst] in *; try done.
  - destruct Hloop as [(Hg' & _ & ?) ?]. split; [done|]. intros x [= <-]. by exists i'.
  - exfalso. eapply (loop_enough_fuel (loop_fuel i) actor w i); [unfold loop_fuel; lia|by rewrite E].
Qed.

Lemma load_rule id :
  hoare good (store_read (get_investigation id))
    (fun i w => good w /\ linked i (iw_store w) /\ record_ok i) (fun _ => good).
Proof.
  intros w Hg. unfold store_read, get_investigation.
  destruct (is_investigations (iw_store w) !! id) as [i|] eqn:E; [|done].
  split_and!; [done|by eapply linked_stored; [apply Hg|]|]. by eapply si_record in E as [_ ?]; [|apply Hg].
Qed.

(** Bind on a loaded record. *)
Lemma load_bind {A} id (k : Investigation -> IM A) Q X :
  (forall i, record_ok i -> hoare (fun w => good w /\ linked i (iw_store w)) (k i) Q (fun _ => X)) ->
  (forall w, good w -> X w) ->
  hoare good (i ← store_read (get_investigation id); k i) Q (fun _ => X).
Proof.
  intros Hk HX. eapply hoare_bind;
    [eapply hoare_weaken; [apply load_rule|auto|intros ? ? Hw; exact Hw|intros ?; apply HX]|].
  intros i. eapply (hoare_pure (record_ok i)); [by intros w (_ & _ & ?)|]. intros Hok.
  eapply hoare_pre; [by apply Hk|]. by intros w (? & ? & _).
Qed.

Lemma record_ok_start i :
  i_status i = InvestigationStatus.PLANNED -> record_ok i ->
  record_ok (set_status InvestigationStatus.RUNNING i).
Proof. intros Hi [Hb Hs]. split; [done|]. unfold status_ok in *. rewrite Hi in Hs. done. Qed.

Lemma final_stored i : record_ok i -> active_status (i_status i) = false -> final_result (result_of i).
Proof. intros. by exists i. Qed.

Lemma run_rule id actor :
  hoare good (run id actor) (fun r w => good w /\ forall x, r = Some x -> final_result x) (fun _ => good).
Proof.
  unfold run. apply load_bind; [|done]. intros i Hok.
  assert (Hdone : active_status (i_status i) = false ->
    hoare (fun w => good w /\ linked i (iw_store w)) (mret (Some (result_of i)) : IM _)
      (fun r w => good w /\ forall x, r = Some x -> final_result x) (fun _ => good)).
  { intros Ha. apply hoare_ret. intros w [Hg _]. split; [done|]. intros x [= <-]. by apply final_stored. }
  destruct (i_status i) eqn:Hi; try (by apply Hdone); [|by apply run_loop_rule].
  eapply hoare_bind.
  { eapply hoare_weaken; [apply save_rule|auto|intros ? ? Hw; exact Hw|by intros ? ? []]; [by rewrite Hi|done|by apply record_ok_start]. }
  intros j. eapply (hoare_pure (exists t, j = stamp (S (i_version i)) t (set_status InvestigationStatus.RUNNING i)));
    [by intros w (_ & _ & ?)|]. intros [t Hj].
  eapply hoare_bind.
  { eapply hoare_weaken; [apply (step_linked _ _ _ _ j j)| |intros ? ? Hw; exact Hw|by intros].
    by intros w (? & ? & _). }
  intros ?. apply run_loop_rule; rewrite Hj; [done|]. by apply record_ok_start.
Qed.

Lemma cancel_rule id :
  hoare good (cancel id) (fun r w => good w /\ final_result r) (fun _ => good).
Proof.
  unfold cancel. apply load_bind; [|done]. intros i Hok.
  destruct (active_status (i_status i)) eqn:Ha.
  - eapply hoare_bind; [eapply hoare_weaken; [by apply (finish_ok StopReason.USER_STOPPED)|auto|
      intros ? ? Hw; exact Hw|by intros ? ? []]|].
    intros j. apply hoare_ret. intros w (? & ? & ? & ?). split; [done|by exists j].
  - intros w [Hg _]. split; [done|by exists i].
Qed.

Lemma store_write_need n : hoare good (store_write (save_need n)) (fun _ => good) (fun _ => good).
Proof.
  intros w [Hs He]. unfold store_write, good; cbn [iw_store with_store].
  split; [by apply save_need_inv|]. etransitivity; [done|apply save_need_evolves].
Qed.

(** A fresh record is well formed and cannot clash with an active one. *)
Lemma create_investigation_rule i s s' :
  store_inv s -> record_ok i -> create_investigation i s = Ok s' -> store_inv s' /\ evolves s s'.
Proof.
  intros Hs Hok. unfold create_investigation, has_key. case_bool_decide as Hkey; [done|].
  destruct (existsb _ _) eqn:Hex; [done|]. intros [= <-]. split.
  - apply put_inv; [done..|]. intros Ha id j Hj Haj Hn. exfalso.
    assert (Hin : existsb (fun existing => bool_decide (i_information_need_id existing = i_information_need_id i)
              && active_status (i_status existing)) (values (is_investigations s)) = true); [|congruence].
    apply existsb_exists. exists j. split; [by apply list_elem_of_In, (dict_lookup_values _ id)|].
    by rewrite bool_decide_eq_true_2.
  - split; [|done]. intros id j Hj. exists j. split; [|by left]. cbn [is_investigations put_investigation].
    rewrite dict_lookup_insert_ne; [done|]. intros Heq. apply Hkey. rewrite Heq. by eexists.
Qed.

Lemma create_rule need repository_id sha budget :
  hoare good (create need repository_id sha budget) (fun _ => good) (fun _ => good).
Proof.
  unfold create. eapply hoare_bind; [apply store_write_need|]. intros ?.
  case_decide; [eapply hoare_bind; [apply store_write_need|intros ?; by apply hoare_ret]|].
  case_decide; [by apply hoare_raise|].
  eapply (hoare_bind _ _ (fun _ => good)); [by intros w Hw|]. intros id.
  eapply (hoare_bind _ _ (fun _ => good)); [by intros w Hw|]. intros t1.
  eapply (hoare_bind _ _ (fun _ => good)); [by intros w Hw|]. intros t2. cbv zeta.
  match goal with |- hoare _ (if negb (investigation_ok ?x) then _ else _) _ _ => set (i := x) end.
  destruct (investigation_ok i); [|by apply hoare_raise]. simpl negb. cbv iota.
  eapply (hoare_bind _ _ (fun _ => good)).
  - intros w [Hs He]. unfold store_try. destruct (create_investigation i (iw_store w)) as [s'|e] eqn:E; [|done].
    apply create_investigation_rule in E as [? ?]; [|done|].
    + split; [done|by etransitivity].
    + split; [unfold within_budget; simpl; lia|done].
  - intros ?. eapply hoare_bind; [apply store_write_need|intros ?; by apply hoare_ret].
Qed.

Lemma service_run_rule id actor :
  hoare good (service_run id actor) (fun r w => good w /\ forall x, r = Some x -> final_result x) (fun _ => good).
Proof.
  unfold service_run. eapply hoare_bind; [apply run_rule|]. intros [r|]; [|by apply hoare_ret].
  eapply (hoare_pure (final_result r)); [intros w [_ Hx]; by apply Hx|]. intros Hr.
  eapply hoare_pre; [|by intros w [Hw _]; exact Hw].
  apply load_bind; [|done]. intros i _.
  eapply (hoare_bind _ _ (fun _ => good)).
  { intros w [Hg _]. unfold store_read. by destruct (get_need _ _). }
  intros need. eapply hoare_bind; [apply store_write_need|]. intros ?.
  apply hoare_ret. intros w Hw. split; [done|]. by intros x [= <-].
Qed.
End invariant.

(** *** Sequences of operations *)

Inductive operation : Type :=
  | OpCreate (need : InformationNeed) (repository_id sha : string) (budget : option InvestigationBudget)
  | OpRun (investigation_id actor_id : string)
  | OpServiceRun (investigation_id actor_id : string)
  | OpCancel (investigation_id : string).

Section operations.
Context `{Builtins} `{EvidenceService} `{ActionSelector} `{InvestigationEnv}.

Definition operate (w : iworld) (op : operation) : iworld :=
  match op with
  | OpCreate need repository_id sha budget => (create need repository_id sha budget w).1
  | OpRun id actor => (run id actor w).1
  | OpServiceRun id actor => (service_run id actor w).1
  | OpCancel id => (cancel id w).1
  end.

Lemma hoare_state {A} (m : IM A) (P : iworld -> Prop) Q X :
  hoare P m Q X -> (forall a w, Q a w -> P w) -> (forall e w, X e w -> P w) ->
  forall w, P w -> P (m w).1.
Proof. intros Hm HQ HX w Hw. specialize (Hm w Hw). destruct (m w) as [w' [a|e]]; eauto. Qed.

Lemma operate_good `{!Cooperative} s0 w op : good s0 w -> good s0 (operate w op).
Proof.
  destruct op; simpl; eapply hoare_state;
    first [apply create_rule|apply run_rule|apply service_run_rule|apply cancel_rule|naive_solver].
Qed.

Lemma operations_good `{!Cooperative} s0 w ops : good s0 w -> good s0 (foldl operate w ops).
Proof. revert w. induction ops as [|op ops IH]; intros w Hw; simpl; [done|]. by apply IH, operate_good. Qed.
End operations.
