(* ===== verification/InvestigationDemo.v ===== *)
(** * A concrete investigation

    Collaborators small enough to evaluate the runner: an evidence service
    whose tools always find one source, the deterministic selector of
    [default_investigation.py], and two environments, one without other
    clients and one in which a client cancels the investigation during the
    first external call. *)
From stdpp Require Import base list gmap sets strings pretty.
From Stdlib Require Import ZArith.
From S2P Require Import Prelude PyDict Json Grounding Tools InvestigationModels Investigation.
From S2P Require Import Selectors.

#[local] Existing Instance example_builtins.

Definition demo_sha : string := String.concat EmptyString (replicate 40 "a").

Definition demo_evidence_item (n : nat) (a : ToolAction) : SourceEvidence :=
  mkEvidence ("evidence-" +:+ pretty n) "tool-call" "CODE" SourceKind.CODE_REPOSITORY
    (Some (ta_repository_id a)) (Some (ta_resolved_commit_sha a)) [("path", JStr "src")] None
    (Some (ta_repository_id a)) (Some (ta_resolved_commit_sha a)) (Some "src") None None None
    "src" "sha256:src" None ExtractionMethod.TREE false 0.

Definition demo_execution (n : nat) (a : ToolAction) : RepositoryToolExecution :=
  mkExecution
    (mkToolCall ("tool-call-" +:+ pretty n) "local" None None None None 1 None (ta_repository_id a)
       (ta_resolved_commit_sha a) (ta_tool_id a) (ta_tool_schema_version a) "repository-tools.v1"
       (ta_purpose a) (ta_arguments a) (action_signature a) "key" ToolCallStatus.SUCCEEDED "found" None 0 (Some 0%Z))
    (mkToolResult ToolStatus.SUCCEEDED [] None "found" None 0)
    (mkBundle "tool-call" [demo_evidence_item n a] [] [] []).

(** The state counts the executions. *)
Definition demo_service : EvidenceService := {|
  ev_state := nat;
  registry_validate := fun _ => Ok tt;
  registry_describe := [];
  get_replay := fun _ _ _ => None;
  get_execution := fun _ _ => Raise KeyError;
  execute := fun a _ _ _ => fun n => (S n, Ok (demo_execution n a))
|}.

Definition demo_need : InformationNeed :=
  mkNeed "need-1" "where is it?" Requiredness.OPTIONAL ["CODE"] ["repository_structure"]
    "BEFORE_UNIT_GENERATION" "keep unknown" NeedStatus.PLANNED "v1" "sha256:context"
    (Some "task-1") None None 0.

Definition quiet_env : InvestigationEnv := {|
  inv_uuid4_hex := pretty; inv_utc_now := Z.of_nat; other_clients := fun _ s => s |}.

Definition demo_world `{E : EvidenceService} (ev : @ev_state E) : iworld (H1 := RepositoryStructureSelector) :=
  mkIWorld (H1 := RepositoryStructureSelector) (mkIStore ∅ ∅ ∅) ev 0%Z 0 0 0.

Definition demo_id : string := "investigation-0".

(** A client that cancels the investigation during the first external call. *)
Definition cancelling_env : InvestigationEnv := {|
  inv_uuid4_hex := fun n => "other-" +:+ pretty n;
  inv_utc_now := Z.of_nat;
  other_clients := fun n s =>
    match n with
    | O => iw_store (cancel (H0 := demo_service) (H1 := RepositoryStructureSelector) (H2 := quiet_env) demo_id
             (mkIWorld (H0 := demo_service) (H1 := RepositoryStructureSelector) s O 0%Z 0 0 0)).1
    | _ => s
    end |}.

(** The investigation of the demonstration, created in an empty store. *)
Definition created_world (E : EvidenceService) (V : InvestigationEnv) (ev : @ev_state E)
    : iworld (H0 := E) (H1 := RepositoryStructureSelector) :=
  (create (H0 := E) (H1 := RepositoryStructureSelector) (H2 := V) demo_need "repository-1" demo_sha None
     (demo_world ev)).1.

Definition status_at {E : EvidenceService} (id : string) (w : iworld (H0 := E) (H1 := RepositoryStructureSelector))
    : option InvestigationStatus := i_status <$> is_investigations (iw_store w) !! id.

(** A quiet run completes. *)
Example demo_run_completes :
  let w := created_world demo_service quiet_env O in
  let (w', r) := run (H0 := demo_service) (H1 := RepositoryStructureSelector) (H2 := quiet_env) demo_id "local" w in
  status_at demo_id w = Some InvestigationStatus.PLANNED /\
  status_at demo_id w' = Some InvestigationStatus.COMPLETE /\
  iw_evidence w' = 1%nat /\ length (steps demo_id (iw_store w')) = 5%nat.
Proof. vm_compute. done. Qed.

(** A cancellation during the selection wins: the run raises a version
    conflict and the record stays CANCELLED. *)
Example demo_cancel_wins :
  let w := created_world demo_service quiet_env O in
  let (w', r) := run (H0 := demo_service) (H1 := RepositoryStructureSelector) (H2 := cancelling_env) demo_id "local" w in
  r = Raise InvestigationVersionConflict /\ status_at demo_id w' = Some InvestigationStatus.CANCELLED.
Proof. vm_compute. done. Qed.
