(* ===== verification/InvestigationLive.v ===== *)
(** * Runs settle, and completed actions are executed once

    When no other client touches the store and the evidence store answers
    [get_execution] or raises [KeyError], a run settles the investigation:
    no write fails, and the record ends up in a terminal status.  Then the
    evidence service is wrapped so that it also records the signatures of the
    executions that completed (succeeded, partially succeeded or found
    nothing); the runner never lets a signature be recorded twice. *)
From stdpp Require Import base list gmap sets strings pretty.
From Stdlib Require Import ZArith.
From S2P Require Import Prelude.
From S2P Require Import PyDict.
From S2P Require Import Json.
From S2P Require Import Grounding.
From S2P Require Import Tools.
From S2P Require Import InvestigationModels.
From S2P Require Import Investigation.
From S2P Require Import Selectors.
From S2P Require Import Hoare.
From S2P Require Import InvestigationInv.
From S2P Require Import InvestigationWalk.
From S2P Require Import InvestigationFacts.

(** No other client. *)
Class Quiet `{InvestigationEnv} : Prop := quiet : forall n s, other_clients n s = s.

(** The documented failure of [get_execution]: an unknown identifier. *)
Class ExecutionLookup `{EvidenceService} : Prop :=
  execution_lookup : forall id ev e, get_execution id ev = Raise e -> e = KeyError.

#[global] Instance quiet_cooperative `{Quiet} : Cooperative.
Proof. intros n s Hs. rewrite (quiet n s). split; [done|reflexivity]. Qed.

Section live.
Context `{Builtins} `{EvidenceService} `{ActionSelector} `{InvestigationEnv} `{!Quiet} `{!ExecutionLookup}.
Variables (s0 : istore) (key : string).

(** The store holds the local copy, and the need of the investigation. *)
Definition synced (st : iworld * Investigation) : Prop :=
  i_investigation_id st.2 = key /\ is_investigations (iw_store st.1) !! key = Some st.2 /\
  is_Some (is_needs (iw_store st.1) !! i_information_need_id st.2).

Lemma synced_save f :
  (forall i, i_investigation_id (f i) = i_investigation_id i /\ i_information_need_id (f i) = i_information_need_id i) ->
  hoare synced (assign (save f)) (fun _ => synced) (fun _ _ => False).
Proof.
  intros Hf [w i] (Hkey & Hi & Hn). destruct (Hf i) as [Hid Hneed]. cbn [fst snd] in *.
  unfold assign, save, inv_now, store_try, save_investigation, mbind, M_bind, mret, M_ret.
  cbn [fst snd iw_store stamp i_investigation_id]. rewrite Hid, Hkey, Hi, decide_True by done.
  unfold synced; cbn. rewrite Hneed, Hid, Hkey. split_and!; [done| |done]. apply dict_lookup_insert_eq.
Qed.

Lemma synced_on {A} P (m : Investigation -> IM A) X :
  (forall w i, P (w, i) -> synced (w, i) ->
     is_investigations (iw_store (m i w).1) = is_investigations (iw_store w) /\
     is_needs (iw_store (m i w).1) = is_needs (iw_store w) /\
     forall e, (m i w).2 = Raise e -> X) ->
  hoare (fun st => P st /\ synced st) (on m) (fun _ => synced) (fun _ st => X /\ synced st).
Proof.
  intros Hm [w i] [HP Hs]. destruct (Hm w i HP Hs) as (Hi & Hn & HX). unfold on; cbn [fst snd].
  unfold synced in *; cbn [fst snd] in *. rewrite <- Hi, <- Hn in Hs.
  destruct (m i w) as [w' [a|e]]; cbn [fst snd] in *; [done|]. split; [by eapply HX|done].
Qed.

Lemma step_writes ty st su out i w :
  store_inv (iw_store w) ->
  is_investigations (iw_store (step ty st su out i w).1) = is_investigations (iw_store w) /\
  is_needs (iw_store (step ty st su out i w).1) = is_needs (iw_store w) /\
  (step ty st su out i w).2 = Ok tt.
Proof.
  intros Hs. unfold step, store_get, inv_id, inv_now, store_do, mbind, M_bind. cbn [iw_store].
  by rewrite append_next.
Qed.

Lemma synced_finish r :
  hoare (fun st => store_inv (iw_store st.1) /\ record_ok st.2 /\ i_status st.2 = InvestigationStatus.RUNNING /\
           (r = StopReason.COVERAGE_COMPLETE -> CoveragePolicy_complete (i_coverage st.2) = true) /\ synced st)
    (assign (finish r)) (fun _ => synced) (fun _ _ => False).
Proof.
  intros [w i] (Hs & Hok & Hr & Hc & Hsync). cbn [fst snd] in *.
  pose proof (synced_save (fun i => set_stop_reason r (set_status (terminal_status i r) i))
    ltac:(done) (w, i) Hsync) as Hsave.
  assert (Hgood : good (iw_store w) w /\ linked i (iw_store w)).
  { split; [by split|]. destruct Hsync as (<- & Hi & _). by exists i. }
  pose proof (save_rule (iw_store w) (fun j => set_stop_reason r (set_status (terminal_status i r) j)) i
    ltac:(by rewrite Hr) (grows_stop _ _ _) (record_ok_stop _ _ ltac:(by rewrite Hr) Hok Hc) w Hgood) as Hinv.
  unfold assign, finish in *. cbv zeta. cbn [fst snd] in *. unfold mbind, M_bind, mret, M_ret in *.
  replace (save (fun j => set_stop_reason r (set_status (terminal_status j r) j)) i w)
    with (save (fun j => set_stop_reason r (set_status (terminal_status i r) j)) i w) in Hsave by done.
  destruct (save _ i w) as [w' [j|e]]; cbn [fst snd] in *; [|done].
  destruct Hinv as [[Hs' _] _].
  match goal with |- context [step ?a ?b ?c ?d j w'] => pose proof (step_writes a b c d j w' Hs') as (Hi & Hn & Hok2);
    destruct (step a b c d j w') as [w2 [[]|e]] end; cbn [fst snd] in *; [|done].
  unfold synced in *; cbn [fst snd] in *. by rewrite Hi, Hn.
Qed.

Definition live (b : bool) (st : iworld * Investigation) : Prop := running s0 b st /\ synced st.

(** A rule of the cooperative proof together with the synchronisation. *)
Ltac both rule sync :=
  eapply hoare_weaken; [apply (hoare_and _ _ _ _ _ _ _ rule sync)|..]; unfold live; naive_solver.

Lemma payload_reads gap i w :
  is_Some (is_needs (iw_store w) !! i_information_need_id i) ->
  exists j, selector_payload gap i w = (w, Ok j).
Proof.
  intros [n Hn]. unfold selector_payload, store_read, store_get, gets, liftR, get_need, mbind, M_bind, mret, M_ret.
  rewrite Hn. assert (Hp : exists l, prior_tool_results (iw_evidence w) (steps (i_investigation_id i) (iw_store w)) = Ok l).
  { unfold prior_tool_results. edestruct (result_map_total (prior_tool_result (iw_evidence w))) as [l Hl];
      [|rewrite Hl; by eexists].
    intros st _. unfold prior_tool_result. repeat case_match; simplify_eq; eauto;
      match goal with Hx : get_execution _ _ = Raise _ |- _ => apply execution_lookup in Hx end; simplify_eq. }
  destruct Hp as [l ->]. by eexists.
Qed.

Lemma live_step b ty st su out :
  hoare (live b) (on (step ty st su out)) (fun _ => live b) (fun _ _ => False).
Proof.
  assert (Hsync : hoare (fun st => running s0 b st /\ synced st) (on (step ty st su out)) (fun _ => synced)
    (fun _ st => False /\ synced st)).
  { apply synced_on. intros w i (((Hs & _) & _) & _) _.
    destruct (step_writes ty st su out i w Hs) as (? & ? & Hok). split_and!; [done..|]. congruence. }
  both (w_step _ _ _ _ _ _ (cooperative_rules s0) b ty st su out) Hsync.
Qed.

Lemma live_payload gap : hoare (live true) (on (selector_payload gap)) (fun _ => live true) (fun _ _ => False).
Proof.
  intros [w i] [Hr (Hk & Hi & Hn)]. unfold on; cbn [fst snd]. destruct (payload_reads gap i w Hn) as [j ->]. by split.
Qed.

(** Calls to collaborators leave the store alone. *)
Lemma live_call {A} b (m : Investigation -> IM A) :
  hoare (running s0 b) (on m) (fun _ => running s0 b) (fun _ => running s0 b) ->
  (forall i w, iw_store (m i w).1 = iw_store w) ->
  hoare (live b) (on m) (fun _ => live b) (fun _ => live b).
Proof.
  intros Hm Hst.
  assert (Hsync : hoare (fun st => True /\ synced st) (on m) (fun _ => synced) (fun _ st => True /\ synced st))
    by (apply synced_on; intros w i _ _; by rewrite Hst).
  both Hm Hsync.
Qed.

Lemma call_selector_store {A} (m : M sel_state exc A) w : iw_store (call_selector m w).1 = iw_store w.
Proof. unfold call_selector. destruct (m _). apply quiet. Qed.

Lemma execute_action_store actor action k i w : iw_store (execute_action actor action k i w).1 = iw_store w.
Proof. unfold execute_action, call_evidence. destruct (execute _ _ _ _ _). apply quiet. Qed.

Lemma live_rules :
  walk_rules (fun st => starting s0 st /\ synced st) live (fun _ _ => live false)
    (fun st => finished s0 st /\ synced st) (fun _ => False) (fun _ => False).
Proof.
  pose proof (cooperative_rules s0) as W. split; try done.
  - intros st [? ?]. split; [by eapply running_weaken|done].
  - both (w_begin _ _ _ _ _ _ W) (synced_save bump_iteration ltac:(done)).
  - intros. apply live_step.
  - both (w_replan _ _ _ _ _ _ W) (synced_save bump_replans ltac:(done)).
  - intros. apply live_payload.
  - intros. apply live_call; [apply (w_select _ _ _ _ _ _ W)|intros; apply call_selector_store].
  - intros. both (w_tokens _ _ _ _ _ _ W b n) (synced_save (add_tokens n) ltac:(done)).
  - intros b [w i] [Hr Hs]. split; [exact (w_reset _ _ _ _ _ _ W b (w, i) Hr)|exact Hs].
  - intros g. both (w_rounds _ _ _ _ _ _ W g) (synced_save (fun i => set_rounds (g i) i) ltac:(done)).
  - both (w_count _ _ _ _ _ _ W) (synced_save bump_tool_calls ltac:(done)).
  - intros. eapply hoare_pre; [apply (live_call false)|by intros ? []]; [|intros; apply execute_action_store].
    apply on_rule. intros i. apply external_rule. intros w. exists (iw_calls w).
    unfold execute_action, call_evidence. by destruct (execute _ _ _ _ _).
  - intros p x signature. both (w_updates _ _ _ _ _ _ W p x signature) (synced_save (execution_updates p x signature) ltac:(done)).
  - intros r. eapply hoare_weaken; [apply (hoare_and _ _ _ _ _ _ _ (w_finish _ _ _ _ _ _ W r) (synced_finish r))|..];
      [|naive_solver..]. intros st [[Hr Hs] Hc]. split; [done|].
    destruct Hr as (((? & ?) & ? & ?) & ? & ?). done.
Qed.

Definition settled_at (w : iworld) (r : option InvestigationResult) : Prop :=
  exists i, is_investigations (iw_store w) !! key = Some i /\ active_status (i_status i) = false /\
    record_ok i /\ forall x, r = Some x -> x = result_of i.

(** The outcome of a run: a result describing the settled record, or the model
    API error that stopped it. *)
Definition settles (outcome : iworld * result exc (option InvestigationResult)) : Prop :=
  match outcome with
  | (w, Ok r) => r <> None /\ settled_at w r
  | (w, Raise e) => (exists code retryable, e = ModelApiError code retryable) /\ settled_at w None
  end.

Lemma settled_finished w i r :
  finished s0 (w, i) -> synced (w, i) -> (forall x, r = Some x -> x = result_of i) -> settled_at w r.
Proof. intros [(_ & _ & ?) ?] (_ & ? & _) ?. by exists i. Qed.

Lemma run_loop_live actor i w :
  good s0 w -> record_ok i -> i_status i = InvestigationStatus.RUNNING -> synced (w, i) ->
  settles (run_loop actor i w).
Proof.
  intros Hg Hok Hr Hs. unfold settles, run_loop.
  assert (Hlive : live false (w, i)).
  { split; [|done]. split; [|done]. split_and!; [done| |done]. destruct Hs as (Hk & Hi & _). cbn [fst snd] in *.
    exists i. by rewrite Hk. }
  pose proof (loop_walk _ _ _ _ _ _ live_rules
    (fun st Hst Hp => conj (starting_ok s0 st (proj1 Hst) Hp) (proj2 Hst))
    (fun st Hst Hne => False_ind _ (Hne (proj1 (proj2 (proj1 Hst)))))
    (fun st Hst Heq => False_ind _ (finished_not_running s0 st (proj1 Hst) Heq))
    (loop_fuel i) actor (w, i) (or_introl Hlive)) as Hloop.
  pose proof (loop_enough_fuel (loop_fuel i) actor w i ltac:(unfold loop_fuel; lia)) as Hfuel.
  destruct (loop _ _ _) as [[w' i'] [[]|e]]; cbn [snd] in *; [|done|].
  - destruct Hloop. split; [done|]. eapply settled_finished; [done..|]. by intros x [= <-].
  - destruct Hloop as [[]|[? [? ?]]]. split; [done|]. by eapply settled_finished.
Qed.
End live.

(** C36: without interference a run settles the investigation.  If the
    investigation and its information need are stored and no other client
    writes, [run] ends with the record in a terminal status: it returns the
    result that describes that record, or it re-raises the model API error
    that stopped it.  No version conflict and no other exception escapes. *)
Theorem run_settles `{Builtins} `{EvidenceService} `{ActionSelector} `{InvestigationEnv}
    `{!Quiet} `{!ExecutionLookup} (id actor_id : string) (w : iworld) (i : Investigation) :
  store_inv (iw_store w) -> is_investigations (iw_store w) !! id = Some i ->
  is_Some (is_needs (iw_store w) !! i_information_need_id i) ->
  settles id (run id actor_id w).
Proof.
  intros Hs Hi Hn. destruct (si_record _ Hs _ _ Hi) as [Hid Hok].
  assert (Hg : good (iw_store w) w) by (by split).
  assert (Hsync : synced id (w, i)) by done.
  unfold run, store_read, get_investigation. unfold mbind at 1, M_bind at 1. rewrite Hi.
  destruct (i_status i) eqn:Hst;
    try (unfold settles; split; [done|]; exists i; cbn [iw_store]; split_and!; [done|by rewrite Hst|done|by intros x [= <-]]).
  - pose proof (synced_save id (set_status InvestigationStatus.RUNNING) ltac:(done) (w, i) Hsync) as Hs1.
    pose proof (save_rule (iw_store w) (set_status InvestigationStatus.RUNNING) i ltac:(by rewrite Hst)
      ltac:(by split) (record_ok_start _ Hst Hok) w (conj Hg (linked_stored _ _ _ Hs Hi))) as Hr1.
    unfold assign in Hs1. cbn [fst snd] in Hs1. unfold mbind at 1, M_bind at 1.
    destruct (save _ i w) as [w1 [j|e]]; [|done]. destruct Hr1 as (Hg1 & _ & t & Hj).
    destruct (step_writes "START" "SUCCEEDED" "调查已开始" [] j w1 (proj1 Hg1)) as (Hi2 & Hn2 & Hok2).
    pose proof (step_rule (iw_store w) "START" "SUCCEEDED" "调查已开始" [] j (fun _ => True)
      ltac:(done) w1 (conj Hg1 I)) as Hg2.
    unfold mbind at 1, M_bind at 1. destruct (step _ _ _ _ j w1) as [w2 [[]|e]]; [|done]. cbn [fst snd] in *.
    apply (run_loop_live (iw_store w)); [apply Hg2| | |].
    + rewrite Hj. by apply record_ok_start.
    + by rewrite Hj.
    + destruct Hs1 as (? & ? & ?). unfold synced; cbn [fst snd] in *. by rewrite Hi2, Hn2.
  - by apply (run_loop_live (iw_store w)).
Qed.

Definition completed (x : RepositoryToolExecution) : bool :=
  match tr_status (x_tool_result x) with
  | ToolStatus.SUCCEEDED | ToolStatus.PARTIAL | ToolStatus.EMPTY => true
  | _ => false
  end.

(** The recording wrapper around a service. *)
Definition Recorded `{Builtins} (E : EvidenceService) : EvidenceService := {|
  ev_state := @ev_state E * list string;
  registry_validate := @registry_validate E;
  registry_describe := @registry_describe E;
  get_replay actor key s := @get_replay E actor key s.1;
  get_execution id s := @get_execution E id s.1;
  execute action actor key scope := fun s =>
    let (s', r) := @execute E action actor key scope s.1 in
    ((s', match r with
          | Ok x => if completed x then s.2 ++ [action_signature action] else s.2
          | Raise _ => s.2
          end), r)
|}.

Section evidence_frame.
Context `{Builtins} `{EvidenceService} `{ActionSelector} `{InvestigationEnv}.
Implicit Types (P Q : ev_state -> Investigation -> Prop).

Definition at_evidence P (st : iworld * Investigation) : Prop := P (iw_evidence st.1) st.2.

(** Only [execute] changes the state of the service. *)
Lemma evidence_on {A} P (m : Investigation -> IM A) :
  (forall i w, iw_evidence (m i w).1 = iw_evidence w) ->
  hoare (at_evidence P) (on m) (fun _ => at_evidence P) (fun _ => at_evidence P).
Proof.
  intros Hm [w i] Hst. unfold on, at_evidence in *; cbn [fst snd] in *. rewrite <- (Hm i w) in Hst.
  by destruct (m i w) as [w' [a|e]].
Qed.

Lemma save_evidence f i w : iw_evidence (save f i w).1 = iw_evidence w.
Proof.
  unfold save, store_try, inv_now, mbind, M_bind, mret, M_ret. by destruct (save_investigation _ _ _).
Qed.

Lemma step_evidence ty st su out i w : iw_evidence (step ty st su out i w).1 = iw_evidence w.
Proof.
  unfold step, store_get, inv_id, inv_now, store_do, mbind, M_bind. by destruct (append_step _ _).
Qed.

Lemma payload_evidence gap i w : iw_evidence (selector_payload gap i w).1 = iw_evidence w.
Proof.
  unfold selector_payload, store_read, store_get, gets, liftR, mbind, M_bind, mret, M_ret.
  destruct (get_need _ _); [|done]. cbn [fst snd]. by destruct (prior_tool_results _ _).
Qed.

Lemma evidence_save P Q f :
  (forall ev i t, P ev i -> Q ev (stamp (S (i_version i)) t (f i))) ->
  hoare (at_evidence P) (assign (save f)) (fun _ => at_evidence Q) (fun _ => at_evidence P).
Proof.
  intros Hf [w i] Hst. unfold at_evidence in *; cbn [fst snd] in *.
  unfold assign, save, store_try, inv_now, mbind, M_bind, mret, M_ret. cbn [fst snd].
  destruct (save_investigation _ _ _); cbn [fst snd]; [by apply Hf|done].
Qed.

Lemma evidence_finish P r :
  (forall ev i t, P ev i -> P ev (stamp (S (i_version i)) t (set_stop_reason r (set_status (terminal_status i r) i)))) ->
  hoare (at_evidence P) (assign (finish r)) (fun _ => at_evidence P) (fun _ => at_evidence P).
Proof.
  intros Hf [w i] Hst. unfold at_evidence in *; cbn [fst snd] in *. unfold assign, finish. cbn [fst snd].
  pose proof (save_evidence (fun j => set_stop_reason r (set_status (terminal_status i r) j)) i w) as He.
  unfold save, store_try, inv_now, mbind, M_bind, mret, M_ret in *. cbn [fst snd] in *.
  destruct (save_investigation _ _ _); cbn [fst snd] in *; [|done].
  match goal with |- context [step ?a ?b ?c ?d ?j ?w'] => pose proof (step_evidence a b c d j w') as Hs;
    destruct (step a b c d j w') as [w2 [[]|e]] end; cbn [fst snd] in *; rewrite Hs; [by apply Hf|done].
Qed.

(** A run keeps what every pass of the loop keeps. *)
Lemma run_evidence P (O : ev_state -> Prop) D id actor w i :
  walk_rules (at_evidence P) (fun _ => at_evidence P) D (at_evidence P) (at_evidence P)
    (fun st => O (iw_evidence st.1)) ->
  (forall ev j, P ev j -> O ev) ->
  (forall ev j t, P ev j -> P ev (stamp (S (i_version j)) t (set_status InvestigationStatus.RUNNING j))) ->
  is_investigations (iw_store w) !! id = Some i -> P (iw_evidence w) i ->
  O (iw_evidence (run id actor w).1) /\
  forall x, (run id actor w).2 = Ok (Some x) -> exists j, x = result_of j /\ P (iw_evidence (run id actor w).1) j.
Proof.
  intros Hrules HO Hstart Hi HP.
  assert (Hloop : forall j w', P (iw_evidence w') j ->
    O (iw_evidence (run_loop actor j w').1) /\
    forall x, (run_loop actor j w').2 = Ok (Some x) -> exists j', x = result_of j' /\ P (iw_evidence (run_loop actor j w').1) j').
  { intros j w' Hj. unfold run_loop.
    pose proof (loop_walk _ _ _ _ _ _ Hrules (fun _ Hst _ => Hst) (fun _ Hst _ => Hst) (fun _ Hst _ => Hst)
      (loop_fuel j) actor (w', j) (or_introl Hj)) as Hl.
    pose proof (loop_enough_fuel (loop_fuel j) actor w' j ltac:(unfold loop_fuel; lia)) as Hfuel.
    destruct (loop _ _ _) as [[w2 j2] [[]|e]]; cbn [fst snd] in *; [|done|].
    - split; [by eapply HO|]. intros x [= <-]. by exists j2.
    - split; [|done]. destruct Hl as [?|[_ Hl]]; [done|by eapply HO]. }
  assert (Hrun : run id actor w = (match i_status i with
    | InvestigationStatus.PLANNED =>
        i ← save (set_status InvestigationStatus.RUNNING) i;
        step "START" "SUCCEEDED" "调查已开始" [] i;;
        run_loop actor i
    | InvestigationStatus.RUNNING => run_loop actor i
    | _ => mret (Some (result_of i))
    end : IM _) w)
    by (unfold run, store_read, get_investigation; unfold mbind at 1, M_bind at 1; by rewrite Hi).
  rewrite Hrun. clear Hrun.
  destruct (i_status i); try (split; [by eapply HO|]; intros x [= <-]; by exists i); [|by apply Hloop].
  pose proof (evidence_save (fun ev j => ev = iw_evidence w /\ j = i) P (set_status InvestigationStatus.RUNNING)
    ltac:(intros ? ? ? [-> ->]; by apply Hstart) (w, i) (conj eq_refl eq_refl)) as Hs.
  pose proof (save_evidence (set_status InvestigationStatus.RUNNING) i w) as He.
  unfold assign, at_evidence in Hs. cbn [fst snd] in Hs. unfold mbind, M_bind.
  destruct (save _ i w) as [w1 [j|e]]; cbn [fst snd] in *; [|rewrite He; split; [by eapply HO|done]].
  pose proof (step_evidence "START" "SUCCEEDED" "调查已开始" [] j w1) as He2.
  destruct (step _ _ _ _ j w1) as [w2 [[]|e]]; cbn [fst snd] in *; rewrite <- He2 in Hs; [by apply Hloop|].
  split; [by eapply HO|done].
Qed.
End evidence_frame.

Section once.
Context `{Builtins} `{E : EvidenceService} `{ActionSelector} `{InvestigationEnv}.
#[local] Instance recorded_service : EvidenceService := Recorded E.
Variable base : gset string.

(** No repetition, and nothing that was completed before. *)
Definition fresh (log : list string) : Prop := NoDup log /\ forall s, s ∈ log -> s ∉ base.

Definition covered_by (ev : @ev_state E * list string) (i : Investigation) : Prop :=
  fresh ev.2 /\ base ⊆ i_completed_action_signatures i /\
  forall s, s ∈ ev.2 -> s ∈ i_completed_action_signatures i.

(** After the tool ran, before its signature is added. *)
Definition pending (signature : string) (x : RepositoryToolExecution)
    (ev : @ev_state E * list string) (i : Investigation) : Prop :=
  fresh ev.2 /\ base ⊆ i_completed_action_signatures i /\
  forall s, s ∈ ev.2 -> s ∈ i_completed_action_signatures i \/ s = signature /\ completed x = true.

Lemma execute_pending actor action key :
  hoare (fun st => at_evidence covered_by st /\ action_signature action ∉ i_completed_action_signatures st.2)
    (on (execute_action actor action key)) (fun x => at_evidence (pending (action_signature action) x))
    (fun _ => at_evidence covered_by).
Proof.
  intros [w i] [(Hf & Hb & Hc) Hnot]. unfold on, execute_action, call_evidence, at_evidence; cbn [fst snd] in *.
  unfold execute; cbn [recorded_service Recorded].
  destruct (@execute E _ _ _ _ _) as [s' [x|e]]; cbn [fst snd iw_evidence]; [|done].
  unfold pending; cbn [fst snd]. destruct (completed x); [|naive_solver]. destruct Hf as [Hnd Hbase].
  split_and!; [split| done |].
  - apply NoDup_app. split_and!; [done| |apply NoDup_singleton].
    intros s Hs ->%list_elem_of_singleton. by apply Hnot, Hc.
  - intros s [Hs| ->%list_elem_of_singleton]%elem_of_app; [by apply Hbase|]. intros Hin. by apply Hnot, Hb.
  - intros s [Hs| ->%list_elem_of_singleton]%elem_of_app; naive_solver.
Qed.

Lemma once_rules :
  walk_rules (at_evidence covered_by) (fun _ => at_evidence covered_by)
    (fun signature x => at_evidence (pending signature x)) (at_evidence covered_by)
    (at_evidence covered_by) (fun st => fresh (iw_evidence st.1).2).
Proof.
  assert (Hw : forall st, at_evidence covered_by st -> fresh (iw_evidence st.1).2) by by intros st [].
  split; try done.
  - eapply hoare_weaken; [by apply (evidence_save (H0:=recorded_service) covered_by covered_by)|auto|auto|naive_solver].
  - intros. apply evidence_on. intros. apply step_evidence.
  - eapply hoare_pre; [by apply (evidence_save (H0:=recorded_service) covered_by covered_by)|]. by intros st [].
  - intros. eapply hoare_weaken; [apply (evidence_on (H0:=recorded_service) covered_by)|auto|auto|intros ?; apply Hw].
    intros. apply payload_evidence.
  - intros. apply evidence_on. intros i w. unfold call_selector. by destruct (select _ _ _).
  - intros. by apply (evidence_save (H0:=recorded_service) covered_by covered_by).
  - intros. by apply evidence_on.
  - intros. by apply (evidence_save (H0:=recorded_service) covered_by covered_by).
  - by apply (evidence_save (H0:=recorded_service) covered_by covered_by).
  - apply execute_pending.
  - intros p x signature. eapply hoare_weaken; [apply (evidence_save (H0:=recorded_service) (pending signature x) covered_by)|auto|auto|];
      [|by intros ? st []].
    intros ev i t (Hf & Hb & Hc). unfold completed in Hc.
    split_and!; [done|..]; simpl; destruct (tr_status _); set_solver.
  - intros r. eapply hoare_pre; [by apply evidence_finish|]. by intros st [].
Qed.
End once.

