(* ===== verification/InvestigationSafety.v ===== *)
(** * Guarantees of the investigation service

    The properties of the runner and of the application service over arbitrary
    sequences of operations with cooperating concurrent clients, and the
    concrete runs on which they apply. *)
From stdpp Require Import base list gmap sets strings pretty.
From Stdlib Require Import ZArith.
From S2P Require Import Prelude PyDict Json Grounding Tools InvestigationModels Investigation.
From S2P Require Import Selectors.
From S2P Require Import Hoare InvestigationInv InvestigationWalk InvestigationFacts.
From S2P Require Import InvestigationDemo.
From S2P Require Import InvestigationLive.

#[local] Existing Instance example_builtins.

Lemma store_inv_empty : store_inv (mkIStore ∅ ∅ ∅).
Proof. split; [constructor|by intros ? ? ?..|done]. Qed.

#[global] Instance quiet_env_quiet : Quiet (H := quiet_env).
Proof. done. Qed.

(** Cancelling is a cooperative client. *)
#[global] Instance cancelling_cooperative : Cooperative (H := cancelling_env).
Proof.
  intros [|n] s Hs; [|by split]. cbn [other_clients cancelling_env].
  set (w := mkIWorld _ _ _ _ _ _).
  eapply (hoare_state (H0 := demo_service) (H1 := RepositoryStructureSelector) _ (good s));
    [apply (cancel_rule (H2 := quiet_env))|by intros ? ? []|done|by split].
Qed.

Section guarantees.
Context `{Builtins} `{EvidenceService} `{ActionSelector} `{InvestigationEnv}.

(** C28: the invariant of the investigation store.  Creating, running and
    cancelling investigations in any order, with cooperating clients writing
    during every external call, keeps each stored record within its budget
    (iterations, tool calls, replans), with a status that agrees with its stop
    reason, COMPLETE only with full coverage, at most one active investigation
    per information need, and step sequences numbered 1, 2, 3, ... *)
Theorem investigation_store_invariant `{!Cooperative} (ops : list operation) (w : iworld) :
  store_inv (iw_store w) -> store_inv (iw_store (foldl operate w ops)).
Proof.
  intros Hw. assert (Hg : good (iw_store w) w) by (by split).
  by destruct (operations_good _ _ ops Hg).
Qed.

(** stored records only evolve.  Over any sequence of operations, every
    record stays, a record in a terminal status never changes again, each
    change strictly increases the version, keeps the identity and the budget
    and drops no evidence, fact or completed signature, and the step log of
    an investigation is only appended to. *)
Theorem investigation_records_evolve `{!Cooperative} (ops : list operation) (w : iworld) :
  store_inv (iw_store w) -> evolves (iw_store w) (iw_store (foldl operate w ops)).
Proof.
  intros Hw. assert (Hg : good (iw_store w) w) by (by split).
  by destruct (operations_good _ _ ops Hg).
Qed.

Lemma complete_no_risks i :
  CoveragePolicy_complete (i_coverage i) = true -> ir_risk_summary (result_of i) = [].
Proof.
  unfold CoveragePolicy_complete, result_of, values; cbn [ir_risk_summary].
  induction (items (i_coverage i)) as [|[k c] l IH]; csimpl; [done|].
  intros [Hc Hl]%andb_true_iff. rewrite Hc. simpl. by apply IH.
Qed.

Lemma complete_reason i r :
  terminal_status i r = InvestigationStatus.COMPLETE -> r = StopReason.COVERAGE_COMPLETE.
Proof. destruct r; simpl; try done; by destruct (_ || _). Qed.

(** What a result says is true.  A result returned by [run] is never
    active; it is COMPLETE exactly when its stop reason is COVERAGE_COMPLETE,
    and then every coverage item is covered or not required and no risk is
    reported. *)
Theorem run_result_sound `{!Cooperative} (id actor_id : string) (w : iworld) (r : InvestigationResult) :
  store_inv (iw_store w) -> (run id actor_id w).2 = Ok (Some r) ->
  active_status (ir_status r) = false /\
  (ir_status r = InvestigationStatus.COMPLETE <-> ir_stop_reason r = StopReason.COVERAGE_COMPLETE) /\
  (ir_status r = InvestigationStatus.COMPLETE ->
     CoveragePolicy_complete (ir_coverage r) = true /\ ir_risk_summary r = []).
Proof.
  intros Hw Hr. assert (Hg : good (iw_store w) w) by (by split).
  pose proof (run_rule _ id actor_id w Hg) as Hrun.
  destruct (run id actor_id w) as [w' o]; cbn [snd] in Hr; subst o.
  destruct Hrun as [_ Hfin]. destruct (Hfin r eq_refl) as (i & -> & [_ Hs] & Ha).
  unfold status_ok in Hs. rewrite Ha in Hs. destruct Hs as (reason & Hreason & Hst & Hc).
  assert (Hiff : i_status i = InvestigationStatus.COMPLETE <-> reason = StopReason.COVERAGE_COMPLETE).
  { rewrite Hst. split; [apply complete_reason|by intros ->]. }
  cbn [result_of ir_status ir_stop_reason ir_coverage]. rewrite Hreason. split_and!; [done|done|].
  intros Hcomp%Hiff. split; [by apply Hc|by apply complete_no_risks, Hc].
Qed.
End guarantees.

(** ** Concrete runs *)

Definition demo_operations : list operation :=
  [OpCreate demo_need "repository-1" demo_sha None; OpRun demo_id "local"; OpServiceRun demo_id "local"].

Lemma investigation_store_invariant_witness :
  store_inv (iw_store (foldl (operate (H0 := demo_service) (H1 := RepositoryStructureSelector) (H2 := cancelling_env))
    (demo_world (E := demo_service) O) demo_operations)).
Proof.
  apply (investigation_store_invariant (H0 := demo_service) (H1 := RepositoryStructureSelector)
    (H2 := cancelling_env) demo_operations (demo_world (E := demo_service) O)). apply store_inv_empty.
Defined.

Lemma investigation_records_evolve_witness :
  evolves (mkIStore ∅ ∅ ∅) (iw_store (foldl (operate (H0 := demo_service) (H1 := RepositoryStructureSelector)
    (H2 := cancelling_env)) (demo_world (E := demo_service) O) demo_operations)).
Proof.
  apply (investigation_records_evolve (H0 := demo_service) (H1 := RepositoryStructureSelector)
    (H2 := cancelling_env) demo_operations (demo_world (E := demo_service) O)). apply store_inv_empty.
Defined.

Lemma created_inv : store_inv (iw_store (created_world demo_service quiet_env O)).
Proof.
  apply (operate_good (H0 := demo_service) (H1 := RepositoryStructureSelector) (H2 := quiet_env)
    (mkIStore ∅ ∅ ∅) (demo_world (E := demo_service) O) (OpCreate demo_need "repository-1" demo_sha None)).
  split; [apply store_inv_empty|reflexivity].
Qed.

(** The result of the quiet run. *)
Definition demo_result : option InvestigationResult :=
  match (run (H0 := demo_service) (H1 := RepositoryStructureSelector) (H2 := quiet_env) demo_id "local"
           (created_world demo_service quiet_env O)).2 with Ok r => r | Raise _ => None end.

Definition demo_result_value : InvestigationResult :=
  match demo_result with Some r => r | None =>
    mkInvestigationResult "" InvestigationStatus.FAILED StopReason.NO_PROGRESS ∅ [] [] [] [] "" [] end.

Lemma run_result_sound_witness :
  active_status (ir_status demo_result_value) = false /\
  (ir_status demo_result_value = InvestigationStatus.COMPLETE <->
     ir_stop_reason demo_result_value = StopReason.COVERAGE_COMPLETE) /\
  (ir_status demo_result_value = InvestigationStatus.COMPLETE ->
     CoveragePolicy_complete (ir_coverage demo_result_value) = true /\ ir_risk_summary demo_result_value = []).
Proof.
  refine (run_result_sound (H0 := demo_service) (H1 := RepositoryStructureSelector) (H2 := quiet_env)
    demo_id "local" (created_world demo_service quiet_env O) demo_result_value created_inv _).
  vm_compute. reflexivity.
Defined.

#[global] Instance demo_lookup : ExecutionLookup (H := demo_service).
Proof. by intros id ev e [= <-]. Qed.

Definition demo_record : Investigation :=
  match is_investigations (iw_store (created_world demo_service quiet_env O)) !! demo_id with
  | Some i => i
  | None => mkInvestigation "" "" "" "" InvestigationStatus.FAILED ∅ default_budget 0 0 0 0 0 ∅ [] [] [] [] None
              "" 1 None None None 0 0
  end.

Lemma run_settles_witness :
  settles demo_id (run (H0 := demo_service) (H1 := RepositoryStructureSelector) (H2 := quiet_env) demo_id "local"
    (created_world demo_service quiet_env O)).
Proof.
  assert (Hi : is_investigations (iw_store (created_world demo_service quiet_env O)) !! demo_id = Some demo_record)
    by (vm_compute; reflexivity).
  assert (Hn : is_Some (is_needs (iw_store (created_world demo_service quiet_env O)) !! i_information_need_id demo_record))
    by (vm_compute; eexists; reflexivity).
  exact (run_settles (H0 := demo_service) (H1 := RepositoryStructureSelector) (H2 := quiet_env)
    demo_id "local" (created_world demo_service quiet_env O) demo_record created_inv Hi Hn).
Defined.

Definition recorded_world : iworld (H0 := Recorded demo_service) (H1 := RepositoryStructureSelector) :=
  created_world (Recorded demo_service) quiet_env (O, []).

