(* ===== verification/PyText.v ===== *)
(** * Python text operations

    Line and field splitting as the sources use it, on UTF-8 encoded strings. *)
From stdpp Require Import base list strings.
From S2P Require Import Prelude.

(** [s.split(sep)] for a one-character separator. *)
Fixpoint split_on (sep : Ascii.ascii) (s : string) : list string :=
  match s with
  | EmptyString => [EmptyString]
  | String c s' =>
      if Ascii.eqb c sep then EmptyString :: split_on sep s'
      else match split_on sep s' with
           | [] => [String c EmptyString]
           | part :: rest => String c part :: rest
           end
  end.

(** [s.replace("\r\n", "\n").replace("\r", "\n")]. *)
Fixpoint unify_newlines (s : string) : string :=
  match s with
  | EmptyString => EmptyString
  | String c s' =>
      if Nat.eqb (Ascii.nat_of_ascii c) 13 then
        match s' with
        | String d s'' =>
            if Nat.eqb (Ascii.nat_of_ascii d) 10 then String d (unify_newlines s'')
            else String (Ascii.ascii_of_nat 10) (unify_newlines s')
        | EmptyString => String (Ascii.ascii_of_nat 10) EmptyString
        end
      else String c (unify_newlines s')
  end.

(** The boundaries of [str.splitlines], UTF-8 encoded. *)
Definition line_boundaries : list string :=
  str_of_codes <$> [[13; 10]; [10]; [13]; [11]; [12]; [28]; [29]; [30]; [194; 133]; [226; 128; 168]; [226; 128; 169]]%nat.

Definition boundary_at (s : string) : option nat :=
  match List.filter (fun b => String.prefix b s) line_boundaries with
  | b :: _ => Some (String.length b)
  | [] => None
  end.

(** [s.splitlines()]: a final boundary does not open another line. *)
Fixpoint splitlines_from (fuel : nat) (current s : string) : list string :=
  match fuel, s with
  | S fuel', String c s' =>
      match boundary_at s with
      | Some n => current :: splitlines_from fuel' EmptyString (str_drop_bytes n s)
      | None => splitlines_from fuel' (current +:+ String c EmptyString) s'
      end
  | _, _ => match current with EmptyString => [] | _ => [current] end
  end.

(** Every step consumes at least one byte. *)
Definition splitlines (s : string) : list string := splitlines_from (String.length s) EmptyString s.

(** [s.strip(sep)] for a one-character separator. *)
Fixpoint lstrip_char (sep : Ascii.ascii) (s : string) : string :=
  match s with
  | String c s' => if Ascii.eqb c sep then lstrip_char sep s' else s
  | EmptyString => EmptyString
  end.

Fixpoint rstrip_char (sep : Ascii.ascii) (s : string) : string :=
  match s with
  | EmptyString => EmptyString
  | String c s' =>
      match rstrip_char sep s' with
      | EmptyString => if Ascii.eqb c sep then EmptyString else String c EmptyString
      | t => String c t
      end
  end.

Definition strip_char (sep : Ascii.ascii) (s : string) : string := rstrip_char sep (lstrip_char sep s).
