(* ===== verification/RepositoryPolicy.v ===== *)
(** * Repository paths and contents

    [repository/bindings.py], [repository/path_policy.py] and
    [repository/content_policy.py]: which paths a tool may read and what is
    removed from a text before it is stored.  The regular-expression engine of
    the standard library is a parameter: [subn] and [search] of the patterns
    that the policy compiles. *)
From stdpp Require Import base list sets strings pretty.
From Stdlib Require Import ZArith.
From S2P Require Import Prelude PyDict PyText Json.

(** ** Paths *)

Definition slash : Ascii.ascii := Ascii.ascii_of_nat 47.
Definition slashes : string := str_of_codes [47].

(** [PurePosixPath(value)]: its root (one or exactly two slashes kept) and its
    components; empty components and ["."] are dropped. *)
Fixpoint leading_slashes (s : string) : nat :=
  match s with
  | String c s' => if Ascii.eqb c slash then S (leading_slashes s') else 0
  | EmptyString => 0
  end.

Definition posix_root (s : string) : string :=
  match leading_slashes s with
  | 0 => EmptyString
  | 2 => str_of_codes [47; 47]
  | _ => slashes
  end.

Definition posix_tail (s : string) : list string :=
  List.filter (fun part => truthy part && negb (bool_decide (part = "."))) (split_on slash s).

Definition posix_parts (s : string) : list string :=
  match posix_root s with EmptyString => posix_tail s | root => root :: posix_tail s end.

(** [path.as_posix()]. *)
Definition as_posix (s : string) : string :=
  match posix_root s +:+ str_join slashes (posix_tail s) with EmptyString => "." | p => p end.

Definition has_char (n : nat) (s : string) : bool := str_contains (str_of_codes [n]) s.

(** [normalize_relative_path]. *)
Definition normalize_relative_path (value : string) (allow_empty : bool) : result exc string :=
  if has_char 0 value || has_char 92 value then Raise BlockedPath
  else if bool_decide (value = EmptyString) then (if allow_empty then Ok EmptyString else Raise BlockedPath)
  else if truthy (posix_root value)
          || existsb (fun part => bool_decide (part ∈ [EmptyString; "."; ".."])) (posix_parts value)
  then Raise BlockedPath
  else if bool_decide (as_posix value = ".") || negb (bool_decide (as_posix value = value))
  then Raise BlockedPath
  else Ok (as_posix value).

Definition blocked_segments : list string := [".git"; "node_modules"; "vendor"; ".venv"; "venv"; "__pycache__"].
Definition blocked_names : list string := [".env"; "id_rsa"; "id_ed25519"; "credentials"; "credentials.json"].
Definition blocked_suffixes : list string := [".pem"; ".key"; ".p12"; ".pfx"].

Definition ends_with (suffix s : string) : bool :=
  bool_decide (str_drop_bytes (String.length s - String.length suffix) s = suffix).

Definition blocked_name (name : string) : bool :=
  bool_decide (name ∈ blocked_names) || String.prefix ".env." name
  || existsb (fun suffix => ends_with suffix name) blocked_suffixes.

Section policy.
Context `{Builtins}.

(** [RepositoryPathPolicy.validate]; [path.name] is the last component. *)
Definition path_validate (value : string) (allow_empty : bool) : result exc string :=
  result_bind (fun normalized =>
    if bool_decide (normalized = EmptyString) then Ok normalized
    else
      let parts := posix_parts normalized in
      if existsb (fun part => bool_decide (lower part ∈ blocked_segments)) parts then Raise BlockedPath
      else if blocked_name (lower (List.last (posix_tail normalized) EmptyString)) then Raise BlockedPath
      else Ok normalized)
    (normalize_relative_path value allow_empty).

Definition path_allowed (value : string) : bool := is_ok (path_validate value false).
End policy.

(** ** Contents *)

Inductive pattern : Type :=
  | SecretAssignment | PrivateKeyHeader | PostgresUrl | SecretDefault
  | SensitiveIdentifier | SensitiveBlockValue.

(** [subn("[REDACTED]", ...)] and [search] of Python's [re]. *)
Class RegexEngine := {
  re_subn : pattern -> string -> string * nat;
  re_search : pattern -> string -> bool
}.

Definition sensitive_value_keys : list string := ["default"; "example"; "examples"; "value"; "enum"; "pattern"].
Definition context_keys : list string := ["field"; "column"; "name"; "parameter"].

Section content.
Context `{Builtins} `{RegexEngine}.

Definition redact_with (state : string * bool) (p : pattern) : string * bool :=
  let (updated, count) := re_subn p state.1 in (updated, state.2 || (0 <? count)%nat).

(** [redact]: the text and whether it changed. *)
Definition redact (value : string) : string * bool :=
  let secrets := foldl redact_with (value, false) [SecretAssignment; PrivateKeyHeader; PostgresUrl; SecretDefault] in
  if re_search SensitiveIdentifier value then redact_with secrets SensitiveBlockValue else secrets.

Definition sensitive_context (l : list (string * json)) : bool :=
  existsb (fun kv => match kv.2 with
                     | JStr s => bool_decide (lower kv.1 ∈ context_keys) && re_search SensitiveIdentifier s
                     | _ => false
                     end) l.

(** A value that is replaced under a sensitive key. *)
Definition replaceable (j : json) : bool :=
  match j with JNull => false | JStr EmptyString => false | JArr [] => false | _ => true end.

(** [redact_structure]. *)
Fixpoint redact_structure (j : json) : json * bool :=
  match j with
  | JStr s => let (t, changed) := redact s in (JStr t, changed)
  | JArr l =>
      let out := map redact_structure l in (JArr (map fst out), existsb snd out)
  | JObj l =>
      let sensitive := sensitive_context l in
      let out := map (fun kv =>
        if sensitive && bool_decide (lower kv.1 ∈ sensitive_value_keys) && replaceable kv.2
        then (kv.1, (JStr "[REDACTED]", true)) else (kv.1, redact_structure kv.2)) l in
      (JObj (map (fun kv => (kv.1, kv.2.1)) out), existsb (fun kv => kv.2.2) out)
  | _ => (j, false)
  end.
End content.

(** [data.decode("utf-8")] succeeds: well-formed UTF-8 without surrogates or
    overlong encodings. *)
Definition byte_in (lo hi : nat) (c : Ascii.ascii) : bool :=
  let n := Ascii.nat_of_ascii c in (lo <=? n)%nat && (n <=? hi)%nat.

Fixpoint utf8_valid (s : string) : bool :=
  match s with
  | EmptyString => true
  | String a s1 =>
      if byte_in 0 127 a then utf8_valid s1
      else match s1 with
      | EmptyString => false
      | String b s2 =>
          if byte_in 194 223 a then byte_in 128 191 b && utf8_valid s2
          else match s2 with
          | EmptyString => false
          | String c s3 =>
              if byte_in 224 239 a then
                byte_in 128 191 b && byte_in 128 191 c
                && negb (byte_in 224 224 a && byte_in 128 159 b)
                && negb (byte_in 237 237 a && byte_in 160 191 b) && utf8_valid s3
              else match s3 with
              | EmptyString => false
              | String d s4 =>
                  byte_in 240 244 a && byte_in 128 191 b && byte_in 128 191 c && byte_in 128 191 d
                  && negb (byte_in 240 240 a && byte_in 128 143 b)
                  && negb (byte_in 244 244 a && byte_in 144 191 b) && utf8_valid s4
              end
          end
      end
  end.

(** [decode_text]: [FileTooLarge] and [BinaryFileBlocked] are repository
    errors. *)
Definition decode_text (data : string) (max_bytes : nat) : result exc string :=
  if (max_bytes <? String.length data)%nat then Raise RepositoryError
  else if has_char 0 data then Raise RepositoryError
  else if utf8_valid data then Ok data else Raise RepositoryError.

(** The path given to git by [GitCliObjectReader.read_blob]. *)
Definition full_path (allowed_prefix relative : string) : string :=
  if truthy allowed_prefix then allowed_prefix +:+ slashes +:+ relative else relative.
