(* ===== verification/RepositoryPolicyFacts.v ===== *)
(** * The path policy is exact, and validated paths stay inside the prefix

    The normalisation of [bindings.py] goes through [PurePosixPath]; here it is
    shown equivalent to a condition on the slash-separated components of the
    path, from which confinement follows. *)
From stdpp Require Import base list sets strings pretty.
From Stdlib Require Import ZArith.
From S2P Require Import Prelude PyDict PyText Json RepositoryPolicy.

(** ** Splitting and joining *)

Fixpoint free_of (sep : Ascii.ascii) (s : string) : bool :=
  match s with
  | EmptyString => true
  | String c s' => negb (Ascii.eqb c sep) && free_of sep s'
  end.

Lemma split_on_cons sep s : exists part rest, split_on sep s = part :: rest.
Proof.
  destruct s as [|c s]; simpl; [eauto|]. destruct (Ascii.eqb c sep); [eauto|].
  destruct (split_on sep s); eauto.
Qed.

Lemma split_on_free sep s : Forall (fun part => free_of sep part = true) (split_on sep s).
Proof.
  induction s as [|c s IH]; simpl; [by constructor|].
  destruct (Ascii.eqb c sep) eqn:E; [by constructor|].
  destruct (split_on_cons sep s) as (part & rest & Heq). rewrite Heq in *.
  inversion IH; subst. constructor; [|done]. simpl. by rewrite E.
Qed.

Lemma str_join_cons sep part rest :
  rest <> [] -> str_join sep (part :: rest) = part +:+ sep +:+ str_join sep rest.
Proof. by destruct rest. Qed.

Lemma join_split s : str_join slashes (split_on slash s) = s.
Proof.
  induction s as [|c s IH]; [done|]. cbn [split_on].
  destruct (split_on_cons slash s) as (part & rest & Heq).
  destruct (Ascii.eqb c slash) eqn:E.
  - apply Ascii.eqb_eq in E as ->. rewrite str_join_cons by (by rewrite Heq). rewrite IH. done.
  - rewrite Heq in *. destruct rest as [|p rest]; [simpl in *; by rewrite IH|].
    rewrite str_join_cons in * by done. simpl. by rewrite <- IH.
Qed.

Lemma split_free sep s : free_of sep s = true -> split_on sep s = [s].
Proof.
  induction s as [|c s IH]; simpl; [done|]. intros [Hc Hs]%andb_true_iff.
  apply negb_true_iff in Hc. rewrite Hc. by rewrite IH.
Qed.

Lemma split_app part s :
  free_of slash part = true -> split_on slash (part +:+ slashes +:+ s) = part :: split_on slash s.
Proof.
  induction part as [|c part IH]; [done|]. intros [Hc Hs]%andb_true_iff. apply negb_true_iff in Hc.
  change (String c part +:+ slashes +:+ s) with (String c (part +:+ slashes +:+ s)).
  cbn [split_on]. rewrite Hc. by rewrite IH.
Qed.

Lemma split_join parts :
  parts <> [] -> Forall (fun part => free_of slash part = true) parts ->
  split_on slash (str_join slashes parts) = parts.
Proof.
  induction parts as [|p parts IH]; [done|]. intros _ Hall. inversion Hall as [|? ? Hp Hparts]; subst.
  destruct (decide (parts = [])) as [->|Hne]; [by apply split_free|].
  rewrite str_join_cons, split_app by done. by rewrite IH.
Qed.

(** ** Normalised relative paths *)

Definition components (s : string) : list string := split_on slash s.

(** The reference definition: no forbidden character, and no empty, [.] or
    [..] component. *)
Definition clean (s : string) : Prop :=
  has_char 0 s = false /\ has_char 92 s = false /\
  forall part, part ∈ components s -> part <> EmptyString /\ part <> "." /\ part <> "..".

Lemma clean_tail s :
  (forall part, part ∈ components s -> part <> EmptyString /\ part <> "." /\ part <> "..") ->
  posix_tail s = components s.
Proof.
  unfold posix_tail, components. induction (split_on slash s) as [|p l IH]; simpl; [done|].
  intros Hall. destruct (Hall p) as (He & Hd & _); [set_solver|].
  destruct (truthy p) eqn:Ht; [|by destruct p]. rewrite bool_decide_eq_false_2 by done. simpl.
  rewrite IH; [done|]. intros q Hq. apply Hall. set_solver.
Qed.

Lemma posix_root_clean s part rest :
  components s = part :: rest -> part <> EmptyString -> posix_root s = EmptyString.
Proof.
  unfold components, posix_root. destruct s as [|c s]; [done|]. simpl.
  destruct (Ascii.eqb c slash); [|done]. intros [= <- _]. done.
Qed.

Lemma Forall_List_filter {A} (P : A -> Prop) f (l : list A) : Forall P l -> Forall P (List.filter f l).
Proof. induction 1; simpl; [done|]. destruct (f _); auto. Qed.

Lemma existsb_false {A} (f : A -> bool) l x : existsb f l = false -> x ∈ l -> f x = false.
Proof.
  intros Hf Hx. destruct (f x) eqn:E; [|done]. exfalso.
  assert (existsb f l = true); [|congruence]. apply existsb_exists. exists x. by rewrite <- list_elem_of_In.
Qed.

Lemma normalize_exact value q :
  normalize_relative_path value false = Ok q <-> q = value /\ clean value.
Proof.
  unfold normalize_relative_path. split.
  - destruct (has_char 0 value) eqn:H0; [done|]. destruct (has_char 92 value) eqn:H92; [done|]. simpl.
    case_bool_decide as He; [done|]. destruct (posix_root value) as [|c r] eqn:Hr; [|done]. simpl.
    destruct (existsb _ _) eqn:Hex; [done|]. unfold posix_parts in Hex. rewrite Hr in Hex.
    case_bool_decide as Hdot; [done|]. case_bool_decide as Heq; [|done]. simpl. intros [= <-].
    split; [done|]. split_and!; [done..|]. intros part Hpart.
    assert (Htail : posix_tail value = components value).
    { assert (Hjoin : str_join slashes (posix_tail value) = value).
      { unfold as_posix in *. rewrite Hr in *.
        change (EmptyString +:+ str_join slashes (posix_tail value)) with (str_join slashes (posix_tail value)) in *.
        destruct (str_join slashes (posix_tail value)); [done|exact Heq]. }
      destruct (decide (posix_tail value = [])) as [Hnil|Hne]; [by rewrite Hnil in Hjoin|].
      unfold components. rewrite <- Hjoin at 2. rewrite split_join; [done|done|].
      apply Forall_List_filter, split_on_free. }
    rewrite <- Htail in Hpart.
    assert (Hp : part ∉ [EmptyString; "."; ".."]).
    { apply (existsb_false _ _ part Hex) in Hpart. by apply bool_decide_eq_false in Hpart. }
    set_solver.
  - intros (-> & H0 & H92 & Hall). rewrite H0, H92. simpl.
    destruct (split_on_cons slash value) as (part & rest & Hc).
    destruct (Hall part) as (Hp & _ & _); [unfold components; rewrite Hc; set_solver|].
    rewrite bool_decide_eq_false_2 by (intros ->; simpl in Hc; congruence).
    assert (Hr : posix_root value = EmptyString) by (by eapply posix_root_clean).
    assert (Hp2 : as_posix value = value).
    { unfold as_posix. rewrite Hr, clean_tail by done.
      change (EmptyString +:+ ?x) with x. unfold components. rewrite join_split.
      destruct value; [simpl in Hc; congruence|done]. }
    unfold posix_parts. rewrite Hr, clean_tail, Hp2 by done. cbn [truthy orb].
    assert (Hex : existsb (fun part => bool_decide (part ∈ [EmptyString; "."; ".."])) (components value) = false).
    { apply not_true_is_false. intros (x & Hx%list_elem_of_In & Hin%bool_decide_eq_true)%existsb_exists.
      destruct (Hall x Hx) as (? & ? & ?). set_solver. }
    rewrite Hex, bool_decide_eq_false_2, bool_decide_eq_true_2; [done|done|].
    intros Hdot. destruct (Hall ".") as (_ & ? & _); [|done]. rewrite Hdot. simpl. set_solver.
Qed.

(** C39: the path policy accepts exactly the paths it means to.  A path is
    accepted, unchanged, if and only if it has no NUL or backslash, none of its
    slash-separated components is empty, "." or "..", no component is a blocked
    directory and the last one is not a blocked file name, case ignored. *)
Theorem path_policy_exact `{Builtins} (value q : string) :
  path_validate value false = Ok q <->
  q = value /\ clean value /\
  (forall part, part ∈ components value -> lower part ∉ blocked_segments) /\
  blocked_name (lower (List.last (components value) EmptyString)) = false.
Proof.
  unfold path_validate. rewrite result_bind_Ok. split.
  - intros (n & [-> Hclean]%normalize_exact & Hk).
    assert (Hne : value <> EmptyString).
    { intros ->. destruct Hclean as (_ & _ & Hall). destruct (Hall EmptyString) as [? _]; [|done]. simpl. set_solver. }
    rewrite bool_decide_eq_false_2 in Hk by done. pose proof Hclean as (_ & _ & Hall).
    destruct (split_on_cons slash value) as (part & rest & Hc).
    assert (Hr : posix_root value = EmptyString).
    { eapply posix_root_clean; [exact Hc|]. apply Hall. unfold components. rewrite Hc. set_solver. }
    unfold posix_parts in Hk. rewrite Hr, clean_tail in Hk by done.
    destruct (existsb _ _) eqn:Hex in Hk; [done|]. destruct (blocked_name _) eqn:Hn in Hk; [done|].
    injection Hk as <-. split_and!; [done|done| |done].
    intros x Hx. apply (existsb_false _ _ x Hex) in Hx. by apply bool_decide_eq_false in Hx.
  - intros (-> & Hclean & Hseg & Hname). exists value. split; [by apply normalize_exact|].
    case_bool_decide; [done|]. pose proof Hclean as (_ & _ & Hall).
    destruct (split_on_cons slash value) as (part & rest & Hc).
    assert (Hr : posix_root value = EmptyString).
    { eapply posix_root_clean; [exact Hc|]. apply Hall. unfold components. rewrite Hc. set_solver. }
    unfold posix_parts. rewrite Hr, clean_tail, Hname by done.
    destruct (existsb _ _) eqn:Hex; [exfalso|done].
    apply existsb_exists in Hex as (x & Hx%list_elem_of_In & Hin%bool_decide_eq_true). by apply (Hseg x).
Qed.

(** ** Confinement *)

(** How a file system walks a path: ["."] and empty components stay, [".."]
    leaves the directory. *)
Definition descend (location : list string) (part : string) : list string :=
  if decide (part = EmptyString \/ part = ".") then location
  else if decide (part = "..") then removelast location
  else location ++ [part].

Definition walk (path : string) : list string := foldl descend [] (components path).

Lemma descend_clean location parts :
  (forall part, part ∈ parts -> part <> EmptyString /\ part <> "." /\ part <> "..") ->
  foldl descend location parts = location ++ parts.
Proof.
  revert location. induction parts as [|p parts IH]; intros location Hall; simpl; [by rewrite app_nil_r|].
  destruct (Hall p) as (He & Hd & Hdd); [set_solver|].
  rewrite IH by (intros q Hq; apply Hall; set_solver).
  unfold descend. rewrite decide_False by naive_solver. rewrite decide_False by done. by rewrite <- app_assoc.
Qed.

Lemma components_full p q : components (p +:+ slashes +:+ q) = components p ++ components q.
Proof.
  unfold components. induction p as [|c p IH]; [done|].
  change (String c p +:+ slashes +:+ q) with (String c (p +:+ slashes +:+ q)). cbn [split_on].
  rewrite IH. destruct (Ascii.eqb c slash); [done|].
  destruct (split_on_cons slash p) as (a & l & Heq). by rewrite Heq.
Qed.

(** a validated path cannot leave the repository prefix.  Whatever prefix a
    binding accepts and whatever path the policy accepts, the location that the
    combined path names lies below the prefix, and none of its components
    climbs out. *)
Theorem path_confined `{Builtins} (prefix value p q : string) :
  normalize_relative_path prefix true = Ok p -> path_validate value false = Ok q ->
  walk (full_path p q) = walk p ++ components value /\ components value <> [].
Proof.
  intros Hp Hq. unfold path_validate in Hq. apply result_bind_Ok in Hq as (n & [-> Hcl]%normalize_exact & Hk).
  assert (q = value) as -> by (repeat case_match; by simplify_eq). clear Hk.
  split; [|unfold components; by destruct (split_on_cons slash value) as (? & ? & ->)].
  destruct Hcl as (_ & _ & Hall). unfold walk, full_path.
  destruct (decide (prefix = EmptyString)) as [->|Hne].
  - injection Hp as <-. simpl. by rewrite descend_clean.
  - assert (Hp' : normalize_relative_path prefix false = Ok p).
    { revert Hp. unfold normalize_relative_path. by rewrite bool_decide_eq_false_2 by done. }
    apply normalize_exact in Hp' as (-> & _ & _ & Hallp).
    destruct prefix as [|c prefix]; [done|]. cbn [truthy].
    rewrite components_full, foldl_app, !(descend_clean []) by done. by rewrite descend_clean.
Qed.

#[local] Existing Instance example_builtins.

Lemma path_confined_witness :
  walk (full_path "services/api" "src/main.py") = walk "services/api" ++ components "src/main.py" /\
  components "src/main.py" <> [].
Proof. apply (path_confined "services/api" "src/main.py"); reflexivity. Defined.

Example path_policy_examples :
  path_validate "src/main.py" false = Ok "src/main.py" /\ path_validate "a/../b" false = Raise BlockedPath /\
  path_validate "a//b" false = Raise BlockedPath /\ path_validate ".Git/config" false = Raise BlockedPath /\
  path_validate "conf/.env.local" false = Raise BlockedPath /\ path_validate "keys/id.PEM" false = Raise BlockedPath.
Proof. repeat split; reflexivity. Qed.
