(* ===== verification/Evidence.v ===== *)
(** * The repository evidence service

    [tools/registry.py], [evidence/normalizer.py], [evidence/fact_builder.py],
    [evidence/conflict_detector.py], [evidence/deterministic_validator.py],
    [storage/memory_evidence.py] and
    [application/repository_evidence_service.py].  A tool action is executed
    once per idempotency key; what the tool returns is sanitised, turned into
    evidence, checked against the repository snapshot and distilled into facts.
    The repository reader, the tool handlers, the clock and [uuid4] are
    parameters. *)
From stdpp Require Import base list sets strings pretty.
From Stdlib Require Import ZArith.
From S2P Require Import Prelude PyDict PyText Json Grounding Tools RepositoryPolicy.

Open Scope Z_scope.

(** ** Repository snapshots and the reader *)

Record RepositorySnapshot := mkRepoSnapshot {
  rs_repository_id : string;
  rs_resolved_commit_sha : string;
  rs_allowed_prefix : string;
  rs_resolver_version : string;
  rs_resolved_at : Z
}.

Record BlobContent := mkBlob { bc_path : string; bc_blob_id : string; bc_data : string }.

(** [reader.resolve_snapshot] and [reader.read_blob]. *)
Class RepositoryReader := {
  reader_resolve : string -> string -> result exc RepositorySnapshot;
  reader_read_blob : RepositorySnapshot -> string -> result exc BlobContent
}.

(** ** The tool registry *)

(** An arguments model validates and normalises the arguments; the handler
    runs on what it returns. *)
Record Registration := mkRegistration {
  reg_arguments_model : list (string * json) -> result exc json;
  reg_schema : json;
  reg_handler : RepositorySnapshot -> json -> result exc ToolResult
}.

Definition registry : Type := dict (string * string) Registration.

Definition register (tool_id schema_version : string) (r : Registration) (reg : registry) : result exc registry :=
  if has_key reg (tool_id, schema_version) then Raise ToolRegistryError
  else Ok (<[(tool_id, schema_version) := r]> reg).

(** [validate]: the validated arguments and the handler. *)
Definition validate_action (reg : registry) (a : ToolAction)
    : result exc (json * (RepositorySnapshot -> json -> result exc ToolResult)) :=
  match reg !! (ta_tool_id a, ta_tool_schema_version a) with
  | None => Raise ToolRegistryError
  | Some r => result_bind (fun args => Ok (args, reg_handler r)) (reg_arguments_model r (ta_arguments a))
  end.

Definition key_leb (x y : (string * string) * Registration) : bool :=
  pair_leb String.eqb String.leb String.leb x.1 y.1.

Definition describe (reg : registry) : list json :=
  (fun kv => JObj [("tool_id", JStr kv.1.1); ("tool_schema_version", JStr kv.1.2);
                   ("arguments_schema", reg_schema kv.2)]) <$> sort_by key_leb (items reg).

(** ** The in-memory evidence store *)

Record evidence_store := mkEvidenceStore {
  es_calls : dict string ToolCallRecord;
  es_inputs : dict string string;
  es_replays : dict (string * string) (string * RepositoryToolExecution);
  es_snapshots : dict (string * string * string) RepositorySnapshot
}.

Definition save_snapshot (s : RepositorySnapshot) (st : evidence_store) : evidence_store :=
  mkEvidenceStore (es_calls st) (es_inputs st) (es_replays st)
    (<[(rs_repository_id s, rs_resolved_commit_sha s, rs_allowed_prefix s) := s]> (es_snapshots st)).

Definition store_get_replay (actor_id key : string) (st : evidence_store)
    : option (string * RepositoryToolExecution) := es_replays st !! (actor_id, key).

Definition save_running (call : ToolCallRecord) (input_hash : string) (st : evidence_store) : evidence_store :=
  mkEvidenceStore (<[tc_tool_call_id call := call]> (es_calls st))
    (<[tc_tool_call_id call := input_hash]> (es_inputs st)) (es_replays st) (es_snapshots st).

Definition store_complete (actor_id key input_hash : string) (x : RepositoryToolExecution)
    (st : evidence_store) : evidence_store :=
  mkEvidenceStore (<[tc_tool_call_id (x_tool_call x) := x_tool_call x]> (es_calls st)) (es_inputs st)
    (<[(actor_id, key) := (input_hash, x)]> (es_replays st)) (es_snapshots st).

Definition store_get_execution (tool_call_id : string) (st : evidence_store)
    : result exc RepositoryToolExecution :=
  match List.find (fun hx => bool_decide (tc_tool_call_id (x_tool_call hx.2) = tool_call_id))
          (values (es_replays st)) with
  | Some hx => Ok hx.2
  | None => Raise KeyError
  end.

Definition all_calls (st : evidence_store) : list ToolCallRecord := values (es_calls st).

Definition finished_call (s : ToolCallStatus) : bool :=
  match s with ToolCallStatus.RUNNING => false | _ => true end.

Definition executions_for_investigation (investigation_id : string) (st : evidence_store)
    : result exc (list RepositoryToolExecution) :=
  result_map (fun call => store_get_execution (tc_tool_call_id call) st)
    (List.filter (fun call => bool_decide (tc_investigation_id call = Some investigation_id)
                              && finished_call (tc_status call)) (all_calls st)).

Definition call_with (status : ToolCallStatus) (summary : string) (error_code : option string)
    (ended_at : Z) (c : ToolCallRecord) : ToolCallRecord :=
  mkToolCall (tc_tool_call_id c) (tc_actor_id c) (tc_task_id c) (tc_run_id c) (tc_unit_id c)
    (tc_investigation_id c) (tc_attempt c) (tc_retry_of_tool_call_id c) (tc_repository_id c)
    (tc_resolved_commit_sha c) (tc_tool_id c) (tc_tool_schema_version c) (tc_policy_version c)
    (tc_purpose c) (tc_arguments c) (tc_action_signature c) (tc_idempotency_key c) status summary
    error_code (tc_started_at c) (Some ended_at).

Definition stale_call (stale_before : Z) (c : ToolCallRecord) : bool :=
  bool_decide (tc_status c = ToolCallStatus.RUNNING) && (tc_started_at c <? stale_before).

(** [recover_stale_running]: the identifiers it failed, and the store. *)
Definition recover_stale_running (stale_before now : Z) (st : evidence_store) : evidence_store * list string :=
  let stale := List.filter (fun kv => stale_call stale_before kv.2) (items (es_calls st)) in
  (mkEvidenceStore
     (foldl (fun d kv => <[kv.1 := call_with ToolCallStatus.FAILED "工具调用执行进程失联" (Some "WORKER_LOST") now kv.2]> d)
        (es_calls st) stale)
     (es_inputs st) (es_replays st) (es_snapshots st), stale.*1).

(** ** State of a service: the store and the supplies *)

Class EvidenceEnv := {
  ev_uuid4_hex : nat -> string;
  ev_utc_now : nat -> Z;
  ev_duration_ms : nat -> Z
}.

Record service_state := mkServiceState { ss_store : evidence_store; ss_uuids : nat; ss_ticks : nat }.

Definition EM (A : Type) : Type := M service_state exc A.

Section service.
Context `{Builtins} `{RegexEngine} `{RepositoryReader} `{EvidenceEnv}.
Variable reg : registry.

Definition ev_id (prefix : string) : EM string := fun s =>
  (mkServiceState (ss_store s) (S (ss_uuids s)) (ss_ticks s), Ok (prefix +:+ "-" +:+ ev_uuid4_hex (ss_uuids s))).

Definition ev_now : EM Z := fun s =>
  (mkServiceState (ss_store s) (ss_uuids s) (S (ss_ticks s)), Ok (ev_utc_now (ss_ticks s))).

Definition ev_write (f : evidence_store -> evidence_store) : EM unit := fun s =>
  (mkServiceState (f (ss_store s)) (ss_uuids s) (ss_ticks s), Ok tt).

(** [[m(x) for x in xs]] with effects. *)
Fixpoint map_m {A B} (f : A -> EM B) (l : list A) : EM (list B) :=
  match l with
  | [] => mret []
  | x :: l' => y ← f x; ys ← map_m f l'; mret (y :: ys)
  end.

(** ** [EvidenceNormalizer] *)

Definition METHODS : dict string ExtractionMethod := Dict
  [("repo_tree", ExtractionMethod.TREE); ("search_text", ExtractionMethod.SEARCH);
   ("read_file", ExtractionMethod.SOURCE_READ); ("parse_openapi", ExtractionMethod.OPENAPI_PARSE);
   ("parse_database_schema", ExtractionMethod.DATABASE_SCHEMA_PARSE);
   ("find_related_tests", ExtractionMethod.RELATED_TEST_SEARCH);
   ("find_symbol", ExtractionMethod.SYMBOL_SEARCH); ("find_references", ExtractionMethod.REFERENCE_SEARCH)].

Definition content_hash_of (s : string) : string := "sha256:" +:+ sha256_hex s.

(** [populate_compatible_source_fields] for code evidence: the locator. *)
Definition code_locator (path : string) (line_start line_end : option Z) : list (string * json) :=
  if truthy path then
    [("path", JStr path)]
    ++ match line_start with Some n => [("line_start", JInt n)] | None => [] end
    ++ match line_end with Some n => [("line_end", JInt n)] | None => [] end
  else [].

(** The evidence of one result item. *)
Definition item_evidence (tool_call_id : string) (a : ToolAction) (item : ToolResultItem) : EM SourceEvidence :=
  let excerpt := unify_newlines (default (ti_path item) (ti_excerpt item)) in
  id ← ev_id "evidence";
  extraction ← liftR (match METHODS !! ta_tool_id a with Some m => Ok m | None => Raise KeyError end);
  now ← ev_now;
  liftR (validate_source_contract
    (mkEvidence id tool_call_id "CODE" SourceKind.CODE_REPOSITORY
       (Some (ta_repository_id a)) (Some (ta_resolved_commit_sha a))
       (code_locator (ti_path item) (ti_line_start item) (ti_line_end item)) None
       (Some (ta_repository_id a)) (Some (ta_resolved_commit_sha a)) (Some (ti_path item))
       (ti_line_start item) (ti_line_end item) None excerpt (content_hash_of excerpt) (ti_blob_id item)
       extraction
       (match jget "redaction_applied" (ti_metadata item) with Some v => jtruthy v | None => false end) now)).

Definition new_unknown (tool_call_id : string) (task_id : option string) (statement : string)
    (reason : UnknownReason) : EM UnknownItem :=
  id ← ev_id "unknown";
  mret (mkUnknown id tool_call_id task_id statement reason "MEDIUM" "RETRY_WITH_DIFFERENT_ACTION").

Definition normalize (tool_call_id : string) (a : ToolAction) (r : ToolResult) (task_id : option string)
    : EM RepositoryEvidenceBundle :=
  evidence ← match tr_status r with
             | ToolStatus.SUCCEEDED | ToolStatus.PARTIAL => map_m (item_evidence tool_call_id a) (tr_items r)
             | _ => mret []
             end;
  unknowns ← match tr_status r with
             | ToolStatus.EMPTY =>
                 u ← new_unknown tool_call_id task_id "本次固定查询未找到匹配结果，不能据此断言目标信息不存在" UnknownReason.EMPTY_RESULT;
                 mret [u]
             | ToolStatus.PARTIAL =>
                 u ← new_unknown tool_call_id task_id "本次查询因资源限制仅返回部分结果"
                   (if decide (tr_error_code r = Some "PARSE_UNSUPPORTED") then UnknownReason.PARSE_UNSUPPORTED
                    else UnknownReason.PARTIAL_RESULT);
                 mret [u]
             | ToolStatus.FAILED | ToolStatus.BLOCKED =>
                 u ← new_unknown tool_call_id task_id "工具未能取得可核查来源"
                   (if decide (tr_status r = ToolStatus.BLOCKED) then UnknownReason.ACCESS_BLOCKED
                    else UnknownReason.TOOL_FAILED);
                 mret [u]
             | ToolStatus.SUCCEEDED => mret []
             end;
  mret (mkBundle tool_call_id evidence [] unknowns []).

(** ** [DeterministicFactBuilder] *)

(** [str(item.metadata[key])]. *)
Definition metadata_str (key : string) (l : list (string * json)) : result exc string :=
  match jget key l with Some j => Ok (py_str j) | None => Raise KeyError end.

(** The metadata without the given keys, sorted by key. *)
Definition other_metadata (hidden : list string) (l : list (string * json)) : json :=
  JObj (sort_by (fun x y => String.leb x.1 y.1)
          (List.filter (fun kv => negb (bool_decide (kv.1 ∈ hidden))) l)).

(** Subject, predicate and value of the fact an item states; [None] is
    [continue]. *)
Definition fact_content (a : ToolAction) (item : ToolResultItem) : result exc (option (string * string * json)) :=
  if bool_decide (ta_tool_id a = "parse_openapi") && bool_decide (ti_kind item = "openapi_field") then
    result_bind (fun operation => result_bind (fun field =>
      Ok (Some (operation +:+ ".request." +:+ field, "api_field_contract",
                other_metadata ["operation"; "field"] (ti_metadata item))))
      (metadata_str "field" (ti_metadata item))) (metadata_str "operation" (ti_metadata item))
  else if bool_decide (ta_tool_id a = "parse_database_schema") && bool_decide (ti_kind item = "database_column") then
    result_bind (fun table => result_bind (fun column =>
      Ok (Some (table +:+ "." +:+ column, "database_column_contract",
                other_metadata ["table"; "column"] (ti_metadata item))))
      (metadata_str "column" (ti_metadata item))) (metadata_str "table" (ti_metadata item))
  else Ok None.

Definition item_fact (a : ToolAction) (task_id : option string) (pair : ToolResultItem * SourceEvidence)
    : EM (option DeterministicFact) :=
  content ← liftR (fact_content a pair.1);
  match content with
  | None => mret None
  | Some (subject, predicate, value) =>
      id ← ev_id "fact";
      mret (Some (mkFact id (e_tool_call_id pair.2) task_id subject predicate value FactScope.CURRENT_STATE
        FactType.CODE_VERIFIED "HIGH" VerificationStatus.SUPPORTED (ta_tool_id a) (ta_tool_schema_version a)
        [e_evidence_id pair.2]))
  end.

Definition build_facts (a : ToolAction) (r : ToolResult) (evidence : list SourceEvidence)
    (task_id : option string) : EM (list DeterministicFact) :=
  if negb (bool_decide (ta_tool_id a ∈ ["parse_openapi"; "parse_database_schema"])) then mret []
  else if negb (Nat.eqb (length (tr_items r)) (length evidence)) then mret []
  else
    facts ← map_m (item_fact a task_id) (zip (tr_items r) evidence);
    mret (omap (fun x => x) facts).

(** ** [DeterministicConflictDetector] *)

Definition fact_group (f : DeterministicFact) : string * string := (f_subject f, f_predicate f).

(** [grouped[...].append(fact)] over a [defaultdict]. *)
Definition group_facts (facts : list DeterministicFact) : dict (string * string) (list DeterministicFact) :=
  foldl (fun d f => <[fact_group f := get_default d (fact_group f) [] ++ [f]]> d) ∅ facts.

(** More than one canonical value in a group. *)
Definition disagree (group : list DeterministicFact) : bool :=
  (1 <? length (dedup ((fun f => canonical_json (f_value_json f)) <$> group)))%nat.

Definition group_conflict (kv : (string * string) * list DeterministicFact) : EM SourceConflict :=
  id ← ev_id "conflict";
  mret (mkConflict id kv.1.1 (kv.1.1 +:+ " 的 " +:+ kv.1.2 +:+ " 存在不同确定性值") (f_fact_id <$> kv.2) "OPEN").

Definition mark_conflicting (f : DeterministicFact) : DeterministicFact :=
  mkFact (f_fact_id f) (f_tool_call_id f) (f_task_id f) (f_subject f) (f_predicate f) (f_value_json f)
    (f_fact_scope f) (f_fact_type f) (f_confidence f) VerificationStatus.CONFLICTING (f_extractor_id f)
    (f_extractor_version f) (f_evidence_ids f).

Definition detect (facts : list DeterministicFact) : EM (list DeterministicFact * list SourceConflict) :=
  let conflicting := List.filter (fun kv => disagree kv.2) (items (group_facts facts)) in
  let conflicting_ids := f_fact_id <$> concat conflicting.*2 in
  conflicts ← map_m group_conflict conflicting;
  mret ((fun f => if decide (f_fact_id f ∈ conflicting_ids) then mark_conflicting f else f) <$> facts, conflicts).

(** ** [DeterministicEvidenceValidator] *)

(** [l[a:b]] for Python integers. *)
Definition py_index (n : nat) (k : Z) : nat :=
  if k <? 0 then Z.to_nat (Z.max 0 (k + Z.of_nat n)) else Nat.min n (Z.to_nat k).
Definition py_slice {A} (a b : Z) (l : list A) : list A :=
  drop (py_index (length l) a) (take (py_index (length l) b) l).

(** [s.rstrip(",")]. *)
Definition rstrip_commas (s : string) : string := rstrip_char (Ascii.ascii_of_nat 44) s.

Definition trims_excerpt (m : ExtractionMethod) : bool :=
  match m with
  | ExtractionMethod.OPENAPI_PARSE | ExtractionMethod.DATABASE_SCHEMA_PARSE
  | ExtractionMethod.RELATED_TEST_SEARCH => true
  | _ => false
  end.

(** The excerpt the source has at the given lines. *)
Definition source_excerpt (lines : list string) (line_start line_end : Z) (m : ExtractionMethod)
    (redacted : bool) : string :=
  let raw := str_join (str_of_codes [10%nat]) (py_slice (line_start - 1) line_end lines) in
  let trimmed := if trims_excerpt m then rstrip_commas (strip raw) else raw in
  if redacted then (redact trimmed).1 else trimmed.

Definition blob_lines (blob : BlobContent) : result exc (list string) :=
  result_bind (fun text => Ok (splitlines (unify_newlines text)))
    (decode_text (bc_data blob) (Nat.max (String.length (bc_data blob)) 1)).

Definition blocked_as_invalid {A} (r : result exc A) : result exc A :=
  match r with Raise BlockedPath => Raise EvidenceValidationError | _ => r end.

Definition validate_evidence (snapshot : RepositorySnapshot) (e : SourceEvidence) : result exc unit :=
  if negb (bool_decide (e_repository_id e = Some (rs_repository_id snapshot))) then Raise EvidenceValidationError
  else if negb (bool_decide (e_resolved_commit_sha e = Some (rs_resolved_commit_sha snapshot)))
  then Raise EvidenceValidationError
  else
    (* [path_policy.validate(None)] raises [BlockedPath] *)
    let path := default EmptyString (e_path e) in
    result_bind (fun blob =>
      if opt_truthy (e_source_blob_id e) && negb (bool_decide (e_source_blob_id e = Some (bc_blob_id blob)))
      then Raise EvidenceValidationError
      else if negb (bool_decide (content_hash_of (e_excerpt e) = e_content_hash e))
      then Raise EvidenceValidationError
      else match e_line_start e, e_line_end e with
      | None, None => Ok tt
      | Some first, Some last =>
          result_bind (fun lines =>
            if (first <? 1) || (Z.of_nat (length lines) <? last) then Raise EvidenceValidationError
            else if bool_decide (source_excerpt lines first last (e_extraction_method e) (e_redaction_applied e)
                                 = e_excerpt e) then Ok tt
            else Raise EvidenceValidationError)
            (blob_lines blob)
      | _, _ => Raise EvidenceValidationError
      end)
      (blocked_as_invalid (result_bind (fun _ => reader_read_blob snapshot path) (path_validate path false))).

(** ** [RepositoryEvidenceService] *)

(** [_sanitize_result] on one item: the item and whether it changed. *)
Definition sanitize_item (item : ToolResultItem) : ToolResultItem * bool :=
  let '(excerpt, excerpt_changed) :=
    match ti_excerpt item with
    | Some t => let (t', c) := redact t in (Some t', c)
    | None => (None, false)
    end in
  let '(metadata, metadata_changed) := redact_structure (JObj (ti_metadata item)) in
  if excerpt_changed || metadata_changed then
    (mkToolResultItem (ti_kind item) (ti_path item) (ti_line_start item) (ti_line_end item) (ti_column item)
       excerpt (ti_blob_id item)
       (assoc_set "redaction_applied" (JBool true) (default [] (as_mapping metadata))), true)
  else (item, false).

Definition sanitize_result (r : ToolResult) : ToolResult :=
  let out := map sanitize_item (tr_items r) in
  if existsb snd out then
    mkToolResult (tr_status r) (map fst out) (tr_truncation r) (tr_public_summary r) (tr_error_code r)
      (tr_duration_ms r)
  else r.

Definition with_duration (ms : Z) (r : ToolResult) : ToolResult :=
  mkToolResult (tr_status r) (tr_items r) (tr_truncation r) (tr_public_summary r) (tr_error_code r) ms.

Definition failed_result (summary code : string) : ToolResult :=
  mkToolResult ToolStatus.FAILED [] None summary (Some code) 0.

(** What the tool returned, an exception included. *)
Definition handler_result (r : result exc ToolResult) : ToolResult :=
  match r with Ok r => r | Raise _ => failed_result "仓库工具执行失败" "TOOL_EXECUTION_FAILED" end.

Definition action_json (a : ToolAction) : json :=
  JObj [("tool_id", JStr (ta_tool_id a)); ("tool_schema_version", JStr (ta_tool_schema_version a));
        ("repository_id", JStr (ta_repository_id a)); ("resolved_commit_sha", JStr (ta_resolved_commit_sha a));
        ("arguments", JObj (ta_arguments a)); ("purpose", JStr (ta_purpose a))].

Definition optional_json (s : option string) : json := match s with Some x => JStr x | None => JNull end.

Definition input_hash_of (a : ToolAction) (scope : CallScope) : string :=
  sha256_json (JObj
    [("action", action_json a); ("task_id", optional_json (cs_task_id scope));
     ("run_id", optional_json (cs_run_id scope)); ("unit_id", optional_json (cs_unit_id scope));
     ("investigation_id", optional_json (cs_investigation_id scope)); ("attempt", JInt (cs_attempt scope));
     ("retry_of_tool_call_id", optional_json (cs_retry_of_tool_call_id scope))]).

Definition new_call (a : ToolAction) (snapshot : RepositorySnapshot) (actor_id key : string) (scope : CallScope)
    (id : string) (now : Z) : ToolCallRecord :=
  mkToolCall id actor_id (cs_task_id scope) (cs_run_id scope) (cs_unit_id scope) (cs_investigation_id scope)
    (cs_attempt scope) (cs_retry_of_tool_call_id scope) (ta_repository_id a) (rs_resolved_commit_sha snapshot)
    (ta_tool_id a) (ta_tool_schema_version a) "repository-tools.v1" (ta_purpose a) (ta_arguments a)
    (action_signature a) key ToolCallStatus.RUNNING EmptyString None now None.

(** The body of the second [try]: normalise, validate, build facts, detect
    conflicts. *)
Definition build_bundle (snapshot : RepositorySnapshot) (tool_call_id : string) (a : ToolAction) (r : ToolResult)
    (task_id : option string) : EM RepositoryEvidenceBundle :=
  bundle ← normalize tool_call_id a r task_id;
  liftR (result_map (validate_evidence snapshot) (b_evidence bundle));;
  facts ← build_facts a r (b_evidence bundle) task_id;
  detected ← detect facts;
  mret (mkBundle tool_call_id (b_evidence bundle) detected.1 (b_unknowns bundle) detected.2).

Definition try_with {A} (m : EM A) (handler : exc -> EM A) : EM A := fun s =>
  match m s with
  | (s', Raise e) => handler e s'
  | r => r
  end.

(** The result and the bundle that are recorded. *)
Definition process (snapshot : RepositorySnapshot) (tool_call_id : string) (a : ToolAction) (r : ToolResult)
    (task_id : option string) : EM (ToolResult * RepositoryEvidenceBundle) :=
  try_with
    (bundle ← build_bundle snapshot tool_call_id a r task_id; mret (r, bundle))
    (fun e => match e with
      | EvidenceValidationError =>
          let failed := failed_result "Evidence 定位或内容校验失败" "EVIDENCE_VALIDATION_FAILED" in
          bundle ← normalize tool_call_id a failed task_id; mret (failed, bundle)
      | _ =>
          mret (failed_result "仓库证据处理失败" "TOOL_PROCESSING_FAILED", mkBundle tool_call_id [] [] [] [])
      end).

(** [execute] once no replay was found. *)
Definition execute_fresh (a : ToolAction) (actor_id key : string) (scope : CallScope) (input_hash : string)
    : EM RepositoryToolExecution :=
  validated ← liftR (validate_action reg a);
  snapshot ← liftR (reader_resolve (ta_repository_id a) (ta_resolved_commit_sha a));
  ev_write (save_snapshot snapshot);;
  id ← ev_id "tool-call";
  now ← ev_now;
  if cs_attempt scope <? 1 then raise ValueError
  else
    let call := new_call a snapshot actor_id key scope id now in
    ev_write (save_running call input_hash);;
    let returned := handler_result (validated.2 snapshot validated.1) in
    measured ← gets (fun s => with_duration (ev_duration_ms (ss_ticks s)) (sanitize_result returned));
    outcome ← process snapshot id a measured (cs_task_id scope);
    ended ← ev_now;
    let final := call_with (call_status (tr_status outcome.1)) (tr_public_summary outcome.1)
      (tr_error_code outcome.1) ended call in
    let execution := mkExecution final outcome.1 outcome.2 in
    ev_write (store_complete actor_id key input_hash execution);;
    mret execution.

Definition service_execute (a : ToolAction) (actor_id key : string) (scope : CallScope)
    : EM RepositoryToolExecution :=
  let input_hash := input_hash_of a scope in
  replay ← gets (fun s => store_get_replay actor_id key (ss_store s));
  match replay with
  | Some (replay_hash, execution) =>
      if decide (replay_hash = input_hash) then mret execution else raise EvidenceIdempotencyConflict
  | None => execute_fresh a actor_id key scope input_hash
  end.

(** [resolve_snapshot]. *)
Definition resolve_snapshot (repository_id revision : string) : EM RepositorySnapshot :=
  snapshot ← liftR (reader_resolve repository_id revision);
  ev_write (save_snapshot snapshot);;
  mret snapshot.

(** The service as the runner sees it. *)
Definition RepositoryEvidenceService : EvidenceService := {|
  ev_state := service_state;
  registry_validate := fun a => result_bind (fun _ => Ok tt) (validate_action reg a);
  registry_describe := describe reg;
  get_replay := fun actor key s => store_get_replay actor key (ss_store s);
  get_execution := fun id s => store_get_execution id (ss_store s);
  execute := service_execute
|}.
End service.
