(* ===== verification/EvidenceFacts.v ===== *)
(** * Facts about the evidence service

    Executions are recorded once per idempotency key and replayed unchanged;
    the evidence of a recorded execution was checked against the repository;
    the conflict detector is exact. *)
From stdpp Require Import base list sets strings pretty.
From Stdlib Require Import ZArith.
From S2P Require Import Prelude PyDict PyText Json Grounding Tools RepositoryPolicy.
From S2P Require Import RepositoryPolicyFacts Evidence.

Open Scope Z_scope.

(** ** Two views of a computation *)

(** It leaves the store alone. *)
Definition keeps {A} (m : EM A) : Prop := forall s, ss_store (m s).1 = ss_store s.

(** What it returns, when it returns. *)
Definition returns {A} (m : EM A) (Q : A -> Prop) : Prop := forall s s' a, m s = (s', Ok a) -> Q a.

Create HintDb evidence.

Lemma keeps_bind {A B} (m : EM A) (k : A -> EM B) : keeps m -> (forall a, keeps (k a)) -> keeps (x ← m; k x).
Proof.
  intros Hm Hk s. unfold mbind, M_bind. specialize (Hm s). destruct (m s) as [s1 [a|e]]; [|done].
  by rewrite (Hk a s1).
Qed.

Lemma keeps_ret {A} (a : A) : keeps (mret a).
Proof. done. Qed.

Lemma keeps_liftR {A} (r : result exc A) : keeps (liftR r).
Proof. done. Qed.

Lemma keeps_map_m {A B} (f : A -> EM B) l : (forall x, keeps (f x)) -> keeps (map_m f l).
Proof.
  intros Hf. induction l as [|x l IH]; [done|]. apply keeps_bind; [done|]. intros y.
  apply keeps_bind; [done|]. intros ys. apply keeps_ret.
Qed.

Lemma returns_bind {A B} (m : EM A) (k : A -> EM B) R Q :
  returns m R -> (forall a, R a -> returns (k a) Q) -> returns (x ← m; k x) Q.
Proof.
  intros Hm Hk s s' b. unfold mbind, M_bind. destruct (m s) as [s1 [a|e]] eqn:E; [|done].
  intros Hb. eapply Hk; [by eapply Hm|done].
Qed.

Lemma returns_ret {A} (a : A) (Q : A -> Prop) : Q a -> returns (mret a) Q.
Proof. by intros HQ s s' b [= _ <-]. Qed.

Lemma returns_liftR {A} (r : result exc A) (Q : A -> Prop) : (forall a, r = Ok a -> Q a) -> returns (liftR r) Q.
Proof. intros HQ s s' a [= _ E]. by apply HQ. Qed.

Lemma returns_any {A} (m : EM A) : returns m (fun _ => True).
Proof. done. Qed.

Lemma returns_map_m {A B} (f : A -> EM B) (P : A -> B -> Prop) l :
  (forall x, returns (f x) (P x)) -> returns (map_m f l) (Forall2 P l).
Proof.
  intros Hf. induction l as [|x l IH]; simpl; [apply returns_ret; constructor|].
  eapply returns_bind; [apply Hf|]. intros y Hy. eapply returns_bind; [exact IH|]. intros ys Hys.
  apply returns_ret. by constructor.
Qed.

#[export] Hint Resolve keeps_bind keeps_ret keeps_liftR keeps_map_m : evidence.

Section pieces.
Context `{Builtins} `{RegexEngine} `{RepositoryReader} `{EvidenceEnv}.

Lemma keeps_id prefix : keeps (ev_id prefix).
Proof. done. Qed.
Lemma keeps_now : keeps ev_now.
Proof. done. Qed.
Hint Resolve keeps_id keeps_now : evidence.

Lemma keeps_normalize id a r task : keeps (normalize id a r task).
Proof. unfold normalize, item_evidence, new_unknown. destruct (tr_status r); eauto 12 with evidence. Qed.

Lemma keeps_item_fact a task p : keeps (item_fact a task p).
Proof. unfold item_fact. apply keeps_bind; [done|]. intros [[[? ?] ?]|]; eauto with evidence. Qed.
Hint Resolve keeps_normalize keeps_item_fact : evidence.

Lemma keeps_build_facts a r evidence task : keeps (build_facts a r evidence task).
Proof. unfold build_facts. repeat case_match; eauto 6 with evidence. Qed.

Lemma keeps_detect facts : keeps (detect facts).
Proof. unfold detect, group_conflict. eauto 8 with evidence. Qed.
Hint Resolve keeps_build_facts keeps_detect : evidence.

Lemma keeps_build_bundle snapshot id a r task : keeps (build_bundle snapshot id a r task).
Proof. unfold build_bundle. eauto 12 with evidence. Qed.

Lemma keeps_try {A} (m : EM A) h : keeps m -> (forall e, keeps (h e)) -> keeps (try_with m h).
Proof.
  intros Hm Hh s. unfold try_with. specialize (Hm s). destruct (m s) as [s1 [a|e]]; [done|].
  by rewrite (Hh e s1).
Qed.

Lemma keeps_process snapshot id a r task : keeps (process snapshot id a r task).
Proof.
  unfold process. apply keeps_try; [apply keeps_bind; auto using keeps_build_bundle with evidence|].
  intros e. destruct e; eauto with evidence.
Qed.

(** ** What a bundle contains *)

Definition informative (s : ToolStatus) : bool :=
  match s with ToolStatus.SUCCEEDED | ToolStatus.PARTIAL => true | _ => false end.

(** The evidence of an item describes that item of the action's snapshot. *)
Definition describes (id : string) (a : ToolAction) (item : ToolResultItem) (e : SourceEvidence) : Prop :=
  e_tool_call_id e = id /\ e_repository_id e = Some (ta_repository_id a) /\
  e_resolved_commit_sha e = Some (ta_resolved_commit_sha a) /\ e_path e = Some (ti_path item) /\
  e_line_start e = ti_line_start item /\ e_line_end e = ti_line_end item /\
  e_content_hash e = content_hash_of (e_excerpt e).

Lemma item_evidence_describes id a item : returns (item_evidence id a item) (describes id a item).
Proof.
  unfold item_evidence. eapply returns_bind; [apply returns_any|]. intros eid _.
  eapply returns_bind; [apply returns_any|]. intros m _. eapply returns_bind; [apply returns_any|]. intros now _.
  apply returns_liftR. intros e He. unfold validate_source_contract in He.
  repeat case_match; simplify_eq; by split_and!.
Qed.

Lemma normalize_returns id a r task :
  returns (normalize id a r task) (fun b =>
    b_tool_call_id b = id /\ b_facts b = [] /\ b_conflicts b = [] /\
    if informative (tr_status r) then Forall2 (describes id a) (tr_items r) (b_evidence b)
    else b_evidence b = []).
Proof.
  unfold normalize. eapply (returns_bind _ _ (fun l =>
    if informative (tr_status r) then Forall2 (describes id a) (tr_items r) l else l = [])).
  { destruct (tr_status r); simpl; try (by apply returns_ret);
      apply returns_map_m, item_evidence_describes. }
  intros l Hl. eapply returns_bind; [apply returns_any|]. intros us _. apply returns_ret. by split_and!.
Qed.

(** Facts cite the evidence of the item they come from. *)
Lemma build_facts_cite a r evidence task :
  returns (build_facts a r evidence task) (fun facts =>
    forall f, f ∈ facts -> exists e, e ∈ evidence /\ f_evidence_ids f = [e_evidence_id e]).
Proof.
  unfold build_facts. case_match; [apply returns_ret; set_solver|].
  case_match; [apply returns_ret; set_solver|].
  eapply returns_bind; [apply (returns_map_m _ (fun p o => forall f, o = Some f -> f_evidence_ids f = [e_evidence_id p.2]))|].
  { intros p. unfold item_fact. eapply returns_bind; [apply returns_any|]. intros [[[s q] v]|] _.
    - eapply returns_bind; [apply returns_any|]. intros fid _. apply returns_ret. by intros f [= <-].
    - by apply returns_ret. }
  intros os Hos. apply returns_ret. intros f Hf. apply list_elem_of_omap in Hf as (o & Ho & ->).
  apply list_elem_of_lookup in Ho as [i Hi]. eapply Forall2_lookup_r in Hos as (p & Hp & Hcite); [|done].
  exists p.2. split; [|by apply Hcite]. apply list_elem_of_lookup_2, (list_elem_of_fmap_2 snd) in Hp.
  apply list_elem_of_lookup_1 in Hp as [j Hj]. rewrite list_lookup_fmap in Hj.
  apply fmap_Some in Hj as ([x y] & Hz & ->). apply lookup_zip_Some in Hz as [_ Hy]. by eapply list_elem_of_lookup_2.
Qed.

Lemma mark_conflicting_cites f : f_evidence_ids (mark_conflicting f) = f_evidence_ids f.
Proof. done. Qed.

Lemma detect_cites facts :
  returns (detect facts) (fun p => forall f, f ∈ p.1 -> exists g, g ∈ facts /\ f_evidence_ids f = f_evidence_ids g).
Proof.
  unfold detect. eapply returns_bind; [apply returns_any|]. intros cs _. apply returns_ret. simpl.
  intros f (g & -> & Hg)%list_elem_of_fmap. exists g. split; [done|]. by case_decide.
Qed.

(** ** What validation establishes *)

(** The evidence quotes the snapshot: right repository and commit, a readable
    allowed path, a truthful hash, and, when lines are given, the text of those
    lines (trimmed and redacted as the extraction method and the flag say). *)
Definition grounded (snapshot : RepositorySnapshot) (e : SourceEvidence) : Prop :=
  e_repository_id e = Some (rs_repository_id snapshot) /\
  e_resolved_commit_sha e = Some (rs_resolved_commit_sha snapshot) /\
  e_content_hash e = content_hash_of (e_excerpt e) /\
  exists path blob, e_path e = Some path /\ path_validate path false = Ok path /\
    reader_read_blob snapshot path = Ok blob /\
    (forall id, e_source_blob_id e = Some id -> id <> EmptyString -> id = bc_blob_id blob) /\
    match e_line_start e, e_line_end e with
    | None, None => True
    | Some first, Some last => exists lines, blob_lines blob = Ok lines /\
        1 <= first /\ last <= Z.of_nat (length lines) /\
        e_excerpt e = source_excerpt lines first last (e_extraction_method e) (e_redaction_applied e)
    | _, _ => False
    end.

Lemma validate_evidence_grounded snapshot e :
  validate_evidence snapshot e = Ok tt -> grounded snapshot e.
Proof.
  unfold validate_evidence. case_bool_decide as Hrepo; [|done]. case_bool_decide as Hsha; [|done]. simpl.
  intros (blob & Hblob & Hk)%result_bind_Ok.
  assert (Hread : exists path, e_path e = Some path /\ path_validate path false = Ok path /\
            reader_read_blob snapshot path = Ok blob).
  { destruct (result_bind _ _) as [b|x] eqn:Eb in Hblob; [|by destruct x].
    simpl in Hblob. simplify_eq. apply result_bind_Ok in Eb as (p & Hp & Hr).
    pose proof Hp as (-> & _)%path_policy_exact. destruct (e_path e) as [path|]; simpl in *; [by exists path|].
    by vm_compute in Hp. }
  destruct Hread as (path & Hpath & Hvalid & Hread).
  destruct (_ && _) eqn:Hid in Hk; [done|]. case_bool_decide as Hhash; [|done]. simpl in Hk.
  split_and!; [done..|]. exists path, blob. split_and!; [done..| |].
  - intros id Hsome Hne. rewrite Hsome in Hid. unfold opt_truthy in Hid. simpl in Hid.
    destruct id; [done|]. simpl in Hid. case_bool_decide; [by simplify_eq|done].
  - destruct (e_line_start e), (e_line_end e); try done.
    apply result_bind_Ok in Hk as (lines & Hlines & Hk). exists lines.
    destruct (_ || _) eqn:Hrange in Hk; [done|]. apply orb_false_iff in Hrange as [H1' H2'].
    apply Z.ltb_ge in H1', H2'. case_bool_decide; [|done]. by split_and!.
Qed.

(** The well-formedness of a recorded execution. *)
Definition execution_ok (x : RepositoryToolExecution) : Prop :=
  let b := x_bundle x in
  tc_status (x_tool_call x) = call_status (tr_status (x_tool_result x)) /\
  (informative (tr_status (x_tool_result x)) = false -> b_evidence b = [] /\ b_facts b = []) /\
  (forall f, f ∈ b_facts b -> exists e, e ∈ b_evidence b /\ f_evidence_ids f = [e_evidence_id e]) /\
  exists revision snapshot,
    reader_resolve (tc_repository_id (x_tool_call x)) revision = Ok snapshot /\
    tc_resolved_commit_sha (x_tool_call x) = rs_resolved_commit_sha snapshot /\
    forall e, e ∈ b_evidence b -> grounded snapshot e /\ e_tool_call_id e = tc_tool_call_id (x_tool_call x).

Definition bundle_ok (snapshot : RepositorySnapshot) (id : string) (r : ToolResult) (b : RepositoryEvidenceBundle) : Prop :=
  (informative (tr_status r) = false -> b_evidence b = [] /\ b_facts b = []) /\
  (forall f, f ∈ b_facts b -> exists e, e ∈ b_evidence b /\ f_evidence_ids f = [e_evidence_id e]) /\
  (forall e, e ∈ b_evidence b -> grounded snapshot e /\ e_tool_call_id e = id).

Lemma build_facts_empty a r task s : build_facts a r [] task s = (s, Ok []).
Proof.
  unfold build_facts. repeat case_match; try done.
  match goal with Hl : negb (Nat.eqb _ _) = false |- _ => apply negb_false_iff, Nat.eqb_eq in Hl end.
  destruct (tr_items r); [done|by simplify_eq/=].
Qed.

Lemma build_bundle_ok snapshot id a r task :
  returns (build_bundle snapshot id a r task) (bundle_ok snapshot id r).
Proof.
  unfold build_bundle. eapply returns_bind; [apply normalize_returns|]. intros b (Hid & _ & _ & Hev).
  eapply returns_bind; [apply returns_liftR; intros us Hus; exact (proj1 (result_map_Ok _ _ _) Hus)|].
  intros us Hus. cbv beta in Hus.
  eapply (returns_bind _ _ (fun facts => (b_evidence b = [] -> facts = []) /\
    forall f, f ∈ facts -> exists e, e ∈ b_evidence b /\ f_evidence_ids f = [e_evidence_id e])).
  { intros s s' facts Hf. split; [|by eapply build_facts_cite].
    intros Hnil. rewrite Hnil, build_facts_empty in Hf. by injection Hf. }
  intros facts [Hnil Hcite]. eapply returns_bind; [apply detect_cites|].
  intros [fs cs] Hdet. apply returns_ret. split_and!; simpl in *.
  - intros Hinf. rewrite Hinf in Hev. split; [done|]. rewrite (Hnil Hev) in *. destruct fs as [|f fs]; [done|].
    destruct (Hdet f) as (g & Hg & _); set_solver.
  - intros f Hf. destruct (Hdet f Hf) as (g & Hg & ->). by apply Hcite.
  - intros e He. split.
    + apply validate_evidence_grounded. apply list_elem_of_lookup in He as [i Hi].
      eapply Forall2_lookup_l in Hus as ([] & _ & ?); done.
    + destruct (informative (tr_status r)); [|by rewrite Hev in He; set_solver].
      apply list_elem_of_lookup in He as [i Hi]. eapply Forall2_lookup_r in Hev as (it & _ & Hd); [|done].
      by destruct Hd.
Qed.

Lemma process_ok snapshot id a r task :
  returns (process snapshot id a r task) (fun p => bundle_ok snapshot id p.1 p.2).
Proof.
  unfold process. intros s s' p. unfold try_with. unfold mbind at 1, M_bind at 1.
  destruct (build_bundle snapshot id a r task s) as [s1 [b|e]] eqn:E.
  - intros [= _ <-]. by eapply build_bundle_ok.
  - destruct e; intros [= _ <-]; split_and!; simpl; set_solver.
Qed.

(** ** Executions *)

Variable reg : registry.

(** One fresh execution: an exception records no replay, a return records
    exactly the execution returned, which is well formed. *)
Lemma execute_fresh_effect a actor key scope h s :
  match execute_fresh reg a actor key scope h s with
  | (s', Ok x) => es_replays (ss_store s') = <[(actor, key) := (h, x)]> (es_replays (ss_store s)) /\ execution_ok x
  | (s', Raise _) => es_replays (ss_store s') = es_replays (ss_store s)
  end.
Proof.
  unfold execute_fresh, liftR, ev_write, ev_id, ev_now, raise, gets. unfold mbind, M_bind, mret, M_ret.
  destruct (validate_action reg a) as [[args handler]|e]; [|done].
  destruct (reader_resolve _ _) as [snapshot|e] eqn:Hres; [|done]. cbn [ss_store ss_uuids ss_ticks].
  destruct (cs_attempt scope <? 1); [done|]. cbn [ss_store ss_uuids ss_ticks fst snd].
  match goal with |- context [process snapshot ?id a ?r ?t ?s1] =>
    pose proof (keeps_process snapshot id a r t s1) as Hk;
    pose proof (process_ok snapshot id a r t s1) as Hok;
    destruct (process snapshot id a r t s1) as [s2 [[r' b]|e]] end; cbn [fst snd] in *;
    [|by rewrite Hk]. specialize (Hok s2 (r', b) eq_refl). cbn [fst snd ss_store ss_ticks] in *.
  rewrite Hk. split; [done|]. destruct Hok as (Hinf & Hcite & Hgr).
  split_and!; [done..|]. by exists (ta_resolved_commit_sha a), snapshot.
Qed.
End pieces.

(** ** Sequences of operations *)

Inductive evidence_operation : Type :=
  | EvExecute (a : ToolAction) (actor_id key : string) (scope : CallScope)
  | EvResolve (repository_id revision : string)
  | EvRecover (stale_before now : Z).

Section operations.
Context `{Builtins} `{RegexEngine} `{RepositoryReader} `{EvidenceEnv}.
Variable reg : registry.

Definition evidence_operate (s : service_state) (op : evidence_operation) : service_state :=
  match op with
  | EvExecute a actor key scope => (service_execute reg a actor key scope s).1
  | EvResolve repository_id revision => (resolve_snapshot repository_id revision s).1
  | EvRecover stale_before now =>
      mkServiceState (recover_stale_running stale_before now (ss_store s)).1 (ss_uuids s) (ss_ticks s)
  end.

Definition replays (s : service_state) : dict (string * string) (string * RepositoryToolExecution) :=
  es_replays (ss_store s).

(** One call: a replay changes nothing, anything else records at most the
    execution it returns under an unused key. *)
Lemma service_execute_effect a actor key scope s :
  match service_execute reg a actor key scope s with
  | (s', Ok x) => replays s' !! (actor, key) = Some (input_hash_of a scope, x) /\
      (s' = s \/ replays s !! (actor, key) = None /\ execution_ok x /\
        replays s' = <[(actor, key) := (input_hash_of a scope, x)]> (replays s))
  | (s', Raise _) => replays s' = replays s
  end.
Proof.
  unfold service_execute, store_get_replay, gets, raise, replays. unfold mbind, M_bind, mret, M_ret.
  destruct (es_replays (ss_store s) !! (actor, key)) as [[h x]|] eqn:E.
  - case_decide; [|done]. subst h. split; [done|by left].
  - pose proof (execute_fresh_effect reg a actor key scope (input_hash_of a scope) s) as Hf.
    destruct (execute_fresh _ _ _ _ _ _ _) as [s' [x|e]]; [|done]. destruct Hf as [Hr Hok].
    rewrite Hr. split; [apply dict_lookup_insert_eq|by right].
Qed.

Lemma resolve_snapshot_replays repository_id revision s :
  replays (resolve_snapshot repository_id revision s).1 = replays s.
Proof.
  unfold resolve_snapshot, liftR, ev_write. unfold mbind, M_bind, mret, M_ret.
  by destruct (reader_resolve _ _).
Qed.

Lemma operate_keeps_replay op s k v : replays s !! k = Some v -> replays (evidence_operate s op) !! k = Some v.
Proof.
  intros Hk. destruct op as [a actor key scope|repository_id revision|]; simpl; [| |done].
  - pose proof (service_execute_effect a actor key scope s) as He.
    destruct (service_execute _ _ _ _ _ _) as [s' [x|e]]; simpl; [|by rewrite He].
    destruct He as [_ [->|(Hnone & _ & ->)]]; [done|]. rewrite dict_lookup_insert_ne; [done|]. congruence.
  - by rewrite resolve_snapshot_replays.
Qed.

Lemma operations_keep_replay ops s k v :
  replays s !! k = Some v -> replays (foldl evidence_operate s ops) !! k = Some v.
Proof. revert s. induction ops as [|op ops IH]; intros s Hk; simpl; [done|]. by apply IH, operate_keeps_replay. Qed.

Definition all_ok (s : service_state) : Prop := forall k h x, replays s !! k = Some (h, x) -> execution_ok x.

Lemma operate_all_ok op s : all_ok s -> all_ok (evidence_operate s op).
Proof.
  intros Hok. destruct op as [a actor key scope|repository_id revision|]; simpl; [| |done].
  - pose proof (service_execute_effect a actor key scope s) as He.
    destruct (service_execute _ _ _ _ _ _) as [s' [x|e]]; simpl; [|by unfold all_ok; rewrite He].
    destruct He as [_ [->|(Hnone & Hx & Hr)]]; [done|]. intros k h y. rewrite Hr, dict_lookup_insert.
    case_decide; [by intros [= <- <-]|apply Hok].
  - unfold all_ok. by rewrite resolve_snapshot_replays.
Qed.

Lemma operations_all_ok ops s : all_ok s -> all_ok (foldl evidence_operate s ops).
Proof. revert s. induction ops as [|op ops IH]; intros s Hs; simpl; [done|]. by apply IH, operate_all_ok. Qed.

(** a tool call is executed once per actor and idempotency key.  After
    [execute] returned, calling it again with the same input returns the same
    execution and changes nothing, whatever happened in between, and another
    input under the key is refused without a change. *)
Theorem tool_execution_idempotent (a : ToolAction) (actor_id key : string) (scope : CallScope)
    (s s1 : service_state) (x : RepositoryToolExecution) (ops : list evidence_operation) :
  service_execute reg a actor_id key scope s = (s1, Ok x) ->
  let s2 := foldl evidence_operate s1 ops in
  service_execute reg a actor_id key scope s2 = (s2, Ok x) /\
  forall a' scope', input_hash_of a' scope' <> input_hash_of a scope ->
    service_execute reg a' actor_id key scope' s2 = (s2, Raise EvidenceIdempotencyConflict).
Proof.
  intros He. pose proof (service_execute_effect a actor_id key scope s) as Heff. rewrite He in Heff.
  destruct Heff as [Hr _]. apply (operations_keep_replay ops) in Hr. cbv zeta. unfold replays in Hr.
  split; [|intros a' scope' Hne]; unfold service_execute, store_get_replay, gets, raise; unfold mbind, M_bind, mret, M_ret;
    rewrite Hr; case_decide; congruence.
Qed.

(** recorded evidence is checked evidence.  In every state the service
    reaches, each recorded execution has the status of its result, cites in its
    facts only evidence of its bundle, has no evidence or facts unless it
    succeeded at least partially, and every piece of evidence quotes the
    resolved snapshot of the repository at an allowed path, with a truthful
    hash and the text of the lines it names. *)
Theorem recorded_evidence_grounded (ops : list evidence_operation) (uuids ticks : nat) :
  all_ok (foldl evidence_operate (mkServiceState (mkEvidenceStore ∅ ∅ ∅ ∅) uuids ticks) ops).
Proof. apply operations_all_ok. by intros k h x. Qed.
End operations.

(** * The conflict detector is exact

    [DeterministicConflictDetector.detect] groups facts by subject and
    predicate; the theorem characterises its result directly on the facts. *)
Close Scope Z_scope.

(** ** Groups *)

Definition in_group (g : string * string) (f : DeterministicFact) : bool := bool_decide (fact_group f = g).

Definition members (g : string * string) (facts : list DeterministicFact) : list DeterministicFact :=
  List.filter (in_group g) facts.

Lemma elem_of_members g facts f : f ∈ members g facts <-> f ∈ facts /\ fact_group f = g.
Proof.
  unfold members, in_group. rewrite !list_elem_of_In, filter_In, bool_decide_eq_true. done.
Qed.

Lemma members_not_nil facts f : f ∈ facts -> members (fact_group f) facts <> [].
Proof.
  intros Hf Hnil. assert (Hin : f ∈ members (fact_group f) facts) by (by apply elem_of_members).
  rewrite Hnil in Hin. by apply elem_of_nil in Hin.
Qed.

Lemma group_facts_ok facts : dict_ok (group_facts facts).
Proof.
  unfold group_facts. assert (Hgen : forall d, dict_ok d -> dict_ok (foldl (fun d f =>
    <[fact_group f := get_default d (fact_group f) [] ++ [f]]> d) d facts)).
  { induction facts as [|f facts IH]; intros d Hd; simpl; [done|]. by apply IH, dict_ok_insert. }
  apply Hgen, dict_ok_empty.
Qed.

Lemma group_facts_lookup facts g :
  group_facts facts !! g = match members g facts with [] => None | l => Some l end.
Proof.
  unfold group_facts, members. induction facts as [|f facts IH] using rev_ind; [done|].
  rewrite foldl_app, List.filter_app. cbn [foldl]. rewrite dict_lookup_insert. simpl. unfold in_group at 2.
  unfold get_default in *. case_decide as Hg.
  - subst g. rewrite IH. rewrite bool_decide_eq_true_2 by done.
    destruct (List.filter _ facts) as [|x l]; done.
  - rewrite bool_decide_eq_false_2 by done. by rewrite app_nil_r.
Qed.

Lemma group_items facts g l :
  (g, l) ∈ items (group_facts facts) <-> l = members g facts /\ l <> [].
Proof.
  split.
  - intros Hin. assert (Hl : group_facts facts !! g = Some l)
      by (apply assoc_get_elem; [apply group_facts_ok|done]).
    rewrite group_facts_lookup in Hl. destruct (members g facts); by simplify_eq.
  - intros [-> Hne]. apply dict_lookup_items. rewrite group_facts_lookup. by destruct (members g facts).
Qed.

(** ** Disagreement *)

Lemma dedup_two {A} `{EqDecision A} (l : list A) :
  (1 < length (dedup l))%nat <-> exists x y, x ∈ l /\ y ∈ l /\ x <> y.
Proof.
  split.
  - intros Hlen. pose proof (dedup_NoDup l) as Hnd. pose proof (dedup_elem l) as Hel.
    destruct (dedup l) as [|x [|y d]] eqn:E; simpl in Hlen; [lia|lia|].
    exists x, y. split_and!; [apply Hel; set_solver..|].
    intros ->. apply NoDup_cons in Hnd as [Hx _]. set_solver.
  - intros (x & y & Hx%dedup_elem & Hy%dedup_elem & Hne).
    destruct (dedup l) as [|a [|b d]]; simpl; [set_solver| |lia]. exfalso. apply Hne. set_solver.
Qed.

(** Another fact on the same subject and predicate has another value. *)
Definition contradicts (f g : DeterministicFact) : Prop :=
  fact_group g = fact_group f /\ canonical_json (f_value_json g) <> canonical_json (f_value_json f).

Definition contested (facts : list DeterministicFact) (f : DeterministicFact) : Prop :=
  exists g, g ∈ facts /\ contradicts f g.

Lemma disagree_members facts f :
  f ∈ facts -> disagree (members (fact_group f) facts) = true <-> contested facts f.
Proof.
  intros Hf. unfold disagree. rewrite Nat.ltb_lt, dedup_two. split.
  - intros (x & y & (fx & -> & Hfx)%list_elem_of_fmap & (fy & -> & Hfy)%list_elem_of_fmap & Hne).
    apply elem_of_members in Hfx as [? ?], Hfy as [? ?].
    destruct (decide (canonical_json (f_value_json fx) = canonical_json (f_value_json f))) as [He|Hn].
    + exists fy. split; [done|]. split; congruence.
    + exists fx. split; [done|]. by split.
  - intros (g & Hg & Hgrp & Hne). exists (canonical_json (f_value_json g)), (canonical_json (f_value_json f)).
    split_and!; [..|done]; apply (list_elem_of_fmap_2 (fun f => canonical_json (f_value_json f)));
      by apply elem_of_members.
Qed.

#[global] Instance contested_dec facts f : Decision (contested facts f).
Proof.
  destruct (decide (Exists (fun g => fact_group g = fact_group f /\
    canonical_json (f_value_json g) <> canonical_json (f_value_json f)) facts)) as [Hex|Hno].
  - left. apply Exists_exists in Hex as (g & ? & ?). by exists g.
  - right. intros (g & ? & ?). apply Hno, Exists_exists. by exists g.
Defined.

Section detector.
Context `{EvidenceEnv}.

Lemma group_conflicts l s :
  exists s' cs, map_m group_conflict l s = (s', Ok cs) /\
    Forall2 (fun kv c => sc_subject c = kv.1.1 /\ sc_fact_ids c = f_fact_id <$> kv.2 /\ sc_status c = "OPEN") l cs.
Proof.
  revert s. induction l as [|kv l IH]; intros s; [by eexists _, []|].
  simpl. unfold group_conflict, ev_id, mbind, M_bind, mret, M_ret.
  match goal with |- context [map_m _ l ?s1] => destruct (IH s1) as (s' & cs & E & Hall) end.
  unfold group_conflict, ev_id, mbind, M_bind, mret, M_ret in E. rewrite E.
  eexists _, (_ :: cs). split; [reflexivity|]. by constructor.
Qed.

(** the conflict detector is exact.  On facts with distinct identifiers it
    never fails; it marks CONFLICTING exactly the facts contradicted by another
    fact on the same subject and predicate with a different canonical value,
    leaves every other fact unchanged and in place, and reports exactly one
    open conflict per contested subject and predicate, listing all its facts. *)
Theorem conflict_detector_exact (facts : list DeterministicFact) (s : service_state) :
  NoDup (f_fact_id <$> facts) ->
  exists s' conflicts,
    detect facts s =
      (s', Ok ((fun f => if decide (contested facts f) then mark_conflicting f else f) <$> facts, conflicts)) /\
    (forall f, f ∈ facts -> contested facts f -> exists c, c ∈ conflicts /\
       sc_subject c = f_subject f /\ sc_fact_ids c = f_fact_id <$> members (fact_group f) facts) /\
    (forall c, c ∈ conflicts -> exists f, f ∈ facts /\ contested facts f /\
       sc_subject c = f_subject f /\ sc_fact_ids c = f_fact_id <$> members (fact_group f) facts).
Proof.
  intros Hnd. unfold detect. set (l := List.filter _ _).
  assert (Hl : forall g group, (g, group) ∈ l <-> group = members g facts /\ group <> [] /\ disagree group = true).
  { intros g group. unfold l. rewrite list_elem_of_In, filter_In, <- list_elem_of_In, group_items. naive_solver. }
  assert (Hids : forall f, f ∈ facts -> f_fact_id f ∈ f_fact_id <$> concat l.*2 <-> contested facts f).
  { intros f Hf. rewrite <- (disagree_members facts f Hf), list_elem_of_fmap. split.
    - intros (f' & Hid & Hin). apply list_elem_of_In, in_concat in Hin as (group & Hg%list_elem_of_In & Hf').
      apply list_elem_of_In in Hf'. apply list_elem_of_fmap in Hg as ([g group'] & -> & Hg%Hl).
      destruct Hg as (-> & _ & Hd). apply elem_of_members in Hf' as [Hf' Hgrp]. simpl in Hgrp.
      assert (f' = f) as ->.
      { apply list_elem_of_lookup in Hf as [i Hi], Hf' as [j Hj].
        assert (i = j); [|congruence]. eapply (NoDup_lookup (f_fact_id <$> facts)); [done| |];
          rewrite list_lookup_fmap; [by rewrite Hi|rewrite Hj; simpl; congruence]. }
      by rewrite Hgrp.
    - intros Hd. exists f. split; [done|]. apply list_elem_of_In, in_concat. exists (members (fact_group f) facts).
      split; apply list_elem_of_In; [|by apply elem_of_members].
      apply (list_elem_of_fmap_2 snd l (fact_group f, members (fact_group f) facts)), Hl. split_and!; [done| |done].
      by apply members_not_nil. }
  destruct (group_conflicts l s) as (s' & cs & E & Hcs). exists s', cs.
  unfold mbind, M_bind, mret, M_ret. rewrite E. split_and!.
  - do 3 f_equal. apply list_fmap_ext. intros i f Hi%list_elem_of_lookup_2.
    specialize (Hids f Hi). repeat case_decide; tauto.
  - intros f Hf Hc. apply (disagree_members facts f Hf) in Hc.
    assert (Hin : (fact_group f, members (fact_group f) facts) ∈ l).
    { apply Hl. split_and!; [done| |done]. by apply members_not_nil. }
    apply list_elem_of_lookup in Hin as [i Hi]. eapply Forall2_lookup_l in Hcs as (c & Hci & Hsub & Hfs & _); [|done].
    exists c. split; [by eapply list_elem_of_lookup_2|done].
  - intros c Hc. apply list_elem_of_lookup in Hc as [i Hi].
    eapply Forall2_lookup_r in Hcs as ([g group] & Hkv%list_elem_of_lookup_2 & Hsub & Hfs & _); [|done].
    apply Hl in Hkv as (-> & Hne & Hd). destruct (members g facts) as [|f rest] eqn:Hm; [done|].
    assert (Hf : f ∈ members g facts) by (rewrite Hm; set_solver). apply elem_of_members in Hf as [Hf <-].
    exists f. split_and!; [done| |done|by rewrite Hm]. apply disagree_members; [done|by rewrite Hm].
Qed.
End detector.
