(* ===== verification/InvestigationEvidence.v ===== *)
(** * The investigation runner on the repository evidence service

    [Evidence.RepositoryEvidenceService] implements the interface the runner
    uses and discharges what the runner's theorems assume of it; together they
    give an end-to-end guarantee about the evidence of an investigation. *)
From stdpp Require Import base list gmap sets strings pretty.
From Stdlib Require Import ZArith.
From S2P Require Import Prelude PyDict PyText Json Grounding Tools RepositoryPolicy.
From S2P Require Import RepositoryPolicyFacts Evidence EvidenceFacts.
From S2P Require Import InvestigationModels Investigation Selectors Hoare InvestigationInv.
From S2P Require Import InvestigationWalk.
From S2P Require Import InvestigationFacts InvestigationLive.

(** [get_execution] only fails with [KeyError]. *)
#[global] Instance repository_lookup `{Builtins} `{RegexEngine} `{RepositoryReader} `{EvidenceEnv} reg :
  ExecutionLookup (H := RepositoryEvidenceService reg).
Proof.
  intros id s e. cbn [get_execution RepositoryEvidenceService]. unfold store_get_execution.
  destruct (List.find _ _); [done|]. by intros [= <-].
Qed.

Section backed.
Context `{Builtins} `{RegexEngine} `{RepositoryReader} `{EvidenceEnv} `{ActionSelector} `{InvestigationEnv}.
Variable reg : registry.
#[local] Instance repository_service : EvidenceService := RepositoryEvidenceService reg.

Definition recorded (s : service_state) (x : RepositoryToolExecution) : Prop :=
  exists k h, replays s !! k = Some (h, x).

(** An evidence identifier stands for evidence of a recorded execution. *)
Definition backed (s : service_state) (id : string) : Prop :=
  exists x e, recorded s x /\ e ∈ b_evidence (x_bundle x) /\ e_evidence_id e = id.

Definition all_backed (s : service_state) (i : Investigation) : Prop :=
  all_ok s /\ forall id, id ∈ i_evidence_ids i -> backed s id.

(** Executing keeps what is recorded and records what it returns. *)
Lemma execute_backed actor action key :
  hoare (at_evidence all_backed) (on (execute_action actor action key))
    (fun x => at_evidence (fun s i => all_backed s i /\ recorded s x)) (fun _ => at_evidence all_backed).
Proof.
  intros [w i] [Hok Hb]. unfold on, execute_action, call_evidence, at_evidence; cbn [fst snd] in *.
  unfold execute; cbn [repository_service RepositoryEvidenceService].
  match goal with |- context [service_execute reg ?a ?ac ?k ?sc ?s] =>
    pose proof (service_execute_effect reg a ac k sc s) as He;
    pose proof (operate_all_ok reg (EvExecute a ac k sc) s Hok) as Hok';
    pose proof (operate_keeps_replay reg (EvExecute a ac k sc) s) as Hkeep;
    unfold evidence_operate in Hok', Hkeep;
    destruct (service_execute reg a ac k sc s) as [s' [x|e]] end; cbn [fst snd iw_evidence] in *;
  assert (Hb' : forall id, id ∈ i_evidence_ids i -> backed s' id)
    by (intros id (y & ev & (k & h & Hk) & Hin & Hid)%Hb; exists y, ev; split; [|done]; exists k, h; auto).
  - split; [by split|]. destruct He as [Hr _]. by eexists _, _.
  - by split.
Qed.

Lemma updates_backed s i p x signature :
  all_backed s i -> recorded s x -> all_backed s (execution_updates p x signature i).
Proof.
  intros [Hok Hb] Hx. split; [done|]. simpl. intros id Hid. unfold merge_ids in Hid.
  apply dedup_elem, elem_of_app in Hid as [Hid|Hid]; [by apply Hb|].
  apply list_elem_of_fmap in Hid as (e & -> & He). by exists x, e.
Qed.

Lemma backed_rules :
  walk_rules (at_evidence all_backed) (fun _ => at_evidence all_backed)
    (fun _ x => at_evidence (fun s i => all_backed s i /\ recorded s x)) (at_evidence all_backed)
    (at_evidence all_backed) (fun st => all_ok (iw_evidence st.1)).
Proof.
  assert (Hw : forall st, at_evidence all_backed st -> all_ok (iw_evidence st.1)) by by intros st [].
  assert (Hsave : forall f, (forall i, i_evidence_ids (f i) = i_evidence_ids i) ->
    hoare (at_evidence all_backed) (assign (save f)) (fun _ => at_evidence all_backed) (fun _ => at_evidence all_backed)).
  { intros f Hf. apply evidence_save. intros ev i t [? ?]. split; [done|]. simpl. by rewrite Hf. }
  split; try done.
  - eapply hoare_weaken; [by apply (Hsave bump_iteration)|auto|auto|intros ?; apply Hw].
  - intros. apply evidence_on. intros. apply step_evidence.
  - eapply hoare_pre; [by apply (Hsave bump_replans)|]. by intros st [].
  - intros. eapply hoare_weaken; [apply (evidence_on (H0 := repository_service) all_backed)|auto|auto|intros ?; apply Hw].
    intros. apply payload_evidence.
  - intros. apply evidence_on. intros i w. unfold call_selector. by destruct (select _ _ _).
  - intros. by apply Hsave.
  - intros. by apply evidence_on.
  - intros. by apply Hsave.
  - by apply Hsave.
  - intros. eapply hoare_pre; [apply execute_backed|]. by intros st [].
  - intros p x signature. eapply hoare_weaken; [apply (evidence_save (H0 := repository_service)
      (fun s i => all_backed s i /\ recorded s x) all_backed)|auto|auto|by intros ? st [[] _]].
    intros ev i t [Hb Hx]. destruct (updates_backed ev i p x signature Hb Hx). by split.
  - intros r. eapply hoare_pre; [by apply evidence_finish|]. by intros st [].
Qed.
End backed.

