(* ===== verification/EvidenceDemo.v ===== *)
(** * The evidence service on a concrete repository

    A repository with one file, a tool that reads it and a tool that lists it;
    the theorems about the evidence service applied to it. *)
From stdpp Require Import base list gmap sets strings pretty.
From Stdlib Require Import ZArith.
From S2P Require Import Prelude PyDict PyText Json Grounding Tools RepositoryPolicy.
From S2P Require Import RepositoryPolicyFacts Evidence EvidenceFacts.
From S2P Require Import InvestigationModels Investigation Selectors Hoare.
From S2P Require Import InvestigationInv.
From S2P Require Import InvestigationFacts InvestigationDemo InvestigationSafety.
From S2P Require Import InvestigationEvidence.

#[local] Existing Instance example_builtins.

(** No secret in the demonstration. *)
#[local] Instance no_secrets : RegexEngine := {| re_subn := fun _ s => (s, O); re_search := fun _ _ => false |}.

Definition demo_text : string := str_join (str_of_codes [10%nat]) ["def f():"; "    return 1"; ""].

#[local] Instance demo_reader : RepositoryReader := {|
  reader_resolve := fun repository_id revision =>
    if decide (revision = demo_sha) then Ok (mkRepoSnapshot repository_id revision EmptyString "git-cli.v1" 0)
    else Raise RepositoryError;
  reader_read_blob := fun _ path =>
    if decide (path = "src/main.py") then Ok (mkBlob path "blob-1" demo_text) else Raise RepositoryError
|}.

#[local] Instance demo_evidence_env : EvidenceEnv := {|
  ev_uuid4_hex := fun n => "e" +:+ pretty n; ev_utc_now := Z.of_nat; ev_duration_ms := fun _ => 1%Z |}.

Definition tree_item : ToolResultItem :=
  mkToolResultItem "file" "src/main.py" None None None None (Some "blob-1") [].
Definition read_item (excerpt : string) : ToolResultItem :=
  mkToolResultItem "source" "src/main.py" (Some 1%Z) (Some 2%Z) None (Some excerpt) (Some "blob-1") [].

(** [read_file] quotes the excerpt it is asked for, right or wrong. *)
Definition demo_registry : registry := Dict
  [(("repo_tree", "1"), mkRegistration (fun l => Ok (JObj l)) JNull
      (fun _ _ => Ok (mkToolResult ToolStatus.SUCCEEDED [tree_item] None "listed" None 0)));
   (("read_file", "1"), mkRegistration (fun l => Ok (JObj l)) JNull
      (fun _ args => match args with
        | JObj [("quote", JStr t)] => Ok (mkToolResult ToolStatus.SUCCEEDED [read_item t] None "read" None 0)
        | _ => Raise ValueError end))].

Definition read_action (t : string) : ToolAction :=
  mkToolAction "read_file" "1" "repository-1" demo_sha [("quote", JStr t)] "read it".

Definition demo_scope : CallScope := mkCallScope None None None None 1 None.
Definition fresh_service : service_state := mkServiceState (mkEvidenceStore ∅ ∅ ∅ ∅) 0 0.

Definition outcome_of (t : string) : service_state * result exc RepositoryToolExecution :=
  service_execute demo_registry (read_action t) "alice" "key-1" demo_scope fresh_service.

Definition two_lines : string := str_join (str_of_codes [10%nat]) ["def f():"; "    return 1"].

(** A true quotation is recorded as evidence, a false one is rejected, and the
    failed tool call is recorded as such. *)
Example demo_quotations :
  (match (outcome_of two_lines).2 with
   | Ok x => tr_status (x_tool_result x) = ToolStatus.SUCCEEDED /\ length (b_evidence (x_bundle x)) = 1%nat
   | Raise _ => False end) /\
  (match (outcome_of "def g():").2 with
   | Ok x => tr_error_code (x_tool_result x) = Some "EVIDENCE_VALIDATION_FAILED" /\ b_evidence (x_bundle x) = []
             /\ tc_status (x_tool_call x) = ToolCallStatus.FAILED
   | Raise _ => False end).
Proof. vm_compute. done. Qed.

Definition demo_tool_execution : RepositoryToolExecution :=
  match (outcome_of two_lines).2 with Ok x => x | Raise _ => demo_execution O (read_action two_lines) end.

Lemma tool_execution_idempotent_witness :
  let s2 := foldl (evidence_operate demo_registry) (outcome_of two_lines).1 [EvRecover 10 11] in
  service_execute demo_registry (read_action two_lines) "alice" "key-1" demo_scope s2 = (s2, Ok demo_tool_execution) /\
  forall a' scope', input_hash_of a' scope' <> input_hash_of (read_action two_lines) demo_scope ->
    service_execute demo_registry a' "alice" "key-1" scope' s2 = (s2, Raise EvidenceIdempotencyConflict).
Proof.
  assert (Hx : service_execute demo_registry (read_action two_lines) "alice" "key-1" demo_scope fresh_service
               = ((outcome_of two_lines).1, Ok demo_tool_execution)) by (vm_compute; reflexivity).
  exact (tool_execution_idempotent demo_registry (read_action two_lines) "alice" "key-1" demo_scope fresh_service
    (outcome_of two_lines).1 demo_tool_execution [EvRecover 10 11] Hx).
Defined.

Definition demo_fact (id : string) (v : json) : DeterministicFact :=
  mkFact id "call" None "users.email" "database_column_contract" v FactScope.CURRENT_STATE FactType.CODE_VERIFIED
    "HIGH" VerificationStatus.SUPPORTED "parse_database_schema" "1" ["e"].

Definition demo_facts : list DeterministicFact :=
  [demo_fact "f1" (JObj [("nullable", JBool true)]); demo_fact "f2" (JObj [("nullable", JBool false)])].

Lemma conflict_detector_exact_witness :
  exists s' conflicts,
    detect demo_facts fresh_service =
      (s', Ok ((fun f => if decide (contested demo_facts f) then mark_conflicting f else f) <$> demo_facts, conflicts)) /\
    (forall f, f ∈ demo_facts -> contested demo_facts f -> exists c, c ∈ conflicts /\
       sc_subject c = f_subject f /\ sc_fact_ids c = f_fact_id <$> members (fact_group f) demo_facts) /\
    (forall c, c ∈ conflicts -> exists f, f ∈ demo_facts /\ contested demo_facts f /\
       sc_subject c = f_subject f /\ sc_fact_ids c = f_fact_id <$> members (fact_group f) demo_facts).
Proof.
  assert (Hnd : NoDup (f_fact_id <$> demo_facts)) by (apply NoDup_fmap_1 with (f := fun x => x); repeat constructor; set_solver).
  exact (conflict_detector_exact demo_facts fresh_service Hnd).
Defined.

(** ** An investigation of that repository *)

Definition repository_world : iworld (H0 := RepositoryEvidenceService demo_registry) (H1 := RepositoryStructureSelector) :=
  created_world (RepositoryEvidenceService demo_registry) quiet_env fresh_service.

Definition repository_run :=
  run (H0 := RepositoryEvidenceService demo_registry) (H1 := RepositoryStructureSelector) (H2 := quiet_env)
    demo_id "alice" repository_world.

Definition repository_result : InvestigationResult :=
  match repository_run.2 with Ok (Some r) => r | _ => demo_result_value end.

Example repository_run_completes :
  ir_status repository_result = InvestigationStatus.COMPLETE /\ ir_evidence_ids repository_result = ["evidence-e1"].
Proof. vm_compute. done. Qed.

