(* ===== verification/Formatter.v ===== *)
(** * The export formatter

    [export/models.py] (blocks and documents) and [export/formatter.py]: the
    transformation of the final Markdown into blocks, and its content hash.
    The regular expressions are written out as matchers on stripped lines; the
    non-ASCII decimal digits that [\d] also accepts are a parameter. *)
From stdpp Require Import base list sets strings pretty.
From Stdlib Require Import ZArith.
From S2P Require Import Prelude PyDict PyText Json.

Module ExportBlockType.
Inductive ExportBlockType : Type :=
  HEADING | PARAGRAPH | ORDERED_LIST | UNORDERED_LIST | TABLE | QUOTE | CODE | DIVIDER.
#[global] Instance ExportBlockType_eq_dec : EqDecision ExportBlockType.
Proof. solve_decision. Defined.
Definition value (t : ExportBlockType) : string :=
  match t with
  | HEADING => "HEADING" | PARAGRAPH => "PARAGRAPH" | ORDERED_LIST => "ORDERED_LIST"
  | UNORDERED_LIST => "UNORDERED_LIST" | TABLE => "TABLE" | QUOTE => "QUOTE" | CODE => "CODE"
  | DIVIDER => "DIVIDER"
  end.
End ExportBlockType.
Abbreviation ExportBlockType := ExportBlockType.ExportBlockType.

Record ExportBlock := mkBlock {
  bl_block_type : ExportBlockType;
  bl_text : option string;
  bl_level : option nat;
  bl_items : list string;
  bl_rows : list (list string);
  bl_language : option string
}.

Record ExportDocument := mkExportDocument {
  xd_title : string;
  xd_document_version : Z;
  xd_blocks : list ExportBlock;
  xd_unresolved_items : list string;
  xd_content_hash : string
}.

(** ** Matchers on stripped lines *)

(** The rest after a leading decimal digit outside ASCII. *)
Class UnicodeDigits := unicode_digit : string -> option string.

Definition starts_with (p s : string) : bool := String.prefix p s.

Definition hash_char : Ascii.ascii := Ascii.ascii_of_nat 35.
Definition bar_char : Ascii.ascii := Ascii.ascii_of_nat 124.

Fixpoint drop_char (c : Ascii.ascii) (s : string) : nat * string :=
  match s with
  | String d s' => if Ascii.eqb d c then let (n, r) := drop_char c s' in (S n, r) else (0, s)
  | EmptyString => (0, EmptyString)
  end.

(** [^(#{1,6})\s+(.+)$]: the level and the text, stripped.  After more than
    six hashes no whitespace can follow the group. *)
Definition match_heading (line : string) : option (nat * string) :=
  let (n, rest) := drop_char hash_char line in
  if (1 <=? n)%nat && (n <=? 6)%nat then
    match leading_space rest with
    | Some _ => if truthy (strip rest) then Some (n, strip rest) else None
    | None => None
    end
  else None.

Section ordered.
Context `{UnicodeDigits}.

Definition drop_digit (s : string) : option string :=
  match s with
  | String c s' =>
      let n := Ascii.nat_of_ascii c in
      if (48 <=? n)%nat && (n <=? 57)%nat then Some s' else unicode_digit s
  | EmptyString => None
  end.

Fixpoint drop_digits (fuel : nat) (s : string) : string :=
  match fuel with
  | 0 => s
  | S fuel' => match drop_digit s with Some s' => drop_digits fuel' s' | None => s end
  end.

(** [^\d+[.)]\s+(.+)$]: the text, stripped. *)
Definition match_ordered (line : string) : option string :=
  match drop_digit line with
  | None => None
  | Some rest =>
      match drop_digits (String.length rest) rest with
      | String c s =>
          let n := Ascii.nat_of_ascii c in
          if (Nat.eqb n 46 || Nat.eqb n 41) && bool_decide (is_Some (leading_space s)) && truthy (strip s)
          then Some (strip s) else None
      | EmptyString => None
      end
  end.
End ordered.

Definition drop_colon (s : string) : string :=
  match s with String c s' => if Nat.eqb (Ascii.nat_of_ascii c) 58 then s' else s | EmptyString => s end.

(** [\s*:?-{3,}:?\s*]: the rest after one separator cell. *)
Definition drop_cell (s : string) : option string :=
  let (n, rest) := drop_char (Ascii.ascii_of_nat 45) (drop_colon (lstrip s)) in
  if (3 <=? n)%nat then Some (lstrip (drop_colon rest)) else None.

(** Cells separated by bars, up to an optional final bar: their number. *)
Fixpoint count_cells (fuel : nat) (s : string) : option nat :=
  match fuel with
  | 0 => None
  | S fuel' =>
      match drop_cell s with
      | None => None
      | Some EmptyString => Some 1
      | Some (String c rest) =>
          if Ascii.eqb c bar_char then
            match rest with
            | EmptyString => Some 1
            | _ => S <$> count_cells fuel' rest
            end
          else None
      end
  end.

(** [_TABLE_SEPARATOR]: a bar and at least two cells. *)
Definition is_table_separator (line : string) : bool :=
  match line with
  | String c rest =>
      Ascii.eqb c bar_char &&
      match count_cells (S (String.length rest)) rest with Some n => (2 <=? n)%nat | None => false end
  | EmptyString => false
  end.

Definition fence : string := str_of_codes [96; 96; 96].
Definition is_fence (line : string) : bool := starts_with fence line.
Definition is_quote (line : string) : bool := starts_with ">" line.
Definition is_bullet (line : string) : bool :=
  starts_with "- " line || starts_with "* " line || starts_with "+ " line.
Definition is_divider (line : string) : bool := bool_decide (line ∈ ["---"; "***"; "___"]).

(** ** [_parse], on the lines that are left *)

Section parse.
Context `{Builtins} `{UnicodeDigits}.

Definition is_table_start (line : string) (rest : list string) : bool :=
  starts_with "|" line &&
  match rest with next :: _ => is_table_separator (strip next) | [] => false end.

(** [_starts_block] of a stripped line and the lines after it. *)
Definition starts_block (line : string) (rest : list string) : bool :=
  starts_with "#" line || is_quote line || is_fence line || is_bullet line
  || bool_decide (is_Some (match_ordered line)) || is_divider line || is_table_start line rest.

(** The longest prefix on which a reader succeeds, and what is left: the
    inner [while] loops. *)
Fixpoint take_while {A} (read : string -> option A) (lines : list string) : list A * list string :=
  match lines with
  | [] => ([], [])
  | l :: rest =>
      match read l with
      | Some x => let (xs, left) := take_while read rest in (x :: xs, left)
      | None => ([], lines)
      end
  end.

Definition newline : string := str_of_codes [10].

Definition read_code (l : string) : option string := if is_fence (strip l) then None else Some l.
Definition read_quote (l : string) : option string :=
  if is_quote (strip l) then Some (strip (str_drop_bytes 1 (strip l))) else None.
Definition read_bullet (l : string) : option string :=
  if is_bullet (strip l) then Some (strip (str_drop_bytes 2 (strip l))) else None.
Definition read_ordered (l : string) : option string := match_ordered (strip l).

(** [_table_row]. *)
Definition table_row (l : string) : list string := strip <$> split_on bar_char (strip_char bar_char (strip l)).
Definition read_row (l : string) : option (list string) :=
  if starts_with "|" (strip l) then Some (table_row l) else None.

(** The continuation lines of a paragraph. *)
Fixpoint take_paragraph (lines : list string) : list string * list string :=
  match lines with
  | [] => ([], [])
  | l :: rest =>
      if negb (truthy (strip l)) || starts_block (strip l) rest then ([], lines)
      else let (xs, left) := take_paragraph rest in (strip l :: xs, left)
  end.

Definition text_block (t : ExportBlockType) (text : string) : ExportBlock := mkBlock t (Some text) None [] [] None.
Definition list_block (t : ExportBlockType) (items : list string) : ExportBlock := mkBlock t None None items [] None.

(** One pass of the loop from a line [l] followed by [rest]: the block, if
    any, and the lines left. *)
Definition parse_block (l : string) (rest : list string) : option ExportBlock * list string :=
  let line := strip l in
  if negb (truthy line) then (None, rest)
  else if is_fence line then
    let (values, left) := take_while read_code rest in
    let language := strip (str_drop_bytes 3 line) in
    (Some (mkBlock ExportBlockType.CODE (Some (str_join newline values)) None [] []
             (if truthy language then Some language else None)), List.tl left)
  else match match_heading line with
  | Some (n, text) =>
      (Some (mkBlock ExportBlockType.HEADING (Some text) (Some (Nat.min n 3)) [] [] None), rest)
  | None =>
      if is_divider line then (Some (mkBlock ExportBlockType.DIVIDER None None [] [] None), rest)
      else if is_quote line then
        let (values, left) := take_while read_quote (l :: rest) in
        (Some (text_block ExportBlockType.QUOTE (str_join newline values)), left)
      else if is_bullet line then
        let (values, left) := take_while read_bullet (l :: rest) in
        (Some (list_block ExportBlockType.UNORDERED_LIST values), left)
      else if bool_decide (is_Some (match_ordered line)) then
        let (values, left) := take_while read_ordered (l :: rest) in
        (Some (list_block ExportBlockType.ORDERED_LIST values), left)
      else if is_table_start line rest then
        let (rows, left) := take_while read_row (List.tl rest) in
        (Some (mkBlock ExportBlockType.TABLE None None [] (table_row l :: rows) None), left)
      else
        let (values, left) := take_paragraph rest in
        (Some (text_block ExportBlockType.PARAGRAPH (str_join " " (line :: values))), left)
  end.

(** The outer [while] loop; [None] means that the fuel ran out. *)
Fixpoint parse_fuel (fuel : nat) (lines : list string) : option (list ExportBlock) :=
  match lines with
  | [] => Some []
  | l :: rest =>
      match fuel with
      | 0 => None
      | S fuel' =>
          let (block, left) := parse_block l rest in
          blocks ← parse_fuel fuel' left;
          Some (match block with Some b => b :: blocks | None => blocks end)
      end
  end.

(** Every pass consumes a line; see [FormatterFacts.parse_total]. *)
Definition parse (lines : list string) : list ExportBlock := default [] (parse_fuel (length lines) lines).

(** ** [format] *)

Definition is_title (b : ExportBlock) : bool :=
  bool_decide (bl_block_type b = ExportBlockType.HEADING) && bool_decide (bl_level b = Some 1)
  && truthy (default EmptyString (bl_text b)).

Definition title_of (blocks : list ExportBlock) : string :=
  match List.find is_title blocks with Some b => default "PRD" (bl_text b) | None => "PRD" end.

Definition block_json (b : ExportBlock) : json :=
  JObj [("block_type", JStr (ExportBlockType.value (bl_block_type b)));
        ("text", match bl_text b with Some t => JStr t | None => JNull end);
        ("level", match bl_level b with Some n => JInt (Z.of_nat n) | None => JNull end);
        ("items", JArr (JStr <$> bl_items b));
        ("rows", JArr ((fun row => JArr (JStr <$> row)) <$> bl_rows b));
        ("language", match bl_language b with Some t => JStr t | None => JNull end)].

Definition document_json (title : string) (version : Z) (blocks : list ExportBlock) (unresolved : list string) : json :=
  JObj [("title", JStr title); ("document_version", JInt version); ("blocks", JArr (block_json <$> blocks));
        ("unresolved_items", JArr (JStr <$> unresolved))].

(** [format], with the length of the title and the version validated; the
    content hash always has the shape of a SHA-256 digest. *)
Definition format (markdown : string) (document_version : Z) (unresolved_items : list string)
    : result exc ExportDocument :=
  let blocks := parse (splitlines (strip (unify_newlines markdown))) in
  let title := title_of blocks in
  if (str_len title <=? 200)%nat && (1 <=? document_version)%Z then
    Ok (mkExportDocument title document_version blocks unresolved_items
          (sha256_json (document_json title document_version blocks unresolved_items)))
  else Raise ValueError.
End parse.
