(* ===== verification/FormatterFacts.v ===== *)
(** * The export formatter terminates and produces well-typed blocks *)
From stdpp Require Import base list sets strings pretty.
From Stdlib Require Import ZArith.
From S2P Require Import Prelude PyDict PyText Json Formatter.

Section parse.
Context `{Builtins} `{UnicodeDigits}.

Lemma take_while_left {A} (read : string -> option A) lines :
  length (take_while read lines).2 <= length lines.
Proof.
  induction lines as [|l rest IH]; simpl; [done|]. destruct (read l); [|done].
  destruct (take_while read rest). simpl in *. lia.
Qed.

(** A reader that accepts the first line consumes it. *)
Lemma take_while_first {A} (read : string -> option A) l rest :
  is_Some (read l) ->
  length (take_while read (l :: rest)).2 <= length rest /\ (take_while read (l :: rest)).1 <> [].
Proof.
  intros [x Hx]. simpl. rewrite Hx. pose proof (take_while_left read rest).
  destruct (take_while read rest). by split.
Qed.

Lemma take_paragraph_left lines : length (take_paragraph lines).2 <= length lines.
Proof.
  induction lines as [|l rest IH]; simpl; [done|]. case_match; [done|].
  destruct (take_paragraph rest). simpl in *. lia.
Qed.

Lemma tl_left {A} (l : list A) : length (List.tl l) <= length l.
Proof. destruct l; simpl; lia. Qed.

Lemma match_heading_level line n text :
  match_heading line = Some (n, text) -> 1 <= n /\ text <> EmptyString.
Proof.
  unfold match_heading. destruct (drop_char hash_char line) as [k rest].
  destruct (1 <=? k)%nat eqn:E1; [|done]. destruct (k <=? 6)%nat; [|done]. simpl.
  destruct (leading_space rest); [|done]. destruct (truthy (strip rest)) eqn:Et; [|done].
  intros [= <- <-]. apply Nat.leb_le in E1. split; [done|]. intros He. by rewrite He in Et.
Qed.

Definition only_text (b : ExportBlock) : Prop := bl_items b = [] /\ bl_rows b = [].

(** What each kind of block carries. *)
Definition block_ok (b : ExportBlock) : Prop :=
  match bl_block_type b with
  | ExportBlockType.HEADING => (exists t, bl_text b = Some t /\ t <> EmptyString) /\
      (exists n, bl_level b = Some n /\ 1 <= n <= 3) /\ only_text b /\ bl_language b = None
  | ExportBlockType.PARAGRAPH => (exists t, bl_text b = Some t /\ t <> EmptyString) /\ bl_level b = None /\
      only_text b /\ bl_language b = None
  | ExportBlockType.QUOTE => is_Some (bl_text b) /\ bl_level b = None /\ only_text b /\ bl_language b = None
  | ExportBlockType.CODE => is_Some (bl_text b) /\ bl_level b = None /\ only_text b
  | ExportBlockType.ORDERED_LIST | ExportBlockType.UNORDERED_LIST =>
      bl_items b <> [] /\ bl_text b = None /\ bl_level b = None /\ bl_rows b = [] /\ bl_language b = None
  | ExportBlockType.TABLE => bl_rows b <> [] /\ bl_text b = None /\ bl_level b = None /\ bl_items b = [] /\
      bl_language b = None
  | ExportBlockType.DIVIDER => bl_text b = None /\ bl_level b = None /\ only_text b /\ bl_language b = None
  end.

Lemma str_join_nonempty sep line values : line <> EmptyString -> str_join sep (line :: values) <> EmptyString.
Proof. destruct line as [|c line]; [done|]. intros _. destruct values; discriminate. Qed.

(** A pass of the loop consumes its first line, and what it adds is well typed;
    only blank lines add nothing. *)
Lemma parse_block_spec l rest :
  length (parse_block l rest).2 <= length rest /\
  match (parse_block l rest).1 with
  | Some b => block_ok b
  | None => strip l = EmptyString
  end.
Proof.
  unfold parse_block. destruct (truthy (strip l)) eqn:Ht; simpl negb; cbv iota;
    [|by split; [|by destruct (strip l)]].
  destruct (is_fence (strip l)).
  { pose proof (take_while_left read_code rest) as Hl. destruct (take_while read_code rest) as [values left].
    simpl in *. pose proof (tl_left left). split; [lia|]. split_and!; by try eexists. }
  destruct (match_heading (strip l)) as [[n text]|] eqn:Hh.
  { apply match_heading_level in Hh as [Hn Htext]. split; [done|]. split_and!; [by eexists| |by split|done].
    exists (Nat.min n 3). simpl. split; [done|lia]. }
  destruct (is_divider (strip l)); [by repeat split|].
  destruct (is_quote (strip l)) eqn:Hq.
  { destruct (take_while_first read_quote l rest) as [Hl Hne]; [unfold read_quote; rewrite Hq; by eexists|].
    destruct (take_while read_quote (l :: rest)) as [values left]. simpl in *. split; [done|]. by repeat split. }
  destruct (is_bullet (strip l)) eqn:Hb.
  { destruct (take_while_first read_bullet l rest) as [Hl Hne]; [unfold read_bullet; rewrite Hb; by eexists|].
    destruct (take_while read_bullet (l :: rest)) as [values left]. simpl in *. by repeat split. }
  case_bool_decide as Ho.
  { destruct (take_while_first read_ordered l rest Ho) as [Hl Hne].
    destruct (take_while read_ordered (l :: rest)) as [values left]. simpl in *. by repeat split. }
  destruct (is_table_start (strip l) rest).
  { pose proof (take_while_left read_row (List.tl rest)) as Hl. pose proof (tl_left rest).
    destruct (take_while read_row (List.tl rest)) as [rows left]. simpl in *. split; [lia|]. by repeat split. }
  pose proof (take_paragraph_left rest) as Hl. destruct (take_paragraph rest) as [values left]. simpl in *.
  split; [done|]. split_and!; [|done|by split|done]. eexists. split; [reflexivity|].
  apply str_join_nonempty. intros He. by rewrite He in Ht.
Qed.

Lemma parse_fuel_spec fuel lines :
  length lines <= fuel -> exists blocks, parse_fuel fuel lines = Some blocks /\ Forall block_ok blocks.
Proof.
  revert lines. induction fuel as [|fuel IH]; intros [|l rest] Hlen; simpl in *;
    try lia; try (by exists []).
  destruct (parse_block_spec l rest) as [Hleft Hblock]. destruct (parse_block l rest) as [block left].
  simpl in *. destruct (IH left) as (blocks & Hb & Hok); [lia|]. rewrite Hb. simpl.
  eexists. split; [done|]. destruct block; [by constructor|done].
Qed.

(** The Markdown parser of the exporter terminates on every input and its
    blocks are well typed: each kind of block carries exactly the fields it
    should, headings have a level from 1 to 3 and a text, lists have items and
    tables rows.  The fuel of the model, the number of lines, is enough. *)
Theorem parse_total (lines : list string) :
  parse_fuel (length lines) lines = Some (parse lines) /\ Forall block_ok (parse lines).
Proof.
  unfold parse. destruct (parse_fuel_spec (length lines) lines) as (blocks & -> & Hok); [done|].
  by split.
Qed.
End parse.

#[local] Existing Instance example_builtins.
#[local] Instance ascii_digits : UnicodeDigits := fun _ => None.

Example parse_example :
  bl_block_type <$> parse
    ["# Title"; "para"; "still"; "- a"; "* b"; "1. x"; "2) y"; "| a | b |"; "|---|:---:|"; "| 1 | 2 |"; "> q";
     str_of_codes [96; 96; 96] +:+ "py"; "code"; "#tag"; "----"; "***"]
  = [ExportBlockType.HEADING; ExportBlockType.PARAGRAPH; ExportBlockType.UNORDERED_LIST; ExportBlockType.ORDERED_LIST;
     ExportBlockType.TABLE; ExportBlockType.QUOTE; ExportBlockType.CODE].
Proof. vm_compute. reflexivity. Qed.
