(* ===== verification/Export.v ===== *)
(** * Document export: models, store and service

    [export/models.py], [export/store.py] and [export/service.py]: a preview
    issues an intent and a confirmation token for one version of the final
    document; executing it claims the intent, calls the document gateway once
    and records the outcome.  Every operation of the store runs under its lock;
    between any two of them other threads may use the store. *)
From stdpp Require Import base list sets strings pretty.
From Stdlib Require Import ZArith.
From S2P Require Import Prelude PyDict PyText Json Formatter.

(** ** [integrations/errors.py] and [export/models.py] *)

Module IntegrationErrorCode.
Inductive IntegrationErrorCode : Type :=
  | UNAUTHORIZED | RESOURCE_NOT_ALLOWED | RESOURCE_NOT_FOUND | VERSION_NOT_FOUND | RATE_LIMITED | TIMEOUT
  | PROVIDER_UNAVAILABLE | INVALID_PROVIDER_RESPONSE | RESOURCE_CHANGED | PAYLOAD_TOO_LARGE
  | IDEMPOTENCY_CONFLICT | INVALID_STATE | CONFIRMATION_REQUIRED | RESULT_UNKNOWN.
#[global] Instance IntegrationErrorCode_eq_dec : EqDecision IntegrationErrorCode.
Proof. solve_decision. Defined.
Definition value (c : IntegrationErrorCode) : string :=
  match c with
  | UNAUTHORIZED => "UNAUTHORIZED" | RESOURCE_NOT_ALLOWED => "RESOURCE_NOT_ALLOWED"
  | RESOURCE_NOT_FOUND => "RESOURCE_NOT_FOUND" | VERSION_NOT_FOUND => "VERSION_NOT_FOUND"
  | RATE_LIMITED => "RATE_LIMITED" | TIMEOUT => "TIMEOUT" | PROVIDER_UNAVAILABLE => "PROVIDER_UNAVAILABLE"
  | INVALID_PROVIDER_RESPONSE => "INVALID_PROVIDER_RESPONSE" | RESOURCE_CHANGED => "RESOURCE_CHANGED"
  | PAYLOAD_TOO_LARGE => "PAYLOAD_TOO_LARGE" | IDEMPOTENCY_CONFLICT => "IDEMPOTENCY_CONFLICT"
  | INVALID_STATE => "INVALID_STATE" | CONFIRMATION_REQUIRED => "CONFIRMATION_REQUIRED"
  | RESULT_UNKNOWN => "RESULT_UNKNOWN"
  end.
End IntegrationErrorCode.
Abbreviation IntegrationErrorCode := IntegrationErrorCode.IntegrationErrorCode.

(** An [IntegrationError], or any other exception. *)
Inductive xexc : Type :=
  | IntegrationError (code : IntegrationErrorCode) (retryable : bool)
  | OtherError (e : exc).

Definition integration {A} (code : IntegrationErrorCode) : result xexc A := Raise (IntegrationError code false).

Module ExportMode.
Inductive ExportMode : Type := CREATE | OVERWRITE_BOUND.
#[global] Instance ExportMode_eq_dec : EqDecision ExportMode.
Proof. solve_decision. Defined.
Definition value (m : ExportMode) : string :=
  match m with CREATE => "CREATE" | OVERWRITE_BOUND => "OVERWRITE_BOUND" end.
End ExportMode.
Abbreviation ExportMode := ExportMode.ExportMode.

Module ExportRunStatus.
Inductive ExportRunStatus : Type := RUNNING | SUCCEEDED | FAILED | RESULT_UNKNOWN | MANUAL_REVIEW.
#[global] Instance ExportRunStatus_eq_dec : EqDecision ExportRunStatus.
Proof. solve_decision. Defined.
Definition value (s : ExportRunStatus) : string :=
  match s with
  | RUNNING => "RUNNING" | SUCCEEDED => "SUCCEEDED" | FAILED => "FAILED" | RESULT_UNKNOWN => "RESULT_UNKNOWN"
  | MANUAL_REVIEW => "MANUAL_REVIEW"
  end.
End ExportRunStatus.
Abbreviation ExportRunStatus := ExportRunStatus.ExportRunStatus.

Module CreateCapability.
Inductive CreateIdempotencyCapability : Type := PROVIDER_KEY | RECONCILABLE | NONE.
#[global] Instance CreateIdempotencyCapability_eq_dec : EqDecision CreateIdempotencyCapability.
Proof. solve_decision. Defined.
End CreateCapability.
Abbreviation CreateIdempotencyCapability := CreateCapability.CreateIdempotencyCapability.

Record ExportSourceSnapshot := mkExportSource {
  xs_task_id : string;
  xs_owner_id : string;
  xs_task_status : string;
  xs_task_version : Z;
  xs_document_id : string;
  xs_document_version : Z;
  xs_markdown : string;
  xs_unresolved_items : list string
}.

Record ExportIntent := mkIntent {
  xi_intent_id : string;
  xi_task_id : string;
  xi_owner_id : string;
  xi_mode : ExportMode;
  xi_task_version : Z;
  xi_document_id : string;
  xi_document_version : Z;
  xi_content_hash : string;
  xi_title : string;
  xi_unresolved_items : list string;
  xi_bound_title : option string;
  xi_bound_safe_url : option string;
  xi_expires_at : Z;
  xi_consumed_at : option Z
}.

Record ExportPreview := mkPreview {
  xp_intent_id : string;
  xp_confirmation_token : string;
  xp_mode : ExportMode;
  xp_title : string;
  xp_task_version : Z;
  xp_document_version : Z;
  xp_content_hash : string;
  xp_unresolved_items : list string;
  xp_expires_at : Z;
  xp_bound_title : option string;
  xp_bound_safe_url : option string
}.

Record ProviderDocumentResult := mkProviderResult {
  pr_external_id : string;
  pr_safe_url : string;
  pr_title : string;
  pr_provider_revision : option string
}.

Record ExternalDocumentBinding := mkDocBinding {
  db_binding_id : string;
  db_task_id : string;
  db_owner_id : string;
  db_provider : string;
  db_external_id : string;
  db_safe_url : string;
  db_display_title : string;
  db_last_export_hash : string;
  db_last_document_version : Z;
  db_provider_revision : option string
}.

Record ExportRun := mkExportRun {
  xr_export_run_id : string;
  xr_intent_id : string;
  xr_task_id : string;
  xr_owner_id : string;
  xr_mode : ExportMode;
  xr_task_version : Z;
  xr_document_version : Z;
  xr_content_hash : string;
  xr_status : ExportRunStatus;
  xr_idempotency_key_hash : string;
  xr_attempt_count : Z;
  xr_binding_id : option string;
  xr_safe_url : option string;
  xr_display_title : option string;
  xr_error_code : option string;
  xr_retryable : bool;
  xr_created_at : Z;
  xr_completed_at : option Z
}.

(** ** [InMemoryExportStore] *)

Record xstore := mkXStore {
  x_intents : dict string ExportIntent;
  x_bindings : dict (string * string) ExternalDocumentBinding;
  x_runs : dict string ExportRun;
  x_replays : dict (string * string) (string * string);
  x_preview_replays : dict (string * string) (string * string);
  x_intent_claims : dict string (string * string * Z)
}.

Definition set_intents v s := mkXStore v (x_bindings s) (x_runs s) (x_replays s) (x_preview_replays s) (x_intent_claims s).
Definition set_bindings v s := mkXStore (x_intents s) v (x_runs s) (x_replays s) (x_preview_replays s) (x_intent_claims s).
Definition set_xruns v s := mkXStore (x_intents s) (x_bindings s) v (x_replays s) (x_preview_replays s) (x_intent_claims s).
Definition set_replays v s := mkXStore (x_intents s) (x_bindings s) (x_runs s) v (x_preview_replays s) (x_intent_claims s).
Definition set_preview_replays v s := mkXStore (x_intents s) (x_bindings s) (x_runs s) (x_replays s) v (x_intent_claims s).
Definition set_claims v s := mkXStore (x_intents s) (x_bindings s) (x_runs s) (x_replays s) (x_preview_replays s) v.

Definition save_intent (i : ExportIntent) (s : xstore) : xstore := set_intents (<[xi_intent_id i := i]> (x_intents s)) s.

Definition get_intent (intent_id owner_id : string) (s : xstore) : result xexc ExportIntent :=
  match x_intents s !! intent_id with
  | Some i => if decide (xi_owner_id i = owner_id) then Ok i else integration IntegrationErrorCode.RESOURCE_NOT_FOUND
  | None => integration IntegrationErrorCode.RESOURCE_NOT_FOUND
  end.

Definition get_preview_replay (owner_id key : string) (s : xstore) : result xexc (option (string * ExportIntent)) :=
  match x_preview_replays s !! (owner_id, key) with
  | None => Ok None
  | Some (input_hash, intent_id) => result_bind (fun i => Ok (Some (input_hash, i))) (get_intent intent_id owner_id s)
  end.

Definition save_preview_replay (owner_id key input_hash : string) (i : ExportIntent) (s : xstore)
    : xstore * result xexc unit :=
  match x_preview_replays s !! (owner_id, key) with
  | Some (h, _) =>
      if decide (h = input_hash)
      then (set_preview_replays (<[(owner_id, key) := (input_hash, xi_intent_id i)]> (x_preview_replays s)) s, Ok tt)
      else (s, integration IntegrationErrorCode.IDEMPOTENCY_CONFLICT)
  | None => (set_preview_replays (<[(owner_id, key) := (input_hash, xi_intent_id i)]> (x_preview_replays s)) s, Ok tt)
  end.

Definition begin_preview (owner_id key input_hash : string) (i : ExportIntent) (s : xstore)
    : xstore * result xexc (option ExportIntent) :=
  match x_preview_replays s !! (owner_id, key) with
  | Some (h, intent_id) =>
      if decide (h = input_hash) then
        (s, match x_intents s !! intent_id with Some j => Ok (Some j) | None => Raise (OtherError KeyError) end)
      else (s, integration IntegrationErrorCode.IDEMPOTENCY_CONFLICT)
  | None =>
      (set_preview_replays (<[(owner_id, key) := (input_hash, xi_intent_id i)]> (x_preview_replays s))
         (save_intent i s), Ok None)
  end.

Definition save_binding (b : ExternalDocumentBinding) (s : xstore) : xstore * result xexc unit :=
  let key := (db_owner_id b, db_task_id b) in
  match x_bindings s !! key with
  | Some current =>
      if decide (db_binding_id current = db_binding_id b)
      then (set_bindings (<[key := b]> (x_bindings s)) s, Ok tt)
      else (s, integration IntegrationErrorCode.IDEMPOTENCY_CONFLICT)
  | None => (set_bindings (<[key := b]> (x_bindings s)) s, Ok tt)
  end.

Definition get_binding (task_id owner_id : string) (s : xstore) : option ExternalDocumentBinding :=
  x_bindings s !! (owner_id, task_id).

Definition save_run (r : ExportRun) (s : xstore) : xstore := set_xruns (<[xr_export_run_id r := r]> (x_runs s)) s.

Definition stored_run (run_id : string) (s : xstore) : result xexc ExportRun :=
  match x_runs s !! run_id with Some r => Ok r | None => Raise (OtherError KeyError) end.

Definition begin_run (owner_id key input_hash : string) (r : ExportRun) (s : xstore)
    : xstore * result xexc (option ExportRun) :=
  match x_replays s !! (owner_id, key) with
  | Some (h, run_id) =>
      if decide (h = input_hash) then (s, result_bind (fun r => Ok (Some r)) (stored_run run_id s))
      else (s, integration IntegrationErrorCode.IDEMPOTENCY_CONFLICT)
  | None =>
      (set_replays (<[(owner_id, key) := (input_hash, xr_export_run_id r)]> (x_replays s)) (save_run r s), Ok None)
  end.

Definition get_replay (owner_id key : string) (s : xstore) : result xexc (option (string * ExportRun)) :=
  match x_replays s !! (owner_id, key) with
  | None => Ok None
  | Some (input_hash, run_id) => result_bind (fun r => Ok (Some (input_hash, r))) (stored_run run_id s)
  end.

Definition save_replay (owner_id key input_hash : string) (r : ExportRun) (s : xstore) : xstore * result xexc unit :=
  let written := set_replays (<[(owner_id, key) := (input_hash, xr_export_run_id r)]> (x_replays s)) (save_run r s) in
  match x_replays s !! (owner_id, key) with
  | Some (h, _) => if decide (h = input_hash) then (written, Ok tt)
                   else (s, integration IntegrationErrorCode.IDEMPOTENCY_CONFLICT)
  | None => (written, Ok tt)
  end.

Definition consume_intent (i : ExportIntent) (s : xstore) : xstore := save_intent i s.

Definition consumed (i : ExportIntent) : bool := bool_decide (is_Some (xi_consumed_at i)).

Definition claim_intent (intent_id owner_id claim_id : string) (now claim_expires_at : Z) (s : xstore) : xstore * bool :=
  match x_intents s !! intent_id with
  | None => (s, false)
  | Some i =>
      if negb (bool_decide (xi_owner_id i = owner_id)) || consumed i then (s, false)
      else
        let blocked := match x_intent_claims s !! intent_id with
                       | Some (_, holder, expires) => negb (bool_decide (holder = claim_id)) && (now <? expires)%Z
                       | None => false
                       end in
        if blocked then (s, false)
        else (set_claims (<[intent_id := (owner_id, claim_id, claim_expires_at)]> (x_intent_claims s)) s, true)
  end.

(** [current[:2] == (owner_id, claim_id)]. *)
Definition holds_claim (intent_id owner_id claim_id : string) (s : xstore) : bool :=
  match x_intent_claims s !! intent_id with
  | Some (owner, holder, _) => bool_decide (owner = owner_id) && bool_decide (holder = claim_id)
  | None => false
  end.

Definition release_intent_claim (intent_id owner_id claim_id : string) (s : xstore) : xstore :=
  if holds_claim intent_id owner_id claim_id s then set_claims (delete intent_id (x_intent_claims s)) s else s.

Definition mark_consumed (at_ : Z) (i : ExportIntent) : ExportIntent :=
  mkIntent (xi_intent_id i) (xi_task_id i) (xi_owner_id i) (xi_mode i) (xi_task_version i) (xi_document_id i)
    (xi_document_version i) (xi_content_hash i) (xi_title i) (xi_unresolved_items i) (xi_bound_title i)
    (xi_bound_safe_url i) (xi_expires_at i) (Some at_).

Definition consume_claimed_intent (intent_id owner_id claim_id : string) (consumed_at : Z) (s : xstore) : xstore * bool :=
  match x_intents s !! intent_id with
  | Some i =>
      if holds_claim intent_id owner_id claim_id s && negb (consumed i) then
        (set_claims (delete intent_id (x_intent_claims s))
           (set_intents (<[intent_id := mark_consumed consumed_at i]> (x_intents s)) s), true)
      else (s, false)
  | None => (s, false)
  end.

(** Newest first; [sorted] with [reverse=True] keeps the order of equal keys. *)
Definition list_runs (task_id owner_id : string) (s : xstore) : list ExportRun :=
  sort_by (fun a b => (xr_created_at b <=? xr_created_at a)%Z)
    (List.filter (fun r => bool_decide (xr_task_id r = task_id) && bool_decide (xr_owner_id r = owner_id))
       (values (x_runs s))).

(** ** [ExportApplicationService] *)

(** A call of [DocumentExportGateway]. *)
Inductive gateway_operation : Type :=
  | CreateDocument
  | OverwriteDocument (external_id : string) (expected_revision : option string).

Record gateway_call := mkGatewayCall {
  gc_operation : gateway_operation;
  gc_document : ExportDocument;
  gc_idempotency_key : string
}.

(** The document source, the gateway, the keyed digest of the confirmation
    secret, identifiers, the clock, and what other threads do to the store
    before its [n]-th use. *)
Class ExportEnv := {
  x_uuid4_hex : nat -> string;
  x_now : nat -> Z;
  x_source : nat -> string -> string -> result xexc ExportSourceSnapshot;
  x_gateway : list gateway_call -> gateway_call -> result xexc ProviderDocumentResult;
  x_capability : CreateIdempotencyCapability;
  x_hmac : string -> string;
  x_isoformat : Z -> string;
  x_intent_ttl : Z;
  x_others : nat -> xstore -> xstore
}.

Record xworld := mkXWorld {
  xw_store : xstore;
  xw_calls : list gateway_call;
  xw_events : list (string * string * json);
  xw_uuids : nat;
  xw_ticks : nat;
  xw_steps : nat
}.

Definition XM (A : Type) : Type := M xworld xexc A.

Section export_service.
Context `{Builtins} `{UnicodeDigits} `{ExportEnv}.

(** One locked operation, after whatever other threads did. *)
Definition atomic {A} (f : xstore -> xstore * result xexc A) : XM A := fun w =>
  let (s, r) := f (x_others (xw_steps w) (xw_store w)) in
  (mkXWorld s (xw_calls w) (xw_events w) (xw_uuids w) (xw_ticks w) (S (xw_steps w)), r).

Definition atomic_read {A} (f : xstore -> result xexc A) : XM A := atomic (fun s => (s, f s)).
Definition atomic_write {A} (f : xstore -> xstore * A) : XM A := atomic (fun s => let (s', a) := f s in (s', Ok a)).

Definition x_id (prefix : string) : XM string := fun w =>
  (mkXWorld (xw_store w) (xw_calls w) (xw_events w) (S (xw_uuids w)) (xw_ticks w) (xw_steps w),
   Ok (prefix +:+ "-" +:+ x_uuid4_hex (xw_uuids w))).

Definition x_clock : XM Z := fun w =>
  (mkXWorld (xw_store w) (xw_calls w) (xw_events w) (xw_uuids w) (S (xw_ticks w)) (xw_steps w),
   Ok (x_now (xw_ticks w))).

Definition emit (task_id event_type : string) (payload : json) : XM unit := fun w =>
  (mkXWorld (xw_store w) (xw_calls w) (xw_events w ++ [(task_id, event_type, payload)]) (xw_uuids w) (xw_ticks w)
     (xw_steps w), Ok tt).

Definition call_gateway (c : gateway_call) : XM ProviderDocumentResult := fun w =>
  (mkXWorld (xw_store w) (xw_calls w ++ [c]) (xw_events w) (xw_uuids w) (xw_ticks w) (xw_steps w),
   x_gateway (xw_calls w) c).

Definition fail {A} (code : IntegrationErrorCode) : XM A := raise (IntegrationError code false).
Definition guard (ok : bool) (code : IntegrationErrorCode) : XM unit := if ok then mret tt else fail code.

Definition optional_text (s : option string) : json := match s with Some x => JStr x | None => JNull end.

(** [_confirmation_token]. *)
Definition confirmation_token (i : ExportIntent) : string :=
  x_hmac (canonical_json (JObj
    [("intent_id", JStr (xi_intent_id i)); ("task_id", JStr (xi_task_id i)); ("owner_id", JStr (xi_owner_id i));
     ("mode", JStr (ExportMode.value (xi_mode i))); ("task_version", JInt (xi_task_version i));
     ("document_version", JInt (xi_document_version i)); ("content_hash", JStr (xi_content_hash i));
     ("expires_at", JStr (x_isoformat (xi_expires_at i)))])).

Definition preview_from_intent (i : ExportIntent) : ExportPreview :=
  mkPreview (xi_intent_id i) (confirmation_token i) (xi_mode i) (xi_title i) (xi_task_version i)
    (xi_document_version i) (xi_content_hash i) (xi_unresolved_items i) (xi_expires_at i) (xi_bound_title i)
    (xi_bound_safe_url i).

(** [_current_source] and [_format]. *)
Definition current_source (task_id owner_id : string) (expected_task_version : Z) : XM ExportSourceSnapshot :=
  n ← gets xw_steps;
  source ← liftR (x_source n task_id owner_id);
  guard (bool_decide (xs_task_status source = "COMPLETED")) IntegrationErrorCode.INVALID_STATE;;
  guard (Z.eqb (xs_task_version source) expected_task_version) IntegrationErrorCode.RESOURCE_CHANGED;;
  mret source.

Definition format_source (source : ExportSourceSnapshot) : XM ExportDocument :=
  liftR (match format (xs_markdown source) (xs_document_version source) (xs_unresolved_items source) with
         | Ok d => Ok d | Raise e => Raise (OtherError e) end).

(** The mode fits the binding of the task. *)
Definition mode_fits (m : ExportMode) (b : option ExternalDocumentBinding) : bool :=
  match m, b with
  | ExportMode.CREATE, Some _ | ExportMode.OVERWRITE_BOUND, None => false
  | _, _ => true
  end.

Definition preview_hash (task_id owner_id : string) (mode : ExportMode) (expected_task_version : Z) : string :=
  sha256_json (JObj [("task_id", JStr task_id); ("owner_id", JStr owner_id);
    ("mode", JStr (ExportMode.value mode)); ("expected_task_version", JInt expected_task_version)]).

Definition new_intent (task_id owner_id : string) (mode : ExportMode) (source : ExportSourceSnapshot)
    (d : ExportDocument) (b : option ExternalDocumentBinding) (id : string) (now : Z) : ExportIntent :=
  mkIntent id task_id owner_id mode (xs_task_version source) (xs_document_id source) (xs_document_version source)
    (xd_content_hash d) (xd_title d) (xd_unresolved_items d) (db_display_title <$> b) (db_safe_url <$> b)
    (now + x_intent_ttl) None.

(** The body of [preview] after the replay test. *)
Definition preview_fresh (task_id owner_id : string) (mode : ExportMode) (expected_task_version : Z)
    (key : option string) (input_hash : string) : XM ExportPreview :=
  source ← current_source task_id owner_id expected_task_version;
  document ← format_source source;
  binding ← atomic_read (fun s => Ok (get_binding task_id owner_id s));
  guard (mode_fits mode binding) IntegrationErrorCode.INVALID_STATE;;
  id ← x_id "export-intent";
  now ← x_clock;
  let intent := new_intent task_id owner_id mode source document binding id now in
  concurrent ← match key with
               | Some k => atomic (begin_preview owner_id k input_hash intent)
               | None => atomic_write (fun s => (save_intent intent s, None))
               end;
  match concurrent with
  | Some other => mret (preview_from_intent other)
  | None =>
      emit task_id "ExportPreviewed"
        (JObj [("intent_id", JStr id); ("mode", JStr (ExportMode.value mode));
               ("document_version", JInt (xi_document_version intent)); ("content_hash", JStr (xi_content_hash intent))]);;
      mret (preview_from_intent intent)
  end.

(** [preview]; an empty idempotency key counts as none. *)
Definition preview (task_id owner_id : string) (mode : ExportMode) (expected_task_version : Z)
    (idempotency_key : option string) : XM ExportPreview :=
  let input_hash := preview_hash task_id owner_id mode expected_task_version in
  let key := match idempotency_key with Some k => if truthy k then Some k else None | None => None end in
  replay ← match key with
           | Some k => atomic_read (get_preview_replay owner_id k)
           | None => mret None
           end;
  match replay with
  | Some (replay_hash, intent) =>
      guard (bool_decide (replay_hash = input_hash)) IntegrationErrorCode.IDEMPOTENCY_CONFLICT;;
      mret (preview_from_intent intent)
  | None => preview_fresh task_id owner_id mode expected_task_version key input_hash
  end.

(** *** [execute] *)

Definition execute_hash (intent_id owner_id : string) (expected_task_version : Z) (expected_task_id : option string) : string :=
  sha256_json (JObj [("intent_id", JStr intent_id); ("owner_id", JStr owner_id);
    ("expected_task_version", JInt expected_task_version); ("expected_task_id", optional_text expected_task_id)]).

(** The tests on the intent before anything is written. *)
Definition verify_intent (i : ExportIntent) (token : string) (expected_task_version : Z)
    (mode : option ExportMode) (expected_task_id : option string) : XM unit :=
  guard (match expected_task_id with Some t => bool_decide (xi_task_id i = t) | None => true end)
    IntegrationErrorCode.RESOURCE_NOT_FOUND;;
  guard (match mode with Some m => bool_decide (m = xi_mode i) | None => true end)
    IntegrationErrorCode.CONFIRMATION_REQUIRED;;
  guard (String.eqb (confirmation_token i) token) IntegrationErrorCode.CONFIRMATION_REQUIRED;;
  guard (negb (consumed i)) IntegrationErrorCode.CONFIRMATION_REQUIRED;;
  now ← x_clock;
  guard (now <? xi_expires_at i)%Z IntegrationErrorCode.CONFIRMATION_REQUIRED;;
  guard (Z.eqb expected_task_version (xi_task_version i)) IntegrationErrorCode.RESOURCE_CHANGED.

(** The document to export: the current one, unchanged since the preview. *)
Definition confirmed_document (i : ExportIntent) (owner_id : string) (expected_task_version : Z) : XM ExportDocument :=
  source ← current_source (xi_task_id i) owner_id expected_task_version;
  document ← format_source source;
  guard (bool_decide (xs_document_id source = xi_document_id i)
         && Z.eqb (xs_document_version source) (xi_document_version i)
         && bool_decide (xd_content_hash document = xi_content_hash i)) IntegrationErrorCode.RESOURCE_CHANGED;;
  mret document.

Definition new_run (i : ExportIntent) (owner_id key id : string) (now : Z) : ExportRun :=
  mkExportRun id (xi_intent_id i) (xi_task_id i) owner_id (xi_mode i) (xi_task_version i) (xi_document_version i)
    (xi_content_hash i) ExportRunStatus.RUNNING (sha256_json (JObj [("idempotency_key", JStr key)])) 1
    None None None None false now None.

(** [run.model_copy(update=...)]. *)
Definition run_outcome (status : ExportRunStatus) (b : option ExternalDocumentBinding) (error_code : option string)
    (retryable : bool) (completed_at : Z) (r : ExportRun) : ExportRun :=
  mkExportRun (xr_export_run_id r) (xr_intent_id r) (xr_task_id r) (xr_owner_id r) (xr_mode r) (xr_task_version r)
    (xr_document_version r) (xr_content_hash r) status (xr_idempotency_key_hash r) (xr_attempt_count r)
    (match b with Some b => Some (db_binding_id b) | None => xr_binding_id r end)
    (match b with Some b => Some (db_safe_url b) | None => xr_safe_url r end)
    (match b with Some b => Some (db_display_title b) | None => xr_display_title r end)
    error_code retryable (xr_created_at r) (Some completed_at).

Definition gateway_operation_of (m : ExportMode) (b : option ExternalDocumentBinding) : result xexc gateway_operation :=
  match m, b with
  | ExportMode.CREATE, _ => Ok CreateDocument
  | ExportMode.OVERWRITE_BOUND, Some b => Ok (OverwriteDocument (db_external_id b) (db_provider_revision b))
  | ExportMode.OVERWRITE_BOUND, None => Raise (OtherError (External "AssertionError"))
  end.

(** The binding after the provider answered. *)
Definition updated_binding (i : ExportIntent) (owner_id : string) (d : ExportDocument)
    (b : option ExternalDocumentBinding) (result : ProviderDocumentResult) : XM ExternalDocumentBinding :=
  match xi_mode i, b with
  | ExportMode.OVERWRITE_BOUND, Some b =>
      mret (mkDocBinding (db_binding_id b) (db_task_id b) (db_owner_id b) (db_provider b) (db_external_id b)
              (pr_safe_url result) (pr_title result) (xd_content_hash d) (xd_document_version d)
              (pr_provider_revision result))
  | _, _ =>
      id ← x_id "document-binding";
      mret (mkDocBinding id (xi_task_id i) owner_id "FEISHU" (pr_external_id result) (pr_safe_url result)
              (pr_title result) (xd_content_hash d) (xd_document_version d) (pr_provider_revision result))
  end.

(** The [try] block around the gateway. *)
Definition deliver (i : ExportIntent) (owner_id key : string) (d : ExportDocument)
    (b : option ExternalDocumentBinding) (run : ExportRun) : XM ExportRun :=
  operation ← liftR (gateway_operation_of (xi_mode i) b);
  result ← call_gateway (mkGatewayCall operation d key);
  binding ← updated_binding i owner_id d b result;
  atomic (save_binding binding);;
  now ← x_clock;
  mret (run_outcome ExportRunStatus.SUCCEEDED (Some binding) (xr_error_code run) (xr_retryable run) now run).

Definition failure_status (code : IntegrationErrorCode) : ExportRunStatus :=
  if decide (code = IntegrationErrorCode.RESULT_UNKNOWN) then
    if decide (x_capability = CreateCapability.NONE) then ExportRunStatus.MANUAL_REVIEW
    else ExportRunStatus.RESULT_UNKNOWN
  else ExportRunStatus.FAILED.

(** The [try] statement: an [IntegrationError] becomes a failed run. *)
Definition try_deliver (i : ExportIntent) (owner_id key : string) (d : ExportDocument)
    (b : option ExternalDocumentBinding) (run : ExportRun) : XM ExportRun := fun w =>
  match deliver i owner_id key d b run w with
  | (w', Raise (IntegrationError code retryable)) =>
      let status := failure_status code in
      (now ← x_clock;
       mret (run_outcome status None (Some (IntegrationErrorCode.value code))
               (retryable && negb (bool_decide (status = ExportRunStatus.MANUAL_REVIEW))) now run)) w'
  | other => other
  end.

(** Release the claim of a retryable failure, otherwise consume the intent. *)
Definition settle_intent (i : ExportIntent) (owner_id : string) (run : ExportRun) : XM ExportRun :=
  if bool_decide (xr_status run = ExportRunStatus.FAILED) && xr_retryable run then
    atomic_write (fun s => (release_intent_claim (xi_intent_id i) owner_id (xr_export_run_id run) s, tt));;
    mret run
  else
    now ← x_clock;
    consumed ← atomic_write (consume_claimed_intent (xi_intent_id i) owner_id (xr_export_run_id run) now);
    if (consumed : bool) then mret run
    else
      now ← x_clock;
      mret (run_outcome ExportRunStatus.RESULT_UNKNOWN None
              (Some (IntegrationErrorCode.value IntegrationErrorCode.RESULT_UNKNOWN)) false now run).

Definition finished_payload (run : ExportRun) : json :=
  JObj [("export_run_id", JStr (xr_export_run_id run)); ("mode", JStr (ExportMode.value (xr_mode run)));
        ("document_version", JInt (xr_document_version run)); ("binding_id", optional_text (xr_binding_id run));
        ("status", JStr (ExportRunStatus.value (xr_status run))); ("error_code", optional_text (xr_error_code run));
        ("retryable", JBool (xr_retryable run))].

(** From the started run to the recorded outcome. *)
Definition perform_export (i : ExportIntent) (owner_id key input_hash : string) (d : ExportDocument)
    (b : option ExternalDocumentBinding) (run : ExportRun) : XM ExportRun :=
  claim_now ← x_clock;
  claimed ← atomic_write (claim_intent (xi_intent_id i) owner_id (xr_export_run_id run) claim_now
              (claim_now + x_intent_ttl)%Z);
  if negb claimed then
    now ← x_clock;
    atomic (save_replay owner_id key input_hash
      (run_outcome ExportRunStatus.FAILED None
         (Some (IntegrationErrorCode.value IntegrationErrorCode.CONFIRMATION_REQUIRED)) (xr_retryable run) now run));;
    fail IntegrationErrorCode.CONFIRMATION_REQUIRED
  else
    emit (xr_task_id run) "ExportStarted"
      (JObj [("export_run_id", JStr (xr_export_run_id run)); ("mode", JStr (ExportMode.value (xr_mode run)));
             ("document_version", JInt (xr_document_version run))]);;
    run ← try_deliver i owner_id key d b run;
    run ← settle_intent i owner_id run;
    atomic (save_replay owner_id key input_hash run);;
    emit (xr_task_id run)
      (if decide (xr_status run = ExportRunStatus.SUCCEEDED) then "ExportSucceeded" else "ExportFailed")
      (finished_payload run);;
    mret run.

Definition execute_export (intent_id confirmation_token owner_id : string) (expected_task_version : Z)
    (idempotency_key : string) (mode : option ExportMode) (expected_task_id : option string) : XM ExportRun :=
  let input_hash := execute_hash intent_id owner_id expected_task_version expected_task_id in
  replay ← atomic_read (get_replay owner_id idempotency_key);
  match replay with
  | Some (replay_hash, run) =>
      guard (bool_decide (replay_hash = input_hash)) IntegrationErrorCode.IDEMPOTENCY_CONFLICT;; mret run
  | None =>
      intent ← atomic_read (get_intent intent_id owner_id);
      verify_intent intent confirmation_token expected_task_version mode expected_task_id;;
      document ← confirmed_document intent owner_id expected_task_version;
      binding ← atomic_read (fun s => Ok (get_binding (xi_task_id intent) owner_id s));
      guard (mode_fits (xi_mode intent) binding) IntegrationErrorCode.INVALID_STATE;;
      id ← x_id "export-run";
      created ← x_clock;
      let run := new_run intent owner_id idempotency_key id created in
      concurrent ← atomic (begin_run owner_id idempotency_key input_hash run);
      match concurrent with
      | Some other => mret other
      | None => perform_export intent owner_id idempotency_key input_hash document binding run
      end
  end.

(** [list_exports]. *)
Definition list_exports (task_id owner_id : string) : XM (list ExportRun) :=
  n ← gets xw_steps;
  liftR (x_source n task_id owner_id);;
  atomic_read (fun s => Ok (list_runs task_id owner_id s)).
End export_service.
