(* ===== verification/ExportFacts.v ===== *)
(** * What an export sends to the provider

    An execution calls the document gateway at most once, and only with the
    document that was previewed and confirmed. *)
From stdpp Require Import base list sets strings pretty.
From Stdlib Require Import ZArith.
From S2P Require Import Prelude PyDict PyText Json Formatter Export Hoare.

Section calls.
Context `{Builtins} `{UnicodeDigits} `{ExportEnv}.

(** A computation that makes no gateway call, and what it returns. *)
Definition silent {A} (m : XM A) (Q : A -> Prop) : Prop :=
  forall w, xw_calls (m w).1 = xw_calls w /\ forall a, (m w).2 = Ok a -> Q a.

Lemma silent_bind {A B} (m : XM A) R (k : A -> XM B) Q :
  silent m R -> (forall a, R a -> silent (k a) Q) -> silent (x ← m; k x) Q.
Proof.
  intros Hm Hk w. destruct (Hm w) as [Hc HR]. unfold mbind, M_bind.
  destruct (m w) as [w1 [a|e]]; cbn [fst snd] in *; [|done].
  destruct (Hk a (HR a eq_refl) w1) as [Hc2 HQ]. by rewrite Hc2.
Qed.

Lemma silent_ret {A} (a : A) (Q : A -> Prop) : Q a -> silent (mret a) Q.
Proof. intros HQ w. split; [done|]. by intros b [= <-]. Qed.

Lemma silent_weaken {A} (m : XM A) (Q Q' : A -> Prop) : silent m Q -> (forall a, Q a -> Q' a) -> silent m Q'.
Proof. intros Hm HQ w. destruct (Hm w). eauto. Qed.

Lemma silent_any {A} (m : XM A) Q : silent m Q -> silent m (fun _ => True).
Proof. intros. by eapply silent_weaken. Qed.

Lemma silent_fail {A} code (Q : A -> Prop) : silent (fail code) Q.
Proof. by intros w. Qed.

Lemma silent_guard ok code : silent (guard ok code) (fun _ => ok = true).
Proof. destruct ok; [by apply silent_ret|apply silent_fail]. Qed.

Lemma silent_liftR {A} (r : result xexc A) : silent (liftR r) (fun a => r = Ok a).
Proof. intros w. split; [done|]. by intros a. Qed.

Lemma silent_atomic {A} (f : xstore -> xstore * result xexc A) :
  silent (atomic f) (fun a => exists s, (f s).2 = Ok a).
Proof.
  intros w. unfold atomic. destruct (f _) as [s r] eqn:E. split; [done|]. cbn [snd]. intros a ->.
  exists (x_others (xw_steps w) (xw_store w)). by rewrite E.
Qed.

Lemma silent_read {A} (f : xstore -> result xexc A) : silent (atomic_read f) (fun a => exists s, f s = Ok a).
Proof. apply silent_atomic. Qed.

Lemma silent_write {A} (f : xstore -> xstore * A) : silent (atomic_write f) (fun _ => True).
Proof. eapply silent_any, silent_atomic. Qed.

Lemma silent_clock : silent x_clock (fun now => exists t, now = x_now t).
Proof. intros w. split; [done|]. intros a [= <-]. eauto. Qed.

Lemma silent_id prefix : silent (x_id prefix) (fun _ => True).
Proof. by intros w. Qed.

Lemma silent_emit task ty payload : silent (emit task ty payload) (fun _ => True).
Proof. by intros w. Qed.

(** The conditions an intent must meet. *)
Definition verified (i : ExportIntent) (token : string) (version : Z) (mode : option ExportMode)
    (task_id : option string) : Prop :=
  (forall t, task_id = Some t -> xi_task_id i = t) /\ (forall m, mode = Some m -> m = xi_mode i) /\
  confirmation_token i = token /\ xi_consumed_at i = None /\ (exists t, x_now t < xi_expires_at i)%Z /\
  version = xi_task_version i.

Lemma verify_intent_silent i token version mode task_id :
  silent (verify_intent i token version mode task_id) (fun _ => verified i token version mode task_id).
Proof.
  unfold verify_intent. eapply silent_bind; [apply silent_guard|]. intros ? H1'.
  eapply silent_bind; [apply silent_guard|]. intros ? H2'. eapply silent_bind; [apply silent_guard|]. intros ? H3'.
  eapply silent_bind; [apply silent_guard|]. intros ? H4'. eapply silent_bind; [apply silent_clock|]. intros now [t ->].
  eapply silent_bind; [apply silent_guard|]. intros ? H5'. eapply silent_weaken; [apply silent_guard|].
  intros ? H6'. apply Z.eqb_eq in H6'. apply Z.ltb_lt in H5'. apply String.eqb_eq in H3'.
  unfold consumed in H4'. split_and!.
  - intros t' ->. by apply bool_decide_eq_true in H1'.
  - intros m ->. by apply bool_decide_eq_true in H2'.
  - done.
  - destruct (xi_consumed_at i); [|done]. rewrite bool_decide_eq_true_2 in H4'; [done|by eexists].
  - eauto.
  - done.
Qed.

(** The document is the current one and the one that was previewed. *)
Definition previewed (i : ExportIntent) (owner_id : string) (version : Z) (d : ExportDocument) : Prop :=
  exists n source, x_source n (xi_task_id i) owner_id = Ok source /\ xs_task_status source = "COMPLETED" /\
    xs_task_version source = version /\ xs_document_id source = xi_document_id i /\
    xs_document_version source = xi_document_version i /\
    format (xs_markdown source) (xs_document_version source) (xs_unresolved_items source) = Ok d /\
    xd_content_hash d = xi_content_hash i.

Lemma confirmed_document_silent i owner_id version :
  silent (confirmed_document i owner_id version) (previewed i owner_id version).
Proof.
  unfold confirmed_document, current_source, format_source.
  eapply (silent_bind _ (fun source => (exists n, x_source n (xi_task_id i) owner_id = Ok source) /\
    xs_task_status source = "COMPLETED" /\ xs_task_version source = version)).
  { eapply (silent_bind _ (fun _ => True)); [by intros w|]. intros n _.
    eapply silent_bind; [apply silent_liftR|]. intros source Hs.
    eapply silent_bind; [apply silent_guard|]. intros ? Hc%bool_decide_eq_true.
    eapply silent_bind; [apply silent_guard|]. intros ? Hv%Z.eqb_eq. apply silent_ret. split_and!; [by exists n|done|done]. }
  intros source ([n Hn] & Hc & Hv). eapply silent_bind; [apply silent_liftR|]. intros d Hd.
  eapply silent_bind; [apply silent_guard|]. intros ? Hg. apply silent_ret.
  apply andb_true_iff in Hg as [[Hid%bool_decide_eq_true Hdv%Z.eqb_eq]%andb_true_iff Hh%bool_decide_eq_true].
  exists n, source. split_and!; try done. by destruct (format _ _ _); simplify_eq.
Qed.

(** The gateway operation fits the mode of the intent. *)
Definition operation_fits (i : ExportIntent) (owner_id : string) (op : gateway_operation) : Prop :=
  match xi_mode i with
  | ExportMode.CREATE => op = CreateDocument
  | ExportMode.OVERWRITE_BOUND => exists b s, get_binding (xi_task_id i) owner_id s = Some b /\
      op = OverwriteDocument (db_external_id b) (db_provider_revision b)
  end.

Definition confirmed_call (intent_id token owner_id : string) (version : Z) (key : string)
    (mode : option ExportMode) (task_id : option string) (c : gateway_call) : Prop :=
  exists i s, x_intents s !! intent_id = Some i /\ xi_owner_id i = owner_id /\
    verified i token version mode task_id /\ previewed i owner_id version (gc_document c) /\
    operation_fits i owner_id (gc_operation c) /\ gc_idempotency_key c = key.

Section at_most_one.
Context (calls0 : list gateway_call) (allowed : gateway_call -> Prop).

Definition at_most_one (w : xworld) : Prop :=
  xw_calls w = calls0 \/ exists c, xw_calls w = calls0 ++ [c] /\ allowed c.

Definition bounded {A} (m : XM A) : Prop :=
  hoare (fun w => xw_calls w = calls0) m (fun _ => at_most_one) (fun _ => at_most_one).

Lemma bounded_silent {A} (m : XM A) Q : silent m Q -> bounded m.
Proof.
  intros Hm w Hw. destruct (Hm w) as [Hc _]. destruct (m w) as [w' [a|e]]; left; cbn in Hc; congruence.
Qed.

Lemma bounded_bind {A B} (m : XM A) R (k : A -> XM B) :
  silent m R -> (forall a, R a -> bounded (k a)) -> bounded (x ← m; k x).
Proof.
  intros Hm Hk w Hw. destruct (Hm w) as [Hc HR]. unfold mbind, M_bind.
  destruct (m w) as [w1 [a|e]]; cbn [fst snd] in *; [|left; congruence]. apply Hk; [by apply HR|congruence].
Qed.

(** After the one call only silent computations follow. *)
Lemma bounded_then {A B} (m : XM A) (k : A -> XM B) :
  bounded m -> (forall a, silent (k a) (fun _ => True)) -> bounded (x ← m; k x).
Proof.
  intros Hm Hk w Hw. specialize (Hm w Hw). unfold mbind, M_bind.
  destruct (m w) as [w1 [a|e]]; [|done]. destruct (Hk a w1) as [Hc _].
  unfold at_most_one in *. destruct (k a w1) as [w2 [b|e]]; cbn in *; by rewrite Hc.
Qed.

Lemma deliver_bounded i owner_id key d b run :
  mode_fits (xi_mode i) b = true ->
  (forall op, gateway_operation_of (xi_mode i) b = Ok op -> allowed (mkGatewayCall op d key)) ->
  bounded (deliver i owner_id key d b run).
Proof.
  intros Hfit Hall. unfold deliver. eapply bounded_bind; [apply silent_liftR|]. intros op Hop.
  apply bounded_then.
  - intros w Hw. unfold call_gateway. destruct (x_gateway _ _); right; cbn; rewrite Hw; eauto.
  - intros result. eapply (silent_bind _ (fun _ => True)).
    { unfold updated_binding. repeat case_match; try by apply silent_ret.
      all: eapply silent_bind; [apply silent_id|]; intros; by apply silent_ret. }
    intros b' _. eapply silent_bind; [apply silent_atomic|]. intros ? _.
    eapply silent_bind; [apply silent_clock|]. intros now _. by apply silent_ret.
Qed.

Lemma try_deliver_bounded i owner_id key d b run :
  bounded (deliver i owner_id key d b run) -> bounded (try_deliver i owner_id key d b run).
Proof.
  intros Hd w Hw. specialize (Hd w Hw). unfold try_deliver.
  destruct (deliver _ _ _ _ _ _ w) as [w' [r|[code retryable|e]]]; exact Hd.
Qed.

Lemma settle_intent_silent i owner_id run : silent (settle_intent i owner_id run) (fun _ => True).
Proof.
  unfold settle_intent. case_match.
  - eapply silent_bind; [apply silent_write|]. intros ? _. by apply silent_ret.
  - eapply silent_bind; [apply silent_clock|]. intros now _. eapply silent_bind; [apply silent_write|].
    intros [] _; [by apply silent_ret|]. eapply silent_bind; [apply silent_clock|]. intros t _. by apply silent_ret.
Qed.

Lemma perform_export_bounded i owner_id key h d b run :
  mode_fits (xi_mode i) b = true ->
  (forall op, gateway_operation_of (xi_mode i) b = Ok op -> allowed (mkGatewayCall op d key)) ->
  bounded (perform_export i owner_id key h d b run).
Proof.
  intros Hfit Hall. unfold perform_export. eapply bounded_bind; [apply silent_clock|]. intros now _.
  eapply bounded_bind; [apply silent_write|]. intros [] _; simpl negb; cbv iota.
  - eapply bounded_bind; [apply silent_emit|]. intros ? _.
    apply bounded_then; [by apply try_deliver_bounded, deliver_bounded|]. intros r.
    eapply silent_bind; [apply settle_intent_silent|]. intros r' _.
    eapply silent_bind; [apply silent_atomic|]. intros ? _. eapply silent_bind; [apply silent_emit|].
    intros ? _. by apply silent_ret.
  - eapply bounded_silent. eapply silent_bind; [apply silent_clock|]. intros t _.
    eapply silent_bind; [apply silent_atomic|]. intros ? _. apply (silent_fail _ (fun _ => True)).
Qed.
End at_most_one.

End calls.

(** * Exclusive use of an export intent

    The store as its clients see it: sequences of locked operations.  A claim
    excludes every other claimant until it expires, its holder can consume the
    intent, and a consumed intent is never claimed or consumed again. *)

(** The operations that change the store. *)
Inductive store_op : Type :=
  | OpSaveIntent (i : ExportIntent)
  | OpBeginPreview (owner_id key input_hash : string) (i : ExportIntent)
  | OpSavePreviewReplay (owner_id key input_hash : string) (i : ExportIntent)
  | OpSaveBinding (b : ExternalDocumentBinding)
  | OpSaveRun (r : ExportRun)
  | OpBeginRun (owner_id key input_hash : string) (r : ExportRun)
  | OpSaveReplay (owner_id key input_hash : string) (r : ExportRun)
  | OpClaim (intent_id owner_id claim_id : string) (now expires : Z)
  | OpRelease (intent_id owner_id claim_id : string)
  | OpConsume (intent_id owner_id claim_id : string) (consumed_at : Z).

Definition apply_op (op : store_op) (s : xstore) : xstore :=
  match op with
  | OpSaveIntent i => save_intent i s
  | OpBeginPreview o k h i => (begin_preview o k h i s).1
  | OpSavePreviewReplay o k h i => (save_preview_replay o k h i s).1
  | OpSaveBinding b => (save_binding b s).1
  | OpSaveRun r => save_run r s
  | OpBeginRun o k h r => (begin_run o k h r s).1
  | OpSaveReplay o k h r => (save_replay o k h r s).1
  | OpClaim id o c now e => (claim_intent id o c now e s).1
  | OpRelease id o c => release_intent_claim id o c s
  | OpConsume id o c t => (consume_claimed_intent id o c t s).1
  end.

Definition run_ops (ops : list store_op) (s : xstore) : xstore := foldl (fun s op => apply_op op s) s ops.

(** [op] does not write a new intent under [id]: identifiers of intents are
    drawn fresh. *)
Definition keeps_intent (id : string) (op : store_op) : Prop :=
  match op with
  | OpSaveIntent i | OpBeginPreview _ _ _ i => xi_intent_id i <> id
  | _ => True
  end.

(** [op] is the act of somebody else than the claimant [a] of [id], at a time
    before [e]. *)
Definition foreign (id a : string) (e : Z) (op : store_op) : Prop :=
  keeps_intent id op /\
  match op with
  | OpClaim id' _ c now _ => id' = id -> c <> a /\ (now < e)%Z
  | OpRelease id' _ c | OpConsume id' _ c _ => id' = id -> c <> a
  | _ => True
  end.

Lemma run_ops_ind (P : xstore -> Prop) (Q : store_op -> Prop) ops s :
  (forall op s, Q op -> P s -> P (apply_op op s)) -> Forall Q ops -> P s -> P (run_ops ops s).
Proof.
  intros Hstep Hops. revert s. induction Hops as [|op ops Hop _ IH]; intros s Hs; [done|].
  apply IH. by apply Hstep.
Qed.

Lemma dict_lookup_delete_ne {K V} `{EqDecision K} (d : dict K V) (k k' : K) : k ≠ k' -> delete k d !! k' = d !! k'.
Proof.
  intros Hne. unfold lookup, dict_lookup, delete, dict_delete. simpl. destruct d as [l]. simpl.
  induction l as [|[k1 v] l IH]; [done|]. simpl. repeat (case_decide; simpl; simplify_eq); done.
Qed.

(** An operation leaves the claims and the intents of the others alone. *)
Definition touches (op : store_op) : option string :=
  match op with
  | OpSaveIntent i | OpBeginPreview _ _ _ i => Some (xi_intent_id i)
  | OpClaim id _ _ _ _ | OpRelease id _ _ | OpConsume id _ _ _ => Some id
  | _ => None
  end.

Lemma apply_op_untouched op s id :
  touches op <> Some id ->
  x_intents (apply_op op s) !! id = x_intents s !! id /\
  x_intent_claims (apply_op op s) !! id = x_intent_claims s !! id.
Proof.
  destruct op; simpl; intros Hne.
  - split; [|done]. apply dict_lookup_insert_ne. congruence.
  - unfold begin_preview. repeat case_match; simpl; try done. split; [|done]. apply dict_lookup_insert_ne. congruence.
  - unfold save_preview_replay. by repeat case_match.
  - unfold save_binding. by repeat case_match.
  - done.
  - unfold begin_run. by repeat case_match.
  - unfold save_replay. by repeat case_match.
  - unfold claim_intent. repeat case_match; simpl; try done; (split; [done|]; apply dict_lookup_insert_ne; congruence).
  - unfold release_intent_claim. case_match; [|done]. split; [done|]. simpl. apply dict_lookup_delete_ne. congruence.
  - unfold consume_claimed_intent. repeat case_match; simpl; try done.
    split; [apply dict_lookup_insert_ne|apply dict_lookup_delete_ne]; congruence.
Qed.

(** ** Held claims *)

Definition held (id owner a : string) (e : Z) (s : xstore) : Prop :=
  (exists i, x_intents s !! id = Some i /\ xi_consumed_at i = None) /\
  x_intent_claims s !! id = Some (owner, a, e).

Lemma claim_gives_held id owner a now e s s' :
  claim_intent id owner a now e s = (s', true) -> held id owner a e s'.
Proof.
  unfold claim_intent, consumed. destruct (x_intents s !! id) as [i|] eqn:Ei; [|done].
  destruct (negb _ || _) eqn:Hg; [done|]. apply orb_false_iff in Hg as [_ Hc%bool_decide_eq_false].
  case_match; [done|]. intros [= <-]. split; [|apply dict_lookup_insert_eq].
  exists i. split; [done|]. by apply eq_None_not_Some.
Qed.

Lemma held_blocks_claim id owner a e s owner' b now e' :
  held id owner a e s -> b <> a -> (now < e)%Z -> claim_intent id owner' b now e' s = (s, false).
Proof.
  intros [(i & Hi & _) Hc] Hb Hnow. unfold claim_intent. rewrite Hi, Hc. case_match; [done|].
  rewrite bool_decide_false by congruence. apply Z.ltb_lt in Hnow. by rewrite Hnow.
Qed.

Lemma held_not_holder id owner a e s owner' b :
  held id owner a e s -> b <> a -> holds_claim id owner' b s = false.
Proof.
  intros [_ Hc] Hb. unfold holds_claim. rewrite Hc, (bool_decide_false (a = b)) by congruence. apply andb_false_r.
Qed.

Lemma held_blocks_consume id owner a e s owner' b t :
  held id owner a e s -> b <> a -> consume_claimed_intent id owner' b t s = (s, false).
Proof.
  intros Hh Hb. pose proof (held_not_holder _ _ _ _ _ owner' _ Hh Hb) as Hn.
  destruct Hh as [(i & Hi & _) _]. unfold consume_claimed_intent. by rewrite Hi, Hn.
Qed.

Lemma held_step id owner a e op s : foreign id a e op -> held id owner a e s -> held id owner a e (apply_op op s).
Proof.
  intros [Hk Hf] Hh. destruct (decide (touches op = Some id)) as [Ht|Ht].
  2: { destruct (apply_op_untouched op s id Ht) as [E1 E2]. unfold held. by rewrite E1, E2. }
  destruct op; simpl in *; simplify_eq; try done.
  - destruct (Hf eq_refl). by erewrite held_blocks_claim.
  - unfold release_intent_claim. by erewrite held_not_holder by eauto.
  - by erewrite held_blocks_consume by eauto.
Qed.

(** ** Spent intents *)

Definition spent (id : string) (s : xstore) : Prop := exists i, x_intents s !! id = Some i /\ is_Some (xi_consumed_at i).

Lemma spent_no_claim id s owner c now e : spent id s -> claim_intent id owner c now e s = (s, false).
Proof.
  intros (i & Hi & Hc). unfold claim_intent, consumed. rewrite Hi, (bool_decide_true (is_Some _)) by done.
  by rewrite orb_true_r.
Qed.

Lemma spent_no_consume id s owner c t : spent id s -> consume_claimed_intent id owner c t s = (s, false).
Proof.
  intros (i & Hi & Hc). unfold consume_claimed_intent, consumed. rewrite Hi, (bool_decide_true (is_Some _)) by done.
  by rewrite andb_false_r.
Qed.

Lemma spent_step id op s : keeps_intent id op -> spent id s -> spent id (apply_op op s).
Proof.
  intros Hk Hs. destruct (decide (touches op = Some id)) as [Ht|Ht].
  2: { destruct (apply_op_untouched op s id Ht) as [E1 _]. unfold spent. by rewrite E1. }
  destruct op; simpl in *; simplify_eq; try done.
  - by rewrite spent_no_claim.
  - unfold release_intent_claim. by case_match.
  - by rewrite spent_no_consume.
Qed.

Lemma held_consume id owner a e s t :
  held id owner a e s -> exists s', consume_claimed_intent id owner a t s = (s', true) /\ spent id s'.
Proof.
  intros [(i & Hi & Hn) Hc]. unfold consume_claimed_intent, holds_claim, consumed.
  rewrite Hi, Hc, Hn, !bool_decide_true, bool_decide_false by (done || by intros [? ?]). eexists. split; [done|].
  exists (mark_consumed t i). split; [apply dict_lookup_insert_eq|by eexists].
Qed.

(** an export intent is used by one run.  After a successful claim, and
    whatever others do to the store before the claim expires, no other run can
    claim or consume the intent and the holder's own consumption succeeds; from
    then on, for ever, every claim and every consumption of the intent is
    refused, the former holder's included. *)
Theorem intent_claim_exclusive (id owner a : string) (now e : Z) (s s1 : xstore) (ops : list store_op) :
  claim_intent id owner a now e s = (s1, true) -> Forall (foreign id a e) ops ->
  let s2 := run_ops ops s1 in
  (forall owner' b now' e', b <> a -> (now' < e)%Z -> claim_intent id owner' b now' e' s2 = (s2, false)) /\
  (forall owner' b t, b <> a -> consume_claimed_intent id owner' b t s2 = (s2, false)) /\
  forall t, exists s3, consume_claimed_intent id owner a t s2 = (s3, true) /\
    forall ops', Forall (keeps_intent id) ops' ->
      let s4 := run_ops ops' s3 in
      (forall owner' b now' e', claim_intent id owner' b now' e' s4 = (s4, false)) /\
      (forall owner' b t', consume_claimed_intent id owner' b t' s4 = (s4, false)).
Proof.
  intros Hclaim Hops s2. assert (Hh : held id owner a e s2).
  { eapply run_ops_ind; [|exact Hops|by eapply claim_gives_held]. intros ?? ? ?. by apply held_step. }
  split_and!; intros; [by eapply held_blocks_claim|by eapply held_blocks_consume|].
  destruct (held_consume _ _ _ _ _ t Hh) as (s3 & E3 & Hs3). exists s3. split; [done|]. intros ops' Hops' s4.
  assert (Hs4 : spent id s4) by (eapply run_ops_ind; [|exact Hops'|done]; intros; by apply spent_step).
  split; intros; [by apply spent_no_claim|by apply spent_no_consume].
Qed.
