(* ===== verification/ExportOnce.v ===== *)
(** * One export per idempotency key

    The owner's idempotency key is bound to the hash of the first request that
    starts a run under it.  Every later request with that key is answered from
    the store, without calling the provider, whatever other threads do. *)
From stdpp Require Import base list sets strings pretty.
From Stdlib Require Import ZArith Lia.
From S2P Require Import Prelude.
From S2P Require Import PyDict.
From S2P Require Import PyText.
From S2P Require Import Json.
From S2P Require Import CanonicalJson.
From S2P Require Import Formatter.
From S2P Require Import Export.
From S2P Require Import Hoare.
From S2P Require Import ExportFacts.

(** Other threads use the store through its operations. *)
Class StoreClients `{ExportEnv} : Prop := clients_ops n s : exists ops, x_others n s = run_ops ops s.

(** What a client sends with an idempotency key. *)
Record export_request := mkExportRequest {
  rq_intent_id : string;
  rq_token : string;
  rq_task_version : Z;
  rq_mode : option ExportMode;
  rq_task_id : option string
}.

Section once.
Context `{Builtins} `{UnicodeDigits} `{ExportEnv}.
Context (owner key : string).

Definition request_hash (q : export_request) : string :=
  execute_hash (rq_intent_id q) owner (rq_task_version q) (rq_task_id q).

Definition execute_request (q : export_request) : XM ExportRun :=
  execute_export (rq_intent_id q) (rq_token q) owner (rq_task_version q) key (rq_mode q) (rq_task_id q).

(** Requests one after another; a failed one does not stop the client. *)
Definition execute_requests (qs : list export_request) (w : xworld) : xworld :=
  foldl (fun w q => (execute_request q w).1) w qs.

(** The hash of a request identifies what it asks for, unless SHA-256 collides;
    the mode and the token are not part of it. *)
Lemma request_hash_identifies q q' :
  (forall s t, sha256_hex s = sha256_hex t -> s = t) -> request_hash q = request_hash q' ->
  rq_intent_id q = rq_intent_id q' /\ rq_task_version q = rq_task_version q' /\ rq_task_id q = rq_task_id q'.
Proof.
  intros Hinj E. unfold request_hash, execute_hash in E.
  apply sha256_json_injective in E; [|done|by destruct (rq_task_id q)|by destruct (rq_task_id q')].
  cbn in E. injection E as Ht Hi Hv. by destruct (rq_task_id q), (rq_task_id q'); simplify_eq/=.
Qed.

(** The key is bound to the request hash [h] and its run is stored. *)
Definition bound (h : string) (s : xstore) : Prop :=
  exists id r, x_replays s !! (owner, key) = Some (h, id) /\ x_runs s !! id = Some r.

Lemma runs_insert_bound s id0 r0 id :
  is_Some (x_runs s !! id) -> is_Some (<[id0 := r0]> (x_runs s) !! id).
Proof. apply dict_insert_is_Some. Qed.

Lemma bound_save_run h s r : bound h s -> bound h (save_run r s).
Proof.
  intros (id & r0 & Hr & Hi). destruct (runs_insert_bound s (xr_export_run_id r) r id) as [r1 ?]; [by eexists|].
  by exists id, r1.
Qed.

(** Writing a replay: of another key, or of the same key and hash. *)
Lemma bound_set_replay h s k h' r :
  bound h s -> (k = (owner, key) -> h' = h) ->
  bound h (set_replays (<[k := (h', xr_export_run_id r)]> (x_replays s)) (save_run r s)).
Proof.
  intros Hb Hk. destruct (bound_save_run _ _ r Hb) as (id & r1 & Hr & Hi). destruct (decide (k = (owner, key))) as [->|Hne].
  - rewrite Hk by done. exists (xr_export_run_id r), r. split; [apply dict_lookup_insert_eq|]. apply dict_lookup_insert_eq.
  - exists id, r1. split; [|done]. etransitivity; [by apply dict_lookup_insert_ne|done].
Qed.

Lemma bound_op h op s : bound h s -> bound h (apply_op op s).
Proof.
  intros Hb. destruct op as [ | | | |r|o k h' r|o k h' r| | | ]; simpl.
  - done.
  - unfold begin_preview. by repeat case_match.
  - unfold save_preview_replay. by repeat case_match.
  - unfold save_binding. by repeat case_match.
  - by apply bound_save_run.
  - unfold begin_run. case_match; [by repeat case_match|]. simpl. apply bound_set_replay; [done|].
    intros [= -> ->]. destruct Hb as (? & ? & ? & _). congruence.
  - unfold save_replay. repeat case_match; simpl; subst; try done; apply bound_set_replay; try done;
      intros [= -> ->]; destruct Hb as (? & ? & ? & _); congruence.
  - unfold claim_intent. by repeat case_match.
  - unfold release_intent_claim. by case_match.
  - unfold consume_claimed_intent. by repeat case_match.
Qed.

Context `{!StoreClients}.

Lemma bound_others h n s : bound h s -> bound h (x_others n s).
Proof.
  intros Hb. destruct (clients_ops n s) as [ops ->].
  apply (run_ops_ind (bound h) (fun _ => True)); [|by apply Forall_true|done]. intros op s' _. apply bound_op.
Qed.

(** ** Computations that keep the binding *)

Definition stable {A} (m : XM A) : Prop := forall h w, bound h (xw_store w) -> bound h (xw_store (m w).1).

Lemma stable_bind {A B} (m : XM A) (k : A -> XM B) : stable m -> (forall a, stable (k a)) -> stable (x ← m; k x).
Proof.
  intros Hm Hk h w Hw. specialize (Hm h w Hw). unfold mbind, M_bind.
  destruct (m w) as [w1 [a|e]]; [by apply Hk|done].
Qed.

Lemma stable_ret {A} (a : A) : stable (mret a).
Proof. by intros h w. Qed.

Lemma stable_op {A} (f : xstore -> xstore * result xexc A) :
  (forall s, exists op, (f s).1 = apply_op op s) -> stable (atomic f).
Proof.
  intros Hf h w Hw. unfold atomic. destruct (Hf (x_others (xw_steps w) (xw_store w))) as [op Hop].
  destruct (f _) as [s r]. simpl in *. subst s. by apply bound_op, bound_others.
Qed.

Lemma stable_write {A} (f : xstore -> xstore * A) :
  (forall s, exists op, (f s).1 = apply_op op s) -> stable (atomic_write f).
Proof. intros Hf. apply stable_op. intros s. destruct (Hf s) as [op ?]. exists op. by destruct (f s). Qed.

Lemma stable_deliver i d b run : stable (deliver i owner key d b run).
Proof.
  unfold deliver. apply stable_bind; [by intros h w|]. intros op. apply stable_bind; [by intros h w|]. intros res.
  apply stable_bind; [by unfold updated_binding; repeat case_match; intros h w|]. intros b'.
  apply stable_bind; [|intros; apply stable_bind; by intros h w].
  apply stable_op. intros s. by exists (OpSaveBinding b').
Qed.

Lemma stable_try_deliver i d b run : stable (try_deliver i owner key d b run).
Proof.
  intros h w Hw. pose proof (stable_deliver i d b run h w Hw) as Hd. unfold try_deliver.
  destruct (deliver _ _ _ _ _ _ w) as [w' [r|[code retryable|e]]]; exact Hd.
Qed.

Lemma stable_settle i run : stable (settle_intent i owner run).
Proof.
  unfold settle_intent. case_match; (apply stable_bind; [|intros]).
  - apply stable_write. intros s. by exists (OpRelease (xi_intent_id i) owner (xr_export_run_id run)).
  - by intros h w.
  - by intros h w.
  - apply stable_bind; [|intros []; by intros h w].
    apply stable_write. intros s. by eexists (OpConsume _ _ _ _).
Qed.

Lemma stable_perform i h' d b run : stable (perform_export i owner key h' d b run).
Proof.
  unfold perform_export. apply stable_bind; [by intros h w|]. intros now. apply stable_bind.
  { apply stable_write. intros s. by eexists (OpClaim _ _ _ _ _). }
  assert (Hsave : forall r, stable (atomic (save_replay owner key h' r))).
  { intros r. apply stable_op. intros s. by exists (OpSaveReplay owner key h' r). }
  intros []; simpl negb; cbv iota.
  - apply stable_bind; [by intros h w|]. intros _. apply stable_bind; [apply stable_try_deliver|]. intros r.
    apply stable_bind; [apply stable_settle|]. intros r'. apply stable_bind; [apply Hsave|]. intros _. by intros h w.
  - apply stable_bind; [by intros h w|]. intros t. apply stable_bind; [apply Hsave|]. by intros ? h w.
Qed.

(** ** The first call binds the key *)

Definition binds {A} (m : XM A) : Prop := forall w,
  xw_calls (m w).1 = xw_calls w \/
  exists h c, bound h (xw_store (m w).1) /\ xw_calls (m w).1 = xw_calls w ++ [c].

Lemma binds_bind {A B} (m : XM A) R (k : A -> XM B) :
  silent m R -> (forall a, R a -> binds (k a)) -> binds (x ← m; k x).
Proof.
  intros Hm Hk w. destruct (Hm w) as [Hc HR]. unfold mbind, M_bind.
  destruct (m w) as [w1 [a|e]]; cbn [fst snd] in *; [|by left]. rewrite <- Hc. by apply Hk, HR.
Qed.

Lemma binds_silent {A} (m : XM A) Q : silent m Q -> binds m.
Proof. intros Hm w. left. apply Hm. Qed.

Lemma binds_run h i d b run :
  mode_fits (xi_mode i) b = true ->
  binds (c ← atomic (begin_run owner key h run);
         match c with Some other => mret other | None => perform_export i owner key h d b run end).
Proof.
  intros Hfit w. unfold mbind, M_bind, atomic.
  set (s := x_others (xw_steps w) (xw_store w)). unfold begin_run.
  destruct (x_replays s !! (owner, key)) as [[h0 id]|] eqn:Er.
  { left. case_decide; [|done]. unfold stored_run. by destruct (x_runs s !! id). }
  match goal with |- context [perform_export _ _ _ _ _ _ _ ?x] => set (w1 := x) end.
  assert (Hb1 : bound h (xw_store w1)).
  { exists (xr_export_run_id run), run. split; apply dict_lookup_insert_eq. }
  pose proof (stable_perform i h d b run h w1 Hb1) as Hb2.
  pose proof (perform_export_bounded (xw_calls w1) (fun _ => True) i owner key h d b run Hfit (fun _ _ => I) w1 eq_refl) as Hc.
  change (xw_calls w) with (xw_calls w1). destruct (perform_export _ _ _ _ _ _ _ w1) as [w2 [a|e]];
    destruct Hc as [Hc|(c & Hc & _)]; cbn in *; eauto.
Qed.

Lemma execute_binds q : binds (execute_request q).
Proof.
  unfold execute_request, execute_export. eapply binds_bind; [apply silent_read|]. intros [[h run]|] _.
  { eapply binds_silent. eapply silent_bind; [apply silent_guard|]. intros ? _. by apply (silent_ret _ (fun _ => True)). }
  eapply binds_bind; [apply silent_read|]. intros i _. eapply binds_bind; [apply verify_intent_silent|]. intros ? _.
  eapply binds_bind; [apply confirmed_document_silent|]. intros d _. eapply binds_bind; [apply silent_read|].
  intros b _. eapply binds_bind; [apply silent_guard|]. intros ? Hfit. eapply binds_bind; [apply silent_id|].
  intros id _. eapply binds_bind; [apply silent_clock|]. intros t _. cbv zeta. by apply binds_run.
Qed.

(** ** A bound key replays *)

Lemma execute_bound q h w : bound h (xw_store w) ->
  exists r, let w' := (execute_request q w).1 in
    bound h (xw_store w') /\ xw_calls w' = xw_calls w /\ xw_events w' = xw_events w /\
    (exists id, x_replays (xw_store w') !! (owner, key) = Some (h, id) /\ x_runs (xw_store w') !! id = Some r) /\
    (execute_request q w).2 = if decide (h = request_hash q) then Ok r
                              else integration IntegrationErrorCode.IDEMPOTENCY_CONFLICT.
Proof.
  intros Hb. apply (bound_others h (xw_steps w)) in Hb. destruct (Hb) as (id & r & Hr & Hi). exists r.
  unfold execute_request, execute_export, atomic_read, atomic, get_replay, stored_run, mbind, M_bind, result_bind, request_hash.
  rewrite Hr, Hi. unfold guard, fail, raise, mret, M_ret. destruct (decide _) as [E|E].
  - rewrite bool_decide_true by done. simpl. split_and!; eauto.
  - rewrite bool_decide_false by done. simpl. split_and!; eauto.
Qed.

Lemma execute_requests_bound qs h w :
  bound h (xw_store w) ->
  bound h (xw_store (execute_requests qs w)) /\ xw_calls (execute_requests qs w) = xw_calls w.
Proof.
  revert w. induction qs as [|q qs IH]; intros w Hb; [done|]. simpl.
  destruct (execute_bound q h w Hb) as (r & Hb' & Hc & _). destruct (IH _ Hb') as [? Hc']. by rewrite Hc', Hc.
Qed.

End once.
