(* ===== verification/ExportDemo.v ===== *)
(** * Exports on concrete inputs

    A completed task with a small document, its preview and its export, a
    replayed request, and an export whose answer is lost. *)
From stdpp Require Import base list sets strings pretty.
From Stdlib Require Import ZArith.
From S2P Require Import Prelude.
From S2P Require Import PyDict.
From S2P Require Import PyText.
From S2P Require Import Json.
From S2P Require Import Formatter.
From S2P Require Import Export.
From S2P Require Import ExportFacts.
From S2P Require Import ExportOnce.
Open Scope string_scope.

#[local] Existing Instance example_builtins.
#[local] Instance demo_digits : UnicodeDigits := fun _ => None.

Definition demo_source : ExportSourceSnapshot :=
  mkExportSource "task" "alice" "COMPLETED" 3 "doc" 1 ("# Title" +:+ newline +:+ "text" +:+ newline) [].

(** The provider answers, or its first answer is lost. *)
Definition demo_env (lossy : bool) : ExportEnv := {|
  x_uuid4_hex n := pretty n;
  x_now n := Z.of_nat n;
  x_source _ _ _ := Ok demo_source;
  x_gateway calls c :=
    if lossy && bool_decide (calls = []) then Raise (IntegrationError IntegrationErrorCode.RESULT_UNKNOWN true)
    else Ok (mkProviderResult "ext-1" "https://docs/ext-1" "Title" (Some "1"));
  x_capability := CreateCapability.RECONCILABLE;
  x_hmac s := "hmac:" +:+ s;
  x_isoformat t := pretty t;
  x_intent_ttl := 600;
  x_others _ s := s
|}.

Lemma demo_clients lossy : StoreClients (H := demo_env lossy).
Proof. intros n s. by exists []. Qed.

Definition empty_xworld : xworld := mkXWorld (mkXStore ∅ ∅ ∅ ∅ ∅ ∅) [] [] 0 0 0.

Definition demo_preview (lossy : bool) (key : string) : XM ExportPreview :=
  preview (H1 := demo_env lossy) "task" "alice" ExportMode.CREATE 3 (Some key).

(** Two previews of the same document, before anything is exported. *)
Definition previewed_world (lossy : bool) : xworld :=
  (demo_preview lossy "p2" (demo_preview lossy "p1" empty_xworld).1).1.

Definition token_of (lossy : bool) (id : string) : string :=
  match x_intents (xw_store (previewed_world lossy)) !! id with
  | Some i => confirmation_token (H1 := demo_env lossy) i
  | None => ""
  end.

Definition demo_execute (lossy : bool) (intent key : string) : XM ExportRun :=
  execute_export (H1 := demo_env lossy) intent (token_of lossy intent) "alice" 3 key (Some ExportMode.CREATE) (Some "task").

Definition first_execution (lossy : bool) := demo_execute lossy "export-intent-0" "k1" (previewed_world lossy).

(** The document is created once, and a second request under the same key is
    answered by the stored run. *)
Example export_then_replay :
  let w1 := (first_execution false).1 in
  length (xw_calls w1) = 1 /\
  (match (first_execution false).2 with Ok r => xr_status r = ExportRunStatus.SUCCEEDED | _ => False end) /\
  (demo_execute false "export-intent-0" "k1" w1).2 = (first_execution false).2 /\
  xw_calls (demo_execute false "export-intent-0" "k1" w1).1 = xw_calls w1.
Proof. vm_compute. done. Qed.

(** A lost answer, then the other confirmed preview: the same version of the
    same task is created a second time, under the second request's key. *)
Example lost_answer_creates_twice :
  let w1 := (first_execution true).1 in
  let w2 := (demo_execute true "export-intent-1" "k2" w1).1 in
  (match (first_execution true).2 with Ok r => xr_status r = ExportRunStatus.RESULT_UNKNOWN | _ => False end) /\
  exists d, xw_calls w2 = [mkGatewayCall CreateDocument d "k1"; mkGatewayCall CreateDocument d "k2"].
Proof. vm_compute. split; [done|]. eexists. done. Qed.

(** ** Witnesses *)


Definition demo_requests : list export_request :=
  [mkExportRequest "export-intent-0" "wrong" 3 None None;
   mkExportRequest "export-intent-0" (token_of false "export-intent-0") 3 None None].

Definition demo_other_request : export_request := mkExportRequest "export-intent-1" "" 3 None None.


Definition rival_ops : list store_op :=
  [OpClaim "export-intent-0" "alice" "run-b" 6 606; OpRelease "export-intent-0" "alice" "run-b"].

Lemma rival_ops_foreign : Forall (foreign "export-intent-0" "run-a" 605) rival_ops.
Proof. repeat constructor; done. Qed.

Lemma intent_claim_exclusive_witness :
  let s1 := (claim_intent "export-intent-0" "alice" "run-a" 5 605 (xw_store (previewed_world false))).1 in
  let s2 := run_ops rival_ops s1 in
  claim_intent "export-intent-0" "alice" "run-b" 7 607 s2 = (s2, false) /\
  exists s3, consume_claimed_intent "export-intent-0" "alice" "run-a" 8 s2 = (s3, true) /\
    claim_intent "export-intent-0" "alice" "run-b" 900 1500 s3 = (s3, false).
Proof.
  assert (E : claim_intent "export-intent-0" "alice" "run-a" 5 605 (xw_store (previewed_world false)) =
    ((claim_intent "export-intent-0" "alice" "run-a" 5 605 (xw_store (previewed_world false))).1, true)) by (vm_compute; reflexivity).
  destruct (intent_claim_exclusive "export-intent-0" "alice" "run-a" 5 605 _ _ rival_ops E rival_ops_foreign)
    as (Hc & _ & Hu). intros s1 s2.
  split; [exact (Hc "alice" "run-b" 7%Z 607%Z ltac:(done) ltac:(done))|].
  destruct (Hu 8%Z) as (s3 & E3 & Hs). exists s3. split; [exact E3|].
  destruct (Hs [] (List.Forall_nil _)) as [Hn _]. exact (Hn "alice" "run-b" 900%Z 1500%Z).
Defined.
