(* ===== verification/Ledger.v ===== *)
(** * The run execution ledger

    [agent/runtime/budget.py], [idempotency.py], [outcomes.py], [reconcile.py]
    and [ledger.py] of agent-python: every remote call of a worker is reserved,
    announced, performed and settled through a ledger whose entries and outcome
    artifacts are acknowledged by a durable store before the worker goes on, so
    that a restarted worker never repeats a call.

    The durable store is the one of backend-go (runcontrol/memory_store.go): one
    entry per operation key, moved from RESERVED over CALL_STARTED to a final
    status.  A message to it can be lost, or be applied without its
    acknowledgement arriving; rejections for other reasons (an expired lease,
    the store's own limits) count as lost. *)
From stdpp Require Import base list sets strings pretty.
From Stdlib Require Import ZArith.
From S2P Require Import Prelude.
From S2P Require Import PyDict.
From S2P Require Import PyText.
From S2P Require Import Json.

(** ** [budget.py] *)

(** The names of the fields, in the order of [_LIMITS]. *)
Inductive dim : Type :=
  | MODEL_ATTEMPTS | TOOL_CALLS | ITERATIONS | REPLANS | SUPPLEMENTS | QUALITY_REPAIRS | INPUT_TOKENS
  | OUTPUT_TOKENS | ELAPSED_MS.

Definition dims : list dim :=
  [MODEL_ATTEMPTS; TOOL_CALLS; ITERATIONS; REPLANS; SUPPLEMENTS; QUALITY_REPAIRS; INPUT_TOKENS; OUTPUT_TOKENS;
   ELAPSED_MS].

Record BudgetVector := mkBudget {
  model_attempts : Z;
  tool_calls : Z;
  iterations : Z;
  replans : Z;
  supplements : Z;
  quality_repairs : Z;
  input_tokens : Z;
  output_tokens : Z;
  elapsed_ms : Z
}.

#[global] Instance BudgetVector_eq_dec : EqDecision BudgetVector.
Proof. solve_decision. Defined.

(** [getattr(vector, name)] and a vector built from its named fields. *)
Definition field (d : dim) (v : BudgetVector) : Z :=
  match d with
  | MODEL_ATTEMPTS => model_attempts v | TOOL_CALLS => tool_calls v | ITERATIONS => iterations v
  | REPLANS => replans v | SUPPLEMENTS => supplements v | QUALITY_REPAIRS => quality_repairs v
  | INPUT_TOKENS => input_tokens v | OUTPUT_TOKENS => output_tokens v | ELAPSED_MS => elapsed_ms v
  end.

Definition budget_of (f : dim -> Z) : BudgetVector :=
  mkBudget (f MODEL_ATTEMPTS) (f TOOL_CALLS) (f ITERATIONS) (f REPLANS) (f SUPPLEMENTS) (f QUALITY_REPAIRS)
    (f INPUT_TOKENS) (f OUTPUT_TOKENS) (f ELAPSED_MS).

Definition no_budget : BudgetVector := budget_of (fun _ => 0%Z).
Definition budget_add (a b : BudgetVector) : BudgetVector := budget_of (fun d => (field d a + field d b)%Z).
Definition subtract_floor (a b : BudgetVector) : BudgetVector :=
  budget_of (fun d => Z.max 0 (field d a - field d b)).

(** The message [RunBudget] has one maximum per field; [reason] is the second
    component of [_LIMITS]. *)
Record RunBudget := mkRunBudget { maximum : dim -> Z }.

Definition reason (d : dim) : string :=
  match d with
  | MODEL_ATTEMPTS => "MODEL_ATTEMPT_BUDGET_EXHAUSTED" | TOOL_CALLS => "TOOL_CALL_BUDGET_EXHAUSTED"
  | ITERATIONS => "ITERATION_BUDGET_EXHAUSTED" | REPLANS => "REPLAN_BUDGET_EXHAUSTED"
  | SUPPLEMENTS => "SUPPLEMENT_BUDGET_EXHAUSTED" | QUALITY_REPAIRS => "QUALITY_REPAIR_BUDGET_EXHAUSTED"
  | INPUT_TOKENS => "INPUT_TOKEN_BUDGET_EXHAUSTED" | OUTPUT_TOKENS => "OUTPUT_TOKEN_BUDGET_EXHAUSTED"
  | ELAPSED_MS => "ELAPSED_TIME_BUDGET_EXHAUSTED"
  end.

(** The exceptions of the ledger, of its sink, and of the callbacks. *)
Inductive lexc : Type :=
  | LedgerValueError
  | BudgetExhausted (reason : string)
  | LedgerOutcomeUnknown (operation_key : string)
  | LedgerTerminalFailure (category : string) (retryable : bool)
  | SinkFailure
  | CallbackError (e : exc).

Record BudgetState := mkBudgetState { limits : RunBudget; consumed : BudgetVector; reserved : BudgetVector }.

(** [_check], over the fields in order. *)
Fixpoint check_fields (l : RunBudget) (used requested : BudgetVector) (ds : list dim) : result lexc unit :=
  match ds with
  | [] => Ok tt
  | d :: rest =>
      if (field d requested <? 0)%Z then Raise LedgerValueError
      else if (maximum l d <? field d used + field d requested)%Z then Raise (BudgetExhausted (reason d))
      else check_fields l used requested rest
  end.

Definition check_budget (b : BudgetState) (used requested : BudgetVector) : result lexc unit :=
  check_fields (limits b) used requested dims.

Definition budget_reserve (delta : BudgetVector) (b : BudgetState) : result lexc BudgetState :=
  result_bind (fun _ => Ok (mkBudgetState (limits b) (consumed b) (budget_add (reserved b) delta)))
    (check_budget b (budget_add (consumed b) (reserved b)) delta).

Definition budget_finish (reservation consumption : BudgetVector) (b : BudgetState) : BudgetState :=
  mkBudgetState (limits b) (budget_add (consumed b) consumption) (subtract_floor (reserved b) reservation).

Definition budget_consume (delta : BudgetVector) (b : BudgetState) : result lexc BudgetState :=
  result_bind (fun _ => Ok (mkBudgetState (limits b) (budget_add (consumed b) delta) (reserved b)))
    (check_budget b (consumed b) delta).

Definition budget_remaining (b : BudgetState) : BudgetVector :=
  let used := budget_add (consumed b) (reserved b) in
  budget_of (fun d => Z.max 0 (maximum (limits b) d - field d used)).

(** ** Messages *)

Record RunLedgerEntry := mkEntry {
  le_operation_key : string;
  le_entry_kind : string;
  le_operation : string;
  le_request_hash : string;
  le_status : string;
  le_reservation : BudgetVector;
  le_consumption : option BudgetVector;
  le_output_artifact_key : string;
  le_output_artifact_hash : string;
  le_evidence_refs : list string;
  le_error_category : string;
  le_retryable : bool
}.

Record RunArtifact := mkArtifact {
  ra_artifact_key : string;
  ra_artifact_type : string;
  ra_generation : Z;
  ra_request_hash : string;
  ra_content_hash : string;
  ra_content : string
}.

Record EvidenceItem := mkEvidenceItem {
  ei_source_type : string;
  ei_source_id : string;
  ei_locator : string;
  ei_excerpt_hash : string
}.

Record LedgerCallSpec := mkCallSpec {
  cs_entry_kind : string;
  cs_operation : string;
  cs_operation_key : string;
  cs_request_hash : string;
  cs_reservation : BudgetVector;
  cs_outcome_schema : string
}.

Record LedgerOutcome := mkOutcome {
  lo_value : json;
  lo_artifact : RunArtifact;
  lo_replayed : bool;
  lo_consumption : BudgetVector
}.

(** ** [idempotency.py] *)

Definition key_char (c : Ascii.ascii) : bool :=
  let n := Ascii.nat_of_ascii c in
  ((97 <=? n) && (n <=? 122) || (48 <=? n) && (n <=? 57) || Nat.eqb n 95 || Nat.eqb n 46 || Nat.eqb n 45)%nat.

Fixpoint all_chars (p : Ascii.ascii -> bool) (s : string) : bool :=
  match s with String c s' => p c && all_chars p s' | EmptyString => true end.

(** [^[a-z][a-z0-9_.-]*(?::[a-z0-9_.-]+){2,8}$]: a first segment that starts
    with a letter and two to eight further non-empty segments. *)
Definition safe_operation_key (s : string) : bool :=
  match split_on (Ascii.ascii_of_nat 58) s with
  | String c first :: rest =>
      (97 <=? Ascii.nat_of_ascii c)%nat && (Ascii.nat_of_ascii c <=? 122)%nat && all_chars key_char first
      && (2 <=? length rest)%nat && (length rest <=? 8)%nat
      && forallb (fun t => truthy t && all_chars key_char t) rest
  | _ => false
  end.

Definition validate_operation_key (s : string) : result lexc unit :=
  if (240 <? str_len s)%nat || negb (safe_operation_key s) then Raise LedgerValueError else Ok tt.

Definition outcome_artifact_key `{Builtins} (run_id operation_key : string) : string :=
  run_id +:+ ":ledger:" +:+ str_take 32 (sha256_hex operation_key) +:+ ":outcome".

(** ** [outcomes.py] *)

(** [json.loads]; [None] is a [JSONDecodeError]. *)
Class JsonLoads := json_loads : string -> option json.

Definition encode_outcome (schema : string) (value : json) : string :=
  canonical_json (JObj [("schema", JStr schema); ("value", value)]).

Definition decode_outcome `{JsonLoads} {A : Type} (content schema : string) (validate : json -> result lexc A)
    : result lexc A :=
  match json_loads content with
  | None => Raise LedgerValueError
  | Some (JObj members) =>
      match jget "schema" members, jget "value" members with
      | Some (JStr s), Some value =>
          if negb (String.eqb s schema) then Raise LedgerValueError
          else if negb (String.eqb (canonical_json (JObj members)) content) then Raise LedgerValueError
          else validate value
      | _, _ => Raise LedgerValueError
      end
  | Some _ => Raise (CallbackError AttributeError)
  end.

Definition build_artifact `{Builtins} (key artifact_type request_hash schema : string) (value : json) : RunArtifact :=
  let content := encode_outcome schema value in
  mkArtifact key artifact_type 1 request_hash (sha256_hex content) content.

(** ** [reconcile.py] *)

(** The loop of both functions: [setdefault], then a comparison of identities. *)
Fixpoint index_from {A} (key : A -> string) (agree : A -> A -> bool) (items : list A) (index : dict string A)
    : result lexc (dict string A) :=
  match items with
  | [] => Ok index
  | x :: rest =>
      match index !! key x with
      | None => index_from key agree rest (<[key x := x]> index)
      | Some previous => if agree previous x then index_from key agree rest index else Raise LedgerValueError
      end
  end.

Definition artifact_index (items : list RunArtifact) : result lexc (dict string RunArtifact) :=
  index_from ra_artifact_key
    (fun p a => String.eqb (ra_content_hash p) (ra_content_hash a) && String.eqb (ra_request_hash p) (ra_request_hash a))
    items ∅.

Definition ledger_index (items : list RunLedgerEntry) : result lexc (dict string RunLedgerEntry) :=
  index_from le_operation_key
    (fun p e => String.eqb (le_request_hash p) (le_request_hash e) && String.eqb (le_entry_kind p) (le_entry_kind e)
                && String.eqb (le_operation p) (le_operation e))
    items ∅.

(** ** The durable store (backend-go) *)

Record durable := mkDurable {
  d_entries : dict string RunLedgerEntry;
  d_artifacts : dict string RunArtifact;
  d_evidence : list EvidenceItem;
  d_consumed : BudgetVector
}.

Definition same_identity (a b : RunLedgerEntry) : bool :=
  String.eqb (le_operation_key a) (le_operation_key b) && String.eqb (le_entry_kind a) (le_entry_kind b)
  && String.eqb (le_operation a) (le_operation b) && String.eqb (le_request_hash a) (le_request_hash b).

Definition final_status (s : string) : bool := bool_decide (s ∈ ["SUCCEEDED"; "FAILED"; "OUTCOME_UNKNOWN"]).

Definition with_status (s : string) (e : RunLedgerEntry) : RunLedgerEntry :=
  mkEntry (le_operation_key e) (le_entry_kind e) (le_operation e) (le_request_hash e) s (le_reservation e)
    (le_consumption e) (le_output_artifact_key e) (le_output_artifact_hash e) (le_evidence_refs e)
    (le_error_category e) (le_retryable e).

Definition set_durable_entry (k : string) (e : RunLedgerEntry) (d : durable) : durable :=
  mkDurable (<[k := e]> (d_entries d)) (d_artifacts d) (d_evidence d) (d_consumed d).

(** [ReserveLedgerEntry]; [None] is an error. *)
Definition durable_reserve (e : RunLedgerEntry) (d : durable) : option durable :=
  match d_entries d !! le_operation_key e with
  | Some existing => if same_identity existing e then Some d else None
  | None =>
      if String.eqb (le_entry_kind e) "LOCAL_TRANSITION" then None
      else Some (set_durable_entry (le_operation_key e)
        (mkEntry (le_operation_key e) (le_entry_kind e) (le_operation e) (le_request_hash e) "RESERVED"
           (le_reservation e) (Some no_budget) (le_output_artifact_key e) (le_output_artifact_hash e)
           (le_evidence_refs e) (le_error_category e) (le_retryable e)) d)
  end.

(** [MarkLedgerCallStarted]. *)
Definition durable_started (e : RunLedgerEntry) (d : durable) : option durable :=
  existing ← d_entries d !! le_operation_key e;
  if negb (String.eqb (le_request_hash existing) (le_request_hash e)) then None
  else if String.eqb (le_status existing) "CALL_STARTED" then Some d
  else if String.eqb (le_status existing) "RESERVED"
  then Some (set_durable_entry (le_operation_key e) (with_status "CALL_STARTED" existing) d)
  else None.

Definition same_finish (a b : RunLedgerEntry) : bool :=
  String.eqb (le_status a) (le_status b) && String.eqb (le_output_artifact_key a) (le_output_artifact_key b)
  && String.eqb (le_output_artifact_hash a) (le_output_artifact_hash b)
  && String.eqb (le_error_category a) (le_error_category b) && Bool.eqb (le_retryable a) (le_retryable b)
  && bool_decide (default no_budget (le_consumption a) = default no_budget (le_consumption b))
  && (let sep := str_of_codes [0] in String.eqb (str_join sep (le_evidence_refs a)) (str_join sep (le_evidence_refs b))).

(** A success must name a durable artifact with the request and content hash. *)
Definition outcome_durable (e : RunLedgerEntry) (d : durable) : bool :=
  negb (String.eqb (le_status e) "SUCCEEDED") ||
  (truthy (le_output_artifact_key e) &&
   match d_artifacts d !! le_output_artifact_key e with
   | Some a => String.eqb (ra_content_hash a) (le_output_artifact_hash e)
               && String.eqb (ra_request_hash a) (le_request_hash e)
   | None => false
   end).

(** [FinishLedgerEntry]. *)
Definition durable_finish (e : RunLedgerEntry) (d : durable) : option durable :=
  existing ← d_entries d !! le_operation_key e;
  if negb (String.eqb (le_request_hash existing) (le_request_hash e)) then None
  else if final_status (le_status existing) then if same_finish existing e then Some d else None
  else if String.eqb (le_status existing) "CALL_STARTED" && final_status (le_status e) && outcome_durable e d then
    Some (mkDurable
      (<[le_operation_key e :=
          mkEntry (le_operation_key existing) (le_entry_kind existing) (le_operation existing)
            (le_request_hash existing) (le_status e) (le_reservation existing)
            (Some (default no_budget (le_consumption e))) (le_output_artifact_key e) (le_output_artifact_hash e)
            (le_evidence_refs e) (le_error_category e) (le_retryable e)]> (d_entries d))
      (d_artifacts d) (d_evidence d) (budget_add (d_consumed d) (default no_budget (le_consumption e))))
  else None.

(** [ConsumeLocalLedgerEntry]. *)
Definition durable_consume (e : RunLedgerEntry) (d : durable) : option durable :=
  match d_entries d !! le_operation_key e with
  | Some existing => if same_identity existing e then Some d else None
  | None =>
      Some (mkDurable
        (<[le_operation_key e :=
            mkEntry (le_operation_key e) (le_entry_kind e) (le_operation e) (le_request_hash e) "SUCCEEDED" no_budget
              (le_consumption e) (le_output_artifact_key e) (le_output_artifact_hash e) (le_evidence_refs e)
              (le_error_category e) (le_retryable e)]> (d_entries d))
        (d_artifacts d) (d_evidence d) (budget_add (d_consumed d) (default no_budget (le_consumption e))))
  end.

(** The dispatcher's routing of ledger events. *)
Definition durable_ledger (event_type : string) (e : RunLedgerEntry) (d : durable) : option durable :=
  if String.eqb event_type "LEDGER_RESERVED" then durable_reserve e d
  else if String.eqb event_type "LEDGER_CALL_STARTED" then durable_started e d
  else if String.eqb (le_entry_kind e) "LOCAL_TRANSITION" then durable_consume e d
  else durable_finish e d.

(** [SaveRunArtifact], which computes the content hash, and [AppendEvidence]. *)
Definition durable_artifact `{Builtins} (a : RunArtifact) (d : durable) : option durable :=
  let hash := sha256_hex (ra_content a) in
  if truthy (ra_content_hash a) && negb (String.eqb (ra_content_hash a) hash) then None
  else match d_artifacts d !! ra_artifact_key a with
  | Some existing =>
      if String.eqb (ra_request_hash existing) (ra_request_hash a) && String.eqb (ra_content_hash existing) hash
      then Some d else None
  | None =>
      Some (mkDurable (d_entries d)
        (<[ra_artifact_key a := mkArtifact (ra_artifact_key a) (ra_artifact_type a) (ra_generation a)
             (ra_request_hash a) hash (ra_content a)]> (d_artifacts d)) (d_evidence d) (d_consumed d))
  end.

(** An evidence item is stored unless it is there; the items before one that is
    not complete stay stored. *)
#[global] Instance EvidenceItem_eq_dec : EqDecision EvidenceItem.
Proof. solve_decision. Defined.

Definition complete_evidence (i : EvidenceItem) : bool :=
  truthy (ei_source_type i) && truthy (ei_source_id i) && truthy (ei_locator i) && truthy (ei_excerpt_hash i).

Fixpoint append_evidence (items stored : list EvidenceItem) : list EvidenceItem :=
  match items with
  | [] => stored
  | i :: rest =>
      if negb (complete_evidence i) then stored
      else append_evidence rest (if decide (i ∈ stored) then stored else stored ++ [i])
  end.

Definition durable_evidence (items : list EvidenceItem) (d : durable) : option durable :=
  Some (mkDurable (d_entries d) (d_artifacts d) (append_evidence items (d_evidence d)) (d_consumed d)).

(** ** The worker *)

(** What becomes of a message to the durable store. *)
Inductive fault : Type := NoFault | LostBeforeCommit | LostAfterCommit.

Class LedgerEnv := { sink_fault : nat -> fault; ledger_run_id : string }.

Record lstate := mkLState {
  ls_entries : dict string RunLedgerEntry;
  ls_artifacts : dict string RunArtifact;
  ls_budget : BudgetState
}.

(** The durable store, the messages sent so far, the operation keys whose
    callback was started, and the ledger of the running worker. *)
Record lworld := mkLWorld {
  lw_durable : durable;
  lw_messages : nat;
  lw_calls : list string;
  lw_ledger : lstate
}.

Definition LM (A : Type) : Type := M lworld lexc A.

Definition set_lentry (k : string) (e : RunLedgerEntry) : LM unit := modify (fun w =>
  mkLWorld (lw_durable w) (lw_messages w) (lw_calls w)
    (mkLState (<[k := e]> (ls_entries (lw_ledger w))) (ls_artifacts (lw_ledger w)) (ls_budget (lw_ledger w)))).

Definition set_lartifact (a : RunArtifact) : LM unit := modify (fun w =>
  mkLWorld (lw_durable w) (lw_messages w) (lw_calls w)
    (mkLState (ls_entries (lw_ledger w)) (<[ra_artifact_key a := a]> (ls_artifacts (lw_ledger w)))
       (ls_budget (lw_ledger w)))).

Definition set_lbudget (b : BudgetState) (w : lworld) : lworld :=
  mkLWorld (lw_durable w) (lw_messages w) (lw_calls w)
    (mkLState (ls_entries (lw_ledger w)) (ls_artifacts (lw_ledger w)) b).

Definition update_budget (f : BudgetState -> result lexc BudgetState) : LM unit := fun w =>
  match f (ls_budget (lw_ledger w)) with
  | Ok b => (set_lbudget b w, Ok tt)
  | Raise e => (w, Raise e)
  end.

(** The callback of an operation starts. *)
Definition start_call (k : string) : LM unit := modify (fun w =>
  mkLWorld (lw_durable w) (lw_messages w) (lw_calls w ++ [k]) (lw_ledger w)).

Section ledger.
Context `{Builtins} `{JsonLoads} `{LedgerEnv}.

(** A message that waits for its acknowledgement. *)
Definition send (f : durable -> option durable) : LM unit := fun w =>
  let sent d := mkLWorld d (S (lw_messages w)) (lw_calls w) (lw_ledger w) in
  match sink_fault (lw_messages w), f (lw_durable w) with
  | NoFault, Some d => (sent d, Ok tt)
  | LostAfterCommit, Some d => (sent d, Raise SinkFailure)
  | _, _ => (sent (lw_durable w), Raise SinkFailure)
  end.

Definition sink_ledger (event_type : string) (e : RunLedgerEntry) : LM unit := send (durable_ledger event_type e).
Definition sink_artifact (a : RunArtifact) : LM unit := send (durable_artifact a).
Definition sink_evidence (items : list EvidenceItem) : LM unit :=
  match items with
  | [] => mret tt
  | _ => send (durable_evidence items);; if forallb complete_evidence items then mret tt else raise SinkFailure
  end.

(** [_entry]. *)
Definition ledger_entry (s : LedgerCallSpec) (status : string) (reservation consumption : BudgetVector)
    (output : option RunArtifact) (evidence_refs : list string) (error_category : string) : RunLedgerEntry :=
  mkEntry (cs_operation_key s) (cs_entry_kind s) (cs_operation s) (cs_request_hash s) status reservation
    (Some consumption)
    (match output with Some a => ra_artifact_key a | None => EmptyString end)
    (match output with Some a => ra_content_hash a | None => EmptyString end)
    evidence_refs error_category false.

Definition evidence_ref (i : EvidenceItem) : string :=
  let sep := str_of_codes [0] in
  "sha256:" +:+ sha256_hex (str_join sep [ei_source_type i; ei_source_id i; ei_locator i; ei_excerpt_hash i]).

Definition validate_spec (s : LedgerCallSpec) (expected_kind : string) : result lexc unit :=
  result_bind (fun _ =>
    if negb (String.eqb (cs_entry_kind s) expected_kind) || negb (truthy (cs_operation s))
       || negb (String.prefix "sha256:" (cs_request_hash s)) then Raise LedgerValueError else Ok tt)
    (validate_operation_key (cs_operation_key s)).

Definition assert_identity (e : RunLedgerEntry) (s : LedgerCallSpec) : result lexc unit :=
  if String.eqb (le_request_hash e) (cs_request_hash s) && String.eqb (le_entry_kind e) (cs_entry_kind s)
     && String.eqb (le_operation e) (cs_operation s) then Ok tt else Raise LedgerValueError.

(** The key under which the outcome of an entry is stored. *)
Definition outcome_key (e : RunLedgerEntry) (s : LedgerCallSpec) : string :=
  if truthy (le_output_artifact_key e) then le_output_artifact_key e
  else outcome_artifact_key ledger_run_id (cs_operation_key s).

(** [_artifact_for]. *)
Definition artifact_for (e : RunLedgerEntry) (s : LedgerCallSpec) : LM RunArtifact :=
  artifacts ← gets (fun w => ls_artifacts (lw_ledger w));
  match artifacts !! outcome_key e s with
  | Some a =>
      if negb (String.eqb (ra_request_hash a) (cs_request_hash s))
      then raise (LedgerOutcomeUnknown (cs_operation_key s))
      else if truthy (le_output_artifact_hash e) && negb (String.eqb (ra_content_hash a) (le_output_artifact_hash e))
      then raise LedgerValueError
      else mret a
  | None => raise (LedgerOutcomeUnknown (cs_operation_key s))
  end.

(** What a call supplies besides its callback: [validate], [consumption_fn],
    [evidence_fn]. *)
Record handlers := mkHandlers {
  h_validate : json -> result lexc json;
  h_consumption : option (json -> result lexc BudgetVector);
  h_evidence : json -> result lexc (list EvidenceItem)
}.

(** [_replay]. *)
Definition replay (e : RunLedgerEntry) (s : LedgerCallSpec) (h : handlers) : LM LedgerOutcome :=
  artifact ← artifact_for e s;
  value ← liftR (decode_outcome (ra_content artifact) (cs_outcome_schema s) (h_validate h));
  mret (mkOutcome value artifact true (default no_budget (le_consumption e))).

(** The common end of [_execute] and [_finish_durable_ahead]. *)
Definition settle (s : LedgerCallSpec) (h : handlers) (artifact : RunArtifact) (value : json) (replayed : bool)
    (actual : json -> result lexc BudgetVector) : LM LedgerOutcome :=
  evidence ← liftR (h_evidence h value);
  sink_evidence evidence;;
  consumption ← liftR (actual value);
  let finished := ledger_entry s "SUCCEEDED" (cs_reservation s) consumption (Some artifact)
                    (evidence_ref <$> evidence) EmptyString in
  sink_ledger "LEDGER_FINISHED" finished;;
  update_budget (fun b => Ok (budget_finish (cs_reservation s) consumption b));;
  set_lentry (cs_operation_key s) finished;;
  mret (mkOutcome value artifact replayed consumption).

(** [_finish_durable_ahead]. *)
Definition finish_durable_ahead (e : RunLedgerEntry) (s : LedgerCallSpec) (h : handlers) : LM LedgerOutcome :=
  artifact ← artifact_for e s;
  value ← liftR (decode_outcome (ra_content artifact) (cs_outcome_schema s) (h_validate h));
  let recorded := default (cs_reservation s) (le_consumption e) in
  let actual := if decide (recorded = no_budget) then cs_reservation s else recorded in
  settle s h artifact value true (fun _ => Ok actual).

(** [try: value = ... except BaseException: ... raise]. *)
Definition try_call {A B} (body : LM A) (ok : A -> LM B) (failed : LM unit) : LM B := fun w =>
  match body w with
  | (w', Ok a) => ok a w'
  | (w', Raise e) => (failed;; raise e) w'
  end.

(** The failure and the success of a call. *)
Definition call_failed (s : LedgerCallSpec) : LM unit :=
  let failed := ledger_entry s "FAILED" (cs_reservation s) (cs_reservation s) None [] "REMOTE_CALL_FAILED" in
  sink_ledger "LEDGER_FINISHED" failed;;
  update_budget (fun b => Ok (budget_finish (cs_reservation s) (cs_reservation s) b));;
  set_lentry (cs_operation_key s) failed.

Definition call_succeeded (s : LedgerCallSpec) (h : handlers) (artifact_type : string) (value : json)
    : LM LedgerOutcome :=
  let artifact := build_artifact (outcome_artifact_key ledger_run_id (cs_operation_key s)) artifact_type
                    (cs_request_hash s) (cs_outcome_schema s) value in
  sink_artifact artifact;;
  set_lartifact artifact;;
  settle s h artifact value false (default (fun _ => Ok (cs_reservation s)) (h_consumption h)).

(** The reservation of a new operation, and the announcement of its call. *)
Definition reserve_call (s : LedgerCallSpec) : LM unit :=
  let entry := ledger_entry s "RESERVED" (cs_reservation s) no_budget None [] EmptyString in
  update_budget (budget_reserve (cs_reservation s));;
  sink_ledger "LEDGER_RESERVED" entry;;
  set_lentry (cs_operation_key s) entry.

Definition begin_call (s : LedgerCallSpec) : LM unit :=
  let started := ledger_entry s "CALL_STARTED" (cs_reservation s) no_budget None [] EmptyString in
  sink_ledger "LEDGER_CALL_STARTED" started;;
  set_lentry (cs_operation_key s) started;;
  start_call (cs_operation_key s).

(** From LEDGER_CALL_STARTED on. *)
Definition perform_call (s : LedgerCallSpec) (invoke : LM json) (h : handlers) (artifact_type : string)
    : LM LedgerOutcome :=
  begin_call s;;
  try_call (raw ← invoke; liftR (h_validate h raw)) (call_succeeded s h artifact_type) (call_failed s).

(** [_execute]. *)
Definition execute_call (s : LedgerCallSpec) (invoke : LM json) (h : handlers) (expected_kind artifact_type : string)
    : LM LedgerOutcome :=
  liftR (validate_spec s expected_kind);;
  entries ← gets (fun w => ls_entries (lw_ledger w));
  match entries !! cs_operation_key s with
  | Some existing =>
      liftR (assert_identity existing s);;
      if String.eqb (le_status existing) "SUCCEEDED" then replay existing s h
      else if String.eqb (le_status existing) "FAILED"
      then raise (LedgerTerminalFailure (le_error_category existing) (le_retryable existing))
      else if String.eqb (le_status existing) "OUTCOME_UNKNOWN"
      then raise (LedgerOutcomeUnknown (cs_operation_key s))
      else if String.eqb (le_status existing) "CALL_STARTED" then
        artifacts ← gets (fun w => ls_artifacts (lw_ledger w));
        if has_key artifacts (outcome_key existing s) then finish_durable_ahead existing s h
        else raise (LedgerOutcomeUnknown (cs_operation_key s))
      else perform_call s invoke h artifact_type
  | None =>
      reserve_call s;;
      perform_call s invoke h artifact_type
  end.

Definition execute_model (s : LedgerCallSpec) (invoke : LM json) (h : handlers) : LM LedgerOutcome :=
  execute_call s invoke (mkHandlers (h_validate h) (h_consumption h) (fun _ => Ok [])) "MODEL" "MODEL_VALIDATED_OUTPUT".

Definition execute_capability (s : LedgerCallSpec) (invoke : LM json) (h : handlers) : LM LedgerOutcome :=
  execute_call s invoke h "CAPABILITY" "CAPABILITY_VALIDATED_OUTPUT".

Definition execute_derivation (s : LedgerCallSpec) (derive : LM json) (h : handlers) (artifact_type : string)
    : LM LedgerOutcome :=
  if negb (truthy artifact_type) || (80 <? str_len artifact_type)%nat then raise LedgerValueError
  else execute_call s derive (mkHandlers (h_validate h) (h_consumption h) (fun _ => Ok [])) "LOCAL_DERIVATION" artifact_type.

Definition consume_transition (s : LedgerCallSpec) : LM unit :=
  liftR (validate_spec s "LOCAL_TRANSITION");;
  entries ← gets (fun w => ls_entries (lw_ledger w));
  match entries !! cs_operation_key s with
  | Some existing =>
      liftR (assert_identity existing s);;
      if String.eqb (le_status existing) "SUCCEEDED" then mret tt
      else raise (LedgerOutcomeUnknown (cs_operation_key s))
  | None =>
      update_budget (budget_consume (cs_reservation s));;
      let entry := ledger_entry s "SUCCEEDED" no_budget (cs_reservation s) None [] EmptyString in
      sink_ledger "LEDGER_FINISHED" entry;;
      set_lentry (cs_operation_key s) entry
  end.

Definition ledger_remaining : LM BudgetVector := gets (fun w => budget_remaining (ls_budget (lw_ledger w))).

(** [entries]: the values in key order. *)
Definition ledger_entries (w : lworld) : list RunLedgerEntry :=
  snd <$> sort_by (fun a b => String.leb a.1 b.1) (items (ls_entries (lw_ledger w))).

(** [__init__], from what the durable store says of the run. *)
Definition outstanding (e : RunLedgerEntry) : bool :=
  String.eqb (le_status e) "RESERVED" || String.eqb (le_status e) "CALL_STARTED".

Definition open_ledger (l : RunBudget) (consumed : BudgetVector) (entries : list RunLedgerEntry)
    (artifacts : list RunArtifact) : result lexc lstate :=
  result_bind (fun es => result_bind (fun arts =>
    let reserved := fold_left (fun r e => if outstanding e then budget_add r (le_reservation e) else r)
                      entries no_budget in
    Ok (mkLState es arts (mkBudgetState l consumed reserved)))
    (artifact_index artifacts)) (ledger_index entries).

(** A worker starts on the run: it receives the entries, artifacts and consumed
    budget that are durable. *)
Definition restart (l : RunBudget) (w : lworld) : result lexc lworld :=
  result_bind (fun st => Ok (mkLWorld (lw_durable w) (lw_messages w) (lw_calls w) st))
    (open_ledger l (d_consumed (lw_durable w)) (values (d_entries (lw_durable w)))
       (values (d_artifacts (lw_durable w)))).
End ledger.
