(* ===== verification/LedgerInv.v ===== *)
(** * The invariant of the run execution ledger

    Programs over the ledger, how the durable store evolves, and what every
    program keeps, whatever messages are lost and wherever it stops. *)
From stdpp Require Import base list sets strings pretty.
From Stdlib Require Import ZArith Lia.
From S2P Require Import Prelude.
From S2P Require Import PyDict.
From S2P Require Import PyText.
From S2P Require Import Json.
From S2P Require Import Hoare.
From S2P Require Import Ledger.

(** ** The durable store *)

(** The operation of an entry may have been performed. *)
Definition begun_status (s : string) : Prop := s ∈ ["CALL_STARTED"; "SUCCEEDED"; "FAILED"; "OUTCOME_UNKNOWN"].

Definition begun (k : string) (entries : dict string RunLedgerEntry) : Prop :=
  exists e, entries !! k = Some e /\ begun_status (le_status e).

Definition identity (e : RunLedgerEntry) : string * string * string * string :=
  (le_operation_key e, le_entry_kind e, le_operation e, le_request_hash e).

Definition durable_ok `{Builtins} (d : durable) : Prop :=
  dict_ok (d_entries d) /\ dict_ok (d_artifacts d) /\
  (forall k e, d_entries d !! k = Some e -> le_operation_key e = k) /\
  (forall k a, d_artifacts d !! k = Some a -> ra_artifact_key a = k /\ ra_content_hash a = sha256_hex (ra_content a)).

(** An entry keeps its identity, does not go back once begun, and does not
    change once final; an artifact does not change. *)
Definition entry_evolves (e e' : RunLedgerEntry) : Prop :=
  identity e' = identity e /\ (begun_status (le_status e) -> begun_status (le_status e')) /\
  (final_status (le_status e) = true -> e' = e).

Definition evolves (d d' : durable) : Prop :=
  (forall k e, d_entries d !! k = Some e -> exists e', d_entries d' !! k = Some e' /\ entry_evolves e e') /\
  (forall k a, d_artifacts d !! k = Some a -> d_artifacts d' !! k = Some a).

Lemma entry_evolves_refl e : entry_evolves e e.
Proof. done. Qed.

Lemma evolves_refl d : evolves d d.
Proof. split; [|done]. intros k e He. eauto using entry_evolves_refl. Qed.

Lemma evolves_trans d1 d2 d3 : evolves d1 d2 -> evolves d2 d3 -> evolves d1 d3.
Proof.
  intros [He1 Ha1] [He2 Ha2]. split; [|eauto]. intros k e He.
  destruct (He1 k e He) as (e' & He' & Hi & Hb & Hf). destruct (He2 k e' He') as (e'' & He'' & Hi' & Hb' & Hf').
  exists e''. split; [done|]. split_and!; [congruence|auto|]. intros Hfin. specialize (Hf Hfin). subst e'. auto.
Qed.

Lemma evolves_begun d d' k : evolves d d' -> begun k (d_entries d) -> begun k (d_entries d').
Proof. intros [He _] (e & Hk & Hb). destruct (He k e Hk) as (e' & ? & _ & ? & _). exists e'. auto. Qed.

(** Writing one entry. *)
Lemma evolves_insert d k e arts ev c :
  match d_entries d !! k with Some old => entry_evolves old e | None => True end ->
  (forall k a, d_artifacts d !! k = Some a -> arts !! k = Some a) ->
  evolves d (mkDurable (<[k := e]> (d_entries d)) arts ev c).
Proof.
  intros Hold Harts. split; [|done]. intros k' e' He'. simpl. destruct (decide (k = k')) as [<-|Hne].
  - rewrite He' in Hold. exists e. by rewrite dict_lookup_insert_eq.
  - exists e'. rewrite dict_lookup_insert_ne by done. eauto using entry_evolves_refl.
Qed.

Section durable_ops.
Context `{Builtins}.

Lemma durable_ok_insert d k e ev c :
  durable_ok d -> le_operation_key e = k ->
  durable_ok (mkDurable (<[k := e]> (d_entries d)) (d_artifacts d) ev c).
Proof.
  intros (H1 & H2 & H3 & H4) Hk. split_and!; simpl; [by apply dict_ok_insert|done| |done].
  intros k' e'. rewrite dict_lookup_insert. case_decide; [|apply H3]. intros [= <-]. congruence.
Qed.

(** An operation of the durable store keeps it well formed and only evolves it. *)
Definition durable_step (f : durable -> option durable) : Prop :=
  forall d d', f d = Some d' -> durable_ok d -> durable_ok d' /\ evolves d d'.

Lemma same_identity_eq a b : same_identity a b = true -> identity a = identity b.
Proof.
  unfold same_identity, identity. rewrite !andb_true_iff, !String.eqb_eq. intros [[[-> ->] ->] ->]. done.
Qed.

Lemma step_reserve e : durable_step (durable_reserve e).
Proof.
  intros d d' E Hok. unfold durable_reserve in E. destruct (d_entries d !! le_operation_key e) eqn:Hk.
  - case_match; [|done]. simplify_eq. eauto using evolves_refl.
  - case_match; [done|]. simplify_eq. split; [by apply durable_ok_insert|]. apply evolves_insert; [by rewrite Hk|done].
Qed.

Lemma step_started e : durable_step (durable_started e).
Proof.
  intros d d' E Hok. unfold durable_started in E. destruct (d_entries d !! le_operation_key e) as [old|] eqn:Hk; [|done].
  simpl in E. repeat case_match; simplify_eq; [eauto using evolves_refl|]. split.
  - apply durable_ok_insert; [done|]. by apply Hok in Hk.
  - apply evolves_insert; [|done]. rewrite Hk. split_and!; [done|intros _; by left|].
    match goal with Hs : String.eqb (le_status old) "RESERVED" = true |- _ => apply String.eqb_eq in Hs; rewrite Hs end.
    done.
Qed.

Lemma final_begun s : final_status s = true -> begun_status s.
Proof. unfold final_status, begun_status. intros Hs%bool_decide_eq_true. set_solver. Qed.

Lemma step_finish e : durable_step (durable_finish e).
Proof.
  intros d d' E Hok. unfold durable_finish in E. destruct (d_entries d !! le_operation_key e) as [old|] eqn:Hk; [|done].
  simpl in E. destruct (negb _); [done|]. destruct (final_status (le_status old)) eqn:Hf.
  { case_match; [|done]. simplify_eq. eauto using evolves_refl. }
  destruct (_ && _) eqn:Hg; [|done]. simplify_eq. apply andb_true_iff in Hg as [[_ Hfin]%andb_true_iff _].
  split.
  - apply durable_ok_insert; [done|]. by apply Hok in Hk.
  - apply evolves_insert; [|done]. rewrite Hk. split_and!; [done|intros _; by apply final_begun|congruence].
Qed.

Lemma step_consume e : durable_step (durable_consume e).
Proof.
  intros d d' E Hok. unfold durable_consume in E. destruct (d_entries d !! le_operation_key e) eqn:Hk.
  - case_match; [|done]. simplify_eq. eauto using evolves_refl.
  - simplify_eq. split; [by apply durable_ok_insert|]. apply evolves_insert; [by rewrite Hk|done].
Qed.

Lemma step_ledger ty e : durable_step (durable_ledger ty e).
Proof.
  intros d d'. unfold durable_ledger. repeat case_match;
    [apply step_reserve|apply step_started|apply step_consume|apply step_finish].
Qed.

Lemma step_artifact a : durable_step (durable_artifact a).
Proof.
  intros d d' E (H1 & H2 & H3 & H4). unfold durable_artifact in E. cbv zeta in E. destruct (truthy _ && _); [done|].
  destruct (d_artifacts d !! ra_artifact_key a) eqn:Hk.
  - case_match; [|done]. simplify_eq. split; [by split_and!|apply evolves_refl].
  - simplify_eq. split.
    + split_and!; simpl; [done|by apply dict_ok_insert|done|]. intros k' a'. rewrite dict_lookup_insert.
      case_decide; [|apply H4]. intros [= <-]. done.
    + split; [intros k e He; eauto using entry_evolves_refl|]. simpl. intros k' a' Ha'.
      rewrite dict_lookup_insert_ne; congruence.
Qed.

Lemma step_append_evidence l : durable_step (durable_evidence l).
Proof. intros d d' [= <-] Hok. split; [done|]. split; [|done]. intros k e He. eauto using entry_evolves_refl. Qed.
End durable_ops.

(** ** Programs of a worker

    A worker reads its state and gets answers from outside ([lp_read]),
    composes and handles exceptions, and reaches the durable store through the
    ledger only.  A callback is itself such a program: preparing a context may
    call the model.  [ok] restricts the calls, [okt] the transitions. *)
Inductive ledger_program `{Builtins} `{JsonLoads} `{LedgerEnv} (ok : LedgerCallSpec -> handlers -> Prop)
    (okt : LedgerCallSpec -> Prop) : forall A : Type, LM A -> Prop :=
  | lp_read A (f : lworld -> result lexc A) : ledger_program ok okt A (fun w => (w, f w))
  | lp_bind A B (m : LM A) (k : A -> LM B) :
      ledger_program ok okt A m -> (forall a, ledger_program ok okt B (k a)) -> ledger_program ok okt B (x ← m; k x)
  | lp_catch A (m : LM A) (handler : lexc -> LM A) :
      ledger_program ok okt A m -> (forall e, ledger_program ok okt A (handler e)) ->
      ledger_program ok okt A (fun w => match m w with (w', Raise e) => handler e w' | r => r end)
  | lp_execute s invoke h kind ty :
      ok s h -> ledger_program ok okt json invoke -> ledger_program ok okt LedgerOutcome (execute_call s invoke h kind ty)
  | lp_transition s : okt s -> ledger_program ok okt unit (consume_transition s).

Definition any_call (s : LedgerCallSpec) (h : handlers) : Prop := True.
Definition any_transition (s : LedgerCallSpec) : Prop := True.

(** ** What every program keeps *)

Section worker.
Context `{Builtins} `{JsonLoads} `{LedgerEnv}.

(** No operation was performed twice; an operation that was performed is marked
    as begun in the worker's ledger and in the durable one; what the worker
    knows is durable. *)
Definition ledger_inv (w : lworld) : Prop :=
  durable_ok (lw_durable w) /\ NoDup (lw_calls w) /\
  (forall k, k ∈ lw_calls w -> begun k (ls_entries (lw_ledger w)) /\ begun k (d_entries (lw_durable w))) /\
  (forall k e, ls_entries (lw_ledger w) !! k = Some e ->
     exists e', d_entries (lw_durable w) !! k = Some e' /\ identity e' = identity e).

Definition spec_identity (s : LedgerCallSpec) : string * string * string * string :=
  (cs_operation_key s, cs_entry_kind s, cs_operation s, cs_request_hash s).

(** The operation of [s] is recorded durably. *)
Definition owned (s : LedgerCallSpec) (d : durable) : Prop :=
  exists e, d_entries d !! cs_operation_key s = Some e /\ identity e = spec_identity s.

Definition stable (P : durable -> Prop) : Prop := forall d d', evolves d d' -> P d -> P d'.

Lemma owned_stable s : stable (owned s).
Proof.
  intros d d' [Hev _] (e & He & Hi). destruct (Hev _ e He) as (e' & He' & Hi' & _). exists e'. split; [done|congruence].
Qed.

Definition good_on (P : durable -> Prop) {A} (m : LM A) : Prop := forall w,
  ledger_inv w -> P (lw_durable w) -> ledger_inv (m w).1 /\ evolves (lw_durable w) (lw_durable (m w).1).

Lemma good_on_bind P {A B} (m : LM A) (k : A -> LM B) :
  stable P -> good_on P m -> (forall a, good_on P (k a)) -> good_on P (x ← m; k x).
Proof.
  intros HP Hm Hk w Hw HPw. destruct (Hm w Hw HPw) as [Hi He]. unfold mbind, M_bind.
  destruct (m w) as [w1 [a|e]]; cbn [fst] in *; [|done].
  destruct (Hk a w1 Hi (HP _ _ He HPw)) as [Hi' He']. eauto using evolves_trans.
Qed.

Lemma good_on_read P {A} (f : lworld -> result lexc A) : good_on P (fun w => (w, f w)).
Proof. intros w Hw _. eauto using evolves_refl. Qed.

Lemma good_on_budget P f : good_on P (update_budget f).
Proof. intros w Hw _. unfold update_budget. destruct (f _); [|eauto using evolves_refl]. split; [done|apply evolves_refl]. Qed.

Lemma good_on_lartifact P a : good_on P (set_lartifact a).
Proof. intros w Hw _. split; [done|apply evolves_refl]. Qed.

(** A message changes the durable store only, and by its operation. *)
Lemma send_spec f w : durable_step f -> ledger_inv w ->
  let w' := (send f w).1 in
  ledger_inv w' /\ evolves (lw_durable w) (lw_durable w') /\ lw_calls w' = lw_calls w /\ lw_ledger w' = lw_ledger w /\
  ((send f w).2 = Ok tt -> f (lw_durable w) = Some (lw_durable w')).
Proof.
  intros Hf (Hd & Hn & Hc & Hk).
  assert (Hsent : forall d, durable_ok d -> evolves (lw_durable w) d ->
    ledger_inv (mkLWorld d (S (lw_messages w)) (lw_calls w) (lw_ledger w))).
  { intros d Hd' Hev. split_and!; simpl; [done|done| |].
    - intros k Hin. destruct (Hc k Hin). eauto using evolves_begun.
    - intros k e He. destruct (Hk k e He) as (e' & He' & Hi). destruct Hev as [Hev _].
      destruct (Hev k e' He') as (e'' & ? & Hi' & _). exists e''. split; [done|congruence]. }
  unfold send. destruct (f (lw_durable w)) as [d|] eqn:E.
  - destruct (Hf _ _ E Hd). destruct (sink_fault _); simpl; split_and!; auto using evolves_refl; done.
  - destruct (sink_fault _); simpl; split_and!; auto using evolves_refl; done.
Qed.

Lemma good_on_send P f : durable_step f -> good_on P (send f).
Proof. intros Hf w Hw _. by destruct (send_spec f w Hf Hw) as (? & ? & _). Qed.

(** The worker notes the status of an operation it owns. *)
Lemma note_entry s e w :
  identity e = spec_identity s -> owned s (lw_durable w) ->
  (cs_operation_key s ∈ lw_calls w -> begun_status (le_status e)) ->
  ledger_inv w -> ledger_inv (set_lentry (cs_operation_key s) e w).1.
Proof.
  intros Hid (e0 & He0 & Hi0) Hb (Hd & Hn & Hc & Hk). split_and!; simpl; [done|done| |].
  - intros k Hin. destruct (Hc k Hin) as [(e1 & He1 & Hb1) ?]. split; [|done]. unfold begun.
    destruct (decide (cs_operation_key s = k)) as [<-|Hne].
    + exists e. rewrite dict_lookup_insert_eq. auto.
    + exists e1. by rewrite dict_lookup_insert_ne.
  - intros k e1. rewrite dict_lookup_insert. case_decide; [|apply Hk]. subst k. intros [= <-]. exists e0.
    split; [done|congruence].
Qed.

Lemma good_on_note s status r c o refs cat :
  begun_status status -> good_on (owned s) (set_lentry (cs_operation_key s) (ledger_entry s status r c o refs cat)).
Proof. intros Hb w Hw Ho. split; [by apply note_entry|apply evolves_refl]. Qed.

Lemma good_on_evidence P l : stable P -> good_on P (sink_evidence l).
Proof.
  intros HP. destruct l; [by apply good_on_read|]. apply good_on_bind; [done|apply good_on_send, step_append_evidence|].
  intros _. case_match; by apply good_on_read.
Qed.

Lemma good_on_settle s h a v r f : good_on (owned s) (settle s h a v r f).
Proof.
  unfold settle. apply good_on_bind; [apply owned_stable|apply good_on_read|]. intros ev.
  apply good_on_bind; [apply owned_stable|apply good_on_evidence, owned_stable|]. intros _.
  apply good_on_bind; [apply owned_stable|apply good_on_read|]. intros c.
  apply good_on_bind; [apply owned_stable|apply good_on_send, step_ledger|]. intros _.
  apply good_on_bind; [apply owned_stable|apply good_on_budget|]. intros _.
  apply good_on_bind; [apply owned_stable|by apply good_on_note; right; left|]. intros _. apply good_on_read.
Qed.

Lemma good_on_failed s : good_on (owned s) (call_failed s).
Proof.
  unfold call_failed. apply good_on_bind; [apply owned_stable|apply good_on_send, step_ledger|]. intros _.
  apply good_on_bind; [apply owned_stable|apply good_on_budget|]. intros _.
  apply good_on_note. right; right; left.
Qed.

Lemma good_on_succeeded s h ty v : good_on (owned s) (call_succeeded s h ty v).
Proof.
  unfold call_succeeded. apply good_on_bind; [apply owned_stable|apply good_on_send, step_artifact|]. intros _.
  apply good_on_bind; [apply owned_stable|apply good_on_lartifact|]. intros _. apply good_on_settle.
Qed.

Definition any_durable (d : durable) : Prop := True.

Lemma any_durable_stable : stable any_durable.
Proof. done. Qed.

Lemma good_on_any P {A} (m : LM A) : good_on any_durable m -> good_on P m.
Proof. intros Hm w Hw _. by apply Hm. Qed.

Lemma good_on_try P {A B} (body : LM A) (ok : A -> LM B) (failed : LM unit) :
  stable P -> good_on P body -> (forall a, good_on P (ok a)) -> good_on P failed -> good_on P (try_call body ok failed).
Proof.
  intros HP Hb Hok Hf w Hw HPw. destruct (Hb w Hw HPw) as [Hi He]. unfold try_call.
  destruct (body w) as [w1 [a|e]]; cbn [fst] in *.
  - destruct (Hok a w1 Hi (HP _ _ He HPw)). eauto using evolves_trans.
  - assert (Hfr : good_on P (failed;; raise e : LM B)) by (apply good_on_bind; [done|done|intros _; apply good_on_read]).
    destruct (Hfr w1 Hi (HP _ _ He HPw)). eauto using evolves_trans.
Qed.

(** The cases of a sequence, for an assertion on the world it ends in. *)
Lemma bind_cases {A B} (m : LM A) (k : A -> LM B) w (Q : lworld -> Prop) :
  (forall w1 e, m w = (w1, Raise e) -> Q w1) -> (forall w1 a, m w = (w1, Ok a) -> Q (k a w1).1) ->
  Q ((x ← m; k x) w).1.
Proof. intros He Ha. unfold mbind, M_bind. destruct (m w) as [w1 [a|e]]; [by apply Ha|by eapply He]. Qed.

(** An acknowledged start is durable. *)
Lemma started_begun s e d d' :
  le_operation_key e = cs_operation_key s -> durable_ledger "LEDGER_CALL_STARTED" e d = Some d' ->
  begun (cs_operation_key s) (d_entries d').
Proof.
  intros Hk Hok. change (durable_ledger "LEDGER_CALL_STARTED" e d) with (durable_started e d) in Hok.
  unfold durable_started in Hok. rewrite Hk in Hok.
  destruct (d_entries d !! cs_operation_key s) as [old|] eqn:E; [|done]. simpl in Hok.
  repeat case_match; simplify_eq.
  - exists old. split; [done|].
    match goal with Hs : String.eqb (le_status old) "CALL_STARTED" = true |- _ => apply String.eqb_eq in Hs; rewrite Hs end.
    by left.
  - eexists. simpl. rewrite dict_lookup_insert_eq. split; [done|by left].
Qed.

(** An operation the worker has not begun is announced before its callback starts. *)
Lemma begin_call_good s w :
  ledger_inv w -> owned s (lw_durable w) -> cs_operation_key s ∉ lw_calls w ->
  ledger_inv (begin_call s w).1 /\ evolves (lw_durable w) (lw_durable (begin_call s w).1).
Proof.
  intros Hw Ho Hnew. unfold begin_call. set (started := ledger_entry s "CALL_STARTED" _ _ _ _ _).
  pose proof (send_spec (durable_ledger "LEDGER_CALL_STARTED" started) w (step_ledger _ _) Hw) as Hsend.
  fold (sink_ledger "LEDGER_CALL_STARTED" started) in Hsend.
  apply bind_cases; intros w1 r E; rewrite E in Hsend; destruct Hsend as (Hi & Hev & Hcalls & Hled & Hok);
    cbn [fst snd] in *; [done|].
  destruct r. specialize (Hok eq_refl). assert (Ho1 : owned s (lw_durable w1)) by (by eapply owned_stable).
  pose proof (started_begun s started _ _ eq_refl Hok) as Hb1.
  assert (Hbs : begun_status (le_status started)) by (by left).
  destruct (note_entry s started w1 eq_refl Ho1 (fun _ => Hbs) Hi) as (Hd & Hn & Hc & Hk).
  split; [|exact Hev]. split_and!; simpl in *; [done| | |done].
  - apply NoDup_app. split_and!; [done| |apply NoDup_singleton]. rewrite Hcalls. set_solver.
  - intros k [Hin|Hin%list_elem_of_singleton]%elem_of_app; [by apply Hc|]. subst k. split; [|done].
    exists started. by rewrite dict_lookup_insert_eq.
Qed.

Lemma good_on_body s invoke h :
  good_on any_durable invoke -> good_on (owned s) (raw ← invoke; liftR (h_validate h raw)).
Proof. intros Hinv. apply good_on_bind; [apply owned_stable|by apply good_on_any|intros; apply good_on_read]. Qed.

Lemma perform_call_good s invoke h ty w :
  good_on any_durable invoke -> ledger_inv w -> owned s (lw_durable w) -> cs_operation_key s ∉ lw_calls w ->
  ledger_inv (perform_call s invoke h ty w).1 /\ evolves (lw_durable w) (lw_durable (perform_call s invoke h ty w).1).
Proof.
  intros Hinv Hw Ho Hnew. unfold perform_call. pose proof (begin_call_good s w Hw Ho Hnew) as Hb.
  apply bind_cases; intros w1 r E; rewrite E in Hb; destruct Hb as [Hi Hev]; cbn [fst] in *; [done|].
  destruct (good_on_try (owned s) _ (call_succeeded s h ty) (call_failed s) (owned_stable s) (good_on_body s invoke h Hinv)
    (good_on_succeeded s h ty) (good_on_failed s) w1 Hi) as [Hi4 Hev4]; [by eapply owned_stable|].
  eauto using evolves_trans.
Qed.

(** [execute_call] keeps the invariant if its callback does. *)
Lemma identity_asserted e s : assert_identity e s = Ok tt -> le_operation_key e = cs_operation_key s ->
  identity e = spec_identity s.
Proof.
  unfold assert_identity, identity, spec_identity. case_match eqn:E; [|done]. intros _ ->.
  by apply andb_true_iff in E as [[->%String.eqb_eq ->%String.eqb_eq]%andb_true_iff ->%String.eqb_eq].
Qed.

Lemma known_owned s e w :
  ledger_inv w -> ls_entries (lw_ledger w) !! cs_operation_key s = Some e -> assert_identity e s = Ok tt ->
  owned s (lw_durable w).
Proof.
  intros (Hd & _ & _ & Hk) He Ha. destruct (Hk _ _ He) as (e' & He' & Hi). exists e'. split; [done|].
  assert (le_operation_key e = cs_operation_key s).
  { apply Hd in He'. unfold identity in Hi. congruence. }
  rewrite Hi. by apply identity_asserted.
Qed.

Lemma not_begun_not_called k w :
  ledger_inv w ->
  (forall e, ls_entries (lw_ledger w) !! k = Some e -> ~ begun_status (le_status e)) -> k ∉ lw_calls w.
Proof. intros (_ & _ & Hc & _) Hno Hin. destruct (Hc k Hin) as [(e & He & Hb) _]. by apply (Hno e). Qed.

(** An acknowledged reservation is durable under the identity of the call. *)
Lemma reserved_owned s e d d' :
  durable_ok d -> identity e = spec_identity s -> durable_ledger "LEDGER_RESERVED" e d = Some d' -> owned s d'.
Proof.
  intros Hd Hid. change (durable_ledger "LEDGER_RESERVED" e d) with (durable_reserve e d). unfold durable_reserve.
  assert (Hk : le_operation_key e = cs_operation_key s) by (unfold identity, spec_identity in Hid; congruence).
  rewrite Hk. destruct (d_entries d !! cs_operation_key s) as [old|] eqn:E.
  - case_match eqn:Hs; [|done]. intros [= <-]. exists old. split; [done|].
    apply same_identity_eq in Hs. congruence.
  - case_match; [done|]. intros [= <-]. eexists. simpl. rewrite dict_lookup_insert_eq. split; [done|].
    unfold identity, spec_identity in *. simpl. congruence.
Qed.

Lemma reserve_call_good s w :
  ledger_inv w -> cs_operation_key s ∉ lw_calls w ->
  ledger_inv (reserve_call s w).1 /\ evolves (lw_durable w) (lw_durable (reserve_call s w).1) /\
  lw_calls (reserve_call s w).1 = lw_calls w /\
  ((reserve_call s w).2 = Ok tt -> owned s (lw_durable (reserve_call s w).1)).
Proof.
  intros Hw Hnew. unfold reserve_call. set (entry := ledger_entry s "RESERVED" _ _ _ _ _).
  unfold mbind, M_bind, update_budget. destruct (budget_reserve _ _) as [b|e];
    [|split_and!; [done|apply evolves_refl|done|done]].
  set (w1 := set_lbudget b w). assert (Hw1 : ledger_inv w1) by done.
  pose proof (send_spec (durable_ledger "LEDGER_RESERVED" entry) w1 (step_ledger _ _) Hw1) as Hsend.
  fold (sink_ledger "LEDGER_RESERVED" entry) in Hsend.
  destruct (sink_ledger "LEDGER_RESERVED" entry w1) as [w2 [[]|e]];
    destruct Hsend as (Hi & Hev & Hcalls & Hled & Hok); cbn [fst snd] in *; [|by split_and!].
  specialize (Hok eq_refl). pose proof (reserved_owned s entry _ _ (proj1 Hw1) eq_refl Hok) as Ho.
  assert (Hnew2 : cs_operation_key s ∉ lw_calls w2) by (by rewrite Hcalls).
  split_and!; [|done|done|done]. apply note_entry; [done|done|by intros Hin|done].
Qed.

Lemma execute_call_good s invoke h kind ty :
  good_on any_durable invoke -> good_on any_durable (execute_call s invoke h kind ty).
Proof.
  intros Hinv w Hw _. unfold execute_call. apply bind_cases; intros w0 r0 E0; cbv [liftR] in E0; injection E0 as <- E0;
    [eauto using evolves_refl|].
  apply bind_cases; intros w1 entries E1; [done|]. injection E1 as <- <-.
  destruct (ls_entries (lw_ledger w) !! cs_operation_key s) as [e|] eqn:He.
  2: { assert (Hnew : cs_operation_key s ∉ lw_calls w) by (apply not_begun_not_called; [done|intros e He'; congruence]).
    pose proof (reserve_call_good s w Hw Hnew) as Hr.
    apply bind_cases; intros w1 r E; rewrite E in Hr; destruct Hr as (Hi & Hev & Hcalls & Ho); cbn [fst snd] in *; [done|].
    destruct r. destruct (perform_call_good s invoke h ty w1 Hinv Hi (Ho eq_refl)) as [Hi' Hev']; [by rewrite Hcalls|].
    eauto using evolves_trans. }
  apply bind_cases; intros w2 r2 E2; cbv [liftR] in E2; injection E2 as <- E2; [eauto using evolves_refl|].
  destruct r2. pose proof (known_owned s e w Hw He E2) as Ho.
  destruct (String.eqb_spec (le_status e) "SUCCEEDED") as [|Hs1].
  { apply (good_on_bind any_durable); try done.
    - apply good_on_bind; [apply any_durable_stable|apply good_on_read|]. intros arts.
      repeat case_match; apply good_on_read.
    - intros a. apply good_on_bind; [apply any_durable_stable|apply good_on_read|intros; apply good_on_read]. }
  destruct (String.eqb_spec (le_status e) "FAILED") as [|Hs2]; [eauto using evolves_refl|].
  destruct (String.eqb_spec (le_status e) "OUTCOME_UNKNOWN") as [|Hs3]; [eauto using evolves_refl|].
  destruct (String.eqb_spec (le_status e) "CALL_STARTED") as [|Hs4].
  - apply bind_cases; intros w3 arts E3; [done|]. injection E3 as <- <-. case_match; [|eauto using evolves_refl].
    unfold finish_durable_ahead. apply (good_on_bind (owned s)); try done; [apply owned_stable|..].
    + apply good_on_bind; [apply owned_stable|apply good_on_read|]. intros arts. repeat case_match; apply good_on_read.
    + intros a. apply good_on_bind; [apply owned_stable|apply good_on_read|]. intros v. apply good_on_settle.
  - apply perform_call_good; try done. apply not_begun_not_called; [done|]. intros e' He'.
    rewrite He in He'. injection He' as <-. unfold begun_status. set_solver.
Qed.

Lemma validate_spec_kind s kind : validate_spec s kind = Ok tt -> cs_entry_kind s = kind.
Proof.
  unfold validate_spec, result_bind. destruct (validate_operation_key _); [|done].
  destruct (String.eqb_spec (cs_entry_kind s) kind); [done|]. done.
Qed.

Lemma consumed_owned s e d d' :
  identity e = spec_identity s -> durable_consume e d = Some d' -> owned s d'.
Proof.
  intros Hid. unfold durable_consume.
  assert (Hk : le_operation_key e = cs_operation_key s) by (unfold identity, spec_identity in Hid; congruence).
  rewrite Hk. destruct (d_entries d !! cs_operation_key s) as [old|] eqn:E.
  - case_match eqn:Hs; [|done]. intros [= <-]. exists old. split; [done|].
    apply same_identity_eq in Hs. congruence.
  - intros [= <-]. eexists. simpl. rewrite dict_lookup_insert_eq. split; [done|].
    unfold identity, spec_identity in *. simpl. congruence.
Qed.

Lemma transition_good s : good_on any_durable (consume_transition s).
Proof.
  intros w Hw _. unfold consume_transition. apply bind_cases; intros w0 r0 E0; cbv [liftR] in E0; injection E0 as <- E0;
    [eauto using evolves_refl|].
  destruct r0. pose proof (validate_spec_kind _ _ E0) as Hkind.
  apply bind_cases; intros w1 entries E1; [done|]. injection E1 as <- <-.
  destruct (ls_entries (lw_ledger w) !! cs_operation_key s) as [e|] eqn:He.
  { apply bind_cases; intros w2 r2 E2; cbv [liftR] in E2; injection E2 as <- E2; [eauto using evolves_refl|].
    case_match; split; try done; apply evolves_refl. }
  set (entry := ledger_entry s "SUCCEEDED" _ _ _ _ _).
  apply bind_cases; intros w1 r1 E1; unfold update_budget in E1; destruct (budget_consume _ _); simplify_eq; [eauto using evolves_refl|].
  match goal with |- context [set_lbudget ?b w] => set (w1 := set_lbudget b w) end.
  assert (Hw1 : ledger_inv w1) by done.
  pose proof (send_spec (durable_ledger "LEDGER_FINISHED" entry) w1 (step_ledger _ _) Hw1) as Hsend.
  fold (sink_ledger "LEDGER_FINISHED" entry) in Hsend.
  apply bind_cases; intros w2 r E; rewrite E in Hsend; destruct Hsend as (Hi & Hev & Hcalls & Hled & Hok);
    cbn [fst snd] in *; [done|].
  destruct r. specialize (Hok eq_refl). assert (Ho : owned s (lw_durable w2)).
  { unfold durable_ledger in Hok. cbn [String.eqb] in Hok. change (le_entry_kind entry) with (cs_entry_kind s) in Hok.
    rewrite Hkind in Hok. apply (consumed_owned s entry (lw_durable w1)); [done|exact Hok]. }
  assert (Hbs : begun_status (le_status entry)) by (right; by left).
  split; [by apply note_entry|done].
Qed.

Lemma program_good ok okt A (m : LM A) : ledger_program ok okt A m -> good_on any_durable m.
Proof.
  induction 1 as [A f|A B m k _ IHm _ IHk|A m handler _ IHm _ IHh|s invoke h kind ty _ _ IH|s _].
  - apply good_on_read.
  - by apply good_on_bind.
  - intros w Hw HP. destruct (IHm w Hw HP) as [Hi He]. destruct (m w) as [w1 [a|e]]; cbn [fst] in *; [done|].
    destruct (IHh e w1 Hi HP). eauto using evolves_trans.
  - by apply execute_call_good.
  - apply transition_good.
Qed.
End worker.
