(* ===== verification/LedgerFacts.v ===== *)
(** * Calls are performed once and outcomes are replayed

    Workers start, stop at any point and are started again on what is durable.
    Over all of them a remote call is performed at most once, and an outcome
    that was recorded is returned again without a call. *)
From stdpp Require Import base list sets strings pretty.
From Stdlib Require Import ZArith Lia.
From S2P Require Import Prelude.
From S2P Require Import PyDict.
From S2P Require Import Json.
From S2P Require Import CanonicalJson.
From S2P Require Import Hoare.
From S2P Require Import PyText.
From S2P Require Import Ledger.
From S2P Require Import LedgerInv.

(** ** The index built from durable records *)

Lemma index_from_lookup {A} (key : A -> string) agree items index :
  NoDup (key <$> items) -> (forall x, x ∈ items -> index !! key x = None) ->
  exists r, index_from key agree items index = Ok r /\
    forall k x, r !! k = Some x <-> index !! k = Some x \/ (x ∈ items /\ key x = k).
Proof.
  revert index. induction items as [|x items IH]; intros index Hnd Hnone.
  - exists index. split; [done|]. intros k y. split; [auto|]. intros [?|[?%elem_of_nil _]]; done.
  - apply NoDup_cons in Hnd as [Hx Hnd]. cbn [index_from]. rewrite (Hnone x) by left.
    destruct (IH (<[key x := x]> index) Hnd) as (r & Hr & Hk).
    { intros y Hy. rewrite dict_lookup_insert_ne; [apply Hnone; by right|]. intros E. apply Hx. rewrite E.
      by apply list_elem_of_fmap_2. }
    exists r. split; [done|]. intros k y. rewrite Hk, dict_lookup_insert, elem_of_cons. case_decide as E.
    + subst k. split; [intros [[= <-]|[? ?]]; eauto|]. intros [Hi|[[->|?] ?]]; [|by left|by right].
      rewrite (Hnone x) in Hi by left. done.
    + split; [intros [?|[? ?]]; eauto|]. intros [?|[[->|?] ?]]; [by left|done|by right].
Qed.

Lemma index_of_dict {A} (key : A -> string) agree (d : dict string A) :
  dict_ok d -> (forall k x, d !! k = Some x -> key x = k) ->
  exists r, index_from key agree (values d) ∅ = Ok r /\ forall k, r !! k = d !! k.
Proof.
  intros Hok Hkey. assert (Hkeys : key <$> values d = keys d).
  { unfold values, keys. rewrite <- list_fmap_compose. apply list_fmap_ext. intros i [k x] Hi. simpl.
    apply Hkey. apply assoc_get_elem; [done|]. by eapply list_elem_of_lookup_2. }
  destruct (index_from_lookup key agree (values d) ∅) as (r & Hr & Hk).
  { by rewrite Hkeys. } { intros x _. apply dict_lookup_empty. }
  exists r. split; [done|]. intros k. apply option_eq. intros x. rewrite Hk, dict_lookup_empty. split.
  - intros [?|[Hin <-]]; [done|]. destruct (dict_values_lookup d x Hok Hin) as [k' Hk'].
    by rewrite (Hkey k' x Hk').
  - intros Hx. right. split; [by eapply dict_lookup_values|by apply Hkey].
Qed.

Section lives.
Context `{Builtins} `{JsonLoads} `{LedgerEnv}.

(** A worker can always be started, and knows what is durable. *)
Lemma restart_spec l w :
  durable_ok (lw_durable w) -> exists w', restart l w = Ok w' /\
    lw_durable w' = lw_durable w /\ lw_calls w' = lw_calls w /\
    (forall k, ls_entries (lw_ledger w') !! k = d_entries (lw_durable w) !! k) /\
    (forall k, ls_artifacts (lw_ledger w') !! k = d_artifacts (lw_durable w) !! k).
Proof.
  intros (H2 & H3 & H4 & H5). unfold restart, open_ledger, result_bind, ledger_index, artifact_index.
  destruct (index_of_dict le_operation_key (fun p e => String.eqb (le_request_hash p) (le_request_hash e) &&
    String.eqb (le_entry_kind p) (le_entry_kind e) && String.eqb (le_operation p) (le_operation e)) _ H2 H4) as (es & -> & He).
  destruct (index_of_dict ra_artifact_key (fun p a => String.eqb (ra_content_hash p) (ra_content_hash a) &&
    String.eqb (ra_request_hash p) (ra_request_hash a)) _ H3 (fun k a Ha => proj1 (H5 k a Ha))) as (arts & -> & Ha).
  eexists. split; [done|]. simpl. auto.
Qed.

Lemma restart_inv l w w' : ledger_inv w -> restart l w = Ok w' -> ledger_inv w' /\ lw_durable w' = lw_durable w.
Proof.
  intros (Hd & Hn & Hc & Hk) E. destruct (restart_spec l w Hd) as (w1 & E1 & Ed & Ec & He & _).
  rewrite E in E1. injection E1 as <-. split; [|done]. split_and!; rewrite ?Ed, ?Ec; try done.
  - intros k Hin. destruct (Hc k Hin) as [_ Hb]. split; [|done]. destruct Hb as (e & ? & ?). exists e. by rewrite He.
  - intros k e. rewrite He. eauto.
Qed.

(** Workers one after another, each doing what it does until it stops. *)
Fixpoint run_lives (l : RunBudget) (workers : list (LM unit)) (w : lworld) : lworld :=
  match workers with
  | [] => w
  | worker :: rest =>
      match restart l w with
      | Ok w' => run_lives l rest (worker w').1
      | Raise _ => run_lives l rest w
      end
  end.

Definition worker_program (m : LM unit) : Prop := ledger_program any_call any_transition unit m.

Lemma run_lives_good l workers w :
  Forall worker_program workers -> ledger_inv w ->
  ledger_inv (run_lives l workers w) /\ evolves (lw_durable w) (lw_durable (run_lives l workers w)).
Proof.
  intros Hall. revert w. induction Hall as [|m ms Hm _ IH]; intros w Hw; [eauto using evolves_refl|]. cbn [run_lives].
  destruct (restart l w) as [w1|e] eqn:E; [|by apply IH]. destruct (restart_inv l w w1 Hw E) as [Hw1 Ed].
  destruct (program_good _ _ _ _ Hm w1 Hw1 I) as [Hi Hev]. destruct (IH _ Hi) as [Hi' Hev'].
  rewrite Ed in Hev. eauto using evolves_trans.
Qed.

(** A run nobody has worked on. *)
Definition new_run_world : lworld :=
  mkLWorld (mkDurable ∅ ∅ [] no_budget) 0 [] (mkLState ∅ ∅ (mkBudgetState (mkRunBudget (fun _ => 0%Z)) no_budget no_budget)).

Lemma new_run_inv : ledger_inv new_run_world.
Proof.
  split_and!; simpl; [split_and!; try apply dict_ok_empty; done|constructor| |done].
  intros k Hk. by apply elem_of_nil in Hk.
Qed.

(** C5: a remote call is performed at most once.  Over any number of workers
    that start one after another on a run and stop anywhere, whatever messages
    to the durable store are lost before or after being applied, and with
    callbacks that use the ledger themselves, no operation key has its callback
    started twice; and every callback that was started is durably marked as
    begun, so that no later worker performs it. *)
Theorem ledger_calls_at_most_once (l : RunBudget) (workers : list (LM unit)) :
  Forall worker_program workers ->
  let w := run_lives l workers new_run_world in
  NoDup (lw_calls w) /\ forall k, k ∈ lw_calls w -> begun k (d_entries (lw_durable w)).
Proof.
  intros Hall w. destruct (run_lives_good l workers _ Hall new_run_inv) as [(_ & Hn & Hc & _) _].
  split; [done|]. intros k Hk. by apply Hc.
Qed.

(** ** Recorded outcomes *)

Lemma bind_ok {A B} (m : LM A) (k : A -> LM B) w w' b :
  (x ← m; k x) w = (w', Ok b) -> exists w1 a, m w = (w1, Ok a) /\ k a w1 = (w', Ok b).
Proof. unfold mbind, M_bind. destruct (m w) as [w1 [a|e]]; [eauto|done]. Qed.

(** The outcome of [s] is durable. *)
Definition recorded (s : LedgerCallSpec) (value : json) (consumption : BudgetVector) (d : durable) : Prop :=
  exists e a, d_entries d !! cs_operation_key s = Some e /\ identity e = spec_identity s /\
    le_status e = "SUCCEEDED" /\ default no_budget (le_consumption e) = consumption /\
    le_output_artifact_key e = outcome_artifact_key ledger_run_id (cs_operation_key s) /\
    le_output_artifact_hash e = sha256_hex (encode_outcome (cs_outcome_schema s) value) /\
    d_artifacts d !! outcome_artifact_key ledger_run_id (cs_operation_key s) = Some a /\
    ra_request_hash a = cs_request_hash s /\ ra_content_hash a = sha256_hex (encode_outcome (cs_outcome_schema s) value).

Lemma recorded_stable s v c : stable (recorded s v c).
Proof.
  intros d d' [He Ha] (e & a & H2 & H3 & H4 & H5 & H6 & H7 & H8 & H9). destruct (He _ _ H2) as (e' & He' & _ & _ & Hf).
  exists e', a. rewrite Hf in * by (by rewrite H4). eauto 12.
Qed.

(** The durable entry after an acknowledged success. *)
Lemma finish_recorded e d d' :
  le_status e = "SUCCEEDED" -> durable_finish e d = Some d' -> durable_ok d ->
  exists e', d_entries d' !! le_operation_key e = Some e' /\ le_status e' = "SUCCEEDED" /\
    default no_budget (le_consumption e') = default no_budget (le_consumption e) /\
    le_output_artifact_key e' = le_output_artifact_key e /\ le_output_artifact_hash e' = le_output_artifact_hash e.
Proof.
  intros Hs E Hok. unfold durable_finish in E. destruct (d_entries d !! le_operation_key e) as [old|] eqn:Hk; [|done].
  simpl in E. destruct (negb _); [done|]. destruct (final_status (le_status old)) eqn:Hf.
  - destruct (same_finish old e) eqn:Hsame; [|done]. simplify_eq. exists old. unfold same_finish in Hsame.
    rewrite !andb_true_iff, !String.eqb_eq, !bool_decide_eq_true in Hsame. split_and!; try done; naive_solver congruence.
  - destruct (_ && _); [|done]. simplify_eq. eexists. simpl. by rewrite dict_lookup_insert_eq.
Qed.

(** A step that returns keeps the invariant. *)
Lemma good_step P {A} (m : LM A) w w' a :
  good_on P m -> ledger_inv w -> P (lw_durable w) -> m w = (w', Ok a) ->
  ledger_inv w' /\ evolves (lw_durable w) (lw_durable w').
Proof. intros Hm Hw HP E. destruct (Hm w Hw HP). by rewrite E in *. Qed.

Lemma artifact_recorded a w w' :
  ra_content_hash a = sha256_hex (ra_content a) -> ledger_inv w -> sink_artifact a w = (w', Ok tt) ->
  exists a', d_artifacts (lw_durable w') !! ra_artifact_key a = Some a' /\ ra_request_hash a' = ra_request_hash a /\
    ra_content_hash a' = ra_content_hash a.
Proof.
  intros Hh Hw E. destruct (send_spec (durable_artifact a) w (step_artifact a) Hw) as (_ & _ & _ & _ & Hok).
  fold (sink_artifact a) in Hok. rewrite E in Hok. specialize (Hok eq_refl). cbn [fst] in Hok.
  unfold durable_artifact in Hok. rewrite <- Hh in Hok. destruct (truthy _ && _); [done|].
  destruct (d_artifacts (lw_durable w) !! ra_artifact_key a) as [old|] eqn:Ho.
  - destruct (_ && _) eqn:Hs; [|done]. injection Hok as Hok. exists old. rewrite <- Hok.
    by apply andb_true_iff in Hs as [->%String.eqb_eq ->%String.eqb_eq].
  - injection Hok as Hok. rewrite <- Hok. eexists. simpl. rewrite dict_lookup_insert_eq. done.
Qed.

(** A settled success is recorded. *)
Lemma settle_recorded s h a v r f w w' o :
  cs_entry_kind s <> "LOCAL_TRANSITION" ->
  ra_artifact_key a = outcome_artifact_key ledger_run_id (cs_operation_key s) ->
  ra_content_hash a = sha256_hex (encode_outcome (cs_outcome_schema s) v) ->
  (exists a', d_artifacts (lw_durable w) !! ra_artifact_key a = Some a' /\ ra_request_hash a' = cs_request_hash s /\
     ra_content_hash a' = ra_content_hash a) ->
  ledger_inv w -> owned s (lw_durable w) -> settle s h a v r f w = (w', Ok o) ->
  lo_value o = v /\ recorded s v (lo_consumption o) (lw_durable w').
Proof.
  intros Hkind Hkey Hhash (a' & Ha' & Hreq & Hch) Hw Ho E. unfold settle in E.
  apply bind_ok in E as (w1 & ev & E1 & E). injection E1 as <- _.
  apply bind_ok in E as (w2 & [] & E2 & E).
  destruct (good_step _ _ _ _ _ (good_on_evidence (owned s) ev (owned_stable s)) Hw Ho E2) as [Hw2 Hev2].
  apply bind_ok in E as (w3 & c & E3 & E). injection E3 as <- _.
  set (finished := ledger_entry s "SUCCEEDED" _ _ _ _ _) in E.
  apply bind_ok in E as (w4 & [] & E4 & E).
  destruct (send_spec (durable_ledger "LEDGER_FINISHED" finished) w2 (step_ledger _ _) Hw2) as (Hw4 & Hev4 & _ & _ & Hok).
  fold (sink_ledger "LEDGER_FINISHED" finished) in *. rewrite E4 in *. specialize (Hok eq_refl). cbn [fst] in *.
  assert (Hfin : durable_finish finished (lw_durable w2) = Some (lw_durable w4)).
  { unfold durable_ledger in Hok. change (le_entry_kind finished) with (cs_entry_kind s) in Hok.
    by rewrite (proj2 (String.eqb_neq _ _) Hkind) in Hok. }
  destruct (finish_recorded finished _ _ eq_refl Hfin (proj1 Hw2)) as (e' & He' & Hs' & Hc' & Hk' & Hh').
  apply bind_ok in E as (w5 & [] & E5 & E). apply bind_ok in E as (w6 & [] & E6 & E). injection E as <- <-. simpl.
  assert (Hd : lw_durable w6 = lw_durable w4).
  { cbv [update_budget] in E5. cbv [set_lentry modify] in E6. simplify_eq. done. }
  split; [done|]. destruct (owned_stable s _ _ (evolves_trans _ _ _ Hev2 Hev4) Ho) as (e0 & He0 & Hi0).
  change (le_operation_key finished) with (cs_operation_key s) in He'. rewrite He' in He0. injection He0 as <-.
  exists e', a'. rewrite Hd. split_and!; try done; [by rewrite Hk', <- Hkey|by rewrite Hh', <- Hhash| |congruence].
  rewrite <- Hkey. apply Hev4, Hev2, Ha'.
Qed.

Lemma call_succeeded_recorded s h ty v w w' o :
  cs_entry_kind s <> "LOCAL_TRANSITION" -> ledger_inv w -> owned s (lw_durable w) ->
  call_succeeded s h ty v w = (w', Ok o) -> lo_value o = v /\ recorded s v (lo_consumption o) (lw_durable w').
Proof.
  intros Hkind Hw Ho E. unfold call_succeeded in E. set (a := build_artifact _ _ _ _ _) in E.
  apply bind_ok in E as (w1 & [] & E1 & E).
  destruct (artifact_recorded a w w1 eq_refl Hw E1) as (a' & Ha' & Hreq & Hh).
  destruct (good_step _ _ _ _ _ (good_on_send (owned s) _ (step_artifact a)) Hw Ho E1) as [Hw1 Hev1].
  apply bind_ok in E as (w2 & [] & E2 & E).
  destruct (good_step _ _ _ _ _ (good_on_lartifact any_durable a) Hw1 I E2) as [Hw2 _].
  assert (Hd : lw_durable w2 = lw_durable w1) by (cbv [set_lartifact modify] in E2; by simplify_eq).
  eapply (settle_recorded s h a); [done|reflexivity|reflexivity| |done| |exact E].
  - exists a'. rewrite Hd. done.
  - rewrite Hd. by eapply owned_stable.
Qed.

Lemma try_call_ok {A B} (body : LM A) (ok : A -> LM B) failed w w' b :
  try_call body ok failed w = (w', Ok b) -> exists w1 a, body w = (w1, Ok a) /\ ok a w1 = (w', Ok b).
Proof.
  unfold try_call. destruct (body w) as [w1 [a|e]]; [eauto|]. intros E.
  apply bind_ok in E as (w2 & [] & _ & E). cbv [raise] in E. discriminate E.
Qed.

Lemma perform_call_recorded s invoke h ty w w' o :
  good_on any_durable invoke -> cs_entry_kind s <> "LOCAL_TRANSITION" ->
  ledger_inv w -> owned s (lw_durable w) -> cs_operation_key s ∉ lw_calls w ->
  perform_call s invoke h ty w = (w', Ok o) -> recorded s (lo_value o) (lo_consumption o) (lw_durable w').
Proof.
  intros Hinv Hkind Hw Ho Hnew E. unfold perform_call in E. apply bind_ok in E as (w1 & [] & E1 & E).
  pose proof (begin_call_good s w Hw Ho Hnew) as [Hw1 Hev1]. rewrite E1 in *. cbn [fst] in *.
  apply try_call_ok in E as (w2 & v & E2 & E).
  assert (Ho1 : owned s (lw_durable w1)) by (by eapply owned_stable).
  destruct (good_step _ _ _ _ _ (good_on_body s invoke h Hinv) Hw1 Ho1 E2) as [Hw2 Hev2].
  destruct (call_succeeded_recorded s h ty v w2 w' o Hkind Hw2) as [-> ?]; [by eapply owned_stable|done|done].
Qed.

(** An outcome that was not replayed is recorded. *)
Lemma execute_recorded s invoke h kind ty w w' o :
  good_on any_durable invoke -> kind <> "LOCAL_TRANSITION" -> ledger_inv w ->
  execute_call s invoke h kind ty w = (w', Ok o) -> lo_replayed o = false ->
  validate_spec s kind = Ok tt /\ recorded s (lo_value o) (lo_consumption o) (lw_durable w').
Proof.
  intros Hinv Hkind Hw E Hrep. unfold execute_call in E. apply bind_ok in E as (w0 & [] & E0 & E).
  cbv [liftR] in E0. injection E0 as <- Hv. split; [done|]. pose proof (validate_spec_kind _ _ Hv) as Hk.
  assert (Hkind' : cs_entry_kind s <> "LOCAL_TRANSITION") by congruence.
  apply bind_ok in E as (w1 & entries & E1 & E). injection E1 as <- <-.
  assert (Hsettle : forall a v f w0, settle s h a v true f w0 <> (w', Ok o)).
  { intros a v f w0 Es. unfold settle in Es. repeat (apply bind_ok in Es as (? & ? & _ & Es)). injection Es as _ <-. done. }
  destruct (ls_entries (lw_ledger w) !! cs_operation_key s) as [e|] eqn:He.
  - apply bind_ok in E as (w2 & [] & E2 & E). cbv [liftR] in E2. injection E2 as <- Ha.
    pose proof (known_owned s e w Hw He Ha) as Ho.
    destruct (String.eqb_spec (le_status e) "SUCCEEDED") as [|Hs1].
    { unfold replay in E. repeat (apply bind_ok in E as (? & ? & _ & E)). injection E as _ <-. done. }
    destruct (String.eqb_spec (le_status e) "FAILED") as [|Hs2]; [done|].
    destruct (String.eqb_spec (le_status e) "OUTCOME_UNKNOWN") as [|Hs3]; [done|].
    destruct (String.eqb_spec (le_status e) "CALL_STARTED") as [|Hs4].
    + apply bind_ok in E as (? & ? & _ & E). case_match; [|done]. unfold finish_durable_ahead in E.
      apply bind_ok in E as (? & ? & _ & E). apply bind_ok in E as (? & ? & _ & E). by apply Hsettle in E.
    + eapply perform_call_recorded; try done. apply not_begun_not_called; [done|]. intros e' He'.
      rewrite He in He'. injection He' as <-. unfold begun_status. set_solver.
  - assert (Hnew : cs_operation_key s ∉ lw_calls w) by (apply not_begun_not_called; [done|intros e He'; congruence]).
    destruct (reserve_call_good s w Hw Hnew) as (Hi & Hev & Hcalls & Ho).
    apply bind_ok in E as (w1 & [] & E1 & E). rewrite E1 in *. cbn [fst snd] in *.
    eapply perform_call_recorded; [done|done|done|by apply Ho|by rewrite Hcalls|done].
Qed.

(** *** Reading an outcome *)

(** [json.loads] reads canonical text back. *)
Class ReadsCanonical : Prop := reads_canonical :
  forall j, floatless j = true -> json_loads (canonical_json j) = Some (canon j).

Lemma decode_encoded_outcome `{!ReadsCanonical} {A} schema v (validate : json -> result lexc A) :
  floatless v = true -> decode_outcome (encode_outcome schema v) schema validate = validate (canon v).
Proof.
  intros Hv. unfold decode_outcome, encode_outcome.
  set (j := JObj [("schema", JStr schema); ("value", v)]).
  assert (Hj : floatless j = true) by (simpl; by rewrite Hv).
  rewrite reads_canonical by done. change (canon j) with (JObj [("schema", JStr schema); ("value", canon v)]).
  assert (E1 : jget "schema" [("schema", JStr schema); ("value", canon v)] = Some (JStr schema)) by reflexivity.
  assert (E2 : jget "value" [("schema", JStr schema); ("value", canon v)] = Some (canon v)) by reflexivity.
  cbv iota beta. rewrite E1, E2.
  rewrite String.eqb_refl. change (JObj [("schema", JStr schema); ("value", canon v)]) with (canon j).
  by rewrite canonical_json_canon, String.eqb_refl.
Qed.

(** A recorded outcome is replayed by a worker that knows what is durable. *)
Lemma recorded_replays `{!ReadsCanonical} s v c invoke h kind ty w :
  (forall x y, sha256_hex x = sha256_hex y -> x = y) -> floatless v = true -> validate_spec s kind = Ok tt ->
  durable_ok (lw_durable w) -> recorded s v c (lw_durable w) ->
  (forall k, ls_entries (lw_ledger w) !! k = d_entries (lw_durable w) !! k) ->
  (forall k, ls_artifacts (lw_ledger w) !! k = d_artifacts (lw_durable w) !! k) ->
  exists a, ra_content a = encode_outcome (cs_outcome_schema s) v /\
    execute_call s invoke h kind ty w =
      (w, match h_validate h (canon v) with Ok v' => Ok (mkOutcome v' a true c) | Raise e => Raise e end).
Proof.
  intros Hinj Hv Hspec Hok (e & a & He & Hid & Hs & Hc & Hk & Hh & Ha & Hr & Hch) Hes Has.
  assert (Hcontent : ra_content a = encode_outcome (cs_outcome_schema s) v).
  { apply Hinj. rewrite <- Hch. symmetry. by apply (proj2 (proj2 (proj2 Hok)) _ _ Ha). }
  exists a. split; [done|]. unfold execute_call. rewrite Hspec. unfold mbind, M_bind, liftR, gets. rewrite Hes, He.
  assert (Hasrt : assert_identity e s = Ok tt).
  { unfold assert_identity. unfold identity, spec_identity in Hid. injection Hid as _ -> -> ->.
    by rewrite !String.eqb_refl. }
  rewrite Hasrt, Hs. change (String.eqb "SUCCEEDED" "SUCCEEDED") with true. cbv iota.
  unfold replay, artifact_for, outcome_key, mbind, M_bind, gets, liftR. rewrite Hk.
  assert (Ht : forall t, (if truthy t then t else t) = t) by (by intros []). rewrite Ht, Has, Ha, Hr, String.eqb_refl.
  simpl negb. cbv iota. rewrite Hh, Hch, String.eqb_refl. simpl negb. rewrite andb_false_r.
  unfold mret, M_ret. cbv beta iota. cbn [negb]. cbv beta iota. rewrite Hcontent, decode_encoded_outcome by done. rewrite Hc. by destruct (h_validate h (canon v)).
Qed.

End lives.

(** * The budget of a run is respected

    What a worker has consumed and what it has reserved for calls that are not
    settled stay within the limits of the run, in every dimension in which a
    call consumes at most its reservation. *)

(** ** Sums over the entries of a dictionary *)

Definition dsum {V} (f : V -> Z) (m : dict string V) : Z := foldr (fun kv z => (f kv.2 + z)%Z) 0%Z (items m).

Lemma dsum_insert {V} (f : V -> Z) (m : dict string V) k v :
  dsum f (<[k := v]> m) = (dsum f m - match m !! k with Some old => f old | None => 0 end + f v)%Z.
Proof.
  unfold dsum, insert, dict_insert, lookup, dict_lookup. destruct m as [l]. simpl.
  induction l as [|[k1 v1] l IH]; [simpl; lia|]. simpl. destruct (decide (k = k1)) as [->|Hne]; simpl; [lia|].
  rewrite IH. lia.
Qed.

Lemma dsum_elem {V} (f : V -> Z) (m : dict string V) k v :
  (forall x, x ∈ values m -> 0 <= f x)%Z -> m !! k = Some v -> (f v <= dsum f m)%Z.
Proof.
  unfold dsum, lookup, dict_lookup, values. destruct m as [l]. simpl. induction l as [|[k1 v1] l IH]; [done|].
  intros Hpos. simpl. pose proof (Hpos v1 ltac:(left)) as Hv1.
  assert (Hl : (0 <= foldr (fun kv z => f kv.2 + z) 0 l)%Z).
  { assert (Hl : forall x, x ∈ l.*2 -> (0 <= f x)%Z) by (intros x Hx; apply Hpos; by right).
    clear -Hl. induction l as [|[k2 v2] l IH]; simpl; [lia|]. pose proof (Hl v2 ltac:(left)).
    enough (0 <= foldr (fun kv z => f kv.2 + z) 0 l)%Z by lia. apply IH. intros x Hx. apply Hl. by right. }
  destruct (decide (k = k1)) as [->|Hne]; [intros [= ->]; lia|]. intros Hk.
  assert (f v <= foldr (fun kv z => f kv.2 + z) 0 l)%Z by (apply IH; [intros x Hx; apply Hpos; by right|done]). lia.
Qed.

(** ** Field-wise arithmetic *)

Lemma field_of d f : field d (budget_of f) = f d.
Proof. by destruct d. Qed.

Lemma field_add d a b : field d (budget_add a b) = (field d a + field d b)%Z.
Proof. apply field_of. Qed.

Lemma field_floor d a b : field d (subtract_floor a b) = Z.max 0 (field d a - field d b).
Proof. apply field_of. Qed.

Lemma check_fields_ok l used req ds d :
  d ∈ ds -> check_fields l used req ds = Ok tt ->
  (0 <= field d req /\ field d used + field d req <= maximum l d)%Z.
Proof.
  intros Hin. induction ds as [|d' ds IH]; [by apply elem_of_nil in Hin|]. cbn [check_fields].
  destruct (Z.ltb_spec (field d' req) 0) as [|Hpos]; [done|].
  destruct (Z.ltb_spec (maximum l d') (field d' used + field d' req)) as [|Hmax]; [done|].
  intros Hc. apply elem_of_cons in Hin as [->|Hin]; [lia|by apply IH].
Qed.

Lemma dims_all d : d ∈ dims.
Proof. destruct d; vm_compute; repeat (left || right). Qed.

Lemma check_budget_ok b used req d :
  check_budget b used req = Ok tt -> (0 <= field d req /\ field d used + field d req <= maximum (limits b) d)%Z.
Proof. apply check_fields_ok, dims_all. Qed.

Section budget.
Context `{Builtins} `{JsonLoads} `{LedgerEnv}.
(** The limits of the run, a dimension, the reservation every operation makes in it, and the operation
    keys of the run. *)
Context (L : RunBudget) (d : dim) (R : string -> Z) (K : string -> Prop).

Abbreviation akey := (outcome_artifact_key ledger_run_id).

(** What an entry still holds in reserve. *)
Definition held (e : RunLedgerEntry) : Z := if outstanding e then field d (le_reservation e) else 0%Z.

(** An entry is in one of the five statuses, reserves what its operation
    reserves, and has no consumption before it is settled. *)
Definition entry_ok (k : string) (e : RunLedgerEntry) : Prop :=
  le_status e ∈ ["RESERVED"; "CALL_STARTED"; "SUCCEEDED"; "FAILED"; "OUTCOME_UNKNOWN"] /\
  (outstanding e = true -> field d (le_reservation e) = R k /\ (0 <= R k)%Z) /\
  (le_status e = "CALL_STARTED" -> default no_budget (le_consumption e) = no_budget /\ le_output_artifact_key e = EmptyString).

Definition within_limits (st : lstate) : Prop :=
  dict_ok (ls_entries st) /\
  (forall k e, ls_entries st !! k = Some e -> entry_ok k e) /\
  (forall k, K k -> is_Some (ls_artifacts st !! akey k) ->
     exists e, ls_entries st !! k = Some e /\ le_status e <> "RESERVED") /\
  (dsum held (ls_entries st) <= field d (reserved (ls_budget st)))%Z /\
  (field d (consumed (ls_budget st)) + field d (reserved (ls_budget st)) <= maximum L d)%Z /\
  limits (ls_budget st) = L.

(** A call in progress: started, without an outcome. *)
Definition busy (k : string) (e : RunLedgerEntry) (st : lstate) : Prop :=
  K k /\ ls_entries st !! k = Some e /\ le_status e = "CALL_STARTED" /\ ls_artifacts st !! akey k = None.

Definition framed {A} (m : LM A) : Prop := forall w, within_limits (lw_ledger w) ->
  within_limits (lw_ledger (m w).1) /\ forall k e, busy k e (lw_ledger w) -> busy k e (lw_ledger (m w).1).

Lemma framed_bind {A B} (m : LM A) (k : A -> LM B) : framed m -> (forall a, framed (k a)) -> framed (x ← m; k x).
Proof.
  intros Hm Hk w Hw. destruct (Hm w Hw) as [Hb Hf]. unfold mbind, M_bind. destruct (m w) as [w1 [a|e]]; cbn [fst] in *; [|done].
  destruct (Hk a w1 Hb) as [Hb' Hf']. eauto.
Qed.

(** Computations that do not touch the worker's ledger. *)
Definition aside {A} (m : LM A) : Prop := forall w, lw_ledger (m w).1 = lw_ledger w.

Lemma framed_aside {A} (m : LM A) : aside m -> framed m.
Proof. intros Hm w Hw. specialize (Hm w). split; [by rewrite Hm|]. intros k e Hb. by rewrite Hm. Qed.

Lemma aside_read {A} (f : lworld -> result lexc A) : aside (fun w => (w, f w)).
Proof. done. Qed.

Lemma aside_bind {A B} (m : LM A) (k : A -> LM B) : aside m -> (forall a, aside (k a)) -> aside (x ← m; k x).
Proof.
  intros Hm Hk w. specialize (Hm w). unfold mbind, M_bind. destruct (m w) as [w1 [a|e]]; cbn [fst] in *; [|done].
  by rewrite Hk.
Qed.

Lemma aside_artifact_for e s : aside (artifact_for e s).
Proof. apply aside_bind; [done|]. intros arts. by repeat case_match. Qed.

Lemma aside_replay e s h : aside (replay e s h).
Proof. apply aside_bind; [apply aside_artifact_for|]. intros a. by apply aside_bind. Qed.

Lemma aside_send f : aside (send f).
Proof. intros w. unfold send. by destruct (sink_fault _), (f (lw_durable w)). Qed.

Lemma aside_evidence l : aside (sink_evidence l).
Proof. destruct l; [done|]. apply aside_bind; [apply aside_send|]. intros _. by case_match. Qed.

(** ** The steps that change the ledger *)

Lemma held_pos st x : within_limits st -> x ∈ values (ls_entries st) -> (0 <= held x)%Z.
Proof.
  intros (Hok & He & _) Hx. destruct (dict_values_lookup _ x Hok Hx) as [k Hk]. destruct (He k x Hk) as (_ & Ho & _).
  unfold held. destruct (outstanding x); [|done]. destruct (Ho eq_refl). lia.
Qed.

(** Settling a call that is in progress. *)
Lemma settle_step st k e e' c r :
  within_limits st -> ls_entries st !! k = Some e -> le_status e = "CALL_STARTED" ->
  le_status e' ∈ ["SUCCEEDED"; "FAILED"] -> field d r = R k -> (field d c <= R k)%Z ->
  within_limits (mkLState (<[k := e']> (ls_entries st)) (ls_artifacts st) (budget_finish r c (ls_budget st))).
Proof.
  intros Hst Hk Hs Hs' Hr Hc. pose proof Hst as (Hok & He & Ha & Hsum & Hmax & HL).
  assert (Hout : outstanding e = true) by (unfold outstanding; by rewrite Hs).
  destruct (He k e Hk) as (_ & Ho & _). destruct (Ho Hout) as [Hre Hpos].
  assert (Hheld : held e = R k) by (unfold held; by rewrite Hout).
  assert (Hout' : outstanding e' = false).
  { unfold outstanding. repeat (apply elem_of_cons in Hs' as [->|Hs']; [done|]). by apply elem_of_nil in Hs'. }
  pose proof (dsum_elem held _ k e (fun x => held_pos st x Hst) Hk) as Hle.
  assert (Hheld' : held e' = 0%Z) by (unfold held; by rewrite Hout').
  split_and!; simpl; [by apply dict_ok_insert| | | | |done].
  - intros k'. rewrite dict_lookup_insert. case_decide as E; [|apply He]. subst k'. intros e0 [= <-]. split_and!.
    + set_solver.
    + congruence.
    + intros Hcs. rewrite Hcs in Hs'. set_solver.
  - intros k' HK Hk'. rewrite dict_lookup_insert. case_decide as E; [|by apply Ha]. exists e'. split; [done|].
    intros Hres. rewrite Hres in Hs'. set_solver.
  - rewrite dsum_insert, Hk, field_floor. lia.
  - rewrite field_add, field_floor. lia.
Qed.

(** Writing an entry without touching the budget: a new reservation that was
    made, or the start of a call that is reserved. *)
Lemma note_step st k e :
  within_limits st -> entry_ok k e ->
  (is_Some (ls_artifacts st !! akey k) -> le_status e <> "RESERVED") ->
  (dsum held (ls_entries st) - match ls_entries st !! k with Some old => held old | None => 0 end + held e
     <= field d (reserved (ls_budget st)))%Z ->
  within_limits (mkLState (<[k := e]> (ls_entries st)) (ls_artifacts st) (ls_budget st)).
Proof.
  intros (Hok & He & Ha & Hsum & Hmax & HL) Hek Hart Hle. split_and!; simpl; [by apply dict_ok_insert| | | |done|done].
  - intros k'. rewrite dict_lookup_insert. case_decide as E; [|apply He]. subst k'. by intros e0 [= <-].
  - intros k' HK Hk'. rewrite dict_lookup_insert. case_decide as E; [|by apply Ha]. subst k'. eauto.
  - by rewrite dsum_insert.
Qed.

Lemma busy_insert k e k' e' st b :
  busy k e st -> k <> k' -> busy k e (mkLState (<[k' := e']> (ls_entries st)) (ls_artifacts st) b).
Proof. intros (HK & Hk & Hs & Ha) Hne. split_and!; simpl; [done|by rewrite dict_lookup_insert_ne|done|done]. Qed.

(** ** Sequences *)

Lemma bind_aside {A B} (m : LM A) (k : A -> LM B) w (Q : lstate -> Prop) :
  aside m -> Q (lw_ledger w) -> (forall a w1, lw_ledger w1 = lw_ledger w -> Q (lw_ledger (k a w1).1)) ->
  Q (lw_ledger ((x ← m; k x) w).1).
Proof.
  intros Hm Hw Hk. specialize (Hm w). unfold mbind, M_bind. destruct (m w) as [w1 [a|e]]; cbn [fst] in *;
    [by apply Hk|by rewrite Hm].
Qed.

(** The budget is kept, and calls in progress other than [key] are left alone. *)
Definition kept (key : string) (st st' : lstate) : Prop :=
  within_limits st' /\ forall k e, k <> key -> busy k e st -> busy k e st'.

Lemma kept_refl key st : within_limits st -> kept key st st.
Proof. by split. Qed.

Definition in_progress (s : LedgerCallSpec) (st : lstate) : Prop :=
  exists e, ls_entries st !! cs_operation_key s = Some e /\ le_status e = "CALL_STARTED".

(** Settling: the entry and the budget change together. *)
Lemma settled_kept s e c st :
  within_limits st -> in_progress s st -> le_status e ∈ ["SUCCEEDED"; "FAILED"] ->
  field d (cs_reservation s) = R (cs_operation_key s) -> (field d c <= R (cs_operation_key s))%Z ->
  kept (cs_operation_key s) st
    (mkLState (<[cs_operation_key s := e]> (ls_entries st)) (ls_artifacts st)
       (budget_finish (cs_reservation s) c (ls_budget st))).
Proof.
  intros Hst (e0 & Hk & Hs) He Hr Hc. split; [by eapply settle_step|]. intros k e' Hne Hb. by apply busy_insert.
Qed.

Lemma settle_kept s h a v r f w :
  within_limits (lw_ledger w) -> in_progress s (lw_ledger w) -> field d (cs_reservation s) = R (cs_operation_key s) ->
  (forall c, f v = Ok c -> (field d c <= R (cs_operation_key s))%Z) ->
  kept (cs_operation_key s) (lw_ledger w) (lw_ledger (settle s h a v r f w).1).
Proof.
  intros Hw Hp Hr Hc. unfold settle. apply bind_aside; [apply aside_read|by apply kept_refl|]. intros ev w1 E1.
  rewrite <- E1 in *. apply bind_aside; [apply aside_evidence|by apply kept_refl|]. intros _ w2 E2. rewrite <- E2 in *.
  apply bind_cases; intros w3 c E3; cbv [liftR] in E3; injection E3 as <- E3; [by apply kept_refl|].
  apply bind_aside; [apply aside_send|by apply kept_refl|]. intros _ w4 E4. rewrite <- E4 in *.
  cbv [mbind M_bind update_budget set_lentry modify mret M_ret set_lbudget]. simpl. apply settled_kept; auto. left.
Qed.

Lemma failed_kept s w :
  within_limits (lw_ledger w) -> in_progress s (lw_ledger w) -> field d (cs_reservation s) = R (cs_operation_key s) ->
  kept (cs_operation_key s) (lw_ledger w) (lw_ledger (call_failed s w).1).
Proof.
  intros Hw Hp Hr. unfold call_failed. apply bind_aside; [apply aside_send|by apply kept_refl|].
  intros _ w1 E1. rewrite <- E1 in *. cbv [mbind M_bind update_budget set_lentry modify set_lbudget]. simpl.
  apply settled_kept; auto; [right; left|lia].
Qed.

(** ** Calls *)

(** Different operations of the run have different artifact keys. *)
Context (akey_inj : forall k k', K k -> K k' -> akey k = akey k' -> k = k').

(** A call reserves what its operation reserves and consumes no more. *)
Definition bounded_call (s : LedgerCallSpec) (h : handlers) : Prop :=
  K (cs_operation_key s) /\ field d (cs_reservation s) = R (cs_operation_key s) /\
  forall f v c, h_consumption h = Some f -> f v = Ok c -> (field d c <= R (cs_operation_key s))%Z.

(** A transition does not use the dimension. *)
Definition unused_transition (s : LedgerCallSpec) : Prop := field d (cs_reservation s) = 0%Z.

Lemma succeeded_kept s h ty v w :
  bounded_call s h -> within_limits (lw_ledger w) -> in_progress s (lw_ledger w) ->
  kept (cs_operation_key s) (lw_ledger w) (lw_ledger (call_succeeded s h ty v w).1).
Proof.
  intros (HK & Hr & Hc) Hw Hp. unfold call_succeeded. set (a := build_artifact _ _ _ _ _).
  apply bind_aside; [apply aside_send|by apply kept_refl|]. intros _ w1 E1. rewrite <- E1 in *.
  unfold mbind, M_bind. destruct (set_lartifact a w1) as [w2 r2] eqn:E2. cbv [set_lartifact modify] in E2.
  injection E2 as E2 <-. destruct Hp as (e & Hk & Hs). pose proof Hw as (Hok & He & Ha & Hsum & Hmax & HL).
  assert (Hw2 : within_limits (lw_ledger w2)).
  { rewrite <- E2. split_and!; simpl; [done|done| |done|done|done]. intros k HKk Hk'.
    destruct (decide (k = cs_operation_key s)) as [->|Hne]; [exists e; by rewrite Hs|].
    apply Ha; [done|]. by rewrite dict_lookup_insert_ne in Hk' by (intros E; by apply akey_inj in E). }
  destruct (settle_kept s h a v false (default (fun _ => Ok (cs_reservation s)) (h_consumption h)) w2) as [Hb Hf]; auto.
  { exists e. by rewrite <- E2. }
  { intros c Hcv. destruct (h_consumption h) as [f|] eqn:Ef; simpl in Hcv; [by eapply Hc|]. simplify_eq. lia. }
  split; [done|]. intros k e' Hne (HK1 & Hk1 & Hs1 & Ha1). apply Hf; [done|]. rewrite <- E2. split_and!; simpl; [done|done|done|].
  rewrite dict_lookup_insert_ne; [done|]. intros E. by apply akey_inj in E.
Qed.

(** A call that is reserved, and one that is in progress. *)
Definition reserved_call (s : LedgerCallSpec) (st : lstate) : Prop :=
  exists e, ls_entries st !! cs_operation_key s = Some e /\ le_status e = "RESERVED".

Lemma begin_kept s w :
  K (cs_operation_key s) -> field d (cs_reservation s) = R (cs_operation_key s) -> within_limits (lw_ledger w) ->
  reserved_call s (lw_ledger w) ->
  kept (cs_operation_key s) (lw_ledger w) (lw_ledger (begin_call s w).1) /\
  ((begin_call s w).2 = Ok tt -> exists e, busy (cs_operation_key s) e (lw_ledger (begin_call s w).1)).
Proof.
  intros HK Hr Hw (e & Hk & Hs). unfold begin_call. set (started := ledger_entry s "CALL_STARTED" _ _ _ _ _).
  pose proof (aside_send (durable_ledger "LEDGER_CALL_STARTED" started) w) as Hl.
  fold (sink_ledger "LEDGER_CALL_STARTED" started) in Hl. unfold mbind, M_bind.
  destruct (sink_ledger "LEDGER_CALL_STARTED" started w) as [w1 [[]|x]]; cbn [fst] in *;
    [|split; [rewrite Hl; by apply kept_refl|done]].
  rewrite <- Hl in *. pose proof Hw as (Hok & He & Ha & Hsum & Hmax & HL). destruct (He _ _ Hk) as (_ & Ho & _).
  assert (Hout : outstanding e = true) by (unfold outstanding; by rewrite Hs). destruct (Ho Hout) as [Hre Hpos].
  assert (Hnone : ls_artifacts (lw_ledger w1) !! akey (cs_operation_key s) = None).
  { apply eq_None_not_Some. intros Hsome. destruct (Ha _ HK Hsome) as (e' & He' & Hne). congruence. }
  cbv [set_lentry start_call modify]. simpl. split; [split|].
  - apply note_step; [done| |intros [? ?]; congruence|].
    + split_and!; [set_solver|intros _; simpl; lia|done].
    + assert (Hh : held e = R (cs_operation_key s)) by (unfold held; by rewrite Hout).
      assert (Hh' : held started = R (cs_operation_key s)) by exact Hr. rewrite Hk. lia.
  - intros k e' Hne Hb. by apply busy_insert.
  - intros _. exists started. split_and!; simpl; [done|apply dict_lookup_insert_eq|done|done].
Qed.

Lemma reserve_kept s w :
  K (cs_operation_key s) -> field d (cs_reservation s) = R (cs_operation_key s) -> within_limits (lw_ledger w) ->
  ls_entries (lw_ledger w) !! cs_operation_key s = None ->
  kept (cs_operation_key s) (lw_ledger w) (lw_ledger (reserve_call s w).1) /\
  ((reserve_call s w).2 = Ok tt -> reserved_call s (lw_ledger (reserve_call s w).1)).
Proof.
  intros HK Hr Hw Hk. unfold reserve_call. set (entry := ledger_entry s "RESERVED" _ _ _ _ _).
  unfold mbind, M_bind, update_budget, budget_reserve, result_bind.
  destruct (check_budget _ _ _) as [[]|x] eqn:Hchk; [|split; [by apply kept_refl|done]].
  pose proof (check_budget_ok _ _ _ d Hchk) as [Hpos Hmax']. rewrite field_add in Hmax'.
  set (b := mkBudgetState _ _ _). set (w1 := set_lbudget b w). pose proof Hw as (Hok & He & Ha & Hsum & Hmax & HL).
  assert (Hw1 : within_limits (lw_ledger w1)).
  { rewrite HL in Hmax'. split_and!; simpl; [done|done|done| | |done]; rewrite field_add; lia. }
  assert (Hkept : kept (cs_operation_key s) (lw_ledger w) (lw_ledger w1)) by (split; [done|by intros k e]).
  pose proof (aside_send (durable_ledger "LEDGER_RESERVED" entry) w1) as Hl.
  fold (sink_ledger "LEDGER_RESERVED" entry) in Hl.
  destruct (sink_ledger "LEDGER_RESERVED" entry w1) as [w2 [[]|x]]; cbn [fst snd] in *; [|by rewrite Hl].
  cbv [set_lentry modify]. simpl. rewrite Hl. split; [split|].
  - apply note_step; [done| | |].
    + split_and!; [set_solver|intros _; simpl; lia|done].
    + intros Hsome. destruct (Ha _ HK Hsome) as (e' & He' & _). congruence.
    + assert (Hh : held entry = R (cs_operation_key s)) by exact Hr. simpl. rewrite Hk, field_add. lia.
  - intros k e Hne Hb. by apply busy_insert.
  - intros _. exists entry. split; [apply dict_lookup_insert_eq|done].
Qed.

Lemma kept_trans key st1 st2 st3 : kept key st1 st2 -> kept key st2 st3 -> kept key st1 st3.
Proof. intros [_ Hf] [Hb Hf']. split; [done|]. auto. Qed.

Lemma perform_kept s invoke h ty w :
  framed invoke -> bounded_call s h -> within_limits (lw_ledger w) -> reserved_call s (lw_ledger w) ->
  kept (cs_operation_key s) (lw_ledger w) (lw_ledger (perform_call s invoke h ty w).1).
Proof.
  intros Hinv Hs Hw Hp. unfold perform_call. destruct (begin_kept s w (proj1 Hs) (proj1 (proj2 Hs)) Hw Hp) as [Hk Hbusy].
  apply bind_cases; intros w1 r E; rewrite E in Hk, Hbusy; cbn [fst snd] in *; [done|].
  destruct r, (Hbusy eq_refl) as [e Hb]. eapply kept_trans; [exact Hk|].
  assert (Hbody : framed (raw ← invoke; liftR (h_validate h raw))).
  { apply framed_bind; [done|]. intros. apply framed_aside, aside_read. }
  destruct (Hbody w1 (proj1 Hk)) as [Hb1 Hf1]. unfold try_call.
  destruct ((raw ← invoke; liftR (h_validate h raw)) w1) as [w2 [v|x]]; cbn [fst] in *;
    assert (Hp2 : in_progress s (lw_ledger w2)) by (destruct (Hf1 _ _ Hb) as (_ & ? & ? & _); by exists e);
    (apply (kept_trans _ _ (lw_ledger w2)); [split; [done|by intros ? ? ? ?%Hf1]|]).
  - by apply succeeded_kept.
  - pose proof (failed_kept s w2 Hb1 Hp2 (proj1 (proj2 Hs))) as Hf. unfold mbind, M_bind.
    by destruct (call_failed s w2) as [w3 [[]|y]].
Qed.

(** A call in progress is not touched by a call of the same operation. *)
Lemma busy_key s e k e' st :
  busy k e' st -> ls_entries st !! cs_operation_key s = Some e -> le_status e <> "CALL_STARTED" ->
  k <> cs_operation_key s.
Proof. intros (_ & Hk & Hs & _) He Hne ->. congruence. Qed.

Lemma execute_framed s invoke h kind ty :
  framed invoke -> bounded_call s h -> framed (execute_call s invoke h kind ty).
Proof.
  intros Hinv Hs w Hw. unfold execute_call.
  assert (Hdone : within_limits (lw_ledger w) /\ forall k e, busy k e (lw_ledger w) -> busy k e (lw_ledger w)) by done.
  apply (bind_cases _ _ w (fun w' => within_limits (lw_ledger w') /\ forall k e, busy k e (lw_ledger w) -> busy k e (lw_ledger w')));
    intros w0 r0 E0; cbv [liftR] in E0; injection E0 as <- E0; [done|].
  cbv [mbind M_bind gets]. destruct (ls_entries (lw_ledger w) !! cs_operation_key s) as [e|] eqn:He.
  - unfold liftR. destruct (assert_identity e s) as [[]|x]; [|done].
    destruct (String.eqb_spec (le_status e) "SUCCEEDED") as [|Hs1].
    { apply framed_aside; [apply aside_replay|done]. }
    destruct (String.eqb_spec (le_status e) "FAILED") as [|Hs2]; [done|].
    destruct (String.eqb_spec (le_status e) "OUTCOME_UNKNOWN") as [|Hs3]; [done|].
    pose proof Hw as (Hok & Hes & Ha & _). destruct (Hes _ _ He) as (Hst & _ & Hcs).
    destruct (String.eqb_spec (le_status e) "CALL_STARTED") as [Hc|Hs4].
    + destruct (Hcs Hc) as [Hcons Hkey]. unfold has_key. case_bool_decide as Hhas; [|done].
      assert (Hnb : forall k e', busy k e' (lw_ledger w) -> k <> cs_operation_key s).
      { intros k e' (_ & _ & _ & Hnone) ->. unfold outcome_key in Hhas. rewrite Hkey in Hhas. simpl in Hhas.
        rewrite Hnone in Hhas. by destruct Hhas. }
      enough (Hk : kept (cs_operation_key s) (lw_ledger w) (lw_ledger (finish_durable_ahead e s h w).1)).
      { destruct Hk as [Hb Hf]. split; [done|]. intros k e' Hbk. apply Hf; [by eapply Hnb|done]. }
      unfold finish_durable_ahead. apply bind_aside; [apply aside_artifact_for|by apply kept_refl|].
      intros a w1 E1. rewrite <- E1 in *. apply bind_aside; [apply aside_read|by apply kept_refl|].
      intros v w2 E2. rewrite <- E2 in *. apply settle_kept; [done|by exists e|apply Hs|].
      intros c Hcv. injection Hcv as <-. pose proof (proj1 (proj2 Hs)) as Hr.
      destruct (le_consumption e) as [x|]; simpl in Hcons |- *; [|case_decide; lia].
      subst x. rewrite decide_True by done. lia.
    + assert (Hres : le_status e = "RESERVED") by set_solver.
      destruct (perform_kept s invoke h ty w Hinv Hs Hw) as [Hb Hf]; [by exists e|].
      split; [done|]. intros k e' Hbk. apply Hf; [|done]. by eapply busy_key.
  - destruct (reserve_kept s w (proj1 Hs) (proj1 (proj2 Hs)) Hw He) as [Hk Hr].
    assert (Hnb : forall k e', busy k e' (lw_ledger w) -> k <> cs_operation_key s).
    { intros k e' (_ & Hk' & _) ->. congruence. }
    destruct (reserve_call s w) as [w1 [[]|x]]; cbn [fst snd] in *.
    + destruct (kept_trans _ _ _ _ Hk (perform_kept s invoke h ty w1 Hinv Hs (proj1 Hk) (Hr eq_refl))) as [Hb Hf].
      split; [done|]. intros k e' Hbk. apply Hf; [by eapply Hnb|done].
    + destruct Hk as [Hb Hf]. split; [done|]. intros k e' Hbk. apply Hf; [by eapply Hnb|done].
Qed.

Lemma transition_framed s : unused_transition s -> framed (consume_transition s).
Proof.
  intros Hz w Hw. unfold consume_transition, mbind, M_bind, liftR, gets.
  destruct (validate_spec _ _) as [[]|x]; [|done].
  destruct (ls_entries (lw_ledger w) !! cs_operation_key s) as [e|] eqn:He.
  { destruct (assert_identity e s) as [[]|x]; [|done]. by case_match. }
  unfold update_budget, budget_consume, result_bind. destruct (check_budget _ _ _) as [[]|x] eqn:Hchk; [|done].
  set (b := mkBudgetState _ _ _). set (w1 := set_lbudget b w). set (entry := ledger_entry _ _ _ _ _ _ _).
  unfold unused_transition in Hz. pose proof Hw as (Hok & Hes & Ha & Hsum & Hmax & HL).
  assert (Hw1 : within_limits (lw_ledger w1)).
  { split_and!; simpl; [done|done|done|done| |done]. rewrite field_add, Hz. lia. }
  pose proof (aside_send (durable_ledger "LEDGER_FINISHED" entry) w1) as Hl.
  fold (sink_ledger "LEDGER_FINISHED" entry) in Hl.
  destruct (sink_ledger "LEDGER_FINISHED" entry w1) as [w2 [[]|x]]; cbn [fst snd] in *; [|by rewrite Hl].
  cbv [set_lentry modify]. simpl. rewrite Hl. split.
  - apply note_step; [done| | |].
    + split_and!; [set_solver|done|done].
    + done.
    + simpl. rewrite He. change (held entry) with 0%Z. lia.
  - intros k e Hb. apply busy_insert; [done|]. intros ->. destruct Hb as (_ & Hk & _). simpl in Hk. congruence.
Qed.

Lemma program_framed A (m : LM A) : ledger_program bounded_call unused_transition A m -> framed m.
Proof.
  induction 1 as [A f|A B m k _ IHm _ IHk|A m handler _ IHm _ IHh|s invoke h kind ty Hs _ IH|s Hs].
  - apply framed_aside, aside_read.
  - by apply framed_bind.
  - intros w Hw. destruct (IHm w Hw) as [Hb Hf]. destruct (m w) as [w1 [a|e]]; cbn [fst] in *; [done|].
    destruct (IHh e w1 Hb). eauto.
  - by apply execute_framed.
  - by apply transition_framed.
Qed.

End budget.
