(* ===== verification/LedgerDemo.v ===== *)
(** * The ledger on concrete runs

    A worker whose acknowledgement is lost after its call, the workers that are
    started after it, and the calls, budgets and outcomes they see. *)
From stdpp Require Import base list sets strings pretty.
From Stdlib Require Import ZArith Lia.
From S2P Require Import Prelude.
From S2P Require Import PyDict.
From S2P Require Import PyText.
From S2P Require Import Json.
From S2P Require Import CanonicalJson.
From S2P Require Import Ledger.
From S2P Require Import LedgerInv.
From S2P Require Import LedgerFacts.
Open Scope string_scope.

#[local] Existing Instance example_builtins.
#[local] Instance demo_loads : JsonLoads := loads.

#[local] Instance demo_reads : ReadsCanonical.
Proof. intros j Hj. unfold json_loads, demo_loads, loads. by rewrite read_canonical. Qed.

(** The message with number [lost] is applied, and its acknowledgement lost. *)
Definition demo_ledger_env (lost : nat) : LedgerEnv :=
  {| sink_fault n := if Nat.eqb n lost then LostAfterCommit else NoFault; ledger_run_id := "run-1" |}.

Definition one_attempt : BudgetVector :=
  budget_of (fun d => match d with MODEL_ATTEMPTS => 1 | OUTPUT_TOKENS => 100 | _ => 0 end)%Z.

Definition demo_limits : RunBudget := mkRunBudget (fun d => match d with MODEL_ATTEMPTS => 2 | _ => 1000 end)%Z.

Definition demo_spec (n : string) : LedgerCallSpec :=
  mkCallSpec "MODEL" "generate_unit" ("model:unit-" +:+ n +:+ ":generate") ("sha256:req-" +:+ n) one_attempt "unit_text/v1".

Definition demo_handlers : handlers := mkHandlers Ok None (fun _ => Ok []).

(** A worker that generates one unit. *)
Definition demo_call (lost : nat) (n : string) (text : string) : LM LedgerOutcome :=
  execute_call (H1 := demo_ledger_env lost) (demo_spec n) (mret (JStr text)) demo_handlers "MODEL" "MODEL_VALIDATED_OUTPUT".

Definition demo_worker (lost : nat) (n text : string) : LM unit := demo_call lost n text;; mret tt.

Lemma demo_worker_program lost n text : worker_program (H1 := demo_ledger_env lost) (demo_worker lost n text).
Proof.
  exact (lp_bind (H1 := demo_ledger_env lost) _ _ _ _ _ _
    (lp_execute (H1 := demo_ledger_env lost) any_call any_transition (demo_spec n) _ demo_handlers "MODEL"
       "MODEL_VALIDATED_OUTPUT" I
       (lp_read (H1 := demo_ledger_env lost) any_call any_transition json (fun _ => Ok (JStr text))))
    (fun _ => lp_read (H1 := demo_ledger_env lost) any_call any_transition unit (fun _ => Ok tt))).
Qed.

Definition after_workers (lost : nat) (n : nat) : lworld :=
  run_lives demo_limits (repeat (demo_worker lost "1" "text") n) new_run_world.

(** Without a fault the first worker settles the call, and later ones replay it. *)
Example settled_call :
  lw_calls (after_workers 99 1) = ["model:unit-1:generate"] /\
  lw_messages (after_workers 99 1) = 4 /\ lw_messages (after_workers 99 3) = 4 /\
  map le_status (values (d_entries (lw_durable (after_workers 99 1)))) = ["SUCCEEDED"] /\
  field MODEL_ATTEMPTS (d_consumed (lw_durable (after_workers 99 3))) = 1%Z.
Proof. vm_compute. done. Qed.

(** When the announcement is applied but not acknowledged the call is not made,
    and its outcome is unknown to every later worker; when the acknowledgement of
    the artifact is lost, the second worker settles the call without repeating it. *)
Example lost_acknowledgements :
  lw_calls (after_workers 1 3) = [] /\
  (match restart demo_limits (after_workers 1 3) with
   | Ok w => (demo_call 1 "1" "text" w).2 = Raise (LedgerOutcomeUnknown "model:unit-1:generate")
   | Raise _ => False
   end) /\
  map le_status (values (d_entries (lw_durable (after_workers 2 1)))) = ["CALL_STARTED"] /\
  map le_status (values (d_entries (lw_durable (after_workers 2 2)))) = ["SUCCEEDED"] /\
  lw_calls (after_workers 2 2) = ["model:unit-1:generate"].
Proof. vm_compute. done. Qed.

Lemma ledger_calls_at_most_once_witness :
  lw_calls (after_workers 2 3) = ["model:unit-1:generate"] /\ NoDup (lw_calls (after_workers 2 3)).
Proof.
  split; [vm_compute; reflexivity|].
  exact (proj1 (ledger_calls_at_most_once (H1 := demo_ledger_env 2) demo_limits (repeat (demo_worker 2 "1" "text") 3)
    (Forall_cons_2 _ _ _ (demo_worker_program 2 "1" "text") (Forall_cons_2 _ _ _ (demo_worker_program 2 "1" "text")
      (Forall_cons_2 _ _ _ (demo_worker_program 2 "1" "text") (Forall_nil_2 _)))))).
Defined.

(** A worker on the new run. *)
Definition started_world : lworld :=
  mkLWorld (lw_durable new_run_world) 0 []
    (mkLState ∅ ∅ (mkBudgetState demo_limits no_budget no_budget)).

Lemma started_world_restarted : restart demo_limits new_run_world = Ok started_world.
Proof. reflexivity. Qed.

Definition settled_world : lworld := (demo_call 99 "1" "text" started_world).1.

Definition demo_artifact : RunArtifact :=
  build_artifact "run-1:ledger:model:unit-1:generate:outcome" "MODEL_VALIDATED_OUTPUT" "sha256:req-1" "unit_text/v1"
    (JStr "text").

Definition later_world : lworld :=
  match restart demo_limits (run_lives demo_limits [demo_worker 99 "2" "more"] settled_world) with
  | Ok w => w
  | Raise _ => new_run_world
  end.


(** Three calls, for two of which there is budget. *)
Definition three_calls : LM unit :=
  demo_call 99 "1" "a";; demo_call 99 "2" "b";; demo_call 99 "3" "c";; mret tt.

Example third_call_refused :
  lw_calls (three_calls started_world).1 = ["model:unit-1:generate"; "model:unit-2:generate"] /\
  (three_calls started_world).2 = Raise (BudgetExhausted "MODEL_ATTEMPT_BUDGET_EXHAUSTED").
Proof. vm_compute. done. Qed.

Definition demo_key (k : string) : Prop := k ∈ map (fun n => cs_operation_key (demo_spec n)) ["1"; "2"; "3"].

Lemma demo_artifact_keys k k' :
  demo_key k -> demo_key k' -> outcome_artifact_key "run-1" k = outcome_artifact_key "run-1" k' -> k = k'.
Proof.
  unfold demo_key. simpl. intros Hk Hk'. rewrite !elem_of_cons, elem_of_nil in Hk, Hk'.
  destruct Hk as [->|[->|[->|[]]]], Hk' as [->|[->|[->|[]]]]; vm_compute; congruence.
Qed.

Lemma demo_call_bounded n :
  demo_key (cs_operation_key (demo_spec n)) -> bounded_call MODEL_ATTEMPTS (fun _ => 1%Z) demo_key (demo_spec n) demo_handlers.
Proof. intros Hk. split_and!; [done|done|]. intros f v c [=]. Qed.

