(* ===== verification/CodePoints.v ===== *)
(** * Strings as sequences of code points

    Slicing, searching and the character classes of regular expressions are
    simplest on the code points of a string.  [decode] and [encode] convert
    between a string, which is its UTF-8 encoding, and its code points. *)
From stdpp Require Import base list strings.
From Stdlib Require Import NArith Lia.
From S2P Require Import Prelude.
#[local] Open Scope N_scope.

Definition text : Type := list N.

Definition byte (n : N) : Ascii.ascii := Ascii.ascii_of_N n.

Definition encode_code (c : N) (rest : string) : string :=
  if c <? 128 then String (byte c) rest
  else if c <? 2048 then String (byte (192 + c / 64)) (String (byte (128 + c mod 64)) rest)
  else if c <? 65536 then
    String (byte (224 + c / 4096)) (String (byte (128 + c / 64 mod 64)) (String (byte (128 + c mod 64)) rest))
  else
    String (byte (240 + c / 262144)) (String (byte (128 + c / 4096 mod 64))
      (String (byte (128 + c / 64 mod 64)) (String (byte (128 + c mod 64)) rest))).

Definition encode (t : text) : string := foldr encode_code EmptyString t.

(** The length of a sequence is told by its first byte. *)
Fixpoint decode (s : string) : text :=
  match s with
  | EmptyString => []
  | String a s1 =>
      let x := Ascii.N_of_ascii a in
      if x <? 192 then x :: decode s1
      else match s1 with
      | EmptyString => []
      | String b s2 =>
          let y := Ascii.N_of_ascii b mod 64 in
          if x <? 224 then ((x - 192) * 64 + y) :: decode s2
          else match s2 with
          | EmptyString => []
          | String c s3 =>
              let z := Ascii.N_of_ascii c mod 64 in
              if x <? 240 then ((x - 224) * 4096 + y * 64 + z) :: decode s3
              else match s3 with
              | EmptyString => []
              | String d s4 =>
                  ((x - 240) * 262144 + y * 4096 + z * 64 + Ascii.N_of_ascii d mod 64) :: decode s4
              end
          end
      end
  end.

(** Code points are below 1114112; the encoding is faithful below [2 ^ 22]. *)
Definition code_ok (c : N) : Prop := c < 4194304.

Lemma byte_value n : n < 256 -> Ascii.N_of_ascii (byte n) = n.
Proof. apply Ascii.N_ascii_embedding. Qed.

Lemma byte_continuation n : n < 256 -> is_continuation (byte n) = (128 <=? n) && (n <? 192).
Proof.
  intros Hn. unfold is_continuation, Ascii.nat_of_ascii. rewrite byte_value by done.
  destruct (N.leb_spec 128 n), (N.ltb_spec n 192), (Nat.leb_spec 128 (N.to_nat n)), (Nat.ltb_spec (N.to_nat n) 192);
    done || lia.
Qed.

(** The digits of a code point in base 64. *)
Lemma digits_64 c : exists a b d e, c = a * 262144 + b * 4096 + d * 64 + e /\ b < 64 /\ d < 64 /\ e < 64 /\
  c mod 64 = e /\ c / 64 = a * 4096 + b * 64 + d /\ c / 64 mod 64 = d /\ c / 4096 = a * 64 + b /\
  c / 4096 mod 64 = b /\ c / 262144 = a.
Proof.
  exists (c / 262144), (c / 4096 mod 64), (c / 64 mod 64), (c mod 64).
  assert (E1 : c / 4096 = c / 64 / 64) by (rewrite N.Div0.div_div; done).
  assert (E2 : c / 262144 = c / 4096 / 64) by (rewrite N.Div0.div_div; done).
  rewrite E2, E1. pose proof (N.div_mod c 64). pose proof (N.div_mod (c / 64) 64). pose proof (N.div_mod (c / 64 / 64) 64).
  pose proof (N.mod_lt c 64). pose proof (N.mod_lt (c / 64) 64). pose proof (N.mod_lt (c / 64 / 64) 64). lia.
Qed.

Ltac code_bytes c :=
  let a := fresh "a" in let b := fresh "b" in let d := fresh "d" in let e := fresh "e" in
  destruct (digits_64 c) as (a & b & d & e & ? & ? & ? & ? & E1 & E2 & E3 & E4 & E5 & E6);
  rewrite ?E1, ?E3, ?E5, ?E6; rewrite ?E2, ?E4.

Lemma str_len_encode_code c rest : code_ok c -> str_len (encode_code c rest) = S (str_len rest).
Proof.
  unfold code_ok, encode_code. intros Hc. code_bytes c.
  destruct (N.ltb_spec c 128); [|destruct (N.ltb_spec c 2048); [|destruct (N.ltb_spec c 65536)]]; cbn [str_len];
    rewrite !byte_continuation by lia;
    repeat match goal with |- context [N.leb ?x ?y] => destruct (N.leb_spec x y); try lia end;
    repeat match goal with |- context [N.ltb ?x ?y] => destruct (N.ltb_spec x y); try lia end; done.
Qed.

Lemma str_len_encode t : Forall code_ok t -> str_len (encode t) = length t.
Proof. induction 1 as [|c t Hc _ IH]; [done|]. simpl. by rewrite str_len_encode_code, IH. Qed.

Lemma continuation_bits x : x < 64 -> (128 + x) mod 64 = x.
Proof. intros Hx. change (128 + x) with (2 * 64 + x). rewrite N.add_comm, N.Div0.mod_add. by apply N.mod_small. Qed.

Lemma decode_encode_code c rest : code_ok c -> decode (encode_code c rest) = c :: decode rest.
Proof.
  unfold code_ok, encode_code. intros Hc. code_bytes c.
  destruct (N.ltb_spec c 128) as [|]; [|destruct (N.ltb_spec c 2048) as [|]; [|destruct (N.ltb_spec c 65536) as [|]]];
    cbn [decode]; rewrite !byte_value by lia;
    repeat match goal with |- context [N.ltb ?x ?y] => destruct (N.ltb_spec x y); try lia end; f_equal;
    repeat (rewrite continuation_bits by lia); lia.
Qed.

Lemma decode_encode t : Forall code_ok t -> decode (encode t) = t.
Proof. induction 1 as [|c t Hc _ IH]; [done|]. simpl. by rewrite decode_encode_code, IH. Qed.

Lemma decode_ok s : Forall code_ok (decode s).
Proof.
  assert (Hb : forall a, Ascii.N_of_ascii a < 256) by apply Ascii.N_ascii_bounded.
  assert (Hm : forall a, a mod 64 < 64) by (intros a; by apply N.mod_lt).
  enough (H : forall n s, (String.length s <= n)%nat -> Forall code_ok (decode s)) by eauto.
  intros n. induction n as [|n IH]; intros [|a s1] Hl; [constructor|simpl in Hl; lia|constructor|].
  cbn [decode String.length] in *. pose proof (Hb a). unfold code_ok.
  destruct (N.ltb_spec (Ascii.N_of_ascii a) 192); [constructor; [lia|apply IH; lia]|].
  destruct s1 as [|b s2]; [constructor|]. pose proof (Hm (Ascii.N_of_ascii b)). cbn [String.length] in Hl.
  destruct (N.ltb_spec (Ascii.N_of_ascii a) 224); [constructor; [lia|apply IH; lia]|].
  destruct s2 as [|c s3]; [constructor|]. pose proof (Hm (Ascii.N_of_ascii c)). cbn [String.length] in Hl.
  destruct (N.ltb_spec (Ascii.N_of_ascii a) 240); [constructor; [lia|apply IH; lia]|].
  destruct s3 as [|d s4]; [constructor|]. pose proof (Hm (Ascii.N_of_ascii d)). cbn [String.length] in Hl.
  constructor; [lia|apply IH; lia].
Qed.

(** ** Operations on code points *)

(** [str.isspace], and the class [\s] of regular expressions. *)
Definition space (c : N) : bool :=
  ((9 <=? c) && (c <=? 13)) || ((28 <=? c) && (c <=? 32)) || (c =? 133) || (c =? 160) || (c =? 5760)
  || ((8192 <=? c) && (c <=? 8202)) || (c =? 8232) || (c =? 8233) || (c =? 8239) || (c =? 8287) || (c =? 12288).

(** [s.lstrip()], [s.rstrip()], [s.strip()]. *)
Fixpoint tlstrip (t : text) : text :=
  match t with
  | c :: t' => if space c then tlstrip t' else t
  | [] => []
  end.

Definition trstrip (t : text) : text := rev (tlstrip (rev t)).
Definition tstrip (t : text) : text := trstrip (tlstrip t).

(** The longest prefix in a class, and the rest. *)
Fixpoint span (p : N -> bool) (t : text) : text * text :=
  match t with
  | c :: t' => if p c then let (a, b) := span p t' in (c :: a, b) else ([], t)
  | [] => ([], [])
  end.

(** [sep.join(parts)]. *)
Fixpoint tjoin (sep : text) (l : list text) : text :=
  match l with
  | [] => []
  | [t] => t
  | t :: l' => t ++ sep ++ tjoin sep l'
  end.

(** The boundaries of [str.splitlines] that are one code point. *)
Definition line_break (c : N) : bool :=
  ((10 <=? c) && (c <=? 13)) || ((28 <=? c) && (c <=? 30)) || (c =? 133) || (c =? 8232) || (c =? 8233).

(** [s.splitlines()]; [current] is the open line. *)
Fixpoint tsplitlines_from (current t : text) : list text :=
  match t with
  | [] => match current with [] => [] | _ => [current] end
  | c :: t' =>
      if c =? 13 then
        match t' with
        | d :: t'' => if d =? 10 then current :: tsplitlines_from [] t'' else current :: tsplitlines_from [] t'
        | [] => [current]
        end
      else if line_break c then current :: tsplitlines_from [] t'
      else tsplitlines_from (current ++ [c]) t'
  end.

Definition tsplitlines (t : text) : list text := tsplitlines_from [] t.

(** [s.split()]: the maximal parts without whitespace. *)
Fixpoint words_from (current t : text) : list text :=
  match t with
  | [] => match current with [] => [] | _ => [current] end
  | c :: t' =>
      if space c then match current with [] => words_from [] t' | _ => current :: words_from [] t' end
      else words_from (current ++ [c]) t'
  end.

Definition words (t : text) : list text := words_from [] t.

(** [re.sub(r"\s+", " ", s)]. *)
Fixpoint compact_spaces (t : text) : text :=
  match t with
  | [] => []
  | c :: t' =>
      if space c then match t' with
                      | d :: _ => if space d then compact_spaces t' else 32 :: compact_spaces t'
                      | [] => [32]
                      end
      else c :: compact_spaces t'
  end.
