(* ===== verification/Chunking.v ===== *)
(** * Text and chunks of historical documents

    [historical/text.py] and [historical/chunking.py]: normalisation,
    tokenisation and excerpts of Markdown, and its division into chunks of
    bounded length.  Texts are sequences of code points here; Unicode
    normalisation and the removal of dangerous HTML blocks by a regular
    expression with a back reference are parameters. *)
From stdpp Require Import base list strings pretty.
From Stdlib Require Import NArith ZArith.
From S2P Require Import Prelude.
From S2P Require Import PyText.
From S2P Require Import Json.
From S2P Require Import RepositoryPolicy.
From S2P Require Import CodePoints.

Class TextEngine := {
  nfc : string -> string;
  remove_dangerous_blocks : string -> string
}.

(** ** [text.py] *)

Definition TOKENIZER_VERSION : string := "historical-tokenizer.zh-bigram.v1".

(** The rest after the first ['>']. *)
Fixpoint after_gt (t : text) : option text :=
  match t with
  | [] => None
  | c :: t' => if (c =? 62)%N then Some t' else after_gt t'
  end.

(** [_HTML_TAG.sub("", s)] for [<[^>]+>]. *)
Fixpoint remove_tags_fuel (fuel : nat) (t : text) : text :=
  match fuel, t with
  | S fuel', c :: t' =>
      if (c =? 60)%N then
        match t' with
        | d :: _ =>
            if (d =? 62)%N then c :: remove_tags_fuel fuel' t'
            else match after_gt t' with
                 | Some rest => remove_tags_fuel fuel' rest
                 | None => c :: remove_tags_fuel fuel' t'
                 end
        | [] => [c]
        end
      else c :: remove_tags_fuel fuel' t'
  | _, _ => []
  end.

Definition remove_tags (t : text) : text := remove_tags_fuel (length t) t.

Section text_functions.
Context `{Builtins} `{TextEngine}.

(** [normalize_markdown]; [HistoricalContentError] is a [ValueError]. *)
Definition normalize_markdown (value : string) : result exc string :=
  if has_char 0 value then Raise ValueError
  else
    let normalized := remove_dangerous_blocks (unify_newlines (nfc value)) in
    Ok (encode (tstrip (tjoin [10%N] (map trstrip (tsplitlines (remove_tags (decode normalized))))))).

Definition ascii_word (c : N) : bool := ((97 <=? c) && (c <=? 122) || (48 <=? c) && (c <=? 57))%N.
Definition cjk (c : N) : bool := ((13312 <=? c) && (c <=? 19903) || (19968 <=? c) && (c <=? 40959))%N.

Definition ascii_stopwords : list string := ["a"; "an"; "and"; "or"; "the"; "to"; "of"; "in"; "is"].
Definition cjk_stopwords : list N := [20026; 19982; 21644; 30340; 20102]%N.

(** The single characters, then the pairs of neighbours. *)
Fixpoint bigrams (t : text) : list string :=
  match t with
  | c :: (d :: _) as t' => encode [c; d] :: bigrams t'
  | _ => []
  end.

Definition cjk_tokens (part : text) : list string :=
  map (fun c => encode [c]) (List.filter (fun c => negb (bool_decide (c ∈ cjk_stopwords))) part) ++ bigrams part.

(** The matches of [[a-z0-9]+|[\u3400-\u4dbf\u4e00-\u9fff]+], left to right;
    every step consumes a character. *)
Fixpoint tokenize_fuel (fuel : nat) (t : text) : list string :=
  match fuel, t with
  | S fuel', c :: t' =>
      if ascii_word c then
        let (part, rest) := span ascii_word t in
        (if bool_decide (encode part ∈ ascii_stopwords) then [] else [encode part]) ++ tokenize_fuel fuel' rest
      else if cjk c then
        let (part, rest) := span cjk t in cjk_tokens part ++ tokenize_fuel fuel' rest
      else tokenize_fuel fuel' t'
  | _, _ => []
  end.

Definition tokenize (value : string) : list string :=
  let normalized := decode (lower (nfc value)) in tokenize_fuel (length normalized) normalized.

Definition token_text (content title : string) (product_tags : list string) : string * nat :=
  let tags := str_join " " product_tags in
  let weighted := tokenize content ++ tokenize title ++ tokenize title ++ tokenize tags ++ tokenize tags in
  (str_join " " weighted, length weighted).

(** [safe_excerpt] with its default limit of 800; 8230 is the ellipsis. *)
Definition safe_excerpt `{RegexEngine} (value : string) : string * bool :=
  let (redacted, changed) := redact value in
  let compact := tstrip (compact_spaces (decode redacted)) in
  (encode (if (800 <? length compact)%nat then trstrip (take 799 compact) ++ [8230%N] else compact), changed).
End text_functions.

(** ** [chunking.py] *)

Record HistoricalPrdChunk := mkChunk {
  ch_chunk_id : string;
  ch_document_version_id : string;
  ch_section_path : list string;
  ch_ordinal : nat;
  ch_content : string;
  ch_content_hash : string;
  ch_token_text : string;
  ch_token_count : nat
}.

#[global] Instance HistoricalPrdChunk_eq_dec : EqDecision HistoricalPrdChunk.
Proof. solve_decision. Defined.

(** [^(#{1,3})\s+(.+?)\s*$]: the level and the stripped title.  When only
    whitespace follows the hashes, the last of it is the title. *)
Definition section_heading (line : text) : option (nat * text) :=
  let (hashes, rest) := span (N.eqb 35) line in
  let (spaces, title) := span space rest in
  if (1 <=? length hashes)%nat && (length hashes <=? 3)%nat && (1 <=? length spaces)%nat
     && ((1 <=? length title)%nat || (2 <=? length spaces)%nat)
  then Some (length hashes, tstrip title) else None.

Definition section := (list text * text)%type.

(** [flush]: the section that ends, when it has content. *)
Definition flush (current_path : list text) (lines : list text) : list section :=
  match tstrip (tjoin [10%N] lines) with
  | [] => []
  | content => [(current_path, content)]
  end.

(** [paths[level - 1:] = []], padded to the level, and the new title. *)
Definition push_heading (paths : list text) (level : nat) (title : text) : list text :=
  let kept := take (level - 1) paths in
  kept ++ replicate (level - 1 - length kept) [] ++ [title].

(** The loop of [_sections] and the last [flush]. *)
Fixpoint sections_from (paths current_path : list text) (lines : list text) (rest : list text) : list section :=
  match rest with
  | [] => flush current_path lines
  | line :: rest' =>
      match section_heading line with
      | None => sections_from paths current_path (lines ++ [line]) rest'
      | Some (level, title) =>
          let paths' := push_heading paths level title in
          flush current_path lines
            ++ sections_from paths' (List.filter (fun p => negb (Nat.eqb (length p) 0)) paths') [] rest'
      end
  end.

Definition sections (markdown : text) : list section := sections_from [] [] [] (tsplitlines markdown).

Definition split_marks : list N := [10; 12290; 65281; 65311; 46; 59; 65307]%N.

(** The greatest index, below the length of [t], of one of the marks. *)
Fixpoint last_mark (i : nat) (t : text) (found : option nat) : option nat :=
  match t with
  | [] => found
  | c :: t' => last_mark (S i) t' (if bool_decide (c ∈ split_marks) then Some i else found)
  end.

(** Where [_hard_split] cuts. *)
Definition boundary (hard_limit : nat) (remaining : text) : nat :=
  match last_mark 0 (take (hard_limit + 1) remaining) None with
  | Some b => if (b <? hard_limit `div` 2)%nat then hard_limit else S b
  | None => hard_limit
  end.

(** The loop of [_hard_split]; every round cuts at least one character. *)
Fixpoint hard_split_fuel (fuel hard_limit : nat) (remaining : text) : list text :=
  match fuel with
  | S fuel' =>
      if (hard_limit <? length remaining)%nat then
        let b := boundary hard_limit remaining in
        tstrip (take b remaining) :: hard_split_fuel fuel' hard_limit (tstrip (drop b remaining))
      else match remaining with [] => [] | _ => [remaining] end
  | 0 => []
  end.

Definition hard_split (value : text) (hard_limit : nat) : list text :=
  hard_split_fuel (S (length (tstrip value))) hard_limit (tstrip value).

(** The part of a whitespace run after its last line feed, if it has one. *)
Fixpoint after_last_newline (run : text) : option text :=
  match run with
  | [] => None
  | c :: run' =>
      match after_last_newline run' with
      | Some r => Some r
      | None => if (c =? 10)%N then Some run' else None
      end
  end.

(** [re.split(r"\n\s*\n", content)]: a separator ends at the last line feed of
    the whitespace after its first one. *)
Fixpoint split_blank_fuel (fuel : nat) (current t : text) : list text :=
  match fuel, t with
  | S fuel', c :: t' =>
      if (c =? 10)%N then
        let (run, rest) := span space t' in
        match after_last_newline run with
        | Some tail => current :: split_blank_fuel fuel' [] (tail ++ rest)
        | None => split_blank_fuel fuel' (current ++ [c]) t'
        end
      else split_blank_fuel fuel' (current ++ [c]) t'
  | _, _ => [current]
  end.

Definition split_blank (t : text) : list text := split_blank_fuel (length t) [] t.

(** The body of the inner loop of [_chunk_section] on the finished chunks and
    the current one. *)
Definition add_block (target_limit hard_limit : nat) (st : list text * text) (block : text) : list text * text :=
  let (chunks, current) := st in
  let candidate := match current with [] => block | _ => tstrip (current ++ [10; 10]%N ++ block) end in
  let '(chunks', current') :=
    match current with
    | [] => (chunks, candidate)
    | _ => if (target_limit <? length candidate)%nat then (chunks ++ [current], block) else (chunks, candidate)
    end in
  if (hard_limit <=? length current')%nat then (chunks' ++ [current'], []) else (chunks', current').

Definition section_blocks (content : text) : list text :=
  List.filter (fun t => negb (Nat.eqb (length t) 0)) (map tstrip (split_blank content)).

(** [_chunk_section]. *)
Definition chunk_section (target_limit hard_limit : nat) (content : text) : list text :=
  let '(chunks, current) := fold_left (add_block target_limit hard_limit)
    (concat (map (fun original => hard_split original hard_limit) (section_blocks content))) ([], []) in
  match current with [] => chunks | _ => chunks ++ [current] end.

Section chunks.
Context `{Builtins} `{TextEngine}.

(** [_digest] of chunking.py and [_identifier] of ingest.py. *)
Definition identifier (prefix : string) (value : json) : string :=
  prefix +:+ "-" +:+ str_take 32 (sha256_hex (canonical_json value)).

Definition content_hash (value : string) : string := "sha256:" +:+ sha256_hex value.

(** The chunk of a piece of text, with the length limits of the model. *)
Definition make_chunk (document_version_id title : string) (product_tags : list string) (path : list text)
    (ordinal : nat) (content : text) : result exc HistoricalPrdChunk :=
  let body := encode content in
  let hashed := content_hash body in
  let (indexed_text, count) := token_text body title product_tags in
  let section_path := map encode path in
  if (length content <? 1)%nat || (1200 <? length content)%nat then Raise ValueError
  else Ok (mkChunk
    (identifier "chunk" (JObj [("document_version_id", JStr document_version_id);
       ("section_path", JArr (map JStr section_path)); ("ordinal", JInt (Z.of_nat ordinal));
       ("content_hash", JStr hashed)]))
    document_version_id section_path ordinal body hashed indexed_text count).

(** The two loops of [chunk_markdown] produce these pieces, in this order. *)
Definition pieces (target_limit hard_limit : nat) (markdown : text) : list (list text * text) :=
  concat (map (fun s => map (pair s.1) (chunk_section target_limit hard_limit s.2)) (sections markdown)).

Fixpoint make_chunks (document_version_id title : string) (product_tags : list string) (ordinal : nat)
    (l : list (list text * text)) : result exc (list HistoricalPrdChunk) :=
  match l with
  | [] => Ok []
  | (path, content) :: rest =>
      result_bind (fun c => result_bind (fun cs => Ok (c :: cs))
        (make_chunks document_version_id title product_tags (S ordinal) rest))
        (make_chunk document_version_id title product_tags path ordinal content)
  end.

(** [chunk_markdown]. *)
Definition chunk_markdown (markdown document_version_id title : string) (product_tags : list string)
    (target_limit hard_limit : nat) : result exc (list HistoricalPrdChunk) :=
  if negb ((1 <=? target_limit)%nat && (target_limit <=? hard_limit)%nat && (hard_limit <=? 1200)%nat)
  then Raise ValueError
  else make_chunks document_version_id title product_tags 0 (pieces target_limit hard_limit (decode markdown)).
End chunks.

(** ** Examples *)

#[local] Definition lines_of (l : list string) : string := str_join (str_of_codes [10]) l.

Example sections_example :
  map (fun s => (map encode s.1, encode s.2)) 
    (sections (decode (lines_of ["intro"; "# A"; "## B "; "x"; ""; "y"; "# C"; "### D"; "z"])))
  = [([], "intro"); (["A"; "B"], lines_of ["x"; ""; "y"]); (["C"; "D"], "z")].
Proof. reflexivity. Qed.

Example split_example :
  map encode (split_blank (decode (lines_of ["a"; "  "; ""; " b"; "c"]))) = ["a"; lines_of [" b"; "c"]].
Proof. reflexivity. Qed.

Example hard_split_example :
  map encode (hard_split (decode "abc. defgh ijkl") 6) = ["abc."; "defgh"; "ijkl"].
Proof. reflexivity. Qed.
