(* ===== verification/ChunkingFacts.v ===== *)
(** * Chunks keep the text and respect their limits

    What the division of a document into chunks may change is whitespace: the
    other characters, in order, are those of the lines that are not headings. *)
From stdpp Require Import base list strings.
From Stdlib Require Import NArith ZArith Lia.
From S2P Require Import Prelude.
From S2P Require Import Json.
From S2P Require Import CodePoints.
From S2P Require Import Chunking.

(** ** The characters that are not whitespace *)

Definition ink (t : text) : text := List.filter (fun c => negb (space c)) t.

Lemma ink_app a b : ink (a ++ b) = ink a ++ ink b.
Proof. apply List.filter_app. Qed.

Lemma ink_cons c t : ink (c :: t) = (if space c then [] else [c]) ++ ink t.
Proof. unfold ink. simpl. by destruct (space c). Qed.

Lemma ink_rev t : ink (rev t) = rev (ink t).
Proof. induction t as [|c t IH]; [done|]. simpl rev. rewrite ink_app, IH, !ink_cons. destruct (space c); simpl; by rewrite ?app_nil_r. Qed.

Lemma ink_tlstrip t : ink (tlstrip t) = ink t.
Proof.
  induction t as [|c t IH]; [done|]. cbn [tlstrip]. rewrite ink_cons. destruct (space c) eqn:E; [done|].
  by rewrite ink_cons, E.
Qed.

Lemma ink_tstrip t : ink (tstrip t) = ink t.
Proof. unfold tstrip, trstrip. by rewrite ink_rev, ink_tlstrip, ink_rev, ink_tlstrip, rev_involutive. Qed.

Lemma ink_spaces t : Forall (fun c => space c = true) t -> ink t = [].
Proof. induction 1 as [|c t Hc _ IH]; [done|]. by rewrite ink_cons, Hc, IH. Qed.

Lemma ink_concat_cons t l : ink (concat (t :: l)) = ink t ++ ink (concat l).
Proof. apply ink_app. Qed.

Lemma ink_concat_app l l' : ink (concat (l ++ l')) = ink (concat l) ++ ink (concat l').
Proof. by rewrite concat_app, ink_app. Qed.

(** ** Stripping *)

Definition inked (t : text) : Prop := ink t <> [].

Lemma inked_nonempty t : inked t -> 1 <= length t.
Proof. destruct t; [done|simpl; lia]. Qed.

Lemma inked_app_l a b : inked a -> inked (a ++ b).
Proof. unfold inked. rewrite ink_app. by destruct (ink a). Qed.

Lemma length_tlstrip t : length (tlstrip t) <= length t.
Proof. induction t as [|c t IH]; simpl; [lia|]. destruct (space c); simpl; lia. Qed.

Lemma length_tstrip t : length (tstrip t) <= length t.
Proof.
  unfold tstrip, trstrip. rewrite length_rev. etrans; [apply length_tlstrip|]. rewrite length_rev. apply length_tlstrip.
Qed.

(** A stripped text starts with a character that is not whitespace. *)
Definition starts_inked (t : text) : Prop := match t with c :: _ => space c = false | [] => True end.

Lemma tlstrip_starts t : starts_inked (tlstrip t).
Proof. induction t as [|c t IH]; [done|]. simpl. by destruct (space c) eqn:E. Qed.

Lemma tlstrip_snoc a c : space c = false -> tlstrip (a ++ [c]) = tlstrip a ++ [c].
Proof. intros Hc. induction a as [|d a IH]; simpl; [by rewrite Hc|]. by destruct (space d). Qed.

Lemma trstrip_starts t : starts_inked t -> starts_inked (trstrip t).
Proof.
  destruct t as [|c t]; [done|]. simpl. intros Hc. unfold trstrip. simpl. rewrite tlstrip_snoc, rev_app_distr by done. done.
Qed.

Lemma tstrip_starts t : starts_inked (tstrip t).
Proof. apply trstrip_starts, tlstrip_starts. Qed.

Lemma starts_inked_take n t : starts_inked t -> 1 <= n -> 1 <= length t -> inked (take n t).
Proof. destruct n, t as [|c t]; simpl; try lia. intros Hc _ _. unfold inked. by rewrite ink_cons, Hc. Qed.

Lemma tstrip_inked t : tstrip t <> [] -> inked t.
Proof.
  intros Hne. pose proof (tstrip_starts t) as Hs. unfold inked. rewrite <- ink_tstrip.
  destruct (tstrip t) as [|c t']; [done|]. simpl in Hs. by rewrite ink_cons, Hs.
Qed.

(** ** Cutting at the hard limit *)

Lemma last_mark_bound t i found n :
  last_mark i t found = Some n -> found = Some n \/ n < i + length t.
Proof.
  revert i found. induction t as [|c t IH]; intros i found; simpl; [by left|]. intros Hl.
  destruct (IH _ _ Hl) as [Hf|]; [|right; lia]. case_bool_decide; [|by left]. injection Hf as <-. right. lia.
Qed.

Lemma boundary_bounds hard t :
  1 <= hard -> hard < length t -> 1 <= boundary hard t <= hard + 1.
Proof.
  intros Hh Hl. unfold boundary. destruct (last_mark _ _ _) as [n|] eqn:E; [|lia].
  apply last_mark_bound in E as [|Hn]; [done|]. rewrite length_take in Hn. case_match; lia.
Qed.

Definition fits (n : nat) (t : text) : Prop := inked t /\ length t <= n.

Lemma hard_split_fuel_spec fuel hard t :
  1 <= hard -> starts_inked t -> length t < fuel ->
  Forall (fits (hard + 1)) (hard_split_fuel fuel hard t) /\ ink (concat (hard_split_fuel fuel hard t)) = ink t.
Proof.
  intros Hh. revert t. induction fuel as [|fuel IH]; intros t Hs Hf; [lia|]. cbn [hard_split_fuel].
  destruct (Nat.ltb_spec hard (length t)) as [Hlt|Hge].
  - pose proof (boundary_bounds hard t Hh Hlt) as [Hb1 Hb2].
    pose proof (length_tstrip (drop (boundary hard t) t)) as Hd. rewrite length_drop in Hd.
    destruct (IH (tstrip (drop (boundary hard t) t)) (tstrip_starts _) ltac:(lia)) as [Hall Hink]. split.
    + constructor; [|done]. split.
      * unfold inked. rewrite ink_tstrip. apply starts_inked_take; [done|lia|lia].
      * etrans; [apply length_tstrip|]. rewrite length_take. lia.
    + rewrite ink_concat_cons, Hink, !ink_tstrip, <- ink_app. by rewrite take_drop.
  - destruct t as [|c t]; [done|]. split; [|simpl; by rewrite app_nil_r]. repeat constructor; [|lia].
    unfold inked. simpl in Hs. by rewrite ink_cons, Hs.
Qed.

Lemma hard_split_spec hard t :
  1 <= hard -> Forall (fits (hard + 1)) (hard_split t hard) /\ ink (concat (hard_split t hard)) = ink t.
Proof.
  intros Hh. unfold hard_split. destruct (hard_split_fuel_spec (S (length (tstrip t))) hard (tstrip t)) as [H1 H2];
    [done|apply tstrip_starts|lia|]. by rewrite ink_tstrip in H2.
Qed.

(** ** Paragraphs *)

Lemma span_spec p t a b : span p t = (a, b) -> t = a ++ b /\ Forall (fun c => p c = true) a.
Proof.
  revert a b. induction t as [|c t IH]; intros a b; simpl; [intros [= <- <-]; by split|].
  destruct (p c) eqn:E; [|intros [= <- <-]; by split]. destruct (span p t) as [a' b'].
  intros [= <- <-]. destruct (IH a' b' eq_refl) as [-> Hall]. split; [done|]. by constructor.
Qed.

Lemma after_last_newline_suffix run tail :
  after_last_newline run = Some tail -> exists pre, run = pre ++ tail /\ pre <> [].
Proof.
  revert tail. induction run as [|c run IH]; intros tail; simpl; [done|].
  destruct (after_last_newline run) as [r|].
  - intros [= <-]. destruct (IH r eq_refl) as (pre & -> & _). by exists (c :: pre).
  - case_match; [|done]. intros [= <-]. by exists [c].
Qed.

Lemma split_blank_ink fuel current t :
  length t <= fuel -> ink (concat (split_blank_fuel fuel current t)) = ink (current ++ t).
Proof.
  revert current t. induction fuel as [|fuel IH]; intros current [|c t] Hl;
    try (cbn [split_blank_fuel]; by rewrite ?ink_concat_cons, ?app_nil_r); [simpl in Hl; lia|]. cbn [length] in Hl.
  assert (Hstep : ink (concat (split_blank_fuel fuel (current ++ [c]) t)) = ink (current ++ c :: t)).
  { rewrite IH by lia. by rewrite <- app_assoc. }
  cbn [split_blank_fuel]. destruct (N.eqb_spec c 10) as [->|]; [|done].
  destruct (span space t) as [run rest] eqn:Hsp. destruct (after_last_newline run) as [tail|] eqn:Ha; [|done].
  apply span_spec in Hsp as [-> Hall]. apply after_last_newline_suffix in Ha as (pre & -> & Hpre).
  rewrite !length_app in Hl. rewrite ink_concat_cons, IH by (simpl; rewrite length_app; lia).
  apply Forall_app in Hall as [Hp Ht]. rewrite !ink_app, ink_cons, !ink_app, (ink_spaces pre Hp). done.
Qed.

Lemma section_blocks_ink content : ink (concat (section_blocks content)) = ink content.
Proof.
  unfold section_blocks, split_blank.
  transitivity (ink (concat (split_blank_fuel (length content) [] content))); [|by rewrite split_blank_ink].
  induction (split_blank_fuel (length content) [] content) as [|t l IH]; [done|]. simpl map. simpl List.filter.
  rewrite (ink_concat_cons t), <- IH, <- (ink_tstrip t).
  destruct (tstrip t) as [|c t'] eqn:E; [done|]. apply (ink_concat_cons (c :: t')).
Qed.

(** ** Collecting paragraphs *)

Definition chunk_state (hard : nat) (st : list text * text) : Prop :=
  Forall (fits (hard + 1)) st.1 /\ (st.2 = [] \/ inked st.2) /\ length st.2 <= hard + 1.

Lemma add_block_spec target hard st block :
  target <= hard -> chunk_state hard st -> fits (hard + 1) block ->
  chunk_state hard (add_block target hard st block) /\
  ink (concat (add_block target hard st block).1 ++ (add_block target hard st block).2)
  = ink (concat st.1 ++ st.2 ++ block).
Proof.
  intros Hth. destruct st as [chunks current]. intros (Hall & Hcur & Hlen) [Hb Hbl]. simpl in Hall, Hcur, Hlen.
  unfold add_block.
  assert (Hclose : forall chunks' current', Forall (fits (hard + 1)) chunks' -> inked current' -> length current' <= hard + 1 ->
    let st' := if hard <=? length current' then (chunks' ++ [current'], []) else (chunks', current') in
    chunk_state hard st' /\ ink (concat st'.1 ++ st'.2) = ink (concat chunks' ++ current')).
  { intros chunks' current' Ha Hi Hl. destruct (Nat.leb_spec hard (length current')); simpl; split.
    - split_and!; simpl; [|by left|lia]. apply Forall_app. split; [done|]. by repeat constructor.
    - by rewrite concat_app, app_nil_r; simpl; rewrite app_nil_r.
    - split_and!; simpl; auto.
    - done. }
  destruct current as [|c current]; [by apply Hclose|]. set (cur := c :: current) in *.
  destruct Hcur as [|Hcur]; [done|]. destruct (Nat.ltb_spec target (length (tstrip (cur ++ [10; 10]%N ++ block)))) as [|Hle].
  - destruct (Hclose (chunks ++ [cur]) block) as [Hst Hink]; [|done|done|].
    { apply Forall_app. split; [done|]. by repeat constructor. }
    split; [done|]. etrans; [exact Hink|]. rewrite concat_app. simpl. rewrite app_nil_r. by rewrite <- app_assoc.
  - destruct (Hclose chunks (tstrip (cur ++ [10; 10]%N ++ block))) as [Hst Hink]; [done| |lia|].
    { unfold inked. rewrite ink_tstrip. by apply inked_app_l. }
    split; [done|]. etrans; [exact Hink|]. by rewrite !ink_app, ink_tstrip, !ink_app.
Qed.

Lemma chunk_section_spec target hard content :
  1 <= hard -> target <= hard ->
  Forall (fits (hard + 1)) (chunk_section target hard content) /\
  ink (concat (chunk_section target hard content)) = ink content.
Proof.
  intros Hh Hth. unfold chunk_section.
  set (blocks := concat (map (fun o => hard_split o hard) (section_blocks content))).
  assert (Hblocks : Forall (fits (hard + 1)) blocks /\ ink (concat blocks) = ink content).
  { rewrite <- (section_blocks_ink content). unfold blocks. induction (section_blocks content) as [|o l [IH1 IH2]]; [done|].
    simpl. destruct (hard_split_spec hard o Hh) as [H1 H2]. split; [by apply Forall_app|].
    by rewrite ink_concat_app, H2, IH2, <- ink_app. }
  destruct Hblocks as [Hall Hink]. clearbody blocks.
  assert (Hfold : forall st, chunk_state hard st -> let st' := fold_left (add_block target hard) blocks st in
    chunk_state hard st' /\ ink (concat st'.1 ++ st'.2) = ink (concat st.1 ++ st.2) ++ ink (concat blocks)).
  { clear Hink. induction Hall as [|b l Hb _ IH]; intros st Hst; simpl; [by rewrite app_nil_r|].
    destruct (add_block_spec target hard st b Hth Hst Hb) as [Hst' Hi]. destruct (IH _ Hst') as [H1 H2].
    split; [done|]. rewrite H2, Hi, app_assoc, !ink_app. by rewrite <- !app_assoc. }
  destruct (Hfold ([], [])) as [(H1 & H2 & H3) H4]; [split_and!; simpl; [constructor|by left|lia]|].
  destruct (fold_left _ _ _) as [chunks current]. simpl in *. rewrite <- Hink, <- H4.
  destruct current as [|c current]; [by rewrite app_nil_r|]. destruct H2 as [|H2]; [done|]. split.
  - apply Forall_app. split; [done|]. by repeat constructor.
  - rewrite concat_app. simpl. by rewrite app_nil_r.
Qed.

(** ** Lines and sections *)

Lemma line_break_space c : line_break c = true -> space c = true.
Proof.
  unfold line_break, space. intros Hc.
  repeat match goal with H : context [N.leb ?x ?y] |- _ => destruct (N.leb_spec x y) end;
  repeat match goal with H : context [N.eqb ?x ?y] |- _ => destruct (N.eqb_spec x y) end; simpl in *; try done;
  repeat match goal with |- context [N.leb ?x ?y] => destruct (N.leb_spec x y); try lia end; by rewrite ?orb_true_r.
Qed.

Lemma tsplitlines_ink current t : ink (concat (tsplitlines_from current t)) = ink (current ++ t).
Proof.
  enough (Hn : forall n current t, length t <= n -> ink (concat (tsplitlines_from current t)) = ink (current ++ t)) by eauto.
  intros n. induction n as [|n IH]; intros cur [|c t'] Hl;
    try (cbn [tsplitlines_from]; destruct cur; simpl; by rewrite ?app_nil_r); [simpl in Hl; lia|]. cbn [length] in Hl.
  assert (Hend : forall t'', length t'' <= n -> ink (concat (cur :: tsplitlines_from [] t'')) = ink (cur ++ t'')).
  { intros t'' Ht. rewrite ink_concat_cons, IH by done. by rewrite (ink_app cur). }
  assert (Hskip : forall t'', space c = true -> ink (cur ++ c :: t'') = ink (cur ++ t'')).
  { intros t'' Hc. by rewrite !ink_app, ink_cons, Hc. }
  cbn [tsplitlines_from]. destruct (N.eqb_spec c 13) as [->|Hc].
  - rewrite Hskip by done. destruct t' as [|d t']; [by rewrite app_nil_r; simpl; rewrite app_nil_r|]. cbn [length] in Hl.
    destruct (N.eqb_spec d 10) as [->|]; [|apply Hend; simpl; lia]. rewrite Hend by lia. by rewrite !ink_app, ink_cons.
  - destruct (line_break c) eqn:Hb; [rewrite Hend by lia; by rewrite Hskip by (by apply line_break_space)|].
    rewrite IH by lia. by rewrite <- app_assoc.
Qed.

Definition body_lines (lines : list text) : list text :=
  List.filter (fun line => match section_heading line with None => true | Some _ => false end) lines.

Lemma ink_tjoin lines : ink (tjoin [10%N] lines) = ink (concat lines).
Proof.
  induction lines as [|t l IH]; [done|]. destruct l as [|t' l]; [simpl; by rewrite app_nil_r|].
  cbn [tjoin] in *. rewrite ink_concat_cons, <- IH. rewrite !ink_app. done.
Qed.

Lemma flush_ink path lines : ink (concat (map snd (flush path lines))) = ink (concat lines).
Proof.
  unfold flush. rewrite <- (ink_tjoin lines), <- (ink_tstrip (tjoin _ _)).
  destruct (tstrip _) as [|c t]; [done|]. cbn [map snd concat]. by rewrite app_nil_r.
Qed.

Lemma sections_ink paths path lines rest :
  ink (concat (map snd (sections_from paths path lines rest))) = ink (concat lines) ++ ink (concat (body_lines rest)).
Proof.
  revert paths path lines. induction rest as [|line rest IH]; intros paths path lines.
  { simpl. by rewrite flush_ink, app_nil_r. }
  assert (Hb : body_lines (line :: rest)
               = match section_heading line with None => line :: body_lines rest | Some _ => body_lines rest end).
  { unfold body_lines. simpl. by destruct (section_heading line). }
  rewrite Hb. cbn [sections_from]. destruct (section_heading line) as [[level title]|].
  - by rewrite map_app, ink_concat_app, flush_ink, IH.
  - rewrite IH, ink_concat_app.
    cbn [concat]. by rewrite app_nil_r, (ink_app line), <- app_assoc.
Qed.

Lemma pieces_spec target hard markdown :
  1 <= hard -> target <= hard ->
  Forall (fits (hard + 1)) (map snd (pieces target hard markdown)) /\
  ink (concat (map snd (pieces target hard markdown))) = ink (concat (body_lines (tsplitlines markdown))).
Proof.
  intros Hh Hth. replace (ink (concat (body_lines (tsplitlines markdown)))) with (ink (concat (map snd (sections markdown))))
    by (unfold sections; by rewrite sections_ink).
  unfold pieces. induction (sections markdown) as [|[p c] l [IH1 IH2]]; [done|]. simpl map. simpl concat.
  destruct (chunk_section_spec target hard c Hh Hth) as [H1 H2]. rewrite !map_app, map_map. simpl.
  rewrite map_id. split; [by apply Forall_app|]. by rewrite ink_concat_app, H2, IH2, <- ink_app.
Qed.

(** ** [chunk_markdown] *)

Section chunk.
Context `{Builtins} `{TextEngine}.

Lemma make_chunks_spec v title tags n l :
  Forall (fits 1200) (map snd l) ->
  exists cs, make_chunks v title tags n l = Ok cs /\ map ch_content cs = map (fun p => encode p.2) l /\
    map ch_ordinal cs = seq n (length l) /\ Forall (fun c => ch_document_version_id c = v) cs.
Proof.
  revert n. induction l as [|[path t] l IH]; intros n Hall; [by exists []|]. simpl in Hall.
  apply Forall_cons in Hall as [[Hi Hl] Hall]. destruct (IH (S n) Hall) as (cs & E & Hc & Ho & Hv).
  cbn [make_chunks]. unfold make_chunk. destruct (token_text _ _ _) as [indexed count].
  pose proof (inked_nonempty t Hi). destruct (Nat.ltb_spec (length t) 1); [lia|].
  destruct (Nat.ltb_spec 1200 (length t)); [lia|]. simpl. rewrite E. eexists. split; [done|]. simpl.
  rewrite Hc, Ho. split_and!; [done|done|]. by constructor.
Qed.

Lemma make_chunks_ok v title tags n l cs :
  make_chunks v title tags n l = Ok cs -> Forall (fun p => length p.2 <= 1200) l.
Proof.
  revert n cs. induction l as [|[path t] l IH]; intros n cs; [constructor|]. cbn [make_chunks]. unfold make_chunk.
  destruct (token_text _ _ _) as [indexed count]. destruct (Nat.ltb_spec 1200 (length t)); [by rewrite orb_true_r|].
  destruct (length t <? 1); [done|]. simpl. destruct (make_chunks _ _ _ _ l) as [cs'|] eqn:E; [|done].
  intros _. constructor; [simpl; lia|by eapply IH].
Qed.

Lemma make_chunks_error v title tags n l e : make_chunks v title tags n l = Raise e -> e = ValueError.
Proof.
  revert n. induction l as [|[path t] l IH]; intros n; [done|]. cbn [make_chunks]. unfold make_chunk.
  destruct (token_text _ _ _) as [indexed count]. case_match; [by intros [= <-]|]. simpl.
  destruct (make_chunks _ _ _ _ l) as [cs'|] eqn:E; [done|]. intros [= <-]. by eapply IH.
Qed.

Lemma space_code c : space c = true -> code_ok c.
Proof.
  unfold space, code_ok. intros Hc. destruct (N.lt_ge_cases c 4194304); [done|].
  repeat match goal with H : context [N.leb c ?y] |- _ => destruct (N.leb_spec c y); try lia end.
  repeat match goal with H : context [N.eqb c ?y] |- _ => destruct (N.eqb_spec c y); try lia end.
Qed.

Lemma ink_codes t : Forall code_ok (ink t) -> Forall code_ok t.
Proof.
  induction t as [|c t IH]; [done|]. rewrite ink_cons. destruct (space c) eqn:E; simpl.
  - intros Ht. constructor; [by apply space_code|by apply IH].
  - intros [Hc Ht]%Forall_cons. constructor; [done|by apply IH].
Qed.

Lemma Forall_ink P t : Forall P t -> Forall P (ink t).
Proof. induction 1 as [|c t Hc _ IH]; [done|]. rewrite ink_cons. destruct (space c); simpl; [done|by constructor]. Qed.

(** Every character of a piece is a code point of the document. *)
Lemma pieces_codes target hard markdown :
  1 <= hard -> target <= hard -> Forall code_ok markdown -> Forall (Forall code_ok) (map snd (pieces target hard markdown)).
Proof.
  intros Hh Hth Hm. apply Forall_concat. apply ink_codes. rewrite (proj2 (pieces_spec target hard markdown Hh Hth)).
  apply Forall_ink, Forall_concat. unfold body_lines. apply Forall_forall. intros line Hl.
  apply list_elem_of_In, List.filter_In in Hl as [Hl _]. apply list_elem_of_In in Hl. revert line Hl. apply Forall_forall.
  apply Forall_concat, ink_codes. unfold tsplitlines. rewrite tsplitlines_ink. by apply Forall_ink.
Qed.

Lemma Forall_impl_map {A B} (P : B -> Prop) (f : A -> B) l : Forall P (map f l) <-> Forall (fun x => P (f x)) l.
Proof. apply Forall_fmap. Qed.

(** Chunks keep the text of a document.  With valid limits [chunk_markdown]
    returns chunks unless the hard limit is the model's own and a piece exceeds
    it by one character.  The chunks it returns are numbered from 0, none is
    empty, none exceeds the hard limit by more than one character or has more
    than 1200, and their characters other than whitespace are, in order, those
    of the lines of the document that are not headings. *)
Theorem chunks_keep_text (markdown v title : string) (tags : list string) (target hard : nat) :
  1 <= target <= hard -> hard <= 1200 ->
  let lines := tsplitlines (decode markdown) in
  match chunk_markdown markdown v title tags target hard with
  | Ok chunks =>
      ink (concat (map (fun c => decode (ch_content c)) chunks)) = ink (concat (body_lines lines)) /\
      map ch_ordinal chunks = seq 0 (length chunks) /\
      Forall (fun c => 1 <= str_len (ch_content c) <= Nat.min (hard + 1) 1200 /\ ch_document_version_id c = v) chunks
  | Raise e =>
      e = ValueError /\ hard = 1200 /\ Exists (fun p => length p.2 = 1201) (pieces target hard (decode markdown))
  end.
Proof.
  intros [Ht Hth] Hh lines. unfold chunk_markdown.
  destruct (Nat.leb_spec 1 target), (Nat.leb_spec target hard), (Nat.leb_spec hard 1200); try lia. simpl negb. cbv iota.
  set (ps := pieces target hard (decode markdown)).
  destruct (pieces_spec target hard (decode markdown) ltac:(lia) Hth) as [Hfit Hink].
  pose proof (pieces_codes target hard (decode markdown) ltac:(lia) Hth (decode_ok markdown)) as Hcodes.
  fold ps in Hfit, Hink, Hcodes. rewrite Forall_impl_map in Hfit, Hcodes.
  destruct (decide (Forall (fun p => length p.2 <= 1200) ps)) as [Hall|Hbig].
  - destruct (make_chunks_spec v title tags 0 ps) as (cs & E & Hc & Ho & Hv).
    { rewrite Forall_impl_map. apply Forall_and; split; [|done]. eapply Forall_impl; [exact Hfit|]. by intros x [? _]. }
    rewrite E. assert (Hlen : length cs = length ps) by (apply (f_equal length) in Hc; by rewrite !length_map in Hc).
    split_and!; [|by rewrite Hlen|].
    + replace (map (fun c => decode (ch_content c)) cs) with (map snd ps); [done|].
      rewrite <- (map_map ch_content decode), Hc, map_map. symmetry. apply map_ext_in. intros p Hp.
      apply decode_encode. rewrite Forall_forall in Hcodes. apply Hcodes. by apply list_elem_of_In.
    + apply Forall_and. split; [|done]. apply (Forall_impl_map (fun x => 1 <= str_len x <= _) ch_content). rewrite Hc.
      apply Forall_impl_map. rewrite Forall_forall in *. intros p Hp. rewrite str_len_encode by auto.
      destruct (Hfit p Hp) as [Hi Hl]. specialize (Hall p Hp). split; [by apply inked_nonempty|by apply Nat.min_glb].
  - destruct (make_chunks v title tags 0 ps) as [cs|e] eqn:E; [by apply make_chunks_ok in E|].
    apply not_Forall_Exists in Hbig; [|apply _]. split; [by eapply make_chunks_error|].
    apply Exists_exists in Hbig as (p & Hp & Hbig). rewrite Forall_forall in Hfit. destruct (Hfit p Hp) as [_ Hl].
    apply Nat.nle_gt in Hbig. pose proof (Nat.lt_le_trans _ _ _ Hbig Hl).
    split; [lia|]. apply Exists_exists. exists p. split; [done|]. apply Nat.le_antisymm; [|done].
    etrans; [exact Hl|lia].
Qed.

(** a paragraph of 1201 characters whose last one is a full stop cannot be
    ingested: it is cut after the full stop, one character beyond the limit, and
    the model of a chunk refuses it. *)
Theorem long_sentence_rejected (v title : string) (tags : list string) :
  let markdown := encode (replicate 1200 97%N ++ [46%N]) in
  str_len markdown = 1201 /\ chunk_markdown markdown v title tags 600 1200 = Raise ValueError.
Proof. split; vm_compute; reflexivity. Qed.
End chunk.
