(* ===== verification/Historical.v ===== *)
(** * Historical documents: models, store and ingestion

    [historical/models.py], [historical/store.py], [historical/ingest.py] and
    the data of [historical/manifest.py].  The file system is a parameter; a
    datetime is its instant in microseconds.  The patterns of digests and the
    lengths of manifest fields hold by construction and are not checked again. *)
From stdpp Require Import base list strings pretty.
From Stdlib Require Import ZArith SpecFloat.
From S2P Require Import Prelude.
From S2P Require Import PyDict.
From S2P Require Import PyText.
From S2P Require Import Json.
From S2P Require Import RepositoryPolicy.
From S2P Require Import CodePoints.
From S2P Require Import Chunking.

(** ** Models *)

Module CorpusStatus.
Inductive CorpusStatus : Type := BUILDING | READY | FAILED | SUPERSEDED.
#[global] Instance CorpusStatus_eq_dec : EqDecision CorpusStatus.
Proof. solve_decision. Defined.
End CorpusStatus.
Abbreviation CorpusStatus := CorpusStatus.CorpusStatus.

Module DocumentStatus.
Inductive DocumentStatus : Type := ACTIVE | ARCHIVED | DELETED.
#[global] Instance DocumentStatus_eq_dec : EqDecision DocumentStatus.
Proof. solve_decision. Defined.
End DocumentStatus.
Abbreviation DocumentStatus := DocumentStatus.DocumentStatus.

Module RetrievalMode.
Inductive RetrievalMode : Type := KEYWORD | HYBRID.
#[global] Instance RetrievalMode_eq_dec : EqDecision RetrievalMode.
Proof. solve_decision. Defined.
End RetrievalMode.
Abbreviation RetrievalMode := RetrievalMode.RetrievalMode.

Module RetrievalStatus.
Inductive RetrievalStatus : Type := SUCCEEDED | EMPTY | FAILED | BLOCKED.
#[global] Instance RetrievalStatus_eq_dec : EqDecision RetrievalStatus.
Proof. solve_decision. Defined.
End RetrievalStatus.
Abbreviation RetrievalStatus := RetrievalStatus.RetrievalStatus.

Record HistoricalCorpus := mkCorpus {
  hc_corpus_id : string;
  hc_owner_id : string;
  hc_project_id : string;
  hc_corpus_version : string;
  hc_manifest_hash : string;
  hc_document_count : nat;
  hc_chunk_count : nat;
  hc_tokenizer_version : string;
  hc_embedding_model_id : option string;
  hc_status : CorpusStatus;
  hc_created_at : Z
}.

Record HistoricalPrdDocument := mkHDocument {
  hd_document_id : string;
  hd_owner_id : string;
  hd_project_id : string;
  hd_title : string;
  hd_source_uri : string;
  hd_access_labels : list string;
  hd_product_tags : list string;
  hd_created_at_source : option Z;
  hd_updated_at_source : option Z;
  hd_status : DocumentStatus
}.

Record HistoricalPrdVersion := mkHVersion {
  hv_document_version_id : string;
  hv_document_id : string;
  hv_source_revision : string;
  hv_content_hash : string;
  hv_markdown : string;
  hv_imported_at : Z;
  hv_supersedes_version_id : option string
}.

Record HistoricalPrdSearchArguments := mkSearchArguments {
  sa_query : string;
  sa_product_tags : list string;
  sa_updated_after : option Z;
  sa_mode : RetrievalMode;
  sa_limit : nat
}.

(** The limits of the model: a query of 1 to 500 characters, 1 to 5 results. *)
Definition valid_arguments (a : HistoricalPrdSearchArguments) : bool :=
  (1 <=? str_len (sa_query a))%nat && (str_len (sa_query a) <=? 500)%nat
  && (1 <=? sa_limit a)%nat && (sa_limit a <=? 5)%nat.

Record RetrievalRun := mkRetrievalRun {
  rr_retrieval_run_id : string;
  rr_investigation_id : string;
  rr_corpus_id : string;
  rr_corpus_version : string;
  rr_query_hash : string;
  rr_mode : RetrievalMode;
  rr_filters_hash : string;
  rr_limit : nat;
  rr_duration_ms : Z;
  rr_status : RetrievalStatus;
  rr_fallback_mode : option RetrievalMode;
  rr_created_at : Z
}.

(** A float is an IEEE 754 binary64 number. *)
Definition float : Type := spec_float.

Record RetrievalHit := mkHit {
  rh_retrieval_run_id : string;
  rh_chunk_id : string;
  rh_rank : nat;
  rh_keyword_rank : option nat;
  rh_vector_rank : option nat;
  rh_fused_score : option float;
  rh_stale_hint : bool
}.

Record HistoricalPrdResultItem := mkItem {
  ri_document_id : string;
  ri_document_version_id : string;
  ri_chunk_id : string;
  ri_title : string;
  ri_section_path : list string;
  ri_source_uri : string;
  ri_updated_at_source : option Z;
  ri_excerpt : string;
  ri_content_hash : string;
  ri_stale_hint : bool
}.

(** ** The in-memory store *)

Record hstore := mkHStore {
  hs_corpora : dict (string * string) HistoricalCorpus;
  hs_corpus_chunks : dict (string * string) (list string);
  hs_corpus_documents : dict (string * string) (dict string HistoricalPrdDocument);
  hs_documents : dict (string * string * string) HistoricalPrdDocument;
  hs_versions : dict string HistoricalPrdVersion;
  hs_version_by_content : dict (string * string) string;
  hs_chunks : dict string HistoricalPrdChunk;
  hs_retrieval_runs : dict string RetrievalRun;
  hs_retrieval_hits : dict string (list RetrievalHit)
}.

Definition empty_hstore : hstore := mkHStore ∅ ∅ ∅ ∅ ∅ ∅ ∅ ∅ ∅.

(** [d.setdefault(k, v)]. *)
Definition setdefault {K V} `{EqDecision K} (k : K) (v : V) (d : dict K V) : dict K V :=
  match d !! k with Some _ => d | None => <[k := v]> d end.

Definition get_version_by_content (document_id hash : string) (s : hstore) : option HistoricalPrdVersion :=
  version_id ← hs_version_by_content s !! (document_id, hash);
  if truthy version_id then hs_versions s !! version_id else None.

(** [max(versions, key=...)]: the first of the greatest. *)
Definition version_leb (x y : HistoricalPrdVersion) : bool :=
  pair_leb Z.eqb Z.leb String.leb (hv_imported_at x, hv_document_version_id x) (hv_imported_at y, hv_document_version_id y).

Definition latest_version (document_id : string) (s : hstore) : option HistoricalPrdVersion :=
  min_by (fun x y => version_leb y x)
    (List.filter (fun v => String.eqb (hv_document_id v) document_id) (values (hs_versions s))).

Definition save_document (d : HistoricalPrdDocument) (s : hstore) : hstore :=
  mkHStore (hs_corpora s) (hs_corpus_chunks s) (hs_corpus_documents s)
    (<[(hd_owner_id d, hd_project_id d, hd_document_id d) := d]> (hs_documents s)) (hs_versions s)
    (hs_version_by_content s) (hs_chunks s) (hs_retrieval_runs s) (hs_retrieval_hits s).

Definition save_version (v : HistoricalPrdVersion) (s : hstore) : hstore * HistoricalPrdVersion :=
  match get_version_by_content (hv_document_id v) (hv_content_hash v) s with
  | Some existing => (s, existing)
  | None =>
      (mkHStore (hs_corpora s) (hs_corpus_chunks s) (hs_corpus_documents s) (hs_documents s)
         (<[hv_document_version_id v := v]> (hs_versions s))
         (<[(hv_document_id v, hv_content_hash v) := hv_document_version_id v]> (hs_version_by_content s))
         (hs_chunks s) (hs_retrieval_runs s) (hs_retrieval_hits s), v)
  end.

Definition save_chunks (chunks : list HistoricalPrdChunk) (s : hstore) : hstore :=
  mkHStore (hs_corpora s) (hs_corpus_chunks s) (hs_corpus_documents s) (hs_documents s) (hs_versions s)
    (hs_version_by_content s) (fold_left (fun d c => setdefault (ch_chunk_id c) c d) chunks (hs_chunks s))
    (hs_retrieval_runs s) (hs_retrieval_hits s).

Definition chunks_for_version (version_id : string) (s : hstore) : list HistoricalPrdChunk :=
  List.filter (fun c => String.eqb (ch_document_version_id c) version_id)
    (sort_by (fun x y => (ch_ordinal x <=? ch_ordinal y)%nat) (values (hs_chunks s))).

Definition save_corpus (c : HistoricalCorpus) (chunk_ids : list string)
    (documents : list (string * HistoricalPrdDocument)) (s : hstore) : hstore :=
  let key := (hc_corpus_id c, hc_corpus_version c) in
  mkHStore (setdefault key c (hs_corpora s)) (setdefault key chunk_ids (hs_corpus_chunks s))
    (setdefault key (fold_left (fun d kv => <[kv.1 := kv.2]> d) documents ∅) (hs_corpus_documents s))
    (hs_documents s) (hs_versions s) (hs_version_by_content s) (hs_chunks s) (hs_retrieval_runs s)
    (hs_retrieval_hits s).

Definition get_corpus (corpus_id version : string) (s : hstore) : result exc HistoricalCorpus :=
  match hs_corpora s !! (corpus_id, version) with Some c => Ok c | None => Raise KeyError end.

(** An indexed chunk with its version and the document as it was ingested. *)
Definition entry : Type := HistoricalPrdChunk * HistoricalPrdVersion * HistoricalPrdDocument.

Definition required {A} (o : option A) : result exc A := match o with Some a => Ok a | None => Raise KeyError end.

Definition entry_of (documents : dict string HistoricalPrdDocument) (s : hstore) (chunk_id : string) : result exc entry :=
  result_bind (fun chunk => result_bind (fun version => result_bind (fun document => Ok (chunk, version, document))
    (required (documents !! hv_document_version_id version)))
    (required (hs_versions s !! ch_document_version_id chunk)))
    (required (hs_chunks s !! chunk_id)).

(** [entries]; the documents of a corpus are looked up for each chunk. *)
Definition entries (corpus_id version : string) (s : hstore) : result exc (list entry) :=
  let key := (corpus_id, version) in
  result_bind (fun ids =>
    result_map (entry_of (default ∅ (hs_corpus_documents s !! key)) s) ids)
    (required (hs_corpus_chunks s !! key)).

(** The tests of [authorized_entries] on the document of an entry. *)
Definition authorized (owner_id project_id : string) (access_labels product_tags : list string)
    (updated_after : option Z) (d : HistoricalPrdDocument) : bool :=
  String.eqb (hd_owner_id d) owner_id && String.eqb (hd_project_id d) project_id
  && bool_decide (hd_status d = DocumentStatus.ACTIVE)
  && forallb (fun l => bool_decide (l ∈ access_labels)) (hd_access_labels d)
  && (match product_tags with [] => true | _ => existsb (fun t => bool_decide (t ∈ hd_product_tags d)) product_tags end)
  && match updated_after with
     | None => true
     | Some t => match hd_updated_at_source d with Some u => negb (u <? t)%Z | None => false end
     end.

Definition authorized_entries (corpus_id version owner_id project_id : string) (access_labels product_tags : list string)
    (updated_after : option Z) (s : hstore) : result exc (list entry) :=
  result_bind (fun es =>
    Ok (List.filter (fun e => authorized owner_id project_id access_labels product_tags updated_after e.2) es))
    (entries corpus_id version s).

Definition save_retrieval (run : RetrievalRun) (hits : list RetrievalHit) (s : hstore) : hstore :=
  mkHStore (hs_corpora s) (hs_corpus_chunks s) (hs_corpus_documents s) (hs_documents s) (hs_versions s)
    (hs_version_by_content s) (hs_chunks s) (<[rr_retrieval_run_id run := run]> (hs_retrieval_runs s))
    (<[rr_retrieval_run_id run := hits]> (hs_retrieval_hits s)).

Definition get_retrieval (run_id : string) (s : hstore) : result exc (RetrievalRun * list RetrievalHit) :=
  result_bind (fun run => result_bind (fun hits => Ok (run, hits)) (required (hs_retrieval_hits s !! run_id)))
    (required (hs_retrieval_runs s !! run_id)).

(** ** Ingestion *)

Record ManifestDocument := mkManifestDocument {
  md_document_id : string;
  md_title : option string;
  md_path : string;
  md_source_uri : string;
  md_source_revision : string;
  md_access_labels : list string;
  md_product_tags : list string;
  md_created_at_source : option Z;
  md_updated_at_source : option Z
}.

Record HistoricalCorpusManifest := mkManifest {
  mf_corpus_id : string;
  mf_owner_id : string;
  mf_project_id : string;
  mf_documents : list ManifestDocument
}.

(** [document_ids_are_unique]. *)
Definition document_ids_are_unique (m : HistoricalCorpusManifest) : result exc HistoricalCorpusManifest :=
  let ids := map md_document_id (mf_documents m) in
  if Nat.eqb (length ids) (length (dedup ids)) then Ok m else Raise ValueError.

(** [validate_relative_path]. *)
Definition validate_relative_path (value : string) : result exc string :=
  if truthy (posix_root value) || bool_decide (".." ∈ posix_parts value) then Raise ValueError else Ok (as_posix value).

(** The store, and the number of files read and identifiers and times drawn. *)
Record hworld := mkHWorld { hw_store : hstore; hw_reads : nat; hw_ids : nat; hw_times : nat }.

(** The file system (the [n]-th read can see other contents), [uuid4], the
    clock, [perf_counter], and the text form of a datetime. *)
Class HistoricalEnv := {
  h_resolve : nat -> string -> string -> result exc string;
  h_relative_to : string -> string -> bool;
  h_read_bytes : nat -> string -> result exc string;
  h_uuid4_hex : nat -> string;
  h_now : nat -> Z;
  h_duration_ms : nat -> Z;
  h_isoformat : Z -> string
}.

(** [sorted(set(l))]. *)
Definition sorted_set (l : list string) : list string := sort_by String.leb (dedup l).

Section ingest.
Context `{Builtins} `{TextEngine} `{HistoricalEnv}.
Definition HM (A : Type) : Type := M hworld exc A.

Definition on_store {A} (f : hstore -> A) : HM A := gets (fun w => f (hw_store w)).
Definition update_store (f : hstore -> hstore) : HM unit :=
  modify (fun w => mkHWorld (f (hw_store w)) (hw_reads w) (hw_ids w) (hw_times w)).

(** An operation of the store that returns a value. *)
Definition store_op {A} (f : hstore -> hstore * A) : HM A := fun w =>
  let (s, a) := f (hw_store w) in (mkHWorld s (hw_reads w) (hw_ids w) (hw_times w), Ok a).

Definition next_now : HM Z := fun w =>
  (mkHWorld (hw_store w) (hw_reads w) (hw_ids w) (S (hw_times w)), Ok (h_now (hw_times w))).
Definition next_uuid : HM string := fun w =>
  (mkHWorld (hw_store w) (hw_reads w) (S (hw_ids w)) (hw_times w), Ok (h_uuid4_hex (hw_ids w))).

Definition opt_json {A} (f : A -> json) (o : option A) : json := match o with Some a => f a | None => JNull end.

(** [manifest_hash]. *)
Definition document_json (d : ManifestDocument) : json :=
  let time := opt_json (fun t => JStr (h_isoformat t)) in
  JObj [("document_id", JStr (md_document_id d)); ("title", opt_json JStr (md_title d)); ("path", JStr (md_path d));
        ("source_uri", JStr (md_source_uri d)); ("source_revision", JStr (md_source_revision d));
        ("access_labels", JArr (map JStr (md_access_labels d))); ("product_tags", JArr (map JStr (md_product_tags d)));
        ("created_at_source", time (md_created_at_source d)); ("updated_at_source", time (md_updated_at_source d))].

Definition manifest_hash (m : HistoricalCorpusManifest) : string :=
  sha256_json (JObj [("corpus_id", JStr (mf_corpus_id m)); ("owner_id", JStr (mf_owner_id m));
    ("project_id", JStr (mf_project_id m)); ("documents", JArr (map document_json (mf_documents m)))]).

(** [_first_heading]. *)
Fixpoint first_heading (lines : list text) : option string :=
  match lines with
  | [] => None
  | line :: rest =>
      match line with
      | 35%N :: 32%N :: title => match tstrip title with [] => None | t => Some (encode t) end
      | _ => first_heading rest
      end
  end.

(** Reading and decoding one document of a manifest. *)
Definition read_document (root : string) (max_document_bytes : nat) (d : ManifestDocument) : HM string := fun w =>
  let n := hw_reads w in
  (mkHWorld (hw_store w) (S n) (hw_ids w) (hw_times w),
   result_bind (fun path =>
     if negb (h_relative_to path root) then Raise ValueError
     else result_bind (fun data =>
       if (max_document_bytes <? String.length data)%nat then Raise ValueError
       else if has_char 0 data then Raise ValueError
       else if negb (utf8_valid data) then Raise ValueError
       else normalize_markdown data) (h_read_bytes n path))
     (h_resolve n root (md_path d))).

Definition document_of (m : HistoricalCorpusManifest) (d : ManifestDocument) (markdown : string) : HistoricalPrdDocument :=
  mkHDocument (md_document_id d) (mf_owner_id m) (mf_project_id m)
    (or_else (md_title d) (or_else (first_heading (tsplitlines (decode markdown))) (md_document_id d)))
    (md_source_uri d) (sorted_set (md_access_labels d)) (sorted_set (md_product_tags d))
    (md_created_at_source d) (md_updated_at_source d) DocumentStatus.ACTIVE.

(** The version of a document with this content, and its chunks. *)
Definition chunk_version (v : HistoricalPrdVersion) (document : HistoricalPrdDocument) (markdown : string)
    : HM (list HistoricalPrdChunk) :=
  chunks ← liftR (chunk_markdown markdown (hv_document_version_id v) (hd_title document) (hd_product_tags document) 600 1200);
  update_store (save_chunks chunks);;
  mret chunks.

Definition ingest_version (d : ManifestDocument) (document : HistoricalPrdDocument) (markdown : string) (timestamp : Z)
    : HM (HistoricalPrdVersion * list HistoricalPrdChunk) :=
  let hashed := content_hash markdown in
  known ← on_store (get_version_by_content (hd_document_id document) hashed);
  match known with
  | Some existing =>
      chunks ← on_store (chunks_for_version (hv_document_version_id existing));
      match chunks with
      | [] => chunks' ← chunk_version existing document (hv_markdown existing); mret (existing, chunks')
      | _ => mret (existing, chunks)
      end
  | None =>
      previous ← on_store (latest_version (hd_document_id document));
      let fresh := mkHVersion
        (identifier "docver" (JObj [("document_id", JStr (hd_document_id document));
           ("source_revision", JStr (md_source_revision d)); ("content_hash", JStr hashed)]))
        (hd_document_id document) (md_source_revision d) hashed markdown timestamp
        (hv_document_version_id <$> previous) in
      version ← store_op (save_version fresh);
      chunks ← chunk_version version document markdown;
      mret (version, chunks)
  end.

(** The body of the loop of [ingest]. *)
Definition ingest_document (m : HistoricalCorpusManifest) (root : string) (max_document_bytes : nat) (timestamp : Z)
    (d : ManifestDocument) : HM (HistoricalPrdVersion * HistoricalPrdDocument * list HistoricalPrdChunk) :=
  markdown ← read_document root max_document_bytes d;
  let document := document_of m d markdown in
  update_store (save_document document);;
  vc ← ingest_version d document markdown timestamp;
  mret (vc.1, document, vc.2).

Fixpoint ingest_documents (m : HistoricalCorpusManifest) (root : string) (max_document_bytes : nat) (timestamp : Z)
    (l : list ManifestDocument) : HM (list (HistoricalPrdVersion * HistoricalPrdDocument * list HistoricalPrdChunk)) :=
  match l with
  | [] => mret []
  | d :: rest =>
      x ← ingest_document m root max_document_bytes timestamp d;
      xs ← ingest_documents m root max_document_bytes timestamp rest;
      mret (x :: xs)
  end.

(** [corpus_version]; tuples are sorted lexicographically. *)
Definition corpus_version_of (m : HistoricalCorpusManifest) (embedding_model_id : option string)
    (versions : list HistoricalPrdVersion) : string :=
  let pairs := sort_by (pair_leb String.eqb String.leb String.leb)
                 (map (fun v => (hv_document_version_id v, hv_content_hash v)) versions) in
  identifier "corpus" (JObj [
    ("versions", JArr (map (fun p => JArr [JStr p.1; JStr p.2]) pairs)); ("tokenizer_version", JStr TOKENIZER_VERSION);
    ("embedding_model_id", opt_json JStr embedding_model_id); ("manifest_hash", JStr (manifest_hash m))]).

(** [ingest]. *)
Definition ingest (m : HistoricalCorpusManifest) (document_root : string) (max_document_bytes : nat)
    (embedding_model_id : option string) (imported_at : option Z) : HM HistoricalCorpus :=
  root ← (fun w => (w, h_resolve (hw_reads w) document_root EmptyString));
  timestamp ← match imported_at with Some t => mret t | None => next_now end;
  done ← ingest_documents m root max_document_bytes timestamp (mf_documents m);
  let versions := map (fun x => x.1.1) done in
  let chunk_ids := concat (map (fun x => map ch_chunk_id x.2) done) in
  let corpus := mkCorpus (mf_corpus_id m) (mf_owner_id m) (mf_project_id m)
    (corpus_version_of m embedding_model_id versions) (manifest_hash m) (length versions) (length chunk_ids)
    TOKENIZER_VERSION embedding_model_id CorpusStatus.READY timestamp in
  update_store (save_corpus corpus chunk_ids (map (fun x => (hv_document_version_id x.1.1, x.1.2)) done));;
  stored ← on_store (get_corpus (hc_corpus_id corpus) (hc_corpus_version corpus));
  liftR stored.
End ingest.
