(* ===== verification/Retrieval.v ===== *)
(** * Retrieval of historical documents

    [historical/retrieval.py], [historical/evidence.py] and
    [historical/tool.py] on the in-memory store, which has no ranker of its own
    ([keyword_ranked_entries]).  The vector ranker is an optional parameter.
    Scores are binary64 numbers with the rounding of the language. *)
From stdpp Require Import base list sets strings pretty.
From Stdlib Require Import ZArith SpecFloat.
From S2P Require Import Prelude.
From S2P Require Import PyDict.
From S2P Require Import PyText.
From S2P Require Import Json.
From S2P Require Import Grounding.
From S2P Require Import RepositoryPolicy.
From S2P Require Import CodePoints.
From S2P Require Import Chunking.
From S2P Require Import Historical.

(** ** Reciprocal rank fusion *)

Definition float_of_Z (z : Z) : float := binary_normalize 53 1024 z 0 false.

(** [1 / (constant + rank)]. *)
Definition reciprocal (constant rank : nat) : float :=
  SFdiv 53 1024 (float_of_Z 1) (float_of_Z (Z.of_nat (constant + rank))).

(** [{chunk_id: rank for rank, chunk_id in enumerate(ids, start=1)}.get(id)]:
    the last position wins. *)
Fixpoint rank_from (i : nat) (ids : list string) (id : string) : option nat :=
  match ids with
  | [] => None
  | x :: rest =>
      match rank_from (S i) rest id with
      | Some r => Some r
      | None => if String.eqb x id then Some i else None
      end
  end.

Definition rank_of (ids : list string) (id : string) : option nat := rank_from 1 ids id.

Definition fused_score (constant : nat) (keyword_rank vector_rank : option nat) : float :=
  let part := fun r => match r with Some n => reciprocal constant n | None => S754_zero false end in
  SFadd 53 1024 (part keyword_rank) (part vector_rank).

Definition ranked : Type := string * option float * option nat * option nat.
Definition rk_id (r : ranked) : string := r.1.1.1.
Definition rk_score (r : ranked) : option float := r.1.1.2.

(** [key=lambda item: (-item[1], item[0])]. *)
Definition fused_leb (x y : string * float * option nat * option nat) : bool :=
  let '(ix, sx, _, _) := x in
  let '(iy, sy, _, _) := y in
  if SFltb sy sx then true else if SFltb sx sy then false else String.leb ix iy.

Definition reciprocal_rank_fusion (keyword_chunk_ids vector_chunk_ids : list string) (constant : nat)
    : list (string * float * option nat * option nat) :=
  sort_by fused_leb
    (map (fun id =>
       let k := rank_of keyword_chunk_ids id in
       let v := rank_of vector_chunk_ids id in (id, fused_score constant k v, k, v))
       (dedup (keyword_chunk_ids ++ vector_chunk_ids))).

(** ** Keyword ranking *)

Definition occurrences (t : string) (l : list string) : nat := length (List.filter (String.eqb t) l).

Section rank.
Context `{Builtins} `{TextEngine}.

(** The score of an entry for a query. *)
Definition keyword_score (query : string) (e : entry) : nat :=
  let '(chunk, _, document) := e in
  let query_tokens := tokenize query in
  let indexed := map encode (words (decode (ch_token_text chunk))) in
  let overlap := list_sum (map (fun t => Nat.min (occurrences t query_tokens) (occurrences t indexed)) (dedup query_tokens)) in
  let normalized_query := lower (strip query) in
  let exact_bonus := if str_contains normalized_query (lower (hd_title document)) then 4%nat else 0%nat in
  let tag_bonus := (2 * length (List.filter (fun tag =>
    str_contains (lower tag) normalized_query || str_contains normalized_query (lower tag)) (hd_product_tags document)))%nat in
  (overlap + exact_bonus + tag_bonus)%nat.

(** [(-score, -updated, chunk_id)]; a missing date is minus infinity. *)
Definition scored : Type := string * nat * option Z.

Definition updated_geb (x y : option Z) : bool :=
  match x, y with
  | Some a, Some b => (b <=? a)%Z
  | Some _, None => true
  | None, Some _ => false
  | None, None => true
  end.

Definition scored_leb (x y : scored) : bool :=
  let '(ix, sx, ux) := x in
  let '(iy, sy, uy) := y in
  if negb (Nat.eqb sx sy) then (sy <=? sx)%nat
  else if negb (bool_decide (ux = uy)) then updated_geb ux uy
  else String.leb ix iy.

(** [_keyword_rank], by chunk id and score. *)
Definition keyword_rank (query : string) (entries : list entry) : list (string * nat) :=
  match tokenize query with
  | [] => []
  | _ =>
      map (fun x : scored => x.1)
        (sort_by scored_leb
           (map (fun e : entry => (ch_chunk_id e.1.1, keyword_score query e, hd_updated_at_source e.2))
              (List.filter (fun e => negb (Nat.eqb (keyword_score query e) 0)) entries)))
  end.
End rank.

(** ** The retriever *)

Record HistoricalRetrievalResult := mkRetrieval {
  hr_run : RetrievalRun;
  hr_hits : list RetrievalHit;
  hr_items : list HistoricalPrdResultItem;
  hr_public_summary : string;
  hr_error_code : option string
}.

Definition PermissionError : exc := External "PermissionError".

(** [stale_after_days] and the vector ranker of a retriever. *)
Class RetrieverConfig := {
  stale_after_days : Z;
  vector_ranker : option (string -> list entry -> result exc (list string))
}.

Section retriever.
Context `{Builtins} `{TextEngine} `{RegexEngine} `{HistoricalEnv} `{RetrieverConfig}.

(** [access_scope_hash] of sources/models.py. *)
Definition access_scope_hash (owner_id project_id : string) (labels : list string) : string :=
  sha256_json (JObj [("owner_id", JStr owner_id); ("project_id", JStr project_id);
    ("access_labels", JArr (map JStr (sorted_set labels)))]).

(** [_validate_binding]. *)
Definition validate_binding (b : SourceBinding) (owner_id project_id : string) (labels : list string) : result exc unit :=
  if negb (bool_decide (sb_source_kind b = SourceKind.HISTORICAL_PRD_CORPUS)) then Raise ValueError
  else if negb (String.eqb (sb_owner_id b) owner_id) then Raise PermissionError
  else if negb (String.eqb (sb_access_scope_hash b) (access_scope_hash owner_id project_id labels))
  then Raise PermissionError
  else if negb (bool_decide (assoc_get "project_id" (sb_metadata b) = Some project_id)) then Raise PermissionError
  else Ok tt.

(** The value hashed into [filters_hash]: a datetime is not serialisable. *)
Definition filters_json (b : SourceBinding) (a : HistoricalPrdSearchArguments) : result exc json :=
  match sa_updated_after a with
  | Some _ => Raise TypeError
  | None => Ok (JObj [("product_tags", JArr (map JStr (sa_product_tags a))); ("updated_after", JNull);
                      ("access_scope_hash", JStr (sb_access_scope_hash b))])
  end.

(** [_run]: the model requires an investigation id. *)
Definition retrieval_run (run_id investigation_id : string) (b : SourceBinding) (a : HistoricalPrdSearchArguments)
    (status : RetrievalStatus) (fallback : option RetrievalMode) : HM RetrievalRun :=
  filters ← liftR (filters_json b a);
  duration ← gets (fun w => h_duration_ms (hw_times w));
  created_at ← next_now;
  if negb (truthy investigation_id) then raise ValueError
  else mret (mkRetrievalRun run_id investigation_id (sb_source_id b) (sb_source_version b)
    (sha256_json (JStr (sa_query a))) (sa_mode a) (sha256_json filters) (sa_limit a) (Z.max 0 duration) status fallback
    created_at).

(** [_failure]. *)
Definition failure (run_id investigation_id : string) (b : SourceBinding) (a : HistoricalPrdSearchArguments)
    (summary : string) (error_code : option string) : HM HistoricalRetrievalResult :=
  run ← retrieval_run run_id investigation_id b a RetrievalStatus.FAILED None;
  update_store (save_retrieval run []);;
  mret (mkRetrieval run [] [] summary error_code).

Definition keyword_only (keyword_ranked : list (string * nat)) : list ranked :=
  imap (fun i x => (x.1, None, Some (S i), None)) keyword_ranked.

(** The order of the candidates, the fallback mode, or [None] when the hybrid
    mode is not available. *)
Definition rank_entries (a : HistoricalPrdSearchArguments) (allow_keyword_fallback : bool) (es : list entry)
    : result exc (option (list ranked * option RetrievalMode)) :=
  let keyword_ranked := take 20 (keyword_rank (sa_query a) es) in
  if bool_decide (sa_mode a = RetrievalMode.KEYWORD) then Ok (Some (keyword_only keyword_ranked, None))
  else match vector_ranker with
  | None =>
      if allow_keyword_fallback then Ok (Some (keyword_only keyword_ranked, Some RetrievalMode.KEYWORD)) else Ok None
  | Some rank =>
      result_bind (fun ids =>
        let vector_ranked := take 20 ids in
        if existsb (fun id => negb (bool_decide (id ∈ map (fun e : entry => ch_chunk_id e.1.1) es))) vector_ranked
        then Raise ValueError
        else Ok (Some (map (fun '(id, s, k, v) => (id, Some s, k, v))
                         (reciprocal_rank_fusion (map fst keyword_ranked) vector_ranked 60), None)))
        (rank (sa_query a) es)
  end.

Definition day : Z := 86400000000.

Definition stale (now : Z) (d : HistoricalPrdDocument) : bool :=
  match hd_updated_at_source d with Some u => (u <? now - day * stale_after_days)%Z | None => false end.

(** The entry of each selected candidate. *)
Definition select (limit : nat) (es : list entry) (l : list ranked) : list (ranked * entry) :=
  let entry_by_chunk := dict_by (fun e : entry => ch_chunk_id e.1.1) es in
  take limit (omap (fun r => (fun e => (r, e)) <$> entry_by_chunk !! rk_id r) l).

(** The hit and the item of a selected candidate. *)
Definition hit_of (run_id : string) (now : Z) (final_rank : nat) (x : ranked * entry) : RetrievalHit :=
  let '(id, score, k, v) := x.1 in mkHit run_id id final_rank k v score (stale now x.2.2).

Definition item_of (now : Z) (e : entry) : result exc HistoricalPrdResultItem :=
  let '(chunk, version, document) := e in
  let excerpt := (safe_excerpt (ch_content chunk)).1 in
  if (800 <? str_len excerpt)%nat then Raise ValueError
  else Ok (mkItem (hd_document_id document) (hv_document_version_id version) (ch_chunk_id chunk) (hd_title document)
    (ch_section_path chunk) (hd_source_uri document) (hd_updated_at_source document) excerpt (ch_content_hash chunk)
    (stale now document)).

Definition found_summary (n : nat) : string :=
  if Nat.eqb n 0 then "历史 PRD 检索未召回可用章节" else "历史 PRD 检索返回 " +:+ pretty n +:+ " 个章节片段".

(** The end of [search], from the candidates on. *)
Definition deliver (run_id investigation_id : string) (b : SourceBinding) (a : HistoricalPrdSearchArguments)
    (as_of : option Z) (es : list entry) (l : list ranked) (fallback : option RetrievalMode)
    : HM HistoricalRetrievalResult :=
  let selected := select (sa_limit a) es l in
  now ← match as_of with Some t => mret t | None => next_now end;
  items ← liftR (result_map (fun x => item_of now x.2) selected);
  let hits := imap (fun i x => hit_of run_id now (S i) x) selected in
  run ← retrieval_run run_id investigation_id b a
          (match hits with [] => RetrievalStatus.EMPTY | _ => RetrievalStatus.SUCCEEDED end) fallback;
  update_store (save_retrieval run hits);;
  mret (mkRetrieval run hits items (found_summary (length items)) None).

(** [search]. *)
Definition search (investigation_id : string) (b : SourceBinding) (a : HistoricalPrdSearchArguments)
    (owner_id project_id : string) (access_labels : list string) (allow_keyword_fallback : bool) (as_of : option Z)
    : HM HistoricalRetrievalResult :=
  uuid ← next_uuid;
  let run_id := "retrieval-" +:+ uuid in
  let labels := sorted_set access_labels in
  liftR (validate_binding b owner_id project_id labels);;
  found ← on_store (get_corpus (sb_source_id b) (sb_source_version b));
  corpus ← liftR found;
  if negb (bool_decide (hc_status corpus = CorpusStatus.READY))
  then failure run_id investigation_id b a "历史语料尚未就绪" None
  else if negb (String.eqb (hc_owner_id corpus) owner_id) || negb (String.eqb (hc_project_id corpus) project_id)
  then raise PermissionError
  else
    candidates ← on_store (authorized_entries (sb_source_id b) (sb_source_version b) owner_id project_id labels
                             (sa_product_tags a) (sa_updated_after a));
    es ← liftR candidates;
    order ← liftR (rank_entries a allow_keyword_fallback es);
    match order with
    | None => failure run_id investigation_id b a "Hybrid 检索不可用" (Some "HYBRID_UNAVAILABLE")
    | Some (l, fallback) => deliver run_id investigation_id b a as_of es l fallback
    end.

(** ** [evidence.py] and [tool.py] *)

Definition evidence_from_result (item : HistoricalPrdResultItem) (tool_call_id : string) (b : SourceBinding)
    (retrieved_at : Z) : result exc SourceEvidence :=
  if negb (bool_decide (sb_source_kind b = SourceKind.HISTORICAL_PRD_CORPUS)) then Raise ValueError
  else
    let (excerpt, redacted) := safe_excerpt (ri_excerpt item) in
    let digest := sha256_hex (canonical_json (JObj [("tool_call_id", JStr tool_call_id); ("chunk_id", JStr (ri_chunk_id item));
                    ("content_hash", JStr (ri_content_hash item))])) in
    validate_source_contract (mkEvidence ("evidence-" +:+ str_take 32 digest) tool_call_id "HISTORICAL_PRD"
      SourceKind.HISTORICAL_PRD_DOCUMENT (Some (ri_document_id item)) (Some (ri_document_version_id item))
      [("corpus_id", JStr (sb_source_id b)); ("corpus_version", JStr (sb_source_version b));
       ("source_uri", JStr (ri_source_uri item)); ("section_path", JArr (map JStr (ri_section_path item)));
       ("chunk_id", JStr (ri_chunk_id item))]
      (Some (sb_access_scope_hash b)) None None None None None None excerpt (ri_content_hash item) None
      ExtractionMethod.HISTORICAL_RETRIEVAL redacted retrieved_at).

Definition historical_fact (e : SourceEvidence) (task_id : option string) (subject predicate : string) (value : json)
    : HM DeterministicFact :=
  if negb (bool_decide (e_source_kind e = SourceKind.HISTORICAL_PRD_DOCUMENT)) then raise ValueError
  else
    uuid ← next_uuid;
    mret (mkFact ("fact-" +:+ uuid) (e_tool_call_id e) task_id subject predicate value FactScope.HISTORICAL_CONTEXT
      FactType.DOCUMENT_SUPPORTED "HIGH" VerificationStatus.SUPPORTED "historical_prd_search" "1" [e_evidence_id e]).

(** A read action names a tool, its schema and a source. *)
Record ReadAction := mkReadAction {
  rd_tool_id : string;
  rd_tool_schema_version : string;
  rd_source_binding : SourceBinding;
  rd_arguments : list (string * json)
}.

(** [HistoricalPrdSearchTool.execute]; [parse] is the validation of the
    arguments by the model. *)
Definition execute_search (parse : list (string * json) -> result exc HistoricalPrdSearchArguments) (action : ReadAction)
    (investigation_id owner_id project_id : string) (access_labels : list string) (allow_keyword_fallback : bool)
    : HM HistoricalRetrievalResult :=
  if negb (String.eqb (rd_tool_id action) "historical_prd_search")
     || negb (String.eqb (rd_tool_schema_version action) "1") then raise ValueError
  else if negb (bool_decide (sb_source_kind (rd_source_binding action) = SourceKind.HISTORICAL_PRD_CORPUS))
  then raise ValueError
  else
    arguments ← liftR (parse (rd_arguments action));
    search investigation_id (rd_source_binding action) arguments owner_id project_id access_labels
      allow_keyword_fallback None.
End retriever.

Example fusion_example :
  map (fun x => x.1.1.1) (reciprocal_rank_fusion ["a"; "b"; "c"] ["c"; "b"; "d"] 60) = ["c"; "b"; "a"; "d"].
Proof. vm_compute. reflexivity. Qed.
