(* ===== verification/RetrievalFacts.v ===== *)
(** * Retrieval is permission-first and reproducible

    The fused order on binary64 scores: every candidate once, with the ranks it
    has in the two lists, and a candidate that is ranked at least as well in
    both lists and better in one comes first.  What a search returns comes from
    documents of the bound corpus version that the actor may read, no other
    document has any influence on it, and it does not depend on what was
    ingested or searched in the meantime. *)
From stdpp Require Import base list sets strings pretty.
From Stdlib Require Import ZArith Lia SpecFloat Sorted.
From S2P Require Import Prelude.
From S2P Require Import PyDict.
From S2P Require Import Json.
From S2P Require Import Grounding.
From S2P Require Import PyText.
From S2P Require Import RepositoryPolicy.
From S2P Require Import CodePoints.
From S2P Require Import Chunking.
From S2P Require Import ChunkingFacts.
From S2P Require Import Historical.
From S2P Require Import Retrieval.
#[local] Open Scope nat_scope.

(** ** Ranks *)

Lemma rank_from_Some i ids id r :
  rank_from i ids id = Some r -> i <= r < i + length ids /\ ids !! (r - i) = Some id.
Proof.
  revert i. induction ids as [|x ids IH]; intros i; simpl; [done|].
  destruct (rank_from (S i) ids id) as [r'|] eqn:E.
  - intros [= <-]. destruct (IH _ E) as [Hr Hl]. split; [lia|]. replace (r' - i) with (S (r' - S i)) by lia. done.
  - destruct (String.eqb_spec x id) as [->|]; [|done]. intros [= <-]. split; [lia|]. by rewrite Nat.sub_diag.
Qed.

Lemma rank_from_None i ids id : rank_from i ids id = None <-> id ∉ ids.
Proof.
  revert i. induction ids as [|x ids IH]; intros i; simpl; [set_solver|].
  destruct (rank_from (S i) ids id) as [r'|] eqn:E.
  - split; [done|]. intros Hn. assert (rank_from (S i) ids id = None) by (apply IH; set_solver). congruence.
  - apply IH in E. destruct (String.eqb_spec x id); set_solver.
Qed.

(** A rank of at most 20, or none. *)
Definition cut_rank (r : option nat) : Prop := r = None \/ exists n, r = Some n /\ 1 <= n <= 20.

Lemma rank_of_cut ids id : length ids <= 20 -> cut_rank (rank_of ids id).
Proof.
  intros Hl. destruct (rank_of ids id) as [r|] eqn:E; [right|by left].
  apply rank_from_Some in E as [Hr _]. exists r. split; [done|lia].
Qed.

(** ** Scores as integers *)

(** Scores of ranks up to 20 are multiples of [2 ^ (-70)]. *)
Definition scaled (f : float) : Z :=
  match f with S754_finite false m e => Z.shiftl (Zpos m) (e + 70) | _ => 0 end.

Definition cut_ranks : list (option nat) := None :: map Some (seq 1 20).

Lemma cut_ranks_elem r : cut_rank r -> r ∈ cut_ranks.
Proof.
  intros [->|(n & -> & Hn)]; [left|]. right. apply (list_elem_of_fmap_2 Some). apply elem_of_seq. lia.
Qed.

Definition all_scores : list float :=
  concat (map (fun k => map (fun v => fused_score 60 k v) cut_ranks) cut_ranks).

Lemma compare_checked :
  forallb (fun x => forallb (fun y => Bool.eqb (SFltb x y) (Z.ltb (scaled x) (scaled y))) all_scores) all_scores = true.
Proof. vm_compute. reflexivity. Qed.

Lemma all_scores_elem k v : cut_rank k -> cut_rank v -> fused_score 60 k v ∈ all_scores.
Proof.
  intros Hk%cut_ranks_elem Hv%cut_ranks_elem. unfold all_scores. apply list_elem_of_In, in_concat.
  eexists. split; [apply in_map, list_elem_of_In; exact Hk|]. apply (in_map (fused_score 60 k)). by apply list_elem_of_In.
Qed.

Lemma score_compare k v k' v' :
  cut_rank k -> cut_rank v -> cut_rank k' -> cut_rank v' ->
  SFltb (fused_score 60 k v) (fused_score 60 k' v')
  = Z.ltb (scaled (fused_score 60 k v)) (scaled (fused_score 60 k' v')).
Proof.
  intros Hk Hv Hk' Hv'. pose proof compare_checked as Hc. rewrite forallb_forall in Hc.
  specialize (Hc _ (proj1 (list_elem_of_In _ _) (all_scores_elem k v Hk Hv))). rewrite forallb_forall in Hc.
  specialize (Hc _ (proj1 (list_elem_of_In _ _) (all_scores_elem k' v' Hk' Hv'))). by apply Bool.eqb_prop in Hc.
Qed.

(** A rank is at least as good as another. *)
Definition rank_geb (r r' : option nat) : bool :=
  match r, r' with
  | _, None => true
  | None, Some _ => false
  | Some n, Some n' => (n <=? n')%nat
  end.

Definition rank_eqb (r r' : option nat) : bool := bool_decide (r = r').

(** All pairs of ranks with their scaled scores. *)
Definition score_table : list (option nat * option nat * Z) :=
  concat (map (fun k => map (fun v => (k, v, scaled (fused_score 60 k v))) cut_ranks) cut_ranks).

Lemma score_table_elem k v : cut_rank k -> cut_rank v -> In (k, v, scaled (fused_score 60 k v)) score_table.
Proof.
  intros Hk%cut_ranks_elem Hv%cut_ranks_elem. unfold score_table. apply in_concat.
  eexists. split; [apply in_map, list_elem_of_In; exact Hk|].
  apply (in_map (fun v => (k, v, scaled (fused_score 60 k v)))). by apply list_elem_of_In.
Qed.

Lemma dominance_checked :
  forallb (fun '(k, v, z) => forallb (fun '(k', v', z') =>
    implb (rank_geb k k' && rank_geb v v' && negb (rank_eqb k k' && rank_eqb v v')) (Z.ltb z' z)) score_table) score_table
  = true.
Proof. vm_compute. reflexivity. Qed.

Lemma better_ranks k v k' v' :
  cut_rank k -> cut_rank v -> cut_rank k' -> cut_rank v' -> rank_geb k k' = true -> rank_geb v v' = true ->
  (k, v) <> (k', v') -> (scaled (fused_score 60 k' v') < scaled (fused_score 60 k v))%Z.
Proof.
  intros Hk Hv Hk' Hv' Hgk Hgv Hne. pose proof dominance_checked as Hc. rewrite forallb_forall in Hc.
  specialize (Hc _ (score_table_elem k v Hk Hv)). cbv beta iota in Hc. rewrite forallb_forall in Hc.
  specialize (Hc _ (score_table_elem k' v' Hk' Hv')). cbv beta iota in Hc. rewrite Hgk, Hgv in Hc.
  unfold rank_eqb in Hc. repeat case_bool_decide; simpl in Hc; try congruence; by apply Z.ltb_lt.
Qed.

(** ** The fused order *)

Definition fused : Type := string * float * option nat * option nat.
Definition fd_id (x : fused) : string := x.1.1.1.
Definition fd_score (x : fused) : float := x.1.1.2.
Definition fd_keyword (x : fused) : option nat := x.1.2.
Definition fd_vector (x : fused) : option nat := x.2.

Lemma fused_leb_total x y : fused_leb x y = false -> fused_leb y x = true.
Proof.
  destruct x as [[[ix sx] kx] vx], y as [[[iy sy] ky] vy]. unfold fused_leb.
  destruct (SFltb sy sx); [done|]. destruct (SFltb sx sy); [done|]. destruct (String.leb_total ix iy) as [->| ->]; done.
Qed.

(** [x] comes before [y] in [l]. *)
Definition precedes {A} (l : list A) (x y : A) : Prop := exists i j, i < j /\ l !! i = Some x /\ l !! j = Some y.

Lemma sorted_precedes {A} (z : A -> Z) l x y :
  Sorted (fun a b => z b <= z a)%Z l -> x ∈ l -> y ∈ l -> (z y < z x)%Z -> precedes l x y.
Proof.
  intros Hs Hx Hy Hlt. apply Sorted_StronglySorted in Hs; [|intros ???; lia].
  apply list_elem_of_lookup in Hx as [i Hi]. apply list_elem_of_lookup in Hy as [j Hj].
  destruct (Nat.lt_trichotomy i j) as [|[->|Hji]]; [by exists i, j|simplify_eq; lia|]. exfalso.
  enough (z x <= z y)%Z by lia. revert i j Hji Hi Hj. clear Hlt. induction Hs as [|a l _ IH Hall]; intros i j Hji Hi Hj; [done|].
  destruct j as [|j], i as [|i]; try lia; simpl in *.
  - simplify_eq. rewrite List.Forall_forall in Hall. apply Hall, list_elem_of_In. by eapply list_elem_of_lookup_2.
  - eapply (IH i j); [lia|done|done].
Qed.

(** reciprocal rank fusion on lists of at most 20 candidates, computed in
    binary64: every candidate of the two lists occurs exactly once, with its last
    rank in each list; neighbours are in order of descending score, then of
    identifier; and a candidate ranked at least as well as another in both lists
    and better in one comes before it. *)
Theorem fusion_ranks (keyword vector : list string) :
  length keyword <= 20 -> length vector <= 20 ->
  let l := reciprocal_rank_fusion keyword vector 60 in
  NoDup (map fd_id l) /\ (forall id, id ∈ map fd_id l <-> id ∈ keyword \/ id ∈ vector) /\
  (forall x, x ∈ l -> fd_keyword x = rank_of keyword (fd_id x) /\ fd_vector x = rank_of vector (fd_id x)) /\
  Sorted (fun x y => fused_leb x y = true) l /\
  (forall x y, x ∈ l -> y ∈ l -> rank_geb (fd_keyword x) (fd_keyword y) = true -> rank_geb (fd_vector x) (fd_vector y) = true ->
     (fd_keyword x, fd_vector x) <> (fd_keyword y, fd_vector y) -> precedes l x y).
Proof.
  intros Hk Hv l.
  set (row := fun id => (id, fused_score 60 (rank_of keyword id) (rank_of vector id), rank_of keyword id, rank_of vector id)).
  assert (Hl : l ≡ₚ map row (dedup (keyword ++ vector))) by apply sort_by_perm.
  assert (Hids : map fd_id l ≡ₚ dedup (keyword ++ vector)).
  { rewrite Hl, map_map. simpl. by rewrite map_id. }
  assert (Hrow : forall x, x ∈ l -> x = row (fd_id x)).
  { intros x. rewrite Hl. intros (id & -> & _)%list_elem_of_fmap_1. done. }
  assert (Hsorted : Sorted (fun x y => fused_leb x y = true) l) by apply sort_by_sorted, fused_leb_total.
  assert (Hdesc : Sorted (fun x y => scaled (fd_score y) <= scaled (fd_score x))%Z l).
  { assert (Hall : Forall (fun x => x = row (fd_id x)) l) by (apply Forall_forall; auto).
    clear -Hsorted Hall Hk Hv. induction Hsorted as [|x l'' Hs IH Hhd]; [constructor|].
    apply Forall_cons in Hall as [Hx Hall]. constructor; [auto|].
    destruct Hhd as [|y l'' Hle]; [constructor|]. apply Forall_cons in Hall as [Hy _]. constructor.
    rewrite Hx, Hy in Hle |- *. unfold row, fused_leb in Hle. unfold row, fd_score. simpl.
    rewrite !score_compare in Hle by (by apply rank_of_cut).
    match goal with |- (?a <= ?b)%Z => destruct (Z.ltb_spec a b); [lia|]; destruct (Z.ltb_spec b a); [done|lia] end. }
  split_and!.
  - rewrite Hids. apply dedup_NoDup.
  - intros id. rewrite Hids, dedup_elem, elem_of_app. done.
  - intros x Hx. rewrite (Hrow x Hx). done.
  - done.
  - intros x y Hx Hy Hgk Hgv Hne. apply (sorted_precedes (fun x => scaled (fd_score x))); [done|done|done|].
    rewrite (Hrow x Hx), (Hrow y Hy) in *. simpl in *. apply better_ranks; auto using rank_of_cut.
Qed.

Lemma fusion_ranks_witness :
  let l := reciprocal_rank_fusion ["a"; "b"; "c"] ["b"; "c"; "d"] 60 in
  map fd_id l = ["b"; "c"; "a"; "d"] /\ NoDup (map fd_id l).
Proof.
  split; [vm_compute; reflexivity|].
  exact (proj1 (fusion_ranks ["a"; "b"; "c"] ["b"; "c"; "d"] ltac:(simpl; lia) ltac:(simpl; lia))).
Defined.


(** ** Excerpts *)

Lemma compact_spaces_ink t : ink (compact_spaces t) = ink t.
Proof.
  induction t as [|c t IH]; [done|]. cbn [compact_spaces]. rewrite ink_cons.
  destruct (space c) eqn:E; [|by rewrite ink_cons, E, IH].
  destruct t as [|d t]; [done|]. destruct (space d) eqn:Ed; [exact IH|]. rewrite ink_cons. exact IH.
Qed.

Lemma trstrip_ink t : ink (trstrip t) = ink t.
Proof. unfold trstrip. by rewrite ink_rev, ink_tlstrip, ink_rev, rev_involutive. Qed.

Lemma length_trstrip t : length (trstrip t) <= length t.
Proof. unfold trstrip. rewrite length_rev. etrans; [apply length_tlstrip|]. by rewrite length_rev. Qed.

Section facts.
Context `{Builtins} `{TextEngine} `{RegexEngine}.

(** An excerpt never exceeds the 800 characters the model allows. *)
Lemma safe_excerpt_bounded v : str_len (safe_excerpt v).1 <= 800.
Proof.
  unfold safe_excerpt. destruct (redact v) as [redacted changed]. cbn [fst].
  set (compact := tstrip (compact_spaces (decode redacted))).
  assert (Hok : Forall code_ok compact).
  { apply ink_codes. unfold compact. rewrite ink_tstrip, compact_spaces_ink. apply Forall_ink, decode_ok. }
  destruct (Nat.ltb_spec 800 (length compact)) as [Hl|Hl]; [|by rewrite str_len_encode].
  rewrite str_len_encode.
  - rewrite length_app. pose proof (length_trstrip (take 799 compact)) as Ht. rewrite length_take in Ht. simpl. lia.
  - apply Forall_app. split; [|by repeat constructor]. apply ink_codes. rewrite trstrip_ink. apply Forall_ink.
    by apply Forall_take.
Qed.
End facts.

Section retrieval.
Context `{Builtins} `{TextEngine} `{RegexEngine} `{HistoricalEnv} `{RetrieverConfig}.

(** ** Inversion of a search *)

Lemma hbind_ok {A B} (m : HM A) (k : A -> HM B) w w' b :
  (x ← m; k x) w = (w', Ok b) -> exists w1 a, m w = (w1, Ok a) /\ k a w1 = (w', Ok b).
Proof. unfold mbind, M_bind. destruct (m w) as [w1 [a|e]]; [eauto|done]. Qed.

(** A selected candidate is an entry, under its own identifier. *)
Lemma select_elem limit es l r e :
  (r, e) ∈ select limit es l -> e ∈ es /\ ch_chunk_id e.1.1 = rk_id r.
Proof.
  unfold select. intros Hin. apply elem_of_take in Hin as (i & Hi & _). apply list_elem_of_lookup_2 in Hi.
  apply list_elem_of_omap in Hi as (r' & _ & Hr). apply fmap_Some in Hr as (e' & He & [= -> ->]).
  by apply dict_by_lookup in He.
Qed.

Lemma select_length limit es l : length (select limit es l) <= limit.
Proof. unfold select. rewrite length_take. lia. Qed.

Lemma item_of_fields now e it :
  item_of now e = Ok it ->
  ri_chunk_id it = ch_chunk_id e.1.1 /\ ri_document_version_id it = hv_document_version_id e.1.2 /\
  ri_document_id it = hd_document_id e.2 /\ ri_title it = hd_title e.2 /\
  ri_excerpt it = (safe_excerpt (ch_content e.1.1)).1 /\ ri_content_hash it = ch_content_hash e.1.1.
Proof. destruct e as [[chunk version] document]. unfold item_of. case_match; [done|]. by intros [= <-]. Qed.

(** The items can always be built. *)
Lemma item_of_total now e : exists it, item_of now e = Ok it.
Proof.
  destruct e as [[chunk version] document]. unfold item_of. pose proof (safe_excerpt_bounded (ch_content chunk)).
  destruct (Nat.ltb_spec 800 (str_len (safe_excerpt (ch_content chunk)).1)); [lia|]. eauto.
Qed.

(** The shape of a successful result. *)
Definition well_shaped (limit : nat) (res : HistoricalRetrievalResult) : Prop :=
  length (hr_items res) <= limit /\ map rh_rank (hr_hits res) = seq 1 (length (hr_items res)) /\
  map rh_chunk_id (hr_hits res) = map ri_chunk_id (hr_items res).

Lemma failure_ok run_id inv b a summary code w w' res :
  failure run_id inv b a summary code w = (w', Ok res) -> hr_hits res = [] /\ hr_items res = [].
Proof.
  unfold failure. intros E. apply hbind_ok in E as (? & ? & _ & E). apply hbind_ok in E as (? & ? & _ & E).
  by injection E as _ <-.
Qed.

Lemma result_map_Forall2 {A B} (f : A -> result exc B) l ys :
  result_map f l = Ok ys -> Forall2 (fun x y => f x = Ok y) l ys.
Proof.
  revert ys. induction l as [|x l IH]; intros ys; simpl; [by intros [= <-]|]. destruct (f x) as [y|] eqn:E; [|done].
  simpl. destruct (result_map f l) as [ys'|]; [|done]. intros [= <-]. constructor; auto.
Qed.

Lemma deliver_ok run_id inv b a as_of es l fallback w w' res :
  deliver run_id inv b a as_of es l fallback w = (w', Ok res) ->
  well_shaped (sa_limit a) res /\
  exists now, forall it, it ∈ hr_items res -> exists e, e ∈ es /\ item_of now e = Ok it.
Proof.
  unfold deliver. intros E. apply hbind_ok in E as (w1 & now & _ & E). apply hbind_ok in E as (w2 & items & Ei & E).
  apply hbind_ok in E as (w3 & run & _ & E). apply hbind_ok in E as (w4 & [] & _ & E). injection E as _ <-.
  injection Ei as _ Ei. apply result_map_Forall2 in Ei. pose proof (Forall2_length _ _ _ Ei) as Hlen. split.
  - split_and!; simpl.
    + rewrite <- Hlen. apply select_length.
    + rewrite <- Hlen, (fmap_imap _ rh_rank).
      transitivity (imap (fun i (_ : ranked * entry) => 1 + i) (select (sa_limit a) es l)).
      { apply imap_ext. intros i x _. simpl. unfold hit_of. by destruct x as [[[[id s] k] v] e]. }
      rewrite (imap_seq (select (sa_limit a) es l) (fun i => i) 1). apply list_fmap_id.
    + rewrite (fmap_imap _ rh_chunk_id).
      transitivity ((fun x : ranked * entry => rk_id x.1) <$> select (sa_limit a) es l).
      { rewrite <- imap_const. apply imap_ext. intros i x _. simpl. unfold hit_of. by destruct x as [[[[id s] k] v] e]. }
      assert (Hsel : Forall (fun x => ch_chunk_id x.2.1.1 = rk_id x.1) (select (sa_limit a) es l)).
      { apply Forall_forall. intros [r e] Hx. by apply select_elem in Hx as [_ ?]. }
      revert Hsel. clear -Ei. induction Ei as [|x it ? ? Hi _ IH]; [done|]. intros [Hx Hsel]%Forall_cons.
      simpl. f_equal; [|auto]. apply item_of_fields in Hi as [-> _]. done.
  - exists now. intros it Hit. simpl in Hit. apply list_elem_of_lookup in Hit as [i Hi].
    destruct (Forall2_lookup_r _ _ _ _ _ Ei Hi) as ([r e] & Hx & Hit). exists e. split; [|done].
    by apply list_elem_of_lookup_2, select_elem in Hx as [? _].
Qed.

(** ** Permissions *)

(** What the tests on a document mean. *)
Record may_read (owner project : string) (labels : list string) (a : HistoricalPrdSearchArguments)
    (d : HistoricalPrdDocument) : Prop := {
  mr_owner : hd_owner_id d = owner;
  mr_project : hd_project_id d = project;
  mr_active : hd_status d = DocumentStatus.ACTIVE;
  mr_labels : forall x, x ∈ hd_access_labels d -> x ∈ labels;
  mr_tags : sa_product_tags a <> [] -> exists t, t ∈ sa_product_tags a /\ t ∈ hd_product_tags d
}.

Lemma sorted_set_elem l x : x ∈ sorted_set l <-> x ∈ l.
Proof. unfold sorted_set. by rewrite elem_of_sort_by, dedup_elem. Qed.

Lemma authorized_may_read owner project labels a d :
  authorized owner project (sorted_set labels) (sa_product_tags a) (sa_updated_after a) d = true ->
  may_read owner project labels a d.
Proof.
  unfold authorized. rewrite !andb_true_iff. intros (((((Ho & Hp) & Hs) & Hl) & Ht) & _).
  split; [by apply String.eqb_eq|by apply String.eqb_eq|by apply bool_decide_eq_true in Hs| |].
  - intros x Hx. rewrite forallb_forall in Hl. specialize (Hl x (proj1 (list_elem_of_In _ _) Hx)).
    apply bool_decide_eq_true in Hl. by apply sorted_set_elem.
  - intros Hne. destruct (sa_product_tags a) as [|t tags]; [done|]. apply existsb_exists in Ht as (t' & Hin & Ht).
    exists t'. apply bool_decide_eq_true in Ht. split; [by apply list_elem_of_In|done].
Qed.

Lemma authorized_entries_elem cid v owner project labels tags after s es e :
  authorized_entries cid v owner project labels tags after s = Ok es -> e ∈ es ->
  authorized owner project labels tags after e.2 = true /\ exists all, entries cid v s = Ok all /\ e ∈ all.
Proof.
  unfold authorized_entries, result_bind. destruct (entries cid v s) as [all|] eqn:E; [|done]. intros [= <-] He.
  apply list_elem_of_In, List.filter_In in He as [He Ha]. split; [done|]. exists all. split; [done|]. by apply list_elem_of_In.
Qed.

Lemma validate_binding_ok b owner project labels :
  validate_binding b owner project labels = Ok tt ->
  sb_owner_id b = owner /\ sb_access_scope_hash b = access_scope_hash owner project labels /\
  assoc_get "project_id" (sb_metadata b) = Some project.
Proof.
  unfold validate_binding. case_bool_decide; simpl; [|done].
  destruct (String.eqb_spec (sb_owner_id b) owner); [|done]. simpl.
  destruct (String.eqb_spec (sb_access_scope_hash b) (access_scope_hash owner project labels)); [|done]. simpl.
  case_bool_decide; done.
Qed.

(** C10: retrieval is permission-first.  When a search returns, the binding is
    the actor's and carries the hash of the actor's own scope; there are at most
    as many items as asked for, the hits are ranked 1, 2, ... and name the chunks
    of the items in the same order; and every item is taken from an entry of the
    bound corpus version whose document belongs to the actor and the project, is
    active, requires no label the actor lacks and has one of the requested tags. *)
Theorem retrieval_permission_first (inv : string) (b : SourceBinding) (a : HistoricalPrdSearchArguments)
    (owner project : string) (labels : list string) (fallback : bool) (as_of : option Z) (w w' : hworld)
    (res : HistoricalRetrievalResult) :
  search inv b a owner project labels fallback as_of w = (w', Ok res) ->
  sb_owner_id b = owner /\ sb_access_scope_hash b = access_scope_hash owner project (sorted_set labels) /\
  well_shaped (sa_limit a) res /\
  forall it, it ∈ hr_items res -> exists es e now,
    entries (sb_source_id b) (sb_source_version b) (hw_store w) = Ok es /\ e ∈ es /\
    may_read owner project labels a e.2 /\ item_of now e = Ok it.
Proof.
  unfold search. intros E. apply hbind_ok in E as (w1 & uuid & Eu & E). injection Eu as <- <-.
  apply hbind_ok in E as (w2 & [] & Ev & E). injection Ev as <- Ev.
  apply validate_binding_ok in Ev as (Ho & Hh & _). split; [done|]. split; [done|].
  apply hbind_ok in E as (w3 & found & Ef & E). injection Ef as <- Ef.
  apply hbind_ok in E as (w4 & corpus & Ec & E). injection Ec as <- Ec.
  assert (Hfail : forall w0 run_id summary code, failure run_id inv b a summary code w0 = (w', Ok res) ->
    well_shaped (sa_limit a) res /\ forall it, it ∈ hr_items res -> exists es e now,
      entries (sb_source_id b) (sb_source_version b) (hw_store w) = Ok es /\ e ∈ es /\
      may_read owner project labels a e.2 /\ item_of now e = Ok it).
  { intros w0 run_id summary code Hf. apply failure_ok in Hf as [Hh1 Hi1]. unfold well_shaped. rewrite Hh1, Hi1.
    split; [simpl; split_and!; [lia|done|done]|]. intros it Hit. by apply elem_of_nil in Hit. }
  case_match; [by eapply Hfail|]. case_match; [done|].
  apply hbind_ok in E as (w5 & candidates & Ea & E). injection Ea as <- Ea.
  apply hbind_ok in E as (w6 & es & Ee & E). injection Ee as <- Ee.
  apply hbind_ok in E as (w7 & order & Eo & E). injection Eo as <- Eo. destruct order as [[l fb]|]; [|by eapply Hfail].
  apply deliver_ok in E as [Hshape (now & Hitems)]. split; [done|]. intros it Hit. destruct (Hitems it Hit) as (e & He & Hi).
  rewrite <- Ea in Ee. simpl in Ee. destruct (authorized_entries_elem _ _ _ _ _ _ _ _ _ _ Ee He) as [Hauth (all & Hall & Hin)].
  exists all, e, now. split_and!; [done|done|by apply authorized_may_read|done].
Qed.

(** Computations that look at the counters of the world, not at the store. *)
Definition same_counters (v v' : hworld) : Prop := hw_ids v = hw_ids v' /\ hw_times v = hw_times v'.

Definition blind {A} (m : HM A) : Prop := forall v v', same_counters v v' ->
  (m v).2 = (m v').2 /\ same_counters (m v).1 (m v').1.

Lemma blind_bind {A B} (m : HM A) (k : A -> HM B) : blind m -> (forall a, blind (k a)) -> blind (x ← m; k x).
Proof.
  intros Hm Hk v v' Hv. destruct (Hm v v' Hv) as [E Hs]. unfold mbind, M_bind.
  destruct (m v) as [v1 r1], (m v') as [v2 r2]. simpl in *. subst r2. destruct r1 as [x|e]; [by apply Hk|done].
Qed.

Lemma blind_pure {A} (r : result exc A) : blind (fun w => (w, r)).
Proof. by intros v v' Hv. Qed.

Lemma blind_update f : blind (update_store f).
Proof. by intros v v' Hv. Qed.

Lemma blind_now : blind next_now.
Proof. intros v v' [Hi Ht]. unfold next_now. simpl. rewrite Ht. split; [done|]. by split; simpl; rewrite ?Hi. Qed.

Lemma blind_run run_id inv b a status fb : blind (retrieval_run run_id inv b a status fb).
Proof.
  unfold retrieval_run. apply blind_bind; [apply blind_pure|]. intros filters. apply blind_bind.
  { intros v v' Hv. simpl. by rewrite (proj2 Hv). }
  intros duration. apply blind_bind; [apply blind_now|]. intros created. case_match; apply blind_pure.
Qed.

Lemma blind_failure run_id inv b a summary code : blind (failure run_id inv b a summary code).
Proof.
  apply blind_bind; [apply blind_run|]. intros run. apply blind_bind; [apply blind_update|]. intros _. apply blind_pure.
Qed.

Lemma blind_deliver run_id inv b a as_of es l fb : blind (deliver run_id inv b a as_of es l fb).
Proof.
  unfold deliver. apply blind_bind; [destruct as_of; [apply blind_pure|apply blind_now]|]. intros now.
  apply blind_bind; [apply blind_pure|]. intros items. apply blind_bind; [apply blind_run|]. intros run.
  apply blind_bind; [apply blind_update|]. intros _. apply blind_pure.
Qed.

(** C26: documents that the actor may not read leave no trace.  In two stores
    that hold the same corpus record and the same readable entries, whatever
    else they hold, the same search gives the same answer or the same error. *)
Theorem unreadable_documents_invisible (inv : string) (b : SourceBinding) (a : HistoricalPrdSearchArguments)
    (owner project : string) (labels : list string) (fallback : bool) (as_of : option Z) (w1 w2 : hworld) :
  let readable w := (fun es => List.filter (fun e : entry =>
      authorized owner project (sorted_set labels) (sa_product_tags a) (sa_updated_after a) e.2) es) <$>
    (match entries (sb_source_id b) (sb_source_version b) (hw_store w) with Ok es => Some es | Raise _ => None end) in
  hw_ids w1 = hw_ids w2 -> hw_times w1 = hw_times w2 ->
  get_corpus (sb_source_id b) (sb_source_version b) (hw_store w1) = get_corpus (sb_source_id b) (sb_source_version b) (hw_store w2) ->
  readable w1 = readable w2 -> is_Some (readable w1) ->
  (search inv b a owner project labels fallback as_of w1).2 = (search inv b a owner project labels fallback as_of w2).2.
Proof.
  intros readable Hids Htimes Hcorpus Hread [es Hes].
  assert (Hauth : forall w, readable w = Some es -> authorized_entries (sb_source_id b) (sb_source_version b) owner project
    (sorted_set labels) (sa_product_tags a) (sa_updated_after a) (hw_store w) = Ok es).
  { intros w. unfold readable, authorized_entries, result_bind. destruct (entries _ _ _); [|done]. by intros [= <-]. }
  pose proof (Hauth w1 Hes) as Ha1. rewrite Hread in Hes. pose proof (Hauth w2 Hes) as Ha2. clear Hauth Hread Hes readable.
  unfold search, mbind, M_bind, next_uuid, on_store, gets, liftR. cbn [hw_store]. rewrite Hids, Hcorpus.
  set (v1 := mkHWorld (hw_store w1) _ _ _). set (v2 := mkHWorld (hw_store w2) _ _ _).
  assert (Hv : same_counters v1 v2) by (by split).
  destruct (validate_binding _ _ _ _) as [u|]; [|done].
  destruct (get_corpus _ _ (hw_store w2)) as [corpus|]; [|done].
  case_match; [by apply blind_failure|]. case_match; [done|].
  change (hw_store v1) with (hw_store w1). change (hw_store v2) with (hw_store w2). rewrite Ha1, Ha2.
  destruct (rank_entries a fallback es) as [[[l fb]|]|]; [by apply blind_deliver|by apply blind_failure|done].
Qed.

(** A search with a date filter never returns: the filters are hashed as
    JSON, and a datetime has no JSON form. *)
Theorem date_filter_raises (inv : string) (b : SourceBinding) (a : HistoricalPrdSearchArguments)
    (owner project : string) (labels : list string) (fallback : bool) (as_of : option Z) (w : hworld) :
  sa_updated_after a <> None -> exists e, (search inv b a owner project labels fallback as_of w).2 = Raise e.
Proof.
  intros Hafter. destruct (search _ _ _ _ _ _ _ _ w) as [w' [res|e]] eqn:E; [exfalso|by exists e].
  assert (Hrun : forall run_id status fb w0 w1 r, retrieval_run run_id inv b a status fb w0 <> (w1, Ok r)).
  { intros run_id status fb w0 w1 r Hr. unfold retrieval_run in Hr. apply hbind_ok in Hr as (? & ? & Hf & _).
    unfold filters_json in Hf. by destruct (sa_updated_after a). }
  assert (Hfail : forall w0 run_id summary code, failure run_id inv b a summary code w0 <> (w', Ok res)).
  { intros w0 run_id summary code Hf. unfold failure in Hf. apply hbind_ok in Hf as (? & ? & Hr & _). by apply Hrun in Hr. }
  unfold search in E. do 4 (apply hbind_ok in E as (? & ? & _ & E)). case_match; [by apply Hfail in E|].
  case_match; [done|]. do 3 (apply hbind_ok in E as (? & ? & _ & E)). case_match; [|by apply Hfail in E]. case_match.
  unfold deliver in E. do 2 (apply hbind_ok in E as (? & ? & _ & E)). apply hbind_ok in E as (? & ? & Hr & _).
  by apply Hrun in Hr.
Qed.
End retrieval.

(** * A corpus version never changes

    Ingestion and searches only add to the store: the record, the chunks and
    the documents of a corpus version stay what they were when it was saved, so
    that a search over it can be repeated at any later time. *)

(** ** Stores that only grow *)

(** What [d] binds is bound to the same value in [d']. *)
Definition keeps {K V} `{EqDecision K} (d d' : dict K V) : Prop := forall k v, d !! k = Some v -> d' !! k = Some v.

Lemma keeps_refl {K V} `{EqDecision K} (d : dict K V) : keeps d d.
Proof. by intros k v. Qed.

Lemma keeps_trans {K V} `{EqDecision K} (d1 d2 d3 : dict K V) : keeps d1 d2 -> keeps d2 d3 -> keeps d1 d3.
Proof. intros H1 H2 k v Hk. auto. Qed.

Lemma keeps_setdefault {K V} `{EqDecision K} (k : K) (v : V) d : keeps d (setdefault k v d).
Proof.
  intros k' v' Hk. unfold setdefault. destruct (d !! k) eqn:E; [done|]. rewrite dict_lookup_insert_ne; [done|].
  intros ->. congruence.
Qed.

(** The version records are stored under their identifiers. *)
Definition versions_ok (s : hstore) : Prop := forall k v, hs_versions s !! k = Some v -> hv_document_version_id v = k.

Record extends (s s' : hstore) : Prop := {
  ex_corpora : keeps (hs_corpora s) (hs_corpora s');
  ex_corpus_chunks : keeps (hs_corpus_chunks s) (hs_corpus_chunks s');
  ex_corpus_documents : keeps (hs_corpus_documents s) (hs_corpus_documents s');
  ex_chunks : keeps (hs_chunks s) (hs_chunks s');
  ex_versions : forall k, is_Some (hs_versions s !! k) -> is_Some (hs_versions s' !! k)
}.

Lemma extends_refl s : extends s s.
Proof. split; try apply keeps_refl. done. Qed.

Lemma extends_trans s1 s2 s3 : extends s1 s2 -> extends s2 s3 -> extends s1 s3.
Proof. intros [] []. split; eauto using keeps_trans. Qed.

(** A step of the store that keeps the identifiers and only adds. *)
Definition adds (f : hstore -> hstore) : Prop := forall s, versions_ok s -> versions_ok (f s) /\ extends s (f s).

Lemma adds_document d : adds (save_document d).
Proof. intros s Hs. split; [done|]. split; try apply keeps_refl. done. Qed.

Lemma adds_chunks l : adds (save_chunks l).
Proof.
  intros s Hs. split; [done|]. split; try apply keeps_refl; [|done]. simpl. generalize (hs_chunks s).
  induction l as [|c l IH]; intros d; simpl; [apply keeps_refl|]. eapply keeps_trans; [apply keeps_setdefault|apply IH].
Qed.

Lemma adds_corpus c ids docs : adds (save_corpus c ids docs).
Proof. intros s Hs. split; [done|]. split; try apply keeps_refl; try apply keeps_setdefault. done. Qed.

Lemma adds_retrieval run hits : adds (save_retrieval run hits).
Proof. intros s Hs. split; [done|]. split; try apply keeps_refl. done. Qed.

Lemma adds_version v : adds (fun s => (save_version v s).1).
Proof.
  intros s Hs. unfold save_version. destruct (get_version_by_content _ _ s) as [e|]; [split; [done|apply extends_refl]|].
  cbn [fst]. split.
  - intros k x. simpl. rewrite dict_lookup_insert. case_decide as E; [intros [= <-]; done|apply Hs].
  - split; try apply keeps_refl. intros k Hk. by apply dict_insert_is_Some.
Qed.

(** ** Computations that only add *)

Section stable.
Context `{Builtins} `{TextEngine} `{RegexEngine} `{HistoricalEnv} `{RetrieverConfig}.

Definition grows {A} (m : HM A) : Prop := forall w, versions_ok (hw_store w) ->
  versions_ok (hw_store (m w).1) /\ extends (hw_store w) (hw_store (m w).1).

Lemma grows_bind {A B} (m : HM A) (k : A -> HM B) : grows m -> (forall a, grows (k a)) -> grows (x ← m; k x).
Proof.
  intros Hm Hk w Hw. destruct (Hm w Hw) as [Hv He]. unfold mbind, M_bind. destruct (m w) as [w1 [a|e]]; [|done].
  destruct (Hk a w1 Hv) as [Hv' He']. split; [done|]. by eapply extends_trans.
Qed.

Lemma grows_still {A} (m : HM A) : (forall w, hw_store (m w).1 = hw_store w) -> grows m.
Proof. intros Hm w Hw. rewrite Hm. split; [done|apply extends_refl]. Qed.

Lemma grows_update f : adds f -> grows (update_store f).
Proof. intros Hf w Hw. by apply Hf. Qed.

Lemma grows_store_version v : grows (store_op (save_version v)).
Proof.
  intros w Hw. destruct (adds_version v (hw_store w) Hw) as [Hv He]. unfold store_op.
  destruct (save_version v (hw_store w)) as [s' a]. done.
Qed.

Ltac still := apply grows_still; intros w; first [done | by destruct w].

Lemma grows_chunk_version v document markdown : grows (chunk_version v document markdown).
Proof.
  apply grows_bind; [still|]. intros chunks. apply grows_bind; [apply grows_update, adds_chunks|]. intros _. still.
Qed.

Lemma grows_ingest_document m root bytes t d : grows (ingest_document m root bytes t d).
Proof.
  apply grows_bind; [still|]. intros markdown. apply grows_bind; [apply grows_update, adds_document|]. intros _.
  apply grows_bind; [|intros vc; still]. apply grows_bind; [still|]. intros [existing|].
  - apply grows_bind; [still|]. intros [|c cs]; [|still]. apply grows_bind; [apply grows_chunk_version|]. intros ?. still.
  - apply grows_bind; [still|]. intros previous. apply grows_bind; [apply grows_store_version|]. intros version.
    apply grows_bind; [apply grows_chunk_version|]. intros ?. still.
Qed.

Lemma grows_ingest m root bytes model at_time : grows (ingest m root bytes model at_time).
Proof.
  apply grows_bind; [still|]. intros r. apply grows_bind; [destruct at_time; still|]. intros t.
  apply grows_bind.
  { induction (mf_documents m) as [|d l IH]; [still|]. apply grows_bind; [apply grows_ingest_document|]. intros x.
    apply grows_bind; [done|]. intros xs. still. }
  intros done. apply grows_bind; [apply grows_update, adds_corpus|]. intros _. apply grows_bind; [still|]. intros stored. still.
Qed.

Lemma grows_run run_id inv b a status fb : grows (retrieval_run run_id inv b a status fb).
Proof.
  apply grows_bind; [still|]. intros filters. apply grows_bind; [still|]. intros duration.
  apply grows_bind; [still|]. intros created. case_match; still.
Qed.

Lemma grows_failure run_id inv b a summary code : grows (failure run_id inv b a summary code).
Proof.
  apply grows_bind; [apply grows_run|]. intros run. apply grows_bind; [apply grows_update, adds_retrieval|]. intros _. still.
Qed.

Lemma grows_deliver run_id inv b a as_of es l fb : grows (deliver run_id inv b a as_of es l fb).
Proof.
  unfold deliver. apply grows_bind; [destruct as_of; still|]. intros now. apply grows_bind; [still|]. intros items.
  apply grows_bind; [apply grows_run|]. intros run. apply grows_bind; [apply grows_update, adds_retrieval|]. intros _. still.
Qed.

Lemma grows_search inv b a owner project labels fallback as_of :
  grows (search inv b a owner project labels fallback as_of).
Proof.
  apply grows_bind; [still|]. intros uuid. apply grows_bind; [still|]. intros []. apply grows_bind; [still|]. intros found.
  apply grows_bind; [still|]. intros corpus. case_match; [apply grows_failure|]. case_match; [still|].
  apply grows_bind; [still|]. intros candidates. apply grows_bind; [still|]. intros es. apply grows_bind; [still|].
  intros [[l fb]|]; [apply grows_deliver|apply grows_failure].
Qed.

(** ** What a search sees of an entry *)

Definition view (e : entry) : HistoricalPrdChunk * string * HistoricalPrdDocument :=
  (e.1.1, hv_document_version_id e.1.2, e.2).

Lemma map_eq_ind {A B} (g : A -> B) (P : list A -> list A -> Prop) :
  P [] [] -> (forall x x' l l', g x = g x' -> map g l = map g l' -> P l l' -> P (x :: l) (x' :: l')) ->
  forall l l', map g l = map g l' -> P l l'.
Proof.
  intros Hnil Hcons l. induction l as [|x l IH]; intros [|x' l'] E; try done. simpl in E. injection E as E1 E2. auto.
Qed.

Lemma result_map_view {A B C} (g : A -> B) (f : A -> result exc C) l l' :
  (forall x x', g x = g x' -> f x = f x') -> map g l = map g l' -> result_map f l = result_map f l'.
Proof.
  intros Hf. apply (map_eq_ind g (fun l l' => result_map f l = result_map f l')); [done|].
  intros x x' k k' Hx _ IH. simpl. by rewrite (Hf x x' Hx), IH.
Qed.

Lemma map_view {A B C} (g : A -> B) (f : A -> C) l l' :
  (forall x x', g x = g x' -> f x = f x') -> map g l = map g l' -> map f l = map f l'.
Proof.
  intros Hf. apply (map_eq_ind g (fun l l' => map f l = map f l')); [done|].
  intros x x' k k' Hx _ IH. simpl. by rewrite (Hf x x' Hx), IH.
Qed.

Lemma filter_view {A B} (g : A -> B) (p : A -> bool) l l' :
  (forall x x', g x = g x' -> p x = p x') -> map g l = map g l' -> map g (List.filter p l) = map g (List.filter p l').
Proof.
  intros Hp. apply (map_eq_ind g (fun l l' => map g (List.filter p l) = map g (List.filter p l'))); [done|].
  intros x x' k k' Hx _ IH. simpl. rewrite (Hp x x' Hx).
  destruct (p x'); simpl; congruence.
Qed.

Lemma imap_view {A B C} (g : A -> B) (f : nat -> A -> C) l l' :
  (forall i x x', g x = g x' -> f i x = f i x') -> map g l = map g l' -> imap f l = imap f l'.
Proof.
  intros Hf E. revert f Hf. revert l l' E. apply (map_eq_ind g (fun l l' => forall f : nat -> A -> C,
    (forall i x x', g x = g x' -> f i x = f i x') -> imap f l = imap f l')); [done|].
  intros x x' k k' Hx _ IH f Hf. rewrite !imap_cons. rewrite (Hf 0 x x' Hx). f_equal. apply IH. intros i. apply Hf.
Qed.

Lemma entry_of_extends s s' docs id e :
  versions_ok s -> versions_ok s' -> extends s s' -> entry_of docs s id = Ok e ->
  exists e', entry_of docs s' id = Ok e' /\ view e' = view e.
Proof.
  intros Hv Hv' Hx. unfold entry_of, result_bind, required. destruct (hs_chunks s !! id) as [chunk|] eqn:Ec; [|done].
  rewrite (ex_chunks _ _ Hx _ _ Ec). destruct (hs_versions s !! _) as [version|] eqn:Ev; [|done].
  destruct (ex_versions _ _ Hx (ch_document_version_id chunk) ltac:(eauto)) as [version' Ev']. rewrite Ev'.
  rewrite (Hv _ _ Ev), (Hv' _ _ Ev'). destruct (docs !! _) as [d|]; [|done]. intros [= <-]. eexists. split; [done|].
  unfold view. simpl. by rewrite (Hv _ _ Ev), (Hv' _ _ Ev').
Qed.

Lemma entry_of_empty s id e : entry_of ∅ s id <> Ok e.
Proof.
  unfold entry_of, result_bind, required. destruct (hs_chunks s !! id); [|done]. destruct (hs_versions s !! _); [|done].
  by rewrite dict_lookup_empty.
Qed.

Lemma entries_extends cid v s s' es :
  versions_ok s -> versions_ok s' -> extends s s' -> entries cid v s = Ok es ->
  exists es', entries cid v s' = Ok es' /\ map view es' = map view es.
Proof.
  intros Hv Hv' Hx. unfold entries. destruct (hs_corpus_chunks s !! (cid, v)) as [ids|] eqn:Ei; [|done].
  rewrite (ex_corpus_chunks _ _ Hx _ _ Ei). cbn [required result_bind].
  assert (Hdocs : hs_corpus_documents s !! (cid, v) = None \/
                  hs_corpus_documents s' !! (cid, v) = hs_corpus_documents s !! (cid, v)).
  { destruct (hs_corpus_documents s !! (cid, v)) eqn:E; [right|by left]. by rewrite (ex_corpus_documents _ _ Hx _ _ E). }
  destruct Hdocs as [Hnone| ->].
  - rewrite Hnone. cbn [default]. destruct ids as [|i ids]; [intros [= <-]; by exists []|]. cbn [result_map].
    destruct (entry_of ∅ s i) as [e|] eqn:Ee; [|done]. by apply entry_of_empty in Ee.
  - clear Ei. revert es. induction ids as [|i ids IH]; intros es; [intros [= <-]; by exists []|]. cbn [result_map].
    destruct (entry_of _ s i) as [e|] eqn:Ee; [|done]. cbn [result_bind].
    destruct (entry_of_extends _ _ _ _ _ Hv Hv' Hx Ee) as (e' & -> & Hview). cbn [result_bind].
    destruct (result_map _ ids) as [es1|]; [|done]. intros [= <-]. destruct (IH es1 eq_refl) as (es2 & -> & Hes).
    eexists. split; [done|]. simpl. by rewrite Hview, Hes.
Qed.

Lemma authorized_entries_extends cid v owner project labels tags after s s' es :
  versions_ok s -> versions_ok s' -> extends s s' ->
  authorized_entries cid v owner project labels tags after s = Ok es ->
  exists es', authorized_entries cid v owner project labels tags after s' = Ok es' /\ map view es' = map view es.
Proof.
  intros Hv Hv' Hx. unfold authorized_entries. destruct (entries cid v s) as [all|] eqn:Eall; [|done]. intros [= <-].
  destruct (entries_extends _ _ _ _ _ Hv Hv' Hx Eall) as (all' & -> & Hall). eexists. split; [done|].
  apply filter_view; [|done]. by intros [[??]?] [[??]?] [= -> _ ->].
Qed.

Lemma keyword_rank_view query es es' : map view es = map view es' -> keyword_rank query es = keyword_rank query es'.
Proof.
  intros Hes. unfold keyword_rank. destruct (tokenize query); [done|]. do 2 f_equal.
  assert (Hscore : forall x x', view x = view x' -> keyword_score query x = keyword_score query x').
  { intros [[c ver] d] [[c' ver'] d'] [= -> _ ->]. done. }
  eapply map_view; [|apply filter_view; [|exact Hes]].
  - intros x x' Hx. rewrite (Hscore x x' Hx). by injection Hx as -> _ ->.
  - intros x x' Hx. by rewrite (Hscore x x' Hx).
Qed.

(** The vector ranker ranks what a search sees. *)
Definition ranks_views : Prop := forall rank query es es',
  vector_ranker = Some rank -> map view es = map view es' -> rank query es = rank query es'.

Lemma rank_entries_view a fallback es es' :
  ranks_views -> map view es = map view es' -> rank_entries a fallback es = rank_entries a fallback es'.
Proof.
  intros Hr Hes. unfold rank_entries. rewrite (keyword_rank_view _ _ _ Hes). case_match; [done|].
  destruct vector_ranker as [rank|] eqn:Ev; [|done]. rewrite (Hr rank _ _ _ Ev Hes).
  assert (Hids : map (fun e : entry => ch_chunk_id e.1.1) es = map (fun e : entry => ch_chunk_id e.1.1) es').
  { eapply map_view; [|exact Hes]. by intros x x' [= -> _ _]. }
  by rewrite Hids.
Qed.

Definition chosen (x : ranked * entry) := (x.1, view x.2).

Lemma select_view limit es es' l :
  map view es = map view es' -> map chosen (select limit es l) = map chosen (select limit es' l).
Proof.
  intros Hes. unfold select. rewrite !(fmap_take chosen). f_equal.
  set (f := fun e : entry => ch_chunk_id e.1.1).
  assert (Hd : forall k, view <$> dict_by f es !! k = view <$> dict_by f es' !! k).
  { intros k. rewrite <- !(dict_by_map f (fun x : HistoricalPrdChunk * string * HistoricalPrdDocument => ch_chunk_id x.1.1) view)
      by done. by rewrite Hes. }
  induction l as [|r l IH]; [done|]. simpl. specialize (Hd (rk_id r)).
  destruct (dict_by f es !! rk_id r) as [e|], (dict_by f es' !! rk_id r) as [e'|]; simplify_eq/=; [|done].
  f_equal; [|exact IH]. unfold chosen, view. simpl. congruence.
Qed.

(** ** Answers *)

(** An answer without the identity of the run and the time it took. *)
Definition answer (res : HistoricalRetrievalResult) :=
  (hr_items res,
   map (fun h => (rh_chunk_id h, rh_rank h, rh_keyword_rank h, rh_vector_rank h, rh_fused_score h, rh_stale_hint h)) (hr_hits res),
   hr_public_summary res, hr_error_code res, rr_status (hr_run res), rr_fallback_mode (hr_run res)).

(** A run is recorded or refused whatever the world is. *)
Lemma retrieval_run_again run_id run_id' inv b a status fb w w1 run w' :
  retrieval_run run_id inv b a status fb w = (w1, Ok run) ->
  exists w2 run', retrieval_run run_id' inv b a status fb w' = (w2, Ok run') /\
    rr_status run' = rr_status run /\ rr_fallback_mode run' = rr_fallback_mode run.
Proof.
  unfold retrieval_run, mbind, M_bind, liftR, gets, next_now. destruct (filters_json b a) as [f|]; [|done].
  case_match; [done|]. intros [= _ <-]. do 2 eexists. split; [done|]. done.
Qed.

Lemma failure_again run_id run_id' inv b a summary code w w1 res w' :
  failure run_id inv b a summary code w = (w1, Ok res) ->
  exists w2 res', failure run_id' inv b a summary code w' = (w2, Ok res') /\ answer res' = answer res.
Proof.
  unfold failure. intros E. apply hbind_ok in E as (w2 & run & Er & E). apply hbind_ok in E as (w3 & [] & _ & E).
  injection E as _ <-. destruct (retrieval_run_again _ run_id' _ _ _ _ _ _ _ _ w' Er) as (w4 & run' & E' & Hs & Hf).
  unfold mbind, M_bind. rewrite E'. do 2 eexists. split; [done|]. unfold answer. simpl. by rewrite Hs, Hf.
Qed.

Lemma deliver_again run_id run_id' inv b a t es es' l fb w w1 res w' :
  map view es = map view es' -> deliver run_id inv b a (Some t) es l fb w = (w1, Ok res) ->
  exists w2 res', deliver run_id' inv b a (Some t) es' l fb w' = (w2, Ok res') /\ answer res' = answer res.
Proof.
  intros Hes. pose proof (select_view (sa_limit a) es es' l Hes) as Hsel.
  set (sel := select (sa_limit a) es l) in *. set (sel' := select (sa_limit a) es' l) in *.
  assert (Hitems : result_map (fun x => item_of t x.2) sel = result_map (fun x => item_of t x.2) sel').
  { apply (result_map_view chosen); [|done]. intros [r [[c v] d]] [r' [[c' v'] d']] [= -> -> E ->]. simpl. by rewrite E. }
  set (key := fun h => (rh_chunk_id h, rh_rank h, rh_keyword_rank h, rh_vector_rank h, rh_fused_score h, rh_stale_hint h)).
  assert (Hhits : map key (imap (fun i x => hit_of run_id t (S i) x) sel) = map key (imap (fun i x => hit_of run_id' t (S i) x) sel')).
  { rewrite !(fmap_imap _ key). transitivity (imap (fun i => key ∘ hit_of run_id' t (S i)) sel).
    { apply imap_ext. intros i [[[[id s] k] v] e] _. done. }
    apply (imap_view chosen); [|done].
    intros i [[[[id s] k] v] e] [r' e'] [= <- E]. simpl. unfold hit_of, key. simpl. by destruct e as [[??]?], e' as [[??]?]; simplify_eq/=. }
  unfold deliver. fold sel sel'. intros E. apply hbind_ok in E as (w2 & now & En & E). injection En as <- <-.
  apply hbind_ok in E as (w3 & items & Ei & E). injection Ei as <- Ei.
  apply hbind_ok in E as (w4 & run & Er & E). apply hbind_ok in E as (w5 & [] & _ & E). injection E as _ <-.
  assert (Hstatus : (match imap (fun i x => hit_of run_id t (S i) x) sel with [] => RetrievalStatus.EMPTY | _ => RetrievalStatus.SUCCEEDED end)
    = match imap (fun i x => hit_of run_id' t (S i) x) sel' with [] => RetrievalStatus.EMPTY | _ => RetrievalStatus.SUCCEEDED end).
  { apply (f_equal length) in Hhits. rewrite !length_map in Hhits. by destruct (imap _ sel), (imap _ sel'). }
  rewrite Hstatus in Er. destruct (retrieval_run_again _ run_id' _ _ _ _ _ _ _ _ w' Er) as (w6 & run' & E' & Hs & Hf).
  unfold mbind, M_bind, mret, M_ret, liftR. rewrite <- Hitems, Ei, E'. do 2 eexists. split; [done|].
  unfold answer. simpl. fold key. by rewrite Hs, Hf, Hhits.
Qed.

(** ** Operations *)

Inductive operation : Type :=
  | Ingest (m : HistoricalCorpusManifest) (root : string) (max_bytes : nat) (model : option string) (imported_at : option Z)
  | Search (inv : string) (b : SourceBinding) (a : HistoricalPrdSearchArguments) (owner project : string)
      (labels : list string) (fallback : bool) (as_of : option Z).

Definition run_operation (w : hworld) (op : operation) : hworld :=
  match op with
  | Ingest m root bytes model at_time => (ingest m root bytes model at_time w).1
  | Search inv b a owner project labels fallback as_of => (search inv b a owner project labels fallback as_of w).1
  end.

Definition run_operations (w : hworld) (ops : list operation) : hworld := fold_left run_operation ops w.

Definition new_store : hworld := mkHWorld empty_hstore 0 0 0.

Lemma run_operations_grow w ops :
  versions_ok (hw_store w) ->
  versions_ok (hw_store (run_operations w ops)) /\ extends (hw_store w) (hw_store (run_operations w ops)).
Proof.
  revert w. induction ops as [|op ops IH]; intros w Hw; [split; [done|apply extends_refl]|].
  assert (Hop : versions_ok (hw_store (run_operation w op)) /\ extends (hw_store w) (hw_store (run_operation w op))).
  { destruct op; [by apply grows_ingest|by apply grows_search]. }
  destruct Hop as [Hv He]. destruct (IH _ Hv) as [Hv' He']. split; [done|]. by eapply extends_trans.
Qed.

(** A search can be reproduced.  Whatever was ingested and searched before,
    when a search as of a given time returns, the same search after any further
    ingestions and searches returns the same items, ranks, scores and hints. *)
Theorem retrieval_reproducible (earlier later : list operation) (inv : string) (b : SourceBinding)
    (a : HistoricalPrdSearchArguments) (owner project : string) (labels : list string) (fallback : bool) (t : Z)
    (w' : hworld) (res : HistoricalRetrievalResult) :
  ranks_views -> search inv b a owner project labels fallback (Some t) (run_operations new_store earlier) = (w', Ok res) ->
  exists w2 res2, search inv b a owner project labels fallback (Some t) (run_operations w' later) = (w2, Ok res2) /\
    answer res2 = answer res.
Proof.
  intros Hr. set (w := run_operations new_store earlier). intros E.
  destruct (run_operations_grow new_store earlier) as [Hv _]; [done|]. fold w in Hv.
  pose proof (grows_search inv b a owner project labels fallback (Some t) w Hv) as Hg. rewrite E in Hg. cbn [fst] in Hg.
  destruct Hg as [Hv1 He1]. destruct (run_operations_grow w' later Hv1) as [Hv2 He2].
  set (w2 := run_operations w' later) in *. pose proof (extends_trans _ _ _ He1 He2) as Hx. clearbody w2.
  unfold search in E. apply hbind_ok in E as (w3 & uuid & Eu & E). injection Eu as <- <-.
  apply hbind_ok in E as (w4 & [] & Ev & E). injection Ev as <- Ev.
  apply hbind_ok in E as (w5 & found & Ef & E). injection Ef as <- <-.
  apply hbind_ok in E as (w6 & corpus & Ec & E). injection Ec as <- Ec. cbn [hw_store] in *.
  unfold get_corpus in Ec. destruct (hs_corpora (hw_store w) !! _) as [c|] eqn:Ecor; [|done]. injection Ec as ->.
  unfold search, mbind, M_bind, next_uuid, on_store, gets, liftR. cbn [hw_store]. rewrite Ev. unfold get_corpus.
  rewrite (ex_corpora _ _ Hx _ _ Ecor).
  case_match; [by eapply failure_again|]. case_match; [done|].
  apply hbind_ok in E as (w7 & candidates & Ea & E). injection Ea as <- <-.
  apply hbind_ok in E as (w8 & es & Ee & E). injection Ee as <- Ee. cbn [hw_store] in *.
  apply hbind_ok in E as (w9 & order & Eo & E). injection Eo as <- Eo.
  destruct (authorized_entries_extends _ _ _ _ _ _ _ _ _ _ Hv Hv2 Hx Ee) as (es' & -> & Hes).
  rewrite (rank_entries_view a fallback _ _ Hr Hes), Eo. destruct order as [[l fb]|].
  - by eapply deliver_again; [symmetry; exact Hes|exact E].
  - by eapply failure_again.
Qed.
End stable.
