(* ===== verification/RetrievalDemo.v ===== *)
(** * Ingestion and retrieval on concrete documents

    Two documents of one project, one of which requires a label, ingested from
    a manifest and searched by actors with and without that label. *)
From stdpp Require Import base list sets strings pretty.
From Stdlib Require Import ZArith Lia.
From S2P Require Import Prelude.
From S2P Require Import PyDict.
From S2P Require Import PyText.
From S2P Require Import Json.
From S2P Require Import Grounding.
From S2P Require Import RepositoryPolicy.
From S2P Require Import CodePoints.
From S2P Require Import Chunking.
From S2P Require Import ChunkingFacts.
From S2P Require Import Historical.
From S2P Require Import Retrieval.
From S2P Require Import RetrievalFacts.
#[local] Open Scope nat_scope.
Open Scope string_scope.

#[local] Existing Instance example_builtins.
#[local] Instance demo_engine : TextEngine := {| nfc s := s; remove_dangerous_blocks s := s |}.
#[local] Instance demo_regex : RegexEngine := {| re_subn _ s := (s, 0); re_search _ _ := false |}.

Definition text_lines (l : list string) : string := str_join (str_of_codes [10]) l.

Definition demo_files (path : string) : result exc string :=
  if String.eqb path "/open.md" then Ok (text_lines ["# Billing"; "we send invoices"; ""; "monthly"])
  else if String.eqb path "/secret.md" then Ok (text_lines ["# Margins"; "the margin table of invoices"])
  else Raise (External "FileNotFoundError").

#[local] Instance demo_env : HistoricalEnv := {|
  h_resolve _ root path := Ok (root +:+ path);
  h_relative_to _ _ := true;
  h_read_bytes _ path := demo_files path;
  h_uuid4_hex n := pretty n;
  h_now n := Z.of_nat n;
  h_duration_ms _ := 5%Z;
  h_isoformat t := pretty t
|}.

(** The vector ranker returns the candidates in their order. *)
#[local] Instance demo_config : RetrieverConfig :=
  {| stale_after_days := 365%Z; vector_ranker := Some (fun _ es => Ok (map (fun e : entry => ch_chunk_id e.1.1) es)) |}.

Lemma demo_ranks_views : ranks_views.
Proof. intros rank q es es' [= <-] E. f_equal. eapply map_view; [|exact E]. by intros x x' [= -> _ _]. Qed.

Definition demo_manifest : HistoricalCorpusManifest :=
  mkManifest "corpus" "alice" "prj"
    [mkManifestDocument "open" None "open.md" "https://x/open" "r1" [] ["billing"] None (Some 10%Z);
     mkManifestDocument "secret" None "secret.md" "https://x/secret" "r1" ["finance"] [] None None].

Definition demo_ingest : operation := Ingest demo_manifest "/" 1000 None (Some 7%Z).

Definition demo_version : string := corpus_version_of demo_manifest None
  (values (hs_versions (hw_store (run_operations new_store [demo_ingest])))).

Definition demo_binding (labels : list string) : SourceBinding :=
  mkBinding "b" SourceKind.HISTORICAL_PRD_CORPUS "corpus" demo_version "alice" (access_scope_hash "alice" "prj" labels)
    [("project_id", "prj")].

Definition demo_arguments (mode : RetrievalMode) (after : option Z) : HistoricalPrdSearchArguments :=
  mkSearchArguments "invoices margin" [] after mode 5.

#[local] Abbreviation demo_search labels mode after :=
  (search "inv" (demo_binding labels) (demo_arguments mode after) "alice" "prj" labels false (Some 100%Z)).

Definition titles (r : result exc HistoricalRetrievalResult) : list string :=
  match r with Ok res => map ri_title (hr_items res) | Raise _ => [] end.

#[local] Abbreviation ingested := (run_operations new_store [demo_ingest]).

(** The label decides what is found, in both modes. *)
Example label_decides :
  titles (demo_search ["finance"] RetrievalMode.KEYWORD None ingested).2 = ["Margins"; "Billing"] /\
  titles (demo_search [] RetrievalMode.KEYWORD None ingested).2 = ["Billing"] /\
  titles (demo_search [] RetrievalMode.HYBRID None ingested).2 = ["Billing"].
Proof. vm_compute. done. Qed.

(** A binding made for another scope is refused. *)
Example foreign_scope_refused :
  (search "inv" (demo_binding ["finance"]) (demo_arguments RetrievalMode.KEYWORD None) "alice" "prj" [] false None ingested).2
  = Raise PermissionError.
Proof. vm_compute. done. Qed.

Definition found_by (labels : list string) : HistoricalRetrievalResult :=
  match (demo_search labels RetrievalMode.HYBRID None ingested).2 with
  | Ok res => res
  | Raise _ => mkRetrieval (mkRetrievalRun "" "" "" "" "" RetrievalMode.KEYWORD "" 0 0%Z RetrievalStatus.FAILED None 0%Z) [] [] "" None
  end.

Definition searched (labels : list string) : hworld := (demo_search labels RetrievalMode.HYBRID None ingested).1.

Lemma demo_search_ok labels :
  is_ok (demo_search labels RetrievalMode.HYBRID None ingested).2 = true ->
  demo_search labels RetrievalMode.HYBRID None ingested = (searched labels, Ok (found_by labels)).
Proof. unfold searched, found_by. by destruct (demo_search _ _ _ _) as [w [res|e]]. Qed.

Lemma retrieval_permission_first_witness :
  length (hr_items (found_by [])) = 1 /\ well_shaped (sa_limit (demo_arguments RetrievalMode.HYBRID None)) (found_by []) /\
  forall it, it ∈ hr_items (found_by []) -> exists es e now,
    entries (sb_source_id (demo_binding [])) (sb_source_version (demo_binding [])) (hw_store ingested) = Ok es /\ e ∈ es /\
    may_read "alice" "prj" [] (demo_arguments RetrievalMode.HYBRID None) e.2 /\ item_of now e = Ok it.
Proof.
  split; [vm_compute; reflexivity|].
  assert (Hok : is_ok (demo_search [] RetrievalMode.HYBRID None ingested).2 = true) by (vm_compute; reflexivity).
  exact (proj2 (proj2 (retrieval_permission_first "inv" (demo_binding []) (demo_arguments RetrievalMode.HYBRID None)
    "alice" "prj" [] false (Some 100%Z) ingested (searched []) (found_by []) (demo_search_ok [] Hok)))).
Defined.

Lemma retrieval_reproducible_witness :
  exists w2 res2, demo_search [] RetrievalMode.HYBRID None
      (run_operations (searched []) [demo_ingest; Search "inv" (demo_binding []) (demo_arguments RetrievalMode.KEYWORD None) "alice" "prj" [] false None])
    = (w2, Ok res2) /\ answer res2 = answer (found_by []).
Proof.
  assert (Hok : is_ok (demo_search [] RetrievalMode.HYBRID None ingested).2 = true) by (vm_compute; reflexivity).
  exact (retrieval_reproducible [demo_ingest]
    [demo_ingest; Search "inv" (demo_binding []) (demo_arguments RetrievalMode.KEYWORD None) "alice" "prj" [] false None]
    "inv" (demo_binding []) (demo_arguments RetrievalMode.HYBRID None) "alice" "prj" [] false 100%Z (searched []) (found_by [])
    demo_ranks_views (demo_search_ok [] Hok)).
Defined.

(** The store with the unreadable document's chunk rewritten. *)
Definition tampered : hworld :=
  let s := hw_store ingested in
  mkHWorld (mkHStore (hs_corpora s) (hs_corpus_chunks s) (hs_corpus_documents s) (hs_documents s) (hs_versions s)
    (hs_version_by_content s)
    (match values (hs_chunks s) with
     | [c1; c2] => <[ch_chunk_id c2 := mkChunk (ch_chunk_id c2) (ch_document_version_id c2) [] 0 "other text" "h" "invoices" 1]> (hs_chunks s)
     | _ => hs_chunks s
     end) (hs_retrieval_runs s) (hs_retrieval_hits s)) 9 (hw_ids ingested) (hw_times ingested).

Lemma unreadable_documents_invisible_witness :
  titles (demo_search ["finance"] RetrievalMode.KEYWORD None tampered).2 <> titles (demo_search ["finance"] RetrievalMode.KEYWORD None ingested).2 /\
  (demo_search [] RetrievalMode.KEYWORD None tampered).2 = (demo_search [] RetrievalMode.KEYWORD None ingested).2.
Proof.
  split; [vm_compute; discriminate|].
  exact (unreadable_documents_invisible "inv" (demo_binding []) (demo_arguments RetrievalMode.KEYWORD None) "alice" "prj" []
    false (Some 100%Z) tampered ingested eq_refl eq_refl ltac:(vm_compute; reflexivity) ltac:(vm_compute; reflexivity)
    ltac:(vm_compute; eexists; reflexivity)).
Defined.

Lemma date_filter_raises_witness :
  exists e, (demo_search [] RetrievalMode.KEYWORD (Some 3%Z) ingested).2 = Raise e.
Proof.
  exact (date_filter_raises "inv" (demo_binding []) (demo_arguments RetrievalMode.KEYWORD (Some 3%Z)) "alice" "prj" [] false
    (Some 100%Z) ingested ltac:(discriminate)).
Defined.

Example date_filter_type_error : (demo_search [] RetrievalMode.KEYWORD (Some 3%Z) ingested).2 = Raise TypeError.
Proof. vm_compute. reflexivity. Qed.

Definition demo_markdown : string := text_lines ["# Billing"; "we send invoices"; ""; "monthly"].

Lemma chunks_keep_text_witness :
  match chunk_markdown demo_markdown "v" "t" [] 10 12 with
  | Ok chunks =>
      length chunks = 3 /\
      ink (concat (map (fun c => decode (ch_content c)) chunks)) = ink (concat (body_lines (tsplitlines (decode demo_markdown))))
  | Raise _ => False
  end.
Proof.
  pose proof (chunks_keep_text demo_markdown "v" "t" [] 10 12 ltac:(lia) ltac:(lia)) as Hc. cbv zeta in Hc.
  assert (Hok : is_ok (chunk_markdown demo_markdown "v" "t" [] 10 12) = true) by (vm_compute; reflexivity).
  assert (Hlen : match chunk_markdown demo_markdown "v" "t" [] 10 12 with Ok cs => length cs = 3 | Raise _ => True end)
    by (vm_compute; reflexivity).
  destruct (chunk_markdown demo_markdown "v" "t" [] 10 12) as [chunks|e]; [|discriminate Hok].
  exact (conj Hlen (proj1 Hc)).
Defined.
