(* ===== verification/ContextPack.v ===== *)
(** * Context packs of the worker

    [agent/context_pack/policy.py], [estimator.py], [models.py], [artifact.py]
    and [module.py] of agent-python: the payload of a model call is reduced to
    the window of the model, recorded through the ledger as a derived artifact,
    and sent with a reference to it.  The estimator, the semantic compactor,
    [str.upper] and the comparison of floats are parameters.  A mapping is the
    list of its items in insertion order. *)
From stdpp Require Import base list sets strings pretty.
From Stdlib Require Import ZArith.
From S2P Require Import Prelude.
From S2P Require Import PyDict.
From S2P Require Import PyText.
From S2P Require Import Json.
From S2P Require Import RepositoryPolicy.
From S2P Require Import CodePoints.
From S2P Require Import Ledger.

(** ** [policy.py] *)

Record ContextPolicy := mkPolicy {
  cp_version : string;
  cp_mode : string;
  cp_context_window_tokens : Z;
  cp_compact_threshold_tokens : Z;
  cp_target_input_tokens : Z;
  cp_reserved_output_tokens : Z;
  cp_emergency_margin_tokens : Z;
  cp_semantic_compaction_enabled : bool;
  cp_semantic_max_output_tokens : Z;
  cp_max_observations : Z;
  cp_max_prior_actions : Z;
  cp_max_optional_string_chars : Z
}.

Definition hard_input_tokens (p : ContextPolicy) : Z :=
  cp_context_window_tokens p - cp_reserved_output_tokens p - cp_emergency_margin_tokens p.

(** [__post_init__]. *)
Definition check_policy (p : ContextPolicy) : result exc ContextPolicy :=
  if negb (bool_decide (cp_mode p ∈ ["off"; "shadow"; "enforce"])) then Raise ValueError
  else if negb (truthy (cp_version p)) || (80 <? str_len (cp_version p))%nat then Raise ValueError
  else if existsb (fun v => v <? 0)%Z
       [cp_context_window_tokens p; cp_compact_threshold_tokens p; cp_target_input_tokens p; cp_reserved_output_tokens p;
        cp_emergency_margin_tokens p; cp_semantic_max_output_tokens p] then Raise ValueError
  else if (cp_context_window_tokens p <=? 0)%Z then Raise ValueError
  else if (cp_compact_threshold_tokens p <? cp_target_input_tokens p)%Z then Raise ValueError
  else if (hard_input_tokens p <=? 0)%Z then Raise ValueError
  else if (hard_input_tokens p <? cp_compact_threshold_tokens p)%Z then Raise ValueError
  else if (hard_input_tokens p <? cp_target_input_tokens p)%Z then Raise ValueError
  else if existsb (fun v => v <=? 0)%Z [cp_max_observations p; cp_max_prior_actions p; cp_max_optional_string_chars p]
  then Raise ValueError
  else Ok p.

(** [os.getenv]. *)
Definition environment : Type := string -> option string.

Section policy_environment.
Context `{Builtins}.

Definition env_int (env : environment) (name : string) (dflt : Z) : result exc Z :=
  match env name with
  | None => Ok dflt
  | Some raw => match int_of_str raw with Some z => Ok z | None => Raise RuntimeError end
  end.

Definition env_bool (env : environment) (name : string) (dflt : bool) : result exc bool :=
  match env name with
  | None => Ok dflt
  | Some raw =>
      let value := lower (strip raw) in
      if bool_decide (value ∈ ["1"; "true"; "yes"; "on"]) then Ok true
      else if bool_decide (value ∈ ["0"; "false"; "no"; "off"]) then Ok false
      else Raise RuntimeError
  end.

(** [from_environment]. *)
Definition policy_from_environment (env : environment) : result exc ContextPolicy :=
  let mode := lower (strip (default "off" (env "PRD_AGENT_CONTEXT_POLICY_MODE"))) in
  let version := strip (default (if String.eqb mode "off" then "context-policy.off" else "context-policy.v1")
                          (env "PRD_AGENT_CONTEXT_POLICY_VERSION")) in
  result_bind (fun window => result_bind (fun threshold => result_bind (fun target => result_bind (fun reserved =>
  result_bind (fun margin => result_bind (fun semantic => result_bind (fun semantic_max => result_bind (fun observations =>
  result_bind (fun prior => result_bind (fun chars =>
    check_policy (mkPolicy version mode window threshold target reserved margin semantic semantic_max observations prior chars))
  (env_int env "PRD_AGENT_CONTEXT_MAX_OPTIONAL_STRING_CHARS" 2000))
  (env_int env "PRD_AGENT_CONTEXT_MAX_PRIOR_ACTIONS" 12))
  (env_int env "PRD_AGENT_CONTEXT_MAX_OBSERVATIONS" 12))
  (env_int env "PRD_AGENT_CONTEXT_COMPACTOR_MAX_OUTPUT_TOKENS" 2048))
  (env_bool env "PRD_AGENT_CONTEXT_SEMANTIC_COMPACTION" false))
  (env_int env "PRD_AGENT_CONTEXT_EMERGENCY_MARGIN_TOKENS" 2048))
  (env_int env "PRD_AGENT_CONTEXT_RESERVED_OUTPUT_TOKENS" 4096))
  (env_int env "PRD_AGENT_CONTEXT_TARGET_INPUT_TOKENS" 24000))
  (env_int env "PRD_AGENT_CONTEXT_COMPACT_THRESHOLD_TOKENS" 40000))
  (env_int env "PRD_AGENT_CONTEXT_WINDOW_TOKENS" 64000).
End policy_environment.

(** ** [estimator.py] *)

Class TokenEstimator := estimate_request : string -> string -> Z.

(** [ConservativeTokenEstimator] with its defaults: [int(len(value) / 2.5)] is
    [2 * len / 5], exactly for every length a string can have. *)
Definition conservative_estimate (bytes : string) : Z := Z.max 1 (2 * Z.of_nat (String.length bytes) / 5 + 16).

Definition conservative_estimator : TokenEstimator := fun system_prompt payload =>
  conservative_estimate (system_prompt +:+ str_of_codes [0%nat] +:+ payload).

(** ** [models.py] *)

Definition mapping : Type := list (string * json).

Record ContextSource := mkSource {
  cs_source_ref : string;
  cs_source_kind : string;
  cs_content_hash : string;
  cs_trust_class : string;
  cs_required : bool;
  cs_priority : Z;
  cs_value : json
}.

Definition source_json (s : ContextSource) : json :=
  JObj [("source_ref", JStr (cs_source_ref s)); ("source_kind", JStr (cs_source_kind s));
        ("content_hash", JStr (cs_content_hash s)); ("trust_class", JStr (cs_trust_class s));
        ("required", JBool (cs_required s)); ("priority", JInt (cs_priority s))].

Record SourceManifest := mkSourceManifest {
  sm_schema_version : string;
  sm_run_id : string;
  sm_task_id : string;
  sm_operation : string;
  sm_sources : list ContextSource;
  sm_manifest_hash : string
}.

Definition manifest_body (m : SourceManifest) : mapping :=
  [("schema_version", JStr (sm_schema_version m)); ("run_id", JStr (sm_run_id m)); ("task_id", JStr (sm_task_id m));
   ("operation", JStr (sm_operation m)); ("sources", JArr (map source_json (sm_sources m)))].

Definition manifest_json (m : SourceManifest) : json :=
  JObj (manifest_body m ++ [("manifest_hash", JStr (sm_manifest_hash m))]).

Record TokenAccounting := mkAccounting {
  ta_before : Z;
  ta_after : Z;
  ta_target : Z;
  ta_hard : Z;
  ta_reserved_output : Z;
  ta_emergency_margin : Z
}.

Definition accounting_json (a : TokenAccounting) : json :=
  JObj [("estimated_tokens_before", JInt (ta_before a)); ("estimated_tokens_after", JInt (ta_after a));
        ("target_input_tokens", JInt (ta_target a)); ("hard_input_tokens", JInt (ta_hard a));
        ("reserved_output_tokens", JInt (ta_reserved_output a)); ("emergency_margin_tokens", JInt (ta_emergency_margin a))].

(** What was left out, and why. *)
Record Omission := mkOmission { om_source_ref : string; om_reason : string }.

Definition omission_json (o : Omission) : json :=
  JObj [("source_ref", JStr (om_source_ref o)); ("reason", JStr (om_reason o))].

Record ContextPack := mkPack {
  pk_schema_version : string;
  pk_pack_id : string;
  pk_run_id : string;
  pk_task_id : string;
  pk_operation : string;
  pk_operation_sequence : Z;
  pk_prompt_version : string;
  pk_output_schema : string;
  pk_policy_version : string;
  pk_source_manifest : SourceManifest;
  pk_operation_view : mapping;
  pk_omitted_sources : list Omission;
  pk_token_accounting : TokenAccounting;
  pk_compaction_kind : string
}.

Definition pack_members (p : ContextPack) : mapping :=
  [("schema_version", JStr (pk_schema_version p)); ("pack_id", JStr (pk_pack_id p)); ("run_id", JStr (pk_run_id p));
   ("task_id", JStr (pk_task_id p)); ("operation", JStr (pk_operation p));
   ("operation_sequence", JInt (pk_operation_sequence p)); ("prompt_version", JStr (pk_prompt_version p));
   ("output_schema", JStr (pk_output_schema p)); ("policy_version", JStr (pk_policy_version p));
   ("source_manifest", manifest_json (pk_source_manifest p)); ("operation_view", JObj (pk_operation_view p));
   ("omitted_sources", JArr (map omission_json (pk_omitted_sources p)));
   ("token_accounting", accounting_json (pk_token_accounting p)); ("compaction_kind", JStr (pk_compaction_kind p))].

Record PreparedModelContext := mkPrepared {
  pm_payload : mapping;
  pm_canonical_payload : string;
  pm_request_hash : string;
  pm_estimated_input_tokens : Z;
  pm_context_pack : option ContextPack;
  pm_artifact_key : string;
  pm_artifact_hash : string;
  pm_shadow_payload : option mapping
}.

Definition compacted (p : PreparedModelContext) : bool :=
  match pm_context_pack p with Some k => negb (String.eqb (pk_compaction_kind k) "NONE") | None => false end.

(** ** [artifact.py] *)

(** [set(value) == required]. *)
Definition exact_keys (required : list string) (m : mapping) : bool :=
  forallb (fun k => bool_decide (k ∈ m.*1)) required && forallb (fun k => bool_decide (k ∈ required)) m.*1.

Definition pack_keys : list string :=
  ["schema_version"; "pack_id"; "run_id"; "task_id"; "operation"; "operation_sequence"; "prompt_version"; "output_schema";
   "policy_version"; "source_manifest"; "operation_view"; "omitted_sources"; "token_accounting"; "compaction_kind"].

Definition manifest_keys : list string := ["schema_version"; "run_id"; "task_id"; "operation"; "sources"; "manifest_hash"].

Definition source_keys : list string := ["source_ref"; "source_kind"; "content_hash"; "trust_class"; "required"; "priority"].

Definition accounting_keys : list string :=
  ["estimated_tokens_before"; "estimated_tokens_after"; "target_input_tokens"; "hard_input_tokens";
   "reserved_output_tokens"; "emergency_margin_tokens"].

Definition jget_str (k : string) (m : mapping) : option string :=
  match jget k m with Some (JStr s) => Some s | _ => None end.

Section artifact.
Context `{Builtins}.

(** [request_hash] of idempotency.py is the tagged digest of canonical JSON. *)
Definition request_hash (j : json) : string := sha256_json j.

Definition source_valid (item : json) : bool :=
  match item with
  | JObj m => exact_keys source_keys m && String.prefix "sha256:" (str_get "content_hash" EmptyString m)
  | _ => false
  end.

(** [isinstance(item, int) and item >= 0]: a [bool] is an [int]. *)
Definition nonnegative_int (item : json) : bool :=
  match item with JInt z => (0 <=? z)%Z | JBool _ => true | _ => false end.

Definition omission_valid (item : json) : bool :=
  match item with
  | JObj m => exact_keys ["source_ref"; "reason"] m && match jget "source_ref" m with Some j => jtruthy j | None => false end
              && match jget "reason" m with Some j => jtruthy j | None => false end
  | _ => false
  end.

Definition context_id (seed : json) : string := "context-" +:+ str_take 24 (sha256_hex (canonical_json seed)).

(** The seed of a pack's identity, from the members of its value. *)
Definition identity_seed (m : mapping) (manifest_hash view : json) : json :=
  let get := fun k => default JNull (jget k m) in
  JObj [("run_id", get "run_id"); ("task_id", get "task_id"); ("operation", get "operation");
        ("operation_sequence", get "operation_sequence"); ("prompt_version", get "prompt_version");
        ("output_schema", get "output_schema"); ("policy_version", get "policy_version");
        ("manifest_hash", manifest_hash); ("view_hash", JStr (request_hash view))].

Definition manifest_valid (manifest : mapping) : bool :=
  exact_keys manifest_keys manifest
  && match jget "sources" manifest with Some (JArr sources) => forallb source_valid sources | _ => false end
  && bool_decide (jget_str "manifest_hash" manifest
                  = Some (request_hash (JObj (List.filter (fun kv => negb (String.eqb kv.1 "manifest_hash")) manifest)))).

Definition accounting_valid (accounting : json) : bool :=
  match accounting with
  | JObj m => exact_keys accounting_keys m && forallb (fun kv => nonnegative_int kv.2) m
  | _ => false
  end.

(** [validate_context_pack_value]: every failure is a [ValueError]. *)
Definition validate_context_pack_value (value : json) : result lexc json :=
  match value with
  | JObj m =>
      if negb (exact_keys pack_keys m) || negb (bool_decide (jget_str "schema_version" m = Some "context-pack.v1"))
      then Raise LedgerValueError
      else match jget "operation_view" m, jget "source_manifest" m with
      | Some (JObj view), Some (JObj manifest) =>
          if negb (manifest_valid manifest) then Raise LedgerValueError
          else if negb (match jget "token_accounting" m with Some a => accounting_valid a | None => false end)
          then Raise LedgerValueError
          else if negb (match jget "omitted_sources" m with Some (JArr l) => forallb omission_valid l | _ => false end)
          then Raise LedgerValueError
          else if negb (bool_decide (jget_str "pack_id" m
                 = Some (context_id (identity_seed m (default JNull (jget "manifest_hash" manifest)) (JObj view)))))
          then Raise LedgerValueError
          else Ok value
      | _, _ => Raise LedgerValueError
      end
  | _ => Raise LedgerValueError
  end.

Definition decode_context_pack_artifact `{JsonLoads} (a : RunArtifact) : result lexc json :=
  if negb (String.eqb (ra_artifact_type a) "CONTEXT_PACK") then Raise LedgerValueError
  else if negb (String.eqb (ra_content_hash a) (sha256_hex (ra_content a))) then Raise LedgerValueError
  else decode_outcome (ra_content a) "context-pack.v1" validate_context_pack_value.
End artifact.

(** ** Comparisons of values *)

(** [==] between floats, and between a float and an integer. *)
Class FloatEq := { float_eqb : pyfloat -> pyfloat -> bool; float_eqb_int : pyfloat -> Z -> bool }.

(** A [bool] compares as the integer 0 or 1. *)
Definition as_integer (j : json) : option Z :=
  match j with JInt z => Some z | JBool b => Some (if b then 1 else 0)%Z | _ => None end.

Section comparisons.
Context `{FloatEq}.

Definition scalar_eq (a b : json) : bool :=
  match as_integer a, as_integer b with
  | Some x, Some y => (x =? y)%Z
  | _, _ =>
      match a, b with
      | JNull, JNull => true
      | JStr s, JStr t => String.eqb s t
      | JFloat f, JFloat g => float_eqb f g
      | JFloat f, _ => match as_integer b with Some y => float_eqb_int f y | None => false end
      | _, JFloat g => match as_integer a with Some x => float_eqb_int g x | None => false end
      | _, _ => false
      end
  end.

(** [a == b]: mappings without regard to order, numbers by value. *)
Fixpoint py_eq (a b : json) : bool :=
  match a, b with
  | JArr l, JArr m =>
      (fix elements (l m : list json) : bool :=
         match l, m with
         | [], [] => true
         | x :: l', y :: m' => py_eq x y && elements l' m'
         | _, _ => false
         end) l m
  | JObj l, JObj m =>
      Nat.eqb (length l) (length m)
      && (fix members (l : list (string * json)) : bool :=
            match l with
            | [] => true
            | (k, x) :: l' => match jget k m with Some y => py_eq x y | None => false end && members l'
            end) l
  | JArr _, _ | JObj _, _ | _, JArr _ | _, JObj _ => false
  | _, _ => scalar_eq a b
  end.

(** [_is_extractive_subset]. *)
Fixpoint is_extractive_subset (candidate original : json) : bool :=
  match candidate with
  | JObj l =>
      match original with
      | JObj m =>
          (fix members (l : list (string * json)) : bool :=
             match l with
             | [] => true
             | (k, x) :: l' => match jget k m with Some y => is_extractive_subset x y | None => false end && members l'
             end) l
      | _ => false
      end
  | JArr l =>
      match original with
      | JArr m => forallb (fun item => existsb (fun source => py_eq item source) m) l
      | _ => false
      end
  | _ => py_eq candidate original
  end.
End comparisons.

(** [_collect_ids]. *)
Definition id_key (key : string) : bool :=
  ends_with "_id" key || ends_with "_ids" key || ends_with "_refs" key || bool_decide (key ∈ ["unit_key"; "node_key"]).

Fixpoint collect_ids (value : json) (key : string) : list string :=
  match value with
  | JObj l =>
      (fix members (l : list (string * json)) : list string :=
         match l with [] => [] | (k, x) :: l' => collect_ids x k ++ members l' end) l
  | JArr l =>
      (fix elements (l : list json) : list string :=
         match l with [] => [] | x :: l' => collect_ids x key ++ elements l' end) l
  | JStr s => if id_key key then [s] else []
  | _ => []
  end.

(** ** Reductions *)

(** [value[:head] + marker + value[-tail:]] for long strings, everywhere. *)
Definition omitted_marker : string :=
  str_of_codes [10%nat] +:+ "[...OMITTED_BY_CONTEXT_POLICY...]" +:+ str_of_codes [10%nat].

Definition bound_string (limit : Z) (s : string) : string :=
  let t := decode s in
  if (limit <? Z.of_nat (length t))%Z then
    let head := Z.max (limit * 2 / 3) 1 in
    let tail := Z.max (limit - head) 0 in
    encode (take (Z.to_nat head) t) +:+ omitted_marker +:+ encode (drop (length t - Z.to_nat tail) t)
  else s.

Fixpoint bound_optional_strings (limit : Z) (value : json) : json :=
  match value with
  | JStr s => JStr (bound_string limit s)
  | JArr l => JArr (map (bound_optional_strings limit) l)
  | JObj l => JObj (map (fun kv => (kv.1, bound_optional_strings limit kv.2)) l)
  | _ => value
  end.

Section reductions.
Context `{Builtins}.

(** [_dedupe_items]: by the hash of a value. *)
Fixpoint dedupe_from (seen : list string) (values : list json) : list json :=
  match values with
  | [] => []
  | v :: rest =>
      if decide (request_hash v ∈ seen) then dedupe_from seen rest else v :: dedupe_from (request_hash v :: seen) rest
  end.

Definition dedupe_items (values : list json) : list json := dedupe_from [] values.

(** [str(m.get(key) or "")]. *)
Definition str_or_empty (key : string) (m : mapping) : string :=
  match jget key m with Some j => if jtruthy j then py_str j else EmptyString | None => EmptyString end.

(** The loop of [_reduce_unit_scope]. *)
Fixpoint reduce_confirmed (keep_full : list string) (confirmed : list json) : list json * list Omission :=
  match confirmed with
  | [] => ([], [])
  | JObj item :: rest =>
      let (output, omitted) := reduce_confirmed keep_full rest in
      let unit_key := str_or_empty "unit_key" item in
      if negb (bool_decide (unit_key ∈ keep_full)) && match jget "markdown" item with Some j => jtruthy j | None => false end
      then (JObj (assoc_set "markdown" (JStr EmptyString) item) :: output,
            mkOmission ("confirmation-unit:" +:+ unit_key) "NON_DEPENDENCY_BODY_EXTERNALIZED" :: omitted)
      else (JObj item :: output, omitted)
  | _ :: rest => reduce_confirmed keep_full rest
  end.

Definition reduce_unit_scope (scope : mapping) (operation : string) : result exc (mapping * list Omission) :=
  match jget "confirmed_context" scope with
  | Some (JArr confirmed) =>
      result_bind (fun dependencies =>
        let current := str_or_empty "current_unit_key" scope in
        let keep_full := map py_str dependencies ++ (if String.eqb operation "revise_unit" then [current] else []) in
        let (output, omitted) := reduce_confirmed keep_full confirmed in
        Ok (assoc_set "confirmed_context" (JArr output) scope, omitted))
        (py_iter (default (JArr []) (jget "dependency_unit_keys" scope)))
  | _ => Ok (scope, [])
  end.

(** One of the bounded collections. *)
Definition bound_collection (st : mapping * list Omission) (kl : string * Z) : mapping * list Omission :=
  let (reduced, omitted) := st in
  let (key, limit) := kl in
  match jget key reduced with
  | Some (JArr values) =>
      let unique := dedupe_items values in
      (assoc_set key (JArr (last_n (Z.to_nat limit) unique)) reduced,
       if (limit <? Z.of_nat (length unique))%Z
       then omitted ++ [mkOmission key "OLDER_ITEMS_OUTSIDE_OPERATION_WINDOW"] else omitted)
  | _ => st
  end.

(** [_deterministic_reduce]. *)
Definition deterministic_reduce (p : ContextPolicy) (operation : string) (original : mapping) (mandatory : list string)
    : result exc (mapping * list Omission) :=
  result_bind (fun st =>
    let '(reduced, omitted) := fold_left bound_collection
      [("observations", cp_max_observations p); ("evidence", cp_max_observations p); ("prior_actions", cp_max_prior_actions p)] st in
    Ok (map (fun kv => if decide (kv.1 ∈ mandatory) then kv
                       else (kv.1, bound_optional_strings (cp_max_optional_string_chars p) kv.2)) reduced, omitted))
    (match jget "unit_scope" original with
     | Some (JObj scope) =>
         result_bind (fun so => Ok (assoc_set "unit_scope" (JObj so.1) original, so.2)) (reduce_unit_scope scope operation)
     | _ => Ok (original, [])
     end).
End reductions.

(** ** [module.py] *)

Definition mandatory_by_operation (operation : string) : list string :=
  if String.eqb operation "plan_information_need" then
    ["task_id"; "task_version"; "task_message"; "workflow_version"; "repository_available"; "historical_prd_available";
     "revision_scope"; "allowed_requiredness"; "allowed_need_kinds"; "allowed_source_types"]
  else if String.eqb operation "select_investigation_action" then
    ["run_id"; "task_id"; "task_message"; "workflow_version"; "active_coverage_gap"; "coverage"; "remaining_budget"; "instruction"]
  else if String.eqb operation "generate_working_draft" then
    ["run_id"; "task_id"; "task_message"; "coverage"; "evidence"; "stop_reason"]
  else if String.eqb operation "repair_working_draft" then ["run_id"; "task_id"; "markdown"; "quality_issues"; "instruction"]
  else if String.eqb operation "plan_outline" || String.eqb operation "generate_unit" then
    ["unit_operation"; "expected_schema"; "task_message"; "unit_scope"; "output_contract"; "instruction"]
  else if String.eqb operation "revise_unit" then
    ["unit_operation"; "expected_schema"; "task_message"; "unit_scope"; "base_candidate"; "output_contract"; "instruction"]
  else [].

Definition source_priority (key : string) : Z :=
  if bool_decide (key ∈ ["task_message"; "unit_scope"; "base_candidate"; "quality_issues"; "remaining_budget"]) then 0
  else if bool_decide (key ∈ ["coverage"; "markdown"; "project_memory"]) then 1
  else if bool_decide (key ∈ ["evidence"; "observations"]) then 2
  else if String.eqb key "prior_actions" then 3
  else 2.

Definition trust_class (key : string) : string :=
  if bool_decide (key ∈ ["task_message"; "quality_issues"]) then "USER_INTENT"
  else if bool_decide (key ∈ ["unit_scope"; "base_candidate"]) then "USER_CONFIRMED"
  else if bool_decide (key ∈ ["evidence"; "observations"]) then "DOCUMENT_SUPPORTED"
  else if String.eqb key "project_memory" then "PROJECT_MEMORY"
  else "RUNTIME_METADATA".

Record Draft := mkDraft {
  dr_manifest : SourceManifest;
  dr_original : mapping;
  dr_reduced : mapping;
  dr_omitted : list Omission;
  dr_before_tokens : Z;
  dr_after_tokens : Z;
  dr_mandatory_keys : list string;
  dr_compaction_kind : string
}.

(** [str.upper], and the task of the run. *)
Class ContextEnv := { upper : string -> string; context_task_id : string }.

Section module.
Context `{Builtins} `{JsonLoads} `{LedgerEnv} `{FloatEq} `{TokenEstimator} `{ContextEnv} (p : ContextPolicy).

Definition estimate (system_prompt : string) (m : mapping) : Z := estimate_request system_prompt (canonical_json (JObj m)).

(** [_source]. *)
Definition context_source (operation key : string) (value : json) (required : bool) : ContextSource :=
  mkSource ("run:" +:+ ledger_run_id +:+ ":" +:+ operation +:+ ":" +:+ key) (upper key) (request_hash value)
    (trust_class key) required (source_priority key) value.

Definition mandatory_keys (operation : string) (original : mapping) : list string :=
  List.filter (fun k => bool_decide (k ∈ original.*1)) (mandatory_by_operation operation).

Definition source_manifest (operation : string) (original : mapping) : SourceManifest :=
  let mandatory := mandatory_keys operation original in
  let sources := map (fun kv => context_source operation kv.1 kv.2 (bool_decide (kv.1 ∈ mandatory)))
                   (sort_by (fun a b => String.leb a.1 b.1) original) in
  let without_hash := mkSourceManifest "context-source-manifest.v1" ledger_run_id context_task_id operation sources EmptyString in
  mkSourceManifest "context-source-manifest.v1" ledger_run_id context_task_id operation sources
    (request_hash (JObj (manifest_body without_hash))).

(** [_build_draft]. *)
Definition build_draft (operation system_prompt : string) (original : mapping) : result exc Draft :=
  let mandatory := mandatory_keys operation original in
  let manifest := source_manifest operation original in
  let before := estimate system_prompt original in
  if (before <=? cp_compact_threshold_tokens p)%Z
  then Ok (mkDraft manifest original original [] before before mandatory "NONE")
  else result_bind (fun ro =>
    Ok (mkDraft manifest original ro.1 ro.2 before (estimate system_prompt ro.1) mandatory "DETERMINISTIC"))
    (deterministic_reduce p operation original mandatory).

(** The keys that may be left out, from the least important. *)
Definition optional_keys (d : Draft) : list string :=
  sort_by (fun a b => pair_leb Z.eqb Z.leb String.leb (source_priority b, b) (source_priority a, a))
    (List.filter (fun k => negb (bool_decide (k ∈ dr_mandatory_keys d))) (dr_reduced d).*1).

(** The loop of [_emergency_reduce], with its [break]. *)
Fixpoint emergency_loop (system_prompt : string) (optional : list string) (reduced : mapping) (omitted : list Omission)
    : mapping * list Omission :=
  match optional with
  | [] => (reduced, omitted)
  | key :: rest =>
      if (estimate system_prompt reduced <=? cp_target_input_tokens p)%Z then (reduced, omitted)
      else emergency_loop system_prompt rest (assoc_del key reduced) (omitted ++ [mkOmission key "EMERGENCY_OPTIONAL_OMISSION"])
  end.

Definition emergency_reduce (d : Draft) (system_prompt : string) : Draft :=
  let (reduced, omitted) := emergency_loop system_prompt (optional_keys d) (dr_reduced d) (dr_omitted d) in
  mkDraft (dr_manifest d) (dr_original d) reduced omitted (dr_before_tokens d) (estimate system_prompt reduced)
    (dr_mandatory_keys d)
    (if String.eqb (dr_compaction_kind d) "SEMANTIC" then "SEMANTIC_AND_EMERGENCY" else "DETERMINISTIC_EMERGENCY").

(** [_pack]. *)
Definition make_pack (operation : string) (operation_sequence : Z) (prompt_version output_schema : string) (d : Draft)
    : ContextPack :=
  let seed := JObj [("run_id", JStr ledger_run_id); ("task_id", JStr context_task_id); ("operation", JStr operation);
    ("operation_sequence", JInt operation_sequence); ("prompt_version", JStr prompt_version);
    ("output_schema", JStr output_schema); ("policy_version", JStr (cp_version p));
    ("manifest_hash", JStr (sm_manifest_hash (dr_manifest d))); ("view_hash", JStr (request_hash (JObj (dr_reduced d))))] in
  mkPack "context-pack.v1" (context_id seed) ledger_run_id context_task_id operation operation_sequence prompt_version
    output_schema (cp_version p) (dr_manifest d) (dr_reduced d) (dr_omitted d)
    (mkAccounting (dr_before_tokens d) (dr_after_tokens d) (cp_target_input_tokens p) (hard_input_tokens p)
       (cp_reserved_output_tokens p) (cp_emergency_margin_tokens p)) (dr_compaction_kind d).

Definition compaction_error : lexc := CallbackError (External "ContextCompactionOutputInvalid").
Definition window_error : lexc := CallbackError (External "ContextWindowUnsatisfiable").

(** [validate_semantic_view]. *)
Definition validate_semantic_view (value : json) (original : mapping) (mandatory : list string) : result lexc mapping :=
  match value with
  | JObj m =>
      match default (JObj m) (jget "operation_view" m) with
      | JObj view =>
          if negb (forallb (fun k => match jget k view with
                                     | Some v => py_eq v (default JNull (jget k original))
                                     | None => false
                                     end) mandatory) then Raise compaction_error
          else if negb (forallb (fun i => bool_decide (i ∈ collect_ids (JObj original) EmptyString))
                          (collect_ids (JObj view) EmptyString)) then Raise compaction_error
          else if negb (is_extractive_subset (JObj view) (JObj original)) then Raise compaction_error
          else Ok view
      | _ => Raise compaction_error
      end
  | _ => Raise compaction_error
  end.

(** [_safe_segment]. *)
Definition safe_segment (value : string) : string :=
  let replaced := map (fun c => if ((97 <=? c) && (c <=? 122) || (48 <=? c) && (c <=? 57) || (c =? 95) || (c =? 46) || (c =? 45))%N
                                then c else 45%N) (decode (lower value)) in
  match str_take 60 (strip_char (Ascii.ascii_of_nat 45) (encode replaced)) with
  | EmptyString => "unknown"
  | segment => segment
  end.

(** A semantic compactor may use the ledger itself. *)
Definition compactor : Type := json -> LM json.

Definition compaction_request (operation output_schema : string) (d : Draft) : json :=
  JObj [("schema_version", JStr "context-compaction-request.v1"); ("operation", JStr operation);
        ("output_schema", JStr output_schema); ("target_input_tokens", JInt (cp_target_input_tokens p));
        ("mandatory_keys", JArr (map JStr (sort_by String.leb (dr_mandatory_keys d))));
        ("allowed_source_refs", JArr (map (fun s => JStr (cs_source_ref s)) (sm_sources (dr_manifest d))));
        ("operation_view", JObj (dr_reduced d));
        ("instruction", JStr "Return an operation_view object only. Preserve mandatory fields exactly, do not create identifiers, facts, decisions, unknowns, conflicts, or source references.")].

(** [try: ... except ContextCompactionBudgetUnavailable]. *)
Definition budget_unavailable_handler (e : lexc) : LM (option json) :=
  match e with
  | CallbackError (External name) => if String.eqb name "ContextCompactionBudgetUnavailable" then mret None else raise e
  | _ => raise e
  end.

Definition try_compact (m : LM json) : LM (option json) := fun w =>
  match (candidate ← m; mret (Some candidate)) w with (w', Raise e) => budget_unavailable_handler e w' | r => r end.

(** The optional semantic step of [prepare]. *)
Definition semantic_step (operation output_schema system_prompt : string) (compact : option compactor) (d : Draft) : LM Draft :=
  match compact with
  | Some f =>
      if (cp_target_input_tokens p <? dr_after_tokens d)%Z && negb (String.eqb (dr_compaction_kind d) "NONE")
         && cp_semantic_compaction_enabled p then
        remaining ← ledger_remaining;
        if (2 <=? model_attempts remaining)%Z then
          candidate ← try_compact (f (compaction_request operation output_schema d));
          match candidate with
          | None | Some JNull => mret d
          | Some c =>
              reduced ← liftR (validate_semantic_view c (dr_reduced d) (dr_mandatory_keys d));
              mret (mkDraft (dr_manifest d) (dr_original d) reduced (dr_omitted d) (dr_before_tokens d)
                      (estimate system_prompt reduced) (dr_mandatory_keys d) "SEMANTIC")
          end
        else mret d
      else mret d
  | None => mret d
  end.

(** The last resort of [prepare], and its limit. *)
Definition fit_window (system_prompt : string) (required : bool) (d : Draft) : result lexc Draft :=
  let d' := if required && (cp_target_input_tokens p <? dr_after_tokens d)%Z || (hard_input_tokens p <? dr_after_tokens d)%Z
            then emergency_reduce d system_prompt else d in
  if (hard_input_tokens p <? dr_after_tokens d')%Z then Raise window_error else Ok d'.

Definition lift_exc {A} (r : result exc A) : LM A :=
  match r with Ok a => mret a | Raise ValueError => raise LedgerValueError | Raise e => raise (CallbackError e) end.

(** The derivation that records a pack. *)
Definition pack_spec (operation : string) (operation_sequence : Z) (prompt_version output_schema : string) (k : ContextPack)
    : LedgerCallSpec :=
  mkCallSpec "LOCAL_DERIVATION" "build_context_pack"
    ("context:build:" +:+ safe_segment operation +:+ ":sequence" +:+ pretty operation_sequence)
    (request_hash (JObj [("operation", JStr operation); ("operation_sequence", JInt operation_sequence);
       ("prompt_version", JStr prompt_version); ("output_schema", JStr output_schema); ("policy_version", JStr (cp_version p));
       ("source_manifest_hash", JStr (sm_manifest_hash (pk_source_manifest k)));
       ("target_input_tokens", JInt (cp_target_input_tokens p));
       ("operation_view_hash", JStr (request_hash (JObj (pk_operation_view k))))]))
    no_budget "context-pack.v1".

(** [{**view, "context_pack": {...}}]. *)
Definition effective_payload (k : ContextPack) (a : RunArtifact) : mapping :=
  assoc_set "context_pack"
    (JObj [("schema_version", JStr "context-pack-ref.v1"); ("pack_id", JStr (pk_pack_id k));
       ("artifact_key", JStr (ra_artifact_key a)); ("content_hash", JStr (ra_content_hash a));
       ("source_manifest_hash", JStr (sm_manifest_hash (pk_source_manifest k))); ("policy_version", JStr (cp_version p))])
    (pk_operation_view k).

Definition pack_handlers : handlers := mkHandlers validate_context_pack_value None (fun _ => Ok []).

(** [prepare]; [has_ledger] tells whether the run has a ledger. *)
Definition prepare (has_ledger : bool) (operation : string) (operation_sequence : Z)
    (prompt_version output_schema system_prompt : string) (payload : mapping) (compact : option compactor)
    (base_request_hash : option string) : LM PreparedModelContext :=
  let original_bytes := canonical_json (JObj payload) in
  let original_hash := or_else base_request_hash ("sha256:" +:+ sha256_hex original_bytes) in
  if String.eqb (cp_mode p) "off" then
    mret (mkPrepared payload original_bytes original_hash (estimate_request system_prompt original_bytes) None EmptyString
            EmptyString None)
  else if negb has_ledger then raise LedgerValueError
  else
    draft ← lift_exc (build_draft operation system_prompt payload);
    let required := negb (String.eqb (dr_compaction_kind draft) "NONE") in
    draft1 ← semantic_step operation output_schema system_prompt compact draft;
    final ← liftR (fit_window system_prompt required draft1);
    let pack := make_pack operation operation_sequence prompt_version output_schema final in
    outcome ← execute_derivation (pack_spec operation operation_sequence prompt_version output_schema pack)
                (mret (JObj (pack_members pack))) pack_handlers "CONTEXT_PACK";
    let artifact := lo_artifact outcome in
    let enforce := String.eqb (cp_mode p) "enforce" in
    let effective := if enforce then effective_payload pack artifact else payload in
    let effective_bytes := canonical_json (JObj effective) in
    let estimated := estimate_request system_prompt effective_bytes in
    if enforce && (hard_input_tokens p <? estimated)%Z then raise window_error
    else
      let identity := request_hash (JObj [("base_request_hash", JStr original_hash);
        ("context_policy_version", JStr (cp_version p)); ("context_pack_hash", JStr (ra_content_hash artifact));
        ("effective_payload_hash", JStr ("sha256:" +:+ sha256_hex effective_bytes))]) in
      mret (mkPrepared effective effective_bytes (if enforce then identity else original_hash) estimated (Some pack)
              (ra_artifact_key artifact) (ra_content_hash artifact)
              (if String.eqb (cp_mode p) "shadow" then Some (pk_operation_view pack) else None)).
End module.
