(* ===== verification/ContextPackFacts.v ===== *)
(** * Context packs keep what is mandatory and fit the window *)
From stdpp Require Import base list sets strings pretty.
From Stdlib Require Import ZArith Lia.
From S2P Require Import Prelude.
From S2P Require Import PyDict.
From S2P Require Import Json.
From S2P Require Import CanonicalJson.
From S2P Require Import PyText.
From S2P Require Import RepositoryPolicy.
From S2P Require Import Ledger.
From S2P Require Import LedgerInv.
From S2P Require Import LedgerFacts.
From S2P Require Import CodePoints.
From S2P Require Import ContextPack.

(** ** Lookups *)

Lemma jget_set_ne k k' v (m : mapping) : k <> k' -> jget k (assoc_set k' v m) = jget k m.
Proof.
  intros Hne. unfold jget. induction m as [|[k1 v1] m IH]; simpl; [by rewrite decide_False|].
  destruct (decide (k' = k1)) as [->|]; simpl; [by rewrite !decide_False|]. by case_decide.
Qed.

Lemma jget_set_eq k v (m : mapping) : jget k (assoc_set k v m) = Some v.
Proof.
  unfold jget. induction m as [|[k1 v1] m IH]; simpl; [by rewrite decide_True|].
  destruct (decide (k = k1)) as [->|]; simpl; [by rewrite decide_True|]. by rewrite decide_False.
Qed.

Lemma jget_del_ne k k' (m : mapping) : k <> k' -> jget k (assoc_del k' m) = jget k m.
Proof.
  intros Hne. unfold jget. induction m as [|[k1 v1] m IH]; simpl; [done|].
  destruct (decide (k' = k1)) as [->|]; simpl; [by rewrite decide_False|]. by case_decide.
Qed.

Lemma jget_is_Some k (m : mapping) : is_Some (jget k m) <-> k ∈ m.*1.
Proof.
  unfold jget. induction m as [|[k1 v1] m IH]; simpl; [set_solver|]. case_decide; [subst; set_solver|]. rewrite IH. set_solver.
Qed.

(** A change of values that leaves the value of [k] alone. *)
Lemma jget_map k (f : string * json -> string * json) (m : mapping) :
  (forall kv, (f kv).1 = kv.1) -> (forall v, f (k, v) = (k, v)) -> jget k (map f m) = jget k m.
Proof.
  intros Hf Hk. unfold jget. induction m as [|[k1 v1] m IH]; [done|]. simpl. pose proof (Hf (k1, v1)) as E.
  destruct (f (k1, v1)) as [k2 v2] eqn:Efv. simpl in E. subst k2. case_decide; [|done]. subst k1. rewrite Hk in Efv. congruence.
Qed.

Lemma keys_set k v (m : mapping) : k ∈ m.*1 -> (assoc_set k v m).*1 = m.*1.
Proof.
  induction m as [|[k1 v1] m IH]; simpl; [by intros ?%elem_of_nil|]. intros Hk. case_decide; [done|]. simpl. f_equal.
  apply IH. apply elem_of_cons in Hk as [->|]; done.
Qed.

Lemma del_filter k (m : mapping) :
  NoDup m.*1 -> assoc_del k m = List.filter (fun kv => negb (bool_decide (kv.1 = k))) m.
Proof.
  induction m as [|[k1 v1] m IH]; simpl; [done|]. intros [Hnin Hnd]%NoDup_cons. case_decide as E; case_bool_decide; try congruence; simpl.
  - subst k1. symmetry. apply List.forallb_filter_id. apply forallb_forall. intros [k2 v2] Hx. simpl.
    apply list_elem_of_In in Hx. rewrite bool_decide_false; [done|]. intros ->. apply Hnin. by apply (list_elem_of_fmap_2 fst) in Hx.
  - by rewrite IH.
Qed.

Lemma NoDup_filter_keys (f : string * json -> bool) (m : mapping) : NoDup m.*1 -> NoDup (List.filter f m).*1.
Proof.
  induction m as [|[k v] m IH]; simpl; [done|]. intros [Hnin Hnd]%NoDup_cons. destruct (f (k, v)); [|by apply IH].
  simpl. constructor; [|by apply IH]. intros Hin. apply Hnin. apply list_elem_of_fmap_1 in Hin as ([k' v'] & -> & Hin).
  apply list_elem_of_In, List.filter_In in Hin as [Hin _]. apply list_elem_of_In in Hin. by apply (list_elem_of_fmap_2 fst) in Hin.
Qed.

(** The collections and mappings the deterministic reduction rewrites. *)
Definition reducible : list string := ["unit_scope"; "observations"; "evidence"; "prior_actions"].

Section context.
Context `{Builtins}.

Lemma bound_collection_get k st kl : k <> kl.1 -> jget k (bound_collection st kl).1 = jget k st.1.
Proof.
  destruct st as [m o], kl as [key limit]. intros Hne. simpl in *. destruct (jget key m) as [[| | | | |vs|]|]; try done.
  by apply jget_set_ne.
Qed.

Lemma bound_collection_keys st kl : (bound_collection st kl).1.*1 = st.1.*1.
Proof.
  destruct st as [m o], kl as [key limit]. simpl. destruct (jget key m) as [[| | | | |vs|]|] eqn:E; try done.
  apply keys_set, jget_is_Some. eauto.
Qed.

(** The deterministic reduction keeps every key, and the values of mandatory
    keys outside the four reducible ones. *)
Lemma deterministic_reduce_spec p operation m mandatory r o :
  deterministic_reduce p operation m mandatory = Ok (r, o) ->
  r.*1 = m.*1 /\ forall k, k ∈ mandatory -> k ∉ reducible -> jget k r = jget k m.
Proof.
  unfold deterministic_reduce. intros E. apply result_bind_Ok in E as (st & Est & E).
  destruct (fold_left _ _ st) as [red om] eqn:Ef. injection E as <- <-.
  assert (Hst : st.1.*1 = m.*1 /\ forall k, k ∉ reducible -> jget k st.1 = jget k m).
  { destruct (jget "unit_scope" m) as [[| | | | | |scope]|] eqn:Es; try (by injection Est as <-).
    apply result_bind_Ok in Est as (so & _ & Est). injection Est as <-. simpl. split.
    - apply keys_set, jget_is_Some. eauto.
    - intros k Hk. apply jget_set_ne. intros ->. apply Hk. left. }
  assert (Hred : red.*1 = st.1.*1 /\ forall k, k ∉ reducible -> jget k red = jget k st.1).
  { cbn [fold_left] in Ef. apply (f_equal fst) in Ef. cbn [fst] in Ef. subst red. split.
    - by rewrite !bound_collection_keys.
    - intros k Hk. rewrite !bound_collection_get; [done| | |]; simpl; intros ->; apply Hk; unfold reducible; set_solver. }
  destruct Hst as [Hk1 Hg1], Hred as [Hk2 Hg2]. split.
  - rewrite <- Hk1, <- Hk2, <- list_fmap_compose. apply list_fmap_ext. intros i [k v] _. simpl. by case_decide.
  - intros k Hm Hk. rewrite jget_map; [by rewrite Hg2, Hg1| |].
    + intros [k' v]. by case_decide.
    + intros v. by rewrite decide_True.
Qed.
End context.

Section window.
Context `{Builtins} `{JsonLoads} `{LedgerEnv} `{FloatEq} `{TokenEstimator} `{ContextEnv} (p : ContextPolicy).

Lemma check_policy_target : check_policy p = Ok p -> (cp_target_input_tokens p <= hard_input_tokens p)%Z.
Proof.
  unfold check_policy. repeat (match goal with |- (if ?b then _ else _) = _ -> _ => destruct b eqn:? end; [done|]).
  intros _. by apply Z.ltb_ge.
Qed.

(** ** The emergency reduction *)

(** Removing optional keys one after another. *)
Lemma emergency_loop_spec sp optional m o r om :
  emergency_loop p sp optional m o = (r, om) ->
  (forall k, k ∉ optional -> jget k r = jget k m) /\
  ((estimate sp r <= cp_target_input_tokens p)%Z \/ r = foldl (fun m k => assoc_del k m) m optional).
Proof.
  revert m o. induction optional as [|k optional IH]; intros m o; simpl; [intros [= <- <-]; auto|].
  destruct (Z.leb_spec (estimate sp m) (cp_target_input_tokens p)); [intros [= <- <-]; auto|].
  intros E. destruct (IH _ _ E) as [Hg Hr]. split; [|done]. intros k' Hk'. rewrite Hg by set_solver. apply jget_del_ne. set_solver.
Qed.

Lemma delete_all optional (m : mapping) :
  NoDup m.*1 ->
  foldl (fun m k => assoc_del k m) m optional = List.filter (fun kv => negb (bool_decide (kv.1 ∈ optional))) m.
Proof.
  revert m. induction optional as [|k optional IH]; intros m Hnd; simpl.
  - symmetry. by apply List.forallb_filter_id, forallb_forall.
  - rewrite del_filter by done. rewrite IH by (by apply NoDup_filter_keys).
    induction m as [|[k1 v1] m IHm]; [done|]. simpl in *. apply NoDup_cons in Hnd as [_ Hnd].
    repeat case_bool_decide; simpl; repeat case_bool_decide; simpl; rewrite ?IHm by done; try done; set_solver.
Qed.

(** The part of a view that no reduction may leave out. *)
Definition mandatory_part (d : Draft) : mapping :=
  List.filter (fun kv => bool_decide (kv.1 ∈ dr_mandatory_keys d)) (dr_reduced d).

Lemma optional_keys_elem d k : k ∈ optional_keys d <-> k ∈ (dr_reduced d).*1 /\ k ∉ dr_mandatory_keys d.
Proof.
  unfold optional_keys. rewrite elem_of_sort_by, list_elem_of_In, List.filter_In, <- list_elem_of_In.
  case_bool_decide; simpl; naive_solver.
Qed.

(** The window can be missed only by what is mandatory. *)
Lemma emergency_reduce_spec d sp :
  NoDup (dr_reduced d).*1 ->
  (forall k, k ∈ dr_mandatory_keys d -> jget k (dr_reduced (emergency_reduce p d sp)) = jget k (dr_reduced d)) /\
  ((dr_after_tokens (emergency_reduce p d sp) <= cp_target_input_tokens p)%Z \/
   dr_reduced (emergency_reduce p d sp) = mandatory_part d).
Proof.
  intros Hnd. unfold emergency_reduce. destruct (emergency_loop _ _ _ _ _) as [r om] eqn:E. simpl.
  apply emergency_loop_spec in E as [Hg Hr]. split.
  - intros k Hk. apply Hg. rewrite optional_keys_elem. tauto.
  - destruct Hr as [Hr| ->]; [by left|right]. rewrite delete_all by done. unfold mandatory_part.
    assert (Hsub : forall kv, kv ∈ dr_reduced d ->
      negb (bool_decide (kv.1 ∈ optional_keys d)) = bool_decide (kv.1 ∈ dr_mandatory_keys d)).
    { intros kv Hkv. apply (list_elem_of_fmap_2 fst) in Hkv. repeat case_bool_decide; simpl; try done;
      rewrite optional_keys_elem in *; tauto. }
    revert Hsub. generalize (dr_reduced d). intros l. induction l as [|kv l IH]; intros Hsub; [done|]. simpl.
    rewrite Hsub by left. rewrite IH; [done|]. intros kv' Hkv'. apply Hsub. by right.
Qed.

(** C25: the window of a model can be missed only by what is mandatory.  When
    the reductions of a draft fail, the fields that the operation declares as
    mandatory do not fit the window by themselves; and when they succeed, every
    mandatory field is kept as it was in the draft. *)
Theorem window_missed_by_mandatory (d : Draft) (sp : string) (required : bool) :
  check_policy p = Ok p -> NoDup (dr_reduced d).*1 -> dr_after_tokens d = estimate sp (dr_reduced d) ->
  match fit_window p sp required d with
  | Raise e => e = window_error /\ (hard_input_tokens p < estimate sp (mandatory_part d))%Z
  | Ok d' => (dr_after_tokens d' <= hard_input_tokens p)%Z /\
      dr_after_tokens d' = estimate sp (dr_reduced d') /\
      forall k, k ∈ dr_mandatory_keys d -> jget k (dr_reduced d') = jget k (dr_reduced d)
  end.
Proof.
  intros Hp Hnd Hafter. unfold fit_window.
  assert (Htarget : (cp_target_input_tokens p <= hard_input_tokens p)%Z).
  { by apply check_policy_target. }
  destruct (emergency_reduce_spec d sp Hnd) as [Hg Hr].
  assert (Hest : dr_after_tokens (emergency_reduce p d sp) = estimate sp (dr_reduced (emergency_reduce p d sp))).
  { unfold emergency_reduce. by destruct (emergency_loop _ _ _ _ _). }
  destruct (required && _ || _) eqn:Hred.
  - destruct (Z.ltb_spec (hard_input_tokens p) (dr_after_tokens (emergency_reduce p d sp))) as [Hbig|Hsmall].
    + split; [done|]. destruct Hr as [Hr|Hr]; [lia|]. by rewrite <- Hr, <- Hest.
    + split_and!; [done|done|exact Hg].
  - apply orb_false_iff in Hred as [_ Hred]. rewrite Hred. apply Z.ltb_ge in Hred. by split_and!.
Qed.
End window.

(** * What a prepared model context guarantees

    The result of [prepare] fits the window of the model and keeps the mandatory
    fields; a semantic view that is accepted adds no text of its own; the pack
    that is recorded passes its own validator and reads back. *)
Open Scope string_scope.

(** ** Accepted views are extractive *)

(** Every string of a value, keys included. *)
Fixpoint texts (j : json) : list string :=
  match j with
  | JStr s => [s]
  | JArr l => (fix elements (l : list json) := match l with [] => [] | x :: l' => texts x ++ elements l' end) l
  | JObj l => (fix members (l : list (string * json)) :=
                 match l with [] => [] | (k, x) :: l' => k :: texts x ++ members l' end) l
  | _ => []
  end%list.

Lemma texts_arr l t : t ∈ texts (JArr l) <-> exists x, x ∈ l /\ t ∈ texts x.
Proof.
  induction l as [|x l IH].
  - split; [by intros ?%elem_of_nil|]. intros (x & ?%elem_of_nil & _). done.
  - change (texts (JArr (x :: l))) with (texts x ++ texts (JArr l))%list. rewrite elem_of_app, IH.
    split; [intros [?|(y & ? & ?)]; [exists x|exists y]; split; auto; by constructor|].
    intros (y & [->|?]%elem_of_cons & ?); [by left|right; eauto].
Qed.

Lemma texts_obj l t : t ∈ texts (JObj l) <-> exists kv, kv ∈ l /\ (t = kv.1 \/ t ∈ texts kv.2).
Proof.
  induction l as [|[k x] l IH].
  - split; [by intros ?%elem_of_nil|]. intros (x & ?%elem_of_nil & _). done.
  - change (texts (JObj ((k, x) :: l))) with (k :: texts x ++ texts (JObj l))%list. rewrite elem_of_cons, elem_of_app, IH.
    split.
    + intros [->|[?|(y & ? & ?)]]; [exists (k, x)|exists (k, x)|exists y]; split; auto; by constructor.
    + intros (y & [->|?]%elem_of_cons & Ht); [tauto|right; right; eauto].
Qed.

Lemma jget_elem k (m : mapping) v : jget k m = Some v -> (k, v) ∈ m.
Proof.
  unfold jget. induction m as [|[k1 v1] m IH]; simpl; [done|]. case_decide; [intros [= ->]; subst; left|]. right. auto.
Qed.

Section extractive.
Context `{FloatEq}.

Lemma py_eq_arr l m : py_eq (JArr l) (JArr m) = true -> forall x, x ∈ l -> exists y, y ∈ m /\ py_eq x y = true.
Proof.
  revert m. induction l as [|x l IH]; intros [|y m]; try done; try by intros _ ? ?%elem_of_nil.
  change (py_eq (JArr (x :: l)) (JArr (y :: m))) with (py_eq x y && py_eq (JArr l) (JArr m)). intros [Hx Hl]%andb_true_iff.
  intros z [->|Hz]%elem_of_cons; [exists y; split; [left|done]|]. destruct (IH m Hl z Hz) as (y' & ? & ?). exists y'. split; [by right|done].
Qed.

(** The values of one mapping, each compared with the value of its key in another. *)
Lemma members_obj (f : json -> json -> bool) l m :
  (fix members (l : list (string * json)) : bool :=
     match l with
     | [] => true
     | (k, x) :: l' => match jget k m with Some y => f x y | None => false end && members l'
     end) l = true -> forall kv, kv ∈ l -> exists y, (kv.1, y) ∈ m /\ f kv.2 y = true.
Proof.
  induction l as [|[k x] l IH]; [by intros _ kv ?%elem_of_nil|]. intros [Hx Hl]%andb_true_iff kv [->|Hkv]%elem_of_cons; [|by apply IH].
  simpl. destruct (jget k m) as [y|] eqn:E; [|done]. apply jget_elem in E. eauto.
Qed.

Lemma py_eq_texts a : forall b, py_eq a b = true -> forall t, t ∈ texts a -> t ∈ texts b.
Proof.
  induction a as [|v| | |s|l IH|l IH] using json_nested_ind; intros b Hb t Ht; try by apply elem_of_nil in Ht.
  - apply list_elem_of_singleton in Ht as ->. destruct b; simpl in Hb; try done.
    unfold scalar_eq in Hb. simpl in Hb. apply String.eqb_eq in Hb as ->. by left.
  - destruct b as [| | | | |m|]; try done. apply texts_arr in Ht as (x & Hx & Ht).
    destruct (py_eq_arr l m Hb x Hx) as (y & Hy & Exy). rewrite Forall_forall in IH. apply texts_arr. eauto.
  - destruct b as [| | | | | |m]; try done. apply texts_obj in Ht as (kv & Hkv & Ht).
    apply andb_true_iff in Hb as [_ Hb]. destruct (members_obj py_eq l m Hb kv Hkv) as (y & Hy & Exy).
    apply texts_obj. exists (kv.1, y). split; [done|]. destruct Ht as [->|Ht]; [by left|right].
    rewrite Forall_forall in IH. eapply IH; eauto.
Qed.

Lemma extractive_texts a : forall b, is_extractive_subset a b = true -> forall t, t ∈ texts a -> t ∈ texts b.
Proof.
  induction a as [|v| | |s|l IH|l IH] using json_nested_ind; intros b Hb t Ht; try by apply elem_of_nil in Ht.
  - by eapply py_eq_texts.
  - destruct b as [| | | | |m|]; try done. apply texts_arr in Ht as (x & Hx & Ht).
    simpl in Hb. apply forallb_forall with (x := x) in Hb; [|by apply list_elem_of_In].
    apply existsb_exists in Hb as (y & Hy & Exy). apply list_elem_of_In in Hy. apply texts_arr. eauto using py_eq_texts.
  - destruct b as [| | | | | |m]; try done. apply texts_obj in Ht as (kv & Hkv & Ht).
    destruct (members_obj is_extractive_subset l m Hb kv Hkv) as (y & Hy & Exy).
    apply texts_obj. exists (kv.1, y). split; [done|]. destruct Ht as [->|Ht]; [by left|right].
    rewrite Forall_forall in IH. eapply IH; eauto.
Qed.

Lemma extractive_keys l m : is_extractive_subset (JObj l) (JObj m) = true -> forall k, k ∈ l.*1 -> k ∈ m.*1.
Proof.
  intros Hs k ([k' x] & -> & Hx)%list_elem_of_fmap_1. destruct (members_obj is_extractive_subset l m Hs _ Hx) as (y & Hy & _).
  by apply (list_elem_of_fmap_2 fst) in Hy.
Qed.
End extractive.

(** A field that is kept: the same value, or one that compares equal to it. *)
Definition kept_field `{FloatEq} (k : string) (m m' : mapping) : Prop :=
  exists v v', jget k m = Some v /\ jget k m' = Some v' /\ (v' = v \/ py_eq v' v = true).

Section prepare.
Context `{Builtins} `{JsonLoads} `{LedgerEnv} `{FloatEq} `{TokenEstimator} `{ContextEnv} (p : ContextPolicy).

Lemma same_field k (m m' : mapping) : k ∈ m.*1 -> jget k m' = jget k m -> kept_field k m m'.
Proof. intros [v Hv]%jget_is_Some E. exists v, v. rewrite E. auto. Qed.

Lemma kept_field_then k (m m' m'' : mapping) : kept_field k m m' -> jget k m'' = jget k m' -> kept_field k m m''.
Proof. intros (v & v' & ? & ? & ?) E. exists v, v'. rewrite E. auto. Qed.

(** The validator accepts extracts only. *)
Lemma semantic_view_spec (value : json) (original view : mapping) (mandatory : list string) :
  validate_semantic_view value original mandatory = Ok view ->
  (forall t, t ∈ texts (JObj view) -> t ∈ texts (JObj original)) /\
  (forall i, i ∈ collect_ids (JObj view) EmptyString -> i ∈ collect_ids (JObj original) EmptyString) /\
  (forall k, k ∈ mandatory -> k ∈ original.*1 -> kept_field k original view) /\
  (forall k, k ∈ view.*1 -> k ∈ original.*1).
Proof.
  unfold validate_semantic_view. destruct value as [| | | | | |m]; try done. destruct (default _ _) as [| | | | | |v]; try done.
  destruct (forallb _ mandatory) eqn:Em; [|done]. destruct (forallb _ (collect_ids _ _)) eqn:Ei; [|done].
  destruct (is_extractive_subset _ _) eqn:Ee; [|done]. intros [= ->]. split_and!.
  - by apply extractive_texts.
  - intros i Hi. rewrite forallb_forall in Ei. apply list_elem_of_In in Hi. by apply Ei, bool_decide_eq_true in Hi.
  - intros k Hk [w Hw]%jget_is_Some. rewrite forallb_forall in Em. apply list_elem_of_In in Hk. specialize (Em k Hk).
    destruct (jget k view) as [v'|] eqn:Ev; [|done]. rewrite Hw in Em. exists w, v'. auto.
  - by apply extractive_keys.
Qed.

Lemma mandatory_present operation (m : mapping) k : k ∈ mandatory_keys operation m -> k ∈ m.*1.
Proof. unfold mandatory_keys. rewrite list_elem_of_In, List.filter_In. intros [_ ?%bool_decide_eq_true]. done. Qed.

Lemma mandatory_not_pack operation (m : mapping) k : k ∈ mandatory_keys operation m -> k <> "context_pack".
Proof.
  unfold mandatory_keys. rewrite list_elem_of_In, List.filter_In. intros [Hk _] ->. apply list_elem_of_In in Hk. revert Hk.
  change ("context_pack" ∉ mandatory_by_operation operation).
  unfold mandatory_by_operation. repeat case_match; refine (bool_decide_unpack _ _); vm_compute; exact I.
Qed.

Lemma build_draft_spec operation sp payload d :
  build_draft p operation sp payload = Ok d ->
  dr_mandatory_keys d = mandatory_keys operation payload /\ dr_after_tokens d = estimate sp (dr_reduced d) /\
  dr_before_tokens d = estimate sp payload /\ dr_manifest d = source_manifest operation payload /\
  (dr_reduced d).*1 = payload.*1 /\
  forall k, k ∈ dr_mandatory_keys d -> k ∉ reducible -> jget k (dr_reduced d) = jget k payload.
Proof.
  unfold build_draft. destruct (_ <=? _)%Z; [intros E; by injection E as <-|]. intros E. apply result_bind_Ok in E as ([r o] & Er & E). injection E as <-. simpl.
  apply deterministic_reduce_spec in Er as [Hk Hg]. by split_and!.
Qed.

(** The semantic step leaves a draft, or replaces its view by an accepted one. *)
Lemma semantic_step_cases operation output_schema sp compact d d' w w' :
  semantic_step p operation output_schema sp compact d w = (w', Ok d') ->
  d' = d \/ exists c view, validate_semantic_view c (dr_reduced d) (dr_mandatory_keys d) = Ok view /\
    d' = mkDraft (dr_manifest d) (dr_original d) view (dr_omitted d) (dr_before_tokens d) (estimate sp view)
           (dr_mandatory_keys d) "SEMANTIC".
Proof.
  unfold semantic_step. destruct compact as [f|]; [|intros E; injection E as _ <-; by left].
  destruct (_ && _ && _); [|intros E; injection E as _ <-; by left]. intros E. apply bind_ok in E as (w1 & b & _ & E).
  destruct (_ <=? _)%Z; [|injection E as _ <-; by left]. apply bind_ok in E as (w2 & c & _ & E).
  assert (Hc : d' = d \/ exists v, c = Some v /\ v <> JNull) 
    by (destruct c as [[]|]; first [right; eexists; split; [reflexivity|discriminate] | left; by injection E]).
  destruct Hc as [->|(v & -> & Hv)]; [by left|right].
  assert (E' : (r ← liftR (validate_semantic_view v (dr_reduced d) (dr_mandatory_keys d));
    mret (mkDraft (dr_manifest d) (dr_original d) r (dr_omitted d) (dr_before_tokens d) (estimate sp r) (dr_mandatory_keys d) "SEMANTIC")) w2
    = (w', Ok d')) by (by destruct v).
  apply bind_ok in E' as (w3 & view & Eview & E'). injection E' as _ <-. injection Eview as _ Eview. eauto.
Qed.

(** Mandatory fields across the semantic step. *)
Lemma semantic_step_keeps operation output_schema sp compact d d' w w' :
  semantic_step p operation output_schema sp compact d w = (w', Ok d') -> dr_after_tokens d = estimate sp (dr_reduced d) ->
  (forall k, k ∈ dr_mandatory_keys d -> k ∈ (dr_reduced d).*1 -> kept_field k (dr_reduced d) (dr_reduced d')) /\
  dr_after_tokens d' = estimate sp (dr_reduced d') /\ dr_mandatory_keys d' = dr_mandatory_keys d.
Proof.
  intros [->|(c & view & Hv & ->)]%semantic_step_cases Ha; [by split_and!; auto using same_field|].
  destruct (semantic_view_spec _ _ _ _ Hv) as (_ & _ & Hm & _). by split_and!.
Qed.

(** The semantic step adds nothing to a draft.  Whatever the compactor
    answers, the view of the draft that is returned contains only strings of the
    draft it was given, keys included, and only its identifiers; every mandatory
    field is kept with a value that compares equal, and the source manifest is
    unchanged. *)
Theorem semantic_step_extractive (operation output_schema sp : string) (compact : option compactor) (d d' : Draft)
    (w w' : lworld) :
  semantic_step p operation output_schema sp compact d w = (w', Ok d') ->
  (forall t, t ∈ texts (JObj (dr_reduced d')) -> t ∈ texts (JObj (dr_reduced d))) /\
  (forall i, i ∈ collect_ids (JObj (dr_reduced d')) EmptyString -> i ∈ collect_ids (JObj (dr_reduced d)) EmptyString) /\
  (forall k, k ∈ dr_mandatory_keys d -> k ∈ (dr_reduced d).*1 -> kept_field k (dr_reduced d) (dr_reduced d')) /\
  dr_manifest d' = dr_manifest d.
Proof.
  intros [->|(c & view & Hv & ->)]%semantic_step_cases; [by split_and!; auto using same_field|].
  destruct (semantic_view_spec _ _ _ _ Hv) as (Ht & Hi & Hm & _). by split_and!.
Qed.

(** A draft that passes the limit of [prepare]. *)
Lemma fit_window_ok sp required d d' :
  fit_window p sp required d = Ok d' -> dr_after_tokens d = estimate sp (dr_reduced d) ->
  (dr_after_tokens d' <= hard_input_tokens p)%Z /\ dr_after_tokens d' = estimate sp (dr_reduced d') /\
  forall k, k ∈ dr_mandatory_keys d -> jget k (dr_reduced d') = jget k (dr_reduced d).
Proof.
  unfold fit_window. intros E Ha. destruct (Z.ltb_spec (hard_input_tokens p) (dr_after_tokens
    (if required && (cp_target_input_tokens p <? dr_after_tokens d)%Z || (hard_input_tokens p <? dr_after_tokens d)%Z
     then emergency_reduce p d sp else d))) as [|Hle]; [done|]. injection E as <-. split; [done|].
  destruct (_ || _); [|done]. unfold emergency_reduce. destruct (emergency_loop _ _ _ _ _) as [r om] eqn:El. simpl. split; [done|].
  apply emergency_loop_spec in El as [Hg _]. intros k Hk. apply Hg. rewrite optional_keys_elem. tauto.
Qed.

(** The stages of a successful [prepare] when the policy is on. *)
Lemma prepare_stages operation sequence prompt schema sp payload compact base w w' r :
  cp_mode p <> "off" -> prepare p true operation sequence prompt schema sp payload compact base w = (w', Ok r) ->
  exists d d1 d2 w1 w2 o,
    build_draft p operation sp payload = Ok d /\ semantic_step p operation schema sp compact d w1 = (w2, Ok d1) /\
    fit_window p sp (negb (String.eqb (dr_compaction_kind d) "NONE")) d1 = Ok d2 /\
    pm_context_pack r = Some (make_pack p operation sequence prompt schema d2) /\
    pm_payload r = (if String.eqb (cp_mode p) "enforce"
                    then effective_payload p (make_pack p operation sequence prompt schema d2) (lo_artifact o) else payload) /\
    pm_estimated_input_tokens r = estimate sp (pm_payload r) /\
    (cp_mode p = "enforce" -> (estimate sp (pm_payload r) <= hard_input_tokens p)%Z).
Proof.
  intros Hmode. unfold prepare. destruct (String.eqb_spec (cp_mode p) "off") as [|_]; [done|]. simpl negb. cbv iota.
  intros E. apply bind_ok in E as (w1 & d & Ed & E). apply bind_ok in E as (w2 & d1 & Ed1 & E).
  apply bind_ok in E as (w3 & d2 & Ed2 & E). apply bind_ok in E as (w4 & o & Eo & E). injection Ed2 as _ Ed2.
  exists d, d1, d2, w1, w2, o. destruct (_ && _)%bool eqn:Eb; [done|]. injection E as _ <-. cbn [pm_context_pack pm_payload pm_estimated_input_tokens].
  split_and!; try done.
  - destruct (build_draft p operation sp payload) as [x|[]]; simpl in Ed; try done. injection Ed as _ ->. done.
  - intros Hm. rewrite Hm in *. by apply Z.ltb_ge.
Qed.

Lemma effective_field k pack a : k <> "context_pack" -> jget k (effective_payload p pack a) = jget k (pk_operation_view pack).
Proof. intros Hk. unfold effective_payload. by apply jget_set_ne. Qed.

(** C8: an enforced context fits the model's window and keeps what the
    operation needs.  The tokens estimated for the payload that is sent, the
    tokens reserved for the answer and the margin are together within the
    window, and every mandatory field of the payload outside the four fields
    that may be reduced is sent with its value, or with one that compares equal
    when a semantic view replaced it. *)
Theorem prepared_within_window (operation : string) (sequence : Z) (prompt schema sp : string) (payload : mapping)
    (compact : option compactor) (base : option string) (w w' : lworld) (r : PreparedModelContext) :
  cp_mode p = "enforce" ->
  prepare p true operation sequence prompt schema sp payload compact base w = (w', Ok r) ->
  (pm_estimated_input_tokens r + cp_reserved_output_tokens p + cp_emergency_margin_tokens p
     <= cp_context_window_tokens p)%Z /\
  pm_estimated_input_tokens r = estimate_request sp (canonical_json (JObj (pm_payload r))) /\
  (forall k, k ∈ mandatory_keys operation payload -> k ∉ reducible -> kept_field k payload (pm_payload r)) /\
  (forall k, k ∈ mandatory_keys operation payload -> k ∈ (pm_payload r).*1).
Proof.
  intros Hmode E. apply prepare_stages in E as (d & d1 & d2 & w1 & w2 & o & Ed & E1 & E2 & _ & Epay & Eest & Hle);
    [|by rewrite Hmode]. specialize (Hle Hmode). rewrite Hmode in Epay. simpl in Epay.
  apply build_draft_spec in Ed as (Hm & Ha & _ & _ & Hkeys & Hg). rewrite <- Hm.
  apply semantic_step_keeps in E1 as (Hk1 & Ha1 & Hm1); [|done]. apply fit_window_ok in E2 as (_ & _ & Hg2); [|done].
  assert (Hfield : forall k, k ∈ dr_mandatory_keys d -> k ∈ (dr_reduced d).*1 /\ kept_field k (dr_reduced d) (pm_payload r)).
  { intros k Hk. assert (Hin : k ∈ (dr_reduced d).*1) by (rewrite Hkeys; rewrite Hm in Hk; by eapply mandatory_present).
    split; [done|]. apply (kept_field_then k _ (dr_reduced d1)); [by apply Hk1|]. rewrite Epay, effective_field.
    - by apply Hg2; rewrite Hm1.
    - rewrite Hm in Hk. by eapply mandatory_not_pack. }
  split_and!.
  - rewrite Eest. unfold hard_input_tokens in Hle. lia.
  - exact Eest.
  - intros k Hk Hr. destruct (Hfield k Hk) as [_ (v & v' & Hv & Hv' & Hvv)]. exists v, v'. by rewrite <- Hg.
  - intros k Hk. destruct (Hfield k Hk) as [_ (v & v' & _ & Hv' & _)]. apply jget_is_Some. eauto.
Qed.

(** ** Preparing a context is work on the ledger *)

Section program.
Context (ok : LedgerCallSpec -> handlers -> Prop) (okt : LedgerCallSpec -> Prop).

Lemma ret_program {X} (r : result lexc X) : ledger_program ok okt X (fun w => (w, r)).
Proof. exact (lp_read ok okt X (fun _ => r)). Qed.

Lemma try_compact_program m : ledger_program ok okt json m -> ledger_program ok okt (option json) (try_compact m).
Proof.
  intros Hm. apply lp_catch; [apply lp_bind; [done|intros c; apply ret_program]|].
  intros e. unfold budget_unavailable_handler. repeat case_match; apply ret_program.
Qed.

Lemma semantic_step_program operation schema sp compact d :
  (forall f request, compact = Some f -> ledger_program ok okt json (f request)) ->
  ledger_program ok okt Draft (semantic_step p operation schema sp compact d).
Proof.
  intros Hf. unfold semantic_step. destruct compact as [f|]; [|apply ret_program].
  destruct (_ && _ && _); [|apply ret_program]. apply lp_bind; [apply (lp_read ok okt)|]. intros b.
  destruct (_ <=? _)%Z; [|apply ret_program]. apply lp_bind; [apply try_compact_program; eauto|]. intros c.
  assert (Hv : forall v, ledger_program ok okt Draft (r ← liftR (validate_semantic_view v (dr_reduced d) (dr_mandatory_keys d));
    mret (mkDraft (dr_manifest d) (dr_original d) r (dr_omitted d) (dr_before_tokens d) (estimate sp r) (dr_mandatory_keys d) "SEMANTIC"))).
  { intros v. apply lp_bind; [apply ret_program|]. intros r. apply ret_program. }
  destruct c as [[]|]; first [apply ret_program | apply Hv].
Qed.

(** When the compactor works through the ledger, so does [prepare]: the
    guarantees of ledger programs hold of it, and of a worker that calls it. *)
Lemma prepare_program has_ledger operation sequence prompt schema sp payload compact base :
  (forall k, ok (pack_spec p operation sequence prompt schema k) pack_handlers) ->
  (forall f request, compact = Some f -> ledger_program ok okt json (f request)) ->
  ledger_program ok okt PreparedModelContext (prepare p has_ledger operation sequence prompt schema sp payload compact base).
Proof.
  intros Hok Hf. unfold prepare. destruct (String.eqb (cp_mode p) "off"); [apply ret_program|].
  destruct has_ledger; [|apply ret_program]. simpl negb. cbv iota. apply lp_bind.
  { unfold lift_exc. destruct (build_draft _ _ _ _) as [|[]]; apply ret_program. }
  intros d. apply lp_bind; [by apply semantic_step_program|]. intros d1. apply lp_bind; [apply ret_program|]. intros d2.
  apply lp_bind; [|intros o; destruct (_ && _); apply ret_program]. unfold execute_derivation. simpl negb.
  apply lp_execute; [apply Hok|apply ret_program].
Qed.
End program.
End prepare.

(** * Context packs validate and read back *)
Open Scope string_scope.

Section roundtrip.
Context `{Builtins} `{JsonLoads} `{LedgerEnv} `{FloatEq} `{TokenEstimator} `{ContextEnv} (p : ContextPolicy).

Lemma request_hash_canon j : request_hash (canon j) = request_hash j.
Proof. unfold request_hash, sha256_json. by rewrite canonical_json_canon. Qed.

Lemma request_hash_tagged j : String.prefix "sha256:" (request_hash j) = true.
Proof. unfold request_hash, sha256_json. by destruct (sha256_hex _). Qed.

(** The source of a manifest, as [canon] orders its members. *)
Lemma source_valid_canon s : String.prefix "sha256:" (cs_content_hash s) = true -> source_valid (canon (source_json s)) = true.
Proof. intros Hp. by rewrite <- Hp. Qed.

Lemma manifest_sources_valid operation original s :
  s ∈ sm_sources (source_manifest operation original) -> source_valid (canon (source_json s)) = true.
Proof.
  intros (kv & -> & _)%list_elem_of_fmap_1. apply source_valid_canon. simpl. apply request_hash_tagged.
Qed.

Definition canon_members (m : mapping) : mapping := sort_by key_leb (map (fun kv => (kv.1, canon kv.2)) m).

Definition manifest_members (m : SourceManifest) : mapping := (manifest_body m ++ [("manifest_hash", JStr (sm_manifest_hash m))])%list.

Lemma manifest_valid_canon operation original :
  manifest_valid (canon_members (manifest_members (source_manifest operation original))) = true.
Proof.
  unfold manifest_valid. rewrite !andb_true_iff. split_and!.
  - reflexivity.
  - change (forallb source_valid (map canon (map source_json (sm_sources (source_manifest operation original)))) = true).
    apply forallb_forall. intros x Hx%list_elem_of_In. apply list_elem_of_fmap_1 in Hx as (y & -> & Hy).
    apply list_elem_of_fmap_1 in Hy as (s & -> & Hs). by eapply manifest_sources_valid.
  - apply bool_decide_eq_true.
    change (Some (sm_manifest_hash (source_manifest operation original)) =
            Some (request_hash (canon (JObj (manifest_body (source_manifest operation original)))))).
    by rewrite request_hash_canon.
Qed.

Definition named_omission (o : Omission) : Prop := truthy (om_source_ref o) = true /\ truthy (om_reason o) = true.

(** What a draft has to satisfy for its pack to be valid. *)
Definition draft_ok (operation : string) (original : mapping) (d : Draft) : Prop :=
  dr_manifest d = source_manifest operation original /\ (0 <= dr_before_tokens d)%Z /\ (0 <= dr_after_tokens d)%Z /\
  Forall named_omission (dr_omitted d).

Lemma policy_nonnegative : check_policy p = Ok p ->
  (0 <= cp_target_input_tokens p /\ 0 <= hard_input_tokens p /\ 0 <= cp_reserved_output_tokens p /\
   0 <= cp_emergency_margin_tokens p)%Z.
Proof.
  unfold check_policy. repeat (match goal with |- (if ?b then _ else _) = _ -> _ => destruct b eqn:? end; [done|]).
  intros _. simpl in *. repeat match goal with E : _ || _ = false |- _ => apply orb_false_iff in E as [? ?] end.
  repeat match goal with E : (_ <? _)%Z = false |- _ => apply Z.ltb_ge in E | E : (_ <=? _)%Z = false |- _ => apply Z.leb_gt in E end. lia.
Qed.

Lemma accounting_valid_canon b a t h r m :
  (0 <= b /\ 0 <= a /\ 0 <= t /\ 0 <= h /\ 0 <= r /\ 0 <= m)%Z ->
  accounting_valid (canon (accounting_json (mkAccounting b a t h r m))) = true.
Proof.
  intros (Hb & Ha & Ht & Hh & Hr & Hm). unfold accounting_valid. simpl canon. rewrite andb_true_iff. split; [reflexivity|].
  simpl. repeat (match goal with |- _ && _ = true => apply andb_true_iff; split end; [by apply Z.leb_le|]). done.
Qed.

Lemma omission_valid_canon o :
  truthy (om_source_ref o) = true -> truthy (om_reason o) = true -> omission_valid (canon (omission_json o)) = true.
Proof. intros Hs Hr. change (true && truthy (om_source_ref o) && truthy (om_reason o) = true). by rewrite Hs, Hr. Qed.

(** The pack of a draft passes its validator in the form that is recorded. *)
Lemma pack_valid_canon operation sequence prompt schema original d :
  check_policy p = Ok p -> draft_ok operation original d ->
  validate_context_pack_value (canon (JObj (pack_members (make_pack p operation sequence prompt schema d))))
  = Ok (canon (JObj (pack_members (make_pack p operation sequence prompt schema d)))).
Proof.
  intros Hp (Hm & Hb & Ha & Ho). destruct (policy_nonnegative Hp) as (Ht & Hh & Hr & He).
  set (pack := make_pack p operation sequence prompt schema d).
  change (canon (JObj (pack_members pack))) with (JObj (canon_members (pack_members pack))).
  unfold validate_context_pack_value.
  change (negb (exact_keys pack_keys (canon_members (pack_members pack)))
          || negb (bool_decide (jget_str "schema_version" (canon_members (pack_members pack)) = Some "context-pack.v1"))) with false.
  change (jget "operation_view" (canon_members (pack_members pack))) with (Some (canon (JObj (dr_reduced d)))).
  change (jget "source_manifest" (canon_members (pack_members pack)))
    with (Some (JObj (canon_members (manifest_members (dr_manifest d))))).
  change (canon (JObj (dr_reduced d))) with (JObj (canon_members (dr_reduced d))). cbv iota.
  rewrite Hm at 1. rewrite manifest_valid_canon. simpl negb at 1. cbv iota.
  change (jget "token_accounting" (canon_members (pack_members pack)))
    with (Some (canon (accounting_json (pk_token_accounting pack)))).
  cbv iota. unfold pack at 1. unfold make_pack at 1. cbn [pk_token_accounting]. rewrite accounting_valid_canon by done.
  simpl negb at 1. cbv iota.
  change (jget "omitted_sources" (canon_members (pack_members pack)))
    with (Some (JArr (map canon (map omission_json (dr_omitted d))))). cbv iota.
  assert (Hom : forallb omission_valid (map canon (map omission_json (dr_omitted d))) = true).
  { apply forallb_forall. intros x Hx%list_elem_of_In. apply list_elem_of_fmap_1 in Hx as (y & -> & Hy).
    apply list_elem_of_fmap_1 in Hy as (o & -> & Hx). rewrite Forall_forall in Ho. destruct (Ho o Hx). by apply omission_valid_canon. }
  rewrite Hom. simpl negb at 1. cbv iota. rewrite bool_decide_true; [done|].
  change (jget_str "pack_id" (canon_members (pack_members pack))) with (Some (pk_pack_id pack)).
  f_equal. unfold pack, make_pack. cbn [pk_pack_id]. f_equal. unfold identity_seed.
  change (JObj (canon_members (dr_reduced d))) with (canon (JObj (dr_reduced d))). rewrite request_hash_canon. reflexivity.
Qed.

Lemma reduce_confirmed_named keep confirmed : Forall named_omission (reduce_confirmed keep confirmed).2.
Proof.
  induction confirmed as [|[| | | | | |item] rest IH]; simpl; try done. destruct (reduce_confirmed keep rest) as [out om].
  destruct (_ && _); [|done]. simpl. by constructor.
Qed.

Lemma bound_collection_named st kl :
  Forall named_omission st.2 -> truthy kl.1 = true -> Forall named_omission (bound_collection st kl).2.
Proof.
  destruct st as [m o], kl as [k l]. simpl. intros Ho Hk. destruct (jget k m) as [[| | | | |vs|]|]; try done. simpl.
  destruct (_ <? _)%Z; [|done]. apply Forall_app. split; [done|]. by repeat constructor.
Qed.

Lemma reduce_unit_scope_named scope operation so :
  reduce_unit_scope scope operation = Ok so -> Forall named_omission so.2.
Proof.
  unfold reduce_unit_scope. destruct (jget "confirmed_context" scope) as [[| | | | |confirmed|]|]; try (intros E; by injection E as <-).
  intros E. apply result_bind_Ok in E as (deps & _ & E).
  pose proof (reduce_confirmed_named (map py_str deps ++ (if String.eqb operation "revise_unit"
     then [str_or_empty "current_unit_key" scope] else []))%list confirmed) as Hn.
  destruct (reduce_confirmed _ _) as [out om]. by injection E as <-.
Qed.

Lemma deterministic_reduce_named operation m mandatory ro :
  deterministic_reduce p operation m mandatory = Ok ro -> Forall named_omission ro.2.
Proof.
  unfold deterministic_reduce. intros E. apply result_bind_Ok in E as (st & Est & E).
  assert (Hst : Forall named_omission st.2).
  { destruct (jget "unit_scope" m) as [[| | | | | |scope]|]; try (by injection Est as <-).
    apply result_bind_Ok in Est as (so & Hso & Est). injection Est as <-. simpl. by eapply reduce_unit_scope_named. }
  destruct (fold_left _ _ st) as [red om] eqn:Ef. injection E as <-. simpl. apply (f_equal snd) in Ef. cbn [fold_left snd] in Ef.
  rewrite <- Ef. by repeat apply bound_collection_named.
Qed.

Lemma emergency_loop_named sp optional m o :
  EmptyString ∉ optional -> Forall named_omission o -> Forall named_omission (emergency_loop p sp optional m o).2.
Proof.
  revert m o. induction optional as [|k optional IH]; intros m o Hne Ho; simpl; [done|]. destruct (_ <=? _)%Z; [done|].
  apply IH; [set_solver|]. apply Forall_app. split; [done|]. repeat constructor. destruct k; [set_solver|done].
Qed.

Lemma stages_draft_ok operation schema sp payload compact required d d1 d2 w w' :
  (forall s b : string, 0 <= estimate_request s b)%Z -> EmptyString ∉ payload.*1 ->
  build_draft p operation sp payload = Ok d -> semantic_step p operation schema sp compact d w = (w', Ok d1) ->
  fit_window p sp required d1 = Ok d2 -> draft_ok operation payload d2.
Proof.
  intros Hest Hne Ed E1 E2.
  assert (Hd : draft_ok operation payload d /\ EmptyString ∉ (dr_reduced d).*1).
  { pose proof (build_draft_spec p operation sp payload d Ed) as (_ & Ha & Hb & Hm & Hk & _). rewrite Hk. split; [|done].
    split_and!; [done|by rewrite Hb; apply Hest|by rewrite Ha; apply Hest|]. unfold build_draft in Ed.
    destruct (_ <=? _)%Z; [by injection Ed as <-|]. apply result_bind_Ok in Ed as (ro & Er & Ed). injection Ed as <-.
    by eapply deterministic_reduce_named. }
  assert (Hd1 : draft_ok operation payload d1 /\ EmptyString ∉ (dr_reduced d1).*1).
  { destruct Hd as [(Hm & Hb & Ha & Ho) Hk]. apply semantic_step_cases in E1 as [->|(c & view & Hv & ->)]; [done|].
    destruct (semantic_view_spec _ _ _ _ Hv) as (_ & _ & _ & Hkeys). simpl. split; [|by intros Hin%Hkeys].
    split_and!; try done. simpl. apply Hest. }
  destruct Hd1 as [(Hm & Hb & Ha & Ho) Hk]. unfold fit_window in E2.
  destruct (hard_input_tokens p <? dr_after_tokens _)%Z; [done|]. injection E2 as <-.
  destruct (_ || _); [|by split_and!]. unfold emergency_reduce.
  assert (Hopt : EmptyString ∉ optional_keys d1) by (rewrite optional_keys_elem; tauto).
  pose proof (emergency_loop_named sp (optional_keys d1) (dr_reduced d1) (dr_omitted d1) Hopt Ho) as Hn.
  destruct (emergency_loop _ _ _ _ _) as [r om]. split_and!; try done. simpl. apply Hest.
Qed.

Lemma forallb_map_true {X Y : Type} (f : X -> Y) (q : Y -> bool) (l : list X) : (forall x, q (f x) = true) -> forallb q (map f l) = true.
Proof. intros Hq. induction l as [|x l IH]; [done|]. simpl. by rewrite Hq. Qed.

(** A context pack validates and reads back.  For every payload without an
    empty key, the pack that [prepare] builds from the stages of its draft
    passes its own validator in the canonical form in which it is recorded, and
    decoding the recorded artifact gives exactly that form back. *)
Theorem context_pack_roundtrip `{!ReadsCanonical} (operation : string) (sequence : Z) (prompt schema sp : string)
    (payload : mapping) (compact : option compactor) (required : bool) (d d1 d2 : Draft) (w w' : lworld) (a : RunArtifact) :
  check_policy p = Ok p -> (forall s b : string, 0 <= estimate_request s b)%Z -> EmptyString ∉ payload.*1 ->
  build_draft p operation sp payload = Ok d -> semantic_step p operation schema sp compact d w = (w', Ok d1) ->
  fit_window p sp required d1 = Ok d2 -> floatless (JObj (dr_reduced d2)) = true ->
  ra_artifact_type a = "CONTEXT_PACK" ->
  ra_content a = encode_outcome "context-pack.v1" (JObj (pack_members (make_pack p operation sequence prompt schema d2))) ->
  ra_content_hash a = sha256_hex (ra_content a) ->
  decode_context_pack_artifact a = Ok (canon (JObj (pack_members (make_pack p operation sequence prompt schema d2)))).
Proof.
  intros Hp Hest Hne Ed E1 E2 Hfl Hty Hcontent Hhash.
  assert (Hok : draft_ok operation payload d2) by (by eapply stages_draft_ok).
  unfold decode_context_pack_artifact. rewrite Hty, Hhash, Hcontent, !String.eqb_refl. cbv iota beta delta [negb].
  rewrite decode_encoded_outcome; [by eapply pack_valid_canon|].
  simpl in *. rewrite Hfl, (proj1 Hok). simpl. rewrite !forallb_map_true; [done|done|done].
Qed.
End roundtrip.

Open Scope string_scope.

(** A digest short enough to read: the beginning of the text. *)
#[local] Instance pack_builtins : Builtins :=
  {| repr_container := @repr_container example_builtins; int_of_str := @int_of_str example_builtins;
     lower := @lower example_builtins; sha256_hex := str_take 12 |}.
#[local] Instance pack_loads : JsonLoads := loads.
#[local] Instance pack_ledger_env : LedgerEnv := {| sink_fault _ := NoFault; ledger_run_id := "run-1" |}.
#[local] Existing Instance conservative_estimator.
#[local] Instance pack_env : ContextEnv := {| upper s := s; context_task_id := "task-1" |}.
#[local] Instance no_floats : FloatEq := {| float_eqb _ _ := false; float_eqb_int _ _ := false |}.

Lemma pack_reads : ReadsCanonical.
Proof. intros j Hj. unfold json_loads, pack_loads, loads. by rewrite read_canonical. Qed.

Definition demo_policy : ContextPolicy :=
  mkPolicy "context-policy.v1" "enforce" 700 100 70 300 100 true 100 2 2 10.

Fixpoint repeated (n : nat) (s : string) : string := match n with O => EmptyString | S n' => s +:+ repeated n' s end.

Definition demo_payload : mapping :=
  [("task_message", JStr "export"); ("instruction", JStr "choose"); ("run_id", JStr "run-1");
   ("observations", JArr [JStr "a"; JStr "a"; JStr "b"; JStr "c"]); ("notes", JStr (repeated 12 "monthly "));
   ("hints", JArr [JStr "one"; JStr "two"])].

(** A compactor that keeps the mandatory fields and one hint. *)
Definition demo_view : mapping :=
  [("task_message", JStr "export"); ("instruction", JStr "choose"); ("run_id", JStr "run-1"); ("hints", JArr [JStr "two"])].

Definition demo_compactor : compactor := fun _ => mret (JObj [("operation_view", JObj demo_view)]).

Definition demo_limits : RunBudget := mkRunBudget (fun _ => 10)%Z.

Definition pack_world : lworld :=
  mkLWorld (lw_durable new_run_world) 0 [] (mkLState ∅ ∅ (mkBudgetState demo_limits no_budget no_budget)).

Definition no_context : PreparedModelContext := mkPrepared [] EmptyString EmptyString 0 None EmptyString EmptyString None.

#[local] Abbreviation action := "select_investigation_action".
#[local] Abbreviation demo_prepare compact := (prepare demo_policy true action 1 "v1" "action.v1" "prompt" demo_payload compact None).

Definition result_or {A} (dflt : A) (r : result lexc A) : A := match r with Ok a => a | Raise _ => dflt end.

Definition prepared_by_compactor : PreparedModelContext :=
  result_or no_context (demo_prepare (Some demo_compactor) pack_world).2.

Example compacted_payload :
  take 4 (pm_payload prepared_by_compactor) = demo_view /\ compacted prepared_by_compactor = true /\
  lw_calls (demo_prepare (Some demo_compactor) pack_world).1 = ["context:build:select_investigation_action:sequence1"].
Proof. vm_compute. done. Qed.

Lemma prepared_within_window_witness :
  kept_field "task_message" demo_payload (pm_payload prepared_by_compactor) /\
  (pm_estimated_input_tokens prepared_by_compactor + 300 + 100 <= 700)%Z.
Proof.
  assert (Hrun : demo_prepare (Some demo_compactor) pack_world
                 = ((demo_prepare (Some demo_compactor) pack_world).1, Ok prepared_by_compactor))
    by (vm_compute; reflexivity).
  assert (Hk : "task_message" ∈ mandatory_keys action demo_payload) by (refine (bool_decide_unpack _ _); vm_compute; exact I).
  assert (Hr : "task_message" ∉ reducible) by (refine (bool_decide_unpack _ _); vm_compute; exact I).
  destruct (prepared_within_window demo_policy action 1 "v1" "action.v1" "prompt" demo_payload (Some demo_compactor) None
    pack_world (demo_prepare (Some demo_compactor) pack_world).1 prepared_by_compactor eq_refl Hrun) as (Hw & _ & Hf & _).
  split; [exact (Hf "task_message" Hk Hr)|exact Hw].
Defined.

(** The draft of the payload, and what the compactor makes of it. *)
Definition no_draft : Draft := mkDraft (mkSourceManifest "" "" "" "" [] "") [] [] [] 0 0 [] "".

Definition demo_draft : Draft :=
  match build_draft demo_policy action "prompt" demo_payload with Ok d => d | Raise _ => no_draft end.

Definition compacted_draft : Draft :=
  result_or no_draft (semantic_step demo_policy action "action.v1" "prompt" (Some demo_compactor) demo_draft pack_world).2.

Lemma semantic_step_extractive_witness :
  dr_reduced compacted_draft = demo_view /\
  forall t, t ∈ texts (JObj demo_view) -> t ∈ texts (JObj (dr_reduced demo_draft)).
Proof.
  assert (Hstep : semantic_step demo_policy action "action.v1" "prompt" (Some demo_compactor) demo_draft pack_world
                  = (pack_world, Ok compacted_draft)) by (vm_compute; reflexivity).
  split; [vm_compute; reflexivity|].
  exact (proj1 (semantic_step_extractive demo_policy action "action.v1" "prompt" (Some demo_compactor) demo_draft compacted_draft
    pack_world pack_world Hstep)).
Defined.

(** Without a compactor the emergency reduction leaves out the least important
    optional fields, until the target is met. *)
Definition emergency_draft : Draft := result_or no_draft (fit_window demo_policy "prompt" true demo_draft).

Definition pack_artifact : RunArtifact :=
  build_artifact "run-1:ledger:context:build:select_investigation_action:sequence1:outcome" "CONTEXT_PACK" "sha256:req"
    "context-pack.v1" (JObj (pack_members (make_pack demo_policy action 1 "v1" "action.v1" emergency_draft))).

Lemma context_pack_roundtrip_witness :
  map om_source_ref (dr_omitted emergency_draft) = ["observations"; "observations"; "notes"] /\
  decode_context_pack_artifact pack_artifact
  = Ok (canon (JObj (pack_members (make_pack demo_policy action 1 "v1" "action.v1" emergency_draft)))).
Proof.
  assert (Hp : check_policy demo_policy = Ok demo_policy) by (vm_compute; reflexivity).
  assert (Hest : forall s b : string, (0 <= estimate_request s b)%Z).
  { intros s b. unfold estimate_request, conservative_estimator, conservative_estimate. lia. }
  assert (Hne : EmptyString ∉ demo_payload.*1) by (refine (bool_decide_unpack _ _); vm_compute; exact I).
  assert (Hd : build_draft demo_policy action "prompt" demo_payload = Ok demo_draft) by (vm_compute; reflexivity).
  assert (Hs : semantic_step demo_policy action "action.v1" "prompt" None demo_draft pack_world = (pack_world, Ok demo_draft))
    by reflexivity.
  assert (Hf : fit_window demo_policy "prompt" true demo_draft = Ok emergency_draft) by (vm_compute; reflexivity).
  assert (Hfl : floatless (JObj (dr_reduced emergency_draft)) = true) by (vm_compute; reflexivity).
  split; [vm_compute; reflexivity|].
  exact (context_pack_roundtrip (H5 := pack_reads) demo_policy action 1 "v1" "action.v1" "prompt" demo_payload None true
    demo_draft demo_draft emergency_draft pack_world pack_world pack_artifact Hp Hest Hne Hd Hs Hf Hfl eq_refl eq_refl eq_refl).
Defined.

Lemma window_missed_by_mandatory_witness :
  jget "task_message" (dr_reduced emergency_draft) = Some (JStr "export").
Proof.
  assert (Hp : check_policy demo_policy = Ok demo_policy) by (vm_compute; reflexivity).
  assert (Hnd : NoDup (dr_reduced demo_draft).*1) by (refine (bool_decide_unpack _ _); vm_compute; exact I).
  assert (Ha : dr_after_tokens demo_draft = estimate "prompt" (dr_reduced demo_draft)) by (vm_compute; reflexivity).
  assert (Hf : fit_window demo_policy "prompt" true demo_draft = Ok emergency_draft) by (vm_compute; reflexivity).
  assert (Hk : "task_message" ∈ dr_mandatory_keys demo_draft) by (refine (bool_decide_unpack _ _); vm_compute; exact I).
  pose proof (window_missed_by_mandatory demo_policy demo_draft "prompt" true Hp Hnd Ha) as Hthm. rewrite Hf in Hthm.
  rewrite (proj2 (proj2 Hthm) "task_message" Hk). vm_compute. reflexivity.
Defined.

(** A policy under which the mandatory fields alone are too long. *)
Definition tight_policy : ContextPolicy := mkPolicy "context-policy.v1" "enforce" 60 40 30 10 5 false 100 2 2 60.

Example tight_window :
  check_policy tight_policy = Ok tight_policy /\
  (prepare tight_policy true action 1 "v1" "action.v1" "prompt" demo_payload None None pack_world).2 = Raise window_error.
Proof. vm_compute. done. Qed.

(** The values of an accepted view are equal, not identical: [True] is accepted
    for [1]. *)
Lemma accepted_view_changes_value :
  validate_semantic_view (JObj [("revision", JBool true)]) [("revision", JInt 1)] ["revision"] = Ok [("revision", JBool true)].
Proof. reflexivity. Qed.

(** Settings of the policy from the environment. *)
Example policy_defaults :
  policy_from_environment (fun _ => None)
  = Ok (mkPolicy "context-policy.off" "off" 64000 40000 24000 4096 2048 false 2048 12 12 2000).
Proof. reflexivity. Qed.

Example policy_rejects_target :
  policy_from_environment (fun k => if String.eqb k "PRD_AGENT_CONTEXT_TARGET_INPUT_TOKENS" then Some "50000" else None) = Raise ValueError.
Proof. vm_compute. reflexivity. Qed.

Example segments : safe_segment "Plan Outline!" = "plan-outline" /\ safe_segment "???" = "unknown".
Proof. vm_compute. done. Qed.
