(* ===== verification/UnitModels.v ===== *)
(** * Scoped units of the worker: outlines, scopes, candidates and patches

    [agent/unit/models.py] of agent-python.  A constructor with a
    [__post_init__] is a function that checks and returns the record; the
    derived hashes are functions of the record.  Maps of the sources whose keys
    were checked to be distinct are looked up in the list they are built from. *)
From stdpp Require Import base list sets strings pretty.
From Stdlib Require Import ZArith.
From S2P Require Import Prelude.
From S2P Require Import PyDict.
From S2P Require Import PyText.
From S2P Require Import Json.
From S2P Require Import CanonicalJson.
Open Scope string_scope.

(** Sequencing of results. *)
#[global] Instance result_mret E : MRet (result E) := fun A => Ok.
#[global] Instance result_mbind E : MBind (result E) := fun A B k r => result_bind k r.

(** [if not condition: raise ValueError(...)]. *)
Definition require (b : bool) : result exc unit := if b then Ok tt else Raise ValueError.

(** ** Enumerations *)

Inductive RunPurpose : Type := PLAN_OUTLINE | GENERATE_UNIT | REVISE_UNIT | FULL_REVIEW.
Inductive RunOutputKind : Type := OUTLINE_CANDIDATE | UNIT_CANDIDATE | UNIT_PATCH | FULL_REVIEW_REPORT.

#[global] Instance RunPurpose_eq_dec : EqDecision RunPurpose.
Proof. solve_decision. Defined.
#[global] Instance RunOutputKind_eq_dec : EqDecision RunOutputKind.
Proof. solve_decision. Defined.

Definition purpose_value (p : RunPurpose) : string :=
  match p with
  | PLAN_OUTLINE => "PLAN_OUTLINE" | GENERATE_UNIT => "GENERATE_UNIT"
  | REVISE_UNIT => "REVISE_UNIT" | FULL_REVIEW => "FULL_REVIEW"
  end.

(** [_OUTPUT_BY_PURPOSE]. *)
Definition output_by_purpose (p : RunPurpose) : RunOutputKind :=
  match p with
  | PLAN_OUTLINE => OUTLINE_CANDIDATE | GENERATE_UNIT => UNIT_CANDIDATE
  | REVISE_UNIT => UNIT_PATCH | FULL_REVIEW => FULL_REVIEW_REPORT
  end.

(** The claims of [agent/draft/models.py]. *)
Module DraftClaim.
Inductive ClaimType : Type :=
  | USER_REQUIREMENT | CURRENT_STATE | CONSTRAINT | PROPOSED_BEHAVIOR | ACCEPTANCE_CRITERION | ASSUMPTION.
Inductive ClaimCriticality : Type := BLOCKING | IMPORTANT | INFORMATIONAL.

Definition type_value (t : ClaimType) : string :=
  match t with
  | USER_REQUIREMENT => "USER_REQUIREMENT" | CURRENT_STATE => "CURRENT_STATE" | CONSTRAINT => "CONSTRAINT"
  | PROPOSED_BEHAVIOR => "PROPOSED_BEHAVIOR" | ACCEPTANCE_CRITERION => "ACCEPTANCE_CRITERION" | ASSUMPTION => "ASSUMPTION"
  end.

Definition criticality_value (c : ClaimCriticality) : string :=
  match c with BLOCKING => "BLOCKING" | IMPORTANT => "IMPORTANT" | INFORMATIONAL => "INFORMATIONAL" end.

(** [ClaimType(value)] and [ClaimCriticality(value)]. *)
Definition read_type (s : string) : result exc ClaimType :=
  match List.find (fun t => String.eqb (type_value t) s)
          [USER_REQUIREMENT; CURRENT_STATE; CONSTRAINT; PROPOSED_BEHAVIOR; ACCEPTANCE_CRITERION; ASSUMPTION] with
  | Some t => Ok t
  | None => Raise ValueError
  end.

Definition read_criticality (s : string) : result exc ClaimCriticality :=
  match List.find (fun c => String.eqb (criticality_value c) s) [BLOCKING; IMPORTANT; INFORMATIONAL] with
  | Some c => Ok c
  | None => Raise ValueError
  end.
End DraftClaim.

(** ** Hashes *)

(** [value.removeprefix("sha256:")]. *)
Definition bare_hash (value : string) : string := default value (drop_prefix "sha256:" value).

Definition hex_char (c : Ascii.ascii) : bool :=
  let n := Ascii.nat_of_ascii c in (48 <=? n)%nat && (n <=? 57)%nat || (97 <=? n)%nat && (n <=? 102)%nat.

Fixpoint all_chars (p : Ascii.ascii -> bool) (s : string) : bool :=
  match s with EmptyString => true | String c s' => p c && all_chars p s' end.

Definition is_empty {A} (l : list A) : bool := match l with [] => true | _ => false end.

(** [len(xs) == len(set(xs))]. *)
Definition distinct (l : list string) : bool := bool_decide (NoDup l).

Section models.
Context `{Builtins}.

Definition is_hash (value : string) : bool :=
  Nat.eqb (str_len (bare_hash value)) 64 && all_chars hex_char (lower (bare_hash value)).

Definition hash_json (m : list (string * json)) : string := sha256_hex (canonical_json (JObj m)).

(** [_mappings] and [_strings]; [None] is an absent value. *)
Definition mappings (value : option json) : result exc (list (list (string * json))) :=
  match value with
  | Some (JArr l) => result_map (fun j => match j with JObj m => Ok m | _ => Raise ValueError end) l
  | _ => Raise ValueError
  end.

Definition json_strings (value : option json) : result exc (list string) :=
  match value with
  | None | Some JNull => Ok []
  | Some (JArr l) =>
      let items := map (fun j => strip (py_str j)) l in
      require (forallb truthy items && distinct items) ;; Ok items
  | _ => Raise ValueError
  end.

Definition int_get (key : string) (dflt : Z) (m : list (string * json)) : result exc Z :=
  py_int (default (JInt dflt) (jget key m)).

Definition stripped_get (key : string) (m : list (string * json)) : string := strip (str_get key EmptyString m).

Definition strs (l : list string) : json := JArr (map JStr l).

(** ** Outlines *)

Record OutlineNode := mkNode {
  on_node_key : string;
  on_title : string;
  on_ordinal : Z;
  on_unit_key : string;
  on_parent_key : string;
  on_questions : list string;
  on_required_content : list string
}.

Definition node_json (n : OutlineNode) : json :=
  JObj [("node_key", JStr (on_node_key n)); ("parent_key", JStr (on_parent_key n)); ("ordinal", JInt (on_ordinal n));
        ("title", JStr (on_title n)); ("questions", strs (on_questions n));
        ("required_content", strs (on_required_content n)); ("unit_key", JStr (on_unit_key n))].

Record OutlineUnit := mkUnit {
  ou_unit_key : string;
  ou_title : string;
  ou_ordinal : Z;
  ou_node_keys : list string;
  ou_depends_on : list string
}.

Definition unit_json (u : OutlineUnit) : json :=
  JObj [("unit_key", JStr (ou_unit_key u)); ("title", JStr (ou_title u)); ("ordinal", JInt (ou_ordinal u));
        ("node_keys", strs (ou_node_keys u)); ("depends_on", strs (ou_depends_on u))].

Record OutlineCandidate := mkOutline {
  oc_title : string;
  oc_requirement_size : string;
  oc_nodes : list OutlineNode;
  oc_units : list OutlineUnit;
  oc_schema_version : string
}.

Definition outline_payload (c : OutlineCandidate) : list (string * json) :=
  [("schema_version", JStr (oc_schema_version c)); ("title", JStr (oc_title c));
   ("requirement_size", JStr (oc_requirement_size c)); ("nodes", JArr (map node_json (oc_nodes c)));
   ("units", JArr (map unit_json (oc_units c)))].

Definition outline_hash (c : OutlineCandidate) : string := hash_json (outline_payload c).

Definition outline_json (c : OutlineCandidate) : list (string * json) :=
  outline_payload c ++ [("content_hash", JStr (outline_hash c))].

(** [node_map] and [unit_map]. *)
Definition find_node (nodes : list OutlineNode) (key : string) : option OutlineNode :=
  List.find (fun n => String.eqb (on_node_key n) key) nodes.

Definition find_unit (units : list OutlineUnit) (key : string) : option OutlineUnit :=
  List.find (fun u => String.eqb (ou_unit_key u) key) units.

(** The [while parent] loop; three rounds are enough, because the third one
    raises. *)
Fixpoint walk_parents (fuel : nat) (nodes : list OutlineNode) (seen : list string) (depth : nat) (parent : string)
    : result exc unit :=
  if negb (truthy parent) then Ok tt
  else match fuel with
  | O => Raise (External "RecursionError")
  | S fuel' =>
      match find_node nodes parent with
      | None => Raise ValueError
      | Some n =>
          if bool_decide (parent ∈ seen) then Raise ValueError
          else if (3 <? S depth)%nat then Raise ValueError
          else walk_parents fuel' nodes (parent :: seen) (S depth) (on_parent_key n)
      end
  end.

Definition check_node (c : OutlineCandidate) (n : OutlineNode) : result exc unit :=
  require (truthy (on_title n) && (0 <=? on_ordinal n)%Z
           && bool_decide (on_unit_key n ∈ map ou_unit_key (oc_units c))) ;;
  walk_parents 3 (oc_nodes c) [on_node_key n] 1 (on_parent_key n).

(** The nodes of one unit; [assigned] are the ones given to a unit before. *)
Fixpoint assign_nodes (c : OutlineCandidate) (unit_key : string) (keys assigned : list string) : result exc (list string) :=
  match keys with
  | [] => Ok assigned
  | k :: rest =>
      match find_node (oc_nodes c) k with
      | Some n =>
          if negb (String.eqb (on_unit_key n) unit_key) || bool_decide (k ∈ assigned) then Raise ValueError
          else assign_nodes c unit_key rest (k :: assigned)
      | None => Raise ValueError
      end
  end.

Fixpoint check_units (c : OutlineCandidate) (units : list OutlineUnit) (assigned : list string) : result exc (list string) :=
  match units with
  | [] => Ok assigned
  | u :: rest =>
      require (truthy (ou_title u) && (0 <=? ou_ordinal u)%Z && negb (is_empty (ou_node_keys u))) ;;
      assigned' ← assign_nodes c (ou_unit_key u) (ou_node_keys u) assigned;
      require (forallb (fun d => bool_decide (d ∈ map ou_unit_key (oc_units c)) && negb (String.eqb d (ou_unit_key u)))
                 (ou_depends_on u)) ;;
      check_units c rest assigned'
  end.

(** [visit]; [visiting] is restored when a call returns.  One call per unit on
    the path and one more are enough. *)
Fixpoint visit (fuel : nat) (units : list OutlineUnit) (visiting : list string) (key : string) (visited : list string)
    : result exc (list string) :=
  if bool_decide (key ∈ visiting) then Raise ValueError
  else if bool_decide (key ∈ visited) then Ok visited
  else match fuel with
  | O => Raise (External "RecursionError")
  | S fuel' =>
      match find_unit units key with
      | None => Raise KeyError
      | Some u =>
          visited' ← (fix each (deps visited : list string) : result exc (list string) :=
                        match deps with
                        | [] => Ok visited
                        | d :: rest => visited' ← visit fuel' units (key :: visiting) d visited; each rest visited'
                        end) (dedup (ou_depends_on u)) visited;
          Ok (key :: visited')
      end
  end.

(** [_validate_dependency_graph]. *)
Fixpoint visit_all (units : list OutlineUnit) (keys visited : list string) : result exc (list string) :=
  match keys with
  | [] => Ok visited
  | k :: rest => visited' ← visit (S (length units)) units [] k visited; visit_all units rest visited'
  end.

Definition validate_dependency_graph (units : list OutlineUnit) : result exc unit :=
  visit_all units (map ou_unit_key units) [] ;; Ok tt.

(** [_validate_outline]. *)
Definition validate_outline (c : OutlineCandidate) : result exc unit :=
  let node_keys := map on_node_key (oc_nodes c) in
  let unit_keys := map ou_unit_key (oc_units c) in
  require (String.eqb (oc_schema_version c) "outline-candidate.v1") ;;
  require (truthy (oc_title c) && truthy (oc_requirement_size c) && negb (is_empty (oc_nodes c))) ;;
  require (negb (is_empty (oc_units c)) && (length (oc_units c) <=? 15)%nat) ;;
  require (distinct node_keys && negb (bool_decide (EmptyString ∈ node_keys))) ;;
  require (distinct unit_keys && negb (bool_decide (EmptyString ∈ unit_keys))) ;;
  result_map (check_node c) (oc_nodes c) ;;
  assigned ← check_units c (oc_units c) [];
  require (forallb (fun k => bool_decide (k ∈ assigned)) node_keys && forallb (fun k => bool_decide (k ∈ node_keys)) assigned) ;;
  validate_dependency_graph (oc_units c).

(** [OutlineCandidate(...)]. *)
Definition make_outline (title size : string) (nodes : list OutlineNode) (units : list OutlineUnit) (schema : string)
    : result exc OutlineCandidate :=
  let c := mkOutline title size nodes units schema in validate_outline c ;; Ok c.

Definition node_of_dict (m : list (string * json)) : result exc OutlineNode :=
  ordinal ← int_get "ordinal" 0 m;
  questions ← json_strings (jget "questions" m);
  required ← json_strings (jget "required_content" m);
  Ok (mkNode (stripped_get "node_key" m) (stripped_get "title" m) ordinal (stripped_get "unit_key" m)
        (stripped_get "parent_key" m) questions required).

Definition unit_of_dict (m : list (string * json)) : result exc OutlineUnit :=
  ordinal ← int_get "ordinal" 0 m;
  nodes ← json_strings (jget "node_keys" m);
  depends ← json_strings (jget "depends_on" m);
  Ok (mkUnit (stripped_get "unit_key" m) (stripped_get "title" m) ordinal nodes depends).

(** [OutlineCandidate.from_dict]. *)
Definition outline_of_dict (m : list (string * json)) : result exc OutlineCandidate :=
  require (String.eqb (str_get "schema_version" "outline-candidate.v1" m) "outline-candidate.v1") ;;
  raw_nodes ← mappings (jget "nodes" m);
  nodes ← result_map node_of_dict raw_nodes;
  raw_units ← mappings (jget "units" m);
  units ← result_map unit_of_dict raw_units;
  candidate ← make_outline (stripped_get "title" m) (stripped_get "requirement_size" m) nodes units "outline-candidate.v1";
  let supplied := str_get "content_hash" EmptyString m in
  require (negb (truthy supplied) || String.eqb supplied (outline_hash candidate)
           || String.eqb supplied ("sha256:" +:+ outline_hash candidate)) ;;
  Ok candidate.

(** ** Scopes *)

Record ConfirmedUnitContext := mkConfirmed {
  cu_unit_key : string;
  cu_unit_version : Z;
  cu_content_hash : string;
  cu_summary : string;
  cu_working_draft_ref : string;
  cu_markdown : string
}.

Definition confirmed_context (u : ConfirmedUnitContext) : result exc ConfirmedUnitContext :=
  require (truthy (cu_unit_key u) && (1 <=? cu_unit_version u)%Z && is_hash (cu_content_hash u)) ;;
  require (negb (truthy (cu_markdown u)) || String.eqb (sha256_hex (cu_markdown u)) (bare_hash (cu_content_hash u))) ;;
  Ok u.

Definition confirmed_json (u : ConfirmedUnitContext) : json :=
  JObj [("unit_key", JStr (cu_unit_key u)); ("unit_version", JInt (cu_unit_version u));
        ("content_hash", JStr (bare_hash (cu_content_hash u))); ("summary", JStr (cu_summary u));
        ("working_draft_ref", JStr (cu_working_draft_ref u)); ("markdown", JStr (cu_markdown u))].

Record UnitScope := mkScope {
  sc_purpose : RunPurpose;
  sc_outline_id : string;
  sc_outline_version : Z;
  sc_outline_hash : string;
  sc_current_unit_key : string;
  sc_current_unit_title : string;
  sc_current_unit_ordinal : Z;
  sc_section_node_keys : list string;
  sc_dependency_unit_keys : list string;
  sc_confirmed_context : list ConfirmedUnitContext;
  sc_reopened_unit_keys : list string;
  sc_immutable_unit_keys : list string;
  sc_requirement_brief_ref : string;
  sc_requirement_brief_hash : string;
  sc_base_unit_hash : string;
  sc_user_feedback : string;
  sc_schema_version : string
}.

Definition writes_unit (p : RunPurpose) : bool := bool_decide (p = GENERATE_UNIT) || bool_decide (p = REVISE_UNIT).

(** [UnitScope.__post_init__]. *)
Definition check_scope (s : UnitScope) : result exc UnitScope :=
  let context_keys := map cu_unit_key (sc_confirmed_context s) in
  require (String.eqb (sc_schema_version s) "unit-scope.v1") ;;
  require (bool_decide (sc_purpose s = PLAN_OUTLINE)
           || truthy (sc_outline_id s) && (1 <=? sc_outline_version s)%Z && is_hash (sc_outline_hash s)) ;;
  require (if writes_unit (sc_purpose s)
           then truthy (sc_current_unit_key s) && truthy (sc_current_unit_title s) && negb (is_empty (sc_section_node_keys s))
           else negb (truthy (sc_current_unit_key s))) ;;
  require (negb (bool_decide (sc_purpose s = REVISE_UNIT))
           || bool_decide (sc_current_unit_key s ∈ sc_reopened_unit_keys s) && truthy (strip (sc_user_feedback s))
              && is_hash (sc_base_unit_hash s)) ;;
  require (forallb (fun k => negb (bool_decide (k ∈ sc_immutable_unit_keys s))) (sc_reopened_unit_keys s)) ;;
  require (distinct context_keys) ;;
  require (forallb (fun k => bool_decide (k ∈ context_keys)) (sc_dependency_unit_keys s)) ;;
  Ok s.

Definition scope_payload (s : UnitScope) : list (string * json) :=
  [("schema_version", JStr (sc_schema_version s)); ("purpose", JStr (purpose_value (sc_purpose s)));
   ("outline_id", JStr (sc_outline_id s)); ("outline_version", JInt (sc_outline_version s));
   ("outline_hash", JStr (bare_hash (sc_outline_hash s))); ("current_unit_key", JStr (sc_current_unit_key s));
   ("current_unit_title", JStr (sc_current_unit_title s)); ("current_unit_ordinal", JInt (sc_current_unit_ordinal s));
   ("section_node_keys", strs (sc_section_node_keys s)); ("dependency_unit_keys", strs (sc_dependency_unit_keys s));
   ("confirmed_context",
    JArr (map confirmed_json (sort_by (fun a b => String.leb (cu_unit_key a) (cu_unit_key b)) (sc_confirmed_context s))));
   ("reopened_unit_keys", strs (sort_by String.leb (sc_reopened_unit_keys s)));
   ("immutable_unit_keys", strs (sort_by String.leb (sc_immutable_unit_keys s)));
   ("requirement_brief_ref", JStr (sc_requirement_brief_ref s));
   ("requirement_brief_hash", JStr (bare_hash (sc_requirement_brief_hash s)));
   ("base_unit_hash", JStr (bare_hash (sc_base_unit_hash s))); ("user_feedback", JStr (strip (sc_user_feedback s)))].

Definition scope_hash (s : UnitScope) : string := hash_json (scope_payload s).

Definition scope_json (s : UnitScope) : list (string * json) := scope_payload s ++ [("scope_hash", JStr (scope_hash s))].

(** ** Requests *)

Record RequirementBrief := mkBrief { rb_text : string; rb_required_content : list string }.

Definition requirement_brief (text : string) (required : list string) : result exc RequirementBrief :=
  require (truthy (strip text)) ;; require (forallb (fun i => truthy (strip i)) required) ;; Ok (mkBrief text required).

Record LockedOutline := mkLocked { lk_outline_id : string; lk_version : Z; lk_candidate : OutlineCandidate }.

Definition locked_outline (outline_id : string) (version : Z) (c : OutlineCandidate) : result exc LockedOutline :=
  require (truthy outline_id && (1 <=? version)%Z) ;; Ok (mkLocked outline_id version c).

Record UnitResumeCursor := mkCursor { rc_claim : Z; rc_grounding : Z; rc_quality : Z }.

Definition resume_cursor (claim grounding quality : Z) : result exc UnitResumeCursor :=
  require (0 <=? Z.min claim (Z.min grounding quality))%Z ;; Ok (mkCursor claim grounding quality).

(** ** Claims, candidates and patches *)

Record UnitClaim := mkClaim {
  cl_claim_type : DraftClaim.ClaimType;
  cl_criticality : DraftClaim.ClaimCriticality;
  cl_statement : string;
  cl_evidence_refs : list string
}.

Definition claim_json (unit_key : string) (c : UnitClaim) : json :=
  JObj [("unit_key", JStr unit_key); ("claim_type", JStr (DraftClaim.type_value (cl_claim_type c)));
        ("criticality", JStr (DraftClaim.criticality_value (cl_criticality c))); ("statement", JStr (strip (cl_statement c)));
        ("evidence_refs", strs (cl_evidence_refs c))].

Definition claim_of_dict (m : list (string * json)) : result exc UnitClaim :=
  type ← DraftClaim.read_type (str_get "claim_type" "PROPOSED_BEHAVIOR" m);
  criticality ← DraftClaim.read_criticality (str_get "criticality" "IMPORTANT" m);
  refs ← json_strings (jget "evidence_refs" m);
  let statement := str_get "statement" EmptyString m in
  require (truthy (strip statement)) ;; Ok (mkClaim type criticality statement refs).

Definition claims_of_dict (m : list (string * json)) : result exc (list UnitClaim) :=
  raw ← mappings (Some (default (JArr []) (jget "claims" m))); result_map claim_of_dict raw.

Record UnitCandidate := mkCandidate {
  uc_unit_key : string;
  uc_title : string;
  uc_ordinal : Z;
  uc_node_keys : list string;
  uc_markdown : string;
  uc_claims : list UnitClaim;
  uc_claim_ids : list string;
  uc_unknown_ids : list string;
  uc_used_fact_ids : list string;
  uc_schema_version : string
}.

(** [UnitCandidate.__post_init__]. *)
Definition check_candidate (c : UnitCandidate) : result exc UnitCandidate :=
  require (String.eqb (uc_schema_version c) "unit-candidate.v1") ;;
  require (truthy (uc_unit_key c) && truthy (uc_title c) && (0 <=? uc_ordinal c)%Z && negb (is_empty (uc_node_keys c))) ;;
  require (truthy (strip (uc_markdown c))) ;;
  Ok c.

Definition candidate_hash (c : UnitCandidate) : string := sha256_hex (strip (uc_markdown c)).

Definition candidate_json (c : UnitCandidate) : list (string * json) :=
  [("schema_version", JStr (uc_schema_version c)); ("unit_key", JStr (uc_unit_key c)); ("title", JStr (uc_title c));
   ("ordinal", JInt (uc_ordinal c)); ("node_keys", strs (uc_node_keys c)); ("markdown", JStr (strip (uc_markdown c)));
   ("content_hash", JStr (candidate_hash c)); ("claims", JArr (map (claim_json (uc_unit_key c)) (uc_claims c)));
   ("claim_ids", strs (uc_claim_ids c)); ("unknown_ids", strs (uc_unknown_ids c)); ("used_fact_ids", strs (uc_used_fact_ids c))].

Definition candidate_of_dict (m : list (string * json)) : result exc UnitCandidate :=
  ordinal ← int_get "ordinal" 0 m;
  nodes ← json_strings (jget "node_keys" m);
  claims ← claims_of_dict m;
  claim_ids ← json_strings (jget "claim_ids" m);
  unknown_ids ← json_strings (jget "unknown_ids" m);
  used ← json_strings (jget "used_fact_ids" m);
  c ← check_candidate (mkCandidate (stripped_get "unit_key" m) (stripped_get "title" m) ordinal nodes
         (str_get "markdown" EmptyString m) claims claim_ids unknown_ids used (str_get "schema_version" "unit-candidate.v1" m));
  let supplied := str_get "content_hash" EmptyString m in
  require (negb (truthy supplied) || String.eqb (bare_hash supplied) (candidate_hash c)) ;; Ok c.

Record UnitPatch := mkPatch {
  up_unit_key : string;
  up_base_content_hash : string;
  up_replacement_markdown : string;
  up_claims : list UnitClaim;
  up_resolved_issue_ids : list string;
  up_preserved_unknown_ids : list string;
  up_used_fact_ids : list string;
  up_schema_version : string
}.

(** [UnitPatch.__post_init__]. *)
Definition check_patch (p : UnitPatch) : result exc UnitPatch :=
  require (String.eqb (up_schema_version p) "unit-patch.v1" && truthy (up_unit_key p)) ;;
  require (is_hash (up_base_content_hash p) && truthy (strip (up_replacement_markdown p))) ;;
  Ok p.

Definition patch_hash (p : UnitPatch) : string := sha256_hex (strip (up_replacement_markdown p)).

Definition patch_json (p : UnitPatch) : list (string * json) :=
  [("schema_version", JStr (up_schema_version p)); ("unit_key", JStr (up_unit_key p));
   ("base_content_hash", JStr (bare_hash (up_base_content_hash p)));
   ("replacement_markdown", JStr (strip (up_replacement_markdown p))); ("content_hash", JStr (patch_hash p));
   ("claims", JArr (map (claim_json (up_unit_key p)) (up_claims p))); ("resolved_issue_ids", strs (up_resolved_issue_ids p));
   ("preserved_unknown_ids", strs (up_preserved_unknown_ids p)); ("used_fact_ids", strs (up_used_fact_ids p))].

Definition patch_of_dict (m : list (string * json)) : result exc UnitPatch :=
  claims ← claims_of_dict m;
  resolved ← json_strings (jget "resolved_issue_ids" m);
  preserved ← json_strings (jget "preserved_unknown_ids" m);
  used ← json_strings (jget "used_fact_ids" m);
  p ← check_patch (mkPatch (stripped_get "unit_key" m) (str_get "base_content_hash" EmptyString m)
         (str_get "replacement_markdown" EmptyString m) claims resolved preserved used (str_get "schema_version" "unit-patch.v1" m));
  let supplied := str_get "content_hash" EmptyString m in
  require (negb (truthy supplied) || String.eqb (bare_hash supplied) (patch_hash p)) ;; Ok p.

(** ** Requests and results of a run *)

Record UnitExecutionRequest := mkExecution {
  ex_purpose : RunPurpose;
  ex_scope : UnitScope;
  ex_requirement_brief : RequirementBrief;
  ex_locked_outline : option LockedOutline;
  ex_confirmed_context : list ConfirmedUnitContext;
  ex_resume : option UnitResumeCursor;
  ex_base_candidate : option UnitCandidate;
  ex_unresolved_unknown_ids : list string;
  ex_available_fact_ids : list string;
  ex_unresolved_conflict_ids : list string
}.

#[global] Instance confirmed_eq_dec : EqDecision ConfirmedUnitContext.
Proof. solve_decision. Defined.

Definition check_execution (r : UnitExecutionRequest) : result exc UnitExecutionRequest :=
  require (bool_decide (ex_purpose r = sc_purpose (ex_scope r))) ;;
  require (bool_decide (ex_purpose r = PLAN_OUTLINE)
           || match ex_locked_outline r with
              | Some l => String.eqb (lk_outline_id l) (sc_outline_id (ex_scope r))
                          && (lk_version l =? sc_outline_version (ex_scope r))%Z
                          && String.eqb (outline_hash (lk_candidate l)) (bare_hash (sc_outline_hash (ex_scope r)))
              | None => false
              end) ;;
  require (is_empty (ex_confirmed_context r) || bool_decide (ex_confirmed_context r = sc_confirmed_context (ex_scope r))) ;;
  Ok r.

Record UnitRunRequest := mkRunRequest {
  ur_purpose : RunPurpose;
  ur_scope : UnitScope;
  ur_task_message : string;
  ur_base_candidate : option UnitCandidate;
  ur_unresolved_unknown_ids : list string;
  ur_available_fact_ids : list string;
  ur_grounding_findings : list (list (string * json));
  ur_unresolved_conflict_ids : list string;
  ur_required_content : list string;
  ur_locked_outline : option OutlineCandidate;
  ur_resume : option UnitResumeCursor
}.

Definition check_run_request (r : UnitRunRequest) : result exc UnitRunRequest :=
  require (bool_decide (ur_purpose r = sc_purpose (ur_scope r))) ;;
  require (truthy (strip (ur_task_message r))) ;;
  require (negb (bool_decide (ur_purpose r = REVISE_UNIT) && match ur_base_candidate r with None => true | Some _ => false end)) ;;
  Ok r.

Record UnitRunResult := mkRunResult {
  rr_purpose : RunPurpose;
  rr_output_kind : RunOutputKind;
  rr_scope_hash : string;
  rr_content_hash : string;
  rr_payload : list (string * json)
}.

Definition check_run_result (r : UnitRunResult) : result exc UnitRunResult :=
  require (bool_decide (output_by_purpose (rr_purpose r) = rr_output_kind r)) ;;
  require (is_hash (rr_scope_hash r) && is_hash (rr_content_hash r)) ;;
  Ok r.
End models.
