(* ===== verification/UnitQuality.v ===== *)
(** * Quality of units and of the whole document in the worker

    [agent/quality/models.py], [policies.py] and [full_review.py] of
    agent-python. *)
From stdpp Require Import base list sets strings pretty.
From Stdlib Require Import ZArith.
From S2P Require Import Prelude.
From S2P Require Import PyDict.
From S2P Require Import PyText.
From S2P Require Import Json.
From S2P Require Import CanonicalJson.
From S2P Require Import UnitModels.
Open Scope string_scope.

(** ** [models.py] *)

Inductive QualityScope : Type := SCOPE_UNIT | SCOPE_FULL_DOCUMENT.

Inductive QualityCode : Type :=
  | MISSING_REQUIRED_SECTION | BROKEN_TRACEABILITY | INCONSISTENT_TERMINOLOGY | RULE_CONFLICT | ROLE_PERMISSION_CONFLICT
  | STATE_FLOW_NOT_CLOSED | AMBIGUOUS_ACCEPTANCE_CRITERION | UNRESOLVED_SOURCE_CONFLICT | UNMARKED_UNKNOWN
  | UNSUPPORTED_CURRENT_STATE | SENSITIVE_CONTENT | CONTENT_TOO_LARGE | OUTLINE_SCOPE_VIOLATION | IMMUTABLE_UNIT_CHANGED.

Inductive QualitySeverity : Type := SEV_BLOCKING | SEV_IMPORTANT | SEV_INFORMATIONAL.
Inductive QualityDisposition : Type := REPAIRABLE | REQUIRES_GROUNDING | NEEDS_HUMAN | FATAL.
Inductive QualityOutcome : Type := QUALITY_PASSED | QUALITY_REPAIR_REQUIRED | QUALITY_NEEDS_HUMAN.

#[global] Instance QualityOutcome_eq_dec : EqDecision QualityOutcome.
Proof. solve_decision. Defined.

Definition quality_scope_value (s : QualityScope) : string :=
  match s with SCOPE_UNIT => "UNIT" | SCOPE_FULL_DOCUMENT => "FULL_DOCUMENT" end.

Definition quality_codes : list (QualityCode * string) :=
  [(MISSING_REQUIRED_SECTION, "MISSING_REQUIRED_SECTION"); (BROKEN_TRACEABILITY, "BROKEN_TRACEABILITY");
   (INCONSISTENT_TERMINOLOGY, "INCONSISTENT_TERMINOLOGY"); (RULE_CONFLICT, "RULE_CONFLICT");
   (ROLE_PERMISSION_CONFLICT, "ROLE_PERMISSION_CONFLICT"); (STATE_FLOW_NOT_CLOSED, "STATE_FLOW_NOT_CLOSED");
   (AMBIGUOUS_ACCEPTANCE_CRITERION, "AMBIGUOUS_ACCEPTANCE_CRITERION");
   (UNRESOLVED_SOURCE_CONFLICT, "UNRESOLVED_SOURCE_CONFLICT"); (UNMARKED_UNKNOWN, "UNMARKED_UNKNOWN");
   (UNSUPPORTED_CURRENT_STATE, "UNSUPPORTED_CURRENT_STATE"); (SENSITIVE_CONTENT, "SENSITIVE_CONTENT");
   (CONTENT_TOO_LARGE, "CONTENT_TOO_LARGE"); (OUTLINE_SCOPE_VIOLATION, "OUTLINE_SCOPE_VIOLATION");
   (IMMUTABLE_UNIT_CHANGED, "IMMUTABLE_UNIT_CHANGED")].

Definition quality_code_value (c : QualityCode) : string :=
  match c with
  | MISSING_REQUIRED_SECTION => "MISSING_REQUIRED_SECTION" | BROKEN_TRACEABILITY => "BROKEN_TRACEABILITY"
  | INCONSISTENT_TERMINOLOGY => "INCONSISTENT_TERMINOLOGY" | RULE_CONFLICT => "RULE_CONFLICT"
  | ROLE_PERMISSION_CONFLICT => "ROLE_PERMISSION_CONFLICT" | STATE_FLOW_NOT_CLOSED => "STATE_FLOW_NOT_CLOSED"
  | AMBIGUOUS_ACCEPTANCE_CRITERION => "AMBIGUOUS_ACCEPTANCE_CRITERION"
  | UNRESOLVED_SOURCE_CONFLICT => "UNRESOLVED_SOURCE_CONFLICT" | UNMARKED_UNKNOWN => "UNMARKED_UNKNOWN"
  | UNSUPPORTED_CURRENT_STATE => "UNSUPPORTED_CURRENT_STATE" | SENSITIVE_CONTENT => "SENSITIVE_CONTENT"
  | CONTENT_TOO_LARGE => "CONTENT_TOO_LARGE" | OUTLINE_SCOPE_VIOLATION => "OUTLINE_SCOPE_VIOLATION"
  | IMMUTABLE_UNIT_CHANGED => "IMMUTABLE_UNIT_CHANGED"
  end.

(** [QualityCode(value)]. *)
Definition read_quality_code (s : string) : result exc QualityCode :=
  match List.find (fun cv => String.eqb cv.2 s) quality_codes with Some cv => Ok cv.1 | None => Raise ValueError end.

Definition severity_value (s : QualitySeverity) : string :=
  match s with SEV_BLOCKING => "BLOCKING" | SEV_IMPORTANT => "IMPORTANT" | SEV_INFORMATIONAL => "INFORMATIONAL" end.

Definition disposition_value (d : QualityDisposition) : string :=
  match d with
  | REPAIRABLE => "REPAIRABLE" | REQUIRES_GROUNDING => "REQUIRES_GROUNDING" | NEEDS_HUMAN => "NEEDS_HUMAN" | FATAL => "FATAL"
  end.

Definition outcome_value (o : QualityOutcome) : string :=
  match o with
  | QUALITY_PASSED => "QUALITY_PASSED" | QUALITY_REPAIR_REQUIRED => "QUALITY_REPAIR_REQUIRED"
  | QUALITY_NEEDS_HUMAN => "QUALITY_NEEDS_HUMAN"
  end.

Record DocumentQualityIssue := mkIssue {
  qi_code : QualityCode;
  qi_severity : QualitySeverity;
  qi_disposition : QualityDisposition;
  qi_message : string;
  qi_affected : list string;
  qi_issue_id : string
}.

Definition issue_json (i : DocumentQualityIssue) : json :=
  JObj [("issue_id", JStr (qi_issue_id i)); ("code", JStr (quality_code_value (qi_code i)));
        ("severity", JStr (severity_value (qi_severity i))); ("disposition", JStr (disposition_value (qi_disposition i)));
        ("message", JStr (qi_message i)); ("affected_unit_keys", strs (qi_affected i))].

Record DocumentQualityReport := mkReport {
  qr_scope : QualityScope;
  qr_outcome : QualityOutcome;
  qr_issues : list DocumentQualityIssue;
  qr_unit_hashes : list (string * string)
}.

Definition hashes_json (l : list (string * string)) : json := JObj (map (fun kv => (kv.1, JStr kv.2)) l).

Definition report_json (r : DocumentQualityReport) : json :=
  JObj [("schema_version", JStr "quality-report.v2"); ("scope", JStr (quality_scope_value (qr_scope r)));
        ("outcome", JStr (outcome_value (qr_outcome r))); ("issues", JArr (map issue_json (qr_issues r)));
        ("unit_hashes", hashes_json (sort_by (fun a b => String.leb a.1 b.1) (qr_unit_hashes r)))].

(** [result.setdefault(issue.issue_id, issue)]: the first of each identifier. *)
Fixpoint first_issues (seen : list string) (issues : list DocumentQualityIssue) : list DocumentQualityIssue :=
  match issues with
  | [] => []
  | i :: rest => if bool_decide (qi_issue_id i ∈ seen) then first_issues seen rest
                 else i :: first_issues (qi_issue_id i :: seen) rest
  end.

(** A dict comprehension: the last value of each key, at the place of its first. *)
Definition dict_of {A} (l : list (string * A)) : list (string * A) := fold_left (fun d kv => assoc_set kv.1 kv.2 d) l [].

Section quality.
Context `{Builtins}.

(** [DocumentQualityIssue(...)]. *)
Definition quality_issue (code : QualityCode) (d : QualityDisposition) (message : string) (affected : list string)
    : result exc DocumentQualityIssue :=
  require (truthy message && negb (is_empty affected)) ;;
  let raw := str_join (str_of_codes [0])
    [quality_code_value code; severity_value SEV_BLOCKING; disposition_value d; str_join "," (sort_by String.leb affected); message] in
  Ok (mkIssue code SEV_BLOCKING d message affected ("quality-" +:+ str_take 20 (sha256_hex raw))).

(** ** [policies.py] *)

Record UnitQualityRequest := mkQualityRequest {
  qq_candidate : UnitCandidate;
  qq_required_content : list string;
  qq_grounding_findings : list (list (string * json));
  qq_unresolved_conflict_ids : list string;
  qq_unresolved_unknown_ids : list string
}.

Definition sensitive_markers : list string :=
  ["authorization:"; "bearer "; "api_key"; "access_token"; "refresh_token"; "private_key"].

Definition required_aliases (required : string) : list string :=
  if String.eqb required "precondition" then ["前置条件"; "given"; "假设"]
  else if String.eqb required "trigger" then ["触发条件"; "用户操作"; "系统触发"; "when"; "当"]
  else if String.eqb required "expected_result" then ["预期结果"; "系统应"; "then"]
  else [required].

Definition contains_required (lowered required : string) : bool :=
  existsb (fun alias => str_contains (lower alias) lowered) (required_aliases (lower required)).

(** A finding that blocks a claim on the current state. *)
Definition unsupported_finding (m : list (string * json)) : bool :=
  bool_decide (str_get "status" EmptyString m ∈ ["UNSUPPORTED"; "PARTIAL"; "CONFLICTING"])
  && String.eqb (str_get "claim_type" EmptyString m) "CURRENT_STATE".

(** What [evaluate_unit] tests, in the order of the code. *)
Definition too_large (max_unit_bytes : Z) (q : UnitQualityRequest) : bool :=
  (max_unit_bytes <? Z.of_nat (String.length (strip (uc_markdown (qq_candidate q)))))%Z.

Definition sensitive (q : UnitQualityRequest) : bool :=
  let lowered := lower (strip (uc_markdown (qq_candidate q))) in existsb (fun m => str_contains m lowered) sensitive_markers.

Definition missing_content (q : UnitQualityRequest) : list string :=
  let lowered := lower (strip (uc_markdown (qq_candidate q))) in
  List.filter (fun item => negb (contains_required lowered item)) (qq_required_content q).

Definition unmarked_unknown (q : UnitQualityRequest) : bool :=
  negb (is_empty (qq_unresolved_unknown_ids q))
  && negb (existsb (fun m => str_contains m (strip (uc_markdown (qq_candidate q)))) ["待确认"; "未知"; "假设"; "风险"]).

Definition when_issue (b : bool) (code : QualityCode) (d : QualityDisposition) (message unit_key : string)
    : result exc (list DocumentQualityIssue) :=
  if b then i ← quality_issue code d message [unit_key]; Ok [i] else Ok [].

Definition unit_issues (max_unit_bytes : Z) (q : UnitQualityRequest) : result exc (list DocumentQualityIssue) :=
  let key := uc_unit_key (qq_candidate q) in
  let missing := missing_content q in
  large ← when_issue (too_large max_unit_bytes q) CONTENT_TOO_LARGE FATAL "Unit 内容超过大小上限。" key;
  secret ← when_issue (sensitive q) SENSITIVE_CONTENT FATAL "Unit 包含敏感凭据标记。" key;
  absent ← when_issue (negb (is_empty missing))
    (if existsb (fun i => bool_decide (i ∈ ["precondition"; "trigger"; "expected_result"])) missing
     then AMBIGUOUS_ACCEPTANCE_CRITERION else MISSING_REQUIRED_SECTION)
    REPAIRABLE ("缺少大纲要求内容：" +:+ str_join ", " missing) key;
  unsupported ← when_issue (existsb unsupported_finding (qq_grounding_findings q)) UNSUPPORTED_CURRENT_STATE REQUIRES_GROUNDING
    "当前状态 Claim 尚未获得 Supported Fact。" key;
  conflict ← when_issue (negb (is_empty (qq_unresolved_conflict_ids q))) UNRESOLVED_SOURCE_CONFLICT NEEDS_HUMAN
    "仍存在未解决的来源冲突。" key;
  unknown ← when_issue (unmarked_unknown q) UNMARKED_UNKNOWN REPAIRABLE "未解决信息必须明确标记为待确认、未知、假设或风险。" key;
  Ok (large ++ secret ++ absent ++ unsupported ++ conflict ++ unknown)%list.

(** [_outcome]. *)
Definition needs_human (d : QualityDisposition) : bool := match d with FATAL | NEEDS_HUMAN => true | _ => false end.

Definition unit_outcome (issues : list DocumentQualityIssue) : QualityOutcome :=
  if is_empty issues then QUALITY_PASSED
  else if existsb (fun i => needs_human (qi_disposition i)) issues then QUALITY_NEEDS_HUMAN
  else QUALITY_REPAIR_REQUIRED.

Definition default_max_unit_bytes : Z := 1048576.

(** [DocumentQualityPolicy.evaluate_unit], with the default limit. *)
Definition evaluate_unit (q : UnitQualityRequest) : result exc DocumentQualityReport :=
  issues ← unit_issues default_max_unit_bytes q;
  Ok (mkReport SCOPE_UNIT (unit_outcome issues) (first_issues [] issues)
        [(uc_unit_key (qq_candidate q), candidate_hash (qq_candidate q))]).

(** ** [full_review.py] *)

Record FullReviewRequest := mkReview {
  fr_outline : OutlineCandidate;
  fr_units : list ConfirmedUnitContext;
  fr_terminology : list (string * list string);
  fr_unresolved_conflicts : list (string * list string)
}.

(** The confirmed text of one unit of the outline. *)
Definition review_unit (contexts : list (string * ConfirmedUnitContext)) (u : OutlineUnit) : result exc (list DocumentQualityIssue) :=
  match assoc_get (ou_unit_key u) contexts with
  | Some context =>
      if negb (truthy (strip (cu_markdown context)))
      then when_issue true MISSING_REQUIRED_SECTION NEEDS_HUMAN "锁定大纲中的 Confirmation Unit 尚未完成。" (ou_unit_key u)
      else when_issue (negb (String.eqb (sha256_hex (cu_markdown context)) (bare_hash (cu_content_hash context))))
             IMMUTABLE_UNIT_CHANGED FATAL "已确认 Unit 正文与冻结 hash 不一致。" (ou_unit_key u)
  | None => when_issue true MISSING_REQUIRED_SECTION NEEDS_HUMAN "锁定大纲中的 Confirmation Unit 尚未完成。" (ou_unit_key u)
  end.

Definition review_term (units : list ConfirmedUnitContext) (term : string * list string) : result exc (list DocumentQualityIssue) :=
  let document := str_join (str_of_codes [10]) (map cu_markdown units) in
  let used := List.filter (fun alias => truthy alias && str_contains alias document) term.2 in
  if (1 <? length used)%nat then
    let affected := sort_by String.leb
      (map cu_unit_key (List.filter (fun u => existsb (fun alias => str_contains alias (cu_markdown u)) used) units)) in
    i ← quality_issue INCONSISTENT_TERMINOLOGY NEEDS_HUMAN
          ("术语 " +:+ term.1 +:+ " 同时使用了多个名称：" +:+ str_join ", " used +:+ "。") affected;
    Ok [i]
  else Ok [].

Definition review_conflict (conflict : string * list string) : result exc (list DocumentQualityIssue) :=
  code ← read_quality_code conflict.1;
  i ← quality_issue code NEEDS_HUMAN "全文检查发现尚未解决的一致性问题。" conflict.2; Ok [i].

(** [FullDocumentQualityPolicy.evaluate]; an absent mapping is empty. *)
Definition evaluate_document (r : FullReviewRequest) : result exc DocumentQualityReport :=
  let contexts := dict_of (map (fun u => (cu_unit_key u, u)) (fr_units r)) in
  units ← result_map (review_unit contexts) (oc_units (fr_outline r));
  terms ← result_map (review_term (fr_units r)) (fr_terminology r);
  conflicts ← result_map review_conflict (fr_unresolved_conflicts r);
  let issues := concat (units ++ terms ++ conflicts) in
  Ok (mkReport SCOPE_FULL_DOCUMENT (if is_empty issues then QUALITY_PASSED else QUALITY_NEEDS_HUMAN)
        (dict_of (map (fun i => (qi_issue_id i, i)) issues)).*2
        (dict_of (map (fun u => (cu_unit_key u, bare_hash (cu_content_hash u))) (fr_units r)))).
End quality.
