(* ===== verification/UnitRun.v ===== *)
(** * Running one scoped unit

    [agent/unit/invariants.py], [runner.py], [execution.py], [transport.py] and
    [runtime.py] of agent-python.  The model ([generate]), the grounding
    evaluator, [json.loads] and [str.upper] are parameters; the first two may
    have effects on a state of their own. *)
From stdpp Require Import base list sets strings pretty.
From Stdlib Require Import ZArith.
From S2P Require Import Prelude.
From S2P Require Import PyDict.
From S2P Require Import PyText.
From S2P Require Import Json.
From S2P Require Import CanonicalJson.
From S2P Require Import Ledger.
From S2P Require Import UnitModels.
From S2P Require Import UnitQuality.
Open Scope string_scope.

Definition UnitInvariantError : exc := External "UnitInvariantError".
Definition invariant (b : bool) : result exc unit := if b then Ok tt else Raise UnitInvariantError.

(** [str.upper]. *)
Class UpperCase := str_upper : string -> string.

Definition hash_mark : Ascii.ascii := Ascii.ascii_of_nat 35.

(** The headings of a text: the lines that start with [#], without it. *)
Definition headings (markdown : string) : list string :=
  map (fun line => strip (lstrip_char hash_mark line))
    (List.filter (fun line => String.prefix (String hash_mark EmptyString) line) (splitlines markdown)).

Definition first_heading_is (title markdown : string) : bool :=
  match headings markdown with h :: _ => String.eqb h title | [] => false end.

Section run.
Context `{Builtins} `{JsonLoads} `{UpperCase}.

(** ** [invariants.py] *)

Definition validate_heading (c : UnitCandidate) : result exc unit := invariant (first_heading_is (uc_title c) (uc_markdown c)).

Definition validate_candidate (r : UnitRunRequest) (c : UnitCandidate) : result exc UnitCandidate :=
  let s := ur_scope r in
  invariant (String.eqb (uc_unit_key c) (sc_current_unit_key s)) ;;
  invariant (String.eqb (uc_title c) (sc_current_unit_title s)) ;;
  invariant (uc_ordinal c =? sc_current_unit_ordinal s)%Z ;;
  invariant (bool_decide (uc_node_keys c = sc_section_node_keys s)) ;;
  invariant (negb (bool_decide (uc_unit_key c ∈ sc_immutable_unit_keys s))) ;;
  validate_heading c ;; Ok c.

(** The unit with another text. *)
Definition with_markdown (base : UnitCandidate) (markdown : string) (claims : list UnitClaim) (unknown_ids used : list string)
    : UnitCandidate :=
  mkCandidate (uc_unit_key base) (uc_title base) (uc_ordinal base) (uc_node_keys base) markdown claims [] unknown_ids used
    "unit-candidate.v1".

Definition subset (l m : list string) : bool := forallb (fun x => bool_decide (x ∈ m)) l.

Definition validate_patch (r : UnitRunRequest) (p : UnitPatch) : result exc UnitPatch :=
  let s := ur_scope r in
  match ur_base_candidate r with
  | None => Raise UnitInvariantError
  | Some base =>
      invariant (String.eqb (up_unit_key p) (sc_current_unit_key s) && String.eqb (up_unit_key p) (uc_unit_key base)) ;;
      invariant (bool_decide (up_unit_key p ∈ sc_reopened_unit_keys s)) ;;
      invariant (negb (bool_decide (up_unit_key p ∈ sc_immutable_unit_keys s))) ;;
      invariant (String.eqb (bare_hash (up_base_content_hash p)) (candidate_hash base)) ;;
      invariant (subset (ur_unresolved_unknown_ids r) (up_preserved_unknown_ids p)) ;;
      invariant (subset (up_used_fact_ids p) (ur_available_fact_ids r)) ;;
      c ← check_candidate (with_markdown base (up_replacement_markdown p) [] [] []);
      validate_heading c ;; Ok p
  end.

(** [immutable_hashes]. *)
Definition immutable_hashes (r : UnitRunRequest) : list (string * string) :=
  dict_of (map (fun u => (cu_unit_key u, bare_hash (cu_content_hash u)))
             (List.filter (fun u => bool_decide (cu_unit_key u ∈ sc_immutable_unit_keys (ur_scope r)))
                (sc_confirmed_context (ur_scope r)))).

(** ** [runner.py] *)

Definition run_result (r : UnitRunRequest) (kind : RunOutputKind) (payload : list (string * json)) : result exc UnitRunResult :=
  check_run_result (mkRunResult (ur_purpose r) kind (scope_hash (ur_scope r)) (sha256_hex (canonical_json (JObj payload))) payload).

Definition required_content (r : UnitRunRequest) : list string :=
  if negb (is_empty (ur_required_content r)) then ur_required_content r
  else match drop_prefix "required:" (sc_requirement_brief_ref (ur_scope r)) with
       | Some rest => List.filter truthy (split_on (Ascii.ascii_of_nat 44) rest)
       | None => []
       end.

(** [json.loads(...)] followed by a method of the mapping it gives. *)
Definition loads_mapping (text : string) : result exc (list (string * json)) :=
  match json_loads text with
  | Some (JObj m) => Ok m
  | Some _ => Raise AttributeError
  | None => Raise ValueError
  end.

Definition outline_from_scope (r : UnitRunRequest) : result exc OutlineCandidate :=
  match ur_locked_outline r with
  | Some o => Ok o
  | None =>
      match drop_prefix "outline-json:" (sc_requirement_brief_ref (ur_scope r)) with
      | Some raw => m ← loads_mapping raw; outline_of_dict m
      | None => Raise ValueError
      end
  end.

Definition next_generations (r : UnitRunRequest) : list (string * json) :=
  let cursor := default (mkCursor 0 0 0) (ur_resume r) in
  [("claim_generation", JInt (rc_claim cursor + 1)); ("grounding_generation", JInt (rc_grounding cursor + 1));
   ("quality_generation", JInt (rc_quality cursor + 1))].

(** [{**a, **b}]. *)
Definition merge (a b : list (string * json)) : list (string * json) := fold_left (fun d kv => assoc_set kv.1 kv.2 d) b a.

Section effects.
Context {S : Type}.

(** A callback answers a mapping, or is not available. *)
Definition generator : Type := option (UnitRunRequest -> M S exc (list (string * json))).
Definition evaluator : Type := option (UnitCandidate -> M S exc (list (list (string * json)))).

Definition call_generator (g : generator) (r : UnitRunRequest) : M S exc (list (string * json)) :=
  match g with Some f => f r | None => raise ValueError end.

Definition findings_of (ground : evaluator) (r : UnitRunRequest) (c : UnitCandidate) : M S exc (list (list (string * json))) :=
  match ground with Some f => f c | None => mret (ur_grounding_findings r) end.

(** Grounding and quality of a candidate. *)
Definition assess (ground : evaluator) (r : UnitRunRequest) (c : UnitCandidate) : M S exc DocumentQualityReport :=
  findings ← findings_of ground r c;
  liftR (evaluate_unit (mkQualityRequest c (required_content r) findings (ur_unresolved_conflict_ids r)
                          (ur_unresolved_unknown_ids r))).

(** [ReviewableUnitModule.run], one purpose after the other. *)
Definition run_outline (outline : generator) (r : UnitRunRequest) : M S exc UnitRunResult :=
  raw ← call_generator outline r;
  candidate ← liftR (outline_of_dict raw);
  liftR (run_result r OUTLINE_CANDIDATE (outline_json candidate)).

Definition run_generate (unit : generator) (ground : evaluator) (r : UnitRunRequest) : M S exc UnitRunResult :=
  raw ← call_generator unit r;
  candidate ← liftR (candidate_of_dict raw);
  liftR (validate_candidate r candidate) ;;
  report ← assess ground r candidate;
  liftR (run_result r UNIT_CANDIDATE
           (merge (merge (candidate_json candidate) [("quality_report", report_json report)]) (next_generations r))).

Definition run_revise (revise : generator) (ground : evaluator) (r : UnitRunRequest) : M S exc UnitRunResult :=
  raw ← call_generator revise r;
  patch ← liftR (patch_of_dict raw);
  liftR (validate_patch r patch) ;;
  match ur_base_candidate r with
  | None => raise (External "AssertionError")
  | Some base =>
      revised ← liftR (check_candidate (with_markdown base (up_replacement_markdown patch) (up_claims patch)
                                          (up_preserved_unknown_ids patch) (up_used_fact_ids patch)));
      report ← assess ground r revised;
      liftR (run_result r UNIT_PATCH
               (merge (merge (patch_json patch)
                  [("quality_report", report_json report);
                   ("requires_regrounding", JBool (match ground with None => true | Some _ => false end))])
                  (next_generations r)))
  end.

Definition run_review (r : UnitRunRequest) : M S exc UnitRunResult :=
  outline ← liftR (outline_from_scope r);
  report ← liftR (evaluate_document (mkReview outline (sc_confirmed_context (ur_scope r)) [] []));
  liftR (run_result r FULL_REVIEW_REPORT
           [("schema_version", JStr "full-review-report.v1"); ("outline_hash", JStr (bare_hash (sc_outline_hash (ur_scope r))));
            ("outcome", JStr (if bool_decide (qr_outcome report = QUALITY_PASSED) then "PASSED" else "NEEDS_REVISION"));
            ("issues", JArr (map issue_json (qr_issues report))); ("unit_hashes", hashes_json (qr_unit_hashes report))]).

Definition run_unit (outline unit revise : generator) (ground : evaluator) (r : UnitRunRequest) : M S exc UnitRunResult :=
  match ur_purpose r with
  | PLAN_OUTLINE => run_outline outline r
  | GENERATE_UNIT => run_generate unit ground r
  | REVISE_UNIT => run_revise revise ground r
  | FULL_REVIEW => run_review r
  end.

(** ** [execution.py] *)

Definition run_execution (outline unit revise : generator) (ground : evaluator) (e : UnitExecutionRequest)
    : M S exc UnitRunResult :=
  r ← liftR (check_run_request (mkRunRequest (ex_purpose e) (ex_scope e) (rb_text (ex_requirement_brief e)) (ex_base_candidate e)
         (ex_unresolved_unknown_ids e) (ex_available_fact_ids e) [] (ex_unresolved_conflict_ids e)
         (rb_required_content (ex_requirement_brief e)) (lk_candidate <$> ex_locked_outline e) (ex_resume e)));
  run_unit outline unit revise ground r.

End effects.

(** ** [runtime.py]: the payload of a model call and the shape of its answer *)

(** The output contract sent to the model, and read as data only. *)
Definition output_contract (expected_schema : string) : json :=
  if String.eqb expected_schema "outline-candidate.v1" then
    JObj [("schema_version", JStr "outline-candidate.v1"); ("title", JStr "non-empty string");
      ("requirement_size", JStr "SMALL | MEDIUM | LARGE");
      ("nodes", JArr [JObj [("node_key", JStr "unique non-empty string"); ("parent_key", JStr "empty string or another node_key");
         ("ordinal", JStr "non-negative integer"); ("title", JStr "non-empty string"); ("questions", strs ["string"]);
         ("required_content", strs ["string"]); ("unit_key", JStr "one of units[].unit_key")]]);
      ("units", JArr [JObj [("unit_key", JStr "unique non-empty string"); ("title", JStr "non-empty string");
         ("ordinal", JStr "non-negative integer"); ("node_keys", strs ["assigned node_key"]);
         ("depends_on", strs ["another unit_key"])]])]
  else if String.eqb expected_schema "unit-candidate.v1" then
    JObj [("schema_version", JStr "unit-candidate.v1"); ("unit_key", JStr "exact unit_scope.current_unit_key");
      ("title", JStr "exact unit_scope.current_unit_title"); ("ordinal", JStr "exact unit_scope.current_unit_ordinal");
      ("node_keys", strs ["exact unit_scope.section_node_keys values"]);
      ("markdown", JStr "non-empty markdown string whose first heading is exact unit_scope.current_unit_title");
      ("claims", JArr []); ("claim_ids", JArr []); ("unknown_ids", JArr []); ("used_fact_ids", JArr [])]
  else if String.eqb expected_schema "unit-patch.v1" then
    JObj [("schema_version", JStr "unit-patch.v1"); ("unit_key", JStr "exact unit_scope.current_unit_key");
      ("base_content_hash", JStr "exact unit_scope.base_unit_hash"); ("replacement_markdown", JStr "non-empty markdown string");
      ("claims", JArr []); ("resolved_issue_ids", JArr []); ("preserved_unknown_ids", JArr []); ("used_fact_ids", JArr [])]
  else JObj [("schema_version", JStr expected_schema)].

Definition request_payload (r : UnitRunRequest) (expected_schema : string) : list (string * json) :=
  [("unit_operation", JStr (purpose_value (ur_purpose r))); ("expected_schema", JStr expected_schema);
   ("task_message", JStr (ur_task_message r)); ("unit_scope", JObj (scope_json (ur_scope r)));
   ("base_candidate", match ur_base_candidate r with Some c => JObj (candidate_json c) | None => JNull end);
   ("output_contract", output_contract expected_schema);
   ("instruction", JStr "Return only the requested schema and do not write outside current_unit_key.")].

(** [value.get(key) == text]. *)
Definition member_is (key text : string) (m : list (string * json)) : bool :=
  match jget key m with Some (JStr s) => String.eqb s text | _ => false end.

Definition schema_payload (m : list (string * json)) (expected_schema : string) : list (string * json) :=
  if member_is "schema_version" expected_schema m then m
  else match jget "output_contract" m with
       | Some (JObj nested) => if member_is "schema_version" expected_schema nested then nested else m
       | _ => m
       end.

Definition locked_markdown (title : string) (value : json) : json :=
  match value with
  | JStr s =>
      if negb (truthy (strip s)) then value
      else if first_heading_is title s then value
      else JStr ("# " +:+ title +:+ str_of_codes [10; 10] +:+ lstrip s)
  | _ => value
  end.

Definition get_or (key : string) (dflt : json) (m : list (string * json)) : json := default dflt (jget key m).

Definition unit_answer (r : UnitRunRequest) (answer : list (string * json)) : list (string * json) :=
  let m := schema_payload answer "unit-candidate.v1" in
  let s := ur_scope r in
  [("schema_version", JStr "unit-candidate.v1"); ("unit_key", JStr (sc_current_unit_key s));
   ("title", JStr (sc_current_unit_title s)); ("ordinal", JInt (sc_current_unit_ordinal s));
   ("node_keys", strs (sc_section_node_keys s));
   ("markdown", locked_markdown (sc_current_unit_title s) (get_or "markdown" (JStr EmptyString) m));
   ("claims", get_or "claims" (JArr []) m); ("claim_ids", get_or "claim_ids" (JArr []) m);
   ("unknown_ids", get_or "unknown_ids" (JArr []) m); ("used_fact_ids", get_or "used_fact_ids" (JArr []) m)].

Definition patch_answer (r : UnitRunRequest) (answer : list (string * json)) : list (string * json) :=
  let m := schema_payload answer "unit-patch.v1" in
  let s := ur_scope r in
  [("schema_version", JStr "unit-patch.v1"); ("unit_key", JStr (sc_current_unit_key s));
   ("base_content_hash", JStr (sc_base_unit_hash s));
   ("replacement_markdown", locked_markdown (sc_current_unit_title s)
      (get_or "replacement_markdown" (get_or "markdown" (JStr EmptyString) m) m));
   ("claims", get_or "claims" (JArr []) m); ("resolved_issue_ids", get_or "resolved_issue_ids" (JArr []) m);
   ("preserved_unknown_ids", get_or "preserved_unknown_ids" (JArr []) m); ("used_fact_ids", get_or "used_fact_ids" (JArr []) m)].

(** ** Outlines in another shape *)

(** [str(a or b or ...)]: the first truthy member, or the default. *)
Definition first_truthy (values : list (option json)) (dflt : string) : string :=
  match List.filter (fun v => match v with Some j => jtruthy j | None => false end) values with
  | Some j :: _ => py_str j
  | _ => dflt
  end.

Definition unit_name (index : Z) : string := "unit-" +:+ pretty index.

(** [except (TypeError, ValueError)] around the ordinal. *)
Definition outline_ordinal (index : Z) (m : list (string * json)) : result exc Z :=
  match py_int (get_or "ordinal" (JInt index) m) with
  | Ok z => Ok (Z.max z 0)
  | Raise TypeError | Raise ValueError => Ok index
  | Raise e => Raise e
  end.

(** What the first loop collects of a unit. *)
Record NormalizedUnit := mkNormalized {
  nu_unit_key : string;
  nu_title : string;
  nu_ordinal : Z;
  nu_required : list string;
  nu_dependencies : list string
}.

Definition normalize_unit (index : Z) (used : list string) (m : list (string * json)) : result exc NormalizedUnit :=
  let base_key := strip (first_truthy [jget "unit_key" m; jget "key" m] (unit_name index)) in
  let key := if truthy base_key then base_key else unit_name index in
  let unit_key := if bool_decide (key ∈ used) then key +:+ "-" +:+ pretty index else key in
  let stripped := strip (first_truthy [jget "title" m] unit_key) in
  let title := if truthy stripped then stripped else unit_key in
  ordinal ← outline_ordinal index m;
  let dependencies := match get_or "depends_on" (get_or "dependencies" (JArr []) m) m with
                      | JArr l => List.filter truthy (map (fun j => strip (py_str j)) l)
                      | _ => []
                      end in
  let required := match jget "content" m with Some (JObj (kv :: rest)) => (kv :: rest).*1 | _ => [title] end in
  Ok (mkNormalized unit_key title ordinal required dependencies).

(** The loop over the raw units; [None] when one of them is not a mapping. *)
Fixpoint normalize_units (index : Z) (used : list string) (raw : list json) : result exc (option (list NormalizedUnit)) :=
  match raw with
  | [] => Ok (Some [])
  | JObj m :: rest =>
      u ← normalize_unit index used m;
      others ← normalize_units (index + 1) (nu_unit_key u :: used) rest;
      Ok (option_map (cons u) others)
  | _ :: _ => Ok None
  end.

Definition normalized_node (u : NormalizedUnit) : json :=
  JObj [("node_key", JStr (nu_unit_key u)); ("parent_key", JStr EmptyString); ("ordinal", JInt (nu_ordinal u));
        ("title", JStr (nu_title u)); ("questions", strs [nu_title u +:+ "需要明确哪些内容？"]);
        ("required_content", strs (nu_required u)); ("unit_key", JStr (nu_unit_key u))].

Definition normalized_unit (used : list string) (u : NormalizedUnit) : json :=
  JObj [("unit_key", JStr (nu_unit_key u)); ("title", JStr (nu_title u)); ("ordinal", JInt (nu_ordinal u));
        ("node_keys", strs [nu_unit_key u]);
        ("depends_on", strs (List.filter (fun d => bool_decide (d ∈ used) && negb (String.eqb d (nu_unit_key u)))
                               (nu_dependencies u)))].

Definition outline_size (nested : list (string * json)) (count : nat) : string :=
  let size := str_upper (strip (str_get "requirement_size" EmptyString nested)) in
  if bool_decide (size ∈ ["SMALL"; "MEDIUM"; "LARGE"]) then size
  else if (count <=? 3)%nat then "SMALL" else if (count <=? 8)%nat then "MEDIUM" else "LARGE".

Definition outline_answer (r : UnitRunRequest) (answer : list (string * json)) : result exc (list (string * json)) :=
  let m := schema_payload answer "outline-candidate.v1" in
  if member_is "schema_version" "outline-candidate.v1" m
     && forallb (fun k => bool_decide (k ∈ m.*1)) ["title"; "requirement_size"; "nodes"; "units"] then Ok m
  else match jget "outline" m with
  | Some (JObj nested) =>
      match jget "units" nested with
      | Some (JArr (u :: rest)) =>
          normalized ← normalize_units 1 [] (u :: rest);
          match normalized with
          | None => Ok m
          | Some units =>
              let used := map nu_unit_key units in
              let title := strip (first_truthy [jget "title" nested; jget "title" m]
                                    (if truthy (ur_task_message r) then ur_task_message r else "PRD")) in
              Ok [("schema_version", JStr "outline-candidate.v1"); ("title", JStr (if truthy title then title else "PRD"));
                  ("requirement_size", JStr (outline_size nested (length units)));
                  ("nodes", JArr (map normalized_node units)); ("units", JArr (map (normalized_unit used) units))]
          end
      | _ => Ok m
      end
  | _ => Ok m
  end.

(** ** [transport.py] *)

Definition purpose_from_proto (n : Z) : option RunPurpose :=
  if (n =? 1)%Z then Some PLAN_OUTLINE else if (n =? 2)%Z then Some GENERATE_UNIT
  else if (n =? 3)%Z then Some REVISE_UNIT else if (n =? 4)%Z then Some FULL_REVIEW else None.

(** The message [UnitScope]. *)
Record ProtoUnitScope := mkProtoScope {
  ps_schema_version : string;
  ps_outline_id : string;
  ps_outline_version : Z;
  ps_outline_hash : string;
  ps_current_unit_key : string;
  ps_current_unit_title : string;
  ps_current_unit_ordinal : Z;
  ps_section_node_keys : list string;
  ps_dependency_unit_keys : list string;
  ps_confirmed_context : list ConfirmedUnitContext;
  ps_reopened_unit_keys : list string;
  ps_immutable_unit_keys : list string;
  ps_requirement_brief_ref : string;
  ps_requirement_brief_hash : string;
  ps_base_unit_hash : string;
  ps_user_feedback : string;
  ps_scope_hash : string
}.

Definition decode_unit_scope (run_purpose : Z) (v : ProtoUnitScope) : result exc UnitScope :=
  match purpose_from_proto run_purpose with
  | None => Raise ValueError
  | Some purpose =>
      context ← result_map confirmed_context (ps_confirmed_context v);
      scope ← check_scope (mkScope purpose (ps_outline_id v) (ps_outline_version v) (ps_outline_hash v) (ps_current_unit_key v)
                 (ps_current_unit_title v) (ps_current_unit_ordinal v) (ps_section_node_keys v) (ps_dependency_unit_keys v) context
                 (ps_reopened_unit_keys v) (ps_immutable_unit_keys v) (ps_requirement_brief_ref v) (ps_requirement_brief_hash v)
                 (ps_base_unit_hash v) (ps_user_feedback v) (ps_schema_version v));
      let supplied := bare_hash (ps_scope_hash v) in
      require (truthy supplied && String.eqb supplied (scope_hash scope)) ;; Ok scope
  end.

Definition purpose_to_proto (p : RunPurpose) : Z :=
  match p with PLAN_OUTLINE => 1 | GENERATE_UNIT => 2 | REVISE_UNIT => 3 | FULL_REVIEW => 4 end.

Definition kind_to_proto (k : RunOutputKind) : Z :=
  match k with OUTLINE_CANDIDATE => 1 | UNIT_CANDIDATE => 2 | UNIT_PATCH => 3 | FULL_REVIEW_REPORT => 4 end.

(** The message [RunOutput]. *)
Record RunOutput := mkRunOutput {
  ro_output_key : string;
  ro_output_kind : Z;
  ro_run_purpose : Z;
  ro_scope_hash : string;
  ro_expected_task_version : Z;
  ro_content_hash : string;
  ro_payload : string
}.

Definition encode_run_output (r : UnitRunResult) (output_key : string) (expected_task_version : Z) : result exc RunOutput :=
  require (truthy (strip output_key) && (1 <=? expected_task_version)%Z) ;;
  let payload := canonical_json (JObj (rr_payload r)) in
  require (String.eqb (sha256_hex payload) (bare_hash (rr_content_hash r))) ;;
  Ok (mkRunOutput (strip output_key) (kind_to_proto (rr_output_kind r)) (purpose_to_proto (rr_purpose r))
        (bare_hash (rr_scope_hash r)) expected_task_version (sha256_hex payload) payload).

(** ** [ReviewableUnitRuntime.run] *)

(** What the runtime reads of the run's context. *)
Record UnitContext := mkUnitContext {
  ux_workflow_version : string;
  ux_run_purpose : Z;
  ux_task_message : string;
  ux_unit_scope : option ProtoUnitScope
}.

(** [_base_candidate]. *)
Definition base_candidate (s : UnitScope) : result exc (option UnitCandidate) :=
  if negb (bool_decide (sc_purpose s = REVISE_UNIT)) then Ok None
  else match List.find (fun u => String.eqb (cu_unit_key u) (sc_current_unit_key s)) (sc_confirmed_context s) with
       | Some u =>
           require (truthy (cu_markdown u)) ;;
           c ← check_candidate (mkCandidate (sc_current_unit_key s) (sc_current_unit_title s) (sc_current_unit_ordinal s)
                  (sc_section_node_keys s) (cu_markdown u) [] [] [] [] "unit-candidate.v1");
           Ok (Some c)
       | None => Raise ValueError
       end.

(** [_execution_request]. *)
Definition execution_request (x : UnitContext) (s : UnitScope) (base : option UnitCandidate) : result exc (option UnitExecutionRequest) :=
  let raw := sc_requirement_brief_ref s in
  let request := fun brief locked context base' =>
    e ← check_execution (mkExecution (sc_purpose s) s brief locked context None base' [] [] []); Ok (Some e) in
  if bool_decide (sc_purpose s = PLAN_OUTLINE) then
    brief ← requirement_brief (ux_task_message x) []; request brief None [] None
  else match drop_prefix "execution-input-json:" raw with
  | Some text =>
      value ← loads_mapping text;
      match get_or "requirement_brief" (JObj []) value, jget "locked_outline" value with
      | JObj brief_value, Some (JObj outline_value) =>
          outline ← outline_of_dict outline_value;
          items ← py_iter (get_or "required_content" (JArr []) brief_value);
          brief ← requirement_brief (str_get "text" EmptyString brief_value) (map py_str items);
          locked ← locked_outline (sc_outline_id s) (sc_outline_version s) outline;
          request brief (Some locked) (sc_confirmed_context s) base
      | _, _ => Raise ValueError
      end
  | None =>
      match drop_prefix "outline-json:" raw with
      | Some text =>
          if bool_decide (sc_purpose s = FULL_REVIEW) then
            value ← loads_mapping text;
            outline ← outline_of_dict value;
            brief ← requirement_brief (ux_task_message x) [];
            locked ← locked_outline (sc_outline_id s) (sc_outline_version s) outline;
            request brief (Some locked) (sc_confirmed_context s) None
          else Ok None
      | None => Ok None
      end
  end.

Section effects.
Context {S : Type} (generate : string -> list (string * json) -> M S exc (list (string * json)))
  (ground : UnitCandidate -> M S exc (list (list (string * json)))).

(** The three callbacks of the runtime around the model. *)
Definition outline_generator : @generator S := Some (fun r =>
  answer ← generate "plan_outline" (request_payload r "outline-candidate.v1"); liftR (outline_answer r answer)).

Definition unit_generator : @generator S := Some (fun r =>
  answer ← generate "generate_unit" (request_payload r "unit-candidate.v1"); mret (unit_answer r answer)).

Definition unit_reviser : @generator S := Some (fun r =>
  answer ← generate "revise_unit" (request_payload r "unit-patch.v1"); mret (patch_answer r answer)).

Definition run_runtime (x : UnitContext) : M S exc UnitRunResult :=
  match ux_unit_scope x with
  | Some v =>
      if negb (String.eqb (ux_workflow_version x) "agent-runtime.v4") then raise ValueError
      else
        scope ← liftR (decode_unit_scope (ux_run_purpose x) v);
        base ← liftR (base_candidate scope);
        request ← liftR (check_run_request (mkRunRequest (sc_purpose scope) scope (ux_task_message x) base [] [] [] [] [] None None));
        execution ← liftR (execution_request x scope base);
        match execution with
        | Some e => run_execution outline_generator unit_generator unit_reviser (Some ground) e
        | None => run_unit outline_generator unit_generator unit_reviser (Some ground) request
        end
  | None => raise ValueError
  end.
End effects.
End run.
