(* ===== verification/PyStrip.v ===== *)
(** * Stripping white space is idempotent

    [str.strip] of [Prelude], on UTF-8 bytes. *)
From stdpp Require Import base list sets strings.
From Stdlib Require Import Lia.
From S2P Require Import Prelude.
From S2P Require Import CanonicalJson.
#[local] Open Scope nat_scope.
#[local] Open Scope string_scope.

(** ** Prefixes *)

Lemma prefix_spec w s : String.prefix w s = true <-> exists t, s = w +:+ t.
Proof.
  revert s. induction w as [|c w IH]; intros s.
  - split; [by exists s|by destruct s].
  - destruct s as [|d s]; [split; [done|by intros [t Ht]]|].
    change (String.prefix (String c w) (String d s)) with (if Ascii.ascii_dec c d then String.prefix w s else false).
    destruct (Ascii.ascii_dec c d) as [->|Hne].
    + rewrite IH. split; intros [t Ht]; exists t; [by rewrite Ht|]. rewrite app_cons_s in Ht. by injection Ht.
    + split; [done|]. intros [t Ht]. rewrite app_cons_s in Ht. congruence.
Qed.

Lemma drop_bytes_app w t : str_drop_bytes (String.length w) (w +:+ t) = t.
Proof. induction w as [|c w IH]; [by destruct t|]. simpl. exact IH. Qed.

(** The encoded white space characters are not prefixes of one another. *)
Lemma whitespace_prefix_free w w' s : w ∈ whitespace -> w' ∈ whitespace ->
  String.prefix w s = true -> String.prefix w' s = true -> w = w'.
Proof.
  assert (Hfree : forallb (fun a => forallb (fun b => implb (String.prefix a b) (String.eqb a b)) whitespace) whitespace = true) by done.
  rewrite forallb_forall in Hfree. intros Hw Hw' [t Ht]%prefix_spec [t' Ht']%prefix_spec.
  assert (Hab : forall a b, a ∈ whitespace -> b ∈ whitespace -> String.prefix a b = true -> a = b).
  { intros a b Ha%list_elem_of_In Hb%list_elem_of_In Hp. specialize (Hfree a Ha). rewrite forallb_forall in Hfree.
    specialize (Hfree b Hb). rewrite Hp in Hfree. by apply String.eqb_eq. }
  assert (Hcmp : String.prefix w w' = true \/ String.prefix w' w = true).
  { rewrite Ht in Ht'. clear -Ht'. revert w' t t' Ht'. induction w as [|c w IH]; intros [|d w'] t t' E; simpl; auto.
    rewrite !app_cons_s in E. injection E as -> E. destruct (Ascii.ascii_dec d d); [|done]. by eapply IH. }
  destruct Hcmp; [by apply Hab|symmetry; by apply Hab].
Qed.

Lemma leading_space_Some s s' : leading_space s = Some s' <-> exists w, w ∈ whitespace /\ s = w +:+ s'.
Proof.
  unfold leading_space. split.
  - destruct (List.filter _ whitespace) as [|w l] eqn:E; [done|]. intros [= <-].
    assert (Hin : In w (List.filter (fun w => String.prefix w s) whitespace)) by (rewrite E; by left).
    apply List.filter_In in Hin as [Hw [t ->]%prefix_spec]. exists w. split; [by apply list_elem_of_In|]. by rewrite drop_bytes_app.
  - intros (w & Hw & ->). destruct (List.filter _ whitespace) as [|w' l] eqn:E.
    + assert (Hin : In w (List.filter (fun w0 => String.prefix w0 (w +:+ s')) whitespace)).
      { apply List.filter_In. split; [by apply list_elem_of_In|]. apply prefix_spec. eauto. }
      by rewrite E in Hin.
    + assert (Hin : In w' (List.filter (fun w0 => String.prefix w0 (w +:+ s')) whitespace)) by (rewrite E; by left).
      apply List.filter_In in Hin as [Hw' Hp]. assert (w' = w) as ->; [|by rewrite drop_bytes_app].
      eapply whitespace_prefix_free; [by apply list_elem_of_In|done|exact Hp|]. apply prefix_spec. eauto.
Qed.

Lemma whitespace_nonempty w : w ∈ whitespace -> 0 < String.length w.
Proof.
  assert (Hall : forallb (fun w => Nat.ltb 0 (String.length w)) whitespace = true) by done.
  rewrite forallb_forall in Hall. intros Hw%list_elem_of_In. by apply Nat.ltb_lt, Hall.
Qed.

Lemma leading_space_shorter s s' : leading_space s = Some s' -> String.length s' < String.length s.
Proof. intros (w & Hw & ->)%leading_space_Some. apply whitespace_nonempty in Hw. rewrite length_app_s. lia. Qed.

(** ** [lstrip] *)

Lemma lstrip_fuel_None fuel s : String.length s <= fuel -> leading_space (lstrip_fuel fuel s) = None.
Proof.
  revert s. induction fuel as [|fuel IH]; intros s Hf; simpl.
  - destruct s; [done|simpl in Hf; lia].
  - destruct (leading_space s) as [s'|] eqn:E; [|done]. apply IH. apply leading_space_shorter in E. lia.
Qed.

Lemma lstrip_None s : leading_space (lstrip s) = None.
Proof. by apply lstrip_fuel_None. Qed.

Lemma lstrip_fixed s : leading_space s = None -> lstrip s = s.
Proof. intros E. unfold lstrip. destruct (String.length s); simpl; by rewrite ?E. Qed.

Lemma lstrip_fuel_irrelevant n m s : String.length s <= n -> String.length s <= m -> lstrip_fuel n s = lstrip_fuel m s.
Proof.
  revert m s. induction n as [|n IH]; intros m s Hn Hm.
  - destruct s; [|simpl in Hn; lia]. by destruct m.
  - destruct m as [|m]; [destruct s; [done|simpl in Hm; lia]|]. simpl.
    destruct (leading_space s) as [s'|] eqn:E; [|done]. apply leading_space_shorter in E. apply IH; lia.
Qed.

Lemma lstrip_space w s : w ∈ whitespace -> lstrip (w +:+ s) = lstrip s.
Proof.
  intros Hw. unfold lstrip at 1. assert (E : leading_space (w +:+ s) = Some s) by (apply leading_space_Some; eauto).
  pose proof (leading_space_shorter _ _ E) as Hlt. destruct (String.length (w +:+ s)) as [|n] eqn:En; [lia|]. simpl. rewrite E.
  apply lstrip_fuel_irrelevant; lia.
Qed.

(** ** [rstrip] *)

Lemma all_space_app s t : all_space s = true -> all_space t = true -> all_space (s +:+ t) = true.
Proof.
  remember (String.length s) as n eqn:Hn. revert s Hn. induction n as [n IH] using lt_wf_ind. intros s -> Hs Ht.
  destruct (leading_space s) as [s'|] eqn:E.
  - pose proof (leading_space_shorter _ _ E) as Hlt. apply leading_space_Some in E as (w & Hw & ->).
    unfold all_space in Hs |- *. rewrite lstrip_space in Hs by done. rewrite app_assoc_s, lstrip_space by done.
    by apply (IH (String.length s') Hlt s' eq_refl).
  - unfold all_space in Hs. rewrite (lstrip_fixed _ E) in Hs. by destruct s.
Qed.

(** What is cut off at the end is white space, and starts a character. *)
Definition starts_char (s : string) : bool := match s with EmptyString => true | String c _ => negb (is_continuation c) end.

Lemma rstrip_split s : exists z, s = rstrip s +:+ z /\ all_space z = true /\ starts_char z = true.
Proof.
  induction s as [|c s (z & Hz & Hs & Hc)]; [by exists EmptyString|]. cbn [rstrip].
  destruct (negb (is_continuation c) && all_space (String c s)) eqn:E.
  - exists (String c s). apply andb_true_iff in E as [? ?]. done.
  - exists z. rewrite app_cons_s, <- Hz. done.
Qed.

Lemma rstrip_idem_app s z :
  all_space z = true -> rstrip (s +:+ z) = s -> rstrip s = s.
Proof.
  intros Hz. induction s as [|c s IH]; [done|]. rewrite app_cons_s. cbn [rstrip].
  destruct (negb (is_continuation c) && all_space (String c (s +:+ z))) eqn:E; [done|]. intros [= Hs].
  destruct (negb (is_continuation c) && all_space (String c s)) eqn:E'; [|by rewrite IH].
  apply andb_true_iff in E' as [Hc Ha]. rewrite Hc in E. simpl in E. rewrite <- app_cons_s, all_space_app in E; done.
Qed.

Lemma rstrip_idem s : rstrip (rstrip s) = rstrip s.
Proof. destruct (rstrip_split s) as (z & Hs & Hz & _). apply (rstrip_idem_app (rstrip s) z Hz). by rewrite <- Hs. Qed.

Lemma leading_space_prefix s z : leading_space (s +:+ z) = None -> leading_space s = None.
Proof.
  destruct (leading_space s) as [s'|] eqn:E; [|done]. apply leading_space_Some in E as (w & Hw & ->).
  assert (leading_space ((w +:+ s') +:+ z) = Some (s' +:+ z)) as ->; [|done]. apply leading_space_Some. exists w. by rewrite app_assoc_s.
Qed.

Lemma strip_idem s : strip (strip s) = strip s.
Proof.
  unfold strip. destruct (rstrip_split (lstrip s)) as (z & Hs & _). pose proof (lstrip_None s) as Hn. rewrite Hs in Hn.
  apply leading_space_prefix in Hn. by rewrite (lstrip_fixed _ Hn), rstrip_idem.
Qed.
