(* ===== verification/UnitOutlineFacts.v ===== *)
(** * The outlines a worker accepts

    The validator of outline candidates, with its parent walk and its
    depth-first search for cycles, accepts exactly the well-formed outlines. *)
From stdpp Require Import base list sets strings pretty.
From Stdlib Require Import ZArith Lia.
From S2P Require Import Prelude.
From S2P Require Import PyDict.
From S2P Require Import Json.
From S2P Require Import CanonicalJson.
From S2P Require Import PyText.
From S2P Require Import UnitModels.
From S2P Require Import PyStrip.
Open Scope string_scope.

(** ** What a well-formed outline is *)

(** The level of a node: a root is on level 1, a child one below its parent. *)
Inductive node_level (nodes : list OutlineNode) : OutlineNode -> nat -> Prop :=
  | level_root n : on_parent_key n = EmptyString -> node_level nodes n 1
  | level_child n parent d :
      on_parent_key n <> EmptyString -> parent ∈ nodes -> on_node_key parent = on_parent_key n ->
      node_level nodes parent d -> node_level nodes n (S d).

Definition node_wf (c : OutlineCandidate) (n : OutlineNode) : Prop :=
  on_title n <> EmptyString /\ (0 <= on_ordinal n)%Z /\ on_unit_key n ∈ map ou_unit_key (oc_units c) /\
  exists d, node_level (oc_nodes c) n d /\ d <= 3.

(** Each node of a unit exists and names the unit. *)
Definition unit_wf (c : OutlineCandidate) (u : OutlineUnit) : Prop :=
  ou_title u <> EmptyString /\ (0 <= ou_ordinal u)%Z /\ ou_node_keys u <> [] /\
  (forall k, k ∈ ou_node_keys u -> exists n, n ∈ oc_nodes c /\ on_node_key n = k /\ on_unit_key n = ou_unit_key u) /\
  (forall d, d ∈ ou_depends_on u -> d ∈ map ou_unit_key (oc_units c)).

(** The units can be written one after another. *)
Definition acyclic (units : list OutlineUnit) : Prop :=
  exists rank : string -> nat, forall u d, u ∈ units -> d ∈ ou_depends_on u -> rank d < rank (ou_unit_key u).

Record outline_wf (c : OutlineCandidate) : Prop := {
  wf_schema : oc_schema_version c = "outline-candidate.v1";
  wf_title : oc_title c <> EmptyString;
  wf_size : oc_requirement_size c <> EmptyString;
  wf_units_count : 1 <= length (oc_units c) <= 15;
  wf_node_keys : NoDup (map on_node_key (oc_nodes c)) /\ EmptyString ∉ map on_node_key (oc_nodes c);
  wf_unit_keys : NoDup (map ou_unit_key (oc_units c)) /\ EmptyString ∉ map ou_unit_key (oc_units c);
  wf_nodes : oc_nodes c <> [] /\ Forall (node_wf c) (oc_nodes c);
  wf_units : Forall (unit_wf c) (oc_units c);
  wf_assigned : NoDup (mjoin (map ou_node_keys (oc_units c))) /\
    forall k, k ∈ map on_node_key (oc_nodes c) -> k ∈ mjoin (map ou_node_keys (oc_units c));
  wf_acyclic : acyclic (oc_units c)
}.

(** ** Sequencing *)

Lemma result_mbind_Ok {E A B} (k : A -> result E B) (r : result E A) y :
  (r ≫= k) = Ok y <-> exists x, r = Ok x /\ k x = Ok y.
Proof. apply result_bind_Ok. Qed.

Lemma require_Ok b u : require b = Ok u <-> b = true.
Proof. unfold require. destruct b; split; try done. by destruct u. Qed.

Lemma require_then {A} b (k : result exc A) y : (require b ;; k) = Ok y <-> b = true /\ k = Ok y.
Proof. rewrite result_mbind_Ok. setoid_rewrite require_Ok. split; [intros (? & ? & ?)|intros [? ?]; exists tt]; auto. Qed.

Lemma truthy_true s : truthy s = true <-> s <> EmptyString.
Proof. destruct s; split; done. Qed.

Lemma is_empty_true {A} (l : list A) : is_empty l = false <-> l <> [].
Proof. by destruct l. Qed.

Lemma distinct_true l : distinct l = true <-> NoDup l.
Proof. apply bool_decide_eq_true. Qed.

Lemma find_node_elem nodes k n : find_node nodes k = Some n -> n ∈ nodes /\ on_node_key n = k.
Proof. intros [Hin Hk]%List.find_some. apply String.eqb_eq in Hk. by rewrite list_elem_of_In. Qed.

Lemma find_node_NoDup nodes n :
  NoDup (map on_node_key nodes) -> n ∈ nodes -> find_node nodes (on_node_key n) = Some n.
Proof.
  induction nodes as [|m nodes IH]; [by intros _ ?%elem_of_nil|]. cbn [map]. intros [Hnin Hnd]%NoDup_cons Hn.
  unfold find_node. simpl. destruct (String.eqb_spec (on_node_key m) (on_node_key n)) as [E|E].
  - apply elem_of_cons in Hn as [->|Hn]; [done|]. rewrite E in Hnin. destruct Hnin. apply list_elem_of_fmap_2 with (f := on_node_key) in Hn. done.
  - apply elem_of_cons in Hn as [->|Hn]; [done|]. by apply IH.
Qed.

Lemma find_unit_elem units k u : find_unit units k = Some u -> u ∈ units /\ ou_unit_key u = k.
Proof. intros [Hin Hk]%List.find_some. apply String.eqb_eq in Hk. by rewrite list_elem_of_In. Qed.

Lemma find_unit_NoDup units u :
  NoDup (map ou_unit_key units) -> u ∈ units -> find_unit units (ou_unit_key u) = Some u.
Proof.
  induction units as [|m units IH]; [by intros _ ?%elem_of_nil|]. cbn [map]. intros [Hnin Hnd]%NoDup_cons Hn.
  unfold find_unit. simpl. destruct (String.eqb_spec (ou_unit_key m) (ou_unit_key u)) as [E|E].
  - apply elem_of_cons in Hn as [->|Hn]; [done|]. rewrite E in Hnin. destruct Hnin. apply list_elem_of_fmap_2 with (f := ou_unit_key) in Hn. done.
  - apply elem_of_cons in Hn as [->|Hn]; [done|]. by apply IH.
Qed.

(** ** The walk over parents *)

Section nodes.
Context (nodes : list OutlineNode) (Hnd : NoDup (map on_node_key nodes)).

Lemma walk_level fuel seen depth n :
  walk_parents fuel nodes seen depth (on_parent_key n) = Ok tt -> depth <= 3 -> exists d, node_level nodes n d /\ d + depth <= 4.
Proof.
  revert seen depth n. induction fuel as [|fuel IH]; intros seen depth n; simpl.
  - destruct (truthy (on_parent_key n)) eqn:E; [done|]. intros _ Hd. exists 1. split; [|lia]. apply level_root.
    by destruct (on_parent_key n).
  - destruct (truthy (on_parent_key n)) eqn:E; simpl.
    + destruct (find_node nodes (on_parent_key n)) as [parent|] eqn:Ef; [|done]. case_bool_decide; [done|].
      destruct (Nat.ltb_spec 3 (S depth)); [done|]. intros Hw Hd. apply find_node_elem in Ef as [Hp Hk].
      destruct (IH _ _ _ Hw) as (d & Hl & Hle); [lia|]. exists (S d). split; [|lia]. apply (level_child nodes n parent); auto.
      by apply truthy_true.
    + intros _ Hd. exists 1. split; [|lia]. apply level_root. by destruct (on_parent_key n).
Qed.

Lemma level_unique n d d' : node_level nodes n d -> node_level nodes n d' -> d = d'.
Proof.
  intros Hl. revert d'. induction Hl as [n Hr|n parent d Hne Hp Hk Hl IH]; inversion 1; subst; try done. f_equal. apply IH.
  assert (parent0 = parent) as <-; [|done].
  apply (find_node_NoDup _ _ Hnd) in Hp. match goal with Hp0 : parent0 ∈ nodes |- _ => apply (find_node_NoDup _ _ Hnd) in Hp0 as Hf end. congruence.
Qed.

(** A node that is seen lies below the current one. *)
Lemma walk_complete fuel seen depth n d :
  node_level nodes n d -> d + depth <= 4 -> d <= S fuel ->
  (forall m e, m ∈ nodes -> on_node_key m ∈ seen -> node_level nodes m e -> d <= e) ->
  walk_parents fuel nodes seen depth (on_parent_key n) = Ok tt.
Proof.
  intros Hl. revert fuel seen depth. induction Hl as [n Hr|n parent d Hne Hp Hk Hl IH]; intros fuel seen depth Hle Hf Hseen.
  - rewrite Hr. by destruct fuel.
  - destruct fuel as [|fuel]; [inversion Hl; subst; lia|]. simpl. apply truthy_true in Hne as ->. simpl.
    rewrite <- Hk. rewrite (find_node_NoDup _ _ Hnd Hp). rewrite bool_decide_false.
    + assert (1 <= d) by (inversion Hl; lia). destruct (Nat.ltb_spec 3 (S depth)); [lia|]. apply IH; [lia|lia|].
      intros m e Hm [E|Hin]%elem_of_cons He.
      * assert (m = parent) as ->; [|by rewrite (level_unique _ _ _ Hl He)].
        apply (find_node_NoDup _ _ Hnd) in Hm. apply (find_node_NoDup _ _ Hnd) in Hp. congruence.
      * specialize (Hseen m e Hm Hin He). lia.
    + intros Hin. specialize (Hseen parent d Hp Hin Hl). lia.
Qed.
End nodes.

(** ** The assignment of nodes to units *)

Section assignment.
Context (c : OutlineCandidate) (Hnd : NoDup (map on_node_key (oc_nodes c))).

Definition assignable (unit_key k : string) : Prop :=
  exists n, n ∈ oc_nodes c /\ on_node_key n = k /\ on_unit_key n = unit_key.

Lemma assign_nodes_Ok unit_key keys assigned assigned' :
  assign_nodes c unit_key keys assigned = Ok assigned' <->
  (forall k, k ∈ keys -> assignable unit_key k) /\ NoDup keys /\ (forall k, k ∈ keys -> k ∉ assigned) /\
  assigned' = (reverse keys ++ assigned)%list.
Proof.
  revert assigned. induction keys as [|k keys IH]; intros assigned; simpl.
  - split; [intros [= <-]; split_and!; [by intros ? ?%elem_of_nil|constructor|by intros ? ?%elem_of_nil|done]|].
    intros (_ & _ & _ & ->). done.
  - assert (Hf : assignable unit_key k <-> exists n, find_node (oc_nodes c) k = Some n /\ on_unit_key n = unit_key).
    { split; [intros (n & Hn & <- & Hu); exists n; by rewrite find_node_NoDup|].
      intros (n & [Hn Hk]%find_node_elem & Hu). by exists n. }
    destruct (find_node (oc_nodes c) k) as [n|] eqn:E.
    + destruct (String.eqb_spec (on_unit_key n) unit_key) as [Hu|Hu]; simpl.
      * case_bool_decide as Hin; [split; [done|]; intros (_ & _ & Hni & _); destruct (Hni k); [left|done]|].
        rewrite IH. rewrite NoDup_cons, reverse_cons, <- app_assoc. split.
        -- intros (Ha & Hn & Hni & ->). split_and!; try done.
           ++ intros k' [->|Hk']%elem_of_cons; [apply Hf; eauto|by apply Ha].
           ++ intros Hk. apply (Hni k Hk). left.
           ++ intros k' [->|Hk']%elem_of_cons; [done|]. intros Hin'. apply (Hni k' Hk'). by right.
        -- intros (Ha & [Hk Hn] & Hni & ->). split_and!; try done.
           ++ intros k' Hk'. apply Ha. by right.
           ++ intros k' Hk' [->|Hin']%elem_of_cons; [done|]. apply (Hni k'); [by right|done].
      * split; [done|]. intros (Ha & _). destruct (proj1 Hf (Ha k ltac:(left))) as (n' & [= <-] & ?). done.
    + split; [done|]. intros (Ha & _). destruct (proj1 Hf (Ha k ltac:(left))) as (n' & ? & _). done.
Qed.

Definition unit_fields_wf (u : OutlineUnit) : Prop :=
  ou_title u <> EmptyString /\ (0 <= ou_ordinal u)%Z /\ ou_node_keys u <> [] /\
  (forall k, k ∈ ou_node_keys u -> assignable (ou_unit_key u) k) /\
  (forall d, d ∈ ou_depends_on u -> d ∈ map ou_unit_key (oc_units c) /\ d <> ou_unit_key u).

Lemma dependencies_known u :
  forallb (fun d => bool_decide (d ∈ map ou_unit_key (oc_units c)) && negb (String.eqb d (ou_unit_key u))) (ou_depends_on u) = true
  <-> forall d, d ∈ ou_depends_on u -> d ∈ map ou_unit_key (oc_units c) /\ d <> ou_unit_key u.
Proof.
  rewrite forallb_forall. setoid_rewrite andb_true_iff. setoid_rewrite bool_decide_eq_true. setoid_rewrite negb_true_iff.
  setoid_rewrite String.eqb_neq. by setoid_rewrite <- list_elem_of_In.
Qed.

Lemma check_units_Ok units assigned assigned' :
  check_units c units assigned = Ok assigned' <->
  Forall unit_fields_wf units /\ NoDup (mjoin (map ou_node_keys units)) /\
  (forall k, k ∈ mjoin (map ou_node_keys units) -> k ∉ assigned) /\
  assigned' = (reverse (mjoin (map ou_node_keys units)) ++ assigned)%list.
Proof.
  revert assigned. induction units as [|u units IH]; intros assigned; simpl.
  - split; [intros [= <-]; split_and!; [constructor|constructor|by intros ? ?%elem_of_nil|done]|]. by intros (_ & _ & _ & ->).
  - rewrite require_then, result_mbind_Ok, !andb_true_iff, truthy_true, Z.leb_le, negb_true_iff, is_empty_true.
    setoid_rewrite assign_nodes_Ok. setoid_rewrite require_then. setoid_rewrite dependencies_known. rewrite Forall_cons, NoDup_app, reverse_app.
    unfold unit_fields_wf at 1. split.
    + intros [[[Ht Ho] Hne] (a & (Ha & Hnk & Hni & ->) & Hd & (Hu & Hn & Hni' & ->)%IH)]. split_and!; try done.
      * intros k Hk Hk'. apply (Hni' k Hk'). rewrite elem_of_app. left. by apply elem_of_reverse.
      * intros k [Hk|Hk]%elem_of_app; [by apply Hni|]. intros Hin. apply (Hni' k Hk), elem_of_app. by right.
      * by rewrite app_assoc.
    + intros ([(Ht & Ho & Hne & Ha & Hd) Hu] & (Hnk & Hdis & Hn) & Hni & ->). split; [done|].
      exists (reverse (ou_node_keys u) ++ assigned)%list. split; [|split; [exact Hd|]].
      * split; [exact Ha|]. split; [exact Hnk|]. split; [|done]. intros k Hk. apply Hni, elem_of_app. by left.
      * apply IH. split_and!; try done.
        -- intros k Hk [Hin|Hin]%elem_of_app; [rewrite elem_of_reverse in Hin; exact (Hdis k Hin Hk)|]. apply (Hni k); [apply elem_of_app; by right|done].
        -- by rewrite app_assoc.
Qed.
End assignment.

(** ** The search for cycles *)

Section search.
Context (units : list OutlineUnit) (Hnd : NoDup (map ou_unit_key units))
  (Hknown : forall u d, u ∈ units -> d ∈ ou_depends_on u -> d ∈ map ou_unit_key units).

(** A list in which every unit comes before its dependencies. *)
Fixpoint ordered (l : list string) : Prop :=
  match l with
  | [] => True
  | k :: rest => (exists u, u ∈ units /\ ou_unit_key u = k /\ forall d, d ∈ ou_depends_on u -> d ∈ rest) /\ ordered rest
  end.

(** The loop over the dependencies of one unit. *)
Definition visit_deps (fuel : nat) (visiting : list string) : list string -> list string -> result exc (list string) :=
  fix each (deps visited : list string) : result exc (list string) :=
    match deps with
    | [] => Ok visited
    | d :: rest => visited' ← visit fuel units visiting d visited; each rest visited'
    end.

Lemma visit_S fuel visiting key visited :
  visit (S fuel) units visiting key visited =
  if bool_decide (key ∈ visiting) then Raise ValueError
  else if bool_decide (key ∈ visited) then Ok visited
  else match find_unit units key with
       | None => Raise KeyError
       | Some u => visited' ← visit_deps fuel (key :: visiting) (dedup (ou_depends_on u)) visited; Ok (key :: visited')
       end.
Proof. reflexivity. Qed.

Lemma visit_deps_sound fuel visiting deps :
  (forall visiting key visited visited', visit fuel units visiting key visited = Ok visited' -> ordered visited ->
     ordered visited' /\ key ∈ visited' /\ visited ⊆ visited') ->
  forall visited visited', visit_deps fuel visiting deps visited = Ok visited' -> ordered visited ->
    ordered visited' /\ deps ⊆ visited' /\ visited ⊆ visited'.
Proof.
  intros IH. induction deps as [|d deps IHd]; intros visited visited' E Ho; simpl in E.
  - injection E as <-. split_and!; [done|set_solver|done].
  - apply result_mbind_Ok in E as (v & Ev & E). apply IH in Ev as (Hov & Hd & Hsub); [|done].
    destruct (IHd _ _ E Hov) as (Ho' & Hds & Hs). split_and!; [done|set_solver|set_solver].
Qed.

Lemma visit_sound fuel : forall visiting key visited visited',
  visit fuel units visiting key visited = Ok visited' -> ordered visited ->
  ordered visited' /\ key ∈ visited' /\ visited ⊆ visited'.
Proof.
  induction fuel as [|fuel IH]; intros visiting key visited visited'.
  - simpl. case_bool_decide; [done|]. case_bool_decide; [|done]. by intros [= <-].
  - rewrite visit_S. case_bool_decide; [done|]. case_bool_decide; [by intros [= <-]|].
    destruct (find_unit units key) as [u|] eqn:Eu; [|done]. intros E Ho. apply result_mbind_Ok in E as (v & Ev & E).
    injection E as <-. destruct (visit_deps_sound fuel (key :: visiting) (dedup (ou_depends_on u)) IH _ _ Ev Ho) as (Hov & Hd & Hs).
    apply find_unit_elem in Eu as [Hu Hk]. split_and!; [|left|set_solver]. simpl. split; [|done]. exists u. split_and!; [done..|].
    intros d Hdin. apply Hd. by apply dedup_elem.
Qed.

(** An ordered list gives ranks. *)
Lemma ordered_rank l :
  ordered l -> exists rank : string -> nat, forall u d, u ∈ units -> ou_unit_key u ∈ l -> d ∈ ou_depends_on u ->
    d ∈ l /\ rank d < rank (ou_unit_key u).
Proof.
  induction l as [|k l IH]; [intros _; exists (fun _ => 0); by intros u d _ ?%elem_of_nil|].
  intros [(u & Hu & Hk & Hd) Hl]. destruct (IH Hl) as [rank Hrank].
  destruct (decide (k ∈ l)) as [Hin|Hnin].
  - exists rank. intros u' d' Hu' [E|Hin']%elem_of_cons Hd'.
    + destruct (Hrank u' d' Hu'); [by rewrite E|done|]. split; [by right|done].
    + destruct (Hrank u' d' Hu' Hin' Hd'). split; [by right|done].
  - exists (fun x => if decide (x = k) then S (list_max (map rank l)) else rank x).
    intros u' d' Hu' [E|Hin']%elem_of_cons Hd'.
    + assert (u' = u) as ->.
      { apply (find_unit_NoDup _ _ Hnd) in Hu'. apply (find_unit_NoDup _ _ Hnd) in Hu. congruence. }
      specialize (Hd d' Hd'). split; [by right|]. rewrite Hk, (decide_True _ _ eq_refl), decide_False by (intros ->; done).
      pose proof (proj1 (list_max_le (map rank l) _) (Nat.le_refl _)) as Hmax. rewrite Forall_forall in Hmax.
      apply Nat.lt_succ_r, Hmax, list_elem_of_fmap. eauto.
    + destruct (Hrank u' d' Hu' Hin' Hd') as [Hdl Hlt]. split; [by right|].
      rewrite !decide_False by congruence. done.
Qed.

(** With ranks, the search meets no unit twice on a path and ends in time. *)
Section complete.
Context (rank : string -> nat) (Hrank : forall u d, u ∈ units -> d ∈ ou_depends_on u -> rank d < rank (ou_unit_key u)).

Lemma visit_deps_complete fuel visiting deps :
  (forall key visited, key ∈ deps -> exists visited', visit fuel units visiting key visited = Ok visited') ->
  forall visited, exists visited', visit_deps fuel visiting deps visited = Ok visited'.
Proof.
  induction deps as [|d deps IH]; intros Hv visited; simpl; [eauto|].
  destruct (Hv d visited) as [v ->]; [left|]. simpl. apply IH. intros key vis Hk. apply Hv. by right.
Qed.

Lemma visit_complete fuel : forall visiting key visited,
  key ∈ map ou_unit_key units -> NoDup visiting -> visiting ⊆ map ou_unit_key units ->
  (forall v, v ∈ visiting -> rank key < rank v) -> length units < fuel + length visiting ->
  exists visited', visit fuel units visiting key visited = Ok visited'.
Proof.
  induction fuel as [|fuel IH]; intros visiting key visited Hk Hn Hsub Hr Hf.
  - apply (NoDup_submseteq _ _ Hn) in Hsub. apply submseteq_length in Hsub. rewrite length_map in Hsub. lia.
  - rewrite visit_S, bool_decide_false by (intros Hin; specialize (Hr key Hin); lia). case_bool_decide; [eauto|].
    apply list_elem_of_fmap_1 in Hk as (u & -> & Hu). rewrite (find_unit_NoDup _ _ Hnd Hu).
    destruct (visit_deps_complete fuel (ou_unit_key u :: visiting) (dedup (ou_depends_on u))) with (visited := visited) as [v ->];
      [|simpl; eauto].
    intros d vis Hd. rewrite dedup_elem in Hd. pose proof (Hrank u d Hu Hd) as Hlt. apply IH.
    + by eapply Hknown.
    + constructor; [|done]. intros Hin. specialize (Hr _ Hin). lia.
    + intros x [->|Hx]%elem_of_cons; [|by apply Hsub]. apply list_elem_of_fmap. eauto.
    + intros x [->|Hx]%elem_of_cons; [done|]. specialize (Hr x Hx). lia.
    + simpl. lia.
Qed.
End complete.

Lemma visit_all_sound keys visited visited' :
  visit_all units keys visited = Ok visited' -> ordered visited -> ordered visited' /\ keys ⊆ visited' /\ visited ⊆ visited'.
Proof.
  revert visited. induction keys as [|k keys IH]; intros visited E Ho; cbn [visit_all] in E.
  - injection E as <-. split_and!; [done|set_solver|done].
  - apply result_mbind_Ok in E as (v & Ev & E). apply visit_sound in Ev as (Hov & Hk & Hs); [|done].
    destruct (IH _ E Hov) as (Ho' & Hks & Hs'). split_and!; [done|set_solver|set_solver].
Qed.

(** The search accepts exactly the dependency graphs without a cycle. *)
Lemma dependency_graph_exact : validate_dependency_graph units = Ok tt <-> acyclic units.
Proof.
  unfold validate_dependency_graph. rewrite result_mbind_Ok. split.
  - intros (v & E & _). apply visit_all_sound in E as (Ho & Hk & _); [|done]. destruct (ordered_rank v Ho) as [rank Hr].
    exists rank. intros u d Hu Hd. apply (Hr u d Hu); [|done]. apply Hk, list_elem_of_fmap. eauto.
  - intros [rank Hrank]. cut (forall keys visited, keys ⊆ map ou_unit_key units -> exists v, visit_all units keys visited = Ok v).
    { intros Hall. destruct (Hall (map ou_unit_key units) []) as [v Hv]; [done|]. eauto. }
    induction keys as [|k keys IH]; intros visited Hk; cbn [visit_all]; [eauto|].
    destruct (visit_complete rank Hrank (S (length units)) [] k visited) as [v ->];
      [set_solver|constructor|set_solver|by intros ? ?%elem_of_nil|simpl; lia|]. simpl. apply IH. set_solver.
Qed.
End search.

(** ** The validator *)

Lemma check_nodes_Ok c :
  NoDup (map on_node_key (oc_nodes c)) ->
  (exists l, result_map (check_node c) (oc_nodes c) = Ok l) <-> Forall (node_wf c) (oc_nodes c).
Proof.
  intros Hnd. assert (Hone : forall n u, n ∈ oc_nodes c -> check_node c n = Ok u <-> node_wf c n).
  { intros n [] Hn. unfold check_node, node_wf. rewrite require_then, !andb_true_iff, truthy_true, Z.leb_le, bool_decide_eq_true. split.
    - intros [[[Ht Ho] Hu] Hw]. split_and!; try done. destruct (walk_level _ _ _ _ _ Hw) as (d & Hl & Hd); [lia|]. exists d. split; [done|lia].
    - intros (Ht & Ho & Hu & d & Hl & Hd). split; [done|]. apply (walk_complete (oc_nodes c) Hnd 3 _ _ n d Hl); [lia|lia|].
      intros m e Hm Hin He.
      apply list_elem_of_singleton in Hin. assert (m = n) as ->; [|by rewrite (level_unique _ Hnd _ _ _ Hl He)].
      apply (find_node_NoDup _ _ Hnd) in Hm. apply (find_node_NoDup _ _ Hnd) in Hn. congruence. }
  setoid_rewrite result_map_Ok. rewrite Forall_forall. split.
  - intros [l Hl] n Hn. apply list_elem_of_lookup in Hn as [i Hi]. destruct (Forall2_lookup_l _ _ _ _ _ Hl Hi) as (u & _ & E).
    apply (Hone n u); [by eapply list_elem_of_lookup_2|done].
  - intros Hall. exists (map (fun _ => tt) (oc_nodes c)). apply Forall2_fmap_r, Forall_Forall2_diag, Forall_forall.
    intros n Hn. by apply Hone, Hall.
Qed.

Lemma assigned_all (nodes assigned : list string) :
  forallb (fun k => bool_decide (k ∈ assigned)) nodes && forallb (fun k => bool_decide (k ∈ nodes)) assigned = true <->
  nodes ⊆ assigned /\ assigned ⊆ nodes.
Proof.
  rewrite andb_true_iff, !forallb_forall. setoid_rewrite bool_decide_eq_true. by setoid_rewrite <- list_elem_of_In.
Qed.

Lemma validate_outline_wf (c : OutlineCandidate) : validate_outline c = Ok tt <-> outline_wf c.
Proof.
  unfold validate_outline. rewrite !require_then, !andb_true_iff, String.eqb_eq, !truthy_true, !negb_true_iff, !is_empty_true,
    Nat.leb_le, !distinct_true, !bool_decide_eq_false.
  split.
  - intros (Hs & [[Ht Hz] Hn] & [Hu Hc] & Hnk & Huk & E). apply result_mbind_Ok in E as (l & El & E).
    apply result_mbind_Ok in E as (a & Ea & E). apply require_then in E as [Hall%assigned_all Hg].
    apply (check_units_Ok c (proj1 Hnk)) in Ea as (Huw & Hnd & _ & ->). rewrite app_nil_r in Hall.
    assert (Hknown : forall u d, u ∈ oc_units c -> d ∈ ou_depends_on u -> d ∈ map ou_unit_key (oc_units c)).
    { intros u d Hin Hd. rewrite Forall_forall in Huw. by apply (Huw u Hin). }
    constructor; try done.
    + destruct (oc_units c); [done|]. simpl in *. lia.
    + split; [done|]. apply (check_nodes_Ok c (proj1 Hnk)). eauto.
    + eapply Forall_impl; [exact Huw|]. intros u (H1 & H2 & H3 & H4 & H5). split_and!; try done. intros d Hd. by apply H5.
    + split; [done|]. intros k Hk. apply elem_of_reverse. by apply Hall.
    + by apply (dependency_graph_exact _ (proj1 Huk) Hknown).
  - intros [Hs Ht Hz Hc Hnk Huk [Hn Hnw] Huw [Hnd Hall] [rank Hrank]].
    split_and!; try done; try lia; try apply Hnk; try apply Huk.
    { by intros E; rewrite E in Hc; simpl in Hc; lia. }
    apply (check_nodes_Ok c (proj1 Hnk)) in Hnw as [l Hl]. apply result_mbind_Ok. exists l. split; [done|].
    apply result_mbind_Ok. exists (reverse (mjoin (map ou_node_keys (oc_units c)))). split.
    + apply (check_units_Ok c (proj1 Hnk)). rewrite app_nil_r. split_and!; try done; [|by intros k _ ?%elem_of_nil].
      rewrite Forall_forall in Huw. apply Forall_forall. intros u Hin. destruct (Huw u Hin) as (H1 & H2 & H3 & H4 & H5).
      split_and!; try done. intros d Hd. split; [by apply H5|]. intros ->. specialize (Hrank u _ Hin Hd). lia.
    + apply require_then. split.
      * apply assigned_all. split; intros k Hk; [apply elem_of_reverse; by apply Hall|]. rewrite elem_of_reverse in Hk.
        apply list_elem_of_join in Hk as (ks & Hk & Hks). apply list_elem_of_fmap_1 in Hks as (u & -> & Hu).
        rewrite Forall_forall in Huw. destruct (Huw u Hu) as (_ & _ & _ & Hex & _). destruct (Hex k Hk) as (n & Hin & <- & _).
        apply list_elem_of_fmap. eauto.
      * apply dependency_graph_exact; [by apply Huk| |by exists rank]. intros u d Hu Hd. rewrite Forall_forall in Huw. by apply (Huw u Hu).
Qed.

(** ** Errors *)

Lemma require_error b e : require b = Raise e -> e = ValueError.
Proof. unfold require. destruct b; [done|]. by intros [= <-]. Qed.

Lemma bind_error {E A B} (k : A -> result E B) (r : result E A) e :
  (r ≫= k) = Raise e -> r = Raise e \/ exists x, r = Ok x /\ k x = Raise e.
Proof. destruct r as [x|e']; simpl; [right; eauto|]. intros [= ->]. by left. Qed.

Lemma require_then_error {A} b (k : result exc A) e : (require b ;; k) = Raise e -> e = ValueError \/ k = Raise e.
Proof. intros [Hr%require_error|(x & _ & Hk)]%bind_error; auto. Qed.

Lemma result_map_error {A B} (f : A -> result exc B) l e :
  result_map f l = Raise e -> exists x, x ∈ l /\ f x = Raise e.
Proof.
  induction l as [|x l IH]; simpl; [done|]. intros [Hx|(y & _ & Hl)]%bind_error; [exists x; split; [left|done]|].
  apply bind_error in Hl as [Hl|(ys & _ & ?)]; [|done]. destruct (IH Hl) as (z & Hz & Ez). exists z. split; [by right|done].
Qed.

Lemma walk_error fuel nodes seen depth parent e :
  4 <= fuel + depth -> walk_parents fuel nodes seen depth parent = Raise e -> depth <= 3 -> e = ValueError.
Proof.
  revert seen depth parent. induction fuel as [|fuel IH]; intros seen depth parent Hf; simpl.
  - lia.
  - destruct (negb (truthy parent)); [done|]. destruct (find_node nodes parent) as [n|]; [|by intros [= <-]].
    case_bool_decide; [by intros [= <-]|]. destruct (Nat.ltb_spec 3 (S depth)); [by intros [= <-]|]. intros E _. apply IH in E; [done|lia|lia].
Qed.

Lemma check_node_error c n e : check_node c n = Raise e -> e = ValueError.
Proof. intros [?|Hw]%require_then_error; [done|]. apply walk_error in Hw; [done|lia|lia]. Qed.

Lemma assign_error c key keys assigned e : assign_nodes c key keys assigned = Raise e -> e = ValueError.
Proof.
  revert assigned. induction keys as [|k keys IH]; intros assigned; simpl; [done|].
  destruct (find_node _ _); [|by intros [= <-]]. destruct (_ || _); [by intros [= <-]|]. apply IH.
Qed.

Lemma check_units_error c units assigned e : check_units c units assigned = Raise e -> e = ValueError.
Proof.
  revert assigned. induction units as [|u units IH]; intros assigned; simpl; [done|].
  intros [?|[Ha%assign_error|(x & _ & Hk)]%bind_error]%require_then_error; [done|done|].
  apply require_then_error in Hk as [?|Hk]; [done|]. by apply IH in Hk.
Qed.

(** Every unit that is met is known, and no path is longer than the units. *)
Lemma visit_error units fuel :
  NoDup (map ou_unit_key units) -> (forall u d, u ∈ units -> d ∈ ou_depends_on u -> d ∈ map ou_unit_key units) ->
  forall visiting key visited e, key ∈ map ou_unit_key units -> NoDup visiting -> visiting ⊆ map ou_unit_key units ->
    length units < fuel + length visiting -> visit fuel units visiting key visited = Raise e -> e = ValueError.
Proof.
  intros Hnd Hknown. induction fuel as [|fuel IH]; intros visiting key visited e Hk Hn Hsub Hf.
  - apply (NoDup_submseteq _ _ Hn) in Hsub. apply submseteq_length in Hsub. rewrite length_map in Hsub. lia.
  - rewrite visit_S. case_bool_decide as Hin; [by intros [= <-]|]. case_bool_decide; [done|].
    apply list_elem_of_fmap_1 in Hk as (u & -> & Hu). rewrite (find_unit_NoDup _ _ Hnd Hu).
    intros [Hd|(v & _ & ?)]%bind_error; [|done]. revert Hd. assert (Hdeps : forall d, d ∈ dedup (ou_depends_on u) -> d ∈ map ou_unit_key units).
    { intros d Hd. rewrite dedup_elem in Hd. by eapply Hknown. }
    clear H. revert visited Hdeps. generalize (dedup (ou_depends_on u)). intros deps. induction deps as [|d deps IHd]; intros vis Hdeps; [done|].
    simpl. intros [Hv|(v & _ & Hv)]%bind_error.
    + apply IH in Hv; [done|apply Hdeps; left|by constructor| |simpl; lia].
      intros x [->|Hx]%elem_of_cons; [|by apply Hsub]. apply list_elem_of_fmap. eauto.
    + apply IHd in Hv; [done|]. intros x Hx. apply Hdeps. by right.
Qed.

Lemma visit_all_error units keys visited e :
  NoDup (map ou_unit_key units) -> (forall u d, u ∈ units -> d ∈ ou_depends_on u -> d ∈ map ou_unit_key units) ->
  keys ⊆ map ou_unit_key units -> visit_all units keys visited = Raise e -> e = ValueError.
Proof.
  intros Hnd Hknown. revert visited. induction keys as [|k keys IH]; intros visited Hk; cbn [visit_all]; [done|].
  intros [Hv|(v & _ & Hv)]%bind_error; [|apply IH in Hv; [done|set_solver]].
  eapply (visit_error units (S (length units)) Hnd Hknown); [|constructor| | |exact Hv]; [set_solver|set_solver|simpl; lia].
Qed.

Lemma validate_outline_error c e : validate_outline c = Raise e -> e = ValueError.
Proof.
  unfold validate_outline. do 3 (intros [?|E]%require_then_error; [done|revert E]).
  intros [Hr%require_error|(u1 & Hnk & E)]%bind_error; [done|]. apply bind_error in E as [Hr%require_error|(u2 & Huk & E)]; [done|].
  apply require_Ok, andb_true_iff in Hnk as [Hnk%distinct_true _]. apply require_Ok, andb_true_iff in Huk as [Huk%distinct_true _].
  apply bind_error in E as [(n & _ & Hn%check_node_error)%result_map_error|(l & _ & E)]; [done|].
  apply bind_error in E as [Ha%check_units_error|(a & Ha & E)]; [done|]. apply require_then_error in E as [?|E]; [done|].
  apply bind_error in E as [E|(v & _ & ?)]; [|done]. apply (check_units_Ok c Hnk) in Ha as (Hu & _). rewrite Forall_forall in Hu.
  eapply visit_all_error; [exact Huk| |reflexivity|exact E]. intros u d Hin Hd. by apply (Hu u Hin).
Qed.

(** C14: an outline candidate is built exactly when it is well formed: its keys
    are distinct and not empty, every node lies in a forest of at most three
    levels and in exactly one unit, which it names, there are one to fifteen
    units, and the units can be ordered so that each depends on earlier ones
    only.  Otherwise a [ValueError] is raised: the parent walk and the search for
    cycles end within their bounds and never meet an unknown key. *)
Theorem outline_accepted_exactly (title size : string) (nodes : list OutlineNode) (units : list OutlineUnit) (schema : string) :
  match make_outline title size nodes units schema with
  | Ok c => c = mkOutline title size nodes units schema /\ outline_wf c
  | Raise e => e = ValueError /\ ~ outline_wf (mkOutline title size nodes units schema)
  end.
Proof.
  unfold make_outline. destruct (validate_outline _) as [[]|e] eqn:E; simpl; [by apply validate_outline_wf in E|].
  split; [by eapply validate_outline_error|]. intros Hwf%validate_outline_wf. congruence.
Qed.

(** * Outlines, candidates and patches read back

    A value that was read from a mapping is read again from the mapping it is
    written as. *)
Open Scope string_scope.

Section roundtrip.
Context `{Builtins}.

(** Strings as the readers leave them. *)
Definition clean (l : list string) : Prop := Forall (fun s => strip s = s) l /\ forallb truthy l = true /\ distinct l = true.

Lemma json_strings_clean v l : json_strings v = Ok l -> clean l.
Proof.
  destruct v as [[| | | | |js|]|]; simpl; try done; try (intros E; injection E as <-; by repeat constructor).
  rewrite require_then, andb_true_iff. intros [[Ht Hd] E]. injection E as <-. split_and!; [|done..].
  apply Forall_fmap, Forall_forall. intros j _. apply strip_idem.
Qed.

Lemma json_strings_strs l : clean l -> json_strings (Some (strs l)) = Ok l.
Proof.
  intros (Hs & Ht & Hd). unfold strs. simpl. rewrite map_map.
  assert (E : map (fun s => strip (py_str (JStr s))) l = l).
  { clear Ht Hd. induction Hs as [|s l Es _ IH]; [done|]. cbn [map]. f_equal; [exact Es|exact IH]. }
  rewrite E. by rewrite Ht, Hd.
Qed.

Lemma mappings_objs (ms : list (list (string * json))) : mappings (Some (JArr (map JObj ms))) = Ok ms.
Proof. simpl. induction ms as [|m ms IH]; [done|]. simpl. by rewrite IH. Qed.

Lemma result_map_map {X Y Z} (f : X -> Y) (g : Y -> result exc Z) l zs :
  Forall2 (fun x z => g (f x) = Ok z) l zs -> result_map g (map f l) = Ok zs.
Proof. intros Hf. apply result_map_Ok. by apply Forall2_fmap_l. Qed.

Lemma stripped_again k (m m' : list (string * json)) :
  jget k m' = Some (JStr (stripped_get k m)) -> stripped_get k m' = stripped_get k m.
Proof. intros E. unfold stripped_get at 1, str_get. rewrite E. simpl. apply strip_idem. Qed.

(** *** Outlines *)

Definition node_members (n : OutlineNode) : list (string * json) := match node_json n with JObj m => m | _ => [] end.
Definition unit_members (u : OutlineUnit) : list (string * json) := match unit_json u with JObj m => m | _ => [] end.

Lemma node_reads m n : node_of_dict m = Ok n -> node_of_dict (node_members n) = Ok n.
Proof.
  unfold node_of_dict. intros E. apply result_mbind_Ok in E as (o & _ & E). apply result_mbind_Ok in E as (q & Hq & E).
  apply result_mbind_Ok in E as (r & Hr & E). injection E as <-. apply json_strings_clean in Hq, Hr. unfold node_members, node_json.
  cbn [on_node_key on_title on_ordinal on_unit_key on_parent_key on_questions on_required_content].
  change (int_get "ordinal" 0 _) with (@Ok exc Z o). cbn [mbind result_mbind result_bind].
  change (jget "questions" _) with (Some (strs q)). change (jget "required_content" _) with (Some (strs r)).
  rewrite !json_strings_strs by done. cbn [mbind result_mbind result_bind].
  f_equal. f_equal; by apply stripped_again.
Qed.

Lemma unit_reads m u : unit_of_dict m = Ok u -> unit_of_dict (unit_members u) = Ok u.
Proof.
  unfold unit_of_dict. intros E. apply result_mbind_Ok in E as (o & _ & E). apply result_mbind_Ok in E as (q & Hq & E).
  apply result_mbind_Ok in E as (r & Hr & E). injection E as <-. apply json_strings_clean in Hq, Hr. unfold unit_members, unit_json.
  cbn [ou_unit_key ou_title ou_ordinal ou_node_keys ou_depends_on].
  change (int_get "ordinal" 0 _) with (@Ok exc Z o). cbn [mbind result_mbind result_bind].
  change (jget "node_keys" _) with (Some (strs q)). change (jget "depends_on" _) with (Some (strs r)).
  rewrite !json_strings_strs by done. cbn [mbind result_mbind result_bind].
  f_equal. f_equal; by apply stripped_again.
Qed.

Lemma outline_reads m c : outline_of_dict m = Ok c -> outline_of_dict (outline_json c) = Ok c.
Proof.
  unfold outline_of_dict. rewrite require_then. intros [_ E]. apply result_mbind_Ok in E as (rn & _ & E).
  apply result_mbind_Ok in E as (nodes & Hn & E). apply result_mbind_Ok in E as (ru & _ & E).
  apply result_mbind_Ok in E as (units & Hu & E). apply result_mbind_Ok in E as (c' & Hc & E).
  apply require_then in E as [_ E]. injection E as ->. unfold make_outline in Hc. apply result_mbind_Ok in Hc as ([] & Hv & Hc).
  injection Hc as <-. set (c := mkOutline _ _ nodes units _) in *.
  assert (Hnodes : result_map node_of_dict (map node_members nodes) = Ok nodes).
  { apply result_map_map. apply result_map_Ok in Hn. clear -Hn. induction Hn as [|x y l l' Hx _ IH]; constructor; [by eapply node_reads|done]. }
  assert (Hunits : result_map unit_of_dict (map unit_members units) = Ok units).
  { apply result_map_map. apply result_map_Ok in Hu. clear -Hu. induction Hu as [|x y l l' Hx _ IH]; constructor; [by eapply unit_reads|done]. }
  change (jget "nodes" (outline_json c)) with (Some (JArr (map node_json nodes))).
  change (jget "units" (outline_json c)) with (Some (JArr (map unit_json units))).
  assert (En : map node_json nodes = map JObj (map node_members nodes)) by (by rewrite map_map).
  assert (Eu : map unit_json units = map JObj (map unit_members units)) by (by rewrite map_map).
  rewrite En, Eu, !mappings_objs. cbn [mbind result_mbind result_bind require].
  change (String.eqb (str_get "schema_version" "outline-candidate.v1" (outline_json c)) "outline-candidate.v1") with true.
  cbv beta iota delta [require]. cbn [mbind result_mbind result_bind]. rewrite Hnodes. cbn [mbind result_mbind result_bind].
  rewrite Hunits. cbn [mbind result_mbind result_bind].
  rewrite (stripped_again "title" m) by reflexivity. rewrite (stripped_again "requirement_size" m) by reflexivity.
  unfold make_outline. fold c. rewrite Hv. cbn [mbind result_mbind result_bind].
  change (str_get "content_hash" EmptyString (outline_json c)) with (outline_hash c).
  by rewrite String.eqb_refl, orb_true_r.
Qed.

(** *** Claims, candidates and patches *)

Definition stripped_claim (c : UnitClaim) : UnitClaim :=
  mkClaim (cl_claim_type c) (cl_criticality c) (strip (cl_statement c)) (cl_evidence_refs c).

Definition claim_members (key : string) (c : UnitClaim) : list (string * json) :=
  match claim_json key c with JObj m => m | _ => [] end.

Lemma claim_reads key m c : claim_of_dict m = Ok c -> claim_of_dict (claim_members key c) = Ok (stripped_claim c).
Proof.
  unfold claim_of_dict. intros E. apply result_mbind_Ok in E as (t & _ & E). apply result_mbind_Ok in E as (k & _ & E).
  apply result_mbind_Ok in E as (refs & Hr & E). apply require_then in E as [Hs E]. injection E as <-. apply json_strings_clean in Hr.
  set (c := mkClaim _ _ _ _).
  change (str_get "claim_type" "PROPOSED_BEHAVIOR" (claim_members key c)) with (DraftClaim.type_value t).
  change (str_get "criticality" "IMPORTANT" (claim_members key c)) with (DraftClaim.criticality_value k).
  change (jget "evidence_refs" (claim_members key c)) with (Some (strs refs)).
  change (str_get "statement" EmptyString (claim_members key c)) with (strip (str_get "statement" EmptyString m)).
  assert (Ht : DraftClaim.read_type (DraftClaim.type_value t) = Ok t) by (by destruct t).
  assert (Hk : DraftClaim.read_criticality (DraftClaim.criticality_value k) = Ok k) by (by destruct k).
  rewrite Ht, Hk, json_strings_strs by done. cbn [mbind result_mbind result_bind]. by rewrite strip_idem, Hs.
Qed.

(** The claims of a value that carries them under [claims]. *)
Lemma claims_read key m claims (m' : list (string * json)) :
  claims_of_dict m = Ok claims -> jget "claims" m' = Some (JArr (map (claim_json key) claims)) ->
  claims_of_dict m' = Ok (map stripped_claim claims).
Proof.
  unfold claims_of_dict. intros E Hg. apply result_mbind_Ok in E as (raw & _ & E). rewrite Hg.
  change (default (JArr []) (Some (JArr (map (claim_json key) claims)))) with (JArr (map (claim_json key) claims)).
  assert (Em : map (claim_json key) claims = map JObj (map (claim_members key) claims)) by (by rewrite map_map).
  rewrite Em, mappings_objs. cbn [mbind result_mbind result_bind]. apply result_map_map. apply result_map_Ok in E.
  clear -E. induction E as [|x y l l' Hx _ IH]; constructor; [by eapply claim_reads|done].
Qed.

Definition stripped_candidate (c : UnitCandidate) : UnitCandidate :=
  mkCandidate (uc_unit_key c) (uc_title c) (uc_ordinal c) (uc_node_keys c) (strip (uc_markdown c)) (map stripped_claim (uc_claims c))
    (uc_claim_ids c) (uc_unknown_ids c) (uc_used_fact_ids c) (uc_schema_version c).

Definition stripped_patch (p : UnitPatch) : UnitPatch :=
  mkPatch (up_unit_key p) (bare_hash (up_base_content_hash p)) (strip (up_replacement_markdown p))
    (map stripped_claim (up_claims p)) (up_resolved_issue_ids p) (up_preserved_unknown_ids p) (up_used_fact_ids p) (up_schema_version p).

(** A digest is written without the tag. *)
Context (Hbare : forall s, bare_hash (sha256_hex s) = sha256_hex s).

Lemma candidate_reads m c :
  candidate_of_dict m = Ok c -> candidate_of_dict (candidate_json c) = Ok (stripped_candidate c).
Proof.
  unfold candidate_of_dict. intros E. apply result_mbind_Ok in E as (o & _ & E). apply result_mbind_Ok in E as (nodes & Hn & E).
  apply result_mbind_Ok in E as (claims & Hc & E). apply result_mbind_Ok in E as (ids & Hi & E).
  apply result_mbind_Ok in E as (unknown & Hu & E). apply result_mbind_Ok in E as (used & Hf & E).
  apply result_mbind_Ok in E as (c' & Hck & E). apply require_then in E as [_ E]. injection E as ->.
  assert (Ec := Hck). unfold check_candidate in Ec. rewrite !require_then in Ec. destruct Ec as (Hs & Hid & Hmd & Ec). injection Ec as <-.
  clear Hck. set (c := mkCandidate _ _ _ _ _ _ _ _ _ _) in *. apply json_strings_clean in Hn, Hi, Hu, Hf.
  change (int_get "ordinal" 0 (candidate_json c)) with (@Ok exc Z o).
  change (jget "node_keys" (candidate_json c)) with (Some (strs nodes)).
  change (jget "claim_ids" (candidate_json c)) with (Some (strs ids)).
  change (jget "unknown_ids" (candidate_json c)) with (Some (strs unknown)).
  change (jget "used_fact_ids" (candidate_json c)) with (Some (strs used)).
  rewrite (claims_read (uc_unit_key c) m claims) by done. rewrite !json_strings_strs by done. cbn [mbind result_mbind result_bind].
  rewrite (stripped_again "unit_key" m) by reflexivity. rewrite (stripped_again "title" m) by reflexivity.
  change (str_get "markdown" EmptyString (candidate_json c)) with (strip (uc_markdown c)).
  change (str_get "schema_version" "unit-candidate.v1" (candidate_json c)) with (uc_schema_version c).
  change (str_get "content_hash" EmptyString (candidate_json c)) with (candidate_hash c).
  change (mkCandidate _ _ o nodes (strip (uc_markdown c)) _ ids unknown used _) with (stripped_candidate c).
  unfold check_candidate. cbn [uc_schema_version uc_unit_key uc_title uc_ordinal uc_node_keys uc_markdown stripped_candidate].
  rewrite Hs, strip_idem, Hmd. change (truthy (uc_unit_key c) && _ && _ && _) with
    (truthy (uc_unit_key c) && truthy (uc_title c) && (0 <=? uc_ordinal c)%Z && negb (is_empty (uc_node_keys c))). rewrite Hid.
  cbn [require mbind result_mbind result_bind].
  assert (Eh : candidate_hash (stripped_candidate c) = candidate_hash c) by (unfold candidate_hash; simpl; by rewrite strip_idem).
  assert (Eb : bare_hash (candidate_hash c) = candidate_hash c) by apply Hbare.
  by rewrite Eh, Eb, String.eqb_refl, orb_true_r.
Qed.

(** Outlines and unit candidates read back.  Every outline and every
    candidate that was read from a mapping, whatever the mapping, is read again
    from the mapping it is written as: the outline as it was, the candidate with
    its text and statements stripped and with the same content hash. *)
Theorem unit_values_roundtrip :
  (forall (m : list (string * json)) c, outline_of_dict m = Ok c -> outline_of_dict (outline_json c) = Ok c) /\
  (forall (m : list (string * json)) c, candidate_of_dict m = Ok c ->
     candidate_of_dict (candidate_json c) = Ok (stripped_candidate c) /\ candidate_hash (stripped_candidate c) = candidate_hash c).
Proof.
  split; [apply outline_reads|]. intros m c Hc. split; [by eapply candidate_reads|].
  unfold candidate_hash. simpl. by rewrite strip_idem.
Qed.
End roundtrip.
