(* ===== verification/UnitRunFacts.v ===== *)
(** * What a run of a scoped unit can return *)
From stdpp Require Import base list sets strings pretty.
From Stdlib Require Import ZArith Lia.
From S2P Require Import Prelude.
From S2P Require Import PyDict.
From S2P Require Import Json.
From S2P Require Import CanonicalJson.
From S2P Require Import PyText.
From S2P Require Import Ledger.
From S2P Require Import UnitModels.
From S2P Require Import UnitQuality.
From S2P Require Import UnitRun.
From S2P Require Import PyStrip.
From S2P Require Import UnitOutlineFacts.
#[local] Open Scope nat_scope.
Open Scope string_scope.

(** * The locked heading of a unit

    [_validate_heading] and [_locked_markdown]: which titles a text can carry as
    its first heading. *)

(** ** Lines *)

(** No line boundary starts anywhere in the text. *)
Fixpoint no_break (s : string) : bool :=
  match s with
  | EmptyString => true
  | String _ s' => match boundary_at s with None => no_break s' | Some _ => false end
  end.

Lemma boundary_None s : boundary_at s = None <-> forall b, b ∈ line_boundaries -> String.prefix b s = false.
Proof.
  unfold boundary_at. destruct (List.filter _ line_boundaries) as [|b l] eqn:E.
  - split; [|done]. intros _ b Hb. destruct (String.prefix b s) eqn:Ep; [|done].
    assert (Hin : In b (List.filter (fun b => String.prefix b s) line_boundaries)) by (apply List.filter_In; by rewrite <- list_elem_of_In).
    by rewrite E in Hin.
  - split; [done|]. intros Hn. assert (Hin : In b (List.filter (fun b => String.prefix b s) line_boundaries)) by (rewrite E; by left).
    apply List.filter_In in Hin as [Hb%list_elem_of_In Hp]. rewrite Hn in Hp; done.
Qed.

Lemma boundary_prefix s t : boundary_at (s +:+ t) = None -> boundary_at s = None.
Proof.
  rewrite !boundary_None. intros Hn b Hb. specialize (Hn b Hb). destruct (String.prefix b s) eqn:Ep; [|done].
  apply prefix_spec in Ep as [u ->]. rewrite <- Hn. symmetry. apply prefix_spec. exists (u +:+ t). apply app_assoc_s.
Qed.

Lemma no_break_app_l s t : no_break (s +:+ t) = true -> no_break s = true.
Proof.
  induction s as [|c s IH]; [done|]. rewrite app_cons_s. cbn [no_break]. destruct (boundary_at (String c (s +:+ t))) eqn:E; [done|].
  rewrite <- app_cons_s in E. apply boundary_prefix in E as ->. apply IH.
Qed.

(** The text read so far has no boundary, whatever follows. *)
Fixpoint open_line (current rest : string) : Prop :=
  match current with
  | EmptyString => True
  | String c current' => boundary_at (String c (current' +:+ rest)) = None /\ open_line current' rest
  end.

Lemma open_line_no_break current rest : open_line current rest -> no_break current = true.
Proof.
  induction current as [|c current IH]; [done|]. intros [Hb Ho]. cbn [no_break]. rewrite <- app_cons_s in Hb.
  apply boundary_prefix in Hb as ->. by apply IH.
Qed.

Lemma open_line_snoc current c rest :
  open_line current (String c rest) -> boundary_at (String c rest) = None -> open_line (current +:+ String c EmptyString) rest.
Proof.
  intros Ho Hc. induction current as [|d current IH]; [by split|]. destruct Ho as [Hd Ho]. rewrite app_cons_s. split; [|by apply IH].
  by rewrite app_assoc_s.
Qed.

Lemma splitlines_no_break fuel current s l :
  open_line current s -> l ∈ splitlines_from fuel current s -> no_break l = true.
Proof.
  revert current s. induction fuel as [|fuel IH]; intros current s Ho; simpl.
  - destruct current as [|c cur]; [by intros ?%elem_of_nil|]. intros ->%list_elem_of_singleton. by apply open_line_no_break in Ho.
  - destruct s as [|c s].
    + destruct current as [|d cur]; [by intros ?%elem_of_nil|]. intros ->%list_elem_of_singleton. by apply open_line_no_break in Ho.
    + destruct (boundary_at (String c s)) as [n|] eqn:E.
      * intros [->|Hl]%elem_of_cons; [by apply open_line_no_break in Ho|]. by eapply IH in Hl.
      * apply IH. by apply open_line_snoc.
Qed.

(** A line that is followed by a line feed. *)
Definition newline : string := str_of_codes [10].

Lemma prefix_app_inv b x y :
  String.prefix b (x +:+ y) = true -> String.prefix b x = true \/ exists z, b = x +:+ z /\ String.prefix z y = true.
Proof.
  revert b. induction x as [|c x IH]; intros b Hp; [right; exists b; done|].
  destruct b as [|d b]; [by left|]. rewrite app_cons_s in Hp. simpl in Hp |- *. destruct (Ascii.ascii_dec d c) as [->|]; [|done].
  destruct (IH b Hp) as [Hx|(z & -> & Hz)]; [by left|right]. exists z. by rewrite app_cons_s.
Qed.

(** Inside a boundary a line feed only follows a carriage return. *)
Lemma boundary_line_feed c s z :
  String c s +:+ String (Ascii.ascii_of_nat 10) z ∈ line_boundaries -> String c s = str_of_codes [13].
Proof.
  rewrite app_cons_s. intros Hb. unfold line_boundaries in Hb. cbn in Hb.
  repeat (apply elem_of_cons in Hb as [Hb|Hb]; [injection Hb as -> Hb; destruct s as [|d [|e [|f s]]];
    rewrite ?app_cons_s in Hb; first [reflexivity | discriminate Hb | injection Hb; intros; discriminate]|]).
  by apply elem_of_nil in Hb.
Qed.

Lemma break_at_end c s rest : no_break (String c s) = true -> boundary_at (String c s +:+ newline +:+ rest) = None.
Proof.
  intros Hn. assert (Hs : boundary_at (String c s) = None) by (cbn [no_break] in Hn; by destruct (boundary_at (String c s))).
  rewrite boundary_None in Hs |- *. intros b Hb. destruct (String.prefix b (String c s +:+ newline +:+ rest)) eqn:Ep; [|done].
  destruct (prefix_app_inv _ _ _ Ep) as [Hp|(z & -> & Hz)]; [by rewrite Hs in Hp|]. destruct z as [|d z].
  - rewrite app_nil_s in Hb. rewrite <- (Hs _ Hb). symmetry. apply prefix_spec. exists EmptyString. by rewrite app_nil_s.
  - assert (d = Ascii.ascii_of_nat 10) as ->.
    { unfold newline in Hz. cbn [str_of_codes foldr] in Hz. rewrite app_cons_s in Hz. simpl in Hz. by destruct (Ascii.ascii_dec d _) as [->|]. }
    apply boundary_line_feed in Hb. by rewrite Hb in Hn.
Qed.

Lemma first_line fuel current s rest :
  String.length (s +:+ newline +:+ rest) <= fuel -> no_break s = true ->
  exists lines, splitlines_from fuel current (s +:+ newline +:+ rest) = (current +:+ s) :: lines.
Proof.
  revert fuel current. induction s as [|c s IH]; intros fuel current Hf Hn.
  - change (EmptyString +:+ newline +:+ rest) with (String (Ascii.ascii_of_nat 10) rest) in Hf |- *.
    destruct fuel as [|fuel]; [simpl in Hf; lia|]. rewrite app_nil_s. cbn [splitlines_from].
    assert (E : boundary_at (String (Ascii.ascii_of_nat 10) rest) = Some 1) by (by destruct rest). rewrite E. eauto.
  - rewrite app_cons_s in Hf |- *. destruct fuel as [|fuel]; [simpl in Hf; lia|]. cbn [splitlines_from].
    pose proof (break_at_end c s rest Hn) as E. rewrite app_cons_s in E. rewrite E.
    destruct (IH fuel (current +:+ String c EmptyString)) as [lines ->].
    + simpl in Hf. lia.
    + cbn [no_break] in Hn. by destruct (boundary_at (String c s)).
    + exists lines. by rewrite app_assoc_s.
Qed.

(** ** Headings *)

Lemma first_heading_title title markdown :
  first_heading_is title markdown = true -> strip title = title.
Proof.
  unfold first_heading_is, headings. destruct (List.filter _ (splitlines markdown)) as [|line lines]; [done|]. simpl.
  intros <-%String.eqb_eq. apply strip_idem.
Qed.

Lemma lstrip_char_suffix sep s : exists p, s = p +:+ lstrip_char sep s.
Proof.
  induction s as [|c s [p IH]]; [by exists EmptyString|]. simpl. destruct (Ascii.eqb c sep); [|by exists EmptyString].
  exists (String c p). by rewrite app_cons_s, <- IH.
Qed.

Lemma no_break_suffix p s : no_break (p +:+ s) = true -> no_break s = true.
Proof.
  induction p as [|c p IH]; [done|]. rewrite app_cons_s. cbn [no_break]. destruct (boundary_at _); [done|]. exact IH.
Qed.

Lemma lstrip_suffix s : exists p, s = p +:+ lstrip s.
Proof.
  unfold lstrip. generalize (String.length s). intros n. revert s. induction n as [|n IH]; intros s; simpl; [by exists EmptyString|].
  destruct (leading_space s) as [s'|] eqn:E; [|by exists EmptyString]. apply leading_space_Some in E as (w & _ & ->).
  destruct (IH s') as [p Hp]. exists (w +:+ p). by rewrite app_assoc_s, <- Hp.
Qed.

Lemma no_break_strip s : no_break s = true -> no_break (strip s) = true.
Proof.
  intros Hn. destruct (lstrip_suffix s) as [p Hp]. rewrite Hp in Hn. apply no_break_suffix in Hn. unfold strip.
  destruct (rstrip_split (lstrip s)) as (z & Hz & _). rewrite Hz in Hn. by apply no_break_app_l in Hn.
Qed.

Lemma first_heading_no_break title markdown : first_heading_is title markdown = true -> no_break title = true.
Proof.
  unfold first_heading_is, headings. destruct (List.filter _ (splitlines markdown)) as [|line lines] eqn:E; [done|]. simpl.
  intros <-%String.eqb_eq. apply no_break_strip.
  assert (Hin : In line (List.filter (fun line => String.prefix (String hash_mark EmptyString) line) (splitlines markdown)))
    by (rewrite E; by left).
  apply List.filter_In in Hin as [Hin _]. apply list_elem_of_In in Hin. apply splitlines_no_break in Hin; [|done].
  destruct (lstrip_char_suffix hash_mark line) as [p Hp]. rewrite Hp in Hin. by apply no_break_suffix in Hin.
Qed.

(** The text that [_locked_markdown] builds starts with the title. *)
Lemma locked_heading title s :
  strip title = title -> no_break title = true ->
  first_heading_is title ("# " +:+ title +:+ str_of_codes [10; 10] +:+ s) = true.
Proof.
  intros Hs Hn. change (str_of_codes [10; 10] +:+ s) with (newline +:+ (newline +:+ s)).
  assert (Hline : no_break ("# " +:+ title) = true).
  { change ("# " +:+ title) with (String hash_mark (String (Ascii.ascii_of_nat 32) title)). cbn [no_break].
    assert (E1 : boundary_at (String hash_mark (String (Ascii.ascii_of_nat 32) title)) = None) by done.
    assert (E2 : boundary_at (String (Ascii.ascii_of_nat 32) title) = None) by done. by rewrite E1, E2. }
  unfold first_heading_is, headings, splitlines. rewrite <- (app_assoc_s "# " title).
  destruct (first_line _ EmptyString ("# " +:+ title) (newline +:+ s) (Nat.le_refl _) Hline) as [lines ->].
  change (EmptyString +:+ ("# " +:+ title)) with (String hash_mark (String (Ascii.ascii_of_nat 32) title)). cbn [List.filter].
  change (String.prefix (String hash_mark EmptyString) (String hash_mark (String (Ascii.ascii_of_nat 32) title)))
    with (String.prefix EmptyString (String (Ascii.ascii_of_nat 32) title)).
  cbn [String.prefix map]. change (lstrip_char hash_mark (String hash_mark (String (Ascii.ascii_of_nat 32) title)))
    with (str_of_codes [32] +:+ title). unfold strip. rewrite lstrip_space; [|refine (bool_decide_unpack _ _); vm_compute; exact I].
  fold (strip title). by rewrite Hs, String.eqb_refl.
Qed.

(** * Runs of scoped units *)

Section facts.
Context `{Builtins} `{JsonLoads} `{UpperCase}.

Lemma invariant_then {A} b (k : result exc A) y : (invariant b ;; k) = Ok y <-> b = true /\ k = Ok y.
Proof.
  unfold invariant. destruct b; simpl; [|by split; [|intros []]]. split; [|intros [_ ?]]; done || (intros; by split).
Qed.

(** ** Quality of a unit *)

(** What must hold of a unit for its quality to pass. *)
Definition quality_ok (q : UnitQualityRequest) : Prop :=
  too_large default_max_unit_bytes q = false /\ sensitive q = false /\ missing_content q = [] /\
  existsb unsupported_finding (qq_grounding_findings q) = false /\ qq_unresolved_conflict_ids q = [] /\ unmarked_unknown q = false.

Lemma when_issue_Ok b code d message key :
  truthy message = true -> exists l, when_issue b code d message key = Ok l /\ (l = [] <-> b = false).
Proof.
  intros Hm. unfold when_issue, quality_issue. destruct b; [|exists []; done]. rewrite Hm. simpl. eexists. split; [reflexivity|]. done.
Qed.

Lemma is_empty_false {A} (l : list A) : negb (is_empty l) = false <-> l = [].
Proof. by destruct l. Qed.

(** The quality gate of a unit is exact and always decides: an evaluation
    returns a report, and the report is passed exactly when the text is small
    enough, has no credential marker, contains all required content, no claim on
    the current state lacks support, no source conflict is open and open unknowns
    are marked in the text. *)
Theorem unit_quality_exact (q : UnitQualityRequest) :
  exists r, evaluate_unit q = Ok r /\ (qr_outcome r = QUALITY_PASSED <-> quality_ok q) /\ (qr_issues r = [] <-> quality_ok q).
Proof.
  unfold evaluate_unit, unit_issues, quality_ok. set (key := uc_unit_key (qq_candidate q)).
  repeat match goal with |- context [when_issue ?b ?c ?d ?m key] =>
    let l := fresh "l" in let E := fresh "E" in let Hl := fresh "Hl" in
    destruct (when_issue_Ok b c d m key) as (l & E & Hl); [done|]; rewrite E; clear E; cbn [mbind result_mbind result_bind] end.
  rewrite !is_empty_false in *. eexists. split; [reflexivity|]. cbn [qr_outcome qr_issues].
  assert (Hall : forall l : list DocumentQualityIssue, unit_outcome l = QUALITY_PASSED <-> l = []).
  { intros [|i rest]; [done|]. unfold unit_outcome. simpl. split; [|done]. by destruct (_ || _). }
  assert (Hfirst : forall l : list DocumentQualityIssue, first_issues [] l = [] <-> l = []) by (by intros [|i rest]).
  rewrite Hall, Hfirst, !app_nil. tauto.
Qed.

(** ** The answer of the model, locked to the scope *)

(** What the scope must have for a locked answer to pass. *)
Definition scope_writable (s : UnitScope) : Prop :=
  strip (sc_current_unit_key s) = sc_current_unit_key s /\ strip (sc_current_unit_title s) = sc_current_unit_title s /\
  no_break (sc_current_unit_title s) = true /\ map strip (sc_section_node_keys s) = sc_section_node_keys s /\
  sc_current_unit_key s ∉ sc_immutable_unit_keys s.

Lemma invariant_true b : b = true -> invariant b = Ok tt.
Proof. by intros ->. Qed.

Lemma validate_candidate_Ok r c :
  validate_candidate r c = Ok c <->
  uc_unit_key c = sc_current_unit_key (ur_scope r) /\ uc_title c = sc_current_unit_title (ur_scope r) /\
  uc_ordinal c = sc_current_unit_ordinal (ur_scope r) /\ uc_node_keys c = sc_section_node_keys (ur_scope r) /\
  (uc_unit_key c ∉ sc_immutable_unit_keys (ur_scope r)) /\ first_heading_is (uc_title c) (uc_markdown c) = true.
Proof.
  unfold validate_candidate, validate_heading. rewrite !invariant_then, !String.eqb_eq, Z.eqb_eq, bool_decide_eq_true, negb_true_iff,
    bool_decide_eq_false. tauto.
Qed.

Lemma strs_stripped l nodes : json_strings (Some (strs l)) = Ok nodes -> nodes = map strip l.
Proof. unfold strs. simpl. rewrite map_map, require_then. intros [_ E]. by injection E as <-. Qed.

(** The fields a locked answer is read with. *)
Lemma locked_answer_fields r answer text c :
  get_or "markdown" (JStr EmptyString) (schema_payload answer "unit-candidate.v1") = JStr text ->
  candidate_of_dict (unit_answer r answer) = Ok c ->
  uc_unit_key c = strip (sc_current_unit_key (ur_scope r)) /\ uc_title c = strip (sc_current_unit_title (ur_scope r)) /\
  uc_ordinal c = sc_current_unit_ordinal (ur_scope r) /\ uc_node_keys c = map strip (sc_section_node_keys (ur_scope r)) /\
  strip text <> EmptyString /\ JStr (uc_markdown c) = locked_markdown (sc_current_unit_title (ur_scope r)) (JStr text).
Proof.
  intros Htext. unfold candidate_of_dict. set (s := ur_scope r).
  change (int_get "ordinal" 0 (unit_answer r answer)) with (@Ok exc Z (sc_current_unit_ordinal s)).
  change (jget "node_keys" (unit_answer r answer)) with (Some (strs (sc_section_node_keys s))).
  change (stripped_get "unit_key" (unit_answer r answer)) with (strip (sc_current_unit_key s)).
  change (stripped_get "title" (unit_answer r answer)) with (strip (sc_current_unit_title s)).
  assert (Hmd : exists t, locked_markdown (sc_current_unit_title s) (JStr text) = JStr t /\
    str_get "markdown" EmptyString (unit_answer r answer) = t /\ (strip text = EmptyString -> t = text)).
  { assert (Hg : jget "markdown" (unit_answer r answer) = Some (locked_markdown (sc_current_unit_title s) (JStr text)))
      by (rewrite <- Htext; reflexivity).
    unfold str_get. rewrite Hg. unfold locked_markdown. destruct (truthy (strip text)) eqn:Et; simpl; [|eauto].
    destruct (first_heading_is _ text); eexists; (split; [reflexivity|]); (split; [reflexivity|]); [done|].
    intros Hs. by rewrite Hs in Et. }
  destruct Hmd as (t & Hlock & -> & Hblank). intros E. cbn [mbind result_mbind result_bind] in E.
  apply result_mbind_Ok in E as (nodes & Hn & E). do 4 (apply result_mbind_Ok in E as (? & _ & E)).
  apply result_mbind_Ok in E as (c' & Hc & E). apply require_then in E as [_ E]. injection E as ->.
  unfold check_candidate in Hc. rewrite !require_then in Hc. destruct Hc as (_ & _ & Hm & Hc). injection Hc as <-.
  cbn [uc_unit_key uc_title uc_ordinal uc_node_keys uc_markdown] in *. apply strs_stripped in Hn. rewrite Hlock. split_and!; try done.
  intros Hs. rewrite (Hblank Hs), Hs in Hm. done.
Qed.

(** An answer of the model that can be read is accepted exactly when the
    scope can be written: for every answer whose text is a string and that reads
    as a candidate, the invariants hold if and only if the key, the title and the
    node keys of the scope have no white space at their ends, the title no line
    break, and the unit is not immutable. *)
Theorem locked_answer_accepted (r : UnitRunRequest) (answer : list (string * json)) (text : string) (c : UnitCandidate) :
  get_or "markdown" (JStr EmptyString) (schema_payload answer "unit-candidate.v1") = JStr text ->
  candidate_of_dict (unit_answer r answer) = Ok c ->
  validate_candidate r c = Ok c <-> scope_writable (ur_scope r).
Proof.
  intros Htext Hc. destruct (locked_answer_fields _ _ _ _ Htext Hc) as (Hk & Ht & Ho & Hn & Hb & Hm).
  rewrite validate_candidate_Ok, Hk, Ht, Ho, Hn. unfold scope_writable. split.
  - intros (E1 & E2 & _ & E4 & E5 & Hh). rewrite E1 in E5. split_and!; try done. rewrite E2 in Hh. by apply first_heading_no_break in Hh.
  - intros (E1 & E2 & E3 & E4 & E5). rewrite E1, E2. split_and!; try done. unfold locked_markdown in Hm.
    apply truthy_true in Hb. rewrite Hb in Hm. simpl in Hm. destruct (first_heading_is _ text) eqn:Eh; injection Hm as ->; [done|].
    by apply locked_heading.
Qed.

(** ** Output of a run *)

(** The payload of a generated unit. *)
Record generated_output (r : UnitRunRequest) (res : UnitRunResult) : Prop := {
  go_candidate : exists c report findings,
    uc_unit_key c = sc_current_unit_key (ur_scope r) /\ uc_title c = sc_current_unit_title (ur_scope r) /\
    uc_ordinal c = sc_current_unit_ordinal (ur_scope r) /\ uc_node_keys c = sc_section_node_keys (ur_scope r) /\
    first_heading_is (uc_title c) (uc_markdown c) = true /\
    evaluate_unit (mkQualityRequest c (required_content r) findings (ur_unresolved_conflict_ids r) (ur_unresolved_unknown_ids r))
      = Ok report /\
    jget "unit_key" (rr_payload res) = Some (JStr (uc_unit_key c)) /\
    jget "markdown" (rr_payload res) = Some (JStr (strip (uc_markdown c))) /\
    jget "content_hash" (rr_payload res) = Some (JStr (candidate_hash c)) /\
    jget "quality_report" (rr_payload res) = Some (report_json report);
  go_mutable : sc_current_unit_key (ur_scope r) ∉ sc_immutable_unit_keys (ur_scope r)
}.

(** The payload of a revision of a base text. *)
Record revised_output (r : UnitRunRequest) (base : UnitCandidate) (res : UnitRunResult) : Prop := {
  vo_unit : jget "unit_key" (rr_payload res) = Some (JStr (sc_current_unit_key (ur_scope r)));
  vo_base : jget "base_content_hash" (rr_payload res) = Some (JStr (candidate_hash base));
  vo_same : uc_unit_key base = sc_current_unit_key (ur_scope r);
  vo_reopened : sc_current_unit_key (ur_scope r) ∈ sc_reopened_unit_keys (ur_scope r);
  vo_mutable : sc_current_unit_key (ur_scope r) ∉ sc_immutable_unit_keys (ur_scope r);
  vo_text : exists p report findings,
    first_heading_is (uc_title base) (up_replacement_markdown p) = true /\
    ur_unresolved_unknown_ids r ⊆ up_preserved_unknown_ids p /\ up_used_fact_ids p ⊆ ur_available_fact_ids r /\
    evaluate_unit (mkQualityRequest (with_markdown base (up_replacement_markdown p) (up_claims p) (up_preserved_unknown_ids p)
        (up_used_fact_ids p)) (required_content r) findings (ur_unresolved_conflict_ids r) (ur_unresolved_unknown_ids r)) = Ok report /\
    jget "replacement_markdown" (rr_payload res) = Some (JStr (strip (up_replacement_markdown p))) /\
    jget "quality_report" (rr_payload res) = Some (report_json report)
}.

(** What a run returns, by purpose. *)
Definition unit_output (r : UnitRunRequest) (res : UnitRunResult) : Prop :=
  rr_purpose res = ur_purpose r /\ rr_output_kind res = output_by_purpose (ur_purpose r) /\
  rr_scope_hash res = scope_hash (ur_scope r) /\ rr_content_hash res = sha256_hex (canonical_json (JObj (rr_payload res))) /\
  match ur_purpose r with
  | PLAN_OUTLINE => exists c, outline_wf c /\ rr_payload res = outline_json c
  | GENERATE_UNIT => generated_output r res
  | REVISE_UNIT => exists base, ur_base_candidate r = Some base /\ revised_output r base res
  | FULL_REVIEW => exists c report, outline_from_scope r = Ok c /\
      evaluate_document (mkReview c (sc_confirmed_context (ur_scope r)) [] []) = Ok report /\
      jget "outcome" (rr_payload res) = Some (JStr (if bool_decide (qr_outcome report = QUALITY_PASSED) then "PASSED" else "NEEDS_REVISION"))
  end.

Lemma run_result_Ok r kind payload res :
  run_result r kind payload = Ok res ->
  res = mkRunResult (ur_purpose r) kind (scope_hash (ur_scope r)) (sha256_hex (canonical_json (JObj payload))) payload /\
  output_by_purpose (ur_purpose r) = kind.
Proof.
  unfold run_result, check_run_result. rewrite !require_then, bool_decide_eq_true. cbn [rr_purpose rr_output_kind].
  intros (Hk & _ & E). by injection E as <-.
Qed.

Lemma subset_true l m : subset l m = true <-> l ⊆ m.
Proof. unfold subset. rewrite forallb_forall. setoid_rewrite bool_decide_eq_true. by setoid_rewrite <- list_elem_of_In. Qed.

Lemma outline_of_dict_wf m c : outline_of_dict m = Ok c -> outline_wf c.
Proof.
  unfold outline_of_dict. rewrite require_then. intros [_ E]. do 4 (apply result_mbind_Ok in E as (? & _ & E)).
  apply result_mbind_Ok in E as (c' & Hc & E). apply require_then in E as [_ E]. injection E as ->.
  unfold make_outline in Hc. apply result_mbind_Ok in Hc as ([] & Hv & Hc). injection Hc as <-. by apply validate_outline_wf.
Qed.

Section effects.
Context {S : Type}.

Lemma mbind_Ok {A B} (m : M S exc A) (k : A -> M S exc B) st st' b :
  (m ≫= k) st = (st', Ok b) -> exists st1 a, m st = (st1, Ok a) /\ k a st1 = (st', Ok b).
Proof. unfold mbind, M_bind. destruct (m st) as [st1 [a|e]]; [eauto|done]. Qed.

Lemma liftR_Ok {A} (r : result exc A) (st st' : S) a : liftR r st = (st', Ok a) -> r = Ok a.
Proof. unfold liftR. congruence. Qed.

Lemma assess_Ok (ground : @evaluator S) r c st st' report :
  assess ground r c st = (st', Ok report) -> exists findings,
  evaluate_unit (mkQualityRequest c (required_content r) findings (ur_unresolved_conflict_ids r) (ur_unresolved_unknown_ids r)) = Ok report.
Proof. intros (st1 & f & _ & E)%mbind_Ok. apply liftR_Ok in E. eauto. Qed.

Lemma run_generate_output unit (ground : @evaluator S) r st st' res :
  ur_purpose r = GENERATE_UNIT -> run_generate unit ground r st = (st', Ok res) -> unit_output r res.
Proof.
  intros Hp (st1 & raw & _ & E)%mbind_Ok. apply mbind_Ok in E as (st2 & c & Ec & E). apply mbind_Ok in E as (st3 & c' & Ev & E).
  apply mbind_Ok in E as (st4 & report & Er & E). apply liftR_Ok in Ev, E. apply assess_Ok in Er as [findings Er].
  apply run_result_Ok in E as [-> Hk]. unfold unit_output. rewrite Hp. cbn [rr_purpose rr_output_kind rr_scope_hash rr_content_hash rr_payload].
  split_and!; try done. unfold validate_candidate in Ev. rewrite !invariant_then in Ev. destruct Ev as (Q1 & Q2 & Q3 & Q4 & Q5 & Hh).
  apply result_mbind_Ok in Hh as (u & Hh & _). unfold validate_heading, invariant in Hh. destruct (first_heading_is _ _) eqn:Eh; [|done].
  apply String.eqb_eq in Q1, Q2. apply Z.eqb_eq in Q3. apply bool_decide_eq_true in Q4. apply negb_true_iff, bool_decide_eq_false in Q5.
  constructor; [exists c, report, findings; by split_and!|]. by rewrite <- Q1.
Qed.

Lemma run_revise_output revise (ground : @evaluator S) r st st' res :
  ur_purpose r = REVISE_UNIT -> run_revise revise ground r st = (st', Ok res) -> unit_output r res.
Proof.
  intros Hp (st1 & raw & _ & E)%mbind_Ok. apply mbind_Ok in E as (st2 & p & Ec & E). apply mbind_Ok in E as (st3 & p' & Ev & E).
  apply liftR_Ok in Ev. unfold validate_patch in Ev. destruct (ur_base_candidate r) as [base|] eqn:Eb; [|done].
  apply mbind_Ok in E as (st4 & revised & Erev & E). apply mbind_Ok in E as (st5 & report & Er & E). apply liftR_Ok in E, Erev.
  apply assess_Ok in Er as [findings Er]. apply run_result_Ok in E as [-> Hk]. unfold unit_output. rewrite Hp.
  cbn [rr_purpose rr_output_kind rr_scope_hash rr_content_hash rr_payload].
  split_and!; try done. exists base. split; [done|]. rewrite !invariant_then, !andb_true_iff in Ev.
  destruct Ev as ([Q1 Q1'] & Q2 & Q3 & Q4 & Q5 & Q6 & Hc). apply result_mbind_Ok in Hc as (c & Hc & Hh).
  apply result_mbind_Ok in Hh as (u & Hh & _). unfold validate_heading, invariant in Hh. destruct (first_heading_is _ _) eqn:Eh; [|done].
  unfold check_candidate in Hc, Erev. rewrite !require_then in Hc, Erev. destruct Hc as (_ & _ & _ & Hc). injection Hc as <-.
  destruct Erev as (_ & _ & _ & Erev). injection Erev as <-.
  apply String.eqb_eq in Q1, Q1', Q4. apply bool_decide_eq_true in Q2. apply negb_true_iff, bool_decide_eq_false in Q3.
  apply subset_true in Q5, Q6. rewrite Q1 in *. constructor; cbn [rr_payload]; try done.
  - rewrite <- Q1. reflexivity.
  - rewrite <- Q4. reflexivity.
  - exists p, report, findings. by split_and!.
Qed.

Lemma run_unit_output outline unit revise (ground : @evaluator S) r st st' res :
  run_unit outline unit revise ground r st = (st', Ok res) -> unit_output r res.
Proof.
  unfold run_unit. destruct (ur_purpose r) eqn:Hp.
  - intros (st1 & raw & _ & E)%mbind_Ok. apply mbind_Ok in E as (st2 & c & Ec & E). apply liftR_Ok in Ec, E.
    apply run_result_Ok in E as [-> Hk]. unfold unit_output. rewrite Hp.
    cbn [rr_purpose rr_output_kind rr_scope_hash rr_content_hash rr_payload]. split_and!; try done.
    exists c. split; [|done]. by apply outline_of_dict_wf in Ec.
  - by apply run_generate_output.
  - by apply run_revise_output.
  - intros (st1 & c & Ec & E)%mbind_Ok. apply mbind_Ok in E as (st2 & report & Er & E). apply liftR_Ok in Ec, Er, E.
    apply run_result_Ok in E as [-> Hk]. unfold unit_output. rewrite Hp.
    cbn [rr_purpose rr_output_kind rr_scope_hash rr_content_hash rr_payload]. split_and!; try done. by exists c, report.
Qed.

(** A decoded scope satisfies its checks and has the hash that was sent. *)
Lemma decode_unit_scope_Ok purpose v scope :
  decode_unit_scope purpose v = Ok scope ->
  check_scope scope = Ok scope /\ purpose_from_proto purpose = Some (sc_purpose scope) /\
  bare_hash (ps_scope_hash v) = scope_hash scope /\ sc_current_unit_title scope = ps_current_unit_title v.
Proof.
  unfold decode_unit_scope. destruct (purpose_from_proto purpose) as [pp|]; [|done]. intros E.
  apply result_mbind_Ok in E as (ctx & _ & E). apply result_mbind_Ok in E as (sc & Hs & E).
  apply require_then in E as [Hh E]. injection E as ->. apply andb_true_iff in Hh as [_ Hh%String.eqb_eq].
  assert (Hself : check_scope scope = Ok scope /\ scope = mkScope pp (ps_outline_id v) (ps_outline_version v) (ps_outline_hash v)
    (ps_current_unit_key v) (ps_current_unit_title v) (ps_current_unit_ordinal v) (ps_section_node_keys v) (ps_dependency_unit_keys v) ctx
    (ps_reopened_unit_keys v) (ps_immutable_unit_keys v) (ps_requirement_brief_ref v) (ps_requirement_brief_hash v)
    (ps_base_unit_hash v) (ps_user_feedback v) (ps_schema_version v)).
  { set (s0 := mkScope _ _ _ _ _ _ _ _ _ _ _ _ _ _ _ _ _) in *. assert (Es : s0 = scope); [|by rewrite <- Es in *].
    clear -Hs. unfold check_scope in Hs. rewrite !require_then in Hs. destruct Hs as (_ & _ & _ & _ & _ & _ & _ & E). by injection E. }
  destruct Hself as [Hc ->]. done.
Qed.

Lemma check_run_request_Ok r r' : check_run_request r = Ok r' -> r' = r.
Proof. unfold check_run_request. rewrite !require_then. intros (_ & _ & _ & E). by injection E. Qed.

Lemma execution_request_Ok x s base e :
  execution_request x s base = Ok (Some e) ->
  ex_scope e = s /\ ex_purpose e = sc_purpose s /\ (sc_purpose s = REVISE_UNIT -> ex_base_candidate e = base).
Proof.
  unfold execution_request. intros E.
  assert (Hchk : forall b l c base', (e0 ← check_execution (mkExecution (sc_purpose s) s b l c None base' [] [] []); Ok (Some e0)) = Ok (Some e) ->
    ex_scope e = s /\ ex_purpose e = sc_purpose s /\ ex_base_candidate e = base').
  { intros b l c base' Ec. apply result_mbind_Ok in Ec as (e0 & Ec & Ee). injection Ee as ->. unfold check_execution in Ec.
    rewrite !require_then in Ec. destruct Ec as (_ & _ & _ & Ec). by injection Ec as <-. }
  case_bool_decide as Hp.
  { apply result_mbind_Ok in E as (b & _ & E). apply Hchk in E as (-> & -> & _). by rewrite Hp. }
  destruct (drop_prefix "execution-input-json:" _) as [text|].
  { apply result_mbind_Ok in E as (value & _ & E). destruct (get_or _ _ value) as [| | | | | |bv]; try done.
    destruct (jget "locked_outline" value) as [[| | | | | |ov]|]; try done.
    do 4 (apply result_mbind_Ok in E as (? & _ & E)). apply Hchk in E as (-> & -> & ->). done. }
  destruct (drop_prefix "outline-json:" _) as [text|]; [|done]. case_bool_decide as Hf; [|done].
  do 4 (apply result_mbind_Ok in E as (? & _ & E)). apply Hchk in E as (-> & -> & _). by rewrite Hf.
Qed.

Context (generate : string -> list (string * json) -> M S exc (list (string * json)))
  (ground : UnitCandidate -> M S exc (list (list (string * json)))).

(** The stages of a run that returns. *)
Lemma run_runtime_stages x st st' res :
  run_runtime generate ground x st = (st', Ok res) ->
  exists v scope r st1, ux_unit_scope x = Some v /\ decode_unit_scope (ux_run_purpose x) v = Ok scope /\
    ur_scope r = scope /\ ur_purpose r = sc_purpose scope /\
    (sc_purpose scope = REVISE_UNIT -> base_candidate scope = Ok (ur_base_candidate r)) /\
    run_unit (outline_generator generate) (unit_generator generate) (unit_reviser generate) (Some ground) r st1 = (st', Ok res).
Proof.
  unfold run_runtime. destruct (ux_unit_scope x) as [v|]; [|done]. destruct (negb _); [done|].
  intros (st1 & scope & Es & E)%mbind_Ok. apply mbind_Ok in E as (st2 & base & Eb & E). apply mbind_Ok in E as (st3 & r & Er & E).
  apply mbind_Ok in E as (st4 & ex & Eex & E). apply liftR_Ok in Es, Eb, Er, Eex. apply check_run_request_Ok in Er as ->.
  exists v, scope. destruct ex as [e|].
  - unfold run_execution in E. apply mbind_Ok in E as (st5 & r & Er & E). apply liftR_Ok, check_run_request_Ok in Er as ->.
    apply execution_request_Ok in Eex as (Hs & Hp & Hb). match type of E with run_unit _ _ _ _ ?r0 _ = _ => exists r0, st5 end.
    split_and!; [done|done|exact Hs|exact Hp| |exact E]. intros Hr. cbn [ur_base_candidate]. by rewrite Hb.
  - match type of E with run_unit _ _ _ _ ?r0 _ = _ => exists r0, st4 end. split_and!; [done|done|reflexivity|reflexivity| |exact E]. done.
Qed.


(** A unit whose title cannot be a heading is never written.  When the title
    of the scope has white space at its ends or contains a line break (an
    accepted outline may have such a title), no run that generates or revises the
    unit returns a result, whatever the model answers. *)
Theorem unwritable_title (x : UnitContext) (v : ProtoUnitScope) (purpose : RunPurpose) (st : S) :
  ux_unit_scope x = Some v -> purpose_from_proto (ux_run_purpose x) = Some purpose -> writes_unit purpose = true ->
  strip (ps_current_unit_title v) <> ps_current_unit_title v \/ no_break (ps_current_unit_title v) = false ->
  is_ok (run_runtime generate ground x st).2 = false.
Proof.
  intros Hv Hp Hw Ht. destruct (run_runtime generate ground x st) as [st' [res|e]] eqn:E; [|done]. exfalso.
  apply run_runtime_stages in E as (v' & scope & r & st1 & Hv' & Hd & Hs & Hpr & Hb & E). rewrite Hv in Hv'. injection Hv' as <-.
  apply run_unit_output in E as Ho.
  destruct (decode_unit_scope_Ok _ _ _ Hd) as (_ & Hpp & _ & Htitle). rewrite Hp in Hpp. injection Hpp as ->. rewrite <- Htitle in Ht.
  assert (Hhead : forall md, first_heading_is (sc_current_unit_title scope) md = true -> False).
  { intros md Hm. destruct Ht as [Ht|Ht]; [by apply Ht, (first_heading_title _ md)|]. apply first_heading_no_break in Hm. congruence. }
  unfold unit_output in Ho. rewrite Hpr in Ho. destruct Ho as (_ & _ & _ & _ & Ho). destruct (sc_purpose scope) eqn:Epu; try done.
  - destruct Ho as [(c & report & f & _ & Et & _ & _ & Hh & _) _]. rewrite Hs in Et. rewrite Et in Hh. by apply Hhead in Hh.
  - destruct Ho as (base & Eb & Hrev). rewrite Eb in Hb. specialize (Hb eq_refl). destruct (vo_text _ _ _ Hrev) as (p & _ & _ & Hh & _).
    unfold base_candidate in Hb. rewrite Epu in Hb. simpl in Hb. destruct (List.find _ _) as [u|]; [|done].
    apply require_then in Hb as [_ Hb]. apply result_mbind_Ok in Hb as (c & Hc & Hb). injection Hb as ->.
    unfold check_candidate in Hc. rewrite !require_then in Hc. destruct Hc as (_ & _ & _ & Hc). injection Hc as <-. by apply Hhead in Hh.
Qed.
End effects.
End facts.
