(* ===== verification/UnitDemo.v ===== *)
(** * Scoped units on concrete runs *)
From stdpp Require Import base list sets strings pretty.
From Stdlib Require Import ZArith Lia.
From S2P Require Import Prelude.
From S2P Require Import PyDict.
From S2P Require Import PyText.
From S2P Require Import PyStrip.
From S2P Require Import Json.
From S2P Require Import CanonicalJson.
From S2P Require Import Ledger.
From S2P Require Import UnitModels.
From S2P Require Import UnitOutlineFacts.
From S2P Require Import UnitQuality.
From S2P Require Import UnitRun.
From S2P Require Import UnitRunFacts.
Open Scope string_scope.

(** A digest of the right shape. *)
Definition zeros : string := "0000000000000000000000000000000000000000000000000000000000000000".

#[local] Instance unit_builtins : Builtins :=
  {| repr_container := @repr_container example_builtins; int_of_str := @int_of_str example_builtins;
     lower := str_lower; sha256_hex := fun _ => zeros |}.
#[local] Instance unit_loads : JsonLoads := loads.
#[local] Instance unit_upper : UpperCase := fun s => s.

(** ** Outlines *)

Definition demo_outline_json : list (string * json) :=
  [("title", JStr " Billing "); ("requirement_size", JStr "SMALL");
   ("nodes", JArr [JObj [("node_key", JStr "n1"); ("title", JStr "Goals"); ("unit_key", JStr "u1")];
                   JObj [("node_key", JStr "n2"); ("title", JStr "Scope"); ("unit_key", JStr "u2"); ("parent_key", JStr "n1")]]);
   ("units", JArr [JObj [("unit_key", JStr "u1"); ("title", JStr "Goals"); ("node_keys", strs ["n1"])];
                   JObj [("unit_key", JStr "u2"); ("title", JStr "Scope"); ("node_keys", strs ["n2"]); ("depends_on", strs ["u1"])]])].

Definition demo_outline : OutlineCandidate :=
  mkOutline "Billing" "SMALL"
    [mkNode "n1" "Goals" 0 "u1" EmptyString [] []; mkNode "n2" "Scope" 0 "u2" "n1" [] []]
    [mkUnit "u1" "Goals" 0 ["n1"] []; mkUnit "u2" "Scope" 0 ["n2"] ["u1"]] "outline-candidate.v1".

Example demo_outline_read : outline_of_dict demo_outline_json = Ok demo_outline.
Proof. vm_compute. reflexivity. Qed.

(** Two units that depend on each other are refused. *)
Example cycle_refused :
  make_outline "t" "SMALL" [mkNode "n1" "a" 0 "u1" EmptyString [] []; mkNode "n2" "b" 0 "u2" EmptyString [] []]
    [mkUnit "u1" "a" 0 ["n1"] ["u2"]; mkUnit "u2" "b" 0 ["n2"] ["u1"]] "outline-candidate.v1" = Raise ValueError.
Proof. vm_compute. reflexivity. Qed.

Definition demo_candidate_json : list (string * json) :=
  [("unit_key", JStr "u1"); ("title", JStr "Goals"); ("node_keys", strs ["n1"]); ("markdown", JStr "# Goals ");
   ("claims", JArr [JObj [("statement", JStr " invoices are exported ")]])].

Lemma unit_values_roundtrip_witness :
  outline_of_dict (outline_json demo_outline) = Ok demo_outline /\
  exists c, candidate_of_dict demo_candidate_json = Ok c /\ candidate_of_dict (candidate_json c) = Ok (stripped_candidate c).
Proof.
  assert (Hbare : forall s : string, bare_hash (sha256_hex s) = sha256_hex s) by (intros s; vm_compute; reflexivity).
  split; [exact (proj1 (unit_values_roundtrip Hbare) demo_outline_json demo_outline ltac:(vm_compute; reflexivity))|].
  eexists. split; [vm_compute; reflexivity|].
  exact (proj1 (proj2 (unit_values_roundtrip Hbare) demo_candidate_json _ ltac:(vm_compute; reflexivity))).
Defined.

(** ** Runs *)

Definition proto_scope (title : string) : ProtoUnitScope :=
  mkProtoScope "unit-scope.v1" "outline-1" 1 zeros "u1" title 1 ["n1"] [] [] [] ["u0"] EmptyString EmptyString EmptyString
    EmptyString zeros.

Definition demo_context (title : string) : UnitContext := mkUnitContext "agent-runtime.v4" 2 "export invoices" (Some (proto_scope title)).

Definition demo_generate (operation : string) (payload : list (string * json)) : M unit exc (list (string * json)) :=
  mret [("markdown", JStr "Invoices are exported."); ("unit_key", JStr "u0")].

Definition no_findings (c : UnitCandidate) : M unit exc (list (list (string * json))) := mret [].

Definition demo_result : UnitRunResult :=
  match (run_runtime demo_generate no_findings (demo_context "Goals") tt).2 with
  | Ok r => r
  | Raise _ => mkRunResult PLAN_OUTLINE OUTLINE_CANDIDATE EmptyString EmptyString []
  end.

Example demo_result_unit :
  jget "unit_key" (rr_payload demo_result) = Some (JStr "u1") /\
  jget "markdown" (rr_payload demo_result) = Some (JStr ("# Goals" +:+ str_of_codes [10; 10] +:+ "Invoices are exported.")).
Proof. vm_compute. done. Qed.


Definition broken_title : string := "Goals" +:+ str_of_codes [10] +:+ "and scope".

(** An outline may have such a title. *)
Example broken_title_accepted :
  is_ok (make_outline "Billing" "SMALL" [mkNode "n1" broken_title 0 "u1" EmptyString [] []] [mkUnit "u1" broken_title 0 ["n1"] []]
           "outline-candidate.v1") = true.
Proof. vm_compute. reflexivity. Qed.

Lemma unwritable_title_witness : is_ok (run_runtime demo_generate no_findings (demo_context broken_title) tt).2 = false.
Proof.
  assert (Hn : no_break (ps_current_unit_title (proto_scope broken_title)) = false) by (vm_compute; reflexivity).
  exact (unwritable_title demo_generate no_findings (demo_context broken_title) (proto_scope broken_title) GENERATE_UNIT tt
    eq_refl eq_refl eq_refl (or_intror Hn)).
Defined.

Definition demo_request : UnitRunRequest :=
  mkRunRequest GENERATE_UNIT
    (mkScope GENERATE_UNIT "outline-1" 1 zeros "u1" "Goals" 1 ["n1"] [] [] [] ["u0"] EmptyString EmptyString EmptyString EmptyString
       "unit-scope.v1") "export invoices" None [] [] [] [] [] None None.

Definition demo_candidate : UnitCandidate :=
  mkCandidate "u1" "Goals" 1 ["n1"] ("# Goals" +:+ str_of_codes [10; 10] +:+ "text") [] [] [] [] "unit-candidate.v1".

Lemma locked_answer_accepted_witness : validate_candidate demo_request demo_candidate = Ok demo_candidate.
Proof.
  assert (Hc : candidate_of_dict (unit_answer demo_request [("markdown", JStr "text")]) = Ok demo_candidate) by (vm_compute; reflexivity).
  assert (Hm : get_or "markdown" (JStr EmptyString) (schema_payload [("markdown", JStr "text")] "unit-candidate.v1") = JStr "text")
    by reflexivity.
  assert (Hn : "u1" ∉ ["u0"]) by (refine (bool_decide_unpack _ _); vm_compute; exact I).
  assert (Hw : scope_writable (ur_scope demo_request)).
  { split; [vm_compute; reflexivity|]. split; [vm_compute; reflexivity|]. split; [vm_compute; reflexivity|].
    split; [vm_compute; reflexivity|exact Hn]. }
  exact (proj2 (locked_answer_accepted demo_request [("markdown", JStr "text")] "text" demo_candidate Hm Hc) Hw).
Defined.

(** The keys made up for a nested outline can collide: the third unit gets the
    key of the first. *)
Definition nested_outline : list (string * json) :=
  [("outline", JObj [("units", JArr [JObj [("key", JStr "a-3")]; JObj [("key", JStr "a")]; JObj [("key", JStr "a")]])])].

Example made_up_keys_collide :
  match outline_answer demo_request nested_outline with
  | Ok m => outline_of_dict m = Raise ValueError
  | Raise _ => False
  end.
Proof. vm_compute. reflexivity. Qed.
