(* ===== verification/Draft.v ===== *)
(** * Draft bundles and their confirmation units

    [agent/draft/models.py] and [agent/confirmation/builder.py] of agent-python.
    A bundle is cut out of the Markdown of a draft, or read from the structured answer of the model; every
    claim belongs to one of its units. *)
From stdpp Require Import base list sets strings pretty.
From Stdlib Require Import ZArith NArith.
From S2P Require Import Prelude.
From S2P Require Import PyDict.
From S2P Require Import PyText.
From S2P Require Import Json.
From S2P Require Import CodePoints.
From S2P Require Import UnitModels.
Open Scope string_scope.

#[global] Instance ClaimType_eq_dec : EqDecision DraftClaim.ClaimType.
Proof. solve_decision. Defined.
#[global] Instance ClaimCriticality_eq_dec : EqDecision DraftClaim.ClaimCriticality.
Proof. solve_decision. Defined.

(** ** Records *)

Record Claim := mkDraftClaim {
  dc_claim_id : string;
  dc_unit_key : string;
  dc_claim_type : DraftClaim.ClaimType;
  dc_criticality : DraftClaim.ClaimCriticality;
  dc_statement : string;
  dc_evidence_refs : list string;
  dc_requirement_refs : list string;
  dc_trace_to_claim_ids : list string
}.

Definition draft_claim_json (c : Claim) : json :=
  JObj [("claim_id", JStr (dc_claim_id c)); ("unit_key", JStr (dc_unit_key c));
        ("claim_type", JStr (DraftClaim.type_value (dc_claim_type c)));
        ("criticality", JStr (DraftClaim.criticality_value (dc_criticality c))); ("statement", JStr (dc_statement c));
        ("evidence_refs", strs (dc_evidence_refs c)); ("requirement_refs", strs (dc_requirement_refs c));
        ("trace_to_claim_ids", strs (dc_trace_to_claim_ids c))].

Record DraftUnknown := mkDraftUnknown {
  du_unknown_id : string;
  du_unit_key : string;
  du_statement : string;
  du_reason_code : string;
  du_related_claim_ids : list string;
  du_required_user_input : option string
}.

Definition draft_unknown_json (u : DraftUnknown) : json :=
  JObj [("unknown_id", JStr (du_unknown_id u)); ("unit_key", JStr (du_unit_key u)); ("statement", JStr (du_statement u));
        ("reason_code", JStr (du_reason_code u)); ("related_claim_ids", strs (du_related_claim_ids u));
        ("required_user_input", match du_required_user_input u with Some s => JStr s | None => JNull end)].

Record DraftUnit := mkDraftUnit {
  dn_unit_key : string;
  dn_title : string;
  dn_markdown : string;
  dn_order : Z;
  dn_depends_on : list string
}.

Definition draft_unit_json (u : DraftUnit) : json :=
  JObj [("unit_key", JStr (dn_unit_key u)); ("title", JStr (dn_title u)); ("markdown", JStr (dn_markdown u));
        ("order", JInt (dn_order u)); ("depends_on", strs (dn_depends_on u))].

Record DraftBundle := mkBundle {
  db_schema_version : string;
  db_generation : Z;
  db_units : list DraftUnit;
  db_claims : list Claim;
  db_unknowns : list DraftUnknown;
  db_markdown : string
}.

(** [DraftBundle.as_dict]. *)
Definition bundle_json (b : DraftBundle) : list (string * json) :=
  [("schema_version", JStr (db_schema_version b)); ("generation", JInt (db_generation b));
   ("units", JArr (map draft_unit_json (db_units b))); ("claims", JArr (map draft_claim_json (db_claims b)));
   ("unknowns", JArr (map draft_unknown_json (db_unknowns b))); ("markdown", JStr (db_markdown b))].

(** ** The Markdown of a draft *)

(** [_render]. *)
Definition render_units (units : list DraftUnit) : string :=
  str_join (str_of_codes [10; 10]%nat) (List.filter truthy (map (fun u => strip (dn_markdown u)) units)).

(** The end of a match of [##\s+(.+)$] whose blank part reaches the end of the
    text: the last blank that is not a newline is the group. *)
Fixpoint blank_heading (best : option (text * text)) (ws : text) : option (text * text) :=
  match ws with
  | [] => best
  | c :: rest => blank_heading (if (c =? 10)%N then best else Some ([c], rest)) rest
  end.

(** A match of [^##\s+(.+)$] at the beginning of a line: the group, and the text
    after the match.  The blanks are taken greedily, over line ends as well. *)
Definition heading_at (t : text) : option (text * text) :=
  match t with
  | a :: b :: after =>
      if ((a =? 35) && (b =? 35))%N then
        match span space after with
        | ([], _) => None
        | (_ :: ws, []) => blank_heading None ws
        | (_, r) => Some (span (fun c => negb (c =? 10)%N) r)
        end
      else None
  | _ => None
  end.

(** [re.finditer(r"(?m)^##\s+(.+)$", markdown)]: where each match starts, and
    its group.  [bol] is the beginning of a line; a match ends in the middle of
    one.  Every round consumes a code point. *)
Fixpoint find_headings (fuel pos : nat) (bol : bool) (t : text) : list (nat * text) :=
  match fuel, t with
  | S fuel', c :: t' =>
      match (if bol then heading_at t else None) with
      | Some (title, rest) => (pos, title) :: find_headings fuel' (pos + (length t - length rest)) false rest
      | None => find_headings fuel' (S pos) (c =? 10)%N t'
      end
  | _, _ => []
  end.

Definition heading_matches (t : text) : list (nat * text) := find_headings (length t) 0 true t.

(** [t[start:end]]. *)
Definition slice (t : text) (start stop : nat) : text := take (stop - start) (drop start t).

Section draft.
Context `{Builtins}.

(** ** Identifiers *)

Definition key_class (c : Ascii.ascii) : bool :=
  let n := Ascii.nat_of_ascii c in (97 <=? n)%nat && (n <=? 122)%nat || (48 <=? n)%nat && (n <=? 57)%nat.

(** [re.sub(r"[^a-z0-9]+", "-", s)]; all bytes of a code point outside ASCII are
    outside the class. *)
Fixpoint dashes (in_run : bool) (s : string) : string :=
  match s with
  | EmptyString => EmptyString
  | String c s' =>
      if key_class c then String c (dashes false s')
      else if in_run then dashes true s' else String (Ascii.ascii_of_nat 45) (dashes true s')
  end.

Definition draft_unit_key (value : string) : string :=
  let normalized := strip_char (Ascii.ascii_of_nat 45) (dashes false (lower (strip value))) in
  if truthy normalized then normalized else "unit-" +:+ str_take 12 (sha256_hex value).

Definition draft_claim_id (run_id : string) (generation : Z) (unit_key : string) (t : DraftClaim.ClaimType) (statement : string) : string :=
  "claim-" +:+ str_take 24 (sha256_hex (str_join (str_of_codes [0]%nat)
    [run_id; pretty generation; unit_key; DraftClaim.type_value t; strip statement])).

(** ** Building a bundle *)

(** [_split_markdown]. *)
Fixpoint split_from (t : text) (index : Z) (matches : list (nat * text)) : list DraftUnit :=
  match matches with
  | [] => []
  | (start, group) :: rest =>
      let stop := match rest with (next, _) :: _ => next | [] => length t end in
      let title := strip (encode group) in
      mkDraftUnit (draft_unit_key title) title (strip (encode (slice t start stop))) (index * 10) []
        :: split_from t (index + 1) rest
  end.

Definition split_markdown (markdown : string) : result exc (list DraftUnit) :=
  let t := decode markdown in
  match heading_matches t with
  | [] =>
      match tsplitlines t with
      | [] => Raise IndexError
      | line :: _ =>
          let bare := strip (encode (span (fun c => (c =? 35) || (c =? 32))%N line).2) in
          let title := if truthy bare then bare else "PRD" in
          Ok [mkDraftUnit (draft_unit_key title) title (strip markdown) 10 []]
      end
  | (start, group) :: rest =>
      let prefix := strip (encode (slice t 0 start)) in
      if truthy prefix
      then Ok (mkDraftUnit "overview" "概述" prefix 10 [] :: split_from t 2 ((start, group) :: rest))
      else Ok (split_from t 1 ((start, group) :: rest))
  end.

(** [tuple(str(item) for item in raw.get(key, ()))]. *)
Definition text_items (key : string) (m : list (string * json)) : result exc (list string) :=
  match jget key m with
  | None => Ok []
  | Some j => items ← py_iter j; Ok (map py_str items)
  end.

(** The loop of [_units]. *)
Fixpoint read_units (index : Z) (seen : list string) (raw : list json) : result exc (list DraftUnit) :=
  match raw with
  | [] => Ok []
  | JObj m :: rest =>
      let title := strip (str_get "title" EmptyString m) in
      let content := strip (str_get "markdown" EmptyString m) in
      let given := str_get "unit_key" EmptyString m in
      let key := draft_unit_key (if truthy given then given else title) in
      require (truthy title && truthy content && negb (bool_decide (key ∈ seen))) ;;
      order ← int_get "order" ((index + 1) * 10) m;
      depends ← text_items "depends_on" m;
      others ← read_units (index + 1) (key :: seen) rest;
      Ok (mkDraftUnit key title content order depends :: others)
  | _ :: _ => Raise ValueError
  end.

(** [structured.get(key) if structured else None]. *)
Definition structured_get (key : string) (structured : option (list (string * json))) : option json :=
  match structured with Some m => jget key m | None => None end.

Definition draft_units (structured : option (list (string * json))) (markdown : string) : result exc (list DraftUnit) :=
  match structured_get "units" structured with
  | Some (JArr (raw :: rest)) =>
      units ← read_units 0 [] (raw :: rest);
      Ok (sort_by (fun a b => (dn_order a <=? dn_order b)%Z) units)
  | _ => split_markdown markdown
  end.

Definition read_claim (run_id : string) (generation : Z) (unit_keys : list string) (raw : json) : result exc Claim :=
  match raw with
  | JObj m =>
      let unit_key := draft_unit_key (str_get "unit_key" EmptyString m) in
      let statement := strip (str_get "statement" EmptyString m) in
      require (bool_decide (unit_key ∈ unit_keys) && truthy statement) ;;
      type ← DraftClaim.read_type (str_get "claim_type" "PROPOSED_BEHAVIOR" m);
      criticality ← DraftClaim.read_criticality (str_get "criticality" "IMPORTANT" m);
      evidence ← text_items "evidence_refs" m;
      requirements ← text_items "requirement_refs" m;
      trace ← text_items "trace_to_claim_ids" m;
      Ok (mkDraftClaim (draft_claim_id run_id generation unit_key type statement) unit_key type criticality statement
            evidence requirements trace)
  | _ => Raise ValueError
  end.

Definition default_claim (run_id : string) (generation : Z) (requirement_ref : string) (u : DraftUnit) : Claim :=
  mkDraftClaim (draft_claim_id run_id generation (dn_unit_key u) DraftClaim.PROPOSED_BEHAVIOR (dn_title u)) (dn_unit_key u)
    DraftClaim.PROPOSED_BEHAVIOR DraftClaim.IMPORTANT (dn_title u) [] [requirement_ref] [].

Definition draft_claims (structured : option (list (string * json))) (run_id : string) (generation : Z)
    (units : list DraftUnit) (requirement_ref : string) : result exc (list Claim) :=
  match structured_get "claims" structured with
  | Some (JArr raw) => result_map (read_claim run_id generation (map dn_unit_key units)) raw
  | _ => Ok (map (default_claim run_id generation requirement_ref) units)
  end.

(** [DraftBundle.build]. *)
Definition build_bundle (run_id task_id : string) (task_version generation : Z) (markdown : string)
    (structured : option (list (string * json))) : result exc DraftBundle :=
  units ← draft_units structured markdown;
  let requirement_ref := sha256_hex (str_join (str_of_codes [0]%nat) [task_id; pretty task_version]) in
  claims ← draft_claims structured run_id generation units requirement_ref;
  Ok (mkBundle "draft-bundle.v1" generation units claims [] (render_units units)).

(** [DraftBundle.with_unknowns]. *)
Definition with_unknowns (b : DraftBundle) (unknowns : list DraftUnknown) : DraftBundle :=
  if is_empty unknowns then b
  else
    let newline := str_of_codes [10]%nat in
    let appendix := newline +:+ newline +:+ "## 待确认与未知项" +:+ newline +:+ newline
                    +:+ str_join newline (map (fun u => "- " +:+ du_statement u) unknowns) in
    let units := (db_units b ++ [mkDraftUnit "unknowns" "待确认与未知项" (strip appendix)
                    (max_default0 (map dn_order (db_units b)) + 10) []])%list in
    mkBundle (db_schema_version b) (db_generation b) units (db_claims b) unknowns (render_units units).

(** ** Reading a bundle *)

(** [_object_list]. *)
Definition object_list (value : option json) : result exc (list (list (string * json))) :=
  match value with
  | Some (JArr l) => result_map (fun j => match j with JObj m => Ok m | _ => Raise ValueError end) l
  | _ => Raise ValueError
  end.

(** [item[key]] and [str(item[key])]. *)
Definition item_at (key : string) (m : list (string * json)) : result exc json :=
  match jget key m with Some j => Ok j | None => Raise KeyError end.

Definition str_at (key : string) (m : list (string * json)) : result exc string := j ← item_at key m; Ok (py_str j).

Definition draft_unit_of_dict (m : list (string * json)) : result exc DraftUnit :=
  key ← str_at "unit_key" m;
  title ← str_at "title" m;
  markdown ← str_at "markdown" m;
  raw ← item_at "order" m;
  order ← py_int raw;
  depends ← text_items "depends_on" m;
  Ok (mkDraftUnit key title markdown order depends).

Definition draft_claim_of_dict (m : list (string * json)) : result exc Claim :=
  id ← str_at "claim_id" m;
  key ← str_at "unit_key" m;
  raw_type ← str_at "claim_type" m;
  type ← DraftClaim.read_type raw_type;
  raw_criticality ← str_at "criticality" m;
  criticality ← DraftClaim.read_criticality raw_criticality;
  statement ← str_at "statement" m;
  evidence ← text_items "evidence_refs" m;
  requirements ← text_items "requirement_refs" m;
  trace ← text_items "trace_to_claim_ids" m;
  Ok (mkDraftClaim id key type criticality statement evidence requirements trace).

Definition draft_unknown_of_dict (m : list (string * json)) : result exc DraftUnknown :=
  id ← str_at "unknown_id" m;
  key ← str_at "unit_key" m;
  statement ← str_at "statement" m;
  reason ← str_at "reason_code" m;
  related ← text_items "related_claim_ids" m;
  let input := match jget "required_user_input" m with None | Some JNull => None | Some j => Some (py_str j) end in
  Ok (mkDraftUnknown id key statement reason related input).

(** [DraftBundle.from_dict]. *)
Definition bundle_of_dict (m : list (string * json)) : result exc DraftBundle :=
  raw_units ← object_list (jget "units" m);
  units ← result_map draft_unit_of_dict raw_units;
  raw_claims ← object_list (jget "claims" m);
  claims ← result_map draft_claim_of_dict raw_claims;
  raw_unknowns ← object_list (jget "unknowns" m);
  unknowns ← result_map draft_unknown_of_dict raw_unknowns;
  raw_generation ← item_at "generation" m;
  generation ← py_int raw_generation;
  markdown ← str_at "markdown" m;
  Ok (mkBundle (str_get "schema_version" "draft-bundle.v1" m) generation units claims unknowns markdown).

(** ** [confirmation/builder.py] *)

Record ConfirmationUnit := mkConfirmation {
  cf_unit_key : string;
  cf_title : string;
  cf_order : Z;
  cf_markdown : string;
  cf_content_hash : string;
  cf_claim_ids : list string;
  cf_unknown_ids : list string;
  cf_depends_on : list string;
  cf_immutable : bool;
  cf_confirmation_status : string
}.

Definition build_confirmation_units (b : DraftBundle) (immutable_unit_keys : list string) : list ConfirmationUnit :=
  map (fun u =>
    mkConfirmation (dn_unit_key u) (dn_title u) (dn_order u) (dn_markdown u) (sha256_hex (dn_markdown u))
      (map dc_claim_id (List.filter (fun c => String.eqb (dc_unit_key c) (dn_unit_key u)) (db_claims b)))
      (map du_unknown_id (List.filter (fun k => String.eqb (du_unit_key k) (dn_unit_key u)) (db_unknowns b)))
      (dn_depends_on u) (bool_decide (dn_unit_key u ∈ immutable_unit_keys)) "PENDING")
    (db_units b).
End draft.
