(* ===== verification/Knowledge.v ===== *)
(** * Evidence knowledge of the worker

    [agent/knowledge/models.py], [module.py] and [artifact.py] and
    [agent/action_identity.py] of agent-python: evidence of a capability is
    checked against the authorities of the run, turned into facts, and the facts
    decide which coverage an action reached.  [json.loads] is a parameter. *)
From stdpp Require Import base list sets strings pretty.
From Stdlib Require Import ZArith NArith.
From S2P Require Import Prelude.
From S2P Require Import PyDict.
From S2P Require Import PyText.
From S2P Require Import Json.
From S2P Require Import CodePoints.
From S2P Require Import Ledger.
From S2P Require Import UnitModels.
From S2P Require Import Draft.
Open Scope string_scope.

(** ** Records *)

Inductive FactScope : Type := FS_CURRENT_STATE | FS_HISTORICAL_CONTEXT | FS_TARGET_DECISION | FS_ASSUMPTION.
Inductive FactType : Type := USER_CONFIRMED | CODE_VERIFIED | DOCUMENT_SUPPORTED | INFERRED.
Inductive VerificationStatus : Type := VS_SUPPORTED | VS_PARTIAL | VS_UNSUPPORTED | VS_CONFLICTING.

#[global] Instance FactScope_eq_dec : EqDecision FactScope.
Proof. solve_decision. Defined.
#[global] Instance FactType_eq_dec : EqDecision FactType.
Proof. solve_decision. Defined.
#[global] Instance VerificationStatus_eq_dec : EqDecision VerificationStatus.
Proof. solve_decision. Defined.

Definition scope_value (s : FactScope) : string :=
  match s with
  | FS_CURRENT_STATE => "CURRENT_STATE" | FS_HISTORICAL_CONTEXT => "HISTORICAL_CONTEXT"
  | FS_TARGET_DECISION => "TARGET_DECISION" | FS_ASSUMPTION => "ASSUMPTION"
  end.

Definition fact_type_value (t : FactType) : string :=
  match t with
  | USER_CONFIRMED => "USER_CONFIRMED" | CODE_VERIFIED => "CODE_VERIFIED"
  | DOCUMENT_SUPPORTED => "DOCUMENT_SUPPORTED" | INFERRED => "INFERRED"
  end.

Definition verification_value (v : VerificationStatus) : string :=
  match v with
  | VS_SUPPORTED => "SUPPORTED" | VS_PARTIAL => "PARTIAL" | VS_UNSUPPORTED => "UNSUPPORTED" | VS_CONFLICTING => "CONFLICTING"
  end.

(** [FactScope(value)] and the like. *)
Definition read_enum {A} (value : A -> string) (members : list A) (s : string) : result exc A :=
  match List.find (fun a => String.eqb (value a) s) members with Some a => Ok a | None => Raise ValueError end.

Definition read_scope : string -> result exc FactScope :=
  read_enum scope_value [FS_CURRENT_STATE; FS_HISTORICAL_CONTEXT; FS_TARGET_DECISION; FS_ASSUMPTION].
Definition read_fact_type : string -> result exc FactType :=
  read_enum fact_type_value [USER_CONFIRMED; CODE_VERIFIED; DOCUMENT_SUPPORTED; INFERRED].
Definition read_verification : string -> result exc VerificationStatus :=
  read_enum verification_value [VS_SUPPORTED; VS_PARTIAL; VS_UNSUPPORTED; VS_CONFLICTING].

Record SourceAuthority := mkAuthority {
  sa_source_kind : string;
  sa_binding_id : string;
  sa_source_id : string;
  sa_source_version : string;
  sa_access_scope_hash : string
}.

Record EvidenceRecord := mkEvidence {
  er_evidence_id : string;
  er_source_kind : string;
  er_binding_id : string;
  er_source_id : string;
  er_source_version : string;
  er_access_scope_hash : string;
  er_locator : string;
  er_excerpt_hash : string;
  er_excerpt : string;
  er_validation_status : string;
  er_action_signature : string
}.

Record VerifiedFact := mkFact {
  vf_fact_id : string;
  vf_subject : string;
  vf_predicate : string;
  vf_value : json;
  vf_fact_scope : FactScope;
  vf_fact_type : FactType;
  vf_verification_status : VerificationStatus;
  vf_evidence_ids : list string;
  vf_coverage_keys : list string;
  vf_extractor_id : string;
  vf_extractor_version : string
}.

Record KnowledgeUnknown := mkKnowledgeUnknown {
  ku_unknown_id : string;
  ku_coverage_key : string;
  ku_question : string;
  ku_reason_code : string;
  ku_action_signature : string;
  ku_evidence_ids : list string
}.

Record SourceConflict := mkConflict {
  cn_conflict_id : string;
  cn_subject : string;
  cn_predicate : string;
  cn_fact_ids : list string;
  cn_evidence_ids : list string;
  cn_status : string
}.

Record CoverageUpdate := mkUpdate {
  cv_coverage_key : string;
  cv_before : string;
  cv_after : string;
  cv_supported_fact_ids : list string;
  cv_unknown_ids : list string;
  cv_conflict_ids : list string;
  cv_reason_code : string
}.

Record KnowledgeBundle := mkKnowledge {
  kb_schema_version : string;
  kb_bundle_id : string;
  kb_run_id : string;
  kb_task_id : string;
  kb_need_plan_id : string;
  kb_need_context_hash : string;
  kb_evidence : list EvidenceRecord;
  kb_facts : list VerifiedFact;
  kb_unknowns : list KnowledgeUnknown;
  kb_conflicts : list SourceConflict;
  kb_coverage_updates : list CoverageUpdate;
  kb_knowledge_fingerprint : string;
  kb_progress_fingerprint : string;
  kb_builder_version : string
}.

(** [investigation/models.py]. *)
Record ProposedAction := mkAction {
  pa_tool_id : string;
  pa_arguments : list (string * json);
  pa_purpose : string;
  pa_target_coverage : list string;
  pa_tool_schema_version : string;
  pa_strategy : string
}.

(** What the module reads of the message [EvidenceItem]. *)
Record CapabilityEvidence := mkCapability {
  ce_source_type : string;
  ce_source_id : string;
  ce_locator : string;
  ce_excerpt_hash : string;
  ce_excerpt : string;
  ce_source_kind : string;
  ce_binding_id : string;
  ce_source_version : string;
  ce_access_scope_hash : string
}.

Record KnowledgeBuildRequest := mkBuildRequest {
  br_run_id : string;
  br_task_id : string;
  br_need_plan_id : string;
  br_need_context_hash : string;
  br_action : ProposedAction;
  br_evidence_items : list CapabilityEvidence;
  br_source_authorities : list SourceAuthority;
  br_coverage : dict string string;
  br_prior_bundle : option KnowledgeBundle;
  br_outcome_kind : string
}.

Record KnowledgeBuildResult := mkBuildResult {
  bs_bundle : KnowledgeBundle;
  bs_coverage : dict string string;
  bs_progressed : bool
}.

(** ** [asdict] *)

Definition evidence_json (e : EvidenceRecord) : json :=
  JObj [("evidence_id", JStr (er_evidence_id e)); ("source_kind", JStr (er_source_kind e)); ("binding_id", JStr (er_binding_id e));
        ("source_id", JStr (er_source_id e)); ("source_version", JStr (er_source_version e));
        ("access_scope_hash", JStr (er_access_scope_hash e)); ("locator", JStr (er_locator e));
        ("excerpt_hash", JStr (er_excerpt_hash e)); ("excerpt", JStr (er_excerpt e));
        ("validation_status", JStr (er_validation_status e)); ("action_signature", JStr (er_action_signature e))].

Definition fact_json (f : VerifiedFact) : json :=
  JObj [("fact_id", JStr (vf_fact_id f)); ("subject", JStr (vf_subject f)); ("predicate", JStr (vf_predicate f));
        ("value", vf_value f); ("fact_scope", JStr (scope_value (vf_fact_scope f)));
        ("fact_type", JStr (fact_type_value (vf_fact_type f)));
        ("verification_status", JStr (verification_value (vf_verification_status f)));
        ("evidence_ids", strs (vf_evidence_ids f)); ("coverage_keys", strs (vf_coverage_keys f));
        ("extractor_id", JStr (vf_extractor_id f)); ("extractor_version", JStr (vf_extractor_version f))].

Definition unknown_json (u : KnowledgeUnknown) : json :=
  JObj [("unknown_id", JStr (ku_unknown_id u)); ("coverage_key", JStr (ku_coverage_key u)); ("question", JStr (ku_question u));
        ("reason_code", JStr (ku_reason_code u)); ("action_signature", JStr (ku_action_signature u));
        ("evidence_ids", strs (ku_evidence_ids u))].

Definition conflict_json (c : SourceConflict) : json :=
  JObj [("conflict_id", JStr (cn_conflict_id c)); ("subject", JStr (cn_subject c)); ("predicate", JStr (cn_predicate c));
        ("fact_ids", strs (cn_fact_ids c)); ("evidence_ids", strs (cn_evidence_ids c)); ("status", JStr (cn_status c))].

Definition update_json (u : CoverageUpdate) : json :=
  JObj [("coverage_key", JStr (cv_coverage_key u)); ("before", JStr (cv_before u)); ("after", JStr (cv_after u));
        ("supported_fact_ids", strs (cv_supported_fact_ids u)); ("unknown_ids", strs (cv_unknown_ids u));
        ("conflict_ids", strs (cv_conflict_ids u)); ("reason_code", JStr (cv_reason_code u))].

Definition knowledge_json (b : KnowledgeBundle) : list (string * json) :=
  [("schema_version", JStr (kb_schema_version b)); ("bundle_id", JStr (kb_bundle_id b)); ("run_id", JStr (kb_run_id b));
   ("task_id", JStr (kb_task_id b)); ("need_plan_id", JStr (kb_need_plan_id b));
   ("need_context_hash", JStr (kb_need_context_hash b)); ("evidence", JArr (map evidence_json (kb_evidence b)));
   ("facts", JArr (map fact_json (kb_facts b))); ("unknowns", JArr (map unknown_json (kb_unknowns b)));
   ("conflicts", JArr (map conflict_json (kb_conflicts b))); ("coverage_updates", JArr (map update_json (kb_coverage_updates b)));
   ("knowledge_fingerprint", JStr (kb_knowledge_fingerprint b)); ("progress_fingerprint", JStr (kb_progress_fingerprint b));
   ("builder_version", JStr (kb_builder_version b))].

(** ** Tokens *)

(** The class [a-z0-9\u4e00-\u9fff]. *)
Definition token_char (c : N) : bool :=
  ((97 <=? c) && (c <=? 122) || (48 <=? c) && (c <=? 57) || (19968 <=? c) && (c <=? 40959))%N.

(** [re.findall] of runs of a class. *)
Fixpoint runs_from (p : N -> bool) (current t : text) : list text :=
  match t with
  | [] => match current with [] => [] | _ => [current] end
  | c :: t' =>
      if p c then runs_from p (current ++ [c])%list t'
      else match current with [] => runs_from p [] t' | _ => current :: runs_from p [] t' end
  end.

Section knowledge.
Context `{Builtins} `{JsonLoads}.

Definition tokens (value : string) : list text :=
  runs_from token_char [] (map (fun c => if (c =? 95)%N then 32%N else c) (decode (lower value))).

Definition long_tokens (value : string) : list text := List.filter (fun t => (1 <? length t)%nat) (tokens value).

(** [all(token in available for token in tokens)]. *)
Definition all_tokens (wanted available : list text) : bool := forallb (fun t => bool_decide (t ∈ available)) wanted.

(** ** Sources *)

Definition action_signature (a : ProposedAction) : string :=
  sha256_json (JObj [("tool_id", JStr (pa_tool_id a)); ("tool_schema_version", JStr (pa_tool_schema_version a));
                     ("strategy", JStr (pa_strategy a)); ("arguments", JObj (pa_arguments a));
                     ("target_coverage", strs (pa_target_coverage a))]).

(** The loop over the authorities: the first that matches decides; a string is
    the reason why the evidence is not valid. *)
Fixpoint match_authority (item : CapabilityEvidence) (kind binding : string) (authorities : list SourceAuthority)
    : result string SourceAuthority :=
  match authorities with
  | [] => Raise "INVALID_SOURCE"
  | a :: rest =>
      if negb (String.eqb kind (sa_source_kind a)) || negb (bool_decide (binding ∈ [sa_source_id a; sa_binding_id a]))
      then match_authority item kind binding rest
      else if truthy (ce_source_version item) && negb (String.eqb (ce_source_version item) (sa_source_version a))
      then Raise "STALE_SOURCE"
      else if truthy (ce_access_scope_hash item) && negb (String.eqb (ce_access_scope_hash item) (sa_access_scope_hash a))
      then Raise "ACCESS_SCOPE_MISMATCH"
      else if String.eqb (sa_source_kind a) "github"
              && negb (String.prefix ("github://" +:+ sa_binding_id a +:+ "@" +:+ sa_source_version a +:+ "/") (ce_locator item))
      then Raise (if String.prefix ("github://" +:+ sa_binding_id a +:+ "@") (ce_locator item) then "STALE_SOURCE" else "LOCATOR_MISMATCH")
      else Ok a
  end.

Definition validate_source (item : CapabilityEvidence) (authorities : list SourceAuthority) : result string SourceAuthority :=
  if negb (String.eqb ("sha256:" +:+ sha256_hex (ce_excerpt item)) (ce_excerpt_hash item)) then Raise "HASH_MISMATCH"
  else match_authority item
         (if truthy (ce_source_kind item) then ce_source_kind item else ce_source_type item)
         (if truthy (ce_binding_id item) then ce_binding_id item else ce_source_id item) authorities.

(** [_hash(payload).removeprefix("sha256:")[:24]]. *)
Definition short_hash (payload : json) : string := str_take 24 (bare_hash (sha256_json payload)).

Definition evidence_record (item : CapabilityEvidence) (a : SourceAuthority) (signature : string) : EvidenceRecord :=
  let identity := JObj [("source_kind", JStr (sa_source_kind a)); ("binding_id", JStr (sa_binding_id a));
                        ("source_id", JStr (sa_source_id a)); ("source_version", JStr (sa_source_version a));
                        ("access_scope_hash", JStr (sa_access_scope_hash a)); ("locator", JStr (ce_locator item));
                        ("excerpt_hash", JStr (ce_excerpt_hash item))] in
  mkEvidence ("evidence-" +:+ short_hash identity) (sa_source_kind a) (sa_binding_id a) (sa_source_id a) (sa_source_version a)
    (sa_access_scope_hash a) (ce_locator item) (ce_excerpt_hash item) (ce_excerpt item) "VALID" signature.

(** The loop over the evidence: the records, the identifiers of the valid ones
    and the reasons for the others, each in order. *)
Fixpoint collect_evidence (signature : string) (authorities : list SourceAuthority) (items : list CapabilityEvidence)
    (evidence : dict string EvidenceRecord) : dict string EvidenceRecord * list string * list string :=
  match items with
  | [] => (evidence, [], [])
  | item :: rest =>
      match validate_source item authorities with
      | Raise reason =>
          let '(evidence', valid, invalid) := collect_evidence signature authorities rest evidence in
          (evidence', valid, reason :: invalid)
      | Ok a =>
          let record := evidence_record item a signature in
          let '(evidence', valid, invalid) :=
            collect_evidence signature authorities rest (<[er_evidence_id record := record]> evidence) in
          (evidence', er_evidence_id record :: valid, invalid)
      end
  end.

(** ** Facts *)

Definition directly_supported (query : string) (evidence : list EvidenceRecord) : list EvidenceRecord :=
  match long_tokens query with
  | [] => []
  | wanted => List.filter (fun e => all_tokens wanted (tokens (er_excerpt e))) evidence
  end.

(** [_direct_fact]; the subject is the first target of the action. *)
Definition direct_fact (r : KnowledgeBuildRequest) (e : EvidenceRecord) : result exc VerifiedFact :=
  match pa_target_coverage (br_action r) with
  | [] => Raise IndexError
  | subject :: _ =>
      let code := String.eqb (er_source_kind e) "github" in
      let scope := if code then FS_CURRENT_STATE else FS_HISTORICAL_CONTEXT in
      let type := if code then CODE_VERIFIED else DOCUMENT_SUPPORTED in
      let payload := JObj [("subject", JStr subject); ("predicate", JStr "direct_source_support"); ("value", JStr (er_excerpt e));
                           ("scope", JStr (scope_value scope)); ("type", JStr (fact_type_value type));
                           ("evidence_ids", strs [er_evidence_id e]); ("extractor", JStr "direct-token-match.v1")] in
      Ok (mkFact ("fact-" +:+ short_hash payload) subject "direct_source_support" (JStr (er_excerpt e)) scope type VS_SUPPORTED
            [er_evidence_id e] (pa_target_coverage (br_action r)) "direct-token-match" "1")
  end.

Definition parser_keys : list string := ["subject"; "predicate"; "value"; "scope"].

(** [_parser_fact]. *)
Definition parser_fact (r : KnowledgeBuildRequest) (e : EvidenceRecord) : option VerifiedFact :=
  match json_loads (er_excerpt e) with
  | Some (JObj raw) =>
      if negb (forallb (fun k => bool_decide (k ∈ parser_keys)) raw.*1 && forallb (fun k => bool_decide (k ∈ raw.*1)) parser_keys)
      then None
      else match read_scope (str_get "scope" EmptyString raw) with
      | Raise _ => None
      | Ok scope =>
          let subject := str_get "subject" EmptyString raw in
          let predicate := str_get "predicate" EmptyString raw in
          let value := default JNull (jget "value" raw) in
          let type := if bool_decide (er_source_kind e ∈ ["github"; "openapi"; "database_schema"])
                      then CODE_VERIFIED else DOCUMENT_SUPPORTED in
          let payload := JObj [("subject", JStr subject); ("predicate", JStr predicate); ("value", value);
                               ("scope", JStr (scope_value scope)); ("type", JStr (fact_type_value type));
                               ("evidence_ids", strs [er_evidence_id e]);
                               ("coverage_keys", strs (pa_target_coverage (br_action r)));
                               ("extractor", JStr (pa_tool_id (br_action r) +:+ ".v1"))] in
          Some (mkFact ("fact-" +:+ short_hash payload) subject predicate value scope type VS_SUPPORTED [er_evidence_id e]
                  (pa_target_coverage (br_action r)) (pa_tool_id (br_action r)) "1")
      end
  | _ => None
  end.

Definition parser_tools : list string := ["parse_openapi"; "parse_database_schema"].

Definition extract_facts (r : KnowledgeBuildRequest) (evidence : list EvidenceRecord) : result exc (list VerifiedFact) :=
  if bool_decide (pa_tool_id (br_action r) ∈ parser_tools) then Ok (omap (parser_fact r) evidence)
  else result_map (direct_fact r) (directly_supported (str_get "query" EmptyString (pa_arguments (br_action r))) evidence).

(** ** Conflicts *)

Definition fact_key (f : VerifiedFact) : string * string * FactScope := (vf_subject f, vf_predicate f, vf_fact_scope f).

Definition parsed (f : VerifiedFact) : bool := bool_decide (vf_extractor_id f ∈ parser_tools).

(** [grouped]: the keys in the order of their first fact, with their facts. *)
Definition fact_groups (facts : list VerifiedFact) : list (list VerifiedFact) :=
  let candidates := List.filter parsed facts in
  map (fun k => List.filter (fun f => bool_decide (fact_key f = k)) candidates) (dedup (map fact_key candidates)).

Definition disagree (group : list VerifiedFact) : bool :=
  (2 <=? length (dedup (map (fun f => sha256_json (vf_value f)) group)))%nat.

Definition sorted_ids (l : list string) : list string := sort_by String.leb l.

Definition group_conflict (group : list VerifiedFact) : SourceConflict :=
  let fact_ids := sorted_ids (map vf_fact_id group) in
  let subject := match group with f :: _ => vf_subject f | [] => EmptyString end in
  let predicate := match group with f :: _ => vf_predicate f | [] => EmptyString end in
  mkConflict ("conflict-" +:+ short_hash (JObj [("subject", JStr subject); ("predicate", JStr predicate); ("fact_ids", strs fact_ids)]))
    subject predicate fact_ids (sorted_ids (dedup (concat (map vf_evidence_ids group)))) "OPEN".

Definition with_verification (v : VerificationStatus) (f : VerifiedFact) : VerifiedFact :=
  mkFact (vf_fact_id f) (vf_subject f) (vf_predicate f) (vf_value f) (vf_fact_scope f) (vf_fact_type f) v (vf_evidence_ids f)
    (vf_coverage_keys f) (vf_extractor_id f) (vf_extractor_version f).

(** [_detect_conflicts]. *)
Definition detect_conflicts (facts : list VerifiedFact) : list VerifiedFact * list SourceConflict :=
  let groups := List.filter disagree (fact_groups facts) in
  let conflicting := concat (map (map vf_fact_id) groups) in
  (map (fun f => if bool_decide (vf_fact_id f ∈ conflicting) then with_verification VS_CONFLICTING f else f) facts,
   map group_conflict groups).

(** ** Coverage *)

Definition unknown_for (r : KnowledgeBuildRequest) (coverage_key reason signature : string) (evidence_ids : list string)
    : KnowledgeUnknown :=
  let identity := JObj [("need_plan_id", JStr (br_need_plan_id r)); ("coverage_key", JStr coverage_key); ("reason", JStr reason);
                        ("action_signature", JStr signature); ("evidence_ids", strs (sorted_ids evidence_ids))] in
  mkKnowledgeUnknown ("unknown-" +:+ short_hash identity) coverage_key (str_get "query" EmptyString (pa_arguments (br_action r)))
    reason signature (sorted_ids evidence_ids).

(** [any(key in facts[fact_id].coverage_keys for fact_id in fact_ids)]. *)
Fixpoint any_covers (facts : dict string VerifiedFact) (key : string) (fact_ids : list string) : result exc bool :=
  match fact_ids with
  | [] => Ok false
  | id :: rest =>
      match facts !! id with
      | None => Raise KeyError
      | Some f => if bool_decide (key ∈ vf_coverage_keys f) then Ok true else any_covers facts key rest
      end
  end.

Fixpoint conflicts_on (facts : dict string VerifiedFact) (key : string) (conflicts : list SourceConflict)
    : result exc (list SourceConflict) :=
  match conflicts with
  | [] => Ok []
  | c :: rest =>
      covers ← any_covers facts key (cn_fact_ids c);
      others ← conflicts_on facts key rest;
      Ok (if (covers : bool) then c :: others else others)
  end.

Definition is_supported (f : VerifiedFact) : bool := bool_decide (vf_verification_status f = VS_SUPPORTED).

(** What a build knows when it looks at the coverage. *)
Record assessment := mkAssessment {
  as_facts : dict string VerifiedFact;
  as_conflicts : list SourceConflict;
  as_valid_ids : list string;
  as_invalid_reasons : list string
}.

Definition supported_ids (facts : dict string VerifiedFact) (key : string) : list string :=
  sorted_ids (map vf_fact_id (List.filter (fun f => is_supported f && bool_decide (key ∈ vf_coverage_keys f)) (values facts))).

Definition missing_reason (r : KnowledgeBuildRequest) (a : assessment) : string :=
  match as_invalid_reasons a with
  | reason :: _ => reason
  | [] => if is_empty (br_evidence_items r) then "EMPTY_RESULT" else "UNSUPPORTED_EVIDENCE"
  end.

(** One round of the loop over the targets of the action. *)
Definition cover_key (r : KnowledgeBuildRequest) (signature : string) (a : assessment) (key : string)
    (coverage : dict string string) (unknowns : dict string KnowledgeUnknown)
    : result exc (dict string string * dict string KnowledgeUnknown * CoverageUpdate) :=
  let before := get_default coverage key "MISSING" in
  let supported := supported_ids (as_facts a) key in
  blocking ← conflicts_on (as_facts a) key (as_conflicts a);
  let conflict_ids := sorted_ids (map cn_conflict_id blocking) in
  if negb (is_empty conflict_ids) then
    Ok (<[key := "CONFLICTING"]> coverage, unknowns,
        mkUpdate key before "CONFLICTING" supported [] conflict_ids "OPEN_SOURCE_CONFLICT")
  else if negb (is_empty supported) then
    Ok (<[key := "COVERED"]> coverage, unknowns, mkUpdate key before "COVERED" supported [] conflict_ids "SUPPORTED_FACTS_AVAILABLE")
  else
    let reason := missing_reason r a in
    let unknown := unknown_for r key reason signature (as_valid_ids a) in
    Ok (<[key := before]> coverage, <[ku_unknown_id unknown := unknown]> unknowns,
        mkUpdate key before before supported [ku_unknown_id unknown] conflict_ids reason).

Fixpoint cover_keys (r : KnowledgeBuildRequest) (signature : string) (a : assessment) (keys : list string)
    (coverage : dict string string) (unknowns : dict string KnowledgeUnknown)
    : result exc (dict string string * dict string KnowledgeUnknown * list CoverageUpdate) :=
  match keys with
  | [] => Ok (coverage, unknowns, [])
  | key :: rest =>
      step ← cover_key r signature a key coverage unknowns;
      let '(coverage1, unknowns1, update) := step in
      others ← cover_keys r signature a rest coverage1 unknowns1;
      let '(coverage2, unknowns2, updates) := others in
      Ok (coverage2, unknowns2, update :: updates)
  end.

(** ** [EvidenceKnowledgeModule.build] *)

Definition by_id {A} (id : A -> string) (a b : A) : bool := String.leb (id a) (id b).

Definition knowledge_fingerprint (evidence : list EvidenceRecord) (facts : list VerifiedFact) (unknowns : list KnowledgeUnknown)
    (conflicts : list SourceConflict) : string :=
  sha256_json (JObj [("evidence", JArr (map evidence_json evidence)); ("facts", JArr (map fact_json facts));
                     ("unknowns", JArr (map unknown_json unknowns)); ("conflicts", JArr (map conflict_json conflicts))]).

Definition progress_fingerprint (facts : list VerifiedFact) (unknowns : list KnowledgeUnknown) (conflicts : list SourceConflict)
    (coverage : dict string string) : string :=
  let ordered := sort_by (pair_leb String.eqb String.leb String.leb) (items coverage) in
  sha256_json (JObj [("supported_fact_ids", strs (map vf_fact_id (List.filter is_supported facts)));
                     ("unknown_ids", strs (map ku_unknown_id unknowns)); ("conflict_ids", strs (map cn_conflict_id conflicts));
                     ("coverage", JArr (map (fun kv => strs [kv.1; kv.2]) ordered))]).

(** The dictionaries of the prior bundle. *)
Definition prior_items {A} (id : A -> string) (field : KnowledgeBundle -> list A) (prior : option KnowledgeBundle) : dict string A :=
  match prior with Some b => dict_by id (field b) | None => ∅ end.

(** [evidence[item] for item in valid_ids]. *)
Definition lookups {A} (d : dict string A) (ids : list string) : result exc (list A) :=
  result_map (fun id => match d !! id with Some x => Ok x | None => Raise KeyError end) ids.

Definition build_knowledge (r : KnowledgeBuildRequest) : result exc KnowledgeBuildResult :=
  let signature := action_signature (br_action r) in
  let prior := br_prior_bundle r in
  let '(evidence, valid_ids, invalid_reasons) :=
    collect_evidence signature (br_source_authorities r) (br_evidence_items r) (prior_items er_evidence_id kb_evidence prior) in
  valid ← lookups evidence valid_ids;
  extracted ← extract_facts r valid;
  let gathered := dict_update vf_fact_id extracted (prior_items vf_fact_id kb_facts prior) in
  let '(detected, conflicts) := detect_conflicts (values gathered) in
  let facts := dict_by vf_fact_id detected in
  covered ← cover_keys r signature (mkAssessment facts conflicts valid_ids invalid_reasons) (pa_target_coverage (br_action r))
              (br_coverage r) (prior_items ku_unknown_id kb_unknowns prior);
  let '(coverage, unknowns, updates) := covered in
  let ordered_evidence := sort_by (by_id er_evidence_id) (values evidence) in
  let ordered_facts := sort_by (by_id vf_fact_id) (values facts) in
  let ordered_unknowns := sort_by (by_id ku_unknown_id) (values unknowns) in
  let ordered_conflicts := sort_by (by_id cn_conflict_id) conflicts in
  let fingerprint := knowledge_fingerprint ordered_evidence ordered_facts ordered_unknowns ordered_conflicts in
  let progress := progress_fingerprint ordered_facts ordered_unknowns ordered_conflicts coverage in
  Ok (mkBuildResult
        (mkKnowledge "knowledge-bundle.v1" ("knowledge-" +:+ str_take 24 (bare_hash fingerprint)) (br_run_id r) (br_task_id r)
           (br_need_plan_id r) (br_need_context_hash r) ordered_evidence ordered_facts ordered_unknowns ordered_conflicts updates
           fingerprint progress "knowledge-builder.v1")
        coverage
        (match prior with None => true | Some b => negb (String.eqb (kb_progress_fingerprint b) progress) end)).

(** ** [KnowledgeArtifactCodec] *)

Definition encode_knowledge (b : KnowledgeBundle) (generation : Z) : RunArtifact :=
  let content := canonical_json (JObj (knowledge_json b)) in
  mkArtifact (kb_run_id b +:+ ":knowledge_bundle:" +:+ pretty generation) "KNOWLEDGE_BUNDLE" generation
    (kb_knowledge_fingerprint b) (sha256_hex content) content.

(** [tuple(str(value) for value in item[key])]. *)
Definition texts_at (key : string) (m : list (string * json)) : result exc (list string) :=
  j ← item_at key m; items ← py_iter j; Ok (map py_str items).

(** A keyword argument that is a text.  The class accepts any value here; values
    that are not texts are outside the model. *)
Definition text_field (key : string) (m : list (string * json)) : result exc string :=
  match jget key m with
  | Some (JStr s) => Ok s
  | Some _ => Raise (External "evidence field that is not a text")
  | None => Raise TypeError
  end.

Definition evidence_keys : list string :=
  ["evidence_id"; "source_kind"; "binding_id"; "source_id"; "source_version"; "access_scope_hash"; "locator"; "excerpt_hash";
   "excerpt"; "validation_status"; "action_signature"].

(** [EvidenceRecord( **item)]: an unexpected or missing argument is a [TypeError]. *)
Definition evidence_of_dict (m : list (string * json)) : result exc EvidenceRecord :=
  (if forallb (fun k => bool_decide (k ∈ evidence_keys)) m.*1 && forallb (fun k => bool_decide (k ∈ m.*1)) evidence_keys
   then Ok tt else Raise TypeError) ;;
  id ← text_field "evidence_id" m;
  kind ← text_field "source_kind" m;
  binding ← text_field "binding_id" m;
  source ← text_field "source_id" m;
  version ← text_field "source_version" m;
  access ← text_field "access_scope_hash" m;
  locator ← text_field "locator" m;
  hash ← text_field "excerpt_hash" m;
  excerpt ← text_field "excerpt" m;
  status ← text_field "validation_status" m;
  signature ← text_field "action_signature" m;
  Ok (mkEvidence id kind binding source version access locator hash excerpt status signature).

Definition fact_of_dict (m : list (string * json)) : result exc VerifiedFact :=
  id ← str_at "fact_id" m;
  subject ← str_at "subject" m;
  predicate ← str_at "predicate" m;
  value ← item_at "value" m;
  raw_scope ← str_at "fact_scope" m;
  scope ← read_scope raw_scope;
  raw_type ← str_at "fact_type" m;
  type ← read_fact_type raw_type;
  raw_status ← str_at "verification_status" m;
  status ← read_verification raw_status;
  evidence ← texts_at "evidence_ids" m;
  coverage ← texts_at "coverage_keys" m;
  extractor ← str_at "extractor_id" m;
  version ← str_at "extractor_version" m;
  Ok (mkFact id subject predicate value scope type status evidence coverage extractor version).

Definition unknown_of_dict (m : list (string * json)) : result exc KnowledgeUnknown :=
  id ← str_at "unknown_id" m;
  key ← str_at "coverage_key" m;
  question ← str_at "question" m;
  reason ← str_at "reason_code" m;
  signature ← str_at "action_signature" m;
  evidence ← texts_at "evidence_ids" m;
  Ok (mkKnowledgeUnknown id key question reason signature evidence).

Definition conflict_of_dict (m : list (string * json)) : result exc SourceConflict :=
  id ← str_at "conflict_id" m;
  subject ← str_at "subject" m;
  predicate ← str_at "predicate" m;
  facts ← texts_at "fact_ids" m;
  evidence ← texts_at "evidence_ids" m;
  status ← str_at "status" m;
  Ok (mkConflict id subject predicate facts evidence status).

Definition update_of_dict (m : list (string * json)) : result exc CoverageUpdate :=
  key ← str_at "coverage_key" m;
  before ← str_at "before" m;
  after ← str_at "after" m;
  supported ← texts_at "supported_fact_ids" m;
  unknowns ← texts_at "unknown_ids" m;
  conflicts ← texts_at "conflict_ids" m;
  reason ← str_at "reason_code" m;
  Ok (mkUpdate key before after supported unknowns conflicts reason).

(** [_objects], with the reader of each object. *)
Definition objects {A} (read : list (string * json) -> result exc A) (key : string) (m : list (string * json)) : result exc (list A) :=
  raw ← object_list (jget key m); result_map read raw.

Definition knowledge_of_dict (m : list (string * json)) : result exc KnowledgeBundle :=
  evidence ← objects evidence_of_dict "evidence" m;
  facts ← objects fact_of_dict "facts" m;
  unknowns ← objects unknown_of_dict "unknowns" m;
  conflicts ← objects conflict_of_dict "conflicts" m;
  updates ← objects update_of_dict "coverage_updates" m;
  schema ← str_at "schema_version" m;
  id ← str_at "bundle_id" m;
  run ← str_at "run_id" m;
  task ← str_at "task_id" m;
  plan ← str_at "need_plan_id" m;
  context ← str_at "need_context_hash" m;
  fingerprint ← str_at "knowledge_fingerprint" m;
  progress ← str_at "progress_fingerprint" m;
  builder ← str_at "builder_version" m;
  Ok (mkKnowledge schema id run task plan context evidence facts unknowns conflicts updates fingerprint progress builder).

Definition decode_knowledge (a : RunArtifact) : result exc KnowledgeBundle :=
  require (String.eqb (ra_artifact_type a) "KNOWLEDGE_BUNDLE") ;;
  require (String.eqb (sha256_hex (ra_content a)) (ra_content_hash a)) ;;
  match json_loads (ra_content a) with
  | Some (JObj raw) =>
      require (String.eqb (canonical_json (JObj raw)) (ra_content a)) ;;
      bundle ← knowledge_of_dict raw;
      require (String.eqb (ra_request_hash a) (kb_knowledge_fingerprint bundle)) ;;
      Ok bundle
  | _ => Raise ValueError
  end.
End knowledge.
