(* ===== verification/UnitSemantic.v ===== *)
(** * Grounding of drafts and the semantic boundary of a unit

    [agent/grounding/models.py], [policies.py] and [module.py],
    [agent/quality/advanced.py] and [agent/unit/semantic.py] of agent-python.
    [evaluate] is the evaluator that the unit runtime calls: it extracts the
    claims of a candidate, grounds them in the knowledge of the run and records
    both.  The event sink and the supplement are parameters with effects on a
    world of their own. *)
From stdpp Require Import base list sets strings pretty.
From Stdlib Require Import ZArith NArith.
From S2P Require Import Prelude.
From S2P Require Import PyDict.
From S2P Require Import PyText.
From S2P Require Import Json.
From S2P Require Import CodePoints.
From S2P Require Import Ledger.
From S2P Require Import UnitModels.
From S2P Require Import Draft.
From S2P Require Import Knowledge.
Open Scope string_scope.

(** ** [grounding/models.py] *)

Inductive GroundingStatus : Type := GS_SUPPORTED | GS_PARTIAL | GS_UNSUPPORTED | GS_CONFLICTING | GS_NOT_REQUIRED.
Inductive GroundingOutcome : Type := GROUNDED | SUPPLEMENT_REQUIRED | GROUNDING_PARTIAL.

#[global] Instance GroundingStatus_eq_dec : EqDecision GroundingStatus.
Proof. solve_decision. Defined.
#[global] Instance GroundingOutcome_eq_dec : EqDecision GroundingOutcome.
Proof. solve_decision. Defined.

Definition status_value (s : GroundingStatus) : string :=
  match s with
  | GS_SUPPORTED => "SUPPORTED" | GS_PARTIAL => "PARTIAL" | GS_UNSUPPORTED => "UNSUPPORTED"
  | GS_CONFLICTING => "CONFLICTING" | GS_NOT_REQUIRED => "NOT_REQUIRED"
  end.

Definition grounding_value (o : GroundingOutcome) : string :=
  match o with
  | GROUNDED => "GROUNDED" | SUPPLEMENT_REQUIRED => "GROUNDING_SUPPLEMENT_REQUIRED" | GROUNDING_PARTIAL => "GROUNDING_PARTIAL"
  end.

Record GroundingFinding := mkFinding {
  gf_claim_id : string;
  gf_status : GroundingStatus;
  gf_evidence_refs : list string;
  gf_reason_code : string;
  gf_fact_ids : list string
}.

Definition finding_json (f : GroundingFinding) : list (string * json) :=
  [("claim_id", JStr (gf_claim_id f)); ("status", JStr (status_value (gf_status f))); ("evidence_refs", strs (gf_evidence_refs f));
   ("reason_code", JStr (gf_reason_code f)); ("fact_ids", strs (gf_fact_ids f))].

(** [_GROUNDING_REQUIRED] and [_REQUIRED]. *)
Definition grounding_required (t : DraftClaim.ClaimType) : bool :=
  match t with DraftClaim.CURRENT_STATE | DraftClaim.CONSTRAINT => true | _ => false end.

Definition informational (c : DraftClaim.ClaimCriticality) : bool :=
  match c with DraftClaim.INFORMATIONAL => true | _ => false end.

Definition not_required (c : Claim) : GroundingFinding :=
  mkFinding (dc_claim_id c) GS_NOT_REQUIRED [] "CLAIM_TYPE_NOT_GROUNDING_REQUIRED" [].

(** A status that keeps a claim from being grounded. *)
Definition blocked (s : GroundingStatus) : bool :=
  match s with GS_UNSUPPORTED | GS_PARTIAL | GS_CONFLICTING => true | _ => false end.

(** ** [grounding/policies.py] *)

Definition reference_finding (available : list string) (c : Claim) : GroundingFinding :=
  if negb (grounding_required (dc_claim_type c)) then not_required c
  else if is_empty (dc_evidence_refs c) then mkFinding (dc_claim_id c) GS_UNSUPPORTED [] "EVIDENCE_MISSING" []
  else if negb (forallb (fun e => bool_decide (e ∈ available)) (dc_evidence_refs c))
  then mkFinding (dc_claim_id c) GS_UNSUPPORTED (dc_evidence_refs c) "EVIDENCE_REFERENCE_INVALID" []
  else mkFinding (dc_claim_id c) GS_SUPPORTED (dc_evidence_refs c) "EVIDENCE_REFERENCE_VALID" [].

(** [assess_grounding]. *)
Definition assess_grounding (b : DraftBundle) (available : list string) (supplement_count max_supplements : Z)
    (has_remaining_tool_budget : bool) : list GroundingFinding * GroundingOutcome :=
  let findings := map (reference_finding available) (db_claims b) in
  let gating := List.filter (fun cf => negb (informational (dc_criticality cf.1))) (zip (db_claims b) findings) in
  let missing := existsb (fun cf => match gf_status cf.2 with GS_UNSUPPORTED | GS_PARTIAL => true | _ => false end) gating in
  let conflict := existsb (fun cf => bool_decide (gf_status cf.2 = GS_CONFLICTING)) gating in
  (findings,
   if negb missing && negb conflict then GROUNDED
   else if missing && (supplement_count <? max_supplements)%Z && has_remaining_tool_budget then SUPPLEMENT_REQUIRED
   else GROUNDING_PARTIAL).

Section semantic.
Context `{Builtins} `{JsonLoads}.

(** [materialize_unknowns]: an unknown for each claim whose last finding blocks it. *)
Definition claim_unknown (findings : dict string GroundingFinding) (c : Claim) : option DraftUnknown :=
  match findings !! dc_claim_id c with
  | Some f =>
      if blocked (gf_status f)
      then Some (mkDraftUnknown ("unknown-" +:+ str_take 20 (sha256_hex (dc_claim_id c))) (dc_unit_key c)
                   ("当前证据不足以确认：" +:+ dc_statement c) (gf_reason_code f) [dc_claim_id c] (Some "请补充证据或确认该事实。"))
      else None
  | None => None
  end.

Definition materialize_unknowns (b : DraftBundle) (findings : list GroundingFinding) : DraftBundle :=
  with_unknowns b (omap (claim_unknown (dict_by gf_claim_id findings)) (db_claims b)).

(** ** [grounding/module.py] *)

Definition scope_matches (f : VerifiedFact) (t : DraftClaim.ClaimType) : bool :=
  match t with
  | DraftClaim.CURRENT_STATE => bool_decide (vf_fact_scope f = FS_CURRENT_STATE)
  | DraftClaim.CONSTRAINT => bool_decide (vf_fact_scope f ∈ [FS_CURRENT_STATE; FS_TARGET_DECISION])
  | _ => false
  end.

Definition scope_supports (f : VerifiedFact) (t : DraftClaim.ClaimType) : bool :=
  scope_matches f t && bool_decide (vf_fact_type f ∈ [CODE_VERIFIED; USER_CONFIRMED]).

(** [" ".join((subject, predicate, str(value), *excerpts))]. *)
Definition searchable (evidence : dict string EvidenceRecord) (f : VerifiedFact) : string :=
  str_join " " (vf_subject f :: vf_predicate f :: py_str (vf_value f)
    :: map (fun id => match evidence !! id with Some e => er_excerpt e | None => EmptyString end) (vf_evidence_ids f)).

Definition fact_mentions_claim (evidence : dict string EvidenceRecord) (statement : string) (f : VerifiedFact) : bool :=
  match long_tokens statement with
  | [] => false
  | wanted => all_tokens wanted (tokens (searchable evidence f))
  end.

(** [_finding]. *)
Definition facts_finding (claim_id : string) (status : GroundingStatus) (facts : list VerifiedFact) (reason : string) : GroundingFinding :=
  mkFinding claim_id status (sorted_ids (dedup (concat (map vf_evidence_ids facts)))) reason (sorted_ids (map vf_fact_id facts)).

(** The facts in an open conflict. *)
Definition open_conflict_facts (k : KnowledgeBundle) : list string :=
  concat (map cn_fact_ids (List.filter (fun c => String.eqb (cn_status c) "OPEN") (kb_conflicts k))).

Definition knowledge_finding (k : KnowledgeBundle) (c : Claim) : GroundingFinding :=
  let evidence := dict_by er_evidence_id (kb_evidence k) in
  if negb (grounding_required (dc_claim_type c)) then not_required c
  else
    let related := List.filter (fact_mentions_claim evidence (dc_statement c)) (kb_facts k) in
    let conflicting := List.filter (fun f => bool_decide (vf_fact_id f ∈ open_conflict_facts k)) related in
    let scoped := List.filter (fun f => scope_supports f (dc_claim_type c) && is_supported f) related in
    if negb (is_empty conflicting) then facts_finding (dc_claim_id c) GS_CONFLICTING conflicting "OPEN_SOURCE_CONFLICT"
    else if negb (is_empty scoped) then facts_finding (dc_claim_id c) GS_SUPPORTED scoped "VERIFIED_FACT_SUPPORT"
    else if negb (is_empty related) then
      facts_finding (dc_claim_id c) GS_UNSUPPORTED related
        (if existsb (fun f => scope_matches f (dc_claim_type c)) related then "FACT_TYPE_MISMATCH" else "FACT_SCOPE_MISMATCH")
    else mkFinding (dc_claim_id c) GS_UNSUPPORTED [] "FACT_REQUIRED" [].

(** [next(claim for claim in bundle.claims if claim.claim_id == claim_id)]: the
    first claim with the identifier; every finding is of a claim of the bundle. *)
Definition first_claim (claims : list Claim) (claim_id : string) : option Claim :=
  List.find (fun c => String.eqb (dc_claim_id c) claim_id) claims.

Definition finding_blocks (claims : list Claim) (f : GroundingFinding) : bool :=
  blocked (gf_status f)
  && match first_claim claims (gf_claim_id f) with Some c => negb (informational (dc_criticality c)) | None => false end.

(** [GroundingModule.assess]. *)
Definition assess_claims (b : DraftBundle) (k : KnowledgeBundle) (supplement_count max_supplements : Z)
    (has_remaining_tool_budget : bool) : list GroundingFinding * GroundingOutcome :=
  let findings := map (knowledge_finding k) (db_claims b) in
  (findings,
   if negb (existsb (finding_blocks (db_claims b)) findings) then GROUNDED
   else if (supplement_count <? max_supplements)%Z && has_remaining_tool_budget then SUPPLEMENT_REQUIRED
   else GROUNDING_PARTIAL).

(** ** [quality/advanced.py] *)

Inductive DraftDisposition : Type := DD_REPAIRABLE | DD_REQUIRES_GROUNDING | DD_NEEDS_HUMAN_DECISION | DD_FATAL.
Inductive DraftQuality : Type := DQ_PASSED | DQ_REPAIR_REQUIRED | DQ_NEEDS_HUMAN.

Record QualityIssue := mkQualityIssue {
  iss_issue_id : string;
  iss_unit_key : option string;
  iss_code : string;
  iss_disposition : DraftDisposition;
  iss_message : string
}.

Definition draft_issue (unit_key : option string) (code : string) (d : DraftDisposition) (message : string) : QualityIssue :=
  mkQualityIssue ("quality-" +:+ str_take 20 (sha256_hex (str_join (str_of_codes [0]%nat) [default EmptyString unit_key; code; message])))
    unit_key code d message.

(** The loop over the units; [seen] are the keys before. *)
Fixpoint draft_unit_issues (seen : list string) (units : list DraftUnit) : list QualityIssue :=
  match units with
  | [] => []
  | u :: rest =>
      (if truthy (strip (dn_markdown u)) then []
       else [draft_issue (Some (dn_unit_key u)) "EMPTY_UNIT" DD_REPAIRABLE "Confirmation Unit 内容为空。"])
      ++ (if bool_decide (dn_unit_key u ∈ seen)
          then [draft_issue (Some (dn_unit_key u)) "DUPLICATE_UNIT" DD_FATAL "Confirmation Unit key 重复。"] else [])
      ++ draft_unit_issues (dn_unit_key u :: seen) rest
  end%list.

Definition decides_human (d : DraftDisposition) : bool :=
  match d with DD_NEEDS_HUMAN_DECISION | DD_FATAL => true | _ => false end.

(** [check_advanced_quality]. *)
Definition check_advanced_quality (b : DraftBundle) (outcome : GroundingOutcome) (repair_count max_repairs : Z)
    : list QualityIssue * DraftQuality :=
  let issues := ((if bool_decide (outcome = GROUNDING_PARTIAL)
                  then [draft_issue None "UNSUPPORTED_CURRENT_STATE" DD_NEEDS_HUMAN_DECISION "存在未获得证据支持的当前状态事实。"] else [])
                 ++ draft_unit_issues [] (db_units b))%list in
  if existsb (fun i => decides_human (iss_disposition i)) issues then (issues, DQ_NEEDS_HUMAN)
  else if negb (is_empty issues) then (issues, if (repair_count <? max_repairs)%Z then DQ_REPAIR_REQUIRED else DQ_NEEDS_HUMAN)
  else ([], DQ_PASSED).

(** ** [unit/semantic.py] *)

(** What the module reads of the run's context. *)
Record SemanticContext := mkSemanticContext {
  mx_run_id : string;
  mx_task_id : string;
  mx_task_version : Z;
  mx_scope_hash : string;
  mx_resume_artifacts : list RunArtifact
}.

Definition empty_knowledge (x : SemanticContext) : KnowledgeBundle :=
  let identity := sha256_hex (str_join (str_of_codes [0]%nat) [mx_run_id x; mx_task_id x; "empty-knowledge.v1"]) in
  mkKnowledge "knowledge-bundle.v1" ("knowledge-empty-" +:+ str_take 24 identity) (mx_run_id x) (mx_task_id x) "need-not-required"
    identity [] [] [] [] [] identity identity "knowledge-builder.v1".

(** [__post_init__]: the knowledge of the latest artifact, and the generation
    reached. *)
Definition latest_knowledge (artifacts : list RunArtifact) : option RunArtifact :=
  min_by (fun a b => (ra_generation b <=? ra_generation a)%Z)
    (List.filter (fun a => String.eqb (ra_artifact_type a) "KNOWLEDGE_BUNDLE") artifacts).

Definition initial_knowledge (x : SemanticContext) : result exc KnowledgeBundle :=
  match latest_knowledge (mx_resume_artifacts x) with
  | Some a => decode_knowledge a
  | None => Ok (empty_knowledge x)
  end.

Definition initial_generation (x : SemanticContext) : Z :=
  max_default0 (map ra_generation (List.filter (fun a => bool_decide (ra_artifact_type a ∈ ["UNIT_CLAIM_SET"; "UNIT_GROUNDING_REPORT"]))
                                     (mx_resume_artifacts x))).

(** The state of the module, with the world of its collaborators. *)
Record semantic_state (W : Type) := mkSemantic { sm_knowledge : KnowledgeBundle; sm_generation : Z; sm_world : W }.
Arguments mkSemantic {W} _ _ _.
Arguments sm_knowledge {W} _.
Arguments sm_generation {W} _.
Arguments sm_world {W} _.

(** [{**finding.as_dict(), "claim_type": ..., "criticality": ...}]. *)
Definition typed_finding (cf : Claim * GroundingFinding) : list (string * json) :=
  (finding_json cf.2 ++ [("claim_type", JStr (DraftClaim.type_value (dc_claim_type cf.1)));
                         ("criticality", JStr (DraftClaim.criticality_value (dc_criticality cf.1)))])%list.

(** The structured form of a candidate; without claims there is none. *)
Definition candidate_structure (c : UnitCandidate) : option (list (string * json)) :=
  if is_empty (uc_claims c) then None
  else Some [("units", JArr [JObj [("unit_key", JStr (uc_unit_key c)); ("title", JStr (uc_title c));
                                   ("markdown", JStr (uc_markdown c)); ("order", JInt (uc_ordinal c))]]);
             ("claims", JArr (map (claim_json (uc_unit_key c)) (uc_claims c)))].

Definition candidate_bundle (x : SemanticContext) (generation : Z) (c : UnitCandidate) : result exc DraftBundle :=
  build_bundle (mx_run_id x) (mx_task_id x) (Z.max (mx_task_version x) 1) generation (uc_markdown c) (candidate_structure c).

Section evaluate.
Context {W : Type} (x : SemanticContext) (max_supplements : Z).
Context (sink : RunArtifact -> M W exc unit) (supplement : option (Claim -> KnowledgeBundle -> M W exc (option KnowledgeBundle))).

(** An effect on the world. *)
Definition on_world {A} (m : M W exc A) : M (semantic_state W) exc A := fun s =>
  let (w, r) := m (sm_world s) in (mkSemantic (sm_knowledge s) (sm_generation s) w, r).

Definition has_supplement : bool := match supplement with Some _ => true | None => false end.

Definition persist (artifact_type key : string) (payload : list (string * json)) : M (semantic_state W) exc unit :=
  generation ← gets sm_generation;
  let content := canonical_json (JObj payload) in
  on_world (sink (mkArtifact (mx_run_id x +:+ ":" +:+ key +:+ ":" +:+ pretty generation) artifact_type generation (mx_scope_hash x)
                    (sha256_hex content) content)).

(** [_assess]. *)
Definition assess_now (b : DraftBundle) (supplement_count : Z) : M (semantic_state W) exc (list GroundingFinding * GroundingOutcome) :=
  gets (fun s => assess_claims b (sm_knowledge s) supplement_count max_supplements has_supplement).

Definition next_generation : M (semantic_state W) exc Z := fun s =>
  let g := (sm_generation s + 1)%Z in (mkSemantic (sm_knowledge s) g (sm_world s), Ok g).

Definition set_knowledge (k : KnowledgeBundle) : M (semantic_state W) exc unit := fun s =>
  (mkSemantic k (sm_generation s) (sm_world s), Ok tt).

(** [next(claim for claim, finding in zip(...) if finding.status blocks)]. *)
Definition first_blocked (b : DraftBundle) (findings : list GroundingFinding) : result exc Claim :=
  match List.find (fun cf => blocked (gf_status cf.2)) (zip (db_claims b) findings) with
  | Some cf => Ok cf.1
  | None => Raise StopIteration
  end.

(** The supplement, once, and the second assessment. *)
Definition supplemented (b : DraftBundle) (first : list GroundingFinding * GroundingOutcome)
    : M (semantic_state W) exc (list GroundingFinding * GroundingOutcome) :=
  match supplement with
  | Some ask =>
      if bool_decide (first.2 = SUPPLEMENT_REQUIRED) then
        blocking ← liftR (first_blocked b first.1);
        knowledge ← gets sm_knowledge;
        answer ← on_world (ask blocking knowledge);
        match answer with Some k => set_knowledge k | None => mret tt end ;;
        assess_now b 1
      else mret first
  | None => mret first
  end.

(** [ScopedUnitSemanticModule.evaluate]. *)
Definition evaluate (c : UnitCandidate) : M (semantic_state W) exc (list (list (string * json))) :=
  generation ← next_generation;
  bundle ← liftR (candidate_bundle x generation c);
  persist "UNIT_CLAIM_SET" "claim_set"
    [("schema_version", JStr "unit-claim-set.v1"); ("scope_hash", JStr (mx_scope_hash x)); ("generation", JInt generation);
     ("claims", JArr (map draft_claim_json (db_claims bundle)))] ;;
  first ← assess_now bundle 0;
  final ← supplemented bundle first;
  let typed := map typed_finding (zip (db_claims bundle) final.1) in
  fingerprint ← gets (fun s => kb_knowledge_fingerprint (sm_knowledge s));
  persist "UNIT_GROUNDING_REPORT" "grounding_report"
    [("schema_version", JStr "unit-grounding-report.v1"); ("scope_hash", JStr (mx_scope_hash x));
     ("knowledge_fingerprint", JStr fingerprint); ("generation", JInt generation);
     ("outcome", JStr (grounding_value final.2)); ("findings", JArr (map JObj typed))] ;;
  mret typed.
End evaluate.
End semantic.
Arguments mkSemantic {W} _ _ _.
Arguments sm_knowledge {W} _.
Arguments sm_generation {W} _.
Arguments sm_world {W} _.
