(* ===== verification/SemanticFacts.v ===== *)
(** * A unit passes only when its claims are supported

    The evaluator of the unit runtime is the semantic module: what it reports of
    every claim, that a quality report which passed means a supporting fact for
    every claim on the current state, that an evaluation always answers, and how
    the grounding outcome relates to the criticality of the claims. *)
From stdpp Require Import base list sets strings pretty.
From Stdlib Require Import ZArith Lia.
From S2P Require Import Prelude.
From S2P Require Import PyDict.
From S2P Require Import PyText.
From S2P Require Import PyStrip.
From S2P Require Import Json.
From S2P Require Import CodePoints.
From S2P Require Import CanonicalJson.
From S2P Require Import Ledger.
From S2P Require Import UnitModels.
From S2P Require Import UnitQuality.
From S2P Require Import UnitRun.
From S2P Require Import UnitOutlineFacts.
From S2P Require Import UnitRunFacts.
From S2P Require Import UnitDemo.
From S2P Require Import Draft.
From S2P Require Import Knowledge.
From S2P Require Import UnitSemantic.
Open Scope string_scope.

Lemma filter_nil {A} (p : A -> bool) l : List.filter p l = [] <-> forall x, x ∈ l -> p x = false.
Proof.
  induction l as [|x l IH]; simpl; [split; [by intros _ ? ?%elem_of_nil|done]|]. destruct (p x) eqn:E.
  - split; [done|]. intros Hall. specialize (Hall x ltac:(left)). congruence.
  - rewrite IH. split; intros Hall y Hy; [apply elem_of_cons in Hy as [->|Hy]; auto|apply Hall; by right].
Qed.

Lemma elem_of_filter_b {A} (p : A -> bool) l x : x ∈ List.filter p l <-> x ∈ l /\ p x = true.
Proof. rewrite !list_elem_of_In. apply filter_In. Qed.

Lemma nonempty_elem {A} (l : list A) : negb (is_empty l) = true -> exists x, x ∈ l.
Proof. destruct l as [|x l]; [done|]. exists x. left. Qed.

Lemma Forall2_elem_l {A B} (R : A -> B -> Prop) l k x : Forall2 R l k -> x ∈ l -> exists y, y ∈ k /\ R x y.
Proof.
  induction 1 as [|a b l k Hab _ IH]; [by intros ?%elem_of_nil|]. intros [->|Hx]%elem_of_cons; [exists b; split; [left|done]|].
  destruct (IH Hx) as (y & Hy & Hr). exists y. split; [by right|done].
Qed.

Section facts.
Context `{Builtins} `{JsonLoads} `{UpperCase}.

(** ** Claims of a candidate *)

Lemma read_type_value t : DraftClaim.read_type (DraftClaim.type_value t) = Ok t.
Proof. by destruct t. Qed.

Lemma read_criticality_value c : DraftClaim.read_criticality (DraftClaim.criticality_value c) = Ok c.
Proof. by destruct c. Qed.

(** The claim of a bundle that stands for a claim of the candidate. *)
Definition represents (u : UnitClaim) (d : Claim) : Prop :=
  dc_claim_type d = cl_claim_type u /\ dc_criticality d = cl_criticality u /\ dc_statement d = strip (cl_statement u).

Lemma texts_of_strs l : map py_str (map JStr l) = l.
Proof. rewrite map_map. apply map_id. Qed.

Lemma read_claim_json run generation keys key u :
  read_claim run generation keys (claim_json key u) =
  if bool_decide (draft_unit_key key ∈ keys) && truthy (strip (cl_statement u))
  then Ok (mkDraftClaim (draft_claim_id run generation (draft_unit_key key) (cl_claim_type u) (strip (cl_statement u)))
             (draft_unit_key key) (cl_claim_type u) (cl_criticality u) (strip (cl_statement u)) (cl_evidence_refs u) [] [])
  else Raise ValueError.
Proof.
  unfold read_claim, claim_json.
  match goal with |- context [str_get "unit_key" EmptyString ?m] =>
    change (str_get "unit_key" EmptyString m) with key;
    change (str_get "statement" EmptyString m) with (strip (cl_statement u));
    change (str_get "claim_type" "PROPOSED_BEHAVIOR" m) with (DraftClaim.type_value (cl_claim_type u));
    change (str_get "criticality" "IMPORTANT" m) with (DraftClaim.criticality_value (cl_criticality u));
    change (text_items "requirement_refs" m) with (@Ok exc (list string) []);
    change (text_items "trace_to_claim_ids" m) with (@Ok exc (list string) []);
    change (text_items "evidence_refs" m) with (@Ok exc (list string) (map py_str (map JStr (cl_evidence_refs u))))
  end.
  rewrite strip_idem, read_type_value, read_criticality_value, texts_of_strs. by destruct (_ && _).
Qed.

Lemma candidate_bundle_claims x generation c b :
  candidate_bundle x generation c = Ok b -> uc_claims c <> [] -> Forall2 represents (uc_claims c) (db_claims b).
Proof.
  intros E Hne. unfold candidate_bundle, build_bundle in E. apply result_mbind_Ok in E as (units & _ & E).
  apply result_mbind_Ok in E as (claims & Hc & E). injection E as <-. cbn [db_claims].
  unfold draft_claims, candidate_structure in Hc. destruct (is_empty (uc_claims c)) eqn:Ee; [by destruct (uc_claims c)|].
  cbn [structured_get] in Hc. match type of Hc with context [jget "claims" ?m] =>
    change (jget "claims" m) with (Some (JArr (map (claim_json (uc_unit_key c)) (uc_claims c)))) in Hc end.
  apply result_map_Ok in Hc. apply Forall2_fmap_l in Hc. eapply Forall2_impl; [exact Hc|]. intros u d Hd. cbv [compose] in Hd.
  rewrite read_claim_json in Hd. destruct (_ && _); [|done]. by injection Hd as <-.
Qed.

(** ** Findings *)

(** A fact of the knowledge that supports a claim on the current state. *)
Definition supporting_fact (k : KnowledgeBundle) (statement : string) (f : VerifiedFact) : Prop :=
  f ∈ kb_facts k /\ vf_verification_status f = VS_SUPPORTED /\ vf_fact_scope f = FS_CURRENT_STATE /\
  vf_fact_type f ∈ [CODE_VERIFIED; USER_CONFIRMED] /\
  fact_mentions_claim (dict_by er_evidence_id (kb_evidence k)) statement f = true.

(** No fact about the claim is in an open conflict. *)
Definition undisputed (k : KnowledgeBundle) (statement : string) : Prop :=
  forall f, f ∈ kb_facts k -> fact_mentions_claim (dict_by er_evidence_id (kb_evidence k)) statement f = true ->
  vf_fact_id f ∉ open_conflict_facts k.

Definition current_state_supported (k : KnowledgeBundle) (statement : string) : Prop :=
  undisputed k statement /\ exists f, supporting_fact k statement f.

Lemma knowledge_finding_supported k c :
  dc_claim_type c = DraftClaim.CURRENT_STATE -> blocked (gf_status (knowledge_finding k c)) = false ->
  current_state_supported k (dc_statement c).
Proof.
  intros Ht. unfold knowledge_finding. rewrite Ht. cbn [grounding_required negb].
  set (evidence := dict_by _ _). set (related := List.filter (fact_mentions_claim evidence (dc_statement c)) _).
  set (conflicting := List.filter _ related). set (scoped := List.filter _ related). destruct (is_empty conflicting) eqn:Ec; [|done].
  cbn [negb]. destruct (negb (is_empty scoped)) eqn:Es; [intros _|destruct (negb (is_empty related)); done]. split.
  - destruct conflicting as [|? ?] eqn:Ef; [|done]. intros f Hf Hm Hin. pose proof (proj1 (filter_nil _ _) Ef f) as Hno. cbv beta in Hno.
    rewrite bool_decide_true in Hno by done. discriminate Hno. by apply elem_of_filter_b.
  - apply nonempty_elem in Es as [f [[Hf Hm]%elem_of_filter_b Hs]%elem_of_filter_b]. exists f.
    apply andb_true_iff in Hs as [[Hs1 Hs2]%andb_true_iff Hs3]. apply bool_decide_eq_true in Hs1, Hs2, Hs3. done.
Qed.

(** Conversely the facts decide: with support and without dispute the claim is
    found supported. *)
Lemma supported_knowledge_finding k c :
  dc_claim_type c = DraftClaim.CURRENT_STATE -> current_state_supported k (dc_statement c) ->
  gf_status (knowledge_finding k c) = GS_SUPPORTED.
Proof.
  intros Ht [Hu (f & Hf & Hv & Hsc & Hty & Hm)]. unfold knowledge_finding. rewrite Ht. cbn [grounding_required negb].
  set (evidence := dict_by _ _). set (related := List.filter (fact_mentions_claim evidence (dc_statement c)) _).
  set (conflicting := List.filter _ related). set (scoped := List.filter _ related).
  assert (Ec : conflicting = []).
  { apply filter_nil. intros g [Hg Hgm]%elem_of_filter_b. apply bool_decide_eq_false. by apply Hu. }
  assert (Es : f ∈ scoped).
  { apply elem_of_filter_b. split; [by apply elem_of_filter_b|]. unfold scope_supports, scope_matches, is_supported.
    by rewrite !bool_decide_true. }
  rewrite Ec. simpl. by destruct scoped; [apply elem_of_nil in Es|].
Qed.

Lemma unsupported_typed c f :
  unsupported_finding (typed_finding (c, f)) = blocked (gf_status f) && bool_decide (dc_claim_type c = DraftClaim.CURRENT_STATE).
Proof.
  unfold unsupported_finding.
  change (str_get "status" EmptyString (typed_finding (c, f))) with (status_value (gf_status f)).
  change (str_get "claim_type" EmptyString (typed_finding (c, f))) with (DraftClaim.type_value (dc_claim_type c)).
  destruct (gf_status f), (dc_claim_type c); reflexivity.
Qed.

(** ** One evaluation *)

Section evaluate.
Context {W : Type} (x : SemanticContext) (max_supplements : Z).
Context (sink : RunArtifact -> M W exc unit) (supplement : option (Claim -> KnowledgeBundle -> M W exc (option KnowledgeBundle))).
#[local] Abbreviation evaluate' := (evaluate x max_supplements sink supplement).
#[local] Abbreviation state := (semantic_state W).

Lemma on_world_keeps {A} (m : M W exc A) (s s' : state) r :
  on_world m s = (s', r) -> sm_knowledge s' = sm_knowledge s /\ sm_generation s' = sm_generation s.
Proof. unfold on_world. destruct (m (sm_world s)). by intros [= <- <-]. Qed.

Lemma persist_keeps ty key payload (s s' : state) r :
  persist x sink ty key payload s = (s', r) -> sm_knowledge s' = sm_knowledge s /\ sm_generation s' = sm_generation s.
Proof.
  unfold persist, mbind, M_bind, gets. cbn. destruct (on_world _ s) as [s1 r1] eqn:E. intros [= <- <-].
  by apply on_world_keeps in E.
Qed.

(** The findings are always those of the knowledge the module ends up with. *)
Lemma supplemented_final b (s s' : state) final :
  supplemented max_supplements supplement b (assess_claims b (sm_knowledge s) 0 max_supplements (has_supplement supplement)) s = (s', Ok final) ->
  final.1 = map (knowledge_finding (sm_knowledge s')) (db_claims b).
Proof.
  unfold supplemented. destruct supplement as [ask|]; [|by intros [= <- <-]]. case_bool_decide; [|by intros [= <- <-]].
  intros (s1 & blocking & E1 & E)%mbind_Ok. apply mbind_Ok in E as (s2 & k & E2 & E). apply mbind_Ok in E as (s3 & answer & E3 & E).
  apply mbind_Ok in E as (s4 & u & E4 & E). unfold assess_now, gets in E. by injection E as <- <-.
Qed.

Lemma evaluate_Ok c (s s' : state) typed :
  evaluate' c s = (s', Ok typed) -> exists b, candidate_bundle x (sm_generation s + 1) c = Ok b /\
  typed = map typed_finding (zip (db_claims b) (map (knowledge_finding (sm_knowledge s')) (db_claims b))).
Proof.
  intros (s1 & g & Eg & E)%mbind_Ok. unfold next_generation in Eg. injection Eg as <- <-.
  apply mbind_Ok in E as (s2 & b & Eb & E). pose proof Eb as Eb'. apply liftR_Ok in Eb'. unfold liftR in Eb. injection Eb as <- _.
  apply mbind_Ok in E as (s3 & u & Ep & E). apply mbind_Ok in E as (s4 & first & Ef & E). unfold assess_now, gets in Ef.
  injection Ef as <- <-. apply mbind_Ok in E as (s5 & final & Efin & E). apply supplemented_final in Efin.
  apply mbind_Ok in E as (s6 & fp & Efp & E). unfold gets in Efp. injection Efp as <- <-.
  apply mbind_Ok in E as (s7 & u' & Eq & E). apply persist_keeps in Eq as [Eq _]. injection E as <- <-.
  exists b. split; [done|]. by rewrite Efin, Eq.
Qed.

Lemma zip_map_typed k l :
  map typed_finding (zip l (map (knowledge_finding k) l)) = map (fun c => typed_finding (c, knowledge_finding k c)) l.
Proof. induction l as [|c l IH]; [done|]. simpl. by f_equal. Qed.

(** When no finding blocks a claim on the current state, each of them has support. *)
Lemma evaluate_supported c (s s' : state) typed u :
  evaluate' c s = (s', Ok typed) -> existsb unsupported_finding typed = false ->
  u ∈ uc_claims c -> cl_claim_type u = DraftClaim.CURRENT_STATE -> current_state_supported (sm_knowledge s') (strip (cl_statement u)).
Proof.
  intros (b & Hb & ->)%evaluate_Ok Hno Hu Ht. rewrite zip_map_typed in Hno.
  assert (Hne : uc_claims c <> []) by (intros E; rewrite E in Hu; by apply elem_of_nil in Hu).
  apply candidate_bundle_claims in Hb as Hr; [|done].
  destruct (Forall2_elem_l _ _ _ _ Hr Hu) as (d & Hd & E1 & E2 & E3). rewrite <- E3. apply knowledge_finding_supported; [congruence|].
  destruct (blocked _) eqn:Eb; [|done]. rewrite <- not_true_iff_false, existsb_exists in Hno. exfalso. apply Hno.
  exists (typed_finding (d, knowledge_finding (sm_knowledge s') d)). split; [|rewrite unsupported_typed, Eb, E1, Ht; done].
  apply in_map_iff. exists d. split; [done|]. by apply list_elem_of_In.
Qed.
End evaluate.

(** ** The quality report of a run *)

Section report.
Context {S : Type}.

(** The report in the payload of a run is the quality of a candidate with the
    findings of the evaluator, which was the last to act; the payload has the
    claims of that candidate. *)
Lemma run_unit_report outline unit revise (ground : UnitCandidate -> M S exc (list (list (string * json)))) r st st' res rep :
  run_unit outline unit revise (Some ground) r st = (st', Ok res) -> jget "quality_report" (rr_payload res) = Some rep ->
  exists c findings report st1, ground c st1 = (st', Ok findings) /\ rep = report_json report /\
    evaluate_unit (mkQualityRequest c (required_content r) findings (ur_unresolved_conflict_ids r) (ur_unresolved_unknown_ids r)) = Ok report /\
    jget "claims" (rr_payload res) = Some (JArr (map (claim_json (uc_unit_key c)) (uc_claims c))).
Proof.
  unfold run_unit. destruct (ur_purpose r).
  - intros (st1 & raw & _ & E)%mbind_Ok. apply mbind_Ok in E as (st2 & c & Ec & E). apply liftR_Ok in E.
    apply run_result_Ok in E as [-> _]. done.
  - intros (st1 & raw & _ & E)%mbind_Ok. apply mbind_Ok in E as (st2 & c & Ec & E). apply mbind_Ok in E as (st3 & c' & Ev & E).
    apply mbind_Ok in E as (st4 & report & Er & E). apply mbind_Ok in Er as (st5 & findings & Ef & Er).
    unfold liftR in Er, E. injection Er as <- Er. injection E as <- E. apply run_result_Ok in E as [-> _].
    cbn [rr_payload]. intros [= <-]. exists c, findings, report, st3. by split_and!.
  - intros (st1 & raw & _ & E)%mbind_Ok. apply mbind_Ok in E as (st2 & p & Ec & E). apply mbind_Ok in E as (st3 & p' & Ev & E).
    apply liftR_Ok in Ev. unfold validate_patch in Ev. destruct (ur_base_candidate r) as [base|] eqn:Eb; [|done].
    rewrite !invariant_then, !andb_true_iff in Ev. destruct Ev as ([_ Hkey%String.eqb_eq] & _).
    apply mbind_Ok in E as (st4 & revised & Erev & E). apply mbind_Ok in E as (st5 & report & Er & E).
    apply mbind_Ok in Er as (st6 & findings & Ef & Er). unfold liftR in Er, E. injection Er as <- Er. injection E as <- E.
    apply liftR_Ok in Erev. unfold check_candidate in Erev. rewrite !require_then in Erev. destruct Erev as (_ & _ & _ & Erev).
    injection Erev as <-. apply run_result_Ok in E as [-> _]. cbn [rr_payload]. intros [= <-].
    eexists _, findings, report, st4. split_and!; [exact Ef|done|exact Er|]. cbn [uc_unit_key uc_claims with_markdown]. by rewrite <- Hkey.
  - intros (st1 & c & Ec & E)%mbind_Ok. apply mbind_Ok in E as (st2 & report & Er & E). apply liftR_Ok in E.
    apply run_result_Ok in E as [-> _]. done.
Qed.
End report.

(** The quality report in a payload passed. *)
Definition passed (payload : list (string * json)) : bool :=
  match jget "quality_report" payload with
  | Some (JObj rep) => member_is "outcome" "QUALITY_PASSED" rep
  | _ => false
  end.

Lemma passed_outcome report :
  match report_json report with JObj rep => member_is "outcome" "QUALITY_PASSED" rep | _ => false end = true ->
  qr_outcome report = QUALITY_PASSED.
Proof.
  change (match report_json report with JObj rep => member_is "outcome" "QUALITY_PASSED" rep | _ => false end)
    with (String.eqb (outcome_value (qr_outcome report)) "QUALITY_PASSED"). by destruct (qr_outcome report).
Qed.


(** ** An evaluation always answers *)

(** What the checks of a candidate leave for the semantic module; [uc_markdown]
    is a text. *)
Definition evaluable (c : UnitCandidate) : Prop :=
  truthy (uc_unit_key c) = true /\ truthy (strip (uc_title c)) = true /\ truthy (strip (uc_markdown c)) = true /\
  (forall u, u ∈ uc_claims c -> truthy (strip (cl_statement u)) = true) /\ encode (decode (uc_markdown c)) = uc_markdown c.

Lemma claims_of_dict_statements m claims u :
  claims_of_dict m = Ok claims -> u ∈ claims -> truthy (strip (cl_statement u)) = true.
Proof.
  unfold claims_of_dict. intros (raw & _ & E)%result_mbind_Ok Hu. apply result_map_Ok in E. apply Forall2_flip in E.
  destruct (Forall2_elem_l _ _ _ _ E Hu) as (d & _ & Hd). unfold claim_of_dict in Hd.
  do 3 (apply result_mbind_Ok in Hd as (? & _ & Hd)). apply require_then in Hd as [Hs Hd]. by injection Hd as <-.
Qed.

Lemma candidate_of_dict_evaluable m c :
  candidate_of_dict m = Ok c -> encode (decode (uc_markdown c)) = uc_markdown c -> evaluable c.
Proof.
  unfold candidate_of_dict. intros E Hu. apply result_mbind_Ok in E as (o & _ & E). apply result_mbind_Ok in E as (nodes & _ & E).
  apply result_mbind_Ok in E as (claims & Hcl & E). do 3 (apply result_mbind_Ok in E as (? & _ & E)).
  apply result_mbind_Ok in E as (c' & Hc & E). apply require_then in E as [_ E]. injection E as ->.
  unfold check_candidate in Hc. rewrite !require_then, !andb_true_iff in Hc. destruct Hc as (_ & [[[Hk Ht] _] _] & Hm & Hc). injection Hc as <-.
  cbn [uc_unit_key uc_title uc_markdown uc_claims] in *. split_and!; try done.
  - cbn [uc_title]. unfold stripped_get in *. by rewrite strip_idem.
  - intros u. by apply (claims_of_dict_statements m).
Qed.

Lemma tsplitlines_from_nonempty current t : current <> [] \/ t <> [] -> tsplitlines_from current t <> [].
Proof.
  revert current. induction t as [|c t IH]; intros current Hne; simpl; [destruct current; [by destruct Hne|done]|].
  destruct (c =? 13)%N; [by destruct t as [|d t']; [|destruct (d =? 10)%N]|]. destruct (line_break c); [done|]. apply IH. left. by destruct current.
Qed.

Lemma split_markdown_total markdown :
  truthy markdown = true -> encode (decode markdown) = markdown -> exists units, split_markdown markdown = Ok units.
Proof.
  intros Hm Hu. unfold split_markdown. cbv zeta. destruct (heading_matches _) as [|[start group] rest]; [|case_match; by eexists].
  destruct (tsplitlines (decode markdown)) as [|line rest] eqn:E; [|by eexists]. exfalso. revert E. apply tsplitlines_from_nonempty. right.
  intros E. rewrite E in Hu. subst markdown. done.
Qed.

Lemma strip_truthy s : truthy (strip s) = true -> truthy s = true.
Proof. by destruct s. Qed.

(** The one unit of a structured candidate. *)
Lemma candidate_units c :
  evaluable c -> uc_claims c <> [] -> exists u, draft_units (candidate_structure c) (uc_markdown c) = Ok [u] /\
  dn_unit_key u = draft_unit_key (uc_unit_key c).
Proof.
  intros (Hk & Ht & Hm & _) Hne. unfold draft_units, candidate_structure. destruct (is_empty (uc_claims c)) eqn:Ee; [by destruct (uc_claims c)|].
  cbn [structured_get]. match goal with |- context [JObj ?m] => set (unit := m) end.
  match goal with |- context [jget "units" ?m] => change (jget "units" m) with (Some (JArr [JObj unit])) end. cbn match. cbn [read_units].
  change (str_get "title" EmptyString unit) with (uc_title c). change (str_get "markdown" EmptyString unit) with (uc_markdown c).
  change (str_get "unit_key" EmptyString unit) with (uc_unit_key c). change (int_get "order" ((0 + 1) * 10) unit) with (@Ok exc Z (uc_ordinal c)).
  change (text_items "depends_on" unit) with (@Ok exc (list string) []). rewrite Ht, Hm, Hk. eexists. split; reflexivity.
Qed.

Lemma candidate_bundle_total x generation c : evaluable c -> exists b, candidate_bundle x generation c = Ok b.
Proof.
  intros He. unfold candidate_bundle, build_bundle. destruct (decide (uc_claims c = [])) as [E|Hne].
  - unfold candidate_structure. rewrite E. cbn [is_empty]. destruct He as (_ & _ & Hm & _ & Hu).
    destruct (split_markdown_total (uc_markdown c)) as [units Hun]; [by apply strip_truthy|done|].
    unfold draft_units, draft_claims. cbn [structured_get]. rewrite Hun. eauto.
  - destruct (candidate_units c He Hne) as (u & Hu & Hk). rewrite Hu. cbn [mbind result_mbind result_bind].
    assert (Hc : exists claims, draft_claims (candidate_structure c) (mx_run_id x) generation [u] 
      (sha256_hex (str_join (str_of_codes [0]%nat) [mx_task_id x; pretty (Z.max (mx_task_version x) 1)])) = Ok claims).
    { unfold draft_claims, candidate_structure. destruct (is_empty (uc_claims c)) eqn:Ee; [by destruct (uc_claims c)|].
      cbn [structured_get]. match goal with |- context [jget "claims" ?m] =>
        change (jget "claims" m) with (Some (JArr (map (claim_json (uc_unit_key c)) (uc_claims c)))) end.
      apply result_map_total. intros j (uc & -> & Hin)%list_elem_of_fmap. rewrite read_claim_json.
      rewrite (proj1 (proj2 (proj2 (proj2 He))) uc Hin), bool_decide_true; [eauto|]. rewrite <- Hk. left. }
    destruct Hc as [claims ->]. eauto.
Qed.

(** A supplement is only asked for when a claim is blocked. *)
Lemma first_blocked_total b k n m h :
  (assess_claims b k n m h).2 = SUPPLEMENT_REQUIRED -> exists c, first_blocked b (assess_claims b k n m h).1 = Ok c.
Proof.
  unfold assess_claims, first_blocked. cbn [fst snd]. destruct (existsb _ _) eqn:E; [|done]. intros _.
  apply existsb_exists in E as (f & Hf & Hb). apply andb_true_iff in Hb as [Hb _]. apply in_map_iff in Hf as (c & <- & Hc).
  destruct (List.find _ _) as [cf|] eqn:Ef; [eauto|]. exfalso.
  assert (Hin : In (c, knowledge_finding k c) (zip (db_claims b) (map (knowledge_finding k) (db_claims b)))).
  { clear -Hc. induction (db_claims b) as [|d l IH]; [done|]. simpl in *. destruct Hc as [->|Hc]; [by left|right; auto]. }
  apply (find_none _ _ Ef) in Hin. simpl in Hin. congruence.
Qed.

(** Effects that never raise. *)
Definition answers {S A : Type} (m : M S exc A) : Prop := forall s, is_ok (m s).2 = true.

Lemma answers_bind {S A B : Type} (m : M S exc A) (k : A -> M S exc B) (s : S) :
  is_ok (m s).2 = true -> (forall s1 a, m s = (s1, Ok a) -> is_ok (k a s1).2 = true) -> is_ok ((m ≫= k) s).2 = true.
Proof. unfold mbind, M_bind. intros Hm Hk. destruct (m s) as [s1 [a|e]] eqn:E; [by apply Hk|done]. Qed.

Lemma answers_on_world {W A} (m : M W exc A) : answers m -> answers (on_world m).
Proof. intros Hm s. unfold on_world. specialize (Hm (sm_world s)). by destruct (m (sm_world s)). Qed.

Lemma answers_persist {W} x (sink : RunArtifact -> M W exc unit) ty key payload :
  (forall a, answers (sink a)) -> answers (persist x sink ty key payload).
Proof. intros Hs s. apply answers_bind; [done|]. intros s1 g _. by apply answers_on_world. Qed.

(** Every candidate that was read gets its findings.  For a candidate read
    from a mapping whose text is UTF-8, the semantic module returns one finding
    per extracted claim, whatever knowledge it has, provided that the event sink
    and the supplement answer: extraction, assessment and the choice of the claim
    to supplement never raise. *)
Theorem evaluate_returns {W : Type} (x : SemanticContext) (max_supplements : Z) (sink : RunArtifact -> M W exc unit)
    (supplement : option (Claim -> KnowledgeBundle -> M W exc (option KnowledgeBundle)))
    (m : list (string * json)) (c : UnitCandidate) (s : semantic_state W) :
  candidate_of_dict m = Ok c -> encode (decode (uc_markdown c)) = uc_markdown c ->
  (forall a w, is_ok (sink a w).2 = true) ->
  (forall ask claim k w, supplement = Some ask -> is_ok (ask claim k w).2 = true) ->
  exists typed b, (evaluate x max_supplements sink supplement c s).2 = Ok typed /\
    candidate_bundle x (sm_generation s + 1) c = Ok b /\ length typed = length (db_claims b).
Proof.
  intros Hc Hu Hsink Hsup. pose proof (candidate_of_dict_evaluable _ _ Hc Hu) as He.
  assert (Hret : is_ok (evaluate x max_supplements sink supplement c s).2 = true).
  { apply answers_bind; [done|]. intros s1 g _. destruct (candidate_bundle_total x g c He) as [b Hb].
    apply answers_bind; [by rewrite Hb|]. intros s2 b' Hb'. apply liftR_Ok in Hb'. rewrite Hb in Hb'. injection Hb' as <-.
    apply answers_bind; [by apply answers_persist|]. intros s3 u _. apply answers_bind; [done|]. intros s4 first Hf.
    unfold assess_now, gets in Hf. injection Hf as <- <-. apply answers_bind.
    { unfold supplemented. destruct supplement as [ask|]; [|done]. case_bool_decide as Hreq; [|done].
      destruct (first_blocked_total _ _ _ _ _ Hreq) as [cl Hcl]. apply answers_bind; [by rewrite Hcl|]. intros s5 cl' _.
      apply answers_bind; [done|]. intros s6 k _. apply answers_bind; [apply answers_on_world; intros w; by apply Hsup|].
      intros s7 answer _. apply answers_bind; [by destruct answer|done]. }
    intros s5 final _. apply answers_bind; [done|]. intros s6 fp _. apply answers_bind; [by apply answers_persist|done]. }
  destruct (evaluate x max_supplements sink supplement c s) as [s' [typed|e]] eqn:E; [|done].
  apply evaluate_Ok in E as (b & Hb & Ht). exists typed, b. split_and!; [done|done|]. by rewrite Ht, zip_map_typed, length_map.
Qed.

(** ** The outcome of grounding *)

Lemma first_claim_NoDup claims c : NoDup (map dc_claim_id claims) -> c ∈ claims -> first_claim claims (dc_claim_id c) = Some c.
Proof.
  unfold first_claim. induction claims as [|d l IH]; [by intros _ ?%elem_of_nil|]. intros Hnd Hc. apply NoDup_cons in Hnd as [Hd Hnd].
  simpl. destruct (String.eqb_spec (dc_claim_id d) (dc_claim_id c)) as [E|E].
  - apply elem_of_cons in Hc as [->|Hc]; [done|]. exfalso. apply Hd. rewrite E. by apply list_elem_of_fmap_2.
  - apply elem_of_cons in Hc as [->|Hc]; [done|auto].
Qed.

(** With distinct identifiers a draft is grounded exactly when no claim that
    matters is blocked. *)
Lemma grounded_exact b k n m h :
  NoDup (map dc_claim_id (db_claims b)) ->
  (assess_claims b k n m h).2 = GROUNDED <->
  forall c, c ∈ db_claims b -> informational (dc_criticality c) = false -> blocked (gf_status (knowledge_finding k c)) = false.
Proof.
  intros Hnd. unfold assess_claims. cbn [snd].
  assert (Hid : forall c, gf_claim_id (knowledge_finding k c) = dc_claim_id c).
  { intros c. unfold knowledge_finding, facts_finding. repeat case_match; reflexivity. }
  destruct (existsb _ _) eqn:E; cbn [negb].
  - split; [by destruct (_ && _)|]. intros Hall. apply existsb_exists in E as (f & (c & <- & Hc)%in_map_iff & Hb). exfalso.
    apply list_elem_of_In in Hc. unfold finding_blocks in Hb. rewrite Hid, (first_claim_NoDup _ _ Hnd Hc) in Hb.
    apply andb_true_iff in Hb as [Hb Hi%negb_true_iff]. rewrite (Hall c Hc Hi) in Hb. done.
  - split; [intros _|done]. intros c Hc Hi. destruct (blocked _) eqn:Eb; [|done]. rewrite <- not_true_iff_false, existsb_exists in E.
    exfalso. apply E. exists (knowledge_finding k c). split; [by apply in_map, list_elem_of_In|]. unfold finding_blocks.
    rewrite Hid, (first_claim_NoDup _ _ Hnd Hc), Eb, Hi. done.
Qed.

(** A repeated claim hides a blocking one.  The identifier of a claim is made
    of its unit, type and statement but not of its criticality, and the outcome
    looks the criticality up by identifier: a candidate that states an unsupported
    fact once as INFORMATIONAL and once more as BLOCKING counts as GROUNDED, and
    no supplement is asked for, although both findings are UNSUPPORTED. *)
Theorem repeated_claim_hides_blocking (x : SemanticContext) (generation : Z) (c : UnitCandidate) (u1 u2 : UnitClaim)
    (k : KnowledgeBundle) (n m : Z) (h : bool) :
  evaluable c -> uc_claims c = [u1; u2] -> strip (cl_statement u1) = strip (cl_statement u2) ->
  cl_claim_type u1 = DraftClaim.CURRENT_STATE -> cl_claim_type u2 = DraftClaim.CURRENT_STATE ->
  cl_criticality u1 = DraftClaim.INFORMATIONAL -> cl_criticality u2 = DraftClaim.BLOCKING -> kb_facts k = [] ->
  exists b findings, candidate_bundle x generation c = Ok b /\ assess_claims b k n m h = (findings, GROUNDED) /\
    map dc_criticality (db_claims b) = [DraftClaim.INFORMATIONAL; DraftClaim.BLOCKING] /\
    map gf_status findings = [GS_UNSUPPORTED; GS_UNSUPPORTED].
Proof.
  intros He Hc Hs Ht1 Ht2 Hk1 Hk2 Hf. assert (Hne : uc_claims c <> []) by (by rewrite Hc).
  destruct (candidate_units c He Hne) as (u & Hu & Hk). destruct He as (_ & _ & _ & Hst & _).
  unfold candidate_bundle, build_bundle. rewrite Hu. cbn [mbind result_mbind result_bind].
  unfold draft_claims, candidate_structure. rewrite Hc. cbn [is_empty structured_get].
  match goal with |- context [jget "claims" ?l] =>
    change (jget "claims" l) with (Some (JArr [claim_json (uc_unit_key c) u1; claim_json (uc_unit_key c) u2])) end.
  cbn [result_map map]. rewrite !read_claim_json, Hk, bool_decide_true by left.
  rewrite (Hst u1), (Hst u2), Ht1, Ht2, Hk1, Hk2, Hs by (rewrite Hc; set_solver). cbn [andb mbind result_mbind result_bind].
  eexists _, _. split; [reflexivity|]. unfold assess_claims. cbn [db_claims map].
  unfold knowledge_finding. cbn [dc_claim_type dc_claim_id dc_statement grounding_required negb]. rewrite Hf.
  cbn [List.filter is_empty negb existsb finding_blocks blocked gf_status gf_claim_id andb].
  unfold first_claim. cbn [List.find dc_claim_id]. rewrite String.eqb_refl. cbn [dc_criticality informational negb orb andb map].
  split_and!; reflexivity.
Qed.
End facts.

(** ** A concrete run *)

Section demo.
#[local] Existing Instance unit_builtins.
#[local] Existing Instance unit_loads.
#[local] Existing Instance unit_upper.

Definition semantic_context : SemanticContext := mkSemanticContext "run-1" "task-1" 1 zeros [].

Definition export_evidence : EvidenceRecord :=
  mkEvidence "evidence-1" "github" "repo" "repo" "c1" EmptyString "github://repo@c1/export.py" EmptyString "def export_invoices"
    "VALID" EmptyString.

Definition export_fact : VerifiedFact :=
  mkFact "fact-1" "export" "direct_source_support" (JStr "def export_invoices") FS_CURRENT_STATE CODE_VERIFIED VS_SUPPORTED
    ["evidence-1"] ["export"] "direct-token-match" "1".

Definition demo_knowledge : KnowledgeBundle :=
  mkKnowledge "knowledge-bundle.v1" "knowledge-1" "run-1" "task-1" "need-1" EmptyString [export_evidence] [export_fact] [] [] []
    "k1" "p1" "knowledge-builder.v1".

(** The world is the list of recorded artifacts. *)
Definition record_artifact (a : RunArtifact) : M (list RunArtifact) exc unit := fun w => (a :: w, Ok tt).

(** The supplement finds the fact. *)
Definition find_fact (c : Claim) (k : KnowledgeBundle) : M (list RunArtifact) exc (option KnowledgeBundle) := fun w =>
  (w, Ok (Some demo_knowledge)).

Definition claim_answer (operation : string) (payload : list (string * json))
    : M (semantic_state (list RunArtifact)) exc (list (string * json)) :=
  mret [("markdown", JStr "Invoices can be exported.");
        ("claims", JArr [JObj [("claim_type", JStr "CURRENT_STATE"); ("statement", JStr "Export invoices")]])].

Definition semantic_start : semantic_state (list RunArtifact) := mkSemantic (empty_knowledge semantic_context) 0 [].

#[local] Abbreviation demo_evaluate := (evaluate semantic_context 1 record_artifact (Some find_fact)).

Definition semantic_run : semantic_state (list RunArtifact) * result exc UnitRunResult :=
  run_runtime claim_answer demo_evaluate (demo_context "Goals") semantic_start.

Definition semantic_result : UnitRunResult :=
  match semantic_run.2 with Ok r => r | Raise _ => mkRunResult PLAN_OUTLINE OUTLINE_CANDIDATE EmptyString EmptyString [] end.

(** Without the supplement the same answer does not pass. *)
Example unsupported_run_fails :
  match (run_runtime claim_answer (evaluate semantic_context 1 record_artifact None) (demo_context "Goals") semantic_start).2 with
  | Ok r => passed (rr_payload r) = false
  | Raise _ => False
  end.
Proof. vm_compute. reflexivity. Qed.


Definition claim_candidate : UnitCandidate :=
  mkCandidate "u1" "Goals" 1 ["n1"] "# Goals"
    [mkClaim DraftClaim.CURRENT_STATE DraftClaim.INFORMATIONAL "Export invoices" [];
     mkClaim DraftClaim.CURRENT_STATE DraftClaim.BLOCKING "Export invoices" []] [] [] [] "unit-candidate.v1".

Lemma evaluate_returns_witness :
  exists typed b, (demo_evaluate claim_candidate semantic_start).2 = Ok typed /\
    candidate_bundle semantic_context 1 claim_candidate = Ok b /\ length typed = length (db_claims b).
Proof.
  assert (Hc : candidate_of_dict (candidate_json claim_candidate) = Ok claim_candidate) by (vm_compute; reflexivity).
  assert (Hu : encode (decode (uc_markdown claim_candidate)) = uc_markdown claim_candidate) by (vm_compute; reflexivity).
  assert (Hsup : forall ask claim k w, Some find_fact = Some ask -> is_ok (ask claim k w).2 = true) by (intros ask claim k w [= <-]; reflexivity).
  exact (evaluate_returns semantic_context 1 record_artifact (Some find_fact) (candidate_json claim_candidate) claim_candidate
    semantic_start Hc Hu (fun _ _ => eq_refl) Hsup).
Defined.

Lemma repeated_claim_hides_blocking_witness :
  exists b findings, candidate_bundle semantic_context 1 claim_candidate = Ok b /\
    assess_claims b (empty_knowledge semantic_context) 0 1 true = (findings, GROUNDED) /\
    map dc_criticality (db_claims b) = [DraftClaim.INFORMATIONAL; DraftClaim.BLOCKING] /\
    map gf_status findings = [GS_UNSUPPORTED; GS_UNSUPPORTED].
Proof.
  assert (He : evaluable claim_candidate).
  { apply (candidate_of_dict_evaluable (candidate_json claim_candidate)); vm_compute; reflexivity. }
  exact (repeated_claim_hides_blocking semantic_context 1 claim_candidate _ _ (empty_knowledge semantic_context) 0 1 true He
    eq_refl eq_refl eq_refl eq_refl eq_refl eq_refl eq_refl).
Defined.
End demo.
