(* ===== verification/KnowledgeFacts.v ===== *)
(** * Knowledge is grounded, consistent and read back

    A bundle only holds evidence whose excerpt matches its hash and facts that
    cite it; facts that disagree are all marked and reported; the coverage of an
    action is decided by the facts of the bundle; artifacts and drafts read back. *)
From stdpp Require Import base list sets strings pretty.
From Stdlib Require Import ZArith Lia.
From S2P Require Import Prelude.
From S2P Require Import PyDict.
From S2P Require Import PyText.
From S2P Require Import Json.
From S2P Require Import CodePoints.
From S2P Require Import CanonicalJson.
From S2P Require Import Ledger.
From S2P Require Import LedgerInv.
From S2P Require Import LedgerFacts.
From S2P Require Import UnitModels.
From S2P Require Import UnitOutlineFacts.
From S2P Require Import Draft.
From S2P Require Import Knowledge.
From S2P Require Import UnitSemantic.
From S2P Require Import SemanticFacts.
Open Scope string_scope.

(** ** Dictionaries of records under their identifiers *)

Section keyed.
Context {V : Type} (f : V -> string).

Definition keyed (d : dict string V) : Prop := dict_ok d /\ forall k v, d !! k = Some v -> f v = k.

Lemma keyed_empty : keyed ∅.
Proof. split; [apply dict_ok_empty|]. intros k v. by rewrite dict_lookup_empty. Qed.

Lemma keyed_insert d v : keyed d -> keyed (<[f v := v]> d).
Proof.
  intros [Hok Hk]. split; [by apply dict_ok_insert|]. intros k v'. rewrite dict_lookup_insert. case_decide; [by intros [= <-]|auto].
Qed.

Lemma keyed_update l d : keyed d -> keyed (dict_update f l d).
Proof.
  intros [Hok Hk]. split; [by apply dict_ok_update|]. intros k v [[_ ?]|?]%dict_update_lookup; auto.
Qed.

Lemma keyed_by l : keyed (dict_by f l).
Proof. apply (keyed_update l ∅), keyed_empty. Qed.

Lemma keyed_values d v : keyed d -> v ∈ values d <-> d !! f v = Some v.
Proof.
  intros [Hok Hk]. split; [|apply dict_lookup_values]. intros [k Hv]%dict_values_lookup; [|done]. by rewrite (Hk k v Hv).
Qed.

Lemma keyed_NoDup d : keyed d -> NoDup (map f (values d)).
Proof.
  intros [Hok Hk]. enough (map f (values d) = keys d) as -> by done. unfold values, keys. change (map f ((items d).*2)) with (f <$> (items d).*2).
  rewrite <- list_fmap_compose. apply list_fmap_ext. intros i [k v] Hi. apply (Hk k v), assoc_get_elem; [done|].
  by apply list_elem_of_lookup_2 in Hi.
Qed.

(** The values of a dictionary built from distinct records are those records. *)
Lemma keyed_by_values l v : NoDup (map f l) -> v ∈ values (dict_by f l) <-> v ∈ l.
Proof.
  intros Hnd. rewrite keyed_values by apply keyed_by. split; [by intros [? _]%dict_by_lookup|]. by apply dict_by_NoDup.
Qed.
End keyed.

Lemma NoDup_sort_map {A} (leb : A -> A -> bool) (f : A -> string) l : NoDup (map f l) -> NoDup (map f (sort_by leb l)).
Proof. intros Hl. change (NoDup (f <$> sort_by leb l)). by rewrite sort_by_perm. Qed.

Lemma two_in_dedup {A} `{EqDecision A} (l : list A) x y : x ∈ l -> y ∈ l -> x <> y -> 2 <= length (dedup l).
Proof.
  rewrite <- !(dedup_elem l). intros Hx Hy Hne. destruct (dedup l) as [|a [|b r]]; [by apply elem_of_nil in Hx| |simpl; lia].
  apply list_elem_of_singleton in Hx, Hy. congruence.
Qed.

Lemma prior_keyed {A} (id : A -> string) field prior : keyed id (prior_items id field prior).
Proof. destruct prior; [apply keyed_by|apply keyed_empty]. Qed.

Section facts.
Context `{Builtins} `{JsonLoads}.

(** ** Evidence *)

(** What is recorded of evidence that was found valid. *)
Definition genuine (e : EvidenceRecord) : Prop :=
  er_validation_status e = "VALID" /\ er_excerpt_hash e = "sha256:" +:+ sha256_hex (er_excerpt e).

Lemma validate_source_hash item authorities a :
  validate_source item authorities = Ok a -> ce_excerpt_hash item = "sha256:" +:+ sha256_hex (ce_excerpt item).
Proof. unfold validate_source. destruct (String.eqb_spec ("sha256:" +:+ sha256_hex (ce_excerpt item)) (ce_excerpt_hash item)); done. Qed.

Lemma collect_evidence_grows sig authorities its d d' valid invalid :
  collect_evidence sig authorities its d = (d', valid, invalid) ->
  (forall k, is_Some (d !! k) -> is_Some (d' !! k)) /\ (forall k, k ∈ valid -> is_Some (d' !! k)).
Proof.
  revert d d' valid invalid. induction its as [|item its IH]; intros d d' valid invalid; cbn [collect_evidence].
  { intros [= <- <- <-]. split; [done|]. by intros k ?%elem_of_nil. }
  destruct (validate_source _ _) as [a|]; destruct (collect_evidence _ _ its _) as [[d1 v1] i1] eqn:E; intros [= <- <- <-];
    destruct (IH _ _ _ _ E) as [G1 G2]; [|done]. split.
  - intros k Hk. apply G1. by apply dict_insert_is_Some.
  - intros k [->|Hk]%elem_of_cons; [|by apply G2]. apply G1. rewrite dict_lookup_insert_eq. eauto.
Qed.

Lemma collect_evidence_genuine sig authorities its d d' valid invalid :
  collect_evidence sig authorities its d = (d', valid, invalid) -> keyed er_evidence_id d -> (forall k e, d !! k = Some e -> genuine e) ->
  keyed er_evidence_id d' /\ (forall k e, d' !! k = Some e -> genuine e).
Proof.
  revert d d' valid invalid. induction its as [|item its IH]; intros d d' valid invalid; cbn [collect_evidence]; [by intros [= <- <- <-]|].
  destruct (validate_source item authorities) as [a|reason] eqn:Ev.
  - set (record := evidence_record item a sig). destruct (collect_evidence _ _ _ _) as [[d1 v1] i1] eqn:Ec. intros [= <- <- <-] Hd Hg.
    apply (IH _ _ _ _ Ec); [by apply (keyed_insert er_evidence_id d record)|].
    intros k e. rewrite dict_lookup_insert. case_decide; [|apply Hg]. intros [= <-]. split; [done|]. by apply validate_source_hash in Ev.
  - destruct (collect_evidence _ _ _ d) as [[d1 v1] i1] eqn:Ec. intros [= <- <- <-] Hd Hg. by apply (IH _ _ _ _ Ec).
Qed.

Lemma lookups_total {A} (d : dict string A) ids : (forall k, k ∈ ids -> is_Some (d !! k)) -> exists l, lookups d ids = Ok l.
Proof. intros Hall. apply result_map_total. intros k [v Hv]%Hall. rewrite Hv. eauto. Qed.

Lemma lookups_elem {A} (d : dict string A) ids l x : lookups d ids = Ok l -> x ∈ l -> exists k, d !! k = Some x.
Proof.
  unfold lookups. intros E%result_map_Ok Hx. apply Forall2_flip in E. destruct (Forall2_elem_l _ _ _ _ E Hx) as (k & _ & Hk).
  exists k. simpl in Hk. destruct (d !! k); congruence.
Qed.

(** ** Facts *)

Lemma direct_fact_Ok r e f : direct_fact r e = Ok f -> vf_evidence_ids f = [er_evidence_id e] /\ vf_verification_status f = VS_SUPPORTED.
Proof. unfold direct_fact. destruct (pa_target_coverage _); [done|]. by intros [= <-]. Qed.

Lemma parser_fact_Some r e f : parser_fact r e = Some f -> vf_evidence_ids f = [er_evidence_id e] /\ vf_verification_status f = VS_SUPPORTED.
Proof.
  unfold parser_fact. destruct (json_loads _) as [[| | | | | |raw]|]; try done. destruct (negb _); [done|].
  destruct (read_scope _); [|done]. by intros [= <-].
Qed.

Lemma extract_facts_cite r evidence l f :
  extract_facts r evidence = Ok l -> f ∈ l -> exists e, e ∈ evidence /\ vf_evidence_ids f = [er_evidence_id e].
Proof.
  unfold extract_facts. case_bool_decide; intros E Hf.
  - injection E as <-. apply list_elem_of_omap in Hf as (e & He & Hp). exists e. by apply parser_fact_Some in Hp as [? _].
  - apply result_map_Ok in E. apply Forall2_flip in E. destruct (Forall2_elem_l _ _ _ _ E Hf) as (e & He & Hd). exists e.
    apply direct_fact_Ok in Hd as [? _]. split; [|done]. unfold directly_supported in He. destruct (long_tokens _); [by apply elem_of_nil in He|].
    by apply elem_of_filter_b in He as [? _].
Qed.

Lemma extract_facts_total r evidence : pa_target_coverage (br_action r) <> [] -> exists l, extract_facts r evidence = Ok l.
Proof.
  intros Ht. unfold extract_facts. case_bool_decide; [eauto|]. apply result_map_total. intros e _. unfold direct_fact.
  destruct (pa_target_coverage _); [done|eauto].
Qed.

(** ** Conflicts *)

(** Two facts of a parser about the same thing with different values. *)
Definition disagreeing (f g : VerifiedFact) : Prop :=
  parsed f = true /\ parsed g = true /\ fact_key f = fact_key g /\ sha256_json (vf_value f) <> sha256_json (vf_value g).

Lemma disagreeing_group facts f g :
  f ∈ facts -> g ∈ facts -> disagreeing f g ->
  exists group, group ∈ List.filter disagree (fact_groups facts) /\ f ∈ group /\ g ∈ group.
Proof.
  intros Hf Hg (Pf & Pg & Hk & Hv). set (candidates := List.filter parsed facts).
  set (group := List.filter (fun h => bool_decide (fact_key h = fact_key f)) candidates).
  assert (Cf : f ∈ candidates) by (by apply elem_of_filter_b). assert (Cg : g ∈ candidates) by (by apply elem_of_filter_b).
  assert (Gf : f ∈ group) by (apply elem_of_filter_b; split; [done|by apply bool_decide_eq_true]).
  assert (Gg : g ∈ group) by (apply elem_of_filter_b; split; [done|by apply bool_decide_eq_true]).
  exists group. split_and!; try done. apply elem_of_filter_b. split.
  - unfold fact_groups. apply list_elem_of_fmap. exists (fact_key f). split; [done|]. apply dedup_elem. by apply list_elem_of_fmap_2.
  - unfold disagree. apply Nat.leb_le. apply (two_in_dedup _ (sha256_json (vf_value f)) (sha256_json (vf_value g))); [| |done].
    + by apply (list_elem_of_fmap_2 (fun h => sha256_json (vf_value h))).
    + by apply (list_elem_of_fmap_2 (fun h => sha256_json (vf_value h))).
Qed.

Lemma group_member facts group f : group ∈ fact_groups facts -> f ∈ group -> f ∈ facts.
Proof.
  unfold fact_groups. intros (k & -> & _)%list_elem_of_fmap. by intros [[? _]%elem_of_filter_b _]%elem_of_filter_b.
Qed.

Definition mark (conflicting : list string) (f : VerifiedFact) : VerifiedFact :=
  if bool_decide (vf_fact_id f ∈ conflicting) then with_verification VS_CONFLICTING f else f.

Lemma mark_same ids f :
  vf_fact_id (mark ids f) = vf_fact_id f /\ fact_key (mark ids f) = fact_key f /\ parsed (mark ids f) = parsed f /\
  vf_value (mark ids f) = vf_value f /\ vf_evidence_ids (mark ids f) = vf_evidence_ids f.
Proof. unfold mark. by case_bool_decide. Qed.

Lemma mark_ids ids l : map vf_fact_id (map (mark ids) l) = map vf_fact_id l.
Proof. rewrite map_map. apply map_ext. intros f. by destruct (mark_same ids f). Qed.

Lemma mark_listed ids f : vf_fact_id f ∈ ids -> vf_verification_status (mark ids f) = VS_CONFLICTING.
Proof. intros Hin. unfold mark. by rewrite bool_decide_true. Qed.

(** Every pair that disagrees is marked and named by an open conflict; every
    conflict names facts that are marked. *)
Lemma detect_conflicts_spec facts detected conflicts :
  detect_conflicts facts = (detected, conflicts) ->
  map vf_fact_id detected = map vf_fact_id facts /\
  (forall f, f ∈ detected -> exists f0, f0 ∈ facts /\ vf_evidence_ids f = vf_evidence_ids f0) /\
  (forall f g, f ∈ detected -> g ∈ detected -> disagreeing f g ->
    vf_verification_status f = VS_CONFLICTING /\
    exists c, c ∈ conflicts /\ cn_status c = "OPEN" /\ vf_fact_id f ∈ cn_fact_ids c /\ vf_fact_id g ∈ cn_fact_ids c) /\
  (forall c id, c ∈ conflicts -> id ∈ cn_fact_ids c ->
    exists f, f ∈ detected /\ vf_fact_id f = id /\ vf_verification_status f = VS_CONFLICTING).
Proof.
  unfold detect_conflicts. set (groups := List.filter disagree (fact_groups facts)).
  set (ids := concat (map (map vf_fact_id) groups)). intros [= <- <-].
  change (fun f => if bool_decide (vf_fact_id f ∈ ids) then with_verification VS_CONFLICTING f else f) with (mark ids).
  assert (Hids : forall group f, group ∈ groups -> f ∈ group -> vf_fact_id f ∈ ids).
  { intros group f Hg Hf. apply list_elem_of_In, in_concat. exists (map vf_fact_id group).
    split; [by apply in_map, list_elem_of_In|by apply in_map, list_elem_of_In]. }
  split_and!.
  - apply mark_ids.
  - intros f (f0 & -> & Hf0)%list_elem_of_fmap. exists f0. split; [done|]. by destruct (mark_same ids f0) as (_ & _ & _ & _ & ?).
  - intros f g (f0 & -> & Hf)%list_elem_of_fmap (g0 & -> & Hg)%list_elem_of_fmap.
    destruct (mark_same ids f0) as (F1 & F2 & F3 & F4 & _), (mark_same ids g0) as (G1 & G2 & G3 & G4 & _).
    unfold disagreeing. rewrite F1, F2, F3, F4, G1, G2, G3, G4. intros Hd.
    destruct (disagreeing_group facts f0 g0 Hf Hg Hd) as (group & Hgr & Gf & Gg). split; [by eapply mark_listed, Hids|].
    exists (group_conflict group). split; [by apply list_elem_of_fmap_2|]. split; [done|]. cbn [cn_fact_ids group_conflict]. unfold sorted_ids.
    rewrite !elem_of_sort_by. split; by apply list_elem_of_fmap_2.
  - intros c id (group & -> & Hgr)%list_elem_of_fmap. cbn [cn_fact_ids group_conflict]. unfold sorted_ids. rewrite elem_of_sort_by.
    intros (f & -> & Hf)%list_elem_of_fmap. exists (mark ids f). split; [|split; [by destruct (mark_same ids f)|by eapply mark_listed, Hids]].
    apply list_elem_of_fmap_2. apply elem_of_filter_b in Hgr as [Hgr _]. by eapply group_member.
Qed.

(** ** Coverage *)

(** A key is disputed when a conflict names a fact that covers it. *)
Definition disputed (facts : list VerifiedFact) (conflicts : list SourceConflict) (key : string) : Prop :=
  exists c f, c ∈ conflicts /\ f ∈ facts /\ vf_fact_id f ∈ cn_fact_ids c /\ key ∈ vf_coverage_keys f.

Definition supported (facts : list VerifiedFact) (key : string) : Prop :=
  exists f, f ∈ facts /\ vf_verification_status f = VS_SUPPORTED /\ key ∈ vf_coverage_keys f.

(** The coverage of a key after an action, from its coverage before. *)
Definition decided (disputed supported : Prop) (before after : string) : Prop :=
  (disputed -> after = "CONFLICTING") /\ (~ disputed -> supported -> after = "COVERED") /\ (~ disputed -> ~ supported -> after = before).

Lemma decided_again D P a b c : decided D P a b -> decided D P b c -> decided D P a c.
Proof. unfold decided. intros (A1 & A2 & A3) (B1 & B2 & B3). split_and!; [auto|auto|]. intros HD HP. rewrite B3 by done. auto. Qed.

Section coverage.
Context (r : KnowledgeBuildRequest) (sig : string) (a : assessment).
Context (Hkeyed : keyed vf_fact_id (as_facts a)).
Context (Hnamed : forall c id, c ∈ as_conflicts a -> id ∈ cn_fact_ids c -> is_Some (as_facts a !! id)).
#[local] Abbreviation facts := (values (as_facts a)).

Lemma any_covers_spec key ids :
  (forall id, id ∈ ids -> is_Some (as_facts a !! id)) ->
  exists b, any_covers (as_facts a) key ids = Ok b /\
    (b = true <-> exists f, f ∈ facts /\ vf_fact_id f ∈ ids /\ key ∈ vf_coverage_keys f).
Proof.
  induction ids as [|id ids IH]; intros Hall; simpl.
  { exists false. split; [done|]. split; [done|]. by intros (f & _ & ?%elem_of_nil & _). }
  destruct (Hall id) as [f Hf]; [left|]. rewrite Hf. assert (Hid : vf_fact_id f = id) by (by apply (proj2 Hkeyed)).
  case_bool_decide as Hk.
  - exists true. split; [done|]. split; [intros _|done]. exists f. split; [by apply dict_lookup_values in Hf|]. split; [rewrite Hid; left|done].
  - destruct IH as (b & Hb & Hiff); [intros k Hin; apply Hall; by right|]. exists b. split; [done|]. rewrite Hiff. split.
    + intros (g & Hg & Hin & Hkg). exists g. split_and!; [done|by right|done].
    + intros (g & Hg & [E|Hin]%elem_of_cons & Hkg); [|by exists g]. exfalso. apply Hk.
      apply (keyed_values vf_fact_id) in Hg; [|done]. rewrite E, Hf in Hg. by injection Hg as ->.
Qed.

Lemma conflicts_on_spec key cs :
  (forall c, c ∈ cs -> c ∈ as_conflicts a) ->
  exists l, conflicts_on (as_facts a) key cs = Ok l /\ (l <> [] <-> disputed facts cs key).
Proof.
  induction cs as [|c cs IH]; intros Hsub; cbn [conflicts_on].
  { exists []. split; [done|]. split; [done|]. by intros (c & f & ?%elem_of_nil & _). }
  destruct (any_covers_spec key (cn_fact_ids c)) as (b & Hb & Hiff); [intros id; apply Hnamed, Hsub; left|].
  destruct IH as (l & Hl & Hd); [intros c' Hc'; apply Hsub; by right|]. rewrite Hb, Hl. cbn [mbind result_mbind result_bind].
  exists (if b then c :: l else l). split; [done|]. destruct b.
  - split; [intros _|done]. destruct (proj1 Hiff eq_refl) as (f & Hf & Hin & Hk). exists c, f. split_and!; try done. left.
  - rewrite Hd. split; [intros (c' & f & Hc & Hrest); exists c', f; split; [by right|done]|].
    intros (c' & f & [->|Hc]%elem_of_cons & Hf & Hin & Hk); [|by exists c', f]. enough (false = true) by done. apply Hiff. by exists f.
Qed.

Lemma supported_ids_spec key : supported_ids (as_facts a) key <> [] <-> supported facts key.
Proof.
  unfold supported_ids, supported. set (l := List.filter _ _). assert (El : sorted_ids (map vf_fact_id l) <> [] <-> l <> []).
  { split; intros Hne E; apply Hne; [by rewrite E|]. unfold sorted_ids in E. pose proof (sort_by_perm String.leb (map vf_fact_id l)) as Hp.
    rewrite E in Hp. apply Permutation_nil in Hp. by apply map_eq_nil in Hp. }
  rewrite El. split.
  - destruct l as [|f l'] eqn:E; [done|]. intros _. assert (Hf : f ∈ l) by (rewrite E; left).
    apply elem_of_filter_b in Hf as [Hf [Hs Hk]%andb_true_iff]. unfold is_supported in Hs. apply bool_decide_eq_true in Hs, Hk. by exists f.
  - intros (f & Hf & Hs & Hk) E. assert (Hin : f ∈ l); [|rewrite E in Hin; by apply elem_of_nil in Hin].
    apply elem_of_filter_b. split; [done|]. unfold is_supported. by rewrite !bool_decide_true.
Qed.

Lemma nonempty_sorted_ids {A} (f : A -> string) (l : list A) : is_empty (sorted_ids (map f l)) = is_empty l.
Proof.
  destruct l as [|x l]; [done|]. cbn [is_empty]. destruct (sorted_ids _) eqn:E; [|done]. unfold sorted_ids in E.
  pose proof (sort_by_perm String.leb (map f (x :: l))) as Hp. rewrite E in Hp. by apply Permutation_nil in Hp.
Qed.

Lemma cover_key_spec key coverage unknowns :
  exists after unknowns' u, cover_key r sig a key coverage unknowns = Ok (<[key := after]> coverage, unknowns', u) /\
  decided (disputed facts (as_conflicts a) key) (supported facts key) (get_default coverage key "MISSING") after.
Proof.
  unfold cover_key. destruct (conflicts_on_spec key (as_conflicts a)) as (l & -> & Hd); [done|]. cbn [mbind result_mbind result_bind].
  rewrite nonempty_sorted_ids. unfold decided. setoid_rewrite <- (supported_ids_spec key). setoid_rewrite <- Hd. destruct l as [|c l]; cbn [is_empty negb].
  - destruct (supported_ids (as_facts a) key) eqn:E; cbn [is_empty negb]; eexists _, _, _; (split; [reflexivity|]);
      split_and!; try done; intros; try done; exfalso; auto.
  - eexists _, _, _. split; [reflexivity|]. split_and!; try done; intros Hn; by destruct Hn.
Qed.

Lemma cover_keys_spec keys coverage unknowns :
  exists coverage' unknowns' us, cover_keys r sig a keys coverage unknowns = Ok (coverage', unknowns', us) /\
  (forall key, key ∈ keys -> exists after, coverage' !! key = Some after /\
    decided (disputed facts (as_conflicts a) key) (supported facts key) (get_default coverage key "MISSING") after) /\
  (forall key, key ∉ keys -> coverage' !! key = coverage !! key).
Proof.
  revert coverage unknowns. induction keys as [|k keys IH]; intros coverage unknowns; cbn [cover_keys].
  { exists coverage, unknowns, []. split_and!; try done. by intros ? ?%elem_of_nil. }
  destruct (cover_key_spec k coverage unknowns) as (after & unknowns1 & u & -> & Hk). cbn [mbind result_mbind result_bind].
  destruct (IH (<[k := after]> coverage) unknowns1) as (cov & unk & us & -> & Hin & Hout). cbn [mbind result_mbind result_bind].
  exists cov, unk, (u :: us). split; [done|]. split.
  - intros key Hkey. destruct (decide (key ∈ keys)) as [Hi|Hi].
    + destruct (Hin key Hi) as (after' & Ha & Hd). exists after'. split; [done|]. unfold get_default in Hd. rewrite dict_lookup_insert in Hd.
      case_decide as E; [|exact Hd]. subst key. simpl in Hd. by eapply decided_again.
    + apply elem_of_cons in Hkey as [->|?]; [|done]. exists after. rewrite Hout by done. by rewrite dict_lookup_insert_eq.
  - intros key Hkey. rewrite Hout by (intros Hi; apply Hkey; by right). apply dict_lookup_insert_ne. intros ->. apply Hkey. left.
Qed.
End coverage.

(** ** The bundle of a build *)

(** What holds of every bundle. *)
Record knowledge_ok (b : KnowledgeBundle) : Prop := {
  ko_evidence_ids : NoDup (map er_evidence_id (kb_evidence b));
  ko_fact_ids : NoDup (map vf_fact_id (kb_facts b));
  ko_genuine : forall e, e ∈ kb_evidence b -> genuine e;
  ko_cited : forall f, f ∈ kb_facts b -> vf_evidence_ids f <> [] /\
    forall id, id ∈ vf_evidence_ids f -> exists e, e ∈ kb_evidence b /\ er_evidence_id e = id;
  ko_disagreement : forall f g, f ∈ kb_facts b -> g ∈ kb_facts b -> disagreeing f g ->
    vf_verification_status f = VS_CONFLICTING /\
    exists c, c ∈ kb_conflicts b /\ cn_status c = "OPEN" /\ vf_fact_id f ∈ cn_fact_ids c /\ vf_fact_id g ∈ cn_fact_ids c;
  ko_conflicts : forall c id, c ∈ kb_conflicts b -> id ∈ cn_fact_ids c ->
    exists f, f ∈ kb_facts b /\ vf_fact_id f = id /\ vf_verification_status f = VS_CONFLICTING
}.

(** The stages of a build. *)
Lemma build_knowledge_Ok r res :
  build_knowledge r = Ok res ->
  exists evidence valid reasons records extracted detected conflicts unknowns us,
    collect_evidence (action_signature (br_action r)) (br_source_authorities r) (br_evidence_items r)
      (prior_items er_evidence_id kb_evidence (br_prior_bundle r)) = (evidence, valid, reasons) /\
    lookups evidence valid = Ok records /\ extract_facts r records = Ok extracted /\
    detect_conflicts (values (dict_update vf_fact_id extracted (prior_items vf_fact_id kb_facts (br_prior_bundle r)))) = (detected, conflicts) /\
    cover_keys r (action_signature (br_action r)) (mkAssessment (dict_by vf_fact_id detected) conflicts valid reasons)
      (pa_target_coverage (br_action r)) (br_coverage r) (prior_items ku_unknown_id kb_unknowns (br_prior_bundle r))
      = Ok (bs_coverage res, unknowns, us) /\
    kb_evidence (bs_bundle res) = sort_by (by_id er_evidence_id) (values evidence) /\
    kb_facts (bs_bundle res) = sort_by (by_id vf_fact_id) (values (dict_by vf_fact_id detected)) /\
    kb_conflicts (bs_bundle res) = sort_by (by_id cn_conflict_id) conflicts.
Proof.
  unfold build_knowledge. cbv zeta. destruct (collect_evidence _ _ _ _) as [[evidence valid] reasons] eqn:Ec. intros E.
  apply result_mbind_Ok in E as (records & Hl & E). apply result_mbind_Ok in E as (extracted & Hx & E).
  destruct (detect_conflicts _) as [detected conflicts] eqn:Ed. apply result_mbind_Ok in E as ([[cov unk] us] & Hc & E). injection E as <-.
  exists evidence, valid, reasons, records, extracted, detected, conflicts, unk, us. by split_and!.
Qed.

(** Facts and conflicts of a build, for a dictionary of facts under their
    identifiers. *)
Lemma detected_facts gathered detected conflicts :
  keyed vf_fact_id gathered -> detect_conflicts (values gathered) = (detected, conflicts) ->
  NoDup (map vf_fact_id detected) /\ (forall f, f ∈ values (dict_by vf_fact_id detected) <-> f ∈ detected) /\
  (forall c id, c ∈ conflicts -> id ∈ cn_fact_ids c -> is_Some (dict_by vf_fact_id detected !! id)).
Proof.
  intros Hk E. destruct (detect_conflicts_spec _ _ _ E) as (Hids & _ & _ & Hc).
  assert (Hnd : NoDup (map vf_fact_id detected)) by (rewrite Hids; by apply keyed_NoDup).
  split_and!; [done|intros f; by apply keyed_by_values|]. intros c id Hcs Hid. destruct (Hc c id Hcs Hid) as (f & Hf & <- & _).
  rewrite dict_by_NoDup by done. eauto.
Qed.

Lemma build_knowledge_total r : pa_target_coverage (br_action r) <> [] -> exists res, build_knowledge r = Ok res.
Proof.
  intros Ht. unfold build_knowledge. cbv zeta. destruct (collect_evidence _ _ _ _) as [[evidence valid] reasons] eqn:Ec.
  destruct (collect_evidence_grows _ _ _ _ _ _ _ Ec) as [_ Hv].
  destruct (lookups_total evidence valid Hv) as [records ->]. cbn [mbind result_mbind result_bind].
  destruct (extract_facts_total r records Ht) as [extracted ->]. cbn [mbind result_mbind result_bind].
  destruct (detect_conflicts _) as [detected conflicts] eqn:Ed. apply detected_facts in Ed as (_ & _ & Hn); [|apply keyed_update, prior_keyed].
  destruct (cover_keys_spec r (action_signature (br_action r)) (mkAssessment (dict_by vf_fact_id detected) conflicts valid reasons))
    with (keys := pa_target_coverage (br_action r)) (coverage := br_coverage r) (unknowns := prior_items ku_unknown_id kb_unknowns (br_prior_bundle r))
    as (cov & unk & us & -> & _); [apply keyed_by|done|]. cbn [mbind result_mbind result_bind]. eauto.
Qed.

Lemma build_keeps_ok r res :
  (forall b, br_prior_bundle r = Some b -> knowledge_ok b) -> build_knowledge r = Ok res -> knowledge_ok (bs_bundle res).
Proof.
  intros Hprior Hres.
  apply build_knowledge_Ok in Hres as (evidence & valid & reasons & records & extracted & detected & conflicts & unk & us & Ec & El & Ex & Ed & _ & Ke & Kf & Kc).
  destruct (collect_evidence_grows _ _ _ _ _ _ _ Ec) as [K3 _].
  destruct (collect_evidence_genuine _ _ _ _ _ _ _ Ec) as (K1 & K2); [apply prior_keyed| |].
  { destruct (br_prior_bundle r) as [b|]; cbn [prior_items]; [|intros k e; by rewrite dict_lookup_empty]. intros k e [He _]%dict_by_lookup.
    by apply (ko_genuine b (Hprior b eq_refl)). }
  assert (Hgk : keyed vf_fact_id (dict_update vf_fact_id extracted (prior_items vf_fact_id kb_facts (br_prior_bundle r))))
    by apply keyed_update, prior_keyed.
  destruct (detected_facts _ _ _ Hgk Ed) as (Hnd & Hval & _). destruct (detect_conflicts_spec _ _ _ Ed) as (_ & Hev & Hdis & Hcon).
  assert (Hid : forall id, is_Some (evidence !! id) -> exists e, e ∈ kb_evidence (bs_bundle res) /\ er_evidence_id e = id).
  { intros id [e He]. exists e. rewrite Ke, elem_of_sort_by. split; [by apply dict_lookup_values in He|by apply (proj2 K1)]. }
  constructor.
  - rewrite Ke. by apply NoDup_sort_map, keyed_NoDup.
  - rewrite Kf. apply NoDup_sort_map, keyed_NoDup, keyed_by.
  - intros e. rewrite Ke, elem_of_sort_by. intros He%(keyed_values er_evidence_id); [|done]. by eapply K2.
  - intros f. rewrite Kf, elem_of_sort_by, Hval. intros (f0 & Hf0 & ->)%Hev. apply (keyed_values vf_fact_id) in Hf0; [|done].
    apply dict_update_lookup in Hf0 as [[Hx _]|Hp].
    + destruct (extract_facts_cite _ _ _ _ Ex Hx) as (e & He & ->). split; [done|]. intros id ->%list_elem_of_singleton. apply Hid.
      destruct (lookups_elem _ _ _ _ El He) as [k Hk]. rewrite (proj2 K1 k e Hk). eauto.
    + destruct (br_prior_bundle r) as [b|]; cbn [prior_items] in Hp; [|by rewrite dict_lookup_empty in Hp]. apply dict_by_lookup in Hp as [Hp _].
      destruct (ko_cited b (Hprior b eq_refl) f0 Hp) as [Hne Hc]. split; [done|]. intros id (e & He & <-)%Hc. apply Hid, K3.
      apply dict_by_is_Some. by exists e.
  - intros f g. rewrite Kf, Kc, !elem_of_sort_by, !Hval. intros Hf Hg Hd. destruct (Hdis f g Hf Hg Hd) as [Hs (c & Hc & Hr)].
    split; [done|]. exists c. by rewrite elem_of_sort_by.
  - intros c id. rewrite Kc, elem_of_sort_by. intros Hc Hi. destruct (Hcon c id Hc Hi) as (f & Hf & Hr). exists f.
    by rewrite Kf, elem_of_sort_by, Hval.
Qed.


(** C22: coverage is decided by the facts.  After a build, every target of the
    action is CONFLICTING exactly when an open conflict of the new bundle names a
    fact that covers it, otherwise COVERED when a SUPPORTED fact of the bundle
    covers it, and otherwise what it was before (MISSING when it was not listed);
    no other key changes. *)
Theorem coverage_exact (r : KnowledgeBuildRequest) (res : KnowledgeBuildResult) :
  build_knowledge r = Ok res ->
  (forall key, key ∈ pa_target_coverage (br_action r) -> exists after, bs_coverage res !! key = Some after /\
    decided (disputed (kb_facts (bs_bundle res)) (kb_conflicts (bs_bundle res)) key) (supported (kb_facts (bs_bundle res)) key)
      (get_default (br_coverage r) key "MISSING") after) /\
  (forall key, key ∉ pa_target_coverage (br_action r) -> bs_coverage res !! key = br_coverage r !! key).
Proof.
  intros (evidence & valid & reasons & records & extracted & detected & conflicts & unk & us & _ & _ & _ & Ed & Ecov & _ & Kf & Kc)%build_knowledge_Ok.
  apply detected_facts in Ed as (_ & _ & Hn); [|apply keyed_update, prior_keyed].
  destruct (cover_keys_spec r (action_signature (br_action r)) (mkAssessment (dict_by vf_fact_id detected) conflicts valid reasons))
    with (keys := pa_target_coverage (br_action r)) (coverage := br_coverage r) (unknowns := prior_items ku_unknown_id kb_unknowns (br_prior_bundle r))
    as (cov & unk' & us' & E & Hin & Hout); [apply keyed_by|done|]. rewrite Ecov in E. injection E as <- <- <-. split; [|done].
  intros key Hkey. destruct (Hin key Hkey) as (after & Ha & Hd). exists after. split; [done|]. rewrite Kf, Kc. revert Hd. cbn [as_facts as_conflicts].
  unfold decided, disputed, supported. setoid_rewrite elem_of_sort_by. done.
Qed.

(** ** Reading back *)

(** *** Drafts *)

Lemma object_list_objs {A} (f : A -> json) (g : A -> list (string * json)) l :
  (forall x, f x = JObj (g x)) -> object_list (Some (JArr (map f l))) = Ok (map g l).
Proof. intros Hf. apply result_map_map. induction l as [|x l IH]; constructor; [by rewrite Hf|done]. Qed.

Lemma result_map_id {A B} (g : A -> B) (read : B -> result exc A) l : (forall x, read (g x) = Ok x) -> result_map read (map g l) = Ok l.
Proof. intros Hr. apply result_map_map. induction l as [|x l IH]; by constructor. Qed.

Definition members (j : json) : list (string * json) := match j with JObj m => m | _ => [] end.

Lemma text_items_strs key m l : jget key m = Some (strs l) -> text_items key m = Ok l.
Proof. intros E. unfold text_items. rewrite E. cbn [py_iter strs mbind result_mbind result_bind]. by rewrite texts_of_strs. Qed.

Lemma draft_unit_reads u : draft_unit_of_dict (members (draft_unit_json u)) = Ok u.
Proof.
  unfold draft_unit_of_dict. rewrite (text_items_strs "depends_on" _ (dn_depends_on u)) by reflexivity. by destruct u.
Qed.

Lemma draft_claim_reads c : draft_claim_of_dict (members (draft_claim_json c)) = Ok c.
Proof.
  unfold draft_claim_of_dict. rewrite (text_items_strs "evidence_refs" _ (dc_evidence_refs c)),
    (text_items_strs "requirement_refs" _ (dc_requirement_refs c)), (text_items_strs "trace_to_claim_ids" _ (dc_trace_to_claim_ids c)) by reflexivity.
  change (str_at "claim_type" (members (draft_claim_json c))) with (@Ok exc string (DraftClaim.type_value (dc_claim_type c))).
  change (str_at "criticality" (members (draft_claim_json c))) with (@Ok exc string (DraftClaim.criticality_value (dc_criticality c))).
  cbn [mbind result_mbind result_bind]. rewrite read_type_value, read_criticality_value. by destruct c.
Qed.

Lemma draft_unknown_reads u : draft_unknown_of_dict (members (draft_unknown_json u)) = Ok u.
Proof.
  unfold draft_unknown_of_dict. rewrite (text_items_strs "related_claim_ids" _ (du_related_claim_ids u)) by reflexivity.
  destruct u as [? ? ? ? ? [input|]]; reflexivity.
Qed.

(** A draft bundle is read back from the mapping it is written as. *)
Lemma draft_bundle_roundtrip b : bundle_of_dict (bundle_json b) = Ok b.
Proof.
  unfold bundle_of_dict.
  change (jget "units" (bundle_json b)) with (Some (JArr (map draft_unit_json (db_units b)))).
  change (jget "claims" (bundle_json b)) with (Some (JArr (map draft_claim_json (db_claims b)))).
  change (jget "unknowns" (bundle_json b)) with (Some (JArr (map draft_unknown_json (db_unknowns b)))).
  rewrite (object_list_objs draft_unit_json (fun u => members (draft_unit_json u))) by done. cbn [mbind result_mbind result_bind].
  rewrite (result_map_id _ _ _ draft_unit_reads). cbn [mbind result_mbind result_bind].
  rewrite (object_list_objs draft_claim_json (fun c => members (draft_claim_json c))) by done. cbn [mbind result_mbind result_bind].
  rewrite (result_map_id _ _ _ draft_claim_reads). cbn [mbind result_mbind result_bind].
  rewrite (object_list_objs draft_unknown_json (fun u => members (draft_unknown_json u))) by done. cbn [mbind result_mbind result_bind].
  rewrite (result_map_id _ _ _ draft_unknown_reads). by destruct b.
Qed.

(** *** Knowledge artifacts *)

(** The members of an object in canonical form. *)
Definition canon_members (m : list (string * json)) : list (string * json) := sort_by key_leb (map (fun kv => (kv.1, canon kv.2)) m).

Lemma jget_canon_members key m : NoDup m.*1 -> jget key (canon_members m) = canon <$> jget key m.
Proof.
  intros Hnd. unfold canon_members, jget.
  assert (Hkeys : (map (fun kv => (kv.1, canon kv.2)) m).*1 = m.*1) by (rewrite <- list_fmap_compose; by apply list_fmap_ext).
  assert (Hs : (sort_by key_leb (map (fun kv : string * json => (kv.1, canon kv.2)) m)).*1 ≡ₚ m.*1) by (rewrite sort_by_perm; by rewrite Hkeys).
  destruct (assoc_get key m) as [v|] eqn:E; simpl.
  - apply assoc_get_elem; [by rewrite Hs|]. apply elem_of_sort_by. apply assoc_get_Some_elem in E.
    by apply (list_elem_of_fmap_2 (fun kv : string * json => (kv.1, canon kv.2))) in E.
  - destruct (assoc_get key (sort_by _ _)) as [v|] eqn:E'; [|done]. exfalso. apply assoc_get_Some_elem in E'.
    apply elem_of_sort_by, list_elem_of_fmap in E' as ([k' v'] & [= -> ->] & Hin). by rewrite (assoc_get_elem m k' v' Hnd Hin) in E.
Qed.

(** The keys of an object of the model are literals. *)
Ltac literal_keys := refine (bool_decide_unpack _ _); vm_compute; exact I.

Lemma item_at_canon key m v : NoDup m.*1 -> jget key m = Some v -> item_at key (canon_members m) = Ok (canon v).
Proof. intros Hnd E. unfold item_at. by rewrite jget_canon_members, E. Qed.

Lemma str_at_canon key m s : NoDup m.*1 -> jget key m = Some (JStr s) -> str_at key (canon_members m) = Ok s.
Proof. intros Hnd E. unfold str_at. by rewrite (item_at_canon key m (JStr s)). Qed.

Lemma canon_strs l : canon (strs l) = strs l.
Proof. unfold strs. cbn [canon]. f_equal. rewrite map_map. by apply map_ext. Qed.

Lemma texts_at_canon key m l : NoDup m.*1 -> jget key m = Some (strs l) -> texts_at key (canon_members m) = Ok l.
Proof.
  intros Hnd E. unfold texts_at. rewrite (item_at_canon key m (strs l)) by done. cbn [mbind result_mbind result_bind].
  rewrite canon_strs. cbn [py_iter strs mbind result_mbind result_bind]. by rewrite texts_of_strs.
Qed.

Lemma text_field_canon key m s : NoDup m.*1 -> jget key m = Some (JStr s) -> text_field key (canon_members m) = Ok s.
Proof. intros Hnd E. unfold text_field. by rewrite jget_canon_members, E. Qed.

(** Reading one field after the other. *)
Ltac read_fields :=
  repeat (first [erewrite str_at_canon by (literal_keys || reflexivity) | erewrite texts_at_canon by (literal_keys || reflexivity)
                | erewrite text_field_canon by (literal_keys || reflexivity) | erewrite item_at_canon by (literal_keys || reflexivity)];
          cbn [mbind result_mbind result_bind]).

Definition canon_fact (f : VerifiedFact) : VerifiedFact :=
  mkFact (vf_fact_id f) (vf_subject f) (vf_predicate f) (canon (vf_value f)) (vf_fact_scope f) (vf_fact_type f) (vf_verification_status f)
    (vf_evidence_ids f) (vf_coverage_keys f) (vf_extractor_id f) (vf_extractor_version f).

(** The bundle with the values of its facts in canonical form: the same
    mappings, with their keys in order. *)
Definition canon_knowledge (b : KnowledgeBundle) : KnowledgeBundle :=
  mkKnowledge (kb_schema_version b) (kb_bundle_id b) (kb_run_id b) (kb_task_id b) (kb_need_plan_id b) (kb_need_context_hash b)
    (kb_evidence b) (map canon_fact (kb_facts b)) (kb_unknowns b) (kb_conflicts b) (kb_coverage_updates b) (kb_knowledge_fingerprint b)
    (kb_progress_fingerprint b) (kb_builder_version b).

Lemma unknown_reads u : unknown_of_dict (canon_members (members (unknown_json u))) = Ok u.
Proof. unfold unknown_of_dict. read_fields. by destruct u. Qed.

Lemma conflict_reads c : conflict_of_dict (canon_members (members (conflict_json c))) = Ok c.
Proof. unfold conflict_of_dict. read_fields. by destruct c. Qed.

Lemma update_reads u : update_of_dict (canon_members (members (update_json u))) = Ok u.
Proof. unfold update_of_dict. read_fields. by destruct u. Qed.

Lemma fact_reads f : fact_of_dict (canon_members (members (fact_json f))) = Ok (canon_fact f).
Proof.
  unfold fact_of_dict. read_fields. assert (E1 : read_scope (scope_value (vf_fact_scope f)) = Ok (vf_fact_scope f)) by (by destruct (vf_fact_scope f)).
  rewrite E1. cbn [mbind result_mbind result_bind]. read_fields.
  assert (E2 : read_fact_type (fact_type_value (vf_fact_type f)) = Ok (vf_fact_type f)) by (by destruct (vf_fact_type f)).
  rewrite E2. cbn [mbind result_mbind result_bind]. read_fields.
  assert (E3 : read_verification (verification_value (vf_verification_status f)) = Ok (vf_verification_status f)) by (by destruct (vf_verification_status f)).
  rewrite E3. cbn [mbind result_mbind result_bind]. read_fields. done.
Qed.

Lemma evidence_reads e : evidence_of_dict (canon_members (members (evidence_json e))) = Ok e.
Proof.
  unfold evidence_of_dict.
  assert (Ek : (canon_members (members (evidence_json e))).*1 ≡ₚ evidence_keys).
  { unfold canon_members. rewrite sort_by_perm. reflexivity. }
  assert (E1 : forallb (fun k => bool_decide (k ∈ evidence_keys)) (canon_members (members (evidence_json e))).*1 = true).
  { rewrite forallb_forall. intros k Hk. apply bool_decide_eq_true. apply list_elem_of_In in Hk. by rewrite Ek in Hk. }
  assert (E2 : forallb (fun k => bool_decide (k ∈ (canon_members (members (evidence_json e))).*1)) evidence_keys = true).
  { rewrite forallb_forall. intros k Hk. apply bool_decide_eq_true. apply list_elem_of_In in Hk. by rewrite Ek. }
  rewrite E1, E2. cbn [andb mbind result_mbind result_bind]. read_fields. by destruct e.
Qed.

Lemma objects_canon {A B} (json_of : A -> json) (g : A -> B) read key m l :
  NoDup m.*1 -> jget key m = Some (JArr (map json_of l)) -> (forall x, json_of x = JObj (members (json_of x))) ->
  (forall x, read (canon_members (members (json_of x))) = Ok (g x)) -> objects read key (canon_members m) = Ok (map g l).
Proof.
  intros Hnd E Hobj Hread. unfold objects. rewrite jget_canon_members, E by done.
  assert (Ec : canon <$> Some (JArr (map json_of l)) = Some (JArr (map (fun x => JObj (canon_members (members (json_of x)))) l))).
  { cbn [canon fmap option_fmap option_map]. do 2 f_equal. rewrite map_map. apply map_ext. intros x. by rewrite (Hobj x) at 1. }
  rewrite Ec, (object_list_objs _ (fun x => canon_members (members (json_of x)))) by done. cbn [mbind result_mbind result_bind].
  apply result_map_map. clear -Hread. induction l as [|x l IH]; by constructor.
Qed.

Lemma knowledge_reads b : knowledge_of_dict (canon_members (knowledge_json b)) = Ok (canon_knowledge b).
Proof.
  unfold knowledge_of_dict. assert (Hnd : NoDup (knowledge_json b).*1) by literal_keys.
  rewrite (objects_canon evidence_json id _ "evidence" _ (kb_evidence b) Hnd eq_refl (fun _ => eq_refl) evidence_reads). cbn [mbind result_mbind result_bind].
  rewrite (objects_canon fact_json canon_fact _ "facts" _ (kb_facts b) Hnd eq_refl (fun _ => eq_refl) fact_reads). cbn [mbind result_mbind result_bind].
  rewrite (objects_canon unknown_json id _ "unknowns" _ (kb_unknowns b) Hnd eq_refl (fun _ => eq_refl) unknown_reads). cbn [mbind result_mbind result_bind].
  rewrite (objects_canon conflict_json id _ "conflicts" _ (kb_conflicts b) Hnd eq_refl (fun _ => eq_refl) conflict_reads). cbn [mbind result_mbind result_bind].
  rewrite (objects_canon update_json id _ "coverage_updates" _ (kb_coverage_updates b) Hnd eq_refl (fun _ => eq_refl) update_reads). cbn [mbind result_mbind result_bind].
  read_fields. by rewrite !map_id.
Qed.

(** C33: knowledge survives a restart.  Decoding the artifact that was written for
    a bundle gives the bundle back, with the values of its facts in canonical
    form, when the values hold no floats and [json.loads] reads canonical text. *)
Theorem knowledge_artifact_roundtrip `{!ReadsCanonical} (b : KnowledgeBundle) (generation : Z) :
  (forall f, f ∈ kb_facts b -> floatless (vf_value f) = true) ->
  decode_knowledge (encode_knowledge b generation) = Ok (canon_knowledge b).
Proof.
  intros Hf. unfold decode_knowledge, encode_knowledge. cbn [ra_artifact_type ra_content ra_content_hash ra_request_hash].
  rewrite !String.eqb_refl. cbn [require mbind result_mbind result_bind]. rewrite reads_canonical.
  - change (canon (JObj (knowledge_json b))) with (JObj (canon_members (knowledge_json b))).
    assert (Ec : canonical_json (JObj (canon_members (knowledge_json b))) = canonical_json (JObj (knowledge_json b)))
      by exact (canonical_json_canon (JObj (knowledge_json b))).
    cbn beta match. rewrite Ec, String.eqb_refl. cbn [require mbind result_mbind result_bind]. rewrite knowledge_reads. cbn [mbind result_mbind result_bind canon_knowledge kb_knowledge_fingerprint].
    by rewrite String.eqb_refl.
  - cbn [floatless knowledge_json forallb snd]. rewrite !andb_true_r, !andb_true_iff.
    assert (Hs : forall l, forallb floatless (map JStr l) = true) by (intros l; apply forallb_forall; by intros j (s & <- & _)%in_map_iff).
    split_and!; try done; apply forallb_forall; intros j (y & <- & Hy)%in_map_iff; cbn; rewrite ?Hs; try done.
    apply list_elem_of_In in Hy. by rewrite (Hf y Hy).
Qed.
End facts.

(** ** Concrete builds *)

(** A small digest: the checksum of the text in decimal. *)
Definition checksum (s : string) : string :=
  pretty (foldl (fun h c => ((h * 31 + Ascii.N_of_ascii c) mod 65521)%N) 7%N (String.list_ascii_of_string s)).

Section demo.
#[local] Instance knowledge_builtins : Builtins :=
  {| repr_container := @repr_container example_builtins; int_of_str := @int_of_str example_builtins;
     lower := str_lower; sha256_hex := checksum |}.
#[local] Instance knowledge_loads : JsonLoads := loads.

Lemma knowledge_reads_canonical : ReadsCanonical.
Proof. intros j Hj. unfold json_loads, knowledge_loads, loads. by rewrite read_canonical. Qed.

Definition code_item : CapabilityEvidence :=
  mkCapability "github" "repo" "github://repo@c1/a.py" ("sha256:" +:+ checksum "export") "export" EmptyString EmptyString EmptyString EmptyString.

Definition code_authority : SourceAuthority := mkAuthority "github" "repo" "repo" "c1" EmptyString.

Definition search_action (targets : list string) : ProposedAction :=
  mkAction "search_repository" [("query", JStr "export")] "p" targets "1" "KEYWORD_SEARCH".

Definition build_request (targets : list string) (coverage : dict string string) (prior : option KnowledgeBundle) : KnowledgeBuildRequest :=
  mkBuildRequest "run" "task" "need" "ctx" (search_action targets) [code_item] [code_authority] coverage prior "HIT".

Definition no_knowledge : KnowledgeBuildResult :=
  mkBuildResult (mkKnowledge EmptyString EmptyString EmptyString EmptyString EmptyString EmptyString [] [] [] [] [] EmptyString EmptyString EmptyString) ∅ false.

Definition build_or (r : KnowledgeBuildRequest) : KnowledgeBuildResult :=
  match build_knowledge r with Ok res => res | Raise _ => no_knowledge end.

Definition first_request : KnowledgeBuildRequest := build_request ["a"; "b"] ∅ None.
Definition first_build : KnowledgeBuildResult := build_or first_request.
Definition second_request : KnowledgeBuildRequest := build_request ["a"; "c"] (bs_coverage first_build) (Some (bs_bundle first_build)).
Definition second_build : KnowledgeBuildResult := build_or second_request.

Example first_build_covers :
  build_knowledge first_request = Ok first_build /\ bs_coverage first_build !! "a" = Some "COVERED" /\ bs_coverage first_build !! "b" = Some "COVERED".
Proof. vm_compute. done. Qed.


Lemma coverage_exact_witness :
  exists after, bs_coverage second_build !! "a" = Some after /\
  decided (disputed (kb_facts (bs_bundle second_build)) (kb_conflicts (bs_bundle second_build)) "a")
    (supported (kb_facts (bs_bundle second_build)) "a") "COVERED" after.
Proof.
  assert (E : build_knowledge second_request = Ok second_build) by (vm_compute; reflexivity).
  assert (Ha : "a" ∈ ["a"; "c"]) by (refine (bool_decide_unpack _ _); vm_compute; exact I).
  exact (proj1 (coverage_exact second_request second_build E) "a" Ha).
Defined.

Lemma knowledge_artifact_roundtrip_witness :
  decode_knowledge (encode_knowledge (bs_bundle first_build) 1) = Ok (canon_knowledge (bs_bundle first_build)).
Proof.
  assert (Hf : forall f, f ∈ kb_facts (bs_bundle first_build) -> floatless (vf_value f) = true).
  { assert (Hall : Forall (fun f => floatless (vf_value f) = true) (kb_facts (bs_bundle first_build))) by (vm_compute; repeat constructor).
    exact (proj1 (Forall_forall _ _) Hall). }
  exact (@knowledge_artifact_roundtrip knowledge_builtins knowledge_loads knowledge_reads_canonical (bs_bundle first_build) 1 Hf).
Defined.

(** A key can stay COVERED without any fact.  The identifier of a fact found
    by token match does not depend on the targets of the action beyond the first;
    when a second action finds the same evidence for the same first target, its
    fact replaces the earlier one together with the keys that one covered.  In
    this run the key [b] is COVERED after both builds, but no fact of the second
    bundle covers it. *)
Theorem shared_fact_drops_coverage :
  build_knowledge first_request = Ok first_build /\ bs_coverage first_build !! "b" = Some "COVERED" /\
  supported (kb_facts (bs_bundle first_build)) "b" /\
  build_knowledge second_request = Ok second_build /\ bs_coverage second_build !! "b" = Some "COVERED" /\
  (forall f, f ∈ kb_facts (bs_bundle second_build) -> "b" ∉ vf_coverage_keys f).
Proof.
  split_and!; try (vm_compute; reflexivity).
  - apply (supported_ids_spec (mkAssessment (dict_by vf_fact_id (kb_facts (bs_bundle first_build))) [] [] []) "b").
    vm_compute. discriminate.
  - assert (Hall : Forall (fun f => "b" ∉ vf_coverage_keys f) (kb_facts (bs_bundle second_build)))
      by (refine (bool_decide_unpack _ _); vm_compute; exact I).
    exact (proj1 (Forall_forall _ _) Hall).
Qed.
End demo.
