(* ===== verification/WorkerInvestigation.v ===== *)
(** * The investigation loop of the worker

    [agent/investigation/models.py], [policies.py], [planner.py] and [runner.py]
    of agent-python.  The runner asks for one action at a time, executes it and
    builds knowledge from what it found, until the coverage is complete or a
    budget is used up.  What selects and executes actions and what is told about
    them are callbacks over a world of their own; they may raise.  The theorems
    say that the loop ends within its budget, what its result is made of, and
    when a run that is resumed goes on as the interrupted one. *)
From stdpp Require Import base list sets strings pretty relations.
From Stdlib Require Import ZArith Lia.
From S2P Require Import Prelude.
From S2P Require Import PyDict.
From S2P Require Import PyText.
From S2P Require Import Json.
From S2P Require Import CodePoints.
From S2P Require Import Ledger.
From S2P Require Import UnitModels.
From S2P Require Import Draft.
From S2P Require Import Knowledge.
From S2P Require Import UnitSemantic.
From S2P Require Import SemanticFacts.
From S2P Require Import KnowledgeFacts.
Open Scope string_scope.

(** ** [models.py] *)

Inductive CoverageStatus : Type := CS_MISSING | CS_PARTIAL | CS_COVERED | CS_CONFLICTING.

Definition coverage_value (s : CoverageStatus) : string :=
  match s with
  | CS_MISSING => "MISSING" | CS_PARTIAL => "PARTIAL" | CS_COVERED => "COVERED" | CS_CONFLICTING => "CONFLICTING"
  end.

Inductive InvestigationMode : Type := MODE_INITIAL | MODE_REPLAN | MODE_SUPPLEMENT.
Inductive InvestigationStatus : Type :=
  | IS_COMPLETE | IS_PARTIAL | IS_EMPTY | IS_HUMAN_INPUT_REQUIRED | IS_CANCELLED | IS_FAILED.
Inductive StopReason : Type :=
  | COVERAGE_COMPLETE | DRAFT_READY | NO_PROGRESS | MAX_ITERATIONS_REACHED | TOOL_BUDGET_EXHAUSTED | TOKEN_BUDGET_EXHAUSTED
  | HUMAN_INPUT_REQUIRED | PARTIAL_COVERAGE | REPLAN_EXHAUSTED | MODEL_BUDGET_EXHAUSTED | SUPPLEMENT_BUDGET_EXHAUSTED
  | PERMISSION_DENIED | USER_STOPPED | SOURCE_STALE | CAPABILITY_FAILED.

#[global] Instance InvestigationMode_eq_dec : EqDecision InvestigationMode.
Proof. solve_decision. Defined.
#[global] Instance StopReason_eq_dec : EqDecision StopReason.
Proof. solve_decision. Defined.

Record InvestigationBudget := mkInvestigationBudget {
  ib_max_iterations : Z;
  ib_max_tool_calls : Z;
  ib_token_budget : Z;
  ib_no_progress_limit : Z;
  ib_max_replans : Z
}.

(** [__post_init__]. *)
Definition check_budget (b : InvestigationBudget) : result exc InvestigationBudget :=
  require (1 <=? Z.min (Z.min (ib_max_iterations b) (ib_max_tool_calls b)) (Z.min (ib_token_budget b) (ib_no_progress_limit b)))%Z ;;
  require (0 <=? ib_max_replans b)%Z ;;
  Ok b.

Record ActionRecord := mkActionRecord {
  ar_round_index : Z;
  ar_mode : InvestigationMode;
  ar_signature : string;
  ar_action : ProposedAction;
  ar_new_fact_ids : list string;
  ar_progress_before : option string;
  ar_progress_after : option string
}.

Record ActionSelectionContext := mkSelection {
  sc_mode : InvestigationMode;
  sc_active_gap : string;
  sc_coverage : dict string string;
  sc_action_history : list ActionRecord;
  sc_no_progress_reason : option string;
  sc_remaining_iterations : Z;
  sc_remaining_tool_calls : Z;
  sc_remaining_replans : Z
}.

Record InvestigationRequest := mkInvestigationRequest {
  iq_run_id : string;
  iq_task_id : string;
  iq_mode : InvestigationMode;
  iq_need_plan_id : string;
  iq_need_context_hash : string;
  iq_coverage : dict string string;
  iq_source_authorities : list SourceAuthority;
  iq_budget : InvestigationBudget;
  iq_prior_knowledge : option KnowledgeBundle;
  iq_prior_action_history : list ActionRecord;
  iq_pending_action : option ProposedAction;
  iq_pending_signature : string
}.

Record InvestigationResult := mkInvestigationResult {
  ir_status : InvestigationStatus;
  ir_stop_reason : StopReason;
  ir_coverage : dict string string;
  ir_knowledge : option KnowledgeBundle;
  ir_action_history : list ActionRecord;
  ir_replan_count : Z;
  ir_no_progress_rounds : Z
}.

(** [value.get(key)], with a missing key read as [None]. *)
Definition get_or_null (key : string) (m : list (string * json)) : json := default JNull (jget key m).

Section readers.
Context `{Builtins}.

(** The texts of an array that are not blank, stripped. *)
Definition stripped_texts (l : list json) : list string :=
  omap (fun j => match j with JStr s => if truthy (strip s) then Some (strip s) else None | _ => None end) l.

(** The compatibility with the two-stage planner: tool and arguments. *)
Definition planner_action (value : list (string * json)) (arguments : json) : string * json :=
  let query := match get_or_null "repository_queries" value with JArr l => head (stripped_texts l) | _ => None end in
  match query with
  | Some q => ("search_repository", JObj [("query", JStr q)])
  | None =>
      match get_or_null "prd_query" value with
      | JStr s => if truthy (strip s) then ("search_prd_catalog", JObj [("query", JStr (strip s))]) else (EmptyString, arguments)
      | _ => (EmptyString, arguments)
      end
  end.

(** [ProposedAction.from_model_output]. *)
Definition action_of_output (value : list (string * json)) (active_gap : string) : result exc ProposedAction :=
  let action := match get_or_null "action" value with JObj m => m | _ => value end in
  let named := strip (str_get "tool_id" EmptyString action) in
  let '(tool_id, arguments) :=
    if truthy named then (named, get_or_null "arguments" action) else planner_action value (get_or_null "arguments" action) in
  match arguments with
  | JObj args =>
      require (truthy tool_id) ;;
      let raw_purpose := get_or_null "purpose" action in
      let purpose := strip (if jtruthy raw_purpose then py_str raw_purpose else "调查 " +:+ active_gap) in
      match default (strs [active_gap]) (jget "target_coverage" action) with
      | JArr raw_targets =>
          let targets := List.filter truthy (map (fun j => strip (py_str j)) raw_targets) in
          require (truthy purpose && negb (is_empty targets)) ;;
          Ok (mkAction tool_id args purpose targets (strip (str_get "tool_schema_version" "1" action))
                (strip (str_get "strategy" "KEYWORD_SEARCH" action)))
      | _ => Raise ValueError
      end
  | _ => Raise ValueError
  end.

(** [ProposedAction.as_dict]. *)
Definition action_json (a : ProposedAction) : list (string * json) :=
  [("tool_id", JStr (pa_tool_id a)); ("tool_schema_version", JStr (pa_tool_schema_version a)); ("arguments", JObj (pa_arguments a));
   ("purpose", JStr (pa_purpose a)); ("target_coverage", strs (pa_target_coverage a)); ("strategy", JStr (pa_strategy a))].

(** ** [planner.py] *)

Record InvestigationPlan := mkPlan { ip_repository_queries : list string; ip_prd_query : string }.

(** The loop over the queries, which stops when enough distinct ones are found. *)
Fixpoint plan_queries (limit : Z) (queries : list string) (raw : list json) : result exc (list string) :=
  match raw with
  | [] => Ok queries
  | JStr s :: rest =>
      require (truthy (strip s)) ;;
      let queries' := if bool_decide (strip s ∈ queries) then queries else (queries ++ [strip s])%list in
      if (limit <=? Z.of_nat (length queries'))%Z then Ok queries' else plan_queries limit queries' rest
  | _ => Raise ValueError
  end.

Definition plan_of_output (value : list (string * json)) (limit : Z) : result exc InvestigationPlan :=
  match default (JArr []) (jget "repository_queries" value) with
  | JArr raw =>
      queries ← plan_queries limit [] raw;
      match get_or_null "prd_query" value with
      | JNull => Ok (mkPlan queries EmptyString)
      | JStr s => Ok (mkPlan queries (strip s))
      | _ => Raise ValueError
      end
  | _ => Raise ValueError
  end.

(** ** [policies.py] *)

Definition SUPPORTED_TOOLS : list string := ["search_repository"; "search_prd_catalog"].

Definition gap_with (status : CoverageStatus) (coverage : dict string string) : option string :=
  fst <$> List.find (fun kv => String.eqb kv.2 (coverage_value status)) (items coverage).

(** [next_gap]: conflicts first, then what is missing, then what is partial. *)
Definition next_gap (coverage : dict string string) : option string :=
  match gap_with CS_CONFLICTING coverage with
  | Some key => Some key
  | None => match gap_with CS_MISSING coverage with
            | Some key => Some key
            | None => gap_with CS_PARTIAL coverage
            end
  end.

Definition coverage_complete (coverage : dict string string) : bool :=
  negb (is_empty (items coverage)) && forallb (fun v => String.eqb v (coverage_value CS_COVERED)) (values coverage).

(** [coverage_complete] on the mapping of a state. *)
Definition mapping_complete (coverage : list (string * json)) : bool :=
  negb (is_empty coverage) &&
  forallb (fun v => match v with JStr s => String.eqb s (coverage_value CS_COVERED) | _ => false end) coverage.*2.

Definition pre_action_stop (state : list (string * json)) (b : InvestigationBudget) : result exc (option StopReason) :=
  if match default (JObj []) (jget "coverage" state) with JObj m => mapping_complete m | _ => false end
  then Ok (Some COVERAGE_COMPLETE)
  else
    tokens ← int_get "token_usage" 0 state;
    if (ib_token_budget b <=? tokens)%Z then Ok (Some TOKEN_BUDGET_EXHAUSTED)
    else
      calls ← int_get "tool_call_count" 0 state;
      if (ib_max_tool_calls b <=? calls)%Z then Ok (Some TOOL_BUDGET_EXHAUSTED)
      else
        iteration ← int_get "iteration" 0 state;
        if (ib_max_iterations b <=? iteration)%Z then Ok (Some MAX_ITERATIONS_REACHED)
        else
          idle ← int_get "no_progress_rounds" 0 state;
          if (ib_no_progress_limit b <=? idle)%Z then Ok (Some NO_PROGRESS) else Ok None.

(** [DuplicateActionError] and the other [ValueError]s of [validate_action]. *)
Inductive action_error : Type := ActionInvalid | DuplicateActionError (signature : string).

Definition validate_action (a : ProposedAction) (active_gap : string) (completed : list string) : result action_error string :=
  if negb (bool_decide (pa_tool_id a ∈ SUPPORTED_TOOLS)) then Raise ActionInvalid
  else if negb (String.eqb (pa_tool_schema_version a) "1") then Raise ActionInvalid
  else if negb (bool_decide (active_gap ∈ pa_target_coverage a)) then Raise ActionInvalid
  else match jget "query" (pa_arguments a) with
  | Some (JStr query) =>
      if negb (truthy (strip query)) || (1000 <? str_len query)%nat then Raise ActionInvalid
      else if bool_decide (action_signature a ∈ completed) then Raise (DuplicateActionError (action_signature a))
      else Ok (action_signature a)
  | _ => Raise ActionInvalid
  end.
End readers.

(** ** [runner.py] *)

(** The collaborators of the runner. *)
Record callbacks (W : Type) := mkCallbacks {
  cb_select_action : ActionSelectionContext -> M W exc ProposedAction;
  cb_execute_action : ProposedAction -> M W exc (list CapabilityEvidence);
  cb_on_action_validated : option (ProposedAction -> string -> M W exc unit);
  cb_on_observed : option (InvestigationResult -> M W exc unit)
}.
Arguments cb_select_action {W} _.
Arguments cb_execute_action {W} _.
Arguments cb_on_action_validated {W} _.
Arguments cb_on_observed {W} _.

(** The local variables of [run]. *)
Record loop_state := mkLoopState {
  lp_coverage : dict string string;
  lp_knowledge : option KnowledgeBundle;
  lp_history : list ActionRecord;
  lp_attempted : list string;
  lp_replans : Z;
  lp_no_progress : Z;
  lp_next_mode : InvestigationMode;
  lp_no_progress_reason : option string;
  lp_pending_action : option ProposedAction
}.

Definition is_replan (r : ActionRecord) : bool := bool_decide (ar_mode r = MODE_REPLAN).
Definition replan_records (l : list ActionRecord) : Z := Z.of_nat (length (List.filter is_replan l)).
Definition supplementing (rq : InvestigationRequest) : bool := bool_decide (iq_mode rq = MODE_SUPPLEMENT).

(** The variables before the loop. *)
Definition start (rq : InvestigationRequest) : loop_state :=
  mkLoopState (iq_coverage rq) (iq_prior_knowledge rq) (iq_prior_action_history rq) (map ar_signature (iq_prior_action_history rq))
    (if supplementing rq then 0 else replan_records (iq_prior_action_history rq))%Z 0 (iq_mode rq) None (iq_pending_action rq).

Definition history_offset (rq : InvestigationRequest) : Z :=
  if supplementing rq then Z.of_nat (length (iq_prior_action_history rq)) else 0%Z.

Definition current_rounds (rq : InvestigationRequest) (st : loop_state) : Z :=
  (Z.of_nat (length (lp_history st)) - history_offset rq)%Z.

Definition knowledge_facts (k : option KnowledgeBundle) : list VerifiedFact :=
  match k with Some b => kb_facts b | None => [] end.

Definition partial_status (k : option KnowledgeBundle) : InvestigationStatus :=
  if is_empty (knowledge_facts k) then IS_EMPTY else IS_PARTIAL.

(** [_result]. *)
Definition make_result (status : InvestigationStatus) (reason : StopReason) (st : loop_state) (no_progress : Z) : InvestigationResult :=
  mkInvestigationResult status reason (lp_coverage st) (lp_knowledge st) (lp_history st) (lp_replans st) no_progress.

Definition stopped (reason : StopReason) (st : loop_state) : InvestigationResult :=
  make_result (partial_status (lp_knowledge st)) reason st (lp_no_progress st).

Definition completed (st : loop_state) : InvestigationResult := make_result IS_COMPLETE COVERAGE_COMPLETE st (lp_no_progress st).

Section runner.
Context `{Builtins} `{JsonLoads} {W : Type} (cb : callbacks W) (rq : InvestigationRequest).

Definition selection_context (st : loop_state) (gap : string) : ActionSelectionContext :=
  let rounds := current_rounds rq st in
  mkSelection (lp_next_mode st) gap (lp_coverage st) (lp_history st) (lp_no_progress_reason st)
    (ib_max_iterations (iq_budget rq) - rounds) (ib_max_tool_calls (iq_budget rq) - rounds) (ib_max_replans (iq_budget rq) - lp_replans st).

(** The action of a round with its signature, and whether it is the pending one;
    [None] is a repeated action, which ends the run. *)
Definition choose_action (st : loop_state) (gap : string) : M W exc (option (ProposedAction * string * bool)) :=
  match lp_pending_action st with
  | Some action =>
      match validate_action action gap (lp_attempted st) with
      | Raise _ => raise ValueError
      | Ok signature =>
          if truthy (iq_pending_signature rq) && negb (String.eqb signature (iq_pending_signature rq)) then raise ValueError
          else mret (Some (action, signature, true))
      end
  | None =>
      action ← cb_select_action cb (selection_context st gap);
      match validate_action action gap (lp_attempted st) with
      | Raise (DuplicateActionError _) => mret None
      | Raise ActionInvalid => raise ValueError
      | Ok signature => mret (Some (action, signature, false))
      end
  end.

Definition tell_validated (resumed : bool) (action : ProposedAction) (signature : string) : M W exc unit :=
  match cb_on_action_validated cb with
  | Some tell => if resumed then mret tt else tell action signature
  | None => mret tt
  end.

Definition tell_observed (res : InvestigationResult) : M W exc unit :=
  match cb_on_observed cb with Some tell => tell res | None => mret tt end.

Definition round_request (st : loop_state) (action : ProposedAction) (found : list CapabilityEvidence) : KnowledgeBuildRequest :=
  mkBuildRequest (iq_run_id rq) (iq_task_id rq) (iq_need_plan_id rq) (iq_need_context_hash rq) action found (iq_source_authorities rq)
    (lp_coverage st) (lp_knowledge st) (if is_empty found then "EMPTY" else "HIT").

(** [sorted(after_facts - before_facts)]. *)
Definition new_facts (before : option KnowledgeBundle) (after : KnowledgeBundle) : list string :=
  let known := map vf_fact_id (knowledge_facts before) in
  sorted_ids (dedup (List.filter (fun id => negb (bool_decide (id ∈ known))) (map vf_fact_id (List.filter is_supported (kb_facts after))))).

(** The variables after a round that found new facts, and after one that did
    not; the latter counts a replan only when the loop goes on. *)
Definition next_state (st : loop_state) (action : ProposedAction) (signature : string) (build : KnowledgeBuildResult)
    (replans no_progress : Z) (mode : InvestigationMode) (reason : option string) : loop_state :=
  let record := mkActionRecord (Z.of_nat (length (lp_history st)) + 1) (lp_next_mode st) signature action
                  (new_facts (lp_knowledge st) (bs_bundle build)) (kb_progress_fingerprint <$> lp_knowledge st)
                  (Some (kb_progress_fingerprint (bs_bundle build))) in
  mkLoopState (bs_coverage build) (Some (bs_bundle build)) (lp_history st ++ [record]) (lp_attempted st ++ [signature]) replans no_progress
    mode reason None.

(** What a round does with what an action found. *)
Definition observe (st : loop_state) (action : ProposedAction) (signature : string) (found : list CapabilityEvidence)
    : M W exc (InvestigationResult + loop_state) :=
  build ← liftR (build_knowledge (round_request st action found));
  let next := next_state st action signature build in
  if negb (is_empty (new_facts (lp_knowledge st) (bs_bundle build))) then
    let st' := next (lp_replans st) 0%Z (iq_mode rq) None in
    tell_observed (stopped PARTIAL_COVERAGE st') ;;
    mret (inr st')
  else
    let reason := Some (if is_empty found then "EMPTY_RESULT" else "ONLY_RELATED_EVIDENCE") in
    let idle := (lp_no_progress st + 1)%Z in
    if (ib_max_replans (iq_budget rq) <=? lp_replans st)%Z then
      let res := stopped NO_PROGRESS (next (lp_replans st) idle (lp_next_mode st) reason) in
      tell_observed res ;;
      mret (inl res)
    else
      let st' := next (lp_replans st + 1)%Z idle MODE_REPLAN reason in
      tell_observed (stopped PARTIAL_COVERAGE st') ;;
      mret (inr st').

(** The body of [while True]: a result, or the variables of the next round. *)
Definition round (st : loop_state) : M W exc (InvestigationResult + loop_state) :=
  if coverage_complete (lp_coverage st) then mret (inl (completed st))
  else if (ib_max_iterations (iq_budget rq) <=? current_rounds rq st)%Z then mret (inl (stopped MAX_ITERATIONS_REACHED st))
  else if (ib_max_tool_calls (iq_budget rq) <=? current_rounds rq st)%Z then mret (inl (stopped TOOL_BUDGET_EXHAUSTED st))
  else match next_gap (lp_coverage st) with
  | None => mret (inl (completed st))
  | Some gap =>
      chosen ← choose_action st gap;
      match chosen with
      | None => mret (inl (make_result (partial_status (lp_knowledge st)) REPLAN_EXHAUSTED st (lp_no_progress st + 1)))
      | Some (action, signature, resumed) =>
          tell_validated resumed action signature ;;
          found ← cb_execute_action cb action;
          observe st action signature found
      end
  end.

(** The loop, with as much fuel as the budget has rounds left. *)
Fixpoint loop (fuel : nat) (st : loop_state) : M W exc InvestigationResult :=
  match fuel with
  | O => raise (External "fuel")
  | S fuel' =>
      next ← round st;
      match next with inl res => mret res | inr st' => loop fuel' st' end
  end.

Definition rounds_left (st : loop_state) : nat :=
  Z.to_nat (Z.min (ib_max_iterations (iq_budget rq)) (ib_max_tool_calls (iq_budget rq)) - current_rounds rq st).

Definition run : M W exc InvestigationResult := loop (S (rounds_left (start rq))) (start rq).
End runner.

(** ** What one round can do

    [advance] is a round after which the loop goes on, [final] a round that
    returns; neither mentions the callbacks. *)

Section steps.
Context `{Builtins} `{JsonLoads} (rq : InvestigationRequest).

Definition within_budget (st : loop_state) : Prop :=
  (current_rounds rq st < ib_max_iterations (iq_budget rq))%Z /\ (current_rounds rq st < ib_max_tool_calls (iq_budget rq))%Z.

(** An action was accepted for the next gap and knowledge was built from what it found. *)
Definition acted (st : loop_state) (action : ProposedAction) (signature : string) (found : list CapabilityEvidence)
    (build : KnowledgeBuildResult) : Prop :=
  within_budget st /\
  (exists gap, next_gap (lp_coverage st) = Some gap /\ validate_action action gap (lp_attempted st) = Ok signature) /\
  build_knowledge (round_request rq st action found) = Ok build.

Inductive advance (st : loop_state) : loop_state -> Prop :=
  | advance_progress action signature found build :
      acted st action signature found build -> new_facts (lp_knowledge st) (bs_bundle build) <> [] ->
      advance st (next_state st action signature build (lp_replans st) 0 (iq_mode rq) None)
  | advance_replan action signature found build reason :
      acted st action signature found build -> new_facts (lp_knowledge st) (bs_bundle build) = [] ->
      (lp_replans st < ib_max_replans (iq_budget rq))%Z ->
      advance st (next_state st action signature build (lp_replans st + 1) (lp_no_progress st + 1) MODE_REPLAN (Some reason)).

Inductive final (st : loop_state) : InvestigationResult -> Prop :=
  | final_complete : coverage_complete (lp_coverage st) = true \/ next_gap (lp_coverage st) = None -> final st (completed st)
  | final_iterations : (ib_max_iterations (iq_budget rq) <= current_rounds rq st)%Z -> final st (stopped MAX_ITERATIONS_REACHED st)
  | final_tools : (ib_max_tool_calls (iq_budget rq) <= current_rounds rq st)%Z -> final st (stopped TOOL_BUDGET_EXHAUSTED st)
  | final_repeated action gap signature :
      next_gap (lp_coverage st) = Some gap -> validate_action action gap (lp_attempted st) = Raise (DuplicateActionError signature) ->
      final st (make_result (partial_status (lp_knowledge st)) REPLAN_EXHAUSTED st (lp_no_progress st + 1))
  | final_idle action signature found build mode reason :
      acted st action signature found build -> new_facts (lp_knowledge st) (bs_bundle build) = [] ->
      (ib_max_replans (iq_budget rq) <= lp_replans st)%Z ->
      final st (stopped NO_PROGRESS (next_state st action signature build (lp_replans st) (lp_no_progress st + 1) mode reason)).
End steps.

(** Exceptions of a computation. *)
Definition raises_only {W A} (P : exc -> Prop) (m : M W exc A) : Prop := forall w w' e, m w = (w', Raise e) -> P e.

Section monad.
Context {W : Type} (P : exc -> Prop).

Lemma raises_only_bind {A B} (m : M W exc A) (k : A -> M W exc B) :
  raises_only P m -> (forall a, raises_only P (k a)) -> raises_only P (m ≫= k).
Proof. intros Hm Hk w w' e [(w1 & a & _ & E)|(e' & E & [= <-])]%M_bind_inv; [by eapply Hk|by eapply Hm]. Qed.

Lemma raises_only_ret {A} (a : A) : raises_only P (mret a : M W exc A).
Proof. by intros w w' e [=]. Qed.

Lemma raises_only_raise {A} (e : exc) : P e -> raises_only P (raise e : M W exc A).
Proof. by intros He w w' e' [= _ <-]. Qed.
End monad.

Create HintDb raises.
#[local] Hint Resolve raises_only_ret raises_only_raise raises_only_bind : raises.

Section run_facts.
Context `{Builtins} `{JsonLoads} {W : Type} (cb : callbacks W) (rq : InvestigationRequest).

Lemma validate_action_Ok a gap attempted signature :
  validate_action a gap attempted = Ok signature ->
  signature = action_signature a /\ (signature ∉ attempted) /\ pa_tool_id a ∈ SUPPORTED_TOOLS /\ pa_tool_schema_version a = "1" /\
  gap ∈ pa_target_coverage a /\
  exists query, jget "query" (pa_arguments a) = Some (JStr query) /\ strip query <> EmptyString /\ (str_len query <= 1000)%nat.
Proof.
  unfold validate_action. case_bool_decide; [|done]. destruct (String.eqb_spec (pa_tool_schema_version a) "1"); [|done].
  case_bool_decide; [|done]. cbn [negb]. destruct (jget "query" _) as [[| | | |query| |]|]; try done.
  destruct (truthy (strip query)) eqn:Et; [|done]. destruct (Nat.ltb_spec 1000 (str_len query)); [done|]. cbn [negb orb].
  case_bool_decide; [done|]. intros [= <-]. split_and!; try done. exists query. split_and!; [done| |lia]. intros E. by rewrite E in Et.
Qed.

Lemma acted_target st action signature found build : acted rq st action signature found build -> pa_target_coverage action <> [].
Proof. intros (_ & (gap & _ & (_ & _ & _ & _ & Hin & _)%validate_action_Ok) & _) E. rewrite E in Hin. by apply elem_of_nil in Hin. Qed.

Lemma choose_action_Ok st gap w w' r :
  choose_action cb rq st gap w = (w', Ok r) ->
  match r with
  | Some (action, signature, _) => validate_action action gap (lp_attempted st) = Ok signature
  | None => exists action signature, validate_action action gap (lp_attempted st) = Raise (DuplicateActionError signature)
  end.
Proof.
  unfold choose_action. destruct (lp_pending_action st) as [action|].
  - destruct (validate_action _ _ _) as [signature|] eqn:E; [|done]. destruct (_ && _); [done|]. by intros [= _ <-].
  - intros [(w1 & action & _ & E)|(e & _ & ?)]%M_bind_inv; [|done].
    destruct (validate_action action _ _) as [signature|[|signature]] eqn:Ev; [|done|]; injection E as _ <-; [done|eauto].
Qed.

Lemma observe_Ok st action signature found w w' r :
  observe cb rq st action signature found w = (w', Ok r) ->
  exists build, build_knowledge (round_request rq st action found) = Ok build /\
  match r with
  | inl res => new_facts (lp_knowledge st) (bs_bundle build) = [] /\ (ib_max_replans (iq_budget rq) <= lp_replans st)%Z /\
      exists mode reason, res = stopped NO_PROGRESS (next_state st action signature build (lp_replans st) (lp_no_progress st + 1) mode reason)
  | inr st' =>
      (new_facts (lp_knowledge st) (bs_bundle build) <> [] /\
       st' = next_state st action signature build (lp_replans st) 0 (iq_mode rq) None) \/
      (new_facts (lp_knowledge st) (bs_bundle build) = [] /\ (lp_replans st < ib_max_replans (iq_budget rq))%Z /\
       exists reason, st' = next_state st action signature build (lp_replans st + 1) (lp_no_progress st + 1) MODE_REPLAN (Some reason))
  end.
Proof.
  unfold observe. intros [(w1 & build & [= _ Eb] & E)|(e & _ & ?)]%M_bind_inv; [|done]. exists build. split; [done|].
  destruct (new_facts (lp_knowledge st) (bs_bundle build)) as [|id ids] eqn:En; cbn [is_empty negb] in E.
  - destruct (Z.leb_spec (ib_max_replans (iq_budget rq)) (lp_replans st));
      apply M_bind_inv in E as [(w2 & [] & _ & [= _ <-])|(e & _ & ?)]; try done; [split_and!; eauto|right; split_and!; eauto].
  - apply M_bind_inv in E as [(w2 & [] & _ & [= _ <-])|(e & _ & ?)]; [by left|done].
Qed.

(** Every round that does not raise is an [advance] or [final]. *)
Lemma round_Ok st w w' r :
  round cb rq st w = (w', Ok r) -> match r with inl res => final rq st res | inr st' => advance rq st st' end.
Proof.
  unfold round. destruct (coverage_complete _) eqn:Ec; [intros [= _ <-]; apply final_complete; by left|].
  destruct (Z.leb_spec (ib_max_iterations (iq_budget rq)) (current_rounds rq st)); [intros [= _ <-]; by apply final_iterations|].
  destruct (Z.leb_spec (ib_max_tool_calls (iq_budget rq)) (current_rounds rq st)); [intros [= _ <-]; by apply final_tools|].
  destruct (next_gap _) as [gap|] eqn:Eg; [|intros [= _ <-]; apply final_complete; by right].
  intros [(w1 & chosen & Ech & E)|(e & _ & ?)]%M_bind_inv; [|done]. apply choose_action_Ok in Ech.
  destruct chosen as [[[action signature] resumed]|]; [|destruct Ech as (action & signature & Ev); injection E as _ <-; by eapply final_repeated].
  apply M_bind_inv in E as [(w2 & [] & _ & E)|(e & _ & ?)]; [|done]. apply M_bind_inv in E as [(w3 & found & _ & E)|(e & _ & ?)]; [|done].
  apply observe_Ok in E as (build & Eb & E).
  assert (Hact : acted rq st action signature found build) by (repeat split; eauto).
  destruct r as [res|st'].
  - destruct E as (En & Hr & mode & reason & ->). by eapply final_idle.
  - destruct E as [[En ->]|(En & Hr & reason & ->)]; [by eapply advance_progress|by eapply advance_replan].
Qed.

(** ** The loop *)

(** [while True]: the rounds follow each other until one returns or raises. *)
Inductive loops : loop_state -> W -> W * result exc InvestigationResult -> Prop :=
  | loops_return st w w' res : round cb rq st w = (w', Ok (inl res)) -> loops st w (w', Ok res)
  | loops_raise st w w' e : round cb rq st w = (w', Raise e) -> loops st w (w', Raise e)
  | loops_again st w w' st' out : round cb rq st w = (w', Ok (inr st')) -> loops st' w' out -> loops st w out.

Lemma advance_history st st' : advance rq st st' -> exists r, lp_history st' = (lp_history st ++ [r])%list /\
  ar_mode r = lp_next_mode st /\ ar_round_index r = (Z.of_nat (length (lp_history st)) + 1)%Z /\
  validate_action (ar_action r) (default EmptyString (next_gap (lp_coverage st))) (lp_attempted st) = Ok (ar_signature r).
Proof.
  intros Ha. destruct Ha as [action signature found build (_ & (gap & Eg & Ev) & _)|action signature found build reason (_ & (gap & Eg & Ev) & _)];
    eexists; (split; [reflexivity|]); rewrite Eg; done.
Qed.

Lemma advance_rounds st st' : advance rq st st' ->
  within_budget rq st /\ current_rounds rq st' = (current_rounds rq st + 1)%Z.
Proof.
  intros Ha. split; [by destruct Ha as [? ? ? ? [? _]|? ? ? ? ? [? _]]|]. destruct (advance_history _ _ Ha) as (r & E & _).
  unfold current_rounds. rewrite E, length_app. simpl. lia.
Qed.

Lemma loop_loops fuel st w : (rounds_left rq st < fuel)%nat -> loops st w (loop cb rq fuel st w).
Proof.
  revert st w. induction fuel as [|fuel IH]; intros st w Hf; [lia|]. cbn [loop]. cbv [mbind M_bind].
  destruct (round cb rq st w) as [w1 [[res|st']|e]] eqn:E; [by apply loops_return| |by apply loops_raise].
  eapply loops_again; [exact E|]. apply IH. apply round_Ok, advance_rounds in E as [[H1 H2] Hr].
  unfold rounds_left in *. rewrite Hr. lia.
Qed.

Lemma loops_result st w w' res : loops st w (w', Ok res) -> exists st', rtc (advance rq) st st' /\ final rq st' res.
Proof.
  remember (w', Ok res) as out eqn:Eo. intros Hl. revert w' res Eo. induction Hl as [st w w1 res0 E|st w w1 e E|st w w1 st1 out E Hl IH]; intros w' res Eo.
  - injection Eo as _ <-. exists st. split; [constructor|]. by apply round_Ok in E.
  - done.
  - destruct (IH _ _ Eo) as (st' & Hs & Hf). exists st'. split; [|done]. eapply rtc_l; [|done]. by apply round_Ok in E.
Qed.

(** ** Exceptions *)

Definition callbacks_raise (P : exc -> Prop) : Prop :=
  (forall c, raises_only P (cb_select_action cb c)) /\ (forall a, raises_only P (cb_execute_action cb a)) /\
  (forall tell a s, cb_on_action_validated cb = Some tell -> raises_only P (tell a s)) /\
  (forall tell r, cb_on_observed cb = Some tell -> raises_only P (tell r)).

Section raising.
Context (P : exc -> Prop) (HP : callbacks_raise P) (Hvalue : P ValueError).

Lemma choose_action_raises st gap : raises_only P (choose_action cb rq st gap).
Proof.
  destruct HP as (Hs & _). unfold choose_action. destruct (lp_pending_action st).
  - destruct (validate_action _ _ _); [destruct (_ && _)|]; eauto with raises.
  - apply raises_only_bind; [auto|]. intros action. destruct (validate_action _ _ _) as [|[]]; eauto with raises.
Qed.

Lemma tell_observed_raises res : raises_only P (tell_observed cb res).
Proof. destruct HP as (_ & _ & _ & Ho). unfold tell_observed. destruct (cb_on_observed cb); eauto with raises. Qed.

Lemma observe_raises st action signature found :
  pa_target_coverage action <> [] -> raises_only P (observe cb rq st action signature found).
Proof.
  intros Ht. unfold observe. destruct (build_knowledge_total (round_request rq st action found) Ht) as [build Eb]. rewrite Eb.
  apply raises_only_bind; [by intros w w' e [=]|]. intros b.
  destruct (negb _); [|destruct (_ <=? _)%Z]; apply raises_only_bind; eauto using tell_observed_raises with raises.
Qed.

Lemma round_raises st : raises_only P (round cb rq st).
Proof.
  unfold round. destruct (coverage_complete _); [eauto with raises|]. do 2 (destruct (_ <=? _)%Z; [eauto with raises|]).
  destruct (next_gap _) as [gap|]; [|eauto with raises]. intros w w' e [(w1 & chosen & Ech & E)|(e' & E & [= <-])]%M_bind_inv;
    [|by eapply choose_action_raises]. destruct chosen as [[[action signature] resumed]|]; [|done]. apply choose_action_Ok in Ech.
  destruct HP as (_ & Hx & Hv & _). revert E. apply raises_only_bind.
  - unfold tell_validated. destruct (cb_on_action_validated cb); [destruct resumed|]; eauto with raises.
  - intros _. apply raises_only_bind; [auto|]. intros found. apply observe_raises. intros Et.
    apply validate_action_Ok in Ech as (_ & _ & _ & _ & Hin & _). rewrite Et in Hin. by apply elem_of_nil in Hin.
Qed.

Lemma loops_raises st w w' e : loops st w (w', Raise e) -> P e.
Proof.
  remember (w', Raise e) as out eqn:Eo. intros Hl. revert w' e Eo. induction Hl as [|st w w1 e0 E|]; intros w2 e2 Eo; [done| |eauto].
  injection Eo as _ <-. by eapply round_raises.
Qed.
End raising.

(** C17: the loop of the runner ends.  Whatever the callbacks do, [run] returns or
    raises what [while True] returns or raises, within the rounds that the budget
    leaves; and the only exceptions are those of the callbacks and the
    [ValueError] of an action that is refused. *)
Theorem worker_run_ends (P : exc -> Prop) (w : W) :
  callbacks_raise P -> P ValueError ->
  loops (start rq) w (run cb rq w) /\ (forall e, (run cb rq w).2 = Raise e -> P e).
Proof.
  intros HP Hv. assert (Hl : loops (start rq) w (run cb rq w)) by (apply loop_loops; lia). split; [done|].
  intros e He. destruct (run cb rq w) as [w' r]. cbn [snd] in He. subst r. by eapply loops_raises.
Qed.
End run_facts.

(** ** What a result is made of *)

Section result_facts.
Context `{Builtins} `{JsonLoads} (rq : InvestigationRequest).

(** An action of a round: a supported search with a query, under its signature. *)
Definition accepted (r : ActionRecord) : Prop :=
  ar_signature r = action_signature (ar_action r) /\ pa_tool_id (ar_action r) ∈ SUPPORTED_TOOLS /\
  exists query, jget "query" (pa_arguments (ar_action r)) = Some (JStr query) /\ strip query <> EmptyString /\ (str_len query <= 1000)%nat.

(** The rounds that count against the budget. *)
Definition rounds_of (history : list ActionRecord) : Z := (Z.of_nat (length history) - history_offset rq)%Z.

Definition round_limit : Z := Z.min (ib_max_iterations (iq_budget rq)) (ib_max_tool_calls (iq_budget rq)).

Record loop_ok (st : loop_state) : Prop := {
  lo_attempted : lp_attempted st = map ar_signature (lp_history st);
  lo_distinct : NoDup (map ar_signature (lp_history st));
  lo_history : exists new, lp_history st = (iq_prior_action_history rq ++ new)%list /\ Forall accepted new;
  lo_rounds : (rounds_of (lp_history st) <= Z.max round_limit (rounds_of (iq_prior_action_history rq)))%Z;
  lo_knowledge : forall b, lp_knowledge st = Some b -> knowledge_ok b;
  lo_replans : (lp_replans st <= Z.max (ib_max_replans (iq_budget rq)) (lp_replans (start rq)))%Z
}.

Lemma start_ok :
  NoDup (map ar_signature (iq_prior_action_history rq)) -> (forall b, iq_prior_knowledge rq = Some b -> knowledge_ok b) -> loop_ok (start rq).
Proof. intros Hnd Hk. split; cbn [start lp_attempted lp_history lp_knowledge]; try done; [|lia|lia]. exists []. by rewrite app_nil_r. Qed.

Lemma acted_ok st action signature found build replans idle mode reason :
  acted rq st action signature found build -> loop_ok st ->
  (replans <= Z.max (ib_max_replans (iq_budget rq)) (lp_replans (start rq)))%Z ->
  loop_ok (next_state st action signature build replans idle mode reason).
Proof.
  intros (Hb & (gap & _ & (Es & Hn & Ht & _ & _ & Hq)%validate_action_Ok) & Hbuild) [A1 A2 (new & A3 & A4) A5 A6 A7] Hr. unfold next_state.
  split; cbn [lp_attempted lp_history lp_knowledge lp_replans]; [| | | | |done].
  - by rewrite map_app, A1.
  - rewrite map_app. apply NoDup_app. split; [done|]. split; [|apply NoDup_singleton].
    intros x Hx ->%list_elem_of_singleton. cbn in Hx. by rewrite A1 in Hn.
  - eexists (new ++ [_])%list. rewrite A3 at 1. rewrite <- app_assoc. split; [reflexivity|]. apply Forall_app_2, Forall_singleton; [done|]. by split_and!.
  - unfold rounds_of. rewrite length_app. cbn. destruct Hb as [H1 H2]. unfold current_rounds, round_limit in *. lia.
  - intros b [= <-]. exact (build_keeps_ok (round_request rq st action found) build A6 Hbuild).
Qed.

Lemma advance_ok st st' : advance rq st st' -> loop_ok st -> loop_ok st'.
Proof.
  intros Ha Hok. destruct Ha as [action signature found build Hact _|action signature found build reason Hact _ Hr]; eapply acted_ok; try done.
  - apply (lo_replans st Hok).
  - lia.
Qed.

Lemma reachable_loop_ok st : loop_ok (start rq) -> rtc (advance rq) (start rq) st -> loop_ok st.
Proof. intros Hok Hr. induction Hr; eauto using advance_ok. Qed.

(** What is left to find, as the values of the coverage. *)
Definition gap_values : list string := ["CONFLICTING"; "MISSING"; "PARTIAL"].

Lemma gap_with_None s coverage : gap_with s coverage = None -> forall k v, (k, v) ∈ items coverage -> v <> coverage_value s.
Proof.
  unfold gap_with. destruct (List.find _ _) eqn:E; [done|]. intros _ k v Hin ->. apply list_elem_of_In in Hin.
  apply (List.find_none _ _ E) in Hin. cbn in Hin. by rewrite String.eqb_refl in Hin.
Qed.

Lemma no_gap coverage : coverage_complete coverage = true \/ next_gap coverage = None -> forall k v, (k, v) ∈ items coverage -> v ∉ gap_values.
Proof.
  intros [[_ Hc]%andb_true_iff|Hg] k v Hin.
  - rewrite forallb_forall in Hc. assert (Hv : v ∈ values coverage) by exact (list_elem_of_fmap_2 snd _ _ Hin).
    apply list_elem_of_In, Hc, String.eqb_eq in Hv as ->. by apply (bool_decide_unpack _).
  - unfold next_gap in Hg. destruct (gap_with CS_CONFLICTING coverage) eqn:E1; [done|]. destruct (gap_with CS_MISSING coverage) eqn:E2; [done|].
    pose proof (gap_with_None _ _ E1 k v Hin). pose proof (gap_with_None _ _ E2 k v Hin). pose proof (gap_with_None _ _ Hg k v Hin).
    unfold gap_values. rewrite !elem_of_cons, elem_of_nil. naive_solver.
Qed.

(** What each stop reason says of the result. *)
Definition reason_holds (res : InvestigationResult) : Prop :=
  match ir_stop_reason res with
  | COVERAGE_COMPLETE => ir_status res = IS_COMPLETE /\ forall k v, (k, v) ∈ items (ir_coverage res) -> v ∉ gap_values
  | MAX_ITERATIONS_REACHED => (ib_max_iterations (iq_budget rq) <= rounds_of (ir_action_history res))%Z
  | TOOL_BUDGET_EXHAUSTED => (ib_max_tool_calls (iq_budget rq) <= rounds_of (ir_action_history res))%Z
  | REPLAN_EXHAUSTED => next_gap (ir_coverage res) <> None
  | NO_PROGRESS => (ib_max_replans (iq_budget rq) <= ir_replan_count res)%Z /\
      exists r, last (ir_action_history res) = Some r /\ ar_new_fact_ids r = []
  | _ => False
  end.

(** The state whose variables a result carries. *)
Lemma final_ok st res : final rq st res -> loop_ok st ->
  exists st', loop_ok st' /\ ir_action_history res = lp_history st' /\ ir_knowledge res = lp_knowledge st' /\ ir_replan_count res = lp_replans st' /\
  reason_holds res.
Proof.
  intros Hf Hok. destruct Hf as [Hc|Hi|Ht|action gap signature Hg _|action signature found build mode reason Hact Hn Hr].
  - exists st. split_and!; try done. cbn. split; [done|]. by apply no_gap.
  - by exists st.
  - by exists st.
  - exists st. split_and!; try done. cbn. by rewrite Hg.
  - exists (next_state st action signature build (lp_replans st) (lp_no_progress st + 1) mode reason).
    split_and!; try done; [eapply acted_ok; [done|done|apply (lo_replans st Hok)]|]. cbn. split; [done|].
    eexists. split; [apply last_snoc|]. exact Hn.
Qed.
End result_facts.

(** C12: what an investigation returns.  The history of a result is the history it
    was given and then the actions of this run, at most as many as the budget
    leaves; no two have the same signature, and each is a supported search with a
    query.  The knowledge of the result is well formed, the replans are within
    their limit, and the stop reason is true of the result: the coverage has no
    gap, a limit is reached, or the last action found no new fact. *)
Theorem worker_result_sound `{Builtins} `{JsonLoads} {W : Type} (cb : callbacks W) (rq : InvestigationRequest) (w w' : W)
    (res : InvestigationResult) :
  NoDup (map ar_signature (iq_prior_action_history rq)) -> (forall b, iq_prior_knowledge rq = Some b -> knowledge_ok b) ->
  run cb rq w = (w', Ok res) ->
  (exists new, ir_action_history res = (iq_prior_action_history rq ++ new)%list /\ Forall accepted new) /\
  NoDup (map ar_signature (ir_action_history res)) /\
  (rounds_of rq (ir_action_history res) <= Z.max (round_limit rq) (rounds_of rq (iq_prior_action_history rq)))%Z /\
  (forall b, ir_knowledge res = Some b -> knowledge_ok b) /\
  (ir_replan_count res <= Z.max (ib_max_replans (iq_budget rq)) (lp_replans (start rq)))%Z /\
  reason_holds rq res.
Proof.
  intros Hnd Hk E. assert (Hl : loops cb rq (start rq) w (run cb rq w)) by (apply loop_loops; lia). rewrite E in Hl.
  apply loops_result in Hl as (st & Hs & Hf). destruct (final_ok rq st res Hf) as (st' & [A1 A2 A3 A4 A5 A6] & -> & -> & -> & Hr).
  { by apply (reachable_loop_ok rq st (start_ok rq Hnd Hk)). }
  by split_and!.
Qed.

(** ** Runs that are resumed *)

(** The request with which [graph/runtime.py] goes on from the checkpoint of an
    observation, and from the checkpoint of an action that was validated. *)
Definition resumed (rq : InvestigationRequest) (r : InvestigationResult) (pending : option ProposedAction) (signature : string)
    : InvestigationRequest :=
  mkInvestigationRequest (iq_run_id rq) (iq_task_id rq) MODE_INITIAL (iq_need_plan_id rq) (iq_need_context_hash rq) (ir_coverage r)
    (iq_source_authorities rq) (iq_budget rq) (ir_knowledge r) (ir_action_history r) pending signature.

(** What the resumed run knows of the variables of the interrupted one. *)
Definition forgotten (st : loop_state) (pending : option ProposedAction) : loop_state :=
  mkLoopState (lp_coverage st) (lp_knowledge st) (lp_history st) (lp_attempted st) (replan_records (lp_history st)) 0 MODE_INITIAL None pending.

Section resume_facts.
Context `{Builtins} `{JsonLoads} {W : Type} (cb : callbacks W) (rq : InvestigationRequest) (Hmode : iq_mode rq = MODE_INITIAL).

(** Replans are counted by the records, but for the one that is still to come. *)
Definition counted (st : loop_state) : Prop :=
  lp_attempted st = map ar_signature (lp_history st) /\
  match lp_next_mode st with
  | MODE_INITIAL => lp_replans st = replan_records (lp_history st) /\ lp_no_progress st = 0%Z /\ lp_no_progress_reason st = None
  | MODE_REPLAN => lp_replans st = (replan_records (lp_history st) + 1)%Z
  | MODE_SUPPLEMENT => False
  end.

Lemma replan_records_snoc l r : replan_records (l ++ [r]) = (replan_records l + (if is_replan r then 1 else 0))%Z.
Proof. unfold replan_records. rewrite List.filter_app, length_app. cbn. destruct (is_replan r); cbn; lia. Qed.

Lemma start_counted : counted (start rq).
Proof. unfold counted, start. cbn. unfold supplementing. by rewrite Hmode. Qed.

Lemma advance_counted st st' : advance rq st st' -> counted st -> counted st'.
Proof.
  intros Ha [Hatt Hc].
  destruct Ha as [action signature found build _ _|action signature found build reason _ _ _]; unfold counted, next_state;
    cbn [lp_attempted lp_history lp_next_mode lp_replans lp_no_progress lp_no_progress_reason]; rewrite map_app, Hatt;
    (split; [done|]); rewrite replan_records_snoc; unfold is_replan; cbn [ar_mode]; [rewrite Hmode|];
    destruct (lp_next_mode st); try done;
    try (destruct Hc as (Hc & _)); rewrite Hc; cbn; try (split; [|done]); case_bool_decide; (done || lia).
Qed.

Lemma reachable_counted st : rtc (advance rq) (start rq) st -> counted st.
Proof. intros Hr. pose proof start_counted. induction Hr; eauto using advance_counted. Qed.

Lemma start_resumed st reason pending signature :
  counted st -> start (resumed rq (stopped reason st) pending signature) = forgotten st pending.
Proof. intros [Hatt _]. unfold start, forgotten. cbn. by rewrite Hatt. Qed.

Lemma forgotten_same st : counted st -> lp_next_mode st = MODE_INITIAL -> lp_pending_action st = None -> forgotten st None = st.
Proof. intros [_ Hc] Hm Hp. rewrite Hm in Hc. destruct Hc as (H1 & H2 & H3). destruct st. cbn in *. by subst. Qed.

(** Without a pending action a round does not look at what is resumed. *)
Lemma round_resumed r signature st : lp_pending_action st = None -> round cb (resumed rq r None signature) st = round cb rq st.
Proof.
  intros Hp. unfold round, choose_action, observe, current_rounds, history_offset, supplementing, selection_context, current_rounds, history_offset,
    supplementing. rewrite Hp, Hmode. reflexivity.
Qed.

Lemma loop_resumed r signature fuel st : lp_pending_action st = None -> forall w, loop cb (resumed rq r None signature) fuel st w = loop cb rq fuel st w.
Proof.
  revert st. induction fuel as [|fuel IH]; intros st Hp w; [done|]. cbn [loop]. rewrite round_resumed by done. cbv [mbind M_bind].
  destruct (round cb rq st w) as [w1 [[res|st']|e]] eqn:E; try done. apply IH. apply round_Ok in E. by destruct E.
Qed.

End resume_facts.

(** ** Concrete runs *)

Section demo.
#[local] Existing Instance knowledge_builtins.
#[local] Existing Instance knowledge_loads.

(** The world counts the actions that were executed and keeps what was observed. *)
Definition demo_world : Type := nat * list InvestigationResult.

Definition demo_select (query : ActionSelectionContext -> string) (c : ActionSelectionContext) : M demo_world exc ProposedAction :=
  mret (mkAction "search_repository" [("query", JStr (query c))] "p" [sc_active_gap c] "1" "KEYWORD_SEARCH").

Definition demo_callbacks (query : ActionSelectionContext -> string) (found : list CapabilityEvidence) : callbacks demo_world :=
  mkCallbacks demo_world (demo_select query) (fun _ w => ((S w.1, w.2), Ok found)) None
    (Some (fun r w => ((w.1, (w.2 ++ [r])%list), Ok tt))).

Definition demo_request (coverage : list (string * string)) : InvestigationRequest :=
  mkInvestigationRequest "run" "task" MODE_INITIAL "need" "ctx" (Dict coverage) [code_authority] (mkInvestigationBudget 3 3 24000 2 1)
    None [] None EmptyString.

(** A search that finds the code, and one that asks for something else each time
    and finds nothing. *)
Definition finding : callbacks demo_world := demo_callbacks (fun _ => "export") [code_item].
Definition idle : callbacks demo_world := demo_callbacks (fun c => "q" +:+ pretty (length (sc_action_history c))) [].

Definition two_gaps : InvestigationRequest := demo_request [("a", "MISSING"); ("b", "MISSING")].

Definition after_round (cb : callbacks demo_world) (rq : InvestigationRequest) : loop_state :=
  match (round cb rq (start rq) (0, [])).2 with Ok (inr st) => st | _ => start rq end.

Lemma demo_quiet query found : callbacks_raise (demo_callbacks query found) (fun e => e = ValueError).
Proof. split_and!; [by intros c w w' e [=]|by intros a w w' e [=]|by intros tell a s [=]|]. by intros tell r [= <-] w w' e [=]. Qed.

Lemma worker_run_ends_witness :
  loops finding two_gaps (start two_gaps) (0, []) (run finding two_gaps (0, [])) /\
  (forall e, (run finding two_gaps (0, [])).2 = Raise e -> e = ValueError).
Proof. exact (worker_run_ends finding two_gaps (fun e => e = ValueError) (0, []) (demo_quiet _ _) eq_refl). Defined.

Definition found_result : InvestigationResult :=
  match (run finding two_gaps (0, [])).2 with Ok res => res | Raise _ => completed (start two_gaps) end.

Example found_everything :
  run finding two_gaps (0, []) = ((2, (run finding two_gaps (0, [])).1.2), Ok found_result) /\ ir_stop_reason found_result = COVERAGE_COMPLETE.
Proof. vm_compute. done. Qed.

Lemma worker_result_sound_witness :
  NoDup (map ar_signature (ir_action_history found_result)) /\ reason_holds two_gaps found_result.
Proof.
  assert (E : run finding two_gaps (0, []) = ((2, (run finding two_gaps (0, [])).1.2), Ok found_result)) by (vm_compute; reflexivity).
  assert (Hnone : forall b, iq_prior_knowledge two_gaps = Some b -> knowledge_ok b) by (intros b Hb; discriminate Hb).
  destruct (worker_result_sound finding two_gaps _ _ found_result (NoDup_nil_2) Hnone E) as (_ & Hnd & _ & _ & _ & Hr).
  exact (conj Hnd Hr).
Defined.


(** A restart forgets a replan.  When a round finds nothing the loop counts a
    replan and goes on once more; but a run that is resumed after that round
    counts only the replans it finds in the history, which has none yet.  The run
    here stops with NO_PROGRESS after two actions; resumed after the first it
    executes two more before it stops for the same reason. *)
Theorem restart_forgets_replan :
  exists first second res res' seen,
  run idle (demo_request [("a", "MISSING")]) (0, []) = ((2, [first; second]), Ok res) /\ ir_stop_reason res = NO_PROGRESS /\
  run idle (resumed (demo_request [("a", "MISSING")]) first None EmptyString) (1, [first]) = ((3, seen), Ok res') /\
  ir_stop_reason res' = NO_PROGRESS.
Proof. do 5 eexists. split_and!; [vm_compute; reflexivity|reflexivity|vm_compute; reflexivity|reflexivity]. Qed.
End demo.
