(* ===== verification/InformationNeed.v ===== *)
(** * Information needs of the worker

    [agent/information_need/models.py], [policies.py] and [artifact.py],
    [agent/investigation/supplement.py], and of [planner.py] what is done before
    and after the call of the model.  The model suggests whether a task needs an
    investigation; the policy can only tighten what it suggests.  The theorems
    say how the policy routes, that a supplement stays within its parent, and
    that a planner that is started again takes the decision that was recorded. *)
From stdpp Require Import base list sets strings pretty.
From Stdlib Require Import ZArith Lia.
From S2P Require Import Prelude.
From S2P Require Import PyDict.
From S2P Require Import PyText.
From S2P Require Import Json.
From S2P Require Import CanonicalJson.
From S2P Require Import Ledger.
From S2P Require Import LedgerInv.
From S2P Require Import LedgerFacts.
From S2P Require Import UnitModels.
From S2P Require Import Draft.
From S2P Require Import Knowledge.
From S2P Require Import KnowledgeFacts.
Open Scope string_scope.

(** ** [models.py] *)

Inductive Requiredness : Type := REQ_NONE | REQ_OPTIONAL | REQ_REQUIRED.
Inductive NeedKind : Type :=
  | NEW_BEHAVIOR | FIELD_OR_FORMAT_CHANGE | STATE_OR_RULE_CHANGE | PERMISSION_CHANGE | CODE_LOCATION_ONLY | HISTORICAL_PRD_CONTEXT
  | CROSS_MODULE_CHANGE | UNKNOWN_NEED.
Inductive SourceType : Type := SRC_CODE | SRC_HISTORICAL_PRD | SRC_USER_CONTEXT.
Inductive NeedRoute : Type := SKIP_INVESTIGATION | EXECUTE_INVESTIGATION | PAUSE_FOR_HUMAN.

#[global] Instance Requiredness_eq_dec : EqDecision Requiredness.
Proof. solve_decision. Defined.
#[global] Instance NeedKind_eq_dec : EqDecision NeedKind.
Proof. solve_decision. Defined.
#[global] Instance SourceType_eq_dec : EqDecision SourceType.
Proof. solve_decision. Defined.
#[global] Instance NeedRoute_eq_dec : EqDecision NeedRoute.
Proof. solve_decision. Defined.

Definition requiredness_value (r : Requiredness) : string :=
  match r with REQ_NONE => "NONE" | REQ_OPTIONAL => "OPTIONAL" | REQ_REQUIRED => "REQUIRED" end.

Definition kind_value (k : NeedKind) : string :=
  match k with
  | NEW_BEHAVIOR => "NEW_BEHAVIOR" | FIELD_OR_FORMAT_CHANGE => "FIELD_OR_FORMAT_CHANGE"
  | STATE_OR_RULE_CHANGE => "STATE_OR_RULE_CHANGE" | PERMISSION_CHANGE => "PERMISSION_CHANGE"
  | CODE_LOCATION_ONLY => "CODE_LOCATION_ONLY" | HISTORICAL_PRD_CONTEXT => "HISTORICAL_PRD_CONTEXT"
  | CROSS_MODULE_CHANGE => "CROSS_MODULE_CHANGE" | UNKNOWN_NEED => "UNKNOWN"
  end.

Definition source_type_value (s : SourceType) : string :=
  match s with SRC_CODE => "CODE" | SRC_HISTORICAL_PRD => "HISTORICAL_PRD" | SRC_USER_CONTEXT => "USER_CONTEXT" end.

Definition route_value (r : NeedRoute) : string :=
  match r with
  | SKIP_INVESTIGATION => "SKIP_INVESTIGATION" | EXECUTE_INVESTIGATION => "EXECUTE_INVESTIGATION" | PAUSE_FOR_HUMAN => "PAUSE_FOR_HUMAN"
  end.

Definition read_requiredness : string -> result exc Requiredness := read_enum requiredness_value [REQ_NONE; REQ_OPTIONAL; REQ_REQUIRED].
Definition read_kind : string -> result exc NeedKind :=
  read_enum kind_value [NEW_BEHAVIOR; FIELD_OR_FORMAT_CHANGE; STATE_OR_RULE_CHANGE; PERMISSION_CHANGE; CODE_LOCATION_ONLY;
    HISTORICAL_PRD_CONTEXT; CROSS_MODULE_CHANGE; UNKNOWN_NEED].
Definition read_source_type : string -> result exc SourceType :=
  read_enum source_type_value [SRC_CODE; SRC_HISTORICAL_PRD; SRC_USER_CONTEXT].
Definition read_route : string -> result exc NeedRoute :=
  read_enum route_value [SKIP_INVESTIGATION; EXECUTE_INVESTIGATION; PAUSE_FOR_HUMAN].

Record NeedPlanningContext := mkPlanningContext {
  nc_run_id : string;
  nc_task_id : string;
  nc_task_message : string;
  nc_task_version : Z;
  nc_workflow_version : string;
  nc_repository_binding_id : string;
  nc_repository_revision : string;
  nc_historical_prd_available : bool;
  nc_remaining_model_attempts : Z;
  nc_remaining_tool_calls : Z;
  nc_remaining_iterations : Z;
  nc_remaining_replans : Z;
  nc_revision_scope : option (list (string * json))
}.

Definition code_available (c : NeedPlanningContext) : bool :=
  truthy (nc_repository_binding_id c) && truthy (nc_repository_revision c).

Record PlannedNeedDraft := mkNeedDraft {
  nd_question : string;
  nd_suggested_requiredness : Requiredness;
  nd_need_kind : NeedKind;
  nd_source_types : list SourceType;
  nd_fallback : string
}.

Record CoverageRequirement := mkRequirement {
  cr_key : string;
  cr_source_type : SourceType;
  cr_description : string;
  cr_blocking : bool
}.

Record NeedBudgetAllocation := mkAllocation {
  na_max_model_attempts : Z;
  na_max_tool_calls : Z;
  na_max_iterations : Z;
  na_max_replans : Z
}.

(** [NeedBudgetAllocation.__post_init__]. *)
Definition allocation (attempts calls iterations replans : Z) : result exc NeedBudgetAllocation :=
  require (0 <=? Z.min (Z.min attempts calls) (Z.min iterations replans))%Z ;;
  Ok (mkAllocation attempts calls iterations replans).

Record InformationNeedPlan := mkNeedPlan {
  np_schema_version : string;
  np_plan_id : string;
  np_context_hash : string;
  np_question : string;
  np_need_kind : NeedKind;
  np_suggested_requiredness : Requiredness;
  np_effective_requiredness : Requiredness;
  np_requiredness_reason_code : string;
  np_source_types : list SourceType;
  np_required_coverage : list CoverageRequirement;
  np_route : NeedRoute;
  np_route_reason_code : string;
  np_fallback : string;
  np_budget_allocation : NeedBudgetAllocation;
  np_planner_version : string;
  np_policy_version : string;
  np_assumption_refs : list string
}.

(** [InformationNeedPlan.__post_init__]. *)
Definition check_need_plan (p : InformationNeedPlan) : result exc InformationNeedPlan :=
  require (String.eqb (np_schema_version p) "information-need-plan.v1") ;;
  require (negb (bool_decide (np_effective_requiredness p = REQ_NONE)) ||
           is_empty (np_source_types p) && is_empty (np_required_coverage p)) ;;
  require (negb (bool_decide (np_effective_requiredness p = REQ_NONE)) || bool_decide (np_route p = SKIP_INVESTIGATION)) ;;
  require (negb (bool_decide (np_effective_requiredness p = REQ_REQUIRED)) || existsb cr_blocking (np_required_coverage p)) ;;
  require (negb (bool_decide (np_route p = EXECUTE_INVESTIGATION)) || negb (is_empty (np_source_types p))) ;;
  require (String.prefix "need-" (np_plan_id p) && String.prefix "sha256:" (np_context_hash p)) ;;
  Ok p.

Record PlannedNeedDecision := mkDecision {
  pd_plan : InformationNeedPlan;
  pd_route : NeedRoute;
  pd_reason_code : string;
  pd_replayed : bool;
  pd_artifact_key : string;
  pd_artifact_hash : string;
  pd_artifact_request_hash : string
}.

(** [set(value) == expected]. *)
Definition fields_are (expected : list string) (m : list (string * json)) : bool :=
  forallb (fun k => bool_decide (k ∈ expected)) m.*1 && forallb (fun k => bool_decide (k ∈ m.*1)) expected.

(** A value that is an array. *)
Definition get_list (key : string) (m : list (string * json)) : option (list json) :=
  match jget key m with Some (JArr l) => Some l | _ => None end.

(** An exception of a reader, seen by the ledger. *)
Definition as_callback {A} (r : result exc A) : result lexc A :=
  match r with Ok a => Ok a | Raise e => Raise (CallbackError e) end.

Section needs.
Context `{Builtins} `{JsonLoads}.

(** [PlannedNeedDraft.__post_init__]. *)
Definition check_need_draft (d : PlannedNeedDraft) : result exc PlannedNeedDraft :=
  require (truthy (strip (nd_question d)) && (str_len (nd_question d) <=? 1000)%nat) ;;
  require (truthy (strip (nd_fallback d))) ;;
  Ok d.

Definition draft_fields : list string := ["question"; "suggested_requiredness"; "need_kind"; "source_types"; "fallback"].

(** [PlannedNeedDraft.from_mapping]; every error is a [ValueError]. *)
Definition need_draft_of (value : json) : result exc PlannedNeedDraft :=
  match value with
  | JObj m =>
      require (fields_are draft_fields m) ;;
      match get_list "source_types" m with
      | Some raw_sources =>
          question ← str_at "question" m;
          raw_requiredness ← str_at "suggested_requiredness" m;
          requiredness ← read_requiredness raw_requiredness;
          raw_kind ← str_at "need_kind" m;
          kind ← read_kind raw_kind;
          sources ← result_map (fun j => read_source_type (py_str j)) raw_sources;
          fallback ← str_at "fallback" m;
          check_need_draft (mkNeedDraft question requiredness kind sources fallback)
      | None => Raise ValueError
      end
  | _ => Raise ValueError
  end.

(** [PlannedNeedDraft.as_dict]. *)
Definition need_draft_json (d : PlannedNeedDraft) : list (string * json) :=
  [("question", JStr (nd_question d)); ("suggested_requiredness", JStr (requiredness_value (nd_suggested_requiredness d)));
   ("need_kind", JStr (kind_value (nd_need_kind d))); ("source_types", strs (map source_type_value (nd_source_types d)));
   ("fallback", JStr (nd_fallback d))].

(** ** [policies.py] *)

Definition rank (r : Requiredness) : Z := match r with REQ_NONE => 0 | REQ_OPTIONAL => 1 | REQ_REQUIRED => 2 end.

Definition descriptions : list (string * string) :=
  [("repository_structure", "相关模块和候选路径已定位"); ("api_contract", "接口字段、类型、必填、枚举或格式已确认");
   ("validation_logic", "输入或业务校验位置已确认"); ("storage_schema", "存储字段、类型、空值、默认值和约束已确认");
   ("downstream_usage", "下游读取或引用情况已确认"); ("tests", "当前行为和边界测试已确认");
   ("authorization_rule", "权限、租户和可见性规则已确认"); ("current_behavior", "当前系统行为已确认");
   ("historical_rule_found", "相关历史规则已召回"); ("source_version_identified", "历史文档版本已固定");
   ("staleness_assessed", "历史资料时效性已评估"); ("code_conflict_checked", "历史资料与当前代码事实的冲突已检查");
   ("decision_conflict_checked", "历史资料与当前目标决策的冲突已检查")].

(** [_COVERAGE_TEMPLATES.get(kind, _COVERAGE_TEMPLATES[NeedKind.UNKNOWN])]. *)
Definition coverage_template (k : NeedKind) : list string :=
  match k with
  | FIELD_OR_FORMAT_CHANGE => ["api_contract"; "validation_logic"; "storage_schema"; "tests"]
  | STATE_OR_RULE_CHANGE => ["validation_logic"; "downstream_usage"; "tests"]
  | PERMISSION_CHANGE => ["authorization_rule"; "downstream_usage"; "tests"]
  | CODE_LOCATION_ONLY => ["repository_structure"]
  | HISTORICAL_PRD_CONTEXT =>
      ["historical_rule_found"; "source_version_identified"; "staleness_assessed"; "code_conflict_checked"; "decision_conflict_checked"]
  | CROSS_MODULE_CHANGE => ["repository_structure"; "downstream_usage"; "tests"]
  | UNKNOWN_NEED | NEW_BEHAVIOR => ["repository_structure"; "current_behavior"]
  end.

Definition required_kind (k : NeedKind) : bool :=
  match k with FIELD_OR_FORMAT_CHANGE | STATE_OR_RULE_CHANGE | PERMISSION_CHANGE | CROSS_MODULE_CHANGE => true | _ => false end.

Definition mentions (markers : list string) (message : string) : bool := existsb (fun marker => str_contains marker message) markers.

Definition has_current_state_signal : string -> bool :=
  mentions ["修改"; "变更"; "字段"; "接口"; "API"; "状态"; "权限"; "校验"; "存储"; "当前"; "现有"].

Definition lower_bound (c : NeedPlanningContext) (d : PlannedNeedDraft) : Requiredness * string :=
  if required_kind (nd_need_kind d) then (REQ_REQUIRED, "POLICY_REQUIRED_CHANGE_KIND")
  else if bool_decide (nd_need_kind d = HISTORICAL_PRD_CONTEXT) then
    if mentions ["沿用"; "必须遵循"; "历史规则"] (nc_task_message c) then (REQ_REQUIRED, "POLICY_REQUIRED_HISTORICAL_RULE")
    else (REQ_OPTIONAL, "POLICY_OPTIONAL_HISTORICAL_CONTEXT")
  else if bool_decide (nd_need_kind d = CODE_LOCATION_ONLY) then (REQ_OPTIONAL, "POLICY_OPTIONAL_CODE_LOCATION")
  else if bool_decide (nd_need_kind d = UNKNOWN_NEED) && has_current_state_signal (nc_task_message c)
  then (REQ_REQUIRED, "POLICY_REQUIRED_UNKNOWN_CURRENT_CHANGE")
  else (REQ_NONE, "NONE_NOT_REQUIRED").

(** [max((suggested, lower), key=rank)]: the first of equals. *)
Definition tightened (suggested lower : Requiredness) : Requiredness :=
  if (rank suggested <? rank lower)%Z then lower else suggested.

Definition need_sources (d : PlannedNeedDraft) (effective : Requiredness) : list SourceType :=
  if bool_decide (effective = REQ_NONE) then []
  else dedup ((if bool_decide (nd_need_kind d = HISTORICAL_PRD_CONTEXT) then SRC_HISTORICAL_PRD else SRC_CODE) :: nd_source_types d).

(** [_coverage]; every key of a template has a description. *)
Definition need_coverage (k : NeedKind) (sources : list SourceType) (effective : Requiredness) : result exc (list CoverageRequirement) :=
  if bool_decide (effective = REQ_NONE) then Ok []
  else match sources with
  | [] => Raise IndexError
  | source :: _ =>
      result_map (fun key => match assoc_get key descriptions with
                             | Some text => Ok (mkRequirement key source text true)
                             | None => Raise KeyError
                             end) (coverage_template k)
  end.

Definition source_ready (c : NeedPlanningContext) (s : SourceType) : bool :=
  match s with
  | SRC_CODE => code_available c
  | SRC_HISTORICAL_PRD => nc_historical_prd_available c
  | SRC_USER_CONTEXT => true
  end.

Definition need_route (c : NeedPlanningContext) (effective : Requiredness) (sources : list SourceType) (coverage : list CoverageRequirement)
    : NeedRoute * string :=
  match effective with
  | REQ_NONE => (SKIP_INVESTIGATION, "NONE_NOT_REQUIRED")
  | REQ_REQUIRED =>
      if negb (forallb (source_ready c) sources) then (PAUSE_FOR_HUMAN, "REQUIRED_SOURCE_UNAVAILABLE")
      else if (nc_remaining_tool_calls c <? 1)%Z || (nc_remaining_iterations c <? 1)%Z then (PAUSE_FOR_HUMAN, "REQUIRED_BUDGET_UNAVAILABLE")
      else (EXECUTE_INVESTIGATION, "REQUIRED_SOURCE_AVAILABLE")
  | REQ_OPTIONAL =>
      if negb (forallb (source_ready c) sources) then (SKIP_INVESTIGATION, "OPTIONAL_SKIPPED_SOURCE_UNAVAILABLE")
      else if (nc_remaining_tool_calls c <? 1)%Z || (nc_remaining_iterations c <? 1)%Z then (SKIP_INVESTIGATION, "OPTIONAL_SKIPPED_BUDGET")
      else if is_empty coverage then (SKIP_INVESTIGATION, "OPTIONAL_SKIPPED_LOW_VALUE")
      else (EXECUTE_INVESTIGATION, "OPTIONAL_EXECUTED_VALUE")
  end.

Definition need_policy_version : string := "information-need-policy.v1".
Definition need_planner_version : string := "information-need-planner.v1".

Definition scope_json_or_null (scope : option (list (string * json))) : json := match scope with Some m => JObj m | None => JNull end.

Definition planning_context_hash (c : NeedPlanningContext) : string :=
  sha256_json (JObj [("task_id", JStr (nc_task_id c)); ("task_version", JInt (nc_task_version c)); ("task_message", JStr (nc_task_message c));
    ("workflow_version", JStr (nc_workflow_version c)); ("repository_binding_id", JStr (nc_repository_binding_id c));
    ("repository_revision", JStr (nc_repository_revision c)); ("revision_scope", scope_json_or_null (nc_revision_scope c));
    ("planner_version", JStr need_planner_version); ("policy_version", JStr need_policy_version)]).

(** [context_hash[7:31]], behind the seven characters of [sha256:]. *)
Definition plan_id_of (context_hash : string) : string := "need-" +:+ str_take 24 (str_drop_bytes 7 context_hash).

Definition need_budget (c : NeedPlanningContext) (effective : Requiredness) : result exc NeedBudgetAllocation :=
  if bool_decide (effective = REQ_NONE) then allocation 0 0 0 0
  else allocation (Z.max (nc_remaining_model_attempts c) 0) (Z.min (Z.max (nc_remaining_tool_calls c) 0) 3)
         (Z.min (Z.max (nc_remaining_iterations c) 0) 3) (Z.min (Z.max (nc_remaining_replans c) 0) 1).

(** [InformationNeedPolicy.apply]. *)
Definition apply_policy (c : NeedPlanningContext) (d : PlannedNeedDraft) : result exc PlannedNeedDecision :=
  let context_hash := planning_context_hash c in
  let '(lower, reason) := lower_bound c d in
  let suggested := nd_suggested_requiredness d in
  let effective := tightened suggested lower in
  let sources := need_sources d effective in
  coverage ← need_coverage (nd_need_kind d) sources effective;
  let '(route, route_reason) := need_route c effective sources coverage in
  budget ← need_budget c effective;
  plan ← check_need_plan
    (mkNeedPlan "information-need-plan.v1" (plan_id_of context_hash) context_hash (strip (nd_question d)) (nd_need_kind d) suggested effective
       (if (rank suggested <=? rank lower)%Z then reason else "PLANNER_TIGHTENED") sources coverage route route_reason
       (strip (nd_fallback d)) budget need_planner_version need_policy_version []);
  Ok (mkDecision plan route route_reason false EmptyString EmptyString EmptyString).

(** ** [artifact.py] *)

Definition plan_artifact_key (run_id : string) : string := run_id +:+ ":information_need:plan:1".

Definition requirement_json (r : CoverageRequirement) : json :=
  JObj [("key", JStr (cr_key r)); ("source_type", JStr (source_type_value (cr_source_type r))); ("description", JStr (cr_description r));
        ("blocking", JBool (cr_blocking r))].

Definition allocation_json (a : NeedBudgetAllocation) : list (string * json) :=
  [("max_model_attempts", JInt (na_max_model_attempts a)); ("max_tool_calls", JInt (na_max_tool_calls a));
   ("max_iterations", JInt (na_max_iterations a)); ("max_replans", JInt (na_max_replans a))].

(** [plan_as_dict]. *)
Definition need_plan_json (p : InformationNeedPlan) : list (string * json) :=
  [("schema_version", JStr (np_schema_version p)); ("plan_id", JStr (np_plan_id p)); ("context_hash", JStr (np_context_hash p));
   ("question", JStr (np_question p)); ("need_kind", JStr (kind_value (np_need_kind p)));
   ("suggested_requiredness", JStr (requiredness_value (np_suggested_requiredness p)));
   ("effective_requiredness", JStr (requiredness_value (np_effective_requiredness p)));
   ("requiredness_reason_code", JStr (np_requiredness_reason_code p)); ("source_types", strs (map source_type_value (np_source_types p)));
   ("required_coverage", JArr (map requirement_json (np_required_coverage p))); ("route", JStr (route_value (np_route p)));
   ("route_reason_code", JStr (np_route_reason_code p)); ("fallback", JStr (np_fallback p));
   ("budget_allocation", JObj (allocation_json (np_budget_allocation p))); ("planner_version", JStr (np_planner_version p));
   ("policy_version", JStr (np_policy_version p)); ("assumption_refs", strs (np_assumption_refs p))].

Definition build_plan_artifact_for_run (run_id : string) (p : InformationNeedPlan) (request_hash : string) : RunArtifact :=
  build_artifact (plan_artifact_key run_id) "INFORMATION_NEED_PLAN" request_hash "information-need-plan.v1" (JObj (need_plan_json p)).

Definition plan_fields : list string :=
  ["schema_version"; "plan_id"; "context_hash"; "question"; "need_kind"; "suggested_requiredness"; "effective_requiredness";
   "requiredness_reason_code"; "source_types"; "required_coverage"; "route"; "route_reason_code"; "fallback"; "budget_allocation";
   "planner_version"; "policy_version"; "assumption_refs"].

Definition requirement_of (item : json) : result exc CoverageRequirement :=
  match item with
  | JObj m =>
      require (fields_are ["key"; "source_type"; "description"; "blocking"] m) ;;
      blocking ← item_at "blocking" m;
      match blocking with
      | JBool b =>
          key ← str_at "key" m;
          raw_source ← str_at "source_type" m;
          source ← read_source_type raw_source;
          description ← str_at "description" m;
          Ok (mkRequirement key source description b)
      | _ => Raise ValueError
      end
  | _ => Raise ValueError
  end.

(** [int(raw_budget[key])]. *)
Definition int_at (key : string) (m : list (string * json)) : result exc Z := j ← item_at key m; py_int j.

Definition allocation_of (m : list (string * json)) : result exc NeedBudgetAllocation :=
  attempts ← int_at "max_model_attempts" m;
  calls ← int_at "max_tool_calls" m;
  iterations ← int_at "max_iterations" m;
  replans ← int_at "max_replans" m;
  allocation attempts calls iterations replans.

(** [plan_from_mapping]. *)
Definition need_plan_of (value : json) : result exc InformationNeedPlan :=
  match value with
  | JObj m =>
      require (fields_are plan_fields m) ;;
      match get_list "required_coverage" m, jget "budget_allocation" m, get_list "source_types" m, get_list "assumption_refs" m with
      | Some raw_coverage, Some (JObj raw_budget), Some raw_sources, Some raw_assumptions =>
          require (fields_are ["max_model_attempts"; "max_tool_calls"; "max_iterations"; "max_replans"] raw_budget) ;;
          coverage ← result_map requirement_of raw_coverage;
          schema ← str_at "schema_version" m;
          id ← str_at "plan_id" m;
          context ← str_at "context_hash" m;
          question ← str_at "question" m;
          raw_kind ← str_at "need_kind" m;
          kind ← read_kind raw_kind;
          raw_suggested ← str_at "suggested_requiredness" m;
          suggested ← read_requiredness raw_suggested;
          raw_effective ← str_at "effective_requiredness" m;
          effective ← read_requiredness raw_effective;
          reason ← str_at "requiredness_reason_code" m;
          sources ← result_map (fun j => read_source_type (py_str j)) raw_sources;
          raw_route ← str_at "route" m;
          route ← read_route raw_route;
          route_reason ← str_at "route_reason_code" m;
          fallback ← str_at "fallback" m;
          budget ← allocation_of raw_budget;
          planner ← str_at "planner_version" m;
          policy ← str_at "policy_version" m;
          check_need_plan (mkNeedPlan schema id context question kind suggested effective reason sources coverage route route_reason fallback
                             budget planner policy (map py_str raw_assumptions))
      | _, _, _, _ => Raise ValueError
      end
  | _ => Raise ValueError
  end.

(** [decode_plan_artifact]. *)
Definition decode_plan_artifact (a : RunArtifact) : result lexc InformationNeedPlan :=
  if negb (String.eqb (ra_artifact_type a) "INFORMATION_NEED_PLAN") then Raise (CallbackError ValueError)
  else if negb (ra_generation a =? 1)%Z then Raise (CallbackError ValueError)
  else if negb (String.eqb (bare_hash (ra_content_hash a)) (sha256_hex (ra_content a))) then Raise (CallbackError ValueError)
  else decode_outcome (ra_content a) "information-need-plan.v1" (fun v => as_callback (need_plan_of v)).

(** ** [planner.py] *)

(** [prompts.planning_payload]. *)
Definition planning_payload (c : NeedPlanningContext) : json :=
  JObj [("task_id", JStr (nc_task_id c)); ("task_version", JInt (nc_task_version c)); ("task_message", JStr (nc_task_message c));
    ("workflow_version", JStr (nc_workflow_version c)); ("repository_available", JBool (code_available c));
    ("historical_prd_available", JBool (nc_historical_prd_available c)); ("revision_scope", scope_json_or_null (nc_revision_scope c));
    ("allowed_requiredness", strs (map requiredness_value [REQ_NONE; REQ_OPTIONAL; REQ_REQUIRED]));
    ("allowed_need_kinds", strs (map kind_value [NEW_BEHAVIOR; FIELD_OR_FORMAT_CHANGE; STATE_OR_RULE_CHANGE; PERMISSION_CHANGE;
       CODE_LOCATION_ONLY; HISTORICAL_PRD_CONTEXT; CROSS_MODULE_CHANGE; UNKNOWN_NEED]));
    ("allowed_source_types", strs (map source_type_value [SRC_CODE; SRC_HISTORICAL_PRD; SRC_USER_CONTEXT]))].

Definition plan_request_hash (c : NeedPlanningContext) : string :=
  sha256_json (JObj [("planning_payload", planning_payload c); ("prompt_version", JStr "information-need-planner.v1");
                     ("policy_version", JStr need_policy_version)]).

(** The beginning of [plan]: the decision of an artifact that is there already. *)
Definition replay_plan (resume_artifacts : list RunArtifact) (c : NeedPlanningContext) : result lexc (option PlannedNeedDecision) :=
  match List.find (fun a => String.eqb (ra_artifact_key a) (plan_artifact_key (nc_run_id c))) resume_artifacts with
  | None => Ok None
  | Some existing =>
      if negb (String.eqb (ra_request_hash existing) (plan_request_hash c)) then Raise (CallbackError ValueError)
      else match decode_plan_artifact existing with
      | Raise e => Raise e
      | Ok plan =>
          if negb (String.eqb (np_context_hash plan) (planning_context_hash c)) then Raise (CallbackError ValueError)
          else Ok (Some (mkDecision plan (np_route plan) (np_route_reason_code plan) true (ra_artifact_key existing) (ra_content_hash existing)
                           (ra_request_hash existing)))
      end
  end.

(** [replace(context, remaining_...)]. *)
Definition with_remaining (c : NeedPlanningContext) (r : BudgetVector) : NeedPlanningContext :=
  mkPlanningContext (nc_run_id c) (nc_task_id c) (nc_task_message c) (nc_task_version c) (nc_workflow_version c) (nc_repository_binding_id c)
    (nc_repository_revision c) (nc_historical_prd_available c) (field MODEL_ATTEMPTS r) (field TOOL_CALLS r) (field ITERATIONS r)
    (field REPLANS r) (nc_revision_scope c).

(** The end of [plan], from the answer of the model on. *)
Definition settle_plan `{LedgerEnv} (c : NeedPlanningContext) (output : string) (replayed : bool) : LM PlannedNeedDecision :=
  match json_loads output with
  | None => raise (CallbackError ValueError)
  | Some raw =>
      draft ← liftR (as_callback (need_draft_of raw));
      remaining ← ledger_remaining;
      decision ← liftR (as_callback (apply_policy (with_remaining c remaining) draft));
      let artifact := build_plan_artifact_for_run (nc_run_id c) (pd_plan decision) (plan_request_hash c) in
      sink_artifact artifact ;;
      mret (mkDecision (pd_plan decision) (pd_route decision) (pd_reason_code decision) replayed (ra_artifact_key artifact)
              (ra_content_hash artifact) (ra_request_hash artifact))
  end.

(** ** [investigation/supplement.py] *)

Record SupplementNeedPlan := mkSupplement {
  sp_schema_version : string;
  sp_plan_id : string;
  sp_context_hash : string;
  sp_parent_plan_id : string;
  sp_grounding_report_fingerprint : string;
  sp_claim_ids : list string;
  sp_question : string;
  sp_required_coverage : list string;
  sp_source_types : list SourceType;
  sp_budget_allocation : NeedBudgetAllocation
}.

Definition subset_of {A} `{EqDecision A} (l parent : list A) : bool := forallb (fun x => bool_decide (x ∈ parent)) l.

(** [SupplementNeedFactory.build]. *)
Definition build_supplement (parent_plan_id fingerprint : string) (claim_ids : list string) (question : string)
    (requested_coverage parent_coverage : list string) (requested_sources parent_sources : list SourceType)
    (remaining : NeedBudgetAllocation) : result exc SupplementNeedPlan :=
  let claims := sorted_ids (dedup claim_ids) in
  let coverage := dedup requested_coverage in
  let sources := dedup requested_sources in
  require (truthy parent_plan_id && negb (is_empty claims) && truthy (strip question) && negb (is_empty coverage)) ;;
  require (subset_of coverage parent_coverage) ;;
  require (subset_of sources parent_sources) ;;
  let calls := Z.min (na_max_tool_calls remaining) 1 in
  let iterations := Z.min (na_max_iterations remaining) 1 in
  let context_hash := sha256_json (JObj
    [("parent_plan_id", JStr parent_plan_id); ("grounding_report_fingerprint", JStr fingerprint); ("claim_ids", strs claims);
     ("question", JStr (strip question)); ("required_coverage", strs coverage); ("source_types", strs (map source_type_value sources));
     ("budget", JObj (allocation_json (mkAllocation (na_max_model_attempts remaining) calls iterations 0)));
     ("policy_version", JStr "supplement-need-policy.v1")]) in
  budget ← allocation (na_max_model_attempts remaining) calls iterations 0;
  Ok (mkSupplement "supplement-need-plan.v1" ("need-supplement-" +:+ str_take 20 (bare_hash context_hash)) context_hash parent_plan_id
        fingerprint claims (strip question) coverage sources budget).
End needs.

(** ** The policy *)

Section facts.
Context `{Builtins} `{JsonLoads}.

(** An investigation of these sources can be made now. *)
Definition usable (c : NeedPlanningContext) (sources : list SourceType) : Prop :=
  Forall (fun s => source_ready c s = true) sources /\ (1 <= nc_remaining_tool_calls c)%Z /\ (1 <= nc_remaining_iterations c)%Z.

Definition primary_source (k : NeedKind) : SourceType := if bool_decide (k = HISTORICAL_PRD_CONTEXT) then SRC_HISTORICAL_PRD else SRC_CODE.

Lemma need_coverage_spec k source sources effective : effective <> REQ_NONE ->
  exists l, need_coverage k (source :: sources) effective = Ok l /\ map cr_key l = coverage_template k /\ l <> [] /\
  Forall (fun r => cr_blocking r = true /\ cr_source_type r = source) l.
Proof.
  intros He. unfold need_coverage. rewrite bool_decide_false by done.
  destruct k; (eexists; split; [cbn; reflexivity|]; split_and!; [reflexivity|done|by repeat constructor]).
Qed.

Lemma need_sources_cons d effective : effective <> REQ_NONE -> exists sources, need_sources d effective = primary_source (nd_need_kind d) :: sources.
Proof. intros He. unfold need_sources. rewrite bool_decide_false by done. cbn. eauto. Qed.

Lemma usable_dec c sources :
  negb (forallb (source_ready c) sources) || ((nc_remaining_tool_calls c <? 1)%Z || (nc_remaining_iterations c <? 1)%Z) = false <-> usable c sources.
Proof.
  unfold usable. rewrite !orb_false_iff, negb_false_iff, !Z.ltb_ge, forallb_forall, Forall_forall.
  split; intros (H1 & H2 & H3); split_and!; try lia; intros s Hs; apply H1; by apply list_elem_of_In.
Qed.

(** The route by itself. *)
Lemma need_route_spec c effective sources coverage : coverage <> [] ->
  let route := (need_route c effective sources coverage).1 in
  (route = EXECUTE_INVESTIGATION <-> effective <> REQ_NONE /\ usable c sources) /\
  (route = PAUSE_FOR_HUMAN <-> effective = REQ_REQUIRED /\ ~ usable c sources).
Proof.
  intros Hc. cbn zeta. rewrite <- usable_dec. unfold need_route. destruct (negb (forallb (source_ready c) sources)).
  - destruct effective; cbn; split; split; naive_solver.
  - destruct ((nc_remaining_tool_calls c <? 1)%Z || (nc_remaining_iterations c <? 1)%Z); [destruct effective; cbn; split; split; naive_solver|].
    destruct coverage; [done|]. destruct effective; cbn; split; split; naive_solver.
Qed.

Lemma need_budget_spec c effective : exists b, need_budget c effective = Ok b /\
  (0 <= na_max_tool_calls b <= 3)%Z /\ (0 <= na_max_iterations b <= 3)%Z /\ (0 <= na_max_replans b <= 1)%Z /\
  (effective = REQ_NONE -> b = mkAllocation 0 0 0 0) /\
  (effective <> REQ_NONE -> (na_max_tool_calls b <= Z.max (nc_remaining_tool_calls c) 0)%Z /\
    ((1 <= nc_remaining_tool_calls c)%Z -> (1 <= na_max_tool_calls b)%Z) /\ ((1 <= nc_remaining_iterations c)%Z -> (1 <= na_max_iterations b)%Z)).
Proof.
  unfold need_budget, allocation. case_bool_decide as He.
  - eexists. split; [reflexivity|]. cbn. split_and!; try lia; done.
  - rewrite (proj2 (Z.leb_le 0 _)) by lia. eexists. split; [reflexivity|]. cbn. split_and!; try lia; done.
Qed.

Lemma tightened_rank suggested lower : rank (tightened suggested lower) = Z.max (rank suggested) (rank lower).
Proof. by destruct suggested, lower. Qed.

Lemma context_hash_prefix c : String.prefix "sha256:" (planning_context_hash c) = true.
Proof. unfold planning_context_hash, sha256_json. cbn. by destruct (sha256_hex _). Qed.

Lemma plan_id_prefix h : String.prefix "need-" (plan_id_of h) = true.
Proof. unfold plan_id_of. cbn. by destruct (str_take _ _). Qed.

Lemma check_need_plan_Ok p :
  np_schema_version p = "information-need-plan.v1" ->
  (np_effective_requiredness p = REQ_NONE -> np_source_types p = [] /\ np_required_coverage p = [] /\ np_route p = SKIP_INVESTIGATION) ->
  (np_effective_requiredness p = REQ_REQUIRED -> existsb cr_blocking (np_required_coverage p) = true) ->
  (np_route p = EXECUTE_INVESTIGATION -> np_source_types p <> []) ->
  String.prefix "need-" (np_plan_id p) = true -> String.prefix "sha256:" (np_context_hash p) = true -> check_need_plan p = Ok p.
Proof.
  intros Hs H1 H2 H3 Hi Hh. unfold check_need_plan. rewrite Hs, Hi, Hh. destruct (np_effective_requiredness p); cbn.
  - destruct H1 as (-> & -> & ->); done.
  - destruct (np_route p); cbn; try done. destruct (np_source_types p); [by destruct H3|done].
  - rewrite H2 by done. destruct (np_route p); cbn; try done. destruct (np_source_types p); [by destruct H3|done].
Qed.

(** The plan of a decision. *)
Ltac take_plan := match goal with |- exists p, Ok (mkDecision ?q _ _ _ _ _ _) = _ /\ _ => exists q; split; [reflexivity|]; cbn end.

(** C23: how the policy decides.  For every context and every draft of the model
    the policy returns a plan.  It is as strict as the model suggests and as the
    policy demands, whichever is stricter; unless nothing is needed it asks for
    the primary source of the kind of change with every source of the draft and
    for all coverage of that kind.  The investigation is executed exactly when
    something is needed, all sources are available and the budget has a call and
    a round left; otherwise a required need pauses the run and is never skipped. *)
Theorem need_policy_exact (c : NeedPlanningContext) (d : PlannedNeedDraft) :
  exists p, apply_policy c d = Ok (mkDecision p (np_route p) (np_route_reason_code p) false EmptyString EmptyString EmptyString) /\
  rank (np_effective_requiredness p) = Z.max (rank (nd_suggested_requiredness d)) (rank (lower_bound c d).1) /\
  (np_effective_requiredness p = REQ_NONE -> np_source_types p = [] /\ np_required_coverage p = [] /\ np_budget_allocation p = mkAllocation 0 0 0 0) /\
  (np_effective_requiredness p <> REQ_NONE ->
    (forall s, s ∈ np_source_types p <-> s = primary_source (nd_need_kind d) \/ s ∈ nd_source_types d) /\
    map cr_key (np_required_coverage p) = coverage_template (nd_need_kind d)) /\
  (np_route p = EXECUTE_INVESTIGATION <-> np_effective_requiredness p <> REQ_NONE /\ usable c (np_source_types p)) /\
  (np_route p = PAUSE_FOR_HUMAN <-> np_effective_requiredness p = REQ_REQUIRED /\ ~ usable c (np_source_types p)) /\
  (np_route p = EXECUTE_INVESTIGATION ->
    (1 <= na_max_tool_calls (np_budget_allocation p) <= 3)%Z /\ (1 <= na_max_iterations (np_budget_allocation p) <= 3)%Z /\
    (na_max_tool_calls (np_budget_allocation p) <= nc_remaining_tool_calls c)%Z).
Proof.
  unfold apply_policy. destruct (lower_bound c d) as [lower reason] eqn:El. set (effective := tightened (nd_suggested_requiredness d) lower).
  destruct (need_budget_spec c effective) as (b & Eb & B1 & B2 & B3 & B4 & B5).
  destruct (decide (effective = REQ_NONE)) as [En|En].
  - assert (Es : need_sources d effective = []) by (unfold need_sources; by rewrite bool_decide_true).
    assert (Ec : need_coverage (nd_need_kind d) (need_sources d effective) effective = Ok []) by (unfold need_coverage; by rewrite bool_decide_true).
    rewrite Ec. cbn [mbind result_mbind result_bind]. rewrite Es.
    assert (Er : need_route c effective [] [] = (SKIP_INVESTIGATION, "NONE_NOT_REQUIRED")) by (by rewrite En). rewrite Er, Eb. cbn [mbind result_mbind result_bind].
    rewrite check_need_plan_Ok by (cbn; rewrite ?En; done || apply plan_id_prefix || apply context_hash_prefix). cbn. take_plan.
    unfold effective at 1. rewrite tightened_rank. split_and!; try done; [intros _; split_and!; auto|split; naive_solver|].
    rewrite En. split; naive_solver.
  - destruct (need_sources_cons d effective En) as [rest Es].
    destruct (need_coverage_spec (nd_need_kind d) (primary_source (nd_need_kind d)) rest effective En) as (l & Ec & Ek & Ene & Hl).
    rewrite Es, Ec. cbn [mbind result_mbind result_bind].
    destruct (need_route c effective (primary_source (nd_need_kind d) :: rest) l) as [route why] eqn:Er. rewrite Eb. cbn [mbind result_mbind result_bind].
    pose proof (need_route_spec c effective (primary_source (nd_need_kind d) :: rest) l Ene) as [R1 R2]. rewrite Er in R1, R2. cbn [fst] in R1, R2.
    assert (Hblock : existsb cr_blocking l = true).
    { destruct l as [|r l]; [done|]. apply Forall_cons in Hl as [[Hb _] _]. cbn. by rewrite Hb. }
    rewrite check_need_plan_Ok by (cbn; rewrite ?En; done || apply plan_id_prefix || apply context_hash_prefix). cbn. take_plan. unfold effective at 1.
    rewrite tightened_rank. split_and!; try done.
    + intros _. split; [|done]. intros s. rewrite <- Es. unfold need_sources. rewrite bool_decide_false by done.
      rewrite dedup_elem, elem_of_cons. done.
    + intros Hx. apply R1 in Hx as [_ (_ & U1 & U2)]. destruct (B5 En) as (B6 & B7 & B8). specialize (B7 U1). specialize (B8 U2). lia.
Qed.

(** ** Plans read back *)

Lemma fields_are_iff expected m : fields_are expected m = true <-> forall k, k ∈ m.*1 <-> k ∈ expected.
Proof.
  unfold fields_are. rewrite andb_true_iff, !forallb_forall. setoid_rewrite <- list_elem_of_In. setoid_rewrite bool_decide_eq_true. split.
  - intros [H1 H2] k. split; auto.
  - intros Hk. split; intros k; apply Hk.
Qed.

Lemma canon_members_keys m : (canon_members m).*1 ≡ₚ m.*1.
Proof. unfold canon_members. rewrite sort_by_perm, <- list_fmap_compose. by apply reflexive_eq, list_fmap_ext. Qed.

Lemma fields_are_canon m expected : fields_are expected m = true -> fields_are expected (canon_members m) = true.
Proof. rewrite !fields_are_iff. intros Hm k. by rewrite canon_members_keys. Qed.

Lemma get_list_canon key m l : NoDup m.*1 -> jget key m = Some (JArr l) -> get_list key (canon_members m) = Some (map canon l).
Proof. intros Hnd E. unfold get_list. by rewrite jget_canon_members, E. Qed.

Lemma int_at_canon key m z : NoDup m.*1 -> jget key m = Some (JInt z) -> int_at key (canon_members m) = Ok z.
Proof. intros Hnd E. unfold int_at. by rewrite (item_at_canon key m (JInt z)). Qed.

Ltac literal := (refine (bool_decide_unpack _ _); vm_compute; exact I) || reflexivity.

Ltac next_field :=
  first [rewrite fields_are_canon by reflexivity | erewrite str_at_canon by literal | erewrite int_at_canon by literal
        | erewrite item_at_canon by literal]; cbn [require mbind result_mbind result_bind].

Lemma requirement_reads r : requirement_of (canon (requirement_json r)) = Ok r.
Proof.
  change (canon (requirement_json r)) with (JObj (canon_members (members (requirement_json r)))). unfold requirement_of. repeat next_field.
  assert (E : read_source_type (source_type_value (cr_source_type r)) = Ok (cr_source_type r)) by (by destruct (cr_source_type r)).
  cbn [canon]. rewrite E. by destruct r.
Qed.

Lemma kind_reads k : read_kind (kind_value k) = Ok k.
Proof. by destruct k. Qed.

Lemma requiredness_reads r : read_requiredness (requiredness_value r) = Ok r.
Proof. by destruct r. Qed.

Lemma route_reads r : read_route (route_value r) = Ok r.
Proof. by destruct r. Qed.

Lemma sources_read l : result_map (fun j => read_source_type (py_str j)) (map canon (map JStr (map source_type_value l))) = Ok l.
Proof. induction l as [|s l IH]; [done|]. cbn [map canon result_map py_str]. rewrite IH. by destruct s. Qed.

Lemma requirements_read l : result_map requirement_of (map canon (map requirement_json l)) = Ok l.
Proof. induction l as [|r l IH]; [done|]. cbn [map result_map]. by rewrite requirement_reads, IH. Qed.

Lemma texts_read l : map py_str (map canon (map JStr l)) = l.
Proof. rewrite !map_map. cbn. apply map_id. Qed.

(** A budget that was accepted is accepted again. *)
Definition allocated (a : NeedBudgetAllocation) : Prop :=
  allocation (na_max_model_attempts a) (na_max_tool_calls a) (na_max_iterations a) (na_max_replans a) = Ok a.

Lemma allocation_reads a : allocated a -> allocation_of (canon_members (allocation_json a)) = Ok a.
Proof. intros Ha. unfold allocation_of. repeat next_field. exact Ha. Qed.

Lemma need_plan_reads p :
  allocated (np_budget_allocation p) -> check_need_plan p = Ok p -> need_plan_of (canon (JObj (need_plan_json p))) = Ok p.
Proof.
  intros Ha Hp. change (canon (JObj (need_plan_json p))) with (JObj (canon_members (need_plan_json p))). unfold need_plan_of. next_field.
  assert (Hnd : NoDup (need_plan_json p).*1) by literal.
  assert (Eb : jget "budget_allocation" (canon_members (need_plan_json p)) = Some (JObj (canon_members (allocation_json (np_budget_allocation p)))))
    by (by rewrite jget_canon_members).
  rewrite (get_list_canon "required_coverage" _ _ Hnd eq_refl), (get_list_canon "source_types" _ _ Hnd eq_refl),
    (get_list_canon "assumption_refs" _ _ Hnd eq_refl), Eb. cbn beta match. repeat next_field.
  rewrite requirements_read, kind_reads, !requiredness_reads, sources_read, route_reads, allocation_reads by done.
  cbn [mbind result_mbind result_bind]. rewrite texts_read. by destruct p.
Qed.

Lemma decode_built_plan `{!ReadsCanonical} run_id p hash :
  allocated (np_budget_allocation p) -> check_need_plan p = Ok p -> drop_prefix "sha256:" (sha256_hex (ra_content (build_plan_artifact_for_run run_id p hash))) = None ->
  decode_plan_artifact (build_plan_artifact_for_run run_id p hash) = Ok p.
Proof.
  intros Ha Hp Hh. unfold decode_plan_artifact.
  change (ra_content_hash (build_plan_artifact_for_run run_id p hash)) with (sha256_hex (ra_content (build_plan_artifact_for_run run_id p hash))).
  unfold bare_hash. rewrite Hh. cbn [default]. rewrite String.eqb_refl.
  cbn [build_plan_artifact_for_run build_artifact ra_artifact_type ra_generation ra_content]. rewrite !String.eqb_refl. cbn [negb Z.eqb].
  rewrite decode_encoded_outcome; [by rewrite need_plan_reads|]. cbn [floatless need_plan_json forallb snd].
  assert (Hs : forall l, forallb floatless (map JStr l) = true) by (intros l; apply forallb_forall; by intros j (s & <- & _)%in_map_iff).
  unfold strs. cbn [floatless]. rewrite !Hs. cbn. rewrite andb_true_r. apply forallb_forall. by intros j (r & <- & _)%in_map_iff.
Qed.

(** ** A planner that is started again *)

Lemma check_need_plan_same p q : check_need_plan p = Ok q -> q = p.
Proof.
  unfold check_need_plan. do 6 (match goal with |- mbind _ ?r = _ -> _ => destruct r as [[]|] end; [cbn [mbind result_mbind result_bind]|done]).
  congruence.
Qed.

Lemma need_budget_allocated c effective b : need_budget c effective = Ok b -> allocated b.
Proof.
  unfold need_budget, allocated, allocation, require. case_bool_decide; [by intros [= <-]|].
  destruct (0 <=? _)%Z eqn:E; [|done]. cbn [mbind result_mbind result_bind]. intros [= <-].
  cbn [na_max_model_attempts na_max_tool_calls na_max_iterations na_max_replans]. by rewrite E.
Qed.

Lemma apply_policy_Ok c d decision : apply_policy c d = Ok decision ->
  let p := pd_plan decision in
  check_need_plan p = Ok p /\ allocated (np_budget_allocation p) /\ np_context_hash p = planning_context_hash c /\
  pd_route decision = np_route p /\ pd_reason_code decision = np_route_reason_code p.
Proof.
  unfold apply_policy. destruct (lower_bound c d) as [lower reason]. destruct (need_coverage _ _ _) as [coverage|]; [|done].
  cbn [mbind result_mbind result_bind]. destruct (need_route _ _ _ _) as [route why]. destruct (need_budget _ _) as [b|] eqn:Eb; [|done].
  cbn [mbind result_mbind result_bind]. destruct (check_need_plan _) as [p|] eqn:Ep; [|done]. cbn [mbind result_mbind result_bind].
  intros [= <-]. cbn. pose proof (check_need_plan_same _ _ Ep) as Esame. rewrite <- Esame in Ep. rewrite Ep, Esame. cbn.
  by apply need_budget_allocated in Eb.
Qed.

(** An artifact of a well-formed store is found by its key. *)
Lemma find_artifact d k a : durable_ok d -> d_artifacts d !! k = Some a ->
  List.find (fun x => String.eqb (ra_artifact_key x) k) (values (d_artifacts d)) = Some a.
Proof.
  intros (_ & Hok & _ & Hart) Ha. destruct (Hart k a Ha) as [Hk _].
  destruct (List.find _ _) as [x|] eqn:E.
  - apply List.find_some in E as [Hx Ek%String.eqb_eq]. apply list_elem_of_In in Hx. apply dict_values_lookup in Hx as [k' Hx]; [|done].
    destruct (Hart k' x Hx) as [Hk' _]. f_equal. rewrite Ek in Hk'. subst k'. congruence.
  - apply dict_lookup_values in Ha. apply list_elem_of_In in Ha. apply (List.find_none _ _ E) in Ha. cbn in Ha.
    by rewrite Hk, String.eqb_refl in Ha.
Qed.

(** C34: a planner that is started again takes the same decision.  Once the
    planner has recorded its plan, a planner of a worker that is started later on
    the run, whatever was recorded in between and whatever budget is left by then,
    returns the same plan, route and reason without asking the model. *)
Theorem need_plan_replayed `{!ReadsCanonical} `{LedgerEnv} (c : NeedPlanningContext) (output : string) (replayed : bool) (w w' : lworld)
    (decision : PlannedNeedDecision) (later : durable) (remaining : BudgetVector) :
  (forall s, drop_prefix "sha256:" (sha256_hex s) = None) ->
  d_artifacts (lw_durable w) !! plan_artifact_key (nc_run_id c) = None ->
  settle_plan c output replayed w = (w', Ok decision) ->
  evolves (lw_durable w') later -> durable_ok later ->
  replay_plan (values (d_artifacts later)) (with_remaining c remaining) =
    Ok (Some (mkDecision (pd_plan decision) (pd_route decision) (pd_reason_code decision) true (pd_artifact_key decision)
                (pd_artifact_hash decision) (pd_artifact_request_hash decision))).
Proof.
  intros Hhex Hnone E [_ Hev] Hok. unfold settle_plan in E. destruct (json_loads output) as [raw|]; [|done].
  apply M_bind_inv in E as [(w1 & draft & [= <- _] & E)|(e & _ & ?)]; [|done].
  apply M_bind_inv in E as [(w2 & left & [= <- _] & E)|(e & _ & ?)]; [|done].
  apply M_bind_inv in E as [(w3 & d & [= <- Ed] & E)|(e & _ & ?)]; [|done].
  apply M_bind_inv in E as [(w4 & [] & Es & [= <- <-])|(e & _ & ?)]; [|done]. cbn [pd_plan pd_route pd_reason_code pd_artifact_key pd_artifact_hash pd_artifact_request_hash].
  assert (Ed' : apply_policy (with_remaining c left) draft = Ok d) by (destruct (apply_policy _ _); cbn in Ed; congruence).
  apply apply_policy_Ok in Ed' as (Hc & Hb & Hh & -> & ->).
  set (artifact := build_plan_artifact_for_run (nc_run_id c) (pd_plan d) (plan_request_hash c)) in *.
  assert (Hstored : d_artifacts (lw_durable w4) !! plan_artifact_key (nc_run_id c) = Some artifact).
  { unfold sink_artifact, send in Es. destruct (sink_fault _); [|done|by destruct (durable_artifact _ _)].
    destruct (durable_artifact artifact (lw_durable w)) as [d1|] eqn:Ea; [|done]. injection Es as <-. cbn [lw_durable].
    unfold durable_artifact in Ea. cbn [artifact build_plan_artifact_for_run build_artifact ra_content_hash ra_content ra_artifact_key] in Ea.
    rewrite String.eqb_refl, andb_false_r, Hnone in Ea. injection Ea as <-. cbn [d_artifacts]. apply dict_lookup_insert_eq. }
  unfold replay_plan. cbn [with_remaining nc_run_id]. rewrite (find_artifact later _ artifact Hok (Hev _ _ Hstored)).
  change (ra_request_hash artifact) with (plan_request_hash c). change (plan_request_hash (with_remaining c remaining)) with (plan_request_hash c).
  rewrite String.eqb_refl. cbn [negb]. 
  assert (Edec : decode_plan_artifact artifact = Ok (pd_plan d)) by (apply decode_built_plan; auto). rewrite Edec, Hh.
  change (planning_context_hash (with_remaining c left)) with (planning_context_hash c).
  change (planning_context_hash (with_remaining c remaining)) with (planning_context_hash c). by rewrite String.eqb_refl.
Qed.

(** ** Supplements *)

Lemma is_empty_dedup {A} `{EqDecision A} (l : list A) : is_empty (dedup l) = is_empty l.
Proof. by destruct l. Qed.

Lemma is_empty_sorted l : is_empty (sorted_ids l) = is_empty l.
Proof.
  assert (Hp : sorted_ids l ≡ₚ l) by apply sort_by_perm. destruct l as [|x l]; [by apply Permutation_nil_r in Hp as ->|].
  destruct (sorted_ids (x :: l)); [by apply Permutation_nil_l in Hp|done].
Qed.

Lemma complete_iff parent claims question (requested : list string) :
  truthy parent && negb (is_empty (sorted_ids (dedup claims))) && truthy (strip question) && negb (is_empty (dedup requested)) = true <->
  parent <> EmptyString /\ claims <> [] /\ strip question <> EmptyString /\ requested <> [].
Proof.
  rewrite is_empty_sorted, !is_empty_dedup. destruct parent, claims, (strip question), requested; cbn; naive_solver.
Qed.

Lemma subset_of_dedup {A} `{EqDecision A} (l parent : list A) : subset_of (dedup l) parent = true <-> forall x, x ∈ l -> x ∈ parent.
Proof.
  unfold subset_of. rewrite forallb_forall. setoid_rewrite <- list_elem_of_In. setoid_rewrite bool_decide_eq_true. by setoid_rewrite dedup_elem.
Qed.

(** A supplement stays within its parent.  The factory refuses with a
    [ValueError] or returns a plan that asks only for coverage and sources of the
    parent plan, each once, for the distinct claims it was given in order, with at
    most one call and one round out of what is left and no replan; it is returned
    whenever the request is complete, within the parent and the budget is not
    negative. *)
Theorem supplement_within_parent (parent fingerprint : string) (claims : list string) (question : string) (requested coverage : list string)
    (wanted sources : list SourceType) (left : NeedBudgetAllocation) :
  let complete := parent <> EmptyString /\ claims <> [] /\ strip question <> EmptyString /\ requested <> [] in
  let within := (forall k, k ∈ requested -> k ∈ coverage) /\ (forall s, s ∈ wanted -> s ∈ sources) in
  let budgeted := (0 <= na_max_model_attempts left)%Z /\ (0 <= na_max_tool_calls left)%Z /\ (0 <= na_max_iterations left)%Z in
  match build_supplement parent fingerprint claims question requested coverage wanted sources left with
  | Raise e => e = ValueError /\ ~ (complete /\ within /\ budgeted)
  | Ok p => complete /\ within /\ budgeted /\ sp_parent_plan_id p = parent /\
      (forall k, k ∈ sp_required_coverage p <-> k ∈ requested) /\ NoDup (sp_required_coverage p) /\
      (forall s, s ∈ sp_source_types p <-> s ∈ wanted) /\ (forall x, x ∈ sp_claim_ids p <-> x ∈ claims) /\ NoDup (sp_claim_ids p) /\
      (na_max_tool_calls (sp_budget_allocation p) <= Z.min 1 (na_max_tool_calls left))%Z /\
      (na_max_iterations (sp_budget_allocation p) <= Z.min 1 (na_max_iterations left))%Z /\ na_max_replans (sp_budget_allocation p) = 0%Z
  end.
Proof.
  cbn zeta. unfold build_supplement, require.
  destruct (truthy parent && negb (is_empty (sorted_ids (dedup claims))) && truthy (strip question) && negb (is_empty (dedup requested))) eqn:E1;
    cbn [mbind result_mbind result_bind]; [apply complete_iff in E1|split; [done|]; intros [Hc _]; apply complete_iff in Hc; congruence].
  destruct (subset_of (dedup requested) coverage) eqn:E2; cbn [mbind result_mbind result_bind];
    [rewrite subset_of_dedup in E2|split; [done|]; intros (_ & [Hw _] & _); rewrite <- subset_of_dedup in Hw; congruence].
  destruct (subset_of (dedup wanted) sources) eqn:E3; cbn [mbind result_mbind result_bind];
    [rewrite subset_of_dedup in E3|split; [done|]; intros (_ & [_ Hw] & _); rewrite <- subset_of_dedup in Hw; congruence].
  unfold allocation, require. destruct (Z.leb_spec 0 (Z.min (Z.min (na_max_model_attempts left) (Z.min (na_max_tool_calls left) 1))
    (Z.min (Z.min (na_max_iterations left) 1) 0))); cbn; [|split; [done|lia]].
  split_and!; try done; try lia; try apply E1; try (intros x; apply dedup_elem); try apply dedup_NoDup.
  - intros x. unfold sorted_ids. by rewrite elem_of_sort_by, dedup_elem.
  - unfold sorted_ids. rewrite sort_by_perm. apply dedup_NoDup.
Qed.
End facts.

(** ** A concrete plan *)

Section demo.
#[local] Instance need_builtins : Builtins :=
  {| repr_container := @repr_container example_builtins; int_of_str := @int_of_str example_builtins;
     lower := str_lower; sha256_hex := fun s => "h" +:+ s |}.
#[local] Existing Instance knowledge_loads.
#[local] Existing Instance knowledge_reads_canonical.
#[local] Instance need_ledger_env : LedgerEnv := {| sink_fault := fun _ => NoFault; ledger_run_id := "run" |}.

Definition demo_context : NeedPlanningContext :=
  mkPlanningContext "run" "task" "add a field" 1 "v1" "repo" "c1" false 0 0 0 0 None.

Definition demo_draft : PlannedNeedDraft := mkNeedDraft "which fields" REQ_OPTIONAL FIELD_OR_FORMAT_CHANGE [SRC_USER_CONTEXT] "ask".

Definition demo_output : string := canonical_json (JObj (need_draft_json demo_draft)).

Definition demo_world : lworld :=
  mkLWorld (mkDurable ∅ ∅ [] no_budget) 0 [] (mkLState ∅ ∅ (mkBudgetState (mkRunBudget (fun _ => 9%Z)) no_budget no_budget)).

Definition settled : lworld * result lexc PlannedNeedDecision := settle_plan demo_context demo_output false demo_world.

Definition demo_decision : PlannedNeedDecision :=
  match settled.2 with
  | Ok d => d
  | Raise _ => mkDecision (mkNeedPlan EmptyString EmptyString EmptyString EmptyString UNKNOWN_NEED REQ_NONE REQ_NONE EmptyString [] []
                 SKIP_INVESTIGATION EmptyString EmptyString (mkAllocation 0 0 0 0) EmptyString EmptyString []) SKIP_INVESTIGATION EmptyString false
                 EmptyString EmptyString EmptyString
  end.

Example demo_executes : pd_route demo_decision = EXECUTE_INVESTIGATION /\ np_effective_requiredness (pd_plan demo_decision) = REQ_REQUIRED.
Proof. vm_compute. done. Qed.

Lemma settled_durable_ok : durable_ok (lw_durable settled.1).
Proof.
  assert (E : exists a, lw_durable settled.1 = mkDurable ∅ (<[ra_artifact_key a := a]> ∅) [] no_budget /\ ra_content_hash a = sha256_hex (ra_content a))
    
    by (exists (build_plan_artifact_for_run "run" (pd_plan demo_decision) (plan_request_hash demo_context)); split; vm_compute; reflexivity).
  destruct E as (a & -> & Ha). split_and!; cbn [d_entries d_artifacts].
  - apply dict_ok_empty.
  - apply dict_ok_insert, dict_ok_empty.
  - intros k e. by rewrite dict_lookup_empty.
  - intros k x. rewrite dict_lookup_insert, dict_lookup_empty. case_decide; [|done]. by intros [= <-].
Qed.

Lemma need_plan_replayed_witness :
  replay_plan (values (d_artifacts (lw_durable settled.1))) (with_remaining demo_context no_budget) =
    Ok (Some (mkDecision (pd_plan demo_decision) (pd_route demo_decision) (pd_reason_code demo_decision) true (pd_artifact_key demo_decision)
                (pd_artifact_hash demo_decision) (pd_artifact_request_hash demo_decision))).
Proof.
  assert (E : settle_plan demo_context demo_output false demo_world = (settled.1, Ok demo_decision)) by (vm_compute; reflexivity).
  assert (Hhex : forall s, drop_prefix "sha256:" (sha256_hex s) = None) by (intros s; reflexivity).
  refine (need_plan_replayed demo_context demo_output false demo_world settled.1 demo_decision (lw_durable settled.1) no_budget Hhex eq_refl E _
            settled_durable_ok).
  split; [|intros k a Ha; exact Ha]. intros k e He. exists e. split; [exact He|]. split_and!; [reflexivity|intros Hb; exact Hb|intros _; reflexivity].
Defined.
End demo.
