(* ===== verification/ModelExecution.v ===== *)
(** * Model calls of the worker

    [agent/project_memory/policy.py], [models.py], [module.py] and [artifact.py],
    [agent/model_execution/intent.py] and [module.py], and the whole of
    [agent/information_need/planner.py].  A model call recalls project memory,
    prepares a context pack and is then made through the ledger; all of it is
    work on the ledger of the run, so that what holds of ledger programs holds of
    model calls: they are made once, within the budget, and replayed.  The model,
    the memory gateway and the cancellation check are parameters. *)
From stdpp Require Import base list sets strings pretty.
From Stdlib Require Import ZArith NArith Lia.
From S2P Require Import Prelude.
From S2P Require Import PyDict.
From S2P Require Import PyText.
From S2P Require Import Json.
From S2P Require Import CanonicalJson.
From S2P Require Import CodePoints.
From S2P Require Import Ledger.
From S2P Require Import LedgerInv.
From S2P Require Import LedgerFacts.
From S2P Require Import ContextPack.
From S2P Require Import ContextPackFacts.
From S2P Require Import UnitModels.
From S2P Require Import Draft.
From S2P Require Import Knowledge.
From S2P Require Import KnowledgeFacts.
From S2P Require Import InformationNeed.
Open Scope string_scope.

(** ** [project_memory/policy.py] *)

Record ProjectMemoryPolicy := mkMemoryPolicy {
  mp_version : string;
  mp_mode : string;
  mp_max_records : Z;
  mp_max_query_chars : Z
}.

(** [ProjectMemoryPolicy.__post_init__]. *)
Definition check_memory_policy (p : ProjectMemoryPolicy) : result exc ProjectMemoryPolicy :=
  require (bool_decide (mp_mode p ∈ ["off"; "shadow"; "enforce"])) ;;
  require (truthy (mp_version p) && (str_len (mp_version p) <=? 80)%nat) ;;
  require ((1 <=? mp_max_records p) && (mp_max_records p <=? 50))%Z ;;
  require ((64 <=? mp_max_query_chars p) && (mp_max_query_chars p <=? 4000))%Z ;;
  Ok p.

Definition memory_policy_from_environment `{Builtins} (env : environment) : result exc ProjectMemoryPolicy :=
  let mode := lower (strip (default "off" (env "PRD_AGENT_PROJECT_MEMORY_MODE"))) in
  let version := strip (default (if String.eqb mode "off" then "project-memory-policy.off" else "project-memory-policy.v1")
                          (env "PRD_AGENT_PROJECT_MEMORY_POLICY_VERSION")) in
  records ← env_int env "PRD_AGENT_PROJECT_MEMORY_MAX_RECORDS" 12;
  chars ← env_int env "PRD_AGENT_PROJECT_MEMORY_MAX_QUERY_CHARS" 800;
  check_memory_policy (mkMemoryPolicy version mode records chars).

(** ** [project_memory/models.py] *)

Record MemoryBundle := mkMemoryBundle {
  mb_schema_version : string;
  mb_bundle_id : string;
  mb_run_id : string;
  mb_operation : string;
  mb_operation_sequence : Z;
  mb_memory_space_id : string;
  mb_memory_watermark : Z;
  mb_memory_policy_version : string;
  mb_memory_assignment_hash : string;
  mb_query : string;
  mb_records : list json;
  mb_conflicts : list json;
  mb_excluded_count : json;
  mb_source_set_hash : json;
  mb_bundle_hash : string
}.

(** [MemoryBundle.as_dict]. *)
Definition bundle_members (b : MemoryBundle) : mapping :=
  [("schema_version", JStr (mb_schema_version b)); ("bundle_id", JStr (mb_bundle_id b)); ("run_id", JStr (mb_run_id b));
   ("operation", JStr (mb_operation b)); ("operation_sequence", JInt (mb_operation_sequence b));
   ("memory_space_id", JStr (mb_memory_space_id b)); ("memory_watermark", JInt (mb_memory_watermark b));
   ("memory_policy_version", JStr (mb_memory_policy_version b)); ("memory_assignment_hash", JStr (mb_memory_assignment_hash b));
   ("query", JStr (mb_query b)); ("records", JArr (mb_records b)); ("conflicts", JArr (mb_conflicts b));
   ("excluded_count", mb_excluded_count b); ("source_set_hash", mb_source_set_hash b); ("bundle_hash", JStr (mb_bundle_hash b))].

Record PreparedProjectMemory := mkPreparedMemory {
  pr_payload : mapping;
  pr_bundle : option MemoryBundle;
  pr_capability_artifact_key : string;
  pr_capability_artifact_hash : string;
  pr_bundle_artifact_key : string;
  pr_bundle_artifact_hash : string;
  pr_replayed : bool
}.

(** What the gateway answers: the messages of the memory service. *)
Record MemorySourceRef := mkSourceRef {
  sr_source_kind : string;
  sr_binding_id : string;
  sr_source_id : string;
  sr_source_version : string;
  sr_locator : string;
  sr_content_hash : string
}.

Record MemoryRecord := mkMemoryRecord {
  mr_memory_id : string;
  mr_version : Z;
  mr_memory_type : string;
  mr_subject : string;
  mr_predicate : string;
  mr_value : json;
  mr_statement : string;
  mr_authority_class : string;
  mr_tags : list string;
  mr_sensitivity : string;
  mr_source_refs : list MemorySourceRef;
  mr_committed_epoch : Z;
  mr_content_hash : string
}.

Record MemoryConflict := mkMemoryConflict {
  mc_conflict_id : string;
  mc_subject : string;
  mc_predicate : string;
  mc_memory_ids : list string
}.

Record MemorySearchResult := mkSearchResult {
  ms_space_id : string;
  ms_memory_watermark : Z;
  ms_records : list MemoryRecord;
  ms_conflicts : list MemoryConflict;
  ms_excluded_count : Z;
  ms_source_set_hash : string
}.

(** ** [project_memory/module.py] *)

(** [_MEMORY_TYPES_BY_OPERATION]. *)
Definition memory_types (operation : string) : option (list string) :=
  assoc_get operation
    [("plan_information_need", ["DOMAIN_TERM"; "PROJECT_DECISION"; "PROJECT_CONSTRAINT"; "SOURCE_POINTER"; "OPEN_QUESTION"; "RISK_NOTE"]);
     ("plan_outline", ["DOMAIN_TERM"; "PROJECT_DECISION"; "PROJECT_CONSTRAINT"; "WORKFLOW_PREFERENCE"; "ACCEPTANCE_PATTERN"]);
     ("generate_unit", ["DOMAIN_TERM"; "PROJECT_DECISION"; "PROJECT_CONSTRAINT"; "ACCEPTANCE_PATTERN"; "SOURCE_POINTER"; "RISK_NOTE"]);
     ("revise_unit", ["PROJECT_DECISION"; "PROJECT_CONSTRAINT"; "WORKFLOW_PREFERENCE"; "ACCEPTANCE_PATTERN"; "OPEN_QUESTION"]);
     ("select_investigation_action", ["SOURCE_POINTER"; "OPEN_QUESTION"]);
     ("plan_or_generate_working_draft",
       ["DOMAIN_TERM"; "PROJECT_DECISION"; "PROJECT_CONSTRAINT"; "ACCEPTANCE_PATTERN"; "SOURCE_POINTER"; "OPEN_QUESTION"; "RISK_NOTE"]);
     ("generate_working_draft",
       ["DOMAIN_TERM"; "PROJECT_DECISION"; "PROJECT_CONSTRAINT"; "ACCEPTANCE_PATTERN"; "SOURCE_POINTER"; "OPEN_QUESTION"; "RISK_NOTE"]);
     ("repair_working_draft", ["PROJECT_DECISION"; "PROJECT_CONSTRAINT"; "WORKFLOW_PREFERENCE"; "ACCEPTANCE_PATTERN"; "OPEN_QUESTION"])].

(** [_bounded_strings]; the loop over a mapping stops once it has twenty, which
    the final slice does as well. *)
Fixpoint bounded_strings (value : json) : list string :=
  match value with
  | JStr s => [str_take 400 s]
  | JObj m =>
      let parts := map (fun kv => (kv.1, bounded_strings kv.2)) m in
      take 20 (concat (map snd (sort_by (fun a b => String.leb a.1 b.1) parts)))
  | JArr l => take 20 (concat (take 20 (map bounded_strings l)))
  | _ => []
  end.

(** [operation.replace("_", " ")]. *)
Fixpoint underscores_out (s : string) : string :=
  match s with
  | EmptyString => EmptyString
  | String c s' => String (if (Ascii.nat_of_ascii c =? 95)%nat then Ascii.ascii_of_nat 32 else c) (underscores_out s')
  end.

Definition query_keys : list string := ["task_message"; "requirement"; "query"; "unit_scope"; "quality_issues"; "user_feedback"].

(** What [RunContext] tells of the run, besides its identifiers. *)
Class RunContext := {
  rx_task_message : string;
  rx_memory_space_id : string;
  rx_memory_watermark : Z;
  rx_memory_policy_version : string;
  rx_memory_assignment_hash : string
}.

Definition memory_query `{RunContext} (p : ProjectMemoryPolicy) (operation : string) (payload : mapping) : string :=
  let found := concat (map (fun key => match jget key payload with Some v => bounded_strings v | None => [] end) query_keys) in
  let values := (rx_task_message :: underscores_out operation :: found)%list in
  str_take (Z.to_nat (mp_max_query_chars p))
    (str_join (str_of_codes [10%nat]) (dedup (List.filter truthy (map strip values)))).

Definition value_error : lexc := CallbackError ValueError.

(** A condition of a validator. *)
Definition demand (b : bool) : result lexc unit := if b then Ok tt else Raise value_error.

(** [not isinstance(value, int) or value < least], negated. *)
Definition at_least (least : Z) (j : json) : bool := match as_integer j with Some z => (least <=? z)%Z | None => false end.

Definition jtruthy_at (key : string) (m : mapping) : bool := match jget key m with Some j => jtruthy j | None => false end.
Definition at_least_at (key : string) (least : Z) (m : mapping) : bool := match jget key m with Some j => at_least least j | None => false end.

(** [isinstance(value.get(key), list)], with its items. *)
Definition list_at (key : string) (m : mapping) : option (list json) := match jget key m with Some (JArr l) => Some l | _ => None end.

Definition record_valid (j : json) : bool :=
  match j with
  | JObj m => jtruthy_at "memory_id" m && at_least_at "version" 1 m && jtruthy_at "content_hash" m
  | _ => false
  end.

Definition conflict_valid (j : json) : bool :=
  match j with
  | JObj m => jtruthy_at "conflict_id" m && match list_at "memory_ids" m with Some l => (2 <=? length l)%nat | None => false end
  | _ => false
  end.

(** [_normalize_search_result] of a mapping. *)
Definition validate_search (value : json) : result lexc json :=
  match value with
  | JObj m =>
      match list_at "records" m, list_at "conflicts" m with
      | Some records, Some conflicts =>
          demand (jtruthy_at "space_id" m && at_least_at "memory_watermark" 0 m && jtruthy_at "source_set_hash" m) ;;
          demand (forallb record_valid records) ;;
          demand (forallb conflict_valid conflicts) ;;
          Ok (JObj m)
      | _, _ => Raise value_error
      end
  | _ => Raise value_error
  end.

Definition source_ref_json (r : MemorySourceRef) : json :=
  JObj [("source_kind", JStr (sr_source_kind r)); ("binding_id", JStr (sr_binding_id r)); ("source_id", JStr (sr_source_id r));
        ("source_version", JStr (sr_source_version r)); ("locator", JStr (sr_locator r)); ("content_hash", JStr (sr_content_hash r))].

Definition record_json (r : MemoryRecord) : json :=
  JObj [("memory_id", JStr (mr_memory_id r)); ("version", JInt (mr_version r)); ("memory_type", JStr (mr_memory_type r));
        ("subject", JStr (mr_subject r)); ("predicate", JStr (mr_predicate r)); ("value", mr_value r); ("statement", JStr (mr_statement r));
        ("authority_class", JStr (mr_authority_class r)); ("tags", strs (mr_tags r)); ("sensitivity", JStr (mr_sensitivity r));
        ("source_refs", JArr (map source_ref_json (mr_source_refs r))); ("committed_epoch", JInt (mr_committed_epoch r));
        ("content_hash", JStr (mr_content_hash r))].

Definition memory_conflict_json (c : MemoryConflict) : json :=
  JObj [("conflict_id", JStr (mc_conflict_id c)); ("subject", JStr (mc_subject c)); ("predicate", JStr (mc_predicate c));
        ("memory_ids", strs (mc_memory_ids c))].

(** [_normalize_search_result] of a message. *)
Definition normalize_message (r : MemorySearchResult) : result lexc json :=
  demand (forallb (fun x => truthy (mr_memory_id x) && (1 <=? mr_version x)%Z && truthy (mr_content_hash x)) (ms_records r)) ;;
  demand (forallb (fun c => truthy (mc_conflict_id c) && (2 <=? length (mc_memory_ids c))%nat) (ms_conflicts r)) ;;
  demand (truthy (ms_space_id r) && (0 <=? ms_memory_watermark r)%Z && truthy (ms_source_set_hash r)) ;;
  Ok (JObj [("space_id", JStr (ms_space_id r)); ("memory_watermark", JInt (ms_memory_watermark r));
            ("records", JArr (map record_json (ms_records r))); ("conflicts", JArr (map memory_conflict_json (ms_conflicts r)));
            ("excluded_count", JInt (ms_excluded_count r)); ("source_set_hash", JStr (ms_source_set_hash r))]).

(** [_validate_bundle]. *)
Definition validate_bundle (value : json) : result lexc json :=
  match value with
  | JObj m =>
      demand (match jget "schema_version" m with Some (JStr s) => String.eqb s "memory-bundle.v1" | _ => false end &&
              forallb (fun k => jtruthy_at k m) ["schema_version"; "bundle_id"; "run_id"; "operation"; "memory_space_id";
                                                 "memory_assignment_hash"; "source_set_hash"; "bundle_hash"]) ;;
      match list_at "records" m, list_at "conflicts" m with
      | Some _, Some _ => Ok (JObj m)
      | _, _ => Raise value_error
      end
  | _ => Raise value_error
  end.

(** A vector with these fields and zeros. *)
Definition budget_with (attempts calls input output : Z) : BudgetVector := mkBudget attempts calls 0 0 0 0 input output 0.

(** The value of a key of a validated answer. *)
Definition answer_at (key : string) (value : json) : result lexc json :=
  match value with
  | JObj m => match jget key m with Some j => Ok j | None => Raise (CallbackError KeyError) end
  | _ => Raise (CallbackError TypeError)
  end.

(** [search_project_memory] of the gateway; what it answers may depend on
    anything that happened before. *)
Class MemoryGateway := search_project_memory : option (string -> string -> list string -> Z -> lworld -> result lexc MemorySearchResult).

Section memory.
Context `{Builtins} `{JsonLoads} `{LedgerEnv} `{RunContext} `{MemoryGateway} (p : ProjectMemoryPolicy).

Definition search_spec (operation : string) (sequence : Z) (query : string) (types : list string) : LedgerCallSpec :=
  mkCallSpec "CAPABILITY" "search_project_memory"
    ("capability:project_memory:" +:+ safe_segment operation +:+ ":sequence" +:+ pretty sequence)
    (request_hash (JObj [("memory_assignment_hash", JStr rx_memory_assignment_hash); ("memory_space_id", JStr rx_memory_space_id);
       ("memory_watermark", JInt rx_memory_watermark); ("memory_policy_version", JStr rx_memory_policy_version); ("query", JStr query);
       ("operation", JStr operation); ("memory_types", strs types); ("limit", JInt (mp_max_records p))]))
    (budget_with 0 1 0 0) "project-memory-search.v1".

(** A message is normalised where it arrives; a normalised message passes the
    validator unchanged. *)
Definition search_handlers : handlers :=
  mkHandlers validate_search (Some (fun _ => Ok (budget_with 0 1 0 0))) (fun _ => Ok []).

Definition search_invoke (gateway : string -> string -> list string -> Z -> lworld -> result lexc MemorySearchResult)
    (query operation : string) (types : list string) : LM json := fun w =>
  (w, result_bind normalize_message (gateway query operation types (mp_max_records p) w)).

Definition make_bundle (operation : string) (sequence : Z) (query : string) (search_hash : string) (records conflicts : list json)
    (excluded source_set : json) : MemoryBundle :=
  let hash := request_hash (JObj [("run_id", JStr ledger_run_id); ("operation", JStr operation); ("operation_sequence", JInt sequence);
    ("memory_assignment_hash", JStr rx_memory_assignment_hash); ("query", JStr query); ("search_artifact_hash", JStr search_hash);
    ("source_set_hash", source_set)]) in
  mkMemoryBundle "memory-bundle.v1" ("memory-bundle-" +:+ str_take 24 (bare_hash hash)) ledger_run_id operation sequence rx_memory_space_id
    rx_memory_watermark rx_memory_policy_version rx_memory_assignment_hash query records conflicts excluded source_set hash.

Definition bundle_spec (operation : string) (sequence : Z) (b : MemoryBundle) (search_hash : string) : LedgerCallSpec :=
  mkCallSpec "LOCAL_DERIVATION" "build_memory_bundle" ("memory:build:" +:+ safe_segment operation +:+ ":sequence" +:+ pretty sequence)
    (request_hash (JObj [("policy_version", JStr (mp_version p)); ("bundle_hash", JStr (mb_bundle_hash b));
       ("search_artifact_hash", JStr search_hash)])) no_budget "memory-bundle.v1".

Definition bundle_handlers : handlers := mkHandlers validate_bundle None (fun _ => Ok []).

(** The items of an answer that is a list. *)
Definition answer_items (key : string) (value : json) : result lexc (list json) :=
  result_bind (fun j => match j with JArr l => Ok l | _ => Raise (CallbackError TypeError) end) (answer_at key value).

(** The recall proper: the search, the bundle and what is sent of it. *)
Definition recall (gateway : string -> string -> list string -> Z -> lworld -> result lexc MemorySearchResult) (operation : string)
    (sequence : Z) (types : list string) (payload : mapping) : LM PreparedProjectMemory :=
  let query := memory_query p operation payload in
  found ← execute_capability (search_spec operation sequence query types) (search_invoke gateway query operation types) search_handlers;
  let search_hash := ra_content_hash (lo_artifact found) in
  space ← liftR (answer_at "space_id" (lo_value found));
  watermark ← liftR (answer_at "memory_watermark" (lo_value found));
  liftR (demand (match space with JStr s => String.eqb s rx_memory_space_id | _ => false end &&
                 match as_integer watermark with Some z => (z =? rx_memory_watermark)%Z | None => false end)) ;;
  source_set ← liftR (answer_at "source_set_hash" (lo_value found));
  records ← liftR (answer_items "records" (lo_value found));
  conflicts ← liftR (answer_items "conflicts" (lo_value found));
  excluded ← liftR (answer_at "excluded_count" (lo_value found));
  let bundle := make_bundle operation sequence query search_hash records conflicts excluded source_set in
  built ← execute_derivation (bundle_spec operation sequence bundle search_hash) (mret (JObj (bundle_members bundle))) bundle_handlers
            "PROJECT_MEMORY_BUNDLE";
  mret (mkPreparedMemory (if String.eqb (mp_mode p) "enforce" then assoc_set "project_memory" (lo_value built) payload else payload)
          (Some bundle) (ra_artifact_key (lo_artifact found)) search_hash (ra_artifact_key (lo_artifact built))
          (ra_content_hash (lo_artifact built)) (lo_replayed found && lo_replayed built)).

Definition unprepared (payload : mapping) : PreparedProjectMemory :=
  mkPreparedMemory payload None EmptyString EmptyString EmptyString EmptyString false.

(** [ProjectMemoryModule.prepare]. *)
Definition prepare_memory (operation : string) (sequence : Z) (payload : mapping) : LM PreparedProjectMemory :=
  match memory_types operation with
  | None => mret (unprepared payload)
  | Some types =>
      if String.eqb (mp_mode p) "off" || negb (truthy rx_memory_space_id) then mret (unprepared payload)
      else if negb (truthy rx_memory_assignment_hash) || negb (truthy rx_memory_policy_version) then raise value_error
      else match search_project_memory with
      | None => if String.eqb (mp_mode p) "shadow" then mret (unprepared payload) else raise value_error
      | Some gateway => recall gateway operation sequence types payload
      end
  end.

(** [decode_memory_bundle_artifact]. *)
Definition decode_memory_bundle_artifact (a : RunArtifact) : result lexc json :=
  if negb (String.eqb (ra_artifact_type a) "PROJECT_MEMORY_BUNDLE") then Raise value_error
  else if negb (String.eqb (ra_content_hash a) (sha256_hex (ra_content a))) then Raise value_error
  else decode_outcome (ra_content a) "memory-bundle.v1" validate_bundle.
End memory.

(** ** [model_execution/intent.py] *)

Record ModelCallIntent := mkIntent {
  mi_operation : string;
  mi_operation_sequence : Z;
  mi_operation_key : string;
  mi_prompt_version : string;
  mi_system_prompt : string;
  mi_max_output_tokens : Z;
  mi_output_schema : string;
  mi_base_request_hash : option string
}.

(** [ModelResponse] of the model client. *)
Record ModelResponse := mkResponse {
  rp_output : string;
  rp_token_usage : mapping;
  rp_model_id : string;
  rp_finish_reason : string;
  rp_provider_request_id : option string;
  rp_latency_ms : Z
}.

Record ModelExecutionResult := mkExecutionResult {
  me_response : ModelResponse;
  me_prepared_context : PreparedModelContext;
  me_replayed : bool
}.

(** ** [model_execution/module.py] *)

Definition str_or_null (s : option string) : json := match s with Some x => JStr x | None => JNull end.

Definition model_response_as_dict (r : ModelResponse) : json :=
  JObj [("output", JStr (rp_output r)); ("token_usage", JObj (rp_token_usage r)); ("model_id", JStr (rp_model_id r));
        ("finish_reason", JStr (rp_finish_reason r)); ("provider_request_id", str_or_null (rp_provider_request_id r));
        ("latency_ms", JInt (rp_latency_ms r))].

(** [str.isalnum] of a code point outside ASCII. *)
Class UnicodeAlnum := unicode_alnum : N -> bool.

(** [_safe_segment] of this module. *)
Definition key_segment `{Builtins} `{UnicodeAlnum} (value : string) : string :=
  let keep c := ((48 <=? c) && (c <=? 57) || (65 <=? c) && (c <=? 90) || (97 <=? c) && (c <=? 122) || (c =? 95) || (c =? 46) || (c =? 45)
                 || (128 <=? c) && unicode_alnum c)%N in
  str_take 60 (encode (map (fun c => if keep c then c else 45%N) (decode (lower value)))).

(** The model and the cancellation check; either may raise. *)
Class ModelClient := {
  model_complete : string -> string -> lworld -> result lexc ModelResponse;
  cancel_check : lworld -> result lexc unit
}.

(** Attributes that are set on the sink. *)
Record sink_attributes := mkSink {
  sk_latest_memory : option PreparedProjectMemory;
  sk_latest_context : option PreparedModelContext
}.

Definition fresh_sink : sink_attributes := mkSink None None.

(** Work on the ledger and on the attributes of the sink, which stay set when an
    exception is raised. *)
Definition EM (A : Type) : Type := sink_attributes -> LM (sink_attributes * result lexc A).

Definition em_ret {A} (a : A) : EM A := fun s => mret (s, Ok a).
Definition em_bind {A B} (m : EM A) (k : A -> EM B) : EM B := fun s =>
  x ← m s;
  match x.2 with Ok a => k a x.1 | Raise e => mret (x.1, Raise e) end.

(** [try: m] as a value. *)
Definition attempt {A} (m : LM A) : LM (result lexc A) := fun w =>
  match (a ← m; mret (Ok a)) w with (w', Raise e) => (w', Ok (Raise e)) | r => r end.

Definition on_ledger {A} (m : LM A) : EM A := fun s => r ← attempt m; mret (s, r).
Definition set_sink (f : sink_attributes -> sink_attributes) : EM unit := fun s => mret (f s, Ok tt).
Definition get_sink : EM sink_attributes := fun s => mret (s, Ok s).

Section execution.
Context `{Builtins} `{JsonLoads} `{LedgerEnv} `{FloatEq} `{ContextEnv} `{RunContext} `{MemoryGateway} `{client : ModelClient} `{UnicodeAlnum}
  (cp : ContextPolicy) (mp : ProjectMemoryPolicy).

(** The module makes its own [ContextPackModule], with the default estimator. *)
#[local] Existing Instance conservative_estimator.

Definition usage_valid (usage : mapping) : bool := forallb (fun kv => at_least 0 kv.2) usage.

(** [validate_model_response_dict]. *)
Definition validate_model_response_dict (value : json) : result lexc json :=
  match value with
  | JObj m =>
      match jget "output" m, default (JObj []) (jget "token_usage" m) with
      | Some (JStr output), JObj usage =>
          demand (usage_valid usage) ;;
          latency ← as_callback (py_int (default (JInt 0) (jget "latency_ms" m)));
          Ok (JObj [("output", JStr output); ("token_usage", JObj usage); ("model_id", JStr (str_get "model_id" "unknown" m));
                    ("finish_reason", JStr (str_get "finish_reason" "stop" m));
                    ("provider_request_id", default JNull (jget "provider_request_id" m)); ("latency_ms", JInt latency)])
      | _, _ => Raise value_error
      end
  | _ => Raise value_error
  end.

(** [model_response_from_dict]; it is given what the validator returned, so that
    the usage is a mapping. *)
Definition model_response_from_dict (value : json) : result lexc ModelResponse :=
  match value with
  | JObj m =>
      output ← as_callback (str_at "output" m);
      match default (JObj []) (jget "token_usage" m) with
      | JObj usage =>
          latency ← as_callback (py_int (default (JInt 0) (jget "latency_ms" m)));
          Ok (mkResponse output usage (str_get "model_id" "unknown" m) (str_get "finish_reason" "stop" m)
                (match jget "provider_request_id" m with Some JNull | None => None | Some j => Some (py_str j) end) latency)
      | _ => Raise (CallbackError TypeError)
      end
  | _ => Raise (CallbackError TypeError)
  end.

(** [int(usage.get(first) or usage.get(second) or 0)]. *)
Definition reported (first second : string) (usage : mapping) : result lexc Z :=
  if jtruthy_at first usage then as_callback (py_int (default JNull (jget first usage)))
  else if jtruthy_at second usage then as_callback (py_int (default JNull (jget second usage)))
  else Ok 0%Z.

Definition usage_of (value : json) : mapping :=
  match value with JObj m => match jget "token_usage" m with Some (JObj usage) => usage | _ => [] end | _ => [] end.

(** [model_budget_consumption]. *)
Definition model_budget_consumption (value : json) : result lexc BudgetVector :=
  input ← reported "input_tokens" "prompt_tokens" (usage_of value);
  output ← reported "output_tokens" "completion_tokens" (usage_of value);
  Ok (budget_with 1 0 input output).

(** A call of the model between two cancellation checks. *)
Definition ask_model (system_prompt text : string) : LM ModelResponse := fun w =>
  (w, cancel_check w ;; response ← model_complete system_prompt text w; cancel_check w ;; Ok response).

Definition budget_unavailable : lexc := CallbackError (External "ContextCompactionBudgetUnavailable").

Definition compaction_prompt : string :=
  "You compact validated PRD Agent context. Return one JSON object with operation_view. Preserve mandatory fields exactly and never create facts, identifiers, decisions, unknowns, conflicts, source references, credentials, or hidden reasoning.".

Definition compaction_spec (intent : ModelCallIntent) (request : json) (input output : Z) : LedgerCallSpec :=
  mkCallSpec "MODEL" "compact_context"
    ("model:compact_context:" +:+ key_segment (mi_operation intent) +:+ ":sequence" +:+ pretty (mi_operation_sequence intent))
    (request_hash (JObj [("policy_version", JStr (cp_version cp)); ("business_operation", JStr (mi_operation intent)); ("request", request)]))
    (budget_with 1 0 input output) "context-compaction-outcome.v1".

(** The callback of the compaction. *)
Definition compaction_invoke (original : mapping) (mandatory : list string) (request_json : string) : LM json :=
  response ← ask_model compaction_prompt request_json;
  match json_loads (rp_output response) with
  | None => raise value_error
  | Some raw =>
      view ← liftR (validate_semantic_view raw original mandatory);
      mret (JObj [("operation_view", JObj view); ("token_usage", JObj (rp_token_usage response)); ("model_id", JStr (rp_model_id response))])
  end.

Definition validate_compaction (original : mapping) (mandatory : list string) (value : json) : result lexc json :=
  match value with
  | JObj m =>
      match jget "operation_view" m with
      | Some (JObj view) =>
          validated ← validate_semantic_view (JObj view) original mandatory;
          match default (JObj []) (jget "token_usage" m) with
          | JObj usage =>
              Ok (JObj [("operation_view", JObj validated); ("token_usage", JObj usage); ("model_id", JStr (str_get "model_id" "unknown" m))])
          | _ => Raise value_error
          end
      | _ => Raise value_error
      end
  | _ => Raise value_error
  end.

(** [_semantic_compact]. *)
Definition semantic_compact (intent : ModelCallIntent) (request : json) : LM json :=
  match request with
  | JObj m =>
      let request_json := canonical_json request in
      remaining ← ledger_remaining;
      if (model_attempts remaining <? 2)%Z then raise budget_unavailable
      else
        let input := conservative_estimate request_json in
        let business := estimate_request (mi_system_prompt intent) (canonical_json (default (JObj []) (jget "operation_view" m))) in
        if (input_tokens remaining <? input + business)%Z then raise budget_unavailable
        else
          let output := Z.min (cp_semantic_max_output_tokens cp) (Z.max (output_tokens remaining - mi_max_output_tokens intent) 0) in
          if (output <=? 0)%Z then raise budget_unavailable
          else
            keys ← liftR (as_callback (py_iter (default (JArr []) (jget "mandatory_keys" m))));
            match jget "operation_view" m with
            | Some (JObj original) =>
                let mandatory := map py_str keys in
                outcome ← execute_model (compaction_spec intent request input output) (compaction_invoke original mandatory request_json)
                  (mkHandlers (validate_compaction original mandatory)
                     (Some (fun v => used ← reported "output_tokens" "completion_tokens" (usage_of v); Ok (budget_with 1 0 input used)))
                     (fun _ => Ok []));
                view ← liftR (answer_at "operation_view" (lo_value outcome));
                mret (JObj [("operation_view", view)])
            | _ => raise value_error
            end
  | _ => raise (CallbackError AttributeError)
  end.

(** The memory of a call: that of the draft that is repaired, or a recall. *)
Definition call_memory (intent : ModelCallIntent) (payload : mapping) (latest : option PreparedProjectMemory) : LM PreparedProjectMemory :=
  match String.eqb (mi_operation intent) "repair_working_draft", latest with
  | true, Some (mkPreparedMemory _ (Some bundle) ck ch bk bh _) =>
      mret (mkPreparedMemory (if String.eqb (mp_mode mp) "enforce" then assoc_set "project_memory" (JObj (bundle_members bundle)) payload
                              else payload) (Some bundle) ck ch bk bh true)
  | _, _ => prepare_memory mp (mi_operation intent) (mi_operation_sequence intent) payload
  end.

Definition call_base_hash (intent : ModelCallIntent) (memory : PreparedProjectMemory) : option string :=
  match pr_bundle memory, mi_base_request_hash intent with
  | Some _, Some base =>
      if String.eqb (mp_mode mp) "enforce"
      then Some (request_hash (JObj [("base_request_hash", JStr base); ("memory_assignment_hash", JStr rx_memory_assignment_hash);
                                     ("memory_bundle_artifact_hash", JStr (pr_bundle_artifact_hash memory))]))
      else Some base
  | _, base => base
  end.

Definition prepare_context (intent : ModelCallIntent) (memory : PreparedProjectMemory) : LM PreparedModelContext :=
  prepare cp true (mi_operation intent) (mi_operation_sequence intent) (mi_prompt_version intent) (mi_output_schema intent)
    (mi_system_prompt intent) (pr_payload memory) (Some (semantic_compact intent)) (call_base_hash intent memory).

Definition model_spec (intent : ModelCallIntent) (prepared : PreparedModelContext) (remaining : BudgetVector) : LedgerCallSpec :=
  mkCallSpec "MODEL" (mi_operation intent) (mi_operation_key intent) (pm_request_hash prepared)
    (budget_with 1 0 (pm_estimated_input_tokens prepared) (Z.min (Z.max (mi_max_output_tokens intent) 0) (Z.max (output_tokens remaining) 0)))
    "model-response.v1".

Definition model_handlers : handlers := mkHandlers validate_model_response_dict (Some model_budget_consumption) (fun _ => Ok []).

(** The call of the model with a prepared context. *)
Definition call_model (intent : ModelCallIntent) (prepared : PreparedModelContext) : LM ModelExecutionResult :=
  remaining ← ledger_remaining;
  outcome ← execute_model (model_spec intent prepared remaining)
    (response ← ask_model (mi_system_prompt intent) (pm_canonical_payload prepared); mret (model_response_as_dict response)) model_handlers;
  response ← liftR (model_response_from_dict (lo_value outcome));
  mret (mkExecutionResult response prepared (lo_replayed outcome)).

(** [ModelExecutionModule.execute]. *)
Definition execute (intent : ModelCallIntent) (payload : mapping) : EM ModelExecutionResult :=
  em_bind get_sink (fun sink =>
  em_bind (on_ledger (call_memory intent payload (sk_latest_memory sink))) (fun memory =>
  em_bind (set_sink (fun s => mkSink (Some memory) (sk_latest_context s))) (fun _ =>
  em_bind (on_ledger (prepare_context intent memory)) (fun prepared =>
  em_bind (set_sink (fun s => mkSink (sk_latest_memory s) (Some prepared))) (fun _ =>
  on_ledger (call_model intent prepared)))))).

(** ** [InformationNeedPlanner.plan] *)

Definition plan_intent (c : NeedPlanningContext) : ModelCallIntent :=
  mkIntent "plan_information_need" 1 "model:plan_information_need:plan1" "information-need-planner.v1"
    "You plan whether a PRD task needs external investigation. Return exactly one JSON object with question, suggested_requiredness, need_kind, source_types, and fallback. Never include credentials or hidden reasoning."
    1024 "information-need-plan-draft.v1" (Some (plan_request_hash c)).

Definition payload_members (c : NeedPlanningContext) : mapping := match planning_payload c with JObj m => m | _ => [] end.

Definition plan (resume_artifacts : list RunArtifact) (c : NeedPlanningContext) : EM PlannedNeedDecision :=
  em_bind (on_ledger (liftR (replay_plan resume_artifacts c))) (fun existing =>
  match existing with
  | Some decision => em_ret decision
  | None =>
      em_bind (execute (plan_intent c) (payload_members c)) (fun answer =>
      on_ledger (settle_plan c (rp_output (me_response answer)) (me_replayed answer)))
  end).
End execution.

(** ** Model calls are work on the ledger *)

(** A message is accepted by the validator as it was normalised. *)
Lemma normalized_valid (r : MemorySearchResult) j : normalize_message r = Ok j -> validate_search j = Ok j.
Proof.
  unfold normalize_message, demand. destruct (forallb _ (ms_records r)) eqn:E1; [|done]. cbn [mbind result_mbind result_bind].
  destruct (forallb _ (ms_conflicts r)) eqn:E2; [|done]. cbn [mbind result_mbind result_bind].
  destruct (_ && _ && _) eqn:E3; [|done]. cbn [mbind result_mbind result_bind]. intros [= <-].
  assert (R1 : forallb record_valid (map record_json (ms_records r)) = true).
  { rewrite forallb_forall in E1 |- *. intros x (m & <- & Hm)%in_map_iff. exact (E1 m Hm). }
  assert (R2 : forallb conflict_valid (map memory_conflict_json (ms_conflicts r)) = true).
  { rewrite forallb_forall in E2 |- *. intros x (c & <- & Hc)%in_map_iff. specialize (E2 c Hc).
    change (truthy (mc_conflict_id c) && (2 <=? length (map JStr (mc_memory_ids c)))%nat = true). by rewrite length_map. }
  set (rs := map record_json (ms_records r)) in *. set (cs := map memory_conflict_json (ms_conflicts r)) in *. clearbody rs cs.
  set (j := JObj _).
  assert (E : validate_search j = (demand (truthy (ms_space_id r) && (0 <=? ms_memory_watermark r)%Z && truthy (ms_source_set_hash r)) ;;
                demand (forallb record_valid rs) ;; demand (forallb conflict_valid cs) ;; Ok j)) by reflexivity.
  rewrite E, E3, R1, R2. reflexivity.
Qed.

Section program.
Context `{Builtins} `{JsonLoads} `{LedgerEnv}.
Context (ok : LedgerCallSpec -> handlers -> Prop) (okt : LedgerCallSpec -> Prop).

Definition em_program {A} (m : EM A) : Prop := forall s, ledger_program ok okt (sink_attributes * result lexc A) (m s).

Lemma attempt_program {A} (m : LM A) : ledger_program ok okt A m -> ledger_program ok okt (result lexc A) (attempt m).
Proof.
  intros Hm. unfold attempt. apply (lp_catch ok okt (result lexc A) (a ← m; mret (Ok a)) (fun e w => (w, Ok (Raise e)))).
  - apply lp_bind; [done|]. intros a. apply ret_program.
  - intros e. apply ret_program.
Qed.

Lemma on_ledger_program {A} (m : LM A) : ledger_program ok okt A m -> em_program (on_ledger m).
Proof. intros Hm s. apply lp_bind; [by apply attempt_program|]. intros r. apply ret_program. Qed.

Lemma em_ret_program {A} (a : A) : em_program (em_ret a).
Proof. intros s. apply ret_program. Qed.

Lemma em_bind_program {A B} (m : EM A) (k : A -> EM B) : em_program m -> (forall a, em_program (k a)) -> em_program (em_bind m k).
Proof. intros Hm Hk s. apply lp_bind; [apply Hm|]. intros [s' [a|e]]; [apply Hk|apply ret_program]. Qed.

Lemma set_sink_program f : em_program (set_sink f).
Proof. intros s. apply ret_program. Qed.

Lemma get_sink_program : em_program get_sink.
Proof. intros s. apply ret_program. Qed.
End program.

Create HintDb ledger_steps.
#[local] Hint Resolve ret_program on_ledger_program em_ret_program em_bind_program set_sink_program get_sink_program : ledger_steps.

Section execution_facts.
Context `{Builtins} `{JsonLoads} `{LedgerEnv} `{FloatEq} `{ContextEnv} `{RunContext} `{MemoryGateway} `{client : ModelClient} `{UnicodeAlnum}
  (cp : ContextPolicy) (mp : ProjectMemoryPolicy).
#[local] Existing Instance conservative_estimator.

Section calls.
Context (ok : LedgerCallSpec -> handlers -> Prop) (okt : LedgerCallSpec -> Prop) (intent : ModelCallIntent).

(** Every call that a model call can make is allowed. *)
Record calls_ok : Prop := {
  co_search : forall query types, ok (search_spec mp (mi_operation intent) (mi_operation_sequence intent) query types) search_handlers;
  co_bundle : forall b hash, ok (bundle_spec mp (mi_operation intent) (mi_operation_sequence intent) b hash) bundle_handlers;
  co_pack : forall prompt schema k, ok (pack_spec cp (mi_operation intent) (mi_operation_sequence intent) prompt schema k) pack_handlers;
  co_compact : forall request input output original mandatory,
    ok (compaction_spec cp intent request input output)
      (mkHandlers (validate_compaction original mandatory)
         (Some (fun v => used ← reported "output_tokens" "completion_tokens" (usage_of v); Ok (budget_with 1 0 input used))) (fun _ => Ok []));
  co_model : forall prepared remaining, ok (model_spec intent prepared remaining) model_handlers
}.

Context (Hok : calls_ok).

Lemma recall_program gateway types payload :
  ledger_program ok okt PreparedProjectMemory (recall mp gateway (mi_operation intent) (mi_operation_sequence intent) types payload).
Proof.
  unfold recall. apply lp_bind.
  { apply lp_execute; [apply (co_search Hok)|]. apply (lp_read ok okt json). }
  intros found. do 3 (apply lp_bind; [apply ret_program|intros ?]). do 4 (apply lp_bind; [apply ret_program|intros ?]).
  apply lp_bind; [|intros built; apply ret_program]. unfold execute_derivation. cbn [negb orb truthy]. apply lp_execute; [apply (co_bundle Hok)|apply ret_program].
Qed.

Lemma call_memory_program payload latest : ledger_program ok okt PreparedProjectMemory (call_memory mp intent payload latest).
Proof.
  assert (Hp : ledger_program ok okt PreparedProjectMemory (prepare_memory mp (mi_operation intent) (mi_operation_sequence intent) payload)).
  { unfold prepare_memory. destruct (memory_types _); [|apply ret_program]. destruct (_ || _); [apply ret_program|].
    destruct (_ || _); [apply ret_program|]. destruct search_project_memory; [apply recall_program|]. destruct (String.eqb _ _); apply ret_program. }
  unfold call_memory. destruct (String.eqb _ _); [|done]. destruct latest as [[? [b|] ? ? ? ? ?]|]; try done. apply ret_program.
Qed.

Lemma ask_model_program prompt text : ledger_program ok okt ModelResponse (ask_model prompt text).
Proof. apply (lp_read ok okt ModelResponse). Qed.

Lemma semantic_compact_program request : ledger_program ok okt json (semantic_compact cp intent request).
Proof.
  unfold semantic_compact. destruct request; try apply ret_program. apply lp_bind; [apply (lp_read ok okt)|]. intros remaining.
  do 3 (match goal with |- context [if ?b then _ else _] => destruct b end; [apply ret_program|]).
  apply lp_bind; [apply ret_program|]. intros keys. destruct (jget "operation_view" _) as [[]|]; try apply ret_program.
  apply lp_bind; [|intros o; apply lp_bind; [apply ret_program|intros v; apply ret_program]].
  apply lp_execute; [apply (co_compact Hok)|]. unfold compaction_invoke. apply lp_bind; [apply ask_model_program|]. intros response.
  destruct (json_loads _); [|apply ret_program]. apply lp_bind; [apply ret_program|intros view; apply ret_program].
Qed.

Lemma prepare_context_program memory : ledger_program ok okt PreparedModelContext (prepare_context cp mp intent memory).
Proof.
  apply prepare_program; [intros k; apply (co_pack Hok)|]. intros f request [= <-]. apply semantic_compact_program.
Qed.

Lemma call_model_program prepared : ledger_program ok okt ModelExecutionResult (call_model intent prepared).
Proof.
  unfold call_model. apply lp_bind; [apply (lp_read ok okt)|]. intros remaining.
  apply lp_bind; [|intros o; apply lp_bind; [apply ret_program|intros r; apply ret_program]].
  apply lp_execute; [apply (co_model Hok)|]. apply lp_bind; [apply ask_model_program|]. intros r. apply ret_program.
Qed.

Lemma execute_program payload : em_program ok okt (execute cp mp intent payload).
Proof.
  unfold execute. eauto 20 using call_memory_program, prepare_context_program, call_model_program with ledger_steps.
Qed.
End calls.

(** ** Calls one after another *)

Fixpoint run_calls (calls : list (ModelCallIntent * mapping)) : EM unit :=
  match calls with
  | [] => em_ret tt
  | (intent, payload) :: rest => em_bind (execute cp mp intent payload) (fun _ => run_calls rest)
  end.

(** A worker that makes these calls until one raises. *)
Definition life (calls : list (ModelCallIntent * mapping)) : LM unit :=
  x ← run_calls calls fresh_sink;
  match x.2 with Ok u => mret u | Raise e => raise e end.

Lemma life_program ok okt calls : (forall c, c ∈ calls -> calls_ok ok c.1) -> ledger_program ok okt unit (life calls).
Proof.
  intros Hok. apply lp_bind; [|intros [s [u|e]]; apply ret_program].
  assert (Hp : em_program ok okt (run_calls calls)); [|apply Hp]. induction calls as [|[intent payload] calls IH]; cbn [run_calls];
    [apply em_ret_program|].
  apply em_bind_program; [|intros r; apply IH; intros c Hc; apply Hok; by right]. apply execute_program. apply (Hok (intent, payload)). by left.
Qed.

(** Model calls are made at most once.  However many workers work on a run
    one after another, whatever calls each of them makes until it stops and
    whatever messages are lost, no recall of memory, no context pack, no
    compaction and no call of the model is started twice; and what was started is
    durably marked as begun. *)
Theorem model_calls_at_most_once (l : RunBudget) (lives : list (list (ModelCallIntent * mapping))) :
  let w := run_lives l (map life lives) new_run_world in
  NoDup (lw_calls w) /\ forall k, k ∈ lw_calls w -> begun k (d_entries (lw_durable w)).
Proof.
  intros w. destruct (run_lives_good l (map life lives) new_run_world) as [(_ & Hn & Hc & _) _]; [|apply new_run_inv|].
  - apply Forall_forall. intros m (calls & -> & _)%list_elem_of_fmap. apply life_program. by split.
  - split; [done|]. intros k Hk. by apply Hc.
Qed.
End execution_facts.

(** ** What the model is asked *)

(** A callback that does the same leaves the call the same. *)
Lemma try_call_ext `{LedgerEnv} {A B} (m m' : LM A) (f : A -> LM B) failed w : (forall w, m w = m' w) -> try_call m f failed w = try_call m' f failed w.
Proof. intros Hm. unfold try_call. by rewrite Hm. Qed.

Lemma bind_ext {A B} (m m' : LM A) (k k' : A -> LM B) w :
  m w = m' w -> (forall w' a, m w = (w', Ok a) -> k a w' = k' a w') -> (x ← m; k x) w = (x ← m'; k' x) w.
Proof. intros Hm Hk. cbv [mbind M_bind]. rewrite <- Hm. destruct (m w) as [w' [a|e]]; [by apply Hk|done]. Qed.

Lemma perform_call_ext `{Builtins} `{LedgerEnv} s invoke invoke' h ty w :
  (forall w, invoke w = invoke' w) -> perform_call s invoke h ty w = perform_call s invoke' h ty w.
Proof.
  intros Hi. unfold perform_call. apply bind_ext; [done|]. intros w1 u _. apply try_call_ext. intros w2. apply bind_ext; [apply Hi|done].
Qed.

Lemma execute_call_ext `{Builtins} `{JsonLoads} `{LedgerEnv} s invoke invoke' h kind ty w :
  (forall w, invoke w = invoke' w) -> execute_call s invoke h kind ty w = execute_call s invoke' h kind ty w.
Proof.
  intros Hi. unfold execute_call. apply bind_ext; [done|]. intros w1 _ _. apply bind_ext; [done|]. intros w2 entries _.
  destruct (entries !! cs_operation_key s).
  - apply bind_ext; [done|]. intros w3 _ _. repeat (destruct (String.eqb _ _); [done|]). by apply perform_call_ext.
  - apply bind_ext; [done|]. intros w3 _ _. by apply perform_call_ext.
Qed.

Section asked.
Context `{Builtins} `{JsonLoads} `{LedgerEnv} `{FloatEq} `{ContextEnv} `{RunContext} `{MemoryGateway} `{UnicodeAlnum}
  (cp : ContextPolicy) (mp : ProjectMemoryPolicy).
#[local] Existing Instance conservative_estimator.

(** Without the semantic step the compactor is not used. *)
Lemma prepare_compactor operation sequence prompt schema sp payload f g base w :
  cp_semantic_compaction_enabled cp = false ->
  prepare cp true operation sequence prompt schema sp payload (Some f) base w = prepare cp true operation sequence prompt schema sp payload (Some g) base w.
Proof.
  intros Hoff. unfold prepare. destruct (String.eqb (cp_mode cp) "off"); [done|]. cbn [negb]. apply bind_ext; [done|]. intros w1 d _.
  apply bind_ext; [|done]. unfold semantic_step. by rewrite Hoff, !andb_false_r.
Qed.

Lemma prepared_canonical operation sequence prompt schema sp payload compact base w w' r :
  prepare cp true operation sequence prompt schema sp payload compact base w = (w', Ok r) ->
  pm_canonical_payload r = canonical_json (JObj (pm_payload r)).
Proof.
  unfold prepare. destruct (String.eqb (cp_mode cp) "off"); [by intros [= _ <-]|]. cbn [negb]. intros E. do 3 apply bind_ok in E as (? & ? & _ & E).
  apply bind_ok in E as (? & o & _ & E). destruct (_ && _); [done|]. by injection E as _ <-.
Qed.

(** The tokens of a request with the reserved answer and the margin are within
    the window of the model. *)
Definition fits (system_prompt text : string) : Prop :=
  (estimate_request system_prompt text + cp_reserved_output_tokens cp + cp_emergency_margin_tokens cp <= cp_context_window_tokens cp)%Z.

(** The models agree on what fits. *)
Definition agree (model model' : ModelClient) (system_prompt : string) : Prop :=
  (forall w, cancel_check (ModelClient := model) w = cancel_check (ModelClient := model') w) /\
  (forall text w, fits system_prompt text ->
    model_complete (ModelClient := model) system_prompt text w = model_complete (ModelClient := model') system_prompt text w).

Lemma call_model_agree (model model' : ModelClient) intent prepared w :
  agree model model' (mi_system_prompt intent) -> fits (mi_system_prompt intent) (pm_canonical_payload prepared) ->
  call_model (client := model) intent prepared w = call_model (client := model') intent prepared w.
Proof.
  intros [Hcancel Hagree] Hfits. unfold call_model. apply bind_ext; [done|]. intros w5 remaining _. apply bind_ext; [|done].
  apply execute_call_ext. intros w6. apply bind_ext; [|done]. unfold ask_model. by rewrite Hcancel, Hagree.
Qed.

Lemma prepare_context_fits (model : ModelClient) intent memory w w' prepared :
  cp_mode cp = "enforce" -> prepare_context (client := model) cp mp intent memory w = (w', Ok prepared) ->
  fits (mi_system_prompt intent) (pm_canonical_payload prepared).
Proof.
  intros Hmode Ex. unfold prepare_context in Ex. rewrite (prepared_canonical _ _ _ _ _ _ _ _ _ _ _ Ex).
  apply prepare_stages in Ex as (d & d1 & d2 & w1 & w2 & o & _ & _ & _ & _ & _ & _ & Hle); [|by rewrite Hmode].
  specialize (Hle Hmode). unfold fits, estimate, hard_input_tokens in *. lia.
Qed.

Lemma on_ledger_ext {A} (m m' : LM A) s w : m w = m' w -> on_ledger m s w = on_ledger m' s w.
Proof. intros Hm. unfold on_ledger, attempt. apply bind_ext; [|done]. cbv [mbind M_bind]. by rewrite Hm. Qed.

Lemma on_ledger_Ok {A} (m : LM A) s w w' s' a : on_ledger m s w = (w', Ok (s', Ok a)) -> m w = (w', Ok a).
Proof.
  unfold on_ledger, attempt. cbv [mbind M_bind mret M_ret]. destruct (m w) as [w1 [x|e]]; [|by intros [=]]. by intros [= -> _ ->].
Qed.

(** C9: the model is never asked more than fits its window.  With an enforced
    policy and no semantic step, what a model would answer to a request that is
    too large has no influence on a call: two models that agree on all requests
    that fit give the same result, the same exception and the same writes. *)
Theorem oversized_never_asked (model model' : ModelClient) (intent : ModelCallIntent) (payload : mapping) (s : sink_attributes) (w : lworld) :
  cp_mode cp = "enforce" -> cp_semantic_compaction_enabled cp = false -> agree model model' (mi_system_prompt intent) ->
  execute (client := model) cp mp intent payload s w = execute (client := model') cp mp intent payload s w.
Proof.
  intros Hmode Hoff Hagree. unfold execute, em_bind. do 3 (apply bind_ext; [reflexivity|]; intros ? [? [?|?]] _; cbn [fst snd]; [|reflexivity]).
  apply bind_ext; [apply on_ledger_ext; unfold prepare_context; by apply prepare_compactor|]. intros w3 [s3 [prepared|e]] Ep; cbn [fst snd]; [|done].
  apply bind_ext; [done|]. intros w4 [s4 [[]|e]] _; cbn [fst snd]; [|done]. apply on_ledger_ext, call_model_agree; [done|].
  apply on_ledger_Ok in Ep. exact (prepare_context_fits model intent _ _ _ prepared Hmode Ep).
Qed.
End asked.

(** ** The budget and the answers *)

Section budget.
Context `{Builtins} `{JsonLoads} `{LedgerEnv} `{FloatEq} `{ContextEnv} `{RunContext} `{MemoryGateway} `{client : ModelClient} `{UnicodeAlnum}
  (cp : ContextPolicy) (mp : ProjectMemoryPolicy).

(** The operation keys that a model call can use. *)
Definition call_keys (i : ModelCallIntent) : list string :=
  [mi_operation_key i; "model:compact_context:" +:+ key_segment (mi_operation i) +:+ ":sequence" +:+ pretty (mi_operation_sequence i);
   "context:build:" +:+ safe_segment (mi_operation i) +:+ ":sequence" +:+ pretty (mi_operation_sequence i);
   "capability:project_memory:" +:+ safe_segment (mi_operation i) +:+ ":sequence" +:+ pretty (mi_operation_sequence i);
   "memory:build:" +:+ safe_segment (mi_operation i) +:+ ":sequence" +:+ pretty (mi_operation_sequence i)].

Definition all_keys (calls : list (ModelCallIntent * mapping)) : list string := concat (map (fun c => call_keys c.1) calls).

(** The attempts that an operation reserves. *)
Definition attempts_of (k : string) : Z := if String.prefix "model:" k then 1 else 0.

(** A worker that starts on a run with this budget. *)
Definition started (l : RunBudget) : lworld :=
  mkLWorld (mkDurable ∅ ∅ [] no_budget) 0 [] (mkLState ∅ ∅ (mkBudgetState l no_budget no_budget)).

Lemma all_keys_elem calls c k : c ∈ calls -> k ∈ call_keys c.1 -> k ∈ all_keys calls.
Proof.
  intros Hc Hk. apply list_elem_of_In, in_concat. exists (call_keys c.1).
  split; [apply in_map_iff; exists c; split; [done|by apply list_elem_of_In]|by apply list_elem_of_In].
Qed.

Lemma calls_bounded calls c : c ∈ calls -> String.prefix "model:" (mi_operation_key c.1) = true ->
  calls_ok cp mp (bounded_call MODEL_ATTEMPTS attempts_of (fun k => k ∈ all_keys calls)) c.1.
Proof.
  intros Hc Hm. pose proof (all_keys_elem calls c) as Hk. split; intros; split_and!; try reflexivity;
    try (apply Hk; [done|]; unfold call_keys; set_solver).
  - intros f v x [= <-] [= <-]. reflexivity.
  - done.
  - done.
  - intros f v x [= <-] E. cbv [mbind result_mbind result_bind] in E. destruct (reported _ _ _); [|done]. injection E as <-. reflexivity.
  - unfold attempts_of. cbn [cs_operation_key model_spec]. by rewrite Hm.
  - intros f v x [= <-] E. unfold attempts_of. cbn [cs_operation_key model_spec]. rewrite Hm. unfold model_budget_consumption in E.
    cbv [mbind result_mbind result_bind] in E. destruct (reported _ _ _); [|done]. destruct (reported _ _ _); [|done]. by injection E as <-.
Qed.


(** A response that the validator accepts is read back from the ledger as it was. *)
Theorem response_roundtrip (r : ModelResponse) : usage_valid (rp_token_usage r) = true ->
  result_bind model_response_from_dict (validate_model_response_dict (model_response_as_dict r)) = Ok r.
Proof.
  intros Hu.
  assert (E : validate_model_response_dict (model_response_as_dict r) = (demand (usage_valid (rp_token_usage r)) ;; Ok (model_response_as_dict r)))
    by reflexivity.
  rewrite E. unfold demand. rewrite Hu. destruct r as [o u m f [q|] t]; reflexivity.
Qed.
End budget.

(** ** A concrete call *)

Section demo.
(** A short digest: the beginning of the text. *)
#[local] Instance call_builtins : Builtins :=
  {| repr_container := @repr_container example_builtins; int_of_str := @int_of_str example_builtins;
     lower := str_lower; sha256_hex := fun s => "h" +:+ str_take 40 s |}.
#[local] Existing Instance knowledge_loads.
#[local] Existing Instance need_ledger_env.
#[local] Instance demo_floats : FloatEq := {| float_eqb _ _ := false; float_eqb_int _ _ := false |}.
#[local] Instance demo_env : ContextEnv := {| upper s := s; context_task_id := "task" |}.
#[local] Instance demo_context_of_run : RunContext :=
  {| rx_task_message := "add a field"; rx_memory_space_id := EmptyString; rx_memory_watermark := 0; rx_memory_policy_version := EmptyString;
     rx_memory_assignment_hash := EmptyString |}.
#[local] Instance demo_gateway : MemoryGateway := None.
#[local] Instance demo_alnum : UnicodeAlnum := fun _ => false.

(** A model that answers what fits, and one that answers anything. *)
Definition answering (answer : string -> string) : ModelClient :=
  {| model_complete _ text _ := Ok (mkResponse (answer text) [("output_tokens", JInt 3)] "m" "stop" None 1); cancel_check _ := Ok tt |}.

Definition short_only (text : string) : string := if (Z.of_nat (String.length text) <=? 40000)%Z then demo_output else "too long".

Definition demo_policy : ContextPolicy := mkPolicy "v1" "enforce" 16000 1000 800 400 100 false 200 3 3 200.
Definition no_memory : ProjectMemoryPolicy := mkMemoryPolicy "project-memory-policy.off" "off" 12 800.

Definition demo_intent : ModelCallIntent := plan_intent demo_context.
Definition demo_calls : list (ModelCallIntent * mapping) := [(demo_intent, payload_members demo_context)].
Definition demo_limits : RunBudget := mkRunBudget (fun _ => 100000%Z).

Definition answer_of (r : lworld * result lexc (sink_attributes * result lexc ModelExecutionResult)) : option (string * bool) :=
  match r.2 with Ok (_, Ok x) => Some (rp_output (me_response x), me_replayed x) | _ => None end.

Example demo_call_made :
  answer_of (execute (client := answering short_only) demo_policy no_memory demo_intent (payload_members demo_context) fresh_sink
    (started demo_limits)) = Some (demo_output, false).
Proof. vm_compute. reflexivity. Qed.

Lemma oversized_never_asked_witness :
  execute (client := answering short_only) demo_policy no_memory demo_intent (payload_members demo_context) fresh_sink (started demo_limits) =
  execute (client := answering (fun _ => demo_output)) demo_policy no_memory demo_intent (payload_members demo_context) fresh_sink
    (started demo_limits).
Proof.
  refine (oversized_never_asked demo_policy no_memory (answering short_only) (answering (fun _ => demo_output)) demo_intent
            (payload_members demo_context) fresh_sink (started demo_limits) eq_refl eq_refl _).
  split; [reflexivity|]. intros text w Hfits. cbn [model_complete answering]. unfold short_only.
  destruct (Z.leb_spec (Z.of_nat (String.length text)) 40000) as [|Hlong]; [reflexivity|]. exfalso.
  unfold fits, estimate_request, conservative_estimator, conservative_estimate in Hfits. rewrite !length_app_s in Hfits.
  cbn [demo_policy cp_reserved_output_tokens cp_emergency_margin_tokens cp_context_window_tokens] in Hfits.
  Z.div_mod_to_equations. lia.
Defined.

End demo.
